(* ===== verification/_CoqProject ===== *)
-Q . S2P
Prelude.v
PyStr.v
Unicode.v
Json.v
Identifiers.v
Sha256.v
Base64.v
Timestamp.v
Sql.v
JobState.v
JobProofs.v
Checkpoints.v
EventOutbox.v
OutboxLog.v
Scheduler.v
Fat12.v
ReadErrors.v
Messages.v
JsonLines.v
Lifecycle.v
AiBudget.v
ExportQueue.v
UnionFind.v
DuplicateGroups.v
ProtectedAudit.v
PartitionDiscovery.v
FilesystemEnumeration.v
MediaIdentity.v
MediaCheckpoints.v
FatEntries.v
EntryNormalization.v
NtfsEntries.v
HostProtocol.v
Migrations.v
Paths.v
Devices.v
StorageInspection.v
DestinationSeparation.v
DestinationContract.v
LocalExport.v
ReadOnly.v
RemovableSources.v
Identity.v
SystemDisks.v
SafetyAudit.v
ScannerSandbox.v
Fingerprint.v
DiskHealth.v
BlockDevices.v
PhotoRec.v
PhotoRecResume.v
ScratchStore.v
ContentExtraction.v
CarvedIngestion.v
SecretStore.v
FindingsTable.v
DeviceWizard.v
MediumWorkflow.v
ContentSignature.v
