(* ===== verification/Prelude.v ===== *)
(** * Reperio: a verification library of the recovery workstation's core

    Reperio recovers files from damaged storage media.  A privileged host daemon inspects the
    storage, denies the disks of the running system, makes the source read-only and starts a
    confined scanner.  A control plane keeps durable jobs, checkpoints and events in a SQLite
    catalog.  The scanner reads the medium, runs its stages and reports over a line protocol;
    what it recovers goes to a scratch store under its digest.  Workers classify, group, page and
    export what was found.  This library translates the deterministic core of these parts,
    function by function, and proves what makes them correct.  Names follow the sources; a
    comment before a definition names the file under src/, the lines and the function it
    translates.  The file of a component names the source it models in its own header, together
    with what its model leaves out.

    ** Conventions

    A function that may raise returns [result E A], with the exceptions as values of [E]; a
    table of the catalog is a list of rows, a statement a function on it, a CHECK or UNIQUE
    constraint a test that may refuse it; a connection is the table with the snapshot an open
    transaction would restore; a directory or disk is a finite map from paths.  Python integers
    are [Z], text is [string] over the code points below 256 (lists of code points in [Unicode],
    [EntryNormalization] and the names of [Fat12]), bytes are lists of [Z] below 256.  Code
    outside src/ (the reader of a medium, a spawned tool, the cipher, the kernel, the resolution
    of paths) is a parameter, or a class whose laws state its documented behaviour.  A system call
    that may fail does so as a record of faults decides; the file headers list the calls that
    cannot fail in the model.  SHA-256 is computed, and nothing is assumed of its strength: where
    a theorem depends on it, the other case is a collision of two messages the statement names,
    the ones the code hashed.

    ** Fuel

    Loops that are not structural take fuel, and theorems show that what the definitions pass is
    enough: the worklist over devices takes one step per device and edge, the ancestry one call
    per child, the walk of holders one step per source number and entry of the tree, the copy loop
    one step per byte and one more, the pieces of an extent one per chunk and one more, browsing one request
    per row and one more, the UTF-8 decoder one step per byte, a chain of FAT12 one per cluster
    and two more, the union-find one per key, chunking of text one per character, planning one
    wave per stage.

    ** Shared ground

    - [Prelude]: results, integers, lists, reachability, tactics.
    - [PyStr], [Unicode], [Json], [JsonLines], [Identifiers], [Messages] (values and the line
      protocol), [Sha256], [Base64], [Timestamp], [Sql], [Paths]: text, UTF-8 with its error
      handlers, JSON with its canonical serialiser and parser, opaque identifiers, the hash,
      base 64, UTC timestamps in their fixed format, statements on tables, pure paths.

    ** The catalog (src/shared, src/migrations)

    - [JobState], [JobProofs] (job_state.py): the job table as a state machine with leases,
      retries and idempotent creation.  The theorems: the invariant of every reachable table, the
      history of a job, what a claim returns, and that a live lease is exclusive.
    - [Checkpoints] (checkpoints.py): saving in a transaction with supersession, loading with
      validation.  What loads from a row is what its integrity column was computed for, unless
      the two messages hashed for them collide.  [MediaIdentity], [MediaCheckpoints]
      (media_identity.py, media_checkpoints.py) bind rows to a medium.
    - [EventOutbox], [OutboxLog] (event_outbox.py): per-case ordered events; they refine an
      append-only log, against which a following client is proved right.  The lemmas also show
      where compaction and the autocommit mode break that promise.
    - [Migrations] (runner.py): the runner with its backup and transaction; it completes the
      version history or leaves the catalog alone.
    - [ScratchStore] (scratch_store.py): content under its digest; a put is atomic under the
      faults of its environment.  [SecretStore] (secret_store.py): values under a master key; it
      refines a map, and everything it holds is sealed under the last key.
    - [DestinationContract] (destination_contract.py): profiles, snapshots and status records.

    ** The host daemon (src/hostd)

    - [Devices], [StorageInspection], [ReadOnly]: facts of devices, the inspection of mounts and
      holders, the read-only preparation.  A prepared source is read-only on every device with
      one of its numbers, and no dependent device has a writable mount among the mounts the
      inspection can read; an Example shows a mount it cannot.
    - [DestinationSeparation]: the mount that backs a destination and the closure of a device
      under stacking.  The verdict is exact, and an accepted destination's mount, the first of
      the deepest mounts over the path, is on no device of the source; an Example shows that a
      mount shadowed by a later one at the same place is judged in its stead.
    - [SystemDisks], [Identity], [RemovableSources], [BlockDevices]: when a source is denied,
      identifiers that resolve exactly, what a launch of a removable source proves, and the
      enumeration from sysfs.
    - [ScannerSandbox]: the launch specification; whatever is launched is the one confined
      command on a verified source.  [SafetyAudit]: the hash-chained log that records it; its
      history verifies, two logs with one last hash agree unless two named records collide, a
      failed append is contained, and redaction makes every value harmless while it keeps keys.
    - [Fingerprint], [DiskHealth], [HostProtocol]: sampled fingerprints, which pin the facts and
      the samples unless the two messages hashed for them collide; the health report of the one
      device whose kernel name and number were checked; the requests the daemon accepts.

    ** The scanner (src/scanner)

    - [Scheduler], [Lifecycle] (scheduler.py, lifecycle.py): the stage graph, planning under an
      I/O limit, pause and restart; a scan never deadlocks.
    - [ReadErrors]: the resilient reader; every read returns bytes or an accounted gap.
    - [Fat12], [FatEntries], [NtfsEntries]: the FAT12 volume, with its table, slots and chains
      tied to the bytes of the medium, and the metadata of the other file systems.
    - [PartitionDiscovery], [FilesystemEnumeration], [EntryNormalization]: the external tools
      that list a volume, and the entries made from their output.
    - [PhotoRec], [PhotoRecResume], [CarvedIngestion]: the command line of the carver, resuming
      a session only under its own binding, and the ingestion of what it leaves.
    - [ContentExtraction]: the content of entries streamed into the store; a complete one holds,
      from the extent its checkpoint resumes at, the bytes of the source or reported gaps.

    ** The workers (src/worker)

    - [LocalExport], [ExportQueue]: the verified copy and the queue around it.
    - [UnionFind], [DuplicateGroups]: exact, image and video groups; the clusters are the
      connected components of the pairs of candidates a predicate accepts.
    - [FindingsTable]: pages behind a cursor; browsing skips and repeats nothing.
    - [DeviceWizard], [MediumWorkflow]: when a scan may start, and the batch over several media.
    - [AiBudget], [ProtectedAudit], [ContentSignature]: chunks and budgets, the audit state
      machine, and the type of a file from its first bytes.

    ** Not modelled

    Input and output behind the interfaces above; the HTTP application and the web interface; the
    parsers of browser, platform and provider formats, with their sandbox; archive inspection;
    notification rules; language models; scripts.  They render views, call third-party code or
    read third-party formats, and the manifest gives the reason for each.  Of Python: the limits
    of recursion, digits (except where a header says so) and memory, floating point, and text
    beyond Latin-1 outside the three files named above; of SQLite: the overflow of its 64-bit
    integers.  Concurrent processes appear only where a theorem quantifies over the interleaving
    of operations: the job table, the outbox, the audit log and the findings table. *)

From Stdlib Require Import ZArith Lia String Ascii.
From stdpp Require Import base list strings gmap sorting.

Local Open Scope Z_scope.

(** ** Results of fallible code *)

(** A Python function that may raise is a function into [result E A]. *)
Inductive result (E A : Type) : Type :=
  | Ok (a : A)
  | Err (e : E).
Arguments Ok {E A} a.
Arguments Err {E A} e.

#[global] Instance result_eq_dec {E A} `{EqDecision E, EqDecision A} : EqDecision (result E A).
Proof. solve_decision. Defined.

#[global] Instance result_ret {E} : MRet (result E) := fun A a => Ok a.
#[global] Instance result_bind {E} : MBind (result E) := fun A B f m =>
  match m with Ok a => f a | Err e => Err e end.
#[global] Instance result_fmap {E} : FMap (result E) := fun A B f m =>
  match m with Ok a => Ok (f a) | Err e => Err e end.

(** [raise_if b e] is the guard [if b: raise e]. *)
Definition raise_if {E} (b : bool) (e : E) : result E unit :=
  if b then Err e else Ok tt.

(** Run an action over a list, stopping at the first error. *)
Fixpoint mapM_result {E A B} (f : A -> result E B) (l : list A) : result E (list B) :=
  match l with
  | [] => Ok []
  | x :: l => y ← f x; ys ← mapM_result f l; Ok (y :: ys)
  end.

Definition ok_or {E A} (r : result E A) (d : A) : A := match r with Ok a => a | Err _ => d end.

Definition is_ok {E A} (r : result E A) : bool :=
  match r with Ok _ => true | Err _ => false end.

Lemma raise_if_ok {E} b (e : E) u : raise_if b e = Ok u <-> b = false.
Proof. destruct b, u; simpl; split; congruence. Qed.

Lemma bind_ok {E A B} (m : result E A) (f : A -> result E B) b :
  (m ≫= f) = Ok b <-> exists a, m = Ok a /\ f a = Ok b.
Proof.
  destruct m as [a|e]; simpl; split.
  - eauto.
  - intros (a' & [= <-] & H); exact H.
  - discriminate.
  - intros (a' & ? & _); discriminate.
Qed.

(** ** Integers *)

Definition zlen {A} (l : list A) : Z := Z.of_nat (length l).

(** [zrange a n] is [range(a, a + n)]. *)
Fixpoint zrange (a : Z) (n : nat) : list Z :=
  match n with O => [] | S n => a :: zrange (a + 1) n end.

(** [zrange_to a b] is Python's [range(a, b)]. *)
Definition zrange_to (a b : Z) : list Z := zrange a (Z.to_nat (b - a)).

Lemma elem_of_zrange a n x : x ∈ zrange a n <-> a <= x < a + Z.of_nat n.
Proof.
  revert a; induction n as [|n IH]; intros a; simpl.
  - rewrite elem_of_nil; lia.
  - rewrite elem_of_cons, IH; lia.
Qed.

Lemma elem_of_zrange_to a b x : x ∈ zrange_to a b <-> a <= x < b.
Proof. unfold zrange_to; rewrite elem_of_zrange; lia. Qed.

Lemma length_zrange a n : length (zrange a n) = n.
Proof. revert a; induction n; intros; simpl; auto. Qed.

Lemma NoDup_zrange a n : NoDup (zrange a n).
Proof.
  revert a; induction n as [|n IH]; intros a; simpl; constructor; auto.
  rewrite elem_of_zrange; lia.
Qed.

Lemma zrange_app a n m : zrange a (n + m) = (zrange a n ++ zrange (a + Z.of_nat n) m)%list.
Proof.
  revert a; induction n as [|n IH]; intros a; simpl; [f_equal; lia|].
  f_equal. rewrite IH. do 2 f_equal. lia.
Qed.

Lemma zrange_sorted a n : StronglySorted Z.lt (zrange a n).
Proof.
  revert a. induction n as [|n IH]; intros a; simpl; constructor; [apply IH|].
  apply Forall_forall. intros x Hx%elem_of_zrange. lia.
Qed.

Lemma lookup_zrange a n i : (i < n)%nat -> zrange a n !! i = Some (a + Z.of_nat i).
Proof.
  revert a i; induction n as [|n IH]; intros a i Hi; [lia|].
  destruct i; simpl; [f_equal; lia|]. rewrite IH by lia. f_equal; lia.
Qed.

Lemma zlen_nonneg {A} (l : list A) : 0 <= zlen l.
Proof. unfold zlen; lia. Qed.

(** [bits x n]: the [n] low bits of a non-negative integer form a number below [2^n]. *)
Lemma land_ones_bound x n : 0 <= n -> 0 <= Z.land x (Z.ones n) < 2 ^ n.
Proof. intros Hn; rewrite Z.land_ones by lia. apply Z.mod_pos_bound; lia. Qed.

(** Low bits next to shifted high bits: [x | (y << n)] is a sum. *)
Lemma lor_shiftl_add x y n : 0 <= n -> 0 <= x < 2 ^ n -> Z.lor x (Z.shiftl y n) = x + y * 2 ^ n.
Proof.
  intros Hn Hx. rewrite <- Z.shiftl_mul_pow2 by done.
  rewrite <- (Z.add_lor_land x (Z.shiftl y n)).
  assert (Z.land x (Z.shiftl y n) = 0) as ->; [|lia].
  apply Z.bits_inj'. intros i Hi. rewrite Z.land_spec, Z.bits_0.
  destruct (Z.lt_ge_cases i n) as [Hlt|Hge].
  - rewrite Z.shiftl_spec_low by done. apply andb_false_r.
  - destruct (decide (x = 0)) as [->|Hne]; [by rewrite Z.bits_0|].
    rewrite (Z.bits_above_log2 x i); [done|lia|].
    apply Z.log2_lt_pow2; [lia|]. apply (Z.lt_le_trans _ (2 ^ n)); [lia|].
    apply Z.pow_le_mono_r; lia.
Qed.

Lemma nth_elem {A} (l : list A) i d : (i < length l)%nat -> nth i l d ∈ l.
Proof. intros Hi. rewrite list_elem_of_In. by apply nth_In. Qed.

(** ** Lists *)

(** [dict.fromkeys(l)]: duplicates removed, the first occurrence kept. *)
Fixpoint dedup_from {A} `{EqDecision A} (seen : list A) (l : list A) : list A :=
  match l with
  | [] => []
  | x :: l => if decide (x ∈ seen) then dedup_from seen l
              else x :: dedup_from (x :: seen) l
  end.
Definition dedup {A} `{EqDecision A} (l : list A) : list A := dedup_from [] l.

Lemma elem_of_dedup_from {A} `{EqDecision A} (seen l : list A) x :
  x ∈ dedup_from seen l <-> x ∈ l /\ x ∉ seen.
Proof.
  revert seen; induction l as [|y l IH]; intros seen; simpl.
  - rewrite !elem_of_nil; tauto.
  - case_decide; rewrite ?elem_of_cons, IH, ?elem_of_cons.
    + split; [tauto|]. intros [[->|?] ?]; tauto.
    + destruct (decide (x = y)) as [->|]; tauto.
Qed.

Lemma elem_of_dedup {A} `{EqDecision A} (l : list A) x : x ∈ dedup l <-> x ∈ l.
Proof. unfold dedup; rewrite elem_of_dedup_from, elem_of_nil; tauto. Qed.

Lemma NoDup_dedup {A} `{EqDecision A} (l : list A) : NoDup (dedup l).
Proof.
  unfold dedup; generalize (@nil A); induction l as [|y l IH]; intros seen; simpl.
  - constructor.
  - case_decide; [apply IH|]. constructor; [|apply IH].
    rewrite elem_of_dedup_from, elem_of_cons; tauto.
Qed.

Lemma elem_of_if {A} (b : bool) (x y : A) : x ∈ (if b then [y] else []) <-> b = true /\ x = y.
Proof. destruct b; rewrite ?list_elem_of_singleton, ?elem_of_nil; naive_solver. Qed.

Lemma zlen_cons {A} (x : A) l : zlen (x :: l) = zlen l + 1.
Proof. unfold zlen. simpl length. lia. Qed.
Lemma zlen_snoc {A} (l : list A) x : zlen (l ++ [x])%list = zlen l + 1.
Proof. unfold zlen. rewrite length_app. simpl. lia. Qed.

(** [filter_b p l] is [\[x for x in l if p(x)\]] with a boolean test. *)
Definition filter_b {A} (p : A -> bool) (l : list A) : list A := List.filter p l.

Lemma elem_of_filter_b {A} (p : A -> bool) l x : x ∈ filter_b p l <-> x ∈ l /\ p x = true.
Proof.
  unfold filter_b; rewrite !list_elem_of_In, List.filter_In; tauto.
Qed.

Lemma filter_b_none {A} (p : A -> bool) l : (forall x, x ∈ l -> p x = false) -> filter_b p l = [].
Proof.
  intros H. destruct (filter_b p l) as [|x k] eqn:E; [done|].
  assert (x ∈ filter_b p l) as [Hx Hp]%elem_of_filter_b by (rewrite E; left). by rewrite H in Hp.
Qed.

Lemma elem_of_concat {A} (x : A) ls : x ∈ concat ls <-> exists l, x ∈ l /\ l ∈ ls.
Proof.
  rewrite list_elem_of_In, List.in_concat. setoid_rewrite list_elem_of_In.
  split; intros (l & ? & ?); eauto.
Qed.

Lemma filter_b_app {A} (p : A -> bool) l k : filter_b p (l ++ k) = (filter_b p l ++ filter_b p k)%list.
Proof. apply List.filter_app. Qed.

Lemma filter_b_all {A} (p : A -> bool) l : (forall x, x ∈ l -> p x = true) -> filter_b p l = l.
Proof.
  induction l as [|x l IH]; intros H; [done|]. unfold filter_b in *. simpl.
  rewrite (H x) by left. f_equal. apply IH. intros y Hy. apply H. by right.
Qed.

Lemma filter_b_ext {A} (p q : A -> bool) l : (forall x, x ∈ l -> p x = q x) -> filter_b p l = filter_b q l.
Proof.
  intros H. unfold filter_b. apply List.filter_ext_in. intros x Hx. apply H. by apply list_elem_of_In.
Qed.

Lemma filter_b_filter_b {A} (p q : A -> bool) l :
  filter_b p (filter_b q l) = filter_b (fun x => q x && p x) l.
Proof.
  unfold filter_b. induction l as [|x l IH]; simpl; [done|].
  destruct (q x) eqn:E; simpl; [destruct (p x)|]; by rewrite IH.
Qed.

Lemma NoDup_filter_b {A} (p : A -> bool) l : NoDup l -> NoDup (filter_b p l).
Proof.
  unfold filter_b. induction 1 as [|x l Hx Hl IH]; simpl; [constructor|].
  destruct (p x); [|done]. constructor; [|done].
  by intros [? _]%(elem_of_filter_b p).
Qed.

Lemma StronglySorted_filter_b {A} (R : A -> A -> Prop) (p : A -> bool) l :
  StronglySorted R l -> StronglySorted R (filter_b p l).
Proof.
  unfold filter_b. induction 1 as [|x l Hs IH Hx]; simpl; [constructor|].
  destruct (p x); [|done]. constructor; [done|]. rewrite Forall_forall in Hx |- *.
  intros y Hy. apply Hx. by apply (elem_of_filter_b p) in Hy as [? _].
Qed.

Lemma StronglySorted_impl_in {A} (R S : A -> A -> Prop) l :
  (forall x y, x ∈ l -> y ∈ l -> R x y -> S x y) -> StronglySorted R l -> StronglySorted S l.
Proof.
  intros Hi. induction 1 as [|x l Hs IH Hx]; constructor.
  - apply IH. intros a b Ha Hb. apply Hi; by right.
  - rewrite Forall_forall in Hx |- *. intros y Hy. apply Hi; [left|by right|auto].
Qed.

(** [any] and [all]. *)
Lemma existsb_elem {A} (p : A -> bool) l : existsb p l = true <-> exists x, x ∈ l /\ p x = true.
Proof.
  rewrite List.existsb_exists. setoid_rewrite list_elem_of_In. tauto.
Qed.

Lemma forallb_elem {A} (p : A -> bool) l : forallb p l = true <-> forall x, x ∈ l -> p x = true.
Proof.
  rewrite List.forallb_forall. setoid_rewrite list_elem_of_In. tauto.
Qed.

Lemma forallb_false_elem {A} (p : A -> bool) l :
  forallb p l = false <-> exists x, x ∈ l /\ p x = false.
Proof.
  induction l as [|y l IH]; simpl.
  - split; [discriminate|]. intros (x & Hx & _). by apply elem_of_nil in Hx.
  - destruct (p y) eqn:E; simpl.
    + rewrite IH. split; intros (x & Hx & Hp); exists x; rewrite ?elem_of_cons in *; [tauto|].
      destruct Hx as [->|]; [congruence|tauto].
    + split; [|done]. intros _. exists y. rewrite elem_of_cons; tauto.
Qed.

(** Sum of a list of integers. *)
Definition zsum (l : list Z) : Z := foldr Z.add 0 l.

Lemma zsum_app l k : zsum (l ++ k) = zsum l + zsum k.
Proof. unfold zsum; induction l as [|x l IH]; simpl; lia. Qed.

Lemma zsum_nonneg l : Forall (fun x => 0 <= x) l -> 0 <= zsum l.
Proof. unfold zsum; induction 1; simpl; lia. Qed.

(** ** Reachability: the reflexive transitive closure of a step relation *)

Inductive reachable {S} (step : S -> S -> Prop) (s0 : S) : S -> Prop :=
  | reach_refl : reachable step s0 s0
  | reach_step s s' : reachable step s0 s -> step s s' -> reachable step s0 s'.

Lemma reachable_invariant {S} (step : S -> S -> Prop) (P : S -> Prop) s0 s :
  P s0 -> (forall s s', P s -> step s s' -> P s') -> reachable step s0 s -> P s.
Proof. intros H0 Hs; induction 1; eauto. Qed.

(** ** Tactics *)

(** Split every conditional of a hypothesis or the goal that a definition left. *)
Ltac split_matches :=
  repeat (case_match; simplify_eq/=; try discriminate).

(** Open a monadic computation that returned. *)
Ltac inv_ok :=
  repeat match goal with
  | H : Ok _ = Ok _ |- _ => injection H as H; subst
  | H : Err _ = Ok _ |- _ => discriminate H
  | H : Ok _ = Err _ |- _ => discriminate H
  | H : mret _ = Ok _ |- _ => injection H as H; subst
  | H : mbind _ _ = Ok _ |- _ => apply bind_ok in H; destruct H as (? & ? & H); simpl in H
  | H : raise_if _ _ = Ok _ |- _ => apply raise_if_ok in H
  end.

(** Membership in a list literal. *)
Ltac elem_list := first [left | right; elem_list].

(** Boolean tests of the code to propositions. *)
Create HintDb reperio.
Create Rewrite HintDb reperio.
#[export] Hint Rewrite Z.leb_le Z.ltb_lt Z.eqb_eq Z.leb_gt Z.ltb_ge Z.eqb_neq
  Bool.andb_true_iff Bool.orb_false_iff Bool.negb_true_iff Bool.negb_false_iff : reperio.
#[export] Hint Resolve NoDup_dedup zlen_nonneg : reperio.

Ltac to_prop := autorewrite with reperio in *.
