(* ===== verification/PyStr.v ===== *)
(** * Python strings and byte strings

    A Python [str] is a Rocq [string] read as a sequence of code points below 256;
    [bytes] is a list of integers (their range is [wf_bytes]).  This file holds the
    string operations the sources call ([strip], [split], [lower], [str(int)],
    [int(str)], [.encode("utf-8")], slicing) and the order SQLite and Python use on
    text. *)

From Stdlib Require Import ZArith Lia String Ascii Decimal DecimalN DecimalFacts.
From stdpp Require Import base list strings gmap sorting.
From S2P Require Import Prelude.

Local Open Scope Z_scope.

Abbreviation chars := list_ascii_of_string.
Abbreviation of_chars := string_of_list_ascii.
Abbreviation bytes := (list Z).

(** ** Characters *)

Definition ord (c : ascii) : Z := Z.of_N (N_of_ascii c).
Definition chr (z : Z) : ascii := ascii_of_N (Z.to_N z).

Lemma ord_bound c : 0 <= ord c < 256.
Proof. unfold ord. pose proof (N_ascii_bounded c). lia. Qed.

Lemma chr_ord c : chr (ord c) = c.
Proof. unfold chr, ord. rewrite N2Z.id. apply ascii_N_embedding. Qed.

Lemma ord_chr z : 0 <= z < 256 -> ord (chr z) = z.
Proof. intros H. unfold chr, ord. rewrite N_ascii_embedding; lia. Qed.

Lemma ord_inj c d : ord c = ord d -> c = d.
Proof. intros H. rewrite <- (chr_ord c), <- (chr_ord d). congruence. Qed.

Definition str_len (s : string) : Z := Z.of_nat (String.length s).

(** [char in s] for a one-character string. *)
Definition char_in (c : ascii) (s : string) : bool := existsb (Ascii.eqb c) (chars s).

(** [any(char in s for char in cs)]. *)
Definition any_char_in (cs : list ascii) (s : string) : bool :=
  existsb (fun c => char_in c s) cs.

Definition is_digit (c : ascii) : bool := (48 <=? ord c) && (ord c <=? 57).

(** The white space of [str.split] and [str.strip] among code points below 256. *)
Definition is_space (c : ascii) : bool :=
  let o := ord c in
  ((9 <=? o) && (o <=? 13)) || ((28 <=? o) && (o <=? 32)) || (o =? 133) || (o =? 160).

Definition is_hex_lower (c : ascii) : bool :=
  is_digit c || ((97 <=? ord c) && (ord c <=? 102)).

(** The word characters of a pattern among code points below 256. *)
Definition word_char (c : ascii) : bool :=
  let o := ord c in
  is_digit c || ((65 <=? o) && (o <=? 90)) || ((97 <=? o) && (o <=? 122)) || (o =? 95)
  || bool_decide (o ∈ [170; 178; 179; 181; 185; 186; 188; 189; 190])
  || ((192 <=? o) && negb (o =? 215) && negb (o =? 247)).

(** [str.lower] on code points below 256. *)
Definition lower_char (c : ascii) : ascii :=
  let o := ord c in
  if ((65 <=? o) && (o <=? 90)) || ((192 <=? o) && (o <=? 222) && negb (o =? 215))
  then chr (o + 32) else c.
Definition lower (s : string) : string := of_chars (lower_char <$> chars s).

(** ** Searching and slicing *)

Fixpoint drop_while {A} (p : A -> bool) (l : list A) : list A :=
  match l with [] => [] | x :: l' => if p x then drop_while p l' else l end.

Definition rdrop_while {A} (p : A -> bool) (l : list A) : list A :=
  reverse (drop_while p (reverse l)).

(** [s.lstrip()], [s.rstrip()], [s.strip()]. *)
Definition strip (s : string) : string :=
  of_chars (rdrop_while is_space (drop_while is_space (chars s))).

(** [s[:n]] for [n >= 0]. *)
Definition str_take (n : Z) (s : string) : string := of_chars (take (Z.to_nat n) (chars s)).
Definition str_drop (n : Z) (s : string) : string := of_chars (drop (Z.to_nat n) (chars s)).

Definition starts_with (p s : string) : bool := String.prefix p s.

(** [sub in s]. *)
Fixpoint str_contains (sub s : string) : bool :=
  starts_with sub s ||
  match s with EmptyString => false | String _ s' => str_contains sub s' end.

(** [s.split(c, 1)] when [c] occurs: the text before and after its first occurrence. *)
Fixpoint split_at_char (c : ascii) (l : list ascii) : option (list ascii * list ascii) :=
  match l with
  | [] => None
  | d :: l' => if Ascii.eqb c d then Some ([], l')
               else match split_at_char c l' with
                    | Some (a, b) => Some (d :: a, b)
                    | None => None
                    end
  end.

Definition partition_char (c : ascii) (s : string) : option (string * string) :=
  match split_at_char c (chars s) with
  | Some (a, b) => Some (of_chars a, of_chars b)
  | None => None
  end.

(** The pieces of a text between the characters [p] accepts: [s.split(c)]. *)
Fixpoint split_chars (p : ascii -> bool) (cur : list ascii) (l : list ascii) : list string :=
  match l with
  | [] => [of_chars (reverse cur)]
  | c :: l' => if p c then of_chars (reverse cur) :: split_chars p [] l'
               else split_chars p (c :: cur) l'
  end.

(** [s.split()]: maximal runs without white space. *)
Definition split_ws (s : string) : list string :=
  filter_b (fun w => negb (String.eqb w "")) (split_chars is_space [] (chars s)).

Definition split_on (c : ascii) (s : string) : list string :=
  split_chars (Ascii.eqb c) [] (chars s).

(** The line boundaries of [str.splitlines] among code points below 256. *)
Definition is_line_break (c : ascii) : bool :=
  let o := ord c in ((10 <=? o) && (o <=? 13)) || ((28 <=? o) && (o <=? 30)) || (o =? 133).

(** [s.splitlines()]: CR LF is one boundary, no empty line after the last one. *)
Fixpoint split_lines (cur l : list ascii) : list (list ascii) :=
  match l with
  | [] => match cur with [] => [] | _ => [reverse cur] end
  | c :: k =>
    if is_line_break c then
      match k with
      | d :: k' => if (ord c =? 13) && (ord d =? 10) then reverse cur :: split_lines [] k'
                   else reverse cur :: split_lines [] k
      | [] => [reverse cur]
      end
    else split_lines (c :: cur) k
  end.
Definition splitlines (s : string) : list (list ascii) := split_lines [] (chars s).

(** [s.replace(c, r)] for a single character [c]. *)
Definition replace_char (c : ascii) (r : string) (s : string) : string :=
  of_chars (concat ((fun d => if Ascii.eqb c d then chars r else [d]) <$> chars s)).

(** [sep.join(l)]. *)
Definition join (sep : string) (l : list string) : string := String.concat sep l.

(** ** Decimal integers *)

Fixpoint uint_chars (d : uint) : list ascii :=
  match d with
  | Nil => []
  | D0 d => "0" :: uint_chars d | D1 d => "1" :: uint_chars d
  | D2 d => "2" :: uint_chars d | D3 d => "3" :: uint_chars d
  | D4 d => "4" :: uint_chars d | D5 d => "5" :: uint_chars d
  | D6 d => "6" :: uint_chars d | D7 d => "7" :: uint_chars d
  | D8 d => "8" :: uint_chars d | D9 d => "9" :: uint_chars d
  end%char.

(** The constructor of a digit character. *)
Definition digit_cons (c : ascii) : option (uint -> uint) :=
  match c with
  | "0" => Some D0 | "1" => Some D1 | "2" => Some D2 | "3" => Some D3 | "4" => Some D4
  | "5" => Some D5 | "6" => Some D6 | "7" => Some D7 | "8" => Some D8 | "9" => Some D9
  | _ => None
  end%char.

(** The longest run of digits at the front and what follows it. *)
Fixpoint take_digits (l : list ascii) : uint * list ascii :=
  match l with
  | [] => (Nil, [])
  | c :: l' => match digit_cons c with
               | Some k => let '(d, r) := take_digits l' in (k d, r)
               | None => (Nil, l)
               end
  end.

(** [str(n)]. *)
Definition Z_chars (z : Z) : list ascii :=
  if z <? 0 then "-"%char :: uint_chars (N.to_uint (Z.to_N (- z)))
  else uint_chars (N.to_uint (Z.to_N z)).
Definition str_of_Z (z : Z) : string := of_chars (Z_chars z).

Definition uint_Z (d : uint) : Z := Z.of_N (N.of_uint d).

(** [int(s)] of a text of ASCII digits. *)
Definition Z_of_digits (s : string) : option Z :=
  match chars s with
  | [] => None
  | l => match take_digits l with (d, []) => Some (uint_Z d) | _ => None end
  end.

(** No digit can extend a run that stops here. *)
Definition digits_stop (l : list ascii) : Prop :=
  match l with [] => True | c :: _ => digit_cons c = None end.

Lemma take_digits_uint d r : digits_stop r -> take_digits (uint_chars d ++ r) = (d, r).
Proof.
  intros Hr. induction d as [|d IH|d IH|d IH|d IH|d IH|d IH|d IH|d IH|d IH|d IH];
    simpl; try (rewrite IH; reflexivity).
  destruct r as [|c r]; simpl in *; [done|]. by rewrite Hr.
Qed.

Lemma uint_Z_to_uint z : 0 <= z -> uint_Z (N.to_uint (Z.to_N z)) = z.
Proof. intros Hz. unfold uint_Z. rewrite DecimalN.Unsigned.of_to. lia. Qed.

Lemma to_uint_unorm n : unorm (N.to_uint n) = N.to_uint n.
Proof. rewrite <- (DecimalN.Unsigned.of_to n) at 2. by rewrite DecimalN.Unsigned.to_of. Qed.

Lemma to_uint_nonnil n : N.to_uint n <> Nil.
Proof. rewrite <- to_uint_unorm. apply unorm_nonnil. Qed.

(** A decimal numeral has no superfluous leading zero. *)
Lemma to_uint_D0 n d : N.to_uint n = D0 d -> d = Nil.
Proof.
  intros H. pose proof (to_uint_unorm n) as Hu. rewrite H in Hu.
  rewrite unorm_D0 in Hu. unfold unorm in Hu.
  destruct (nzhead d) eqn:E; simplify_eq; auto.
  exfalso. eapply nzhead_nonzero. exact E.
Qed.

Lemma Z_of_digits_str z : 0 <= z -> Z_of_digits (str_of_Z z) = Some z.
Proof.
  intros Hz. unfold Z_of_digits, str_of_Z, Z_chars.
  rewrite list_ascii_of_string_of_list_ascii.
  destruct (Z.ltb_spec z 0); [lia|].
  pose proof (take_digits_uint (N.to_uint (Z.to_N z)) [] I) as Ht.
  rewrite app_nil_r in Ht. destruct (uint_chars _) eqn:E.
  - exfalso. apply (to_uint_nonnil (Z.to_N z)). by destruct (N.to_uint (Z.to_N z)).
  - by rewrite Ht, uint_Z_to_uint by lia.
Qed.

Lemma chars_app s t : chars (s +:+ t) = (chars s ++ chars t)%list.
Proof. induction s as [|c s IH]; [done|]. simpl. by rewrite <- IH. Qed.

Lemma of_chars_app l k : of_chars (l ++ k) = (of_chars l +:+ of_chars k).
Proof. induction l as [|c l IH]; [done|]. simpl. by rewrite IH. Qed.

Lemma chars_of_chars l : chars (of_chars l) = l.
Proof. apply list_ascii_of_string_of_list_ascii. Qed.

Lemma of_chars_chars s : of_chars (chars s) = s.
Proof. apply string_of_list_ascii_of_string. Qed.

Lemma length_chars s : length (chars s) = String.length s.
Proof. induction s; simpl; congruence. Qed.

Lemma chars_inj s t : chars s = chars t -> s = t.
Proof. intros H. rewrite <- (of_chars_chars s), <- (of_chars_chars t). congruence. Qed.

Lemma split_at_char_app c a b : c ∉ a -> split_at_char c (a ++ c :: b) = Some (a, b).
Proof.
  induction a as [|d a IH]; simpl; intros Ha; [by rewrite Ascii.eqb_refl|].
  apply not_elem_of_cons in Ha as [Hd Ha]. destruct (Ascii.eqb_spec c d); [congruence|].
  by rewrite IH.
Qed.

Lemma split_at_char_some c l a b : split_at_char c l = Some (a, b) -> l = (a ++ c :: b)%list.
Proof.
  revert a. induction l as [|d l IH]; intros a; simpl; [done|].
  destruct (Ascii.eqb_spec c d) as [->|]; [intros; by simplify_eq|].
  destruct (split_at_char c l) as [[x y]|]; intros; simplify_eq. simpl. f_equal. by apply IH.
Qed.

Lemma split_at_char_notin c l a b : split_at_char c l = Some (a, b) -> c ∉ a.
Proof.
  revert a. induction l as [|d l IH]; intros a; simpl; [done|].
  destruct (Ascii.eqb_spec c d) as [->|Hd]; [intros [= <- _]; apply not_elem_of_nil|].
  destruct (split_at_char c l) as [[x y]|]; [|done]. intros [= <- ->].
  apply not_elem_of_cons. split; [done|]. by apply IH.
Qed.

(** [a, _, b = s.partition(c)]. *)
Lemma partition_char_spec c s a b :
  partition_char c s = Some (a, b) <-> s = a +:+ String c b /\ c ∉ chars a.
Proof.
  unfold partition_char. split.
  - destruct (split_at_char c (chars s)) as [[x y]|] eqn:E; [|done]. intros [= <- <-].
    rewrite chars_of_chars. split; [|by eapply split_at_char_notin].
    apply chars_inj. rewrite chars_app. simpl. rewrite !chars_of_chars. by apply split_at_char_some.
  - intros [-> Hn]. rewrite chars_app. simpl. rewrite split_at_char_app by done. by rewrite !of_chars_chars.
Qed.

Lemma starts_with_cons_eq c p d s :
  starts_with (String c p) (String d s) = Ascii.eqb c d && starts_with p s.
Proof. unfold starts_with. simpl. destruct (ascii_dec c d), (Ascii.eqb_spec c d); by subst. Qed.


(** ** Order on text: Python's and SQLite's BINARY comparison *)

Definition str_lt (a b : string) : bool := String.ltb a b.
Definition str_le (a b : string) : bool := String.leb a b.

Lemma str_lt_irrefl a : str_lt a a = false.
Proof.
  unfold str_lt, String.ltb. replace (String.compare a a) with Eq; [done|].
  symmetry; induction a as [|c a IH]; simpl; [done|].
  unfold Ascii.compare. by rewrite N.compare_refl.
Qed.

Lemma str_lt_le a b : str_lt a b = negb (str_le b a).
Proof.
  unfold str_lt, str_le, String.ltb, String.leb.
  rewrite String.compare_antisym. by destruct (String.compare b a).
Qed.

Lemma str_le_iff a b : str_le a b = true <-> String.le a b.
Proof. unfold str_le, String.le. by destruct (String.leb a b). Qed.

Lemma str_le_refl a : str_le a a = true.
Proof. by apply str_le_iff. Qed.

Lemma str_le_trans a b c : str_le a b = true -> str_le b c = true -> str_le a c = true.
Proof. rewrite !str_le_iff. apply transitivity. Qed.

Lemma str_le_antisym a b : str_le a b = true -> str_le b a = true -> a = b.
Proof. rewrite !str_le_iff. apply (anti_symm String.le). Qed.

Lemma str_le_total a b : str_le a b = true \/ str_le b a = true.
Proof. rewrite !str_le_iff. apply String.le_total. Qed.

Lemma str_lt_iff a b : str_lt a b = true <-> str_le a b = true /\ a <> b.
Proof.
  rewrite str_lt_le, negb_true_iff. split.
  - intros H. destruct (str_le_total a b) as [Hab|Hab]; [|congruence].
    split; [done|]. intros ->. rewrite str_le_refl in H. done.
  - intros [Hab Hne]. destruct (str_le b a) eqn:E; [|done]. by destruct Hne; apply str_le_antisym.
Qed.

(** Lexicographic comparison of the code points. *)
Lemma compare_cons c d s t :
  String.compare (String c s) (String d t)
  = match ord c ?= ord d with Eq => String.compare s t | r => r end.
Proof. simpl. unfold Ascii.compare, ord. by rewrite <- N2Z.inj_compare. Qed.

Lemma compare_refl s : String.compare s s = Eq.
Proof.
  induction s as [|c s IH]; [done|]. rewrite compare_cons, Z.compare_refl. exact IH.
Qed.

(** A common prefix does not matter, and the first difference decides. *)
Lemma compare_app p s t : String.compare (p +:+ s) (p +:+ t) = String.compare s t.
Proof.
  induction p as [|c p IH]; [done|].
  change (String c p +:+ s) with (String c (p +:+ s)).
  change (String c p +:+ t) with (String c (p +:+ t)).
  by rewrite compare_cons, Z.compare_refl.
Qed.

(** Same-length heads that differ decide the comparison. *)
Lemma compare_app_length p q s t :
  String.length p = String.length q ->
  String.compare (p +:+ s) (q +:+ t)
  = match String.compare p q with Eq => String.compare s t | r => r end.
Proof.
  revert q; induction p as [|c p IH]; intros [|d q] Hl; simplify_eq/=; [done|].
  change (String c p +:+ s) with (String c (p +:+ s)).
  change (String d q +:+ t) with (String d (q +:+ t)).
  unfold Ascii.compare. destruct (N_of_ascii c ?= N_of_ascii d)%N; [|done|done].
  by apply IH.
Qed.

(** ** Byte strings *)

Definition wf_bytes (b : bytes) : Prop := Forall (fun x => 0 <= x < 256) b.

(** [s.encode("utf-8")] for code points below 256. *)
Definition utf8_char (c : ascii) : bytes :=
  let o := ord c in
  if o <? 128 then [o] else [192 + Z.shiftr o 6; 128 + Z.land o 63].
Definition utf8 (s : string) : bytes := concat (utf8_char <$> chars s).

(** [n.to_bytes(k, "big")] of a non-negative [n] that fits. *)
Fixpoint to_bytes_big (k : nat) (n : Z) : bytes :=
  match k with
  | O => []
  | S k => (n / 256 ^ Z.of_nat k) mod 256 :: to_bytes_big k n
  end.

(** Little-endian 16- and 32-bit reads, [struct.unpack_from("<H" / "<I", b, off)]. *)
Definition byte_at (b : bytes) (i : nat) : Z := nth i b 0.
Definition u16le (b : bytes) (off : nat) : Z := byte_at b off + 256 * byte_at b (off + 1).
Definition u32le (b : bytes) (off : nat) : Z :=
  byte_at b off + 256 * byte_at b (off + 1) + 65536 * byte_at b (off + 2)
  + 16777216 * byte_at b (off + 3).

Lemma wf_bytes_at b i : wf_bytes b -> 0 <= byte_at b i < 256.
Proof.
  intros H. unfold byte_at. destruct (decide (i < length b)%nat) as [Hi|Hi].
  - unfold wf_bytes in H. rewrite Forall_forall in H. apply H.
    apply list_elem_of_In, nth_In. lia.
  - rewrite nth_overflow; lia.
Qed.

Lemma u16le_bound b off : wf_bytes b -> 0 <= u16le b off < 65536.
Proof.
  intros H. unfold u16le.
  pose proof (wf_bytes_at b off H). pose proof (wf_bytes_at b (off + 1) H). lia.
Qed.

Lemma u32le_bound b off : wf_bytes b -> 0 <= u32le b off < 4294967296.
Proof.
  intros H. unfold u32le.
  pose proof (wf_bytes_at b off H). pose proof (wf_bytes_at b (off + 1) H).
  pose proof (wf_bytes_at b (off + 2) H). pose proof (wf_bytes_at b (off + 3) H). lia.
Qed.

Lemma wf_utf8 s : wf_bytes (utf8 s).
Proof.
  unfold utf8, wf_bytes. induction (chars s) as [|c l IH]; simpl; [constructor|].
  apply Forall_app; split; [|exact IH].
  unfold utf8_char. pose proof (ord_bound c) as Hb. destruct (Z.ltb_spec (ord c) 128).
  - repeat constructor; lia.
  - assert (0 <= Z.shiftr (ord c) 6 < 4).
    { rewrite Z.shiftr_div_pow2 by lia. change (2 ^ 6) with 64.
      split; [apply Z.div_pos; lia|]. apply Z.div_lt_upper_bound; lia. }
    pose proof (land_ones_bound (ord c) 6 ltac:(lia)) as Hl.
    change (Z.ones 6) with 63 in Hl. change (2 ^ 6) with 64 in Hl.
    repeat constructor; lia.
Qed.

Lemma utf8_char_prefix c d x y :
  utf8_char c ++ x = utf8_char d ++ y -> c = d /\ x = y.
Proof.
  unfold utf8_char. pose proof (ord_bound c). pose proof (ord_bound d).
  assert (forall o, 0 <= o < 256 -> 0 <= Z.shiftr o 6 < 4) as Hs.
  { intros o Ho. rewrite Z.shiftr_div_pow2 by lia. change (2 ^ 6) with 64.
    split; [apply Z.div_pos; lia|]. apply Z.div_lt_upper_bound; lia. }
  pose proof (Hs (ord c) ltac:(lia)). pose proof (Hs (ord d) ltac:(lia)).
  destruct (Z.ltb_spec (ord c) 128), (Z.ltb_spec (ord d) 128); simpl; intros Heq.
  - injection Heq as Ho ->. split; [by apply ord_inj|done].
  - injection Heq as Ho _. lia.
  - injection Heq as Ho _. lia.
  - injection Heq as He1 He2 ->. split; [|done]. apply ord_inj.
    rewrite Z.shiftr_div_pow2 in He1 by lia. rewrite (Z.shiftr_div_pow2 (ord d)) in He1 by lia.
    change 63 with (Z.ones 6) in He2. rewrite !Z.land_ones in He2 by lia.
    change (2 ^ 6) with 64 in *.
    pose proof (Z.div_mod (ord c) 64 ltac:(lia)).
    pose proof (Z.div_mod (ord d) 64 ltac:(lia)). lia.
Qed.

(** UTF-8 encoding loses nothing. *)
Lemma utf8_inj s t : utf8 s = utf8 t -> s = t.
Proof.
  intros H. apply chars_inj. unfold utf8 in H.
  revert H. generalize (chars s) (chars t). clear s t.
  induction l as [|c l IH]; intros [|d k]; simpl; intros H.
  - done.
  - exfalso. unfold utf8_char in H. by destruct (ord d <? 128).
  - exfalso. unfold utf8_char in H. by destruct (ord c <? 128).
  - apply utf8_char_prefix in H as [-> H]. f_equal. by apply IH.
Qed.

Lemma length_to_bytes_big k n : length (to_bytes_big k n) = k.
Proof. induction k; simpl; auto. Qed.

Lemma wf_to_bytes_big k n : wf_bytes (to_bytes_big k n).
Proof. induction k; simpl; constructor; auto. apply Z.mod_pos_bound; lia. Qed.

Lemma to_bytes_big_eq_mod k n m :
  to_bytes_big k n = to_bytes_big k m -> n mod 256 ^ Z.of_nat k = m mod 256 ^ Z.of_nat k.
Proof.
  induction k as [|k IH]; simpl to_bytes_big; intros H.
  - by rewrite !Z.mod_1_r.
  - injection H as H1 H2. apply IH in H2.
    rewrite Nat2Z.inj_succ, Z.pow_succ_r, Z.mul_comm by lia.
    assert (256 ^ Z.of_nat k > 0) by (pose proof (Z.pow_pos_nonneg 256 (Z.of_nat k)); lia).
    rewrite !(Z.rem_mul_r) by lia. congruence.
Qed.

(** Numbers below [256^k] are determined by their [k] bytes. *)
Lemma to_bytes_big_inj k n m :
  0 <= n < 256 ^ Z.of_nat k -> 0 <= m < 256 ^ Z.of_nat k ->
  to_bytes_big k n = to_bytes_big k m -> n = m.
Proof.
  intros Hn Hm H. apply to_bytes_big_eq_mod in H.
  by rewrite !Z.mod_small in H by lia.
Qed.

(** [sorted] on strings. *)
Definition sorted_strings (l : list string) : list string := merge_sort String.le l.

#[export] Hint Resolve wf_utf8 wf_to_bytes_big u16le_bound u32le_bound : reperio.
#[export] Hint Rewrite chars_of_chars of_chars_chars length_chars : reperio.
