(* ===== verification/Unicode.v ===== *)
(** * UTF-8 with error handlers

    [bytes.decode("utf-8", errors=...)] and [str.encode("utf-8", errors="surrogateescape")] as
    src/scanner/entry_normalization.py uses them, over code points.  A step of the decoder takes
    a well-formed character or the longest ill-formed prefix, as CPython does.  The main lemma:
    encoding what was decoded with surrogateescape gives back any sequence of bytes. *)

From Stdlib Require Import ZArith Lia String Ascii.
From stdpp Require Import base list strings.
From S2P Require Import Prelude PyStr.

Local Open Scope Z_scope.

(** Python text as its code points. *)
Abbreviation text := (list Z).

(** ** Decoding *)

Inductive decoded := Char (cp : Z) (n : nat) | Bad (n : nat).

Definition is_cont (b : Z) : bool := (128 <=? b) && (b <? 192).

(** The second byte after a lead byte of three or four: no overlong form, no surrogate, nothing
    above U+10FFFF. *)
Definition second_of_three (b0 b1 : Z) : bool :=
  is_cont b1 && negb ((b0 =? 224) && (b1 <? 160)) && negb ((b0 =? 237) && (160 <=? b1)).
Definition second_of_four (b0 b1 : Z) : bool :=
  is_cont b1 && negb ((b0 =? 240) && (b1 <? 144)) && negb ((b0 =? 244) && (144 <=? b1)).

Definition decode_step (l : bytes) : decoded :=
  match l with
  | [] => Bad 1
  | b0 :: r =>
    if b0 <? 128 then Char b0 1
    else if (194 <=? b0) && (b0 <=? 223) then
      match r with
      | b1 :: _ => if is_cont b1 then Char ((b0 - 192) * 64 + (b1 - 128)) 2 else Bad 1
      | [] => Bad 1
      end
    else if (224 <=? b0) && (b0 <=? 239) then
      match r with
      | b1 :: r1 =>
        if second_of_three b0 b1 then
          match r1 with
          | b2 :: _ => if is_cont b2 then Char ((b0 - 224) * 4096 + (b1 - 128) * 64 + (b2 - 128)) 3 else Bad 2
          | [] => Bad 2
          end
        else Bad 1
      | [] => Bad 1
      end
    else if (240 <=? b0) && (b0 <=? 244) then
      match r with
      | b1 :: r1 =>
        if second_of_four b0 b1 then
          match r1 with
          | b2 :: r2 =>
            if is_cont b2 then
              match r2 with
              | b3 :: _ =>
                if is_cont b3
                then Char ((b0 - 240) * 262144 + (b1 - 128) * 4096 + (b2 - 128) * 64 + (b3 - 128)) 4 else Bad 3
              | [] => Bad 3
              end
            else Bad 2
          | [] => Bad 2
          end
        else Bad 1
      | [] => Bad 1
      end
    else Bad 1
  end.

(** The decoder with a handler for ill-formed bytes; every step takes a byte, so the length of the
    input is enough fuel. *)
Fixpoint decode_with (fuel : nat) (on_bad : bytes -> text) (l : bytes) : text :=
  match fuel, l with
  | S fuel, _ :: _ =>
    match decode_step l with
    | Char cp n => cp :: decode_with fuel on_bad (drop n l)
    | Bad n => (on_bad (take n l) ++ decode_with fuel on_bad (drop n l))%list
    end
  | _, _ => []
  end.

Definition REPLACEMENT : Z := 65533.
Definition ESCAPE_BASE : Z := 56320.

Definition decode_escape (b : bytes) : text := decode_with (length b) (map (Z.add ESCAPE_BASE)) b.
Definition decode_replace (b : bytes) : text := decode_with (length b) (fun _ => [REPLACEMENT]) b.

(** ** Encoding *)

(** One code point; [None] is the [UnicodeEncodeError] of a surrogate that escapes no byte. *)
Definition encode_point (cp : Z) : option bytes :=
  if cp <? 128 then Some [cp]
  else if cp <? 2048 then Some [192 + cp / 64; 128 + cp mod 64]
  else if (55296 <=? cp) && (cp <? 57344)
  then (if (56448 <=? cp) && (cp <? 56576) then Some [cp - ESCAPE_BASE] else None)
  else if cp <? 65536 then Some [224 + cp / 4096; 128 + cp / 64 mod 64; 128 + cp mod 64]
  else Some [240 + cp / 262144; 128 + cp / 4096 mod 64; 128 + cp / 64 mod 64; 128 + cp mod 64].

Fixpoint encode_escape (t : text) : option bytes :=
  match t with
  | [] => Some []
  | cp :: t => match encode_point cp, encode_escape t with Some b, Some r => Some (b ++ r)%list | _, _ => None end
  end.

(** ** The round trip *)

Lemma digits64_2 a b : 0 <= b < 64 -> (a * 64 + b) / 64 = a /\ (a * 64 + b) mod 64 = b.
Proof. intros. split; [symmetry; apply (Z.div_unique _ 64 _ b); lia|symmetry; apply (Z.mod_unique _ 64 a); lia]. Qed.

Lemma is_cont_spec b : is_cont b = true <-> 128 <= b < 192.
Proof. unfold is_cont. lia. Qed.

Lemma decode_step_spec l :
  l <> [] ->
  match decode_step l with
  | Char cp n => (1 <= n <= length l)%nat /\ (wf_bytes l -> encode_point cp = Some (take n l))
  | Bad n => (1 <= n <= length l)%nat /\ Forall (fun b => 128 <= b) (take n l)
  end.
Proof.
  destruct l as [|b0 r]; [done|]. intros _. unfold decode_step.
  destruct (Z.ltb_spec b0 128) as [H0|H0].
  { cbn. split; [lia|]. intros Hw. unfold encode_point. by rewrite (proj2 (Z.ltb_lt b0 128)). }
  destruct ((194 <=? b0) && (b0 <=? 223)) eqn:E2.
  { destruct r as [|b1 r]; [cbn; split; [lia|by repeat constructor]|]. destruct (is_cont b1) eqn:C1.
    2: { cbn. split; [lia|by repeat constructor]. }
    apply is_cont_spec in C1. cbn [length take]. split; [lia|]. intros _.
    destruct (digits64_2 (b0 - 192) (b1 - 128)) as [D M]; [lia|].
    unfold encode_point. rewrite D, M, (proj2 (Z.ltb_ge _ 128)), (proj2 (Z.ltb_lt _ 2048)) by lia. do 2 f_equal; [lia|]. f_equal. lia. }
  destruct ((224 <=? b0) && (b0 <=? 239)) eqn:E3.
  { destruct r as [|b1 r]; [cbn; split; [lia|by repeat constructor]|]. destruct (second_of_three b0 b1) eqn:C1.
    2: { cbn. split; [lia|by repeat constructor]. }
    unfold second_of_three in C1. rewrite !andb_true_iff, is_cont_spec in C1. destruct C1 as [[C1 O1] O2].
    destruct r as [|b2 r]; [cbn; split; [lia|repeat constructor; lia]|]. destruct (is_cont b2) eqn:C2.
    2: { cbn. split; [lia|repeat constructor; lia]. }
    apply is_cont_spec in C2. cbn [length take]. split; [lia|]. intros _.
    set (cp := (b0 - 224) * 4096 + (b1 - 128) * 64 + (b2 - 128)).
    assert (Hcp : cp = ((b0 - 224) * 64 + (b1 - 128)) * 64 + (b2 - 128)) by (unfold cp; lia).
    destruct (digits64_2 ((b0 - 224) * 64 + (b1 - 128)) (b2 - 128)) as [D M]; [lia|].
    destruct (digits64_2 (b0 - 224) (b1 - 128)) as [D' M']; [lia|].
    assert (H4096 : cp / 4096 = b0 - 224) by (change 4096 with (64 * 64); rewrite <- Z.div_div by lia; by rewrite Hcp, D, D').
    unfold encode_point. rewrite H4096, Hcp, D, M, M', <- Hcp.
    rewrite (proj2 (Z.ltb_ge cp 128)), (proj2 (Z.ltb_ge cp 2048)), (proj2 (Z.ltb_lt cp 65536)) by lia.
    replace ((55296 <=? cp) && (cp <? 57344)) with false by lia. do 2 f_equal; [lia|]. f_equal; [lia|]. f_equal. lia. }
  destruct ((240 <=? b0) && (b0 <=? 244)) eqn:E4; [|cbn; split; [lia|by repeat constructor]].
  destruct r as [|b1 r]; [cbn; split; [lia|by repeat constructor]|]. destruct (second_of_four b0 b1) eqn:C1.
  2: { cbn. split; [lia|by repeat constructor]. }
  unfold second_of_four in C1. rewrite !andb_true_iff, is_cont_spec in C1. destruct C1 as [[C1 O1] O2].
  destruct r as [|b2 r]; [cbn; split; [lia|repeat constructor; lia]|]. destruct (is_cont b2) eqn:C2.
  2: { cbn. split; [lia|repeat constructor; lia]. }
  apply is_cont_spec in C2. destruct r as [|b3 r]; [cbn; split; [lia|repeat constructor; lia]|]. destruct (is_cont b3) eqn:C3.
  2: { cbn. split; [lia|repeat constructor; lia]. }
  apply is_cont_spec in C3. cbn [length take]. split; [lia|]. intros _.
  set (cp := (b0 - 240) * 262144 + (b1 - 128) * 4096 + (b2 - 128) * 64 + (b3 - 128)).
  assert (Hcp : cp = (((b0 - 240) * 64 + (b1 - 128)) * 64 + (b2 - 128)) * 64 + (b3 - 128)) by (unfold cp; lia).
  destruct (digits64_2 (((b0 - 240) * 64 + (b1 - 128)) * 64 + (b2 - 128)) (b3 - 128)) as [D M]; [lia|].
  destruct (digits64_2 ((b0 - 240) * 64 + (b1 - 128)) (b2 - 128)) as [D' M']; [lia|].
  destruct (digits64_2 (b0 - 240) (b1 - 128)) as [D'' M'']; [lia|].
  assert (H1 : cp / 64 = ((b0 - 240) * 64 + (b1 - 128)) * 64 + (b2 - 128)) by (by rewrite Hcp, D).
  assert (H2 : cp / 4096 = (b0 - 240) * 64 + (b1 - 128)) by (change 4096 with (64 * 64); rewrite <- Z.div_div by lia; by rewrite H1, D').
  assert (H3 : cp / 262144 = b0 - 240) by (change 262144 with (4096 * 64); rewrite <- Z.div_div by lia; by rewrite H2, D'').
  assert (H5 : cp mod 64 = b3 - 128) by (by rewrite Hcp, M).
  unfold encode_point. rewrite H3, H2, H1, H5, M', M''.
  rewrite (proj2 (Z.ltb_ge cp 128)), (proj2 (Z.ltb_ge cp 2048)), (proj2 (Z.ltb_ge cp 65536)) by lia.
  replace ((55296 <=? cp) && (cp <? 57344)) with false by lia. repeat (f_equal; [lia|]). do 2 f_equal; [lia|]. do 2 (f_equal; [lia|]). f_equal. lia.
Qed.

Lemma encode_app t u : encode_escape (t ++ u) = match encode_escape t, encode_escape u with Some a, Some b => Some (a ++ b)%list | _, _ => None end.
Proof.
  induction t as [|cp t IH]; cbn; [by destruct (encode_escape u)|]. rewrite IH.
  destruct (encode_point cp), (encode_escape t), (encode_escape u); try done. by rewrite app_assoc.
Qed.

Lemma encode_bad b : Forall (fun x => 128 <= x) b -> wf_bytes b -> encode_escape (map (Z.add ESCAPE_BASE) b) = Some b.
Proof.
  unfold ESCAPE_BASE. induction b as [|x b IH]; intros Hb Hw; [done|]. inversion Hb as [|? ? Hx Hb']; inversion Hw as [|? ? Wx Wb]; subst.
  cbn [map encode_escape]. rewrite IH by done. unfold encode_point, ESCAPE_BASE.
  rewrite (proj2 (Z.ltb_ge _ 128)), (proj2 (Z.ltb_ge _ 2048)) by lia.
  replace ((55296 <=? 56320 + x) && (56320 + x <? 57344)) with true by lia.
  replace ((56448 <=? 56320 + x) && (56320 + x <? 56576)) with true by lia. cbn. do 2 f_equal. lia.
Qed.

(** Any bytes survive the round trip through text. *)
Lemma escape_roundtrip b : wf_bytes b -> encode_escape (decode_escape b) = Some b.
Proof.
  unfold decode_escape. assert (Hfuel : (length b <= length b)%nat) by lia. revert Hfuel. generalize (length b) at 2 3 as fuel.
  intros fuel. revert b. induction fuel as [|fuel IH]; intros b Hf Hw; [by destruct b; cbn in *; [|lia]|].
  destruct b as [|x b]; [done|]. set (l := x :: b) in *. change (decode_with (S fuel) (map (Z.add ESCAPE_BASE)) l) with
    (match decode_step l with Char cp n => cp :: decode_with fuel (map (Z.add ESCAPE_BASE)) (drop n l)
     | Bad n => (map (Z.add ESCAPE_BASE) (take n l) ++ decode_with fuel (map (Z.add ESCAPE_BASE)) (drop n l))%list end).
  pose proof (decode_step_spec l ltac:(done)) as Hs.
  assert (Hrest : forall n, (1 <= n)%nat -> encode_escape (decode_with fuel (map (Z.add ESCAPE_BASE)) (drop n l)) = Some (drop n l)).
  { intros n Hn. apply IH; [rewrite length_drop; unfold l in *; cbn in *; lia|by apply Forall_drop]. }
  destruct (decode_step l) as [cp n|n]; destruct Hs as [Hn Hs].
  - cbn [encode_escape]. rewrite (Hs Hw), Hrest by lia. by rewrite take_drop.
  - rewrite encode_app, encode_bad, Hrest by (done || by apply Forall_take || lia). by rewrite take_drop.
Qed.
