(* ===== verification/Json.v ===== *)
(** * JSON values, [json.dumps] in canonical form and [json.loads]

    Payloads, cursors and counters are Python values; the sources serialise them with
    [json.dumps(payload, allow_nan=False, sort_keys=True, separators=(",", ":"))].
    [dumps] is that serialiser ([ensure_ascii] is on by default), [loads] the parser.
    [VBytes] stands for the objects [json.dumps] refuses with a [TypeError].  Floats
    are not part of the model; escapes of code points above 255 are not either. *)

From Stdlib Require Import ZArith Lia String Ascii Decimal.
From stdpp Require Import base list strings gmap sorting.
From S2P Require Import Prelude PyStr.

Local Open Scope Z_scope.

#[local] Set Warnings "-register-all".

Inductive value : Type :=
  | VNone
  | VBool (b : bool)
  | VInt (z : Z)
  | VStr (s : string)
  | VBytes (b : bytes)
  | VList (l : list value)
  | VDict (d : list (string * value)).

(** Induction with the hypotheses for the children of lists and dicts. *)
Section value_ind.
  Context (P : value -> Prop).
  Hypothesis (HNone : P VNone) (HBool : forall b, P (VBool b)) (HInt : forall z, P (VInt z))
    (HStr : forall s, P (VStr s)) (HBytes : forall b, P (VBytes b))
    (HList : forall l, Forall P l -> P (VList l))
    (HDict : forall d, Forall (fun kv => P kv.2) d -> P (VDict d)).

Fixpoint value_ind' (v : value) : P v :=
    match v with
    | VNone => HNone | VBool b => HBool b | VInt z => HInt z
    | VStr s => HStr s | VBytes b => HBytes b
    | VList l => HList l ((fix go l : Forall P l :=
        match l with [] => List.Forall_nil _ | x :: l' => List.Forall_cons _ _ _ (value_ind' x) (go l') end) l)
    | VDict d => HDict d ((fix go (d : list (string * value)) : Forall (fun kv => P kv.2) d :=
        match d with [] => List.Forall_nil _ | kv :: d' =>
          List.Forall_cons _ kv _ (match kv as p return P p.2 with (_, x) => value_ind' x end) (go d') end) d)
    end.
End value_ind.

(** ** Dictionaries: association lists in insertion order *)

Fixpoint dict_get {A} (d : list (string * A)) (k : string) : option A :=
  match d with
  | [] => None
  | (k', v) :: d' => if String.eqb k k' then Some v else dict_get d' k
  end.

(** [d[k] = v]: an existing key keeps its position. *)
Fixpoint dict_set {A} (d : list (string * A)) (k : string) (v : A) : list (string * A) :=
  match d with
  | [] => [(k, v)]
  | (k', v') :: d' => if String.eqb k k' then (k', v) :: d' else (k', v') :: dict_set d' k v
  end.

(** [d.setdefault(k, v)]. *)
Definition dict_setdefault {A} (d : list (string * A)) (k : string) (v : A) : list (string * A) :=
  match dict_get d k with Some _ => d | None => dict_set d k v end.

Lemma dict_get_set {A} (d : list (string * A)) k k' v :
  dict_get (dict_set d k v) k' = if String.eqb k' k then Some v else dict_get d k'.
Proof.
  induction d as [|[k0 v0] d IH]; simpl; [done|].
  destruct (String.eqb_spec k k0) as [->|Hk]; simpl.
  - by destruct (String.eqb k' k0).
  - rewrite IH. destruct (String.eqb_spec k' k0) as [->|]; [|done].
    by destruct (String.eqb_spec k0 k) as [->|].
Qed.

Lemma dict_get_None {A} (d : list (string * A)) k : dict_get d k = None <-> k ∉ d.*1.
Proof.
  induction d as [|[k0 v0] d IH]; simpl.
  - split; [intros _; apply not_elem_of_nil|done].
  - rewrite not_elem_of_cons, <- IH. destruct (String.eqb_spec k k0); split; [done|by intros [? _]|by intros; split|by intros [_ ?]].
Qed.

Lemma dict_set_fresh {A} (d : list (string * A)) k v :
  k ∉ d.*1 -> dict_set d k v = (d ++ [(k, v)])%list.
Proof.
  induction d as [|[k0 v0] d IH]; simpl; [done|]. rewrite not_elem_of_cons.
  intros [Hk Hd]. destruct (String.eqb_spec k k0); [done|]. by rewrite IH.
Qed.

(** ** Sorting a dictionary by its keys *)

Definition key_le {A} (p q : string * A) : Prop := String.le p.1 q.1.
#[export] Instance key_le_dec {A} : RelDecision (@key_le A) := fun p q => decide (String.le p.1 q.1).
#[export] Instance key_le_total {A} : Total (@key_le A).
Proof. intros p q. apply String.le_total. Qed.
#[export] Instance key_le_trans {A} : Transitive (@key_le A).
Proof. intros p q r. unfold key_le. apply transitivity. Qed.

Definition sort_keys {A} (d : list (string * A)) : list (string * A) := merge_sort key_le d.

Lemma sort_keys_perm {A} (d : list (string * A)) : sort_keys d ≡ₚ d.
Proof. apply merge_sort_Permutation. Qed.

Lemma sort_keys_sorted {A} (d : list (string * A)) : Sorted key_le (sort_keys d).
Proof. apply Sorted_merge_sort, _. Qed.

Lemma NoDup_fst_inj {A} (d : list (string * A)) p q :
  NoDup d.*1 -> p ∈ d -> q ∈ d -> p.1 = q.1 -> p = q.
Proof.
  intros Hnd Hp Hq Heq. apply list_elem_of_lookup in Hp as [i Hi], Hq as [j Hj].
  assert (i = j) as ->; [|congruence].
  eapply (NoDup_lookup d.*1); eauto; rewrite list_lookup_fmap.
  - by rewrite Hi. - rewrite Hj; simpl; congruence.
Qed.

(** With distinct keys the sorted form is unique. *)
Lemma sorted_keys_unique {A} (d e : list (string * A)) :
  NoDup d.*1 -> Sorted key_le d -> Sorted key_le e -> d ≡ₚ e -> d = e.
Proof.
  intros Hnd Hd He Hp. apply (Sorted_unique_strong key_le); [|done..].
  intros p q Hpin Hqin Hpq Hqp. eapply NoDup_fst_inj; eauto.
  - by rewrite Hp. - by apply (anti_symm String.le).
Qed.

Lemma sort_keys_idem {A} (d : list (string * A)) : NoDup d.*1 -> sort_keys (sort_keys d) = sort_keys d.
Proof.
  intros Hnd. apply sorted_keys_unique; auto using sort_keys_sorted.
  - by rewrite !sort_keys_perm. - apply sort_keys_perm.
Qed.

Lemma sort_keys_fmap {A B} (f : A -> B) (d : list (string * A)) :
  NoDup d.*1 -> sort_keys (prod_map id f <$> d) = prod_map id f <$> sort_keys d.
Proof.
  intros Hnd. apply sorted_keys_unique.
  - rewrite sort_keys_perm, <- list_fmap_compose. exact Hnd.
  - apply sort_keys_sorted.
  - eapply Sorted_fmap; [|apply sort_keys_sorted]. by intros [??] [??].
  - by rewrite !sort_keys_perm.
Qed.

(** ** [json.dumps] *)

Definition hex_digit (n : Z) : ascii := chr (if n <? 10 then 48 + n else 87 + n).
Definition quote_char : ascii := "034"%char.
Definition backslash : ascii := "\"%char.

(** [py_encode_basestring_ascii] on one code point. *)
Definition esc (c : ascii) : list ascii :=
  let o := ord c in
  if Ascii.eqb c quote_char then [backslash; quote_char]
  else if Ascii.eqb c backslash then [backslash; backslash]
  else if o =? 10 then [backslash; "n"%char]
  else if o =? 13 then [backslash; "r"%char]
  else if o =? 9 then [backslash; "t"%char]
  else if o =? 12 then [backslash; "f"%char]
  else if o =? 8 then [backslash; "b"%char]
  else if (32 <=? o) && (o <=? 126) then [c]
  else [backslash; "u"; "0"; "0"; hex_digit (o / 16); hex_digit (o mod 16)]%char.

Definition dump_string (s : string) : list ascii :=
  quote_char :: concat (esc <$> chars s) ++ [quote_char].

Fixpoint sep_by (sep : list ascii) (l : list (list ascii)) : list ascii :=
  match l with
  | [] => []
  | [x] => x
  | x :: l => x ++ sep ++ sep_by sep l
  end.

(** All results, or none. *)
Fixpoint sequence {A} (l : list (option A)) : option (list A) :=
  match l with
  | [] => Some []
  | x :: l => match x, sequence l with Some a, Some r => Some (a :: r) | _, _ => None end
  end.

Definition dump_member (kc : string * list ascii) : list ascii :=
  dump_string kc.1 ++ ":"%char :: kc.2.

Fixpoint dump (v : value) : option (list ascii) :=
  match v with
  | VNone => Some (chars "null")
  | VBool b => Some (chars (if b then "true" else "false"))
  | VInt z => Some (Z_chars z)
  | VStr s => Some (dump_string s)
  | VBytes _ => None
  | VList l =>
      match sequence (map dump l) with
      | Some cs => Some ("["%char :: sep_by [","%char] cs ++ ["]"%char])
      | None => None
      end
  | VDict d =>
      match sequence (map (fun '(k, x) => match dump x with
                                          | Some c => Some (k, c)
                                          | None => None
                                          end) d) with
      | Some kcs => Some ("{"%char :: sep_by [","%char] (dump_member <$> sort_keys kcs)
                            ++ ["}"%char])
      | None => None
      end
  end.

(** The canonical text, or [None] where [json.dumps] raises. *)
Definition dumps (v : value) : option string := of_chars <$> dump v.
#[global] Arguments dumps : simpl never.

(** The dictionary [json.loads] builds from canonical text: keys in sorted order. *)
Fixpoint canon (v : value) : value :=
  match v with
  | VList l => VList (map canon l)
  | VDict d => VDict (sort_keys (map (fun '(k, x) => (k, canon x)) d))
  | v => v
  end.

(** The keys of every dictionary are distinct, as in Python. *)
Fixpoint wf_value (v : value) : Prop :=
  match v with
  | VList l => (fix go l := match l with [] => True | x :: l => wf_value x /\ go l end) l
  | VDict d => NoDup d.*1 /\
      (fix go d := match d with [] => True | (_, x) :: d => wf_value x /\ go d end) d
  | _ => True
  end.

Lemma wf_list_Forall l : wf_value (VList l) <-> Forall wf_value l.
Proof. simpl. induction l as [|x l IH]; [by split|]. by rewrite IH, Forall_cons. Qed.

Lemma wf_dict_Forall d :
  wf_value (VDict d) <-> NoDup d.*1 /\ Forall (fun kv => wf_value kv.2) d.
Proof.
  simpl. apply and_iff_compat_l.
  induction d as [|[k x] d IH]; [by split|]. by rewrite IH, Forall_cons.
Qed.

(** ** [json.loads] *)

Definition json_ws (c : ascii) : bool :=
  let o := ord c in (o =? 32) || (o =? 9) || (o =? 10) || (o =? 13).
Definition skip_ws (l : list ascii) : list ascii := drop_while json_ws l.

Definition hex_val (c : ascii) : option Z :=
  let o := ord c in
  if is_digit c then Some (o - 48)
  else if (97 <=? o) && (o <=? 102) then Some (o - 87)
  else if (65 <=? o) && (o <=? 70) then Some (o - 55)
  else None.

(** The text of a string literal after its opening quote. *)
Fixpoint parse_string (l : list ascii) : option (list ascii * list ascii) :=
  let push c r := match r with Some (s, r) => Some (c :: s, r) | None => None end in
  match l with
  | [] => None
  | c :: l =>
    if Ascii.eqb c quote_char then Some ([], l)
    else if Ascii.eqb c backslash then
      match l with
      | [] => None
      | e :: l =>
        if Ascii.eqb e "u"%char then
          match l with
          | h1 :: h2 :: h3 :: h4 :: l =>
            match hex_val h1, hex_val h2, hex_val h3, hex_val h4 with
            | Some a, Some b, Some c, Some d =>
              if (a =? 0) && (b =? 0) then push (chr (16 * c + d)) (parse_string l) else None
            | _, _, _, _ => None
            end
          | _ => None
          end
        else if Ascii.eqb e quote_char then push quote_char (parse_string l)
        else if Ascii.eqb e backslash then push backslash (parse_string l)
        else if Ascii.eqb e "/"%char then push "/"%char (parse_string l)
        else if Ascii.eqb e "b"%char then push (chr 8) (parse_string l)
        else if Ascii.eqb e "f"%char then push (chr 12) (parse_string l)
        else if Ascii.eqb e "n"%char then push (chr 10) (parse_string l)
        else if Ascii.eqb e "r"%char then push (chr 13) (parse_string l)
        else if Ascii.eqb e "t"%char then push (chr 9) (parse_string l)
        else None
      end
    else if ord c <? 32 then None
    else push c (parse_string l)
  end.

(** An optional minus and a numeral without superfluous zeros; a fraction or an exponent
    is a float, outside the model. *)
Definition parse_nat (l : list ascii) : option (Z * list ascii) :=
  let '(d, r) := take_digits l in
  match d with
  | Nil => None
  | D0 _ => Some (0, drop 1 l)
  | _ => Some (uint_Z d, r)
  end.

Definition float_tail (l : list ascii) : bool :=
  match l with
  | c :: _ => Ascii.eqb c "."%char || Ascii.eqb c "e"%char || Ascii.eqb c "E"%char
  | [] => false
  end.

Definition parse_number (l : list ascii) : option (value * list ascii) :=
  let finish z r := if float_tail r then None else Some (VInt z, r) in
  match l with
  | c :: l' =>
    if Ascii.eqb c "-"%char then
      match parse_nat l' with Some (z, r) => finish (- z) r | None => None end
    else match parse_nat l with Some (z, r) => finish z r | None => None end
  | [] => None
  end.

Definition expect (p : list ascii) (v : value) (l : list ascii) : option (value * list ascii) :=
  if decide (take (length p) l = p) then Some (v, drop (length p) l) else None.

Fixpoint parse_value (n : nat) (l : list ascii) {struct n} : option (value * list ascii) :=
  match n with
  | O => None
  | S n =>
    match l with
    | [] => None
    | c :: r =>
      if Ascii.eqb c quote_char then
        match parse_string r with Some (s, r) => Some (VStr (of_chars s), r) | None => None end
      else if Ascii.eqb c "["%char then
        match skip_ws r with
        | [] => None
        | c' :: r' => if Ascii.eqb c' "]"%char then Some (VList [], r')
                      else parse_elems n [] (c' :: r')
        end
      else if Ascii.eqb c "{"%char then
        match skip_ws r with
        | [] => None
        | c' :: r' => if Ascii.eqb c' "}"%char then Some (VDict [], r')
                      else parse_members n [] (c' :: r')
        end
      else if Ascii.eqb c "n"%char then expect (chars "null") VNone l
      else if Ascii.eqb c "t"%char then expect (chars "true") (VBool true) l
      else if Ascii.eqb c "f"%char then expect (chars "false") (VBool false) l
      else parse_number l
    end
  end
with parse_elems (n : nat) (acc : list value) (l : list ascii) {struct n}
    : option (value * list ascii) :=
  match n with
  | O => None
  | S n =>
    match parse_value n l with
    | None => None
    | Some (v, r) =>
      match skip_ws r with
      | [] => None
      | c :: r => if Ascii.eqb c "]"%char then Some (VList (acc ++ [v]), r)
                  else if Ascii.eqb c ","%char then parse_elems n (acc ++ [v]) (skip_ws r)
                  else None
      end
    end
  end
with parse_members (n : nat) (acc : list (string * value)) (l : list ascii) {struct n}
    : option (value * list ascii) :=
  match n with
  | O => None
  | S n =>
    match l with
    | [] => None
    | q :: l =>
      if Ascii.eqb q quote_char then
        match parse_string l with
        | None => None
        | Some (k, r) =>
          match skip_ws r with
          | [] => None
          | c :: r =>
            if Ascii.eqb c ":"%char then
              match parse_value n (skip_ws r) with
              | None => None
              | Some (v, r) =>
                let acc := dict_set acc (of_chars k) v in
                match skip_ws r with
                | [] => None
                | c :: r => if Ascii.eqb c "}"%char then Some (VDict acc, r)
                            else if Ascii.eqb c ","%char then parse_members n acc (skip_ws r)
                            else None
                end
              end
            else None
          end
        end
      else None
    end
  end.

Definition loads_chars (l : list ascii) : option value :=
  match parse_value (S (length l)) (skip_ws l) with
  | Some (v, r) => match skip_ws r with [] => Some v | _ => None end
  | None => None
  end.

(** [json.loads(s)], [None] where it raises. *)
Definition loads (s : string) : option value := loads_chars (chars s).

(** Single quotes for double quotes, to write JSON text in examples. *)
Definition sq (s : string) : string := replace_char "'"%char (of_chars [quote_char]) s.

Example loads_ex1 :
  loads (sq " {'b': [1, -20, true], 'a': 'x\n\u0041', 'b': null}")
  = Some (VDict [("b", VNone); ("a", VStr (of_chars ["x"; "010"; "A"]%char))])%string.
Proof. vm_compute. reflexivity. Qed.

Example dumps_ex1 :
  dumps (VDict [("b", VList [VInt 1; VInt (-20); VBool true]); ("a", VNone)])%string
  = Some (sq "{'a':null,'b':[1,-20,true]}").
Proof. vm_compute. reflexivity. Qed.

(** ** Round trip *)

Lemma Forall2_perm_l {A B} (R : A -> B -> Prop) l l' k :
  l ≡ₚ l' -> Forall2 R l k -> exists k', k ≡ₚ k' /\ Forall2 R l' k'.
Proof.
  intros Hp. revert k. induction Hp; intros k Hf.
  - inversion Hf; subst. by exists [].
  - inversion Hf as [|? b ? k0 Hr Hf']; subst.
    destruct (IHHp _ Hf') as (k' & Hk & Hf''). exists (b :: k'). by rewrite Hk; auto.
  - inversion Hf as [|? b ? k0 Hr Hf']; subst. inversion Hf' as [|? b' ? k1 Hr' Hf'']; subst.
    exists (b' :: b :: k1). split; [apply perm_swap|]. by repeat constructor.
  - destruct (IHHp1 _ Hf) as (k1 & Hk1 & Hf1). destruct (IHHp2 _ Hf1) as (k2 & Hk2 & Hf2).
    exists k2. split; [by rewrite Hk1|done].
Qed.

Lemma sequence_Forall2 {A B} (f : A -> option B) l k :
  sequence (map f l) = Some k -> Forall2 (fun x y => f x = Some y) l k.
Proof.
  revert k; induction l as [|x l IH]; intros k H; simpl in *; simplify_eq; [constructor|].
  destruct (f x) eqn:Hx, (sequence (map f l)) eqn:Hs; simplify_eq. constructor; auto.
Qed.

Lemma Forall2_sequence {A B} (f : A -> option B) l k :
  Forall2 (fun x y => f x = Some y) l k -> sequence (map f l) = Some k.
Proof. induction 1 as [|x y l k H _ IH]; simpl; [done|]. by rewrite H, IH. Qed.

Definition dump_pair (kv : string * value) : option (string * list ascii) :=
  let '(k, x) := kv in match dump x with Some c => Some (k, c) | None => None end.

Lemma dump_pair_Some kv kc :
  dump_pair kv = Some kc <-> kc.1 = kv.1 /\ dump kv.2 = Some kc.2.
Proof.
  destruct kv as [k x], kc as [k' c]; simpl. destruct (dump x); split; intros; destruct_and?; simplify_eq; auto.
Qed.

Lemma dump_pairs_keys d kcs :
  Forall2 (fun kv kc => dump_pair kv = Some kc) d kcs -> kcs.*1 = d.*1.
Proof.
  induction 1 as [|kv kc d kcs H _ IH]; [done|].
  apply dump_pair_Some in H as [H _]. rewrite !fmap_cons. congruence.
Qed.

Lemma Sorted_keys_transfer {A B} (d : list (string * A)) (e : list (string * B)) :
  d.*1 = e.*1 -> Sorted key_le d -> Sorted key_le e.
Proof.
  revert e; induction d as [|[k x] d IH]; intros [|[k' y] e] He Hs; simplify_eq/=; constructor.
  - apply IH; [done|]. by inversion Hs.
  - apply Sorted_inv in Hs as [_ Hs].
    destruct d as [|[??]], e as [|[??]]; simplify_eq/=; constructor.
    by inversion Hs.
Qed.

(** Dumping commutes with sorting the members. *)
Lemma dump_pairs_sort d kcs :
  NoDup d.*1 -> Forall2 (fun kv kc => dump_pair kv = Some kc) d kcs ->
  Forall2 (fun kv kc => dump_pair kv = Some kc) (sort_keys d) (sort_keys kcs).
Proof.
  intros Hnd Hf.
  destruct (Forall2_perm_l _ _ (sort_keys d) _ (symmetry (sort_keys_perm d)) Hf)
    as (k' & Hp & Hf').
  replace (sort_keys kcs) with k'; [done|].
  pose proof (dump_pairs_keys _ _ Hf'). apply sorted_keys_unique.
  - rewrite <- Hp. by rewrite (dump_pairs_keys _ _ Hf).
  - eapply Sorted_keys_transfer; [symmetry; eassumption|apply sort_keys_sorted].
  - apply sort_keys_sorted.
  - by rewrite sort_keys_perm, Hp.
Qed.

Lemma parse_string_esc c r :
  parse_string (esc c ++ r) =
  match parse_string r with Some (s, r) => Some (c :: s, r) | None => None end.
Proof. destruct c as [[] [] [] [] [] [] [] []]; reflexivity. Qed.

Lemma parse_string_dump l r :
  parse_string (concat (esc <$> l) ++ quote_char :: r) = Some (l, r).
Proof.
  induction l as [|c l IH]; [done|].
  rewrite fmap_cons. simpl concat. by rewrite <- app_assoc, parse_string_esc, IH.
Qed.

(** What may follow a value inside canonical text. *)
Definition json_stop (r : list ascii) : Prop :=
  match r with [] => True | c :: _ => c ∈ [","; "]"; "}"; "010"]%char end.

Lemma json_stop_digits r : json_stop r -> digits_stop r /\ float_tail r = false.
Proof.
  destruct r as [|c r]; [done|]. simpl. rewrite !elem_of_cons, elem_of_nil.
  intros [->|[->|[->|[->|[]]]]]; done.
Qed.

Lemma parse_nat_uint n r :
  json_stop r -> parse_nat (uint_chars (N.to_uint n) ++ r) = Some (Z.of_N n, r).
Proof.
  intros Hr. destruct (json_stop_digits _ Hr) as [Hd _].
  unfold parse_nat. rewrite take_digits_uint by done.
  assert (uint_Z (N.to_uint n) = Z.of_N n) as Hn.
  { unfold uint_Z. by rewrite DecimalN.Unsigned.of_to. }
  destruct (N.to_uint n) eqn:E; try (by rewrite Hn).
  - by apply to_uint_nonnil in E.
  - pose proof (to_uint_D0 _ _ E) as ->. simpl. f_equal. f_equal. by rewrite <- Hn.
Qed.

(** Every dumped value starts with a character that is neither space nor a closer. *)
Lemma dump_head v c :
  dump v = Some c -> exists h t, c = h :: t /\ json_ws h = false /\ h <> "]"%char /\ h <> "}"%char.
Proof.
  destruct v as [|[]|z|s|b|l|d]; simpl; intros H; simplify_eq; try (by eexists _, _).
  - unfold Z_chars. destruct (z <? 0); [by eexists _, _|].
    destruct (N.to_uint _) eqn:E; simpl; try (by eexists _, _).
    by apply to_uint_nonnil in E.
  - destruct (sequence _); simplify_eq. by eexists _, _.
  - destruct (sequence _); simplify_eq. by eexists _, _.
Qed.

Lemma skip_ws_head h t : json_ws h = false -> skip_ws (h :: t) = h :: t.
Proof. intros H. unfold skip_ws. simpl. by rewrite H. Qed.

Lemma parse_number_Z z r :
  json_stop r -> parse_number (Z_chars z ++ r) = Some (VInt z, r).
Proof.
  intros Hr. destruct (json_stop_digits _ Hr) as [_ Hf]. unfold Z_chars.
  destruct (Z.ltb_spec z 0).
  - simpl. rewrite parse_nat_uint, Hf by done. repeat f_equal. lia.
  - pose proof (parse_nat_uint (Z.to_N z) r Hr) as Hp.
    destruct (N.to_uint (Z.to_N z)) eqn:E; [by apply to_uint_nonnil in E|..];
      simpl in *; rewrite Hp, Hf; repeat f_equal; lia.
Qed.

Definition parses (v : value) : Prop :=
  forall c n r, dump v = Some c -> (length c < n)%nat -> json_stop r ->
  parse_value n (c ++ r) = Some (canon v, r).

Lemma sep_by_cons2 (x y : list ascii) l :
  sep_by [","%char] (x :: y :: l) = x ++ ","%char :: sep_by [","%char] (y :: l).
Proof. reflexivity. Qed.

Lemma sep_by_head sep h t (l : list (list ascii)) :
  exists t', sep_by sep ((h :: t) :: l) = h :: t'.
Proof. destruct l; simpl; eauto. Qed.

Arguments sep_by : simpl never.
Arguments dump_member : simpl never.

Lemma parse_elems_S n acc l :
  parse_elems (S n) acc l =
  match parse_value n l with
  | None => None
  | Some (v, r) =>
    match skip_ws r with
    | [] => None
    | c :: r => if Ascii.eqb c "]"%char then Some (VList (acc ++ [v]), r)
                else if Ascii.eqb c ","%char then parse_elems n (acc ++ [v]) (skip_ws r)
                else None
    end
  end.
Proof. reflexivity. Qed.

Lemma json_stop_comma r : json_stop (","%char :: r).
Proof. simpl; set_solver. Qed.
Lemma json_stop_bracket r : json_stop ("]"%char :: r).
Proof. simpl; set_solver. Qed.
Lemma json_stop_brace r : json_stop ("}"%char :: r).
Proof. simpl; set_solver. Qed.
#[local] Hint Resolve json_stop_comma json_stop_bracket json_stop_brace : core.

Lemma parse_elems_dump l cs acc n r :
  Forall parses l -> Forall2 (fun v c => dump v = Some c) l cs -> l <> [] ->
  (length (sep_by [","%char] cs) + 1 < n)%nat ->
  parse_elems n acc (sep_by [","%char] cs ++ "]"%char :: r) = Some (VList (acc ++ map canon l), r).
Proof.
  intros Hall Hf. revert acc n Hall.
  induction Hf as [|v c l cs Hv Hf IH]; intros acc n Hall Hne Hn; [done|].
  apply Forall_cons in Hall as [Hp Hall].
  destruct n as [|n]; [lia|]. rewrite parse_elems_S. destruct Hf as [|v' c' l cs Hv' Hf].
  - change (sep_by _ [c]) with c in *. rewrite (Hp c n) by (auto; lia). reflexivity.
  - rewrite sep_by_cons2 in *. rewrite length_app in Hn. simpl in Hn.
    rewrite <- app_assoc, <- app_comm_cons. rewrite (Hp c n) by (auto; lia). simpl.
    destruct (dump_head _ _ Hv') as (h & t & -> & Hw & _).
    destruct (sep_by_head [","%char] h t cs) as [t' Ht'].
    rewrite Ht', <- app_comm_cons, (skip_ws_head _ _ Hw), app_comm_cons, <- Ht'.
    rewrite IH by (done || lia). by rewrite <- app_assoc.
Qed.

Lemma parse_members_S n acc q l :
  parse_members (S n) acc (q :: l) =
  if Ascii.eqb q quote_char then
    match parse_string l with
    | None => None
    | Some (k, r) =>
      match skip_ws r with
      | [] => None
      | c :: r =>
        if Ascii.eqb c ":"%char then
          match parse_value n (skip_ws r) with
          | None => None
          | Some (v, r) =>
            let acc := dict_set acc (of_chars k) v in
            match skip_ws r with
            | [] => None
            | c :: r => if Ascii.eqb c "}"%char then Some (VDict acc, r)
                        else if Ascii.eqb c ","%char then parse_members n acc (skip_ws r)
                        else None
            end
          end
        else None
      end
    end
  else None.
Proof. reflexivity. Qed.

(** One member, up to the text of its value. *)
Lemma parse_members_key n acc k x c r :
  dump x = Some c ->
  parse_members (S n) acc (dump_member (k, c) ++ r) =
  match parse_value n (c ++ r) with
  | None => None
  | Some (v, r) =>
    match skip_ws r with
    | [] => None
    | e :: r => if Ascii.eqb e "}"%char then Some (VDict (dict_set acc k v), r)
                else if Ascii.eqb e ","%char then parse_members n (dict_set acc k v) (skip_ws r)
                else None
    end
  end.
Proof.
  intros Hc. destruct (dump_head _ _ Hc) as (h & t & -> & Hw & _).
  unfold dump_member, dump_string. simpl app. rewrite parse_members_S.
  cbn [fst snd]. rewrite <- !app_assoc. simpl app. change (Ascii.eqb quote_char quote_char) with true.
  rewrite parse_string_dump. simpl. rewrite skip_ws_head, of_chars_chars by done. reflexivity.
Qed.

Lemma parse_members_dump d kcs acc n r :
  Forall (fun kv => parses kv.2) d -> Forall2 (fun kv kc => dump_pair kv = Some kc) d kcs ->
  d <> [] -> NoDup (acc.*1 ++ d.*1) ->
  (length (sep_by [","%char] (dump_member <$> kcs)) + 1 < n)%nat ->
  parse_members n acc (sep_by [","%char] (dump_member <$> kcs) ++ "}"%char :: r)
  = Some (VDict (acc ++ (prod_map id canon <$> d)), r).
Proof.
  intros Hall Hf. revert acc n Hall.
  induction Hf as [|[k x] [k' c] d kcs Hv Hf IH]; intros acc n Hall Hne Hnd Hn; [done|].
  apply dump_pair_Some in Hv as [Hk Hc]; simpl in Hk, Hc; subst k'.
  apply Forall_cons in Hall as [Hp Hall]; simpl in Hp.
  assert (dict_set acc k (canon x) = (acc ++ [(k, canon x)])%list) as Hset.
  { apply dict_set_fresh. intros Hin. rewrite NoDup_app in Hnd.
    destruct Hnd as (_ & Hd & _). apply (Hd k Hin). simpl. left. }
  assert (length c < length (dump_member (k, c)))%nat as Hlen.
  { unfold dump_member, dump_string. simpl. rewrite !length_app. simpl. lia. }
  destruct n as [|n]; [lia|]. rewrite fmap_cons in *.
  destruct Hf as [|[k2 x2] [k2' c2] d kcs Hv2 Hf].
  - change (sep_by _ (dump_member (k, c) :: (dump_member <$> []))) with (dump_member (k, c)) in *.
    rewrite (parse_members_key _ _ _ x) by done. rewrite (Hp c n) by (auto; lia).
    simpl. by rewrite Hset.
  - rewrite fmap_cons, sep_by_cons2 in *. rewrite length_app in Hn. cbn [length] in Hn.
    rewrite <- app_assoc, <- app_comm_cons. rewrite (parse_members_key _ _ _ x) by done. rewrite (Hp c n) by (auto; lia).
    simpl. rewrite Hset.
    assert (exists t, dump_member (k2', c2) = quote_char :: t) as [t Ht] by (unfold dump_member, dump_string; simpl; eauto).
    destruct (sep_by_head [","%char] quote_char t (dump_member <$> kcs)) as [t' Ht'].
    rewrite <- Ht in Ht'.
    rewrite Ht', <- app_comm_cons, (skip_ws_head quote_char) by done. rewrite app_comm_cons, <- Ht'.
    rewrite IH; [by rewrite <- app_assoc|done|done| |lia].
    rewrite fmap_app. simpl. rewrite <- app_assoc. exact Hnd.
Qed.

Lemma parse_dump v : wf_value v -> parses v.
Proof.
  induction v as [|b|z|s|b|l IH|d IH] using value_ind'; intros Hwf c n r Hc Hn Hr;
    (destruct n as [|n]; [lia|]).
  - simpl in Hc; simplify_eq. reflexivity.
  - simpl in Hc; simplify_eq. by destruct b.
  - simpl in Hc; simplify_eq.
    assert (parse_value (S n) (Z_chars z ++ r) = parse_number (Z_chars z ++ r)) as ->.
    { unfold Z_chars. destruct (z <? 0); [done|].
      destruct (N.to_uint _) eqn:E; try done. by apply to_uint_nonnil in E. }
    by rewrite parse_number_Z.
  - simpl in Hc; simplify_eq. unfold dump_string. simpl. rewrite <- app_assoc. simpl app.
    by rewrite parse_string_dump, of_chars_chars.
  - done.
  - simpl in Hc. destruct (sequence (map dump l)) as [cs|] eqn:Hs; simplify_eq.
    apply sequence_Forall2 in Hs. apply wf_list_Forall in Hwf.
    assert (Forall parses l) as Hall.
    { rewrite Forall_forall in IH, Hwf |- *. auto. }
    simpl. destruct Hs as [|v c l cs Hv Hs]; [reflexivity|].
    destruct (dump_head _ _ Hv) as (h & t & -> & Hw & Hne & _).
    destruct (sep_by_head [","%char] h t cs) as [t' Ht'].
    pose proof (parse_elems_dump (v :: l) ((h :: t) :: cs) [] n r) as Hpe.
    simpl in Hn. rewrite length_app in Hn. simpl in Hn. rewrite <- app_assoc. simpl app.
    rewrite Ht' in Hn, Hpe |- *. simpl app in Hpe |- *. rewrite skip_ws_head by done.
    destruct (Ascii.eqb_spec h "]"%char); [done|]. apply Hpe; auto; lia.
  - simpl in Hc. destruct (sequence _) as [kcs|] eqn:Hs; simplify_eq.
    apply (sequence_Forall2 dump_pair) in Hs. apply wf_dict_Forall in Hwf as [Hnd Hwf].
    assert (Forall (fun kv => parses kv.2) (sort_keys d)) as Hall.
    { rewrite sort_keys_perm. rewrite Forall_forall in IH, Hwf |- *. auto. }
    pose proof (dump_pairs_sort _ _ Hnd Hs) as Hss.
    assert (canon (VDict d) = VDict (prod_map id canon <$> sort_keys d)) as Hcan.
    { simpl. f_equal. rewrite <- sort_keys_fmap by done. f_equal.
      apply map_ext. by intros []. }
    rewrite Hcan. clear Hcan.
    assert (NoDup (sort_keys d).*1) as Hnd' by by rewrite sort_keys_perm.
    pose proof (parse_members_dump (sort_keys d) (sort_keys kcs) [] n r Hall Hss) as Hpm.
    simpl. simpl in Hn. rewrite length_app in Hn. simpl in Hn. rewrite <- app_assoc. simpl app.
    destruct Hss as [|kv [k c] sd skcs Hv Hss]; [reflexivity|].
    rewrite fmap_cons in *.
    assert (exists t, dump_member (k, c) = quote_char :: t) as [t Ht] by (unfold dump_member, dump_string; simpl; eauto).
    destruct (sep_by_head [","%char] quote_char t (dump_member <$> skcs)) as [t' Ht'].
    rewrite <- Ht in Ht'. rewrite Ht' in Hpm, Hn |- *. simpl app in Hpm |- *.
    rewrite skip_ws_head by done. change (Ascii.eqb quote_char "}"%char) with false. cbv iota.
    apply Hpm; [done|exact Hnd'|simpl in *; lia].
Qed.

(** Parsing the canonical text of a value gives that value with sorted keys. *)
Lemma loads_dumps v s : wf_value v -> dumps v = Some s -> loads s = Some (canon v).
Proof.
  intros Hwf H. unfold dumps in H. destruct (dump v) as [c|] eqn:Hc; simplify_eq/=.
  unfold loads, loads_chars. rewrite chars_of_chars.
  destruct (dump_head _ _ Hc) as (h & t & Hct & Hw & _).
  assert (skip_ws c = c) as -> by (rewrite Hct; by apply skip_ws_head).
  pose proof (parse_dump v Hwf c (S (length c)) [] Hc ltac:(lia) I) as Hp.
  rewrite app_nil_r in Hp. by rewrite Hp.
Qed.

(** Two values with the same canonical text are the same up to key order. *)
Lemma dumps_inj v w s :
  wf_value v -> wf_value w -> dumps v = Some s -> dumps w = Some s -> canon v = canon w.
Proof.
  intros Hv Hw H1 H2. apply loads_dumps in H1, H2; auto. congruence.
Qed.

(** Sorting keys first does not change the text. *)
Lemma dump_canon v : wf_value v -> dump (canon v) = dump v.
Proof.
  induction v as [|b|z|s|b|l IH|d IH] using value_ind'; intros Hwf; try reflexivity.
  - apply wf_list_Forall in Hwf. simpl. rewrite map_map.
    assert (map (fun x => dump (canon x)) l = map dump l) as ->; [|done].
    apply map_ext_in. intros x Hx%list_elem_of_In.
    rewrite Forall_forall in IH, Hwf. auto.
  - apply wf_dict_Forall in Hwf as [Hnd Hwf].
    assert (forall e, (forall kv, kv ∈ e -> kv ∈ d) ->
      map dump_pair (prod_map id canon <$> e) = map dump_pair e) as Hmap.
    { intros e He. rewrite map_map. apply map_ext_in. intros [k x] Hx%list_elem_of_In. simpl.
      rewrite Forall_forall in IH, Hwf. pose proof (IH _ (He _ Hx) (Hwf _ (He _ Hx))) as Hd. simpl in Hd. by rewrite Hd. }
    assert (canon (VDict d) = VDict (prod_map id canon <$> sort_keys d)) as ->.
    { simpl. f_equal. rewrite <- sort_keys_fmap by done. f_equal.
      apply map_ext. by intros []. }
    change (match sequence (map dump_pair (prod_map id canon <$> sort_keys d)) with
      | Some kcs => Some ("{"%char :: sep_by [","%char] (dump_member <$> sort_keys kcs) ++ ["}"%char])
      | None => None end =
      match sequence (map dump_pair d) with
      | Some kcs => Some ("{"%char :: sep_by [","%char] (dump_member <$> sort_keys kcs) ++ ["}"%char])
      | None => None end).
    rewrite Hmap by (intros kv Hkv; by rewrite sort_keys_perm in Hkv).
    destruct (sequence (map dump_pair d)) as [kcs|] eqn:Hs.
    + apply sequence_Forall2 in Hs. pose proof (dump_pairs_sort _ _ Hnd Hs) as Hss.
      rewrite (Forall2_sequence _ _ _ Hss). rewrite sort_keys_idem; [done|].
      by rewrite (dump_pairs_keys _ _ Hs).
    + destruct (sequence (map dump_pair (sort_keys d))) as [kcs|] eqn:Hs'; [|done].
      exfalso. apply sequence_Forall2 in Hs'.
      destruct (Forall2_perm_l _ _ d _ (sort_keys_perm d) Hs') as (k' & _ & Hf).
      apply Forall2_sequence in Hf. congruence.
Qed.

Lemma dumps_canon v : wf_value v -> dumps (canon v) = dumps v.
Proof. intros H. unfold dumps. by rewrite dump_canon. Qed.

#[export] Hint Resolve loads_dumps : reperio.

(** ** Canonical text is one line of printable ASCII *)

Definition printable (c : ascii) : bool := (32 <=? ord c) && (ord c <=? 126).
Definition all_printable (l : list ascii) : Prop := Forall (fun c => printable c = true) l.

Lemma printable_esc c : all_printable (esc c).
Proof.
  assert (forallb printable (esc c) = true) as H
    by (destruct c as [[] [] [] [] [] [] [] []]; by vm_compute).
  apply Forall_forall. by apply forallb_elem.
Qed.

Lemma printable_dump_string s : all_printable (dump_string s).
Proof.
  unfold dump_string, all_printable. constructor; [done|]. apply Forall_app. split; [|by repeat constructor].
  apply Forall_concat, Forall_fmap, Forall_forall. intros c _. apply printable_esc.
Qed.

Lemma printable_uint d : all_printable (uint_chars d).
Proof. unfold all_printable. induction d; simpl; constructor; done. Qed.

Lemma printable_Z z : all_printable (Z_chars z).
Proof.
  unfold Z_chars. destruct (z <? 0); [constructor; [done|]|]; apply printable_uint.
Qed.

Lemma printable_sep_by sep l :
  all_printable sep -> Forall all_printable l -> all_printable (sep_by sep l).
Proof.
  intros Hs. induction 1 as [|x l Hx Hl IH]; [constructor|]. simpl.
  destruct l; [done|]. apply Forall_app. split; [done|]. by apply Forall_app.
Qed.

Lemma dump_printable v c : dump v = Some c -> all_printable c.
Proof.
  revert c. induction v as [|b|z|s|b|l IH|d IH] using value_ind'; intros c H; simpl in H; simplify_eq.
  - by repeat constructor.
  - destruct b; by repeat constructor.
  - apply printable_Z.
  - apply printable_dump_string.
  - destruct (sequence (map dump l)) as [cs|] eqn:E; [|done]. injection H as <-.
    apply sequence_Forall2 in E. constructor; [done|]. apply Forall_app. split; [|by repeat constructor].
    apply printable_sep_by; [by repeat constructor|].
    induction E as [|x y l cs Hx _ IHE]; [constructor|].
    apply Forall_cons in IH as [IHx IH]. constructor; [by apply IHx|by apply IHE].
  - destruct (sequence _) as [kcs|] eqn:E; [|done]. injection H as <-.
    apply (sequence_Forall2 dump_pair) in E. constructor; [done|].
    apply Forall_app. split; [|by repeat constructor].
    apply printable_sep_by; [by repeat constructor|]. apply Forall_fmap.
    rewrite sort_keys_perm. induction E as [|x y d kcs Hx _ IHE]; [constructor|].
    apply Forall_cons in IH as [IHx IH]. constructor; [|by apply IHE]. unfold dump_member. apply dump_pair_Some in Hx as [_ Hx].
    apply Forall_app. split; [apply printable_dump_string|]. constructor; [done|]. by apply IHx.
Qed.

Lemma dumps_printable v s : dumps v = Some s -> all_printable (chars s).
Proof.
  unfold dumps. destruct (dump v) eqn:E; [|done]. intros [= <-].
  rewrite chars_of_chars. by eapply dump_printable.
Qed.
