(* ===== verification/Identifiers.v ===== *)
(** * Identifiers and Python values in contracts

    What the host protocol and the destination contract share: the opaque identifiers both
    accept (the pattern of [hostd/protocol.py] and of [shared/destination_contract.py] is the
    same text), bounded words of a character class, and the tests of a parsed value against
    integers and sets of texts. *)

From Stdlib Require Import ZArith Lia String Ascii.
From stdpp Require Import base list strings gmap sorting.
From S2P Require Import Prelude PyStr Json.

Local Open Scope string_scope.
Local Open Scope Z_scope.

(** ** Character classes *)

Definition is_lower (c : ascii) : bool := (97 <=? ord c) && (ord c <=? 122).
Definition is_upper (c : ascii) : bool := (65 <=? ord c) && (ord c <=? 90).
Definition is_alnum (c : ascii) : bool := is_lower c || is_upper c || is_digit c.
Definition one_of (cs : string) (c : ascii) : bool := char_in c cs.

(** The class [\[a-z0-9_\]]. *)
Definition id_body (c : ascii) : bool := is_lower c || is_digit c || Ascii.eqb c "_"%char.
(** The class [\[A-Za-z0-9_-\]]. *)
Definition id_tail (c : ascii) : bool := is_alnum c || one_of "_-" c.

(** A text of one first character and at most [n] further ones. *)
Definition bounded_word (first rest : ascii -> bool) (n : Z) (s : string) : bool :=
  match chars s with [] => false | c :: l => first c && forallb rest l && (zlen l <=? n) end.

(** ** Opaque identifiers *)

Definition opaque_suffix (l : list ascii) : bool :=
  forallb id_tail l && (16 <=? zlen l) && (zlen l <=? 128).

(** Some underscore splits the text into a body and a suffix. *)
Fixpoint opaque_rest (l : list ascii) : bool :=
  match l with
  | [] => false
  | c :: r => (Ascii.eqb c "_"%char && opaque_suffix r) || (id_body c && opaque_rest r)
  end.

(** [fullmatch] of the pattern of opaque identifiers. *)
Definition opaque_id (s : string) : bool :=
  match chars s with [] => false | c :: l => is_lower c && opaque_rest l end.

Lemma opaque_rest_spec l :
  opaque_rest l = true <->
  exists p q, l = (p ++ "_"%char :: q)%list /\ forallb id_body p = true /\ opaque_suffix q = true.
Proof.
  induction l as [|c l IH]; simpl.
  - split; [done|]. by intros ([|? p] & q & [=] & _).
  - rewrite orb_true_iff, !andb_true_iff, Ascii.eqb_eq, IH. split.
    + intros [[-> Hs]|[Hc (p & q & -> & Hp & Hq)]]; [by exists [], l|].
      exists (c :: p), q. split; [done|]. simpl. by rewrite Hc.
    + intros ([|d p] & q & [= -> ->] & Hp & Hq); [by left|]. right.
      simpl in Hp. apply andb_true_iff in Hp as [? ?]. split; [done|]. by exists p, q.
Qed.

(** The pattern read declaratively. *)
Lemma opaque_id_spec s :
  opaque_id s = true <->
  exists c p q, chars s = (c :: p ++ "_"%char :: q)%list /\ is_lower c = true /\ forallb id_body p = true /\
    forallb id_tail q = true /\ 16 <= zlen q <= 128.
Proof.
  unfold opaque_id. split.
  - destruct (chars s) as [|c l]; [done|]. intros [Hc (p & q & -> & Hp & Hq)%opaque_rest_spec]%andb_true_iff.
    unfold opaque_suffix in Hq. rewrite !andb_true_iff in Hq. exists c, p, q. split; [done|]. by destruct Hq as [[? ?] ?]; split_and!; try lia.
  - intros (c & p & q & -> & Hc & Hp & Hq & Hl). apply andb_true_iff. split; [done|].
    apply opaque_rest_spec. exists p, q. split; [done|]. split; [done|]. unfold opaque_suffix. rewrite Hq. simpl. lia.
Qed.

Lemma id_tail_ext c : id_tail c = is_alnum c || Ascii.eqb c "_"%char || Ascii.eqb c "-"%char.
Proof. unfold id_tail, one_of, char_in. simpl. rewrite !orb_false_r. by destruct (is_alnum c). Qed.

(** An opaque identifier holds no separator of paths. *)
Lemma opaque_id_no_path s c : opaque_id s = true -> c ∈ ["/"; "\"; "000"; "."]%char -> char_in c s = false.
Proof.
  intros (a & p & q & Hs & Ha & Hp & Hq & _)%opaque_id_spec Hc. apply not_true_is_false. unfold char_in.
  rewrite existsb_elem. intros (d & Hd & He%Ascii.eqb_eq). subst d. rewrite Hs in Hd.
  assert (id_tail c = false /\ id_body c = false /\ is_lower c = false /\ c <> "_"%char) as (Ht & Hb & Hl & Hu).
  { rewrite !elem_of_cons, elem_of_nil in Hc. destruct Hc as [->|[->|[->|[->|[]]]]]; by vm_compute. }
  rewrite elem_of_cons, elem_of_app, elem_of_cons in Hd. destruct Hd as [->|[Hd|[->|Hd]]]; try congruence.
  - rewrite forallb_elem in Hp. rewrite Hp in Hb; done.
  - rewrite forallb_elem in Hq. rewrite Hq in Ht; done.
Qed.

(** ** Tests of parsed values *)

(** [v == s] for a text [s]. *)
Definition is_text (v : value) (s : string) : bool :=
  match v with VStr t => String.eqb t s | _ => false end.
(** [v == n] for an integer [n]: [True == 1] and [False == 0]. *)
Definition is_int (v : value) (n : Z) : bool :=
  match v with VInt z => z =? n | VBool b => (if b then 1 else 0) =? n | _ => false end.
(** [isinstance(v, int)], and the integer a boolean is. *)
Definition int_value (v : value) : option Z :=
  match v with VInt z => Some z | VBool b => Some (if b then 1 else 0) | _ => None end.

(** [v in names] for a set of texts; [None] is the [TypeError] of an unhashable value. *)
Definition member_of (v : value) (names : list string) : option bool :=
  match v with
  | VStr s => Some (bool_decide (s ∈ names))
  | VList _ | VDict _ => None
  | _ => Some false
  end.

Lemma is_text_true v s : is_text v s = true <-> v = VStr s.
Proof. destruct v; simpl; rewrite ?String.eqb_eq; naive_solver. Qed.
