(* ===== verification/Sha256.v ===== *)
(** * SHA-256 as [hashlib.sha256] computes it

    The integrity hashes, idempotent content names and identity keys of the catalog are
    SHA-256 digests.  This is the FIPS 180-4 function on byte lists, executable, with
    the test vectors of the standard; the development proves nothing about its
    cryptographic strength and states consequences as explicit collisions. *)

From Stdlib Require Import ZArith Lia String Ascii.
From stdpp Require Import base list strings gmap.
From S2P Require Import Prelude PyStr.

Local Open Scope Z_scope.

(** ** 32-bit words *)

Definition mask32 : Z := 4294967295.
Definition add32 (x y : Z) : Z := Z.land (x + y) mask32.
Definition not32 (x : Z) : Z := mask32 - x.
Definition rotr (n x : Z) : Z :=
  Z.lor (Z.shiftr x n) (Z.land (Z.shiftl x (32 - n)) mask32).

Definition ch x y z : Z := Z.lxor (Z.land x y) (Z.land (not32 x) z).
Definition maj x y z : Z := Z.lxor (Z.lxor (Z.land x y) (Z.land x z)) (Z.land y z).
Definition bsig0 x : Z := Z.lxor (Z.lxor (rotr 2 x) (rotr 13 x)) (rotr 22 x).
Definition bsig1 x : Z := Z.lxor (Z.lxor (rotr 6 x) (rotr 11 x)) (rotr 25 x).
Definition ssig0 x : Z := Z.lxor (Z.lxor (rotr 7 x) (rotr 18 x)) (Z.shiftr x 3).
Definition ssig1 x : Z := Z.lxor (Z.lxor (rotr 17 x) (rotr 19 x)) (Z.shiftr x 10).

Definition round_constants : list Z :=
  [1116352408; 1899447441; 3049323471; 3921009573; 961987163; 1508970993; 2453635748;
   2870763221; 3624381080; 310598401; 607225278; 1426881987; 1925078388; 2162078206;
   2614888103; 3248222580; 3835390401; 4022224774; 264347078; 604807628; 770255983;
   1249150122; 1555081692; 1996064986; 2554220882; 2821834349; 2952996808; 3210313671;
   3336571891; 3584528711; 113926993; 338241895; 666307205; 773529912; 1294757372;
   1396182291; 1695183700; 1986661051; 2177026350; 2456956037; 2730485921; 2820302411;
   3259730800; 3345764771; 3516065817; 3600352804; 4094571909; 275423344; 430227734;
   506948616; 659060556; 883997877; 958139571; 1322822218; 1537002063; 1747873779;
   1955562222; 2024104815; 2227730452; 2361852424; 2428436474; 2756734187; 3204031479;
   3329325298].

Record hash_state := HS { hA : Z; hB : Z; hC : Z; hD : Z; hE : Z; hF : Z; hG : Z; hH : Z }.

Definition initial_state : hash_state :=
  HS 1779033703 3144134277 1013904242 2773480762 1359893119 2600822924 528734635 1541459225.

(** ** Message schedule and compression *)

Definition be32 (a b c d : Z) : Z := ((a * 256 + b) * 256 + c) * 256 + d.

Fixpoint words_of (b : bytes) : list Z :=
  match b with
  | a :: b :: c :: d :: r => be32 a b c d :: words_of r
  | _ => []
  end.

(** The schedule, newest word first: [W_t] from the words 2, 7, 15 and 16 back. *)
Fixpoint extend_schedule (n : nat) (w : list Z) : list Z :=
  match n with
  | O => w
  | S n =>
    let g i := nth i w 0 in
    extend_schedule n
      (add32 (add32 (ssig1 (g 1%nat)) (g 6%nat)) (add32 (ssig0 (g 14%nat)) (g 15%nat)) :: w)
  end.

Definition schedule (block : bytes) : list Z := rev (extend_schedule 48 (rev (words_of block))).

Definition round (s : hash_state) (kw : Z * Z) : hash_state :=
  let '(HS a b c d e f g h) := s in
  let t1 := add32 (add32 h (bsig1 e)) (add32 (ch e f g) (add32 kw.1 kw.2)) in
  let t2 := add32 (bsig0 a) (maj a b c) in
  HS (add32 t1 t2) a b c (add32 d t1) e f g.

Definition compress (s : hash_state) (block : bytes) : hash_state :=
  let '(HS a b c d e f g h) := s in
  let '(HS a' b' c' d' e' f' g' h') :=
    fold_left round (combine round_constants (schedule block)) s in
  HS (add32 a a') (add32 b b') (add32 c c') (add32 d d')
     (add32 e e') (add32 f f') (add32 g g') (add32 h h').

(** ** Padding *)

Definition pad (m : bytes) : bytes :=
  let n := zlen m in
  m ++ [128] ++ replicate (Z.to_nat ((55 - n) mod 64)) 0 ++ to_bytes_big 8 (8 * n).

Fixpoint blocks (fuel : nat) (b : bytes) : list bytes :=
  match fuel, b with
  | S fuel, _ :: _ => take 64 b :: blocks fuel (drop 64 b)
  | _, _ => []
  end.

Definition sha256_state (m : bytes) : hash_state :=
  let p := pad m in fold_left compress (blocks (length p) p) initial_state.

Definition hex_nibble (n : Z) : ascii := chr (if n <? 10 then 48 + n else 87 + n).
Definition hex_byte (b : Z) : list ascii := [hex_nibble (b / 16); hex_nibble (b mod 16)].
Definition hex_bytes (b : bytes) : list ascii := concat (hex_byte <$> b).

Definition digest (m : bytes) : bytes :=
  let '(HS a b c d e f g h) := sha256_state m in
  concat (to_bytes_big 4 <$> [a; b; c; d; e; f; g; h]).

(** [hashlib.sha256(m).hexdigest()]. *)
Definition sha256_hex (m : bytes) : string := of_chars (hex_bytes (digest m)).

(** [SHA256_RE.fullmatch(s) is not None]: 64 lower-case hexadecimal digits. *)
Definition is_sha256_hex (s : string) : bool :=
  (str_len s =? 64) && forallb is_hex_lower (chars s).

Example sha256_empty : sha256_hex []
  = "e3b0c44298fc1c149afbf4c8996fb92427ae41e4649b934ca495991b7852b855"%string.
Proof. vm_compute. reflexivity. Qed.

Example sha256_abc : sha256_hex [97; 98; 99]
  = "ba7816bf8f01cfea414140de5dae2223b00361a396177a9cb410ff61f20015ad"%string.
Proof. vm_compute. reflexivity. Qed.

Example sha256_two_blocks :
  sha256_hex (utf8 "abcdbcdecdefdefgefghfghighijhijkijkljklmklmnlmnomnopnopq")
  = "248d6a61d20638b8e5c026930c3e6039a33ce45964ff2167f6ecedd419db06c1"%string.
Proof. vm_compute. reflexivity. Qed.

(** ** Every digest is a well-formed hexadecimal text *)

Lemma length_word_bytes l : length (concat (to_bytes_big 4 <$> l)) = (4 * length l)%nat.
Proof.
  induction l as [|x l IH]; [done|].
  rewrite fmap_cons. cbn [concat]. rewrite length_app, length_to_bytes_big, IH. simpl. lia.
Qed.

Lemma wf_word_bytes l : wf_bytes (concat (to_bytes_big 4 <$> l)).
Proof.
  induction l as [|x l IH]; [constructor|].
  rewrite fmap_cons. cbn [concat]. apply Forall_app; split; [apply wf_to_bytes_big|exact IH].
Qed.

Lemma length_digest m : length (digest m) = 32%nat.
Proof. unfold digest. destruct (sha256_state m). by rewrite length_word_bytes. Qed.

Lemma wf_digest m : wf_bytes (digest m).
Proof. unfold digest. destruct (sha256_state m). apply wf_word_bytes. Qed.

Lemma hex_nibble_hex n : 0 <= n < 16 -> is_hex_lower (hex_nibble n) = true.
Proof.
  intros H. assert (n ∈ zrange 0 16) as Hin by (rewrite elem_of_zrange; lia).
  assert (Forall (fun n => is_hex_lower (hex_nibble n) = true) (zrange 0 16)) as Hall.
  { repeat (constructor; [vm_compute; reflexivity|]). constructor. }
  rewrite Forall_forall in Hall. by apply Hall.
Qed.

Lemma hex_bytes_hex b : wf_bytes b -> forallb is_hex_lower (hex_bytes b) = true.
Proof.
  intros H. apply forallb_elem. intros c Hc. unfold hex_bytes in Hc.
  induction H as [|x b Hx _ IH]; simpl in Hc; [by apply elem_of_nil in Hc|].
  rewrite !elem_of_cons in Hc. destruct Hc as [->|[->|Hc]]; [..|by apply IH];
    apply hex_nibble_hex.
  - split; [apply Z.div_pos; lia|apply Z.div_lt_upper_bound; lia].
  - apply Z.mod_pos_bound; lia.
Qed.

Lemma length_hex_bytes b : length (hex_bytes b) = (2 * length b)%nat.
Proof.
  unfold hex_bytes. induction b as [|x b IH]; [done|].
  rewrite fmap_cons. cbn [concat]. rewrite length_app, IH. simpl. lia.
Qed.

Lemma sha256_hex_length m : str_len (sha256_hex m) = 64.
Proof.
  unfold str_len, sha256_hex. rewrite <- length_chars, chars_of_chars, length_hex_bytes, length_digest.
  done.
Qed.

Lemma sha256_hex_ok m : is_sha256_hex (sha256_hex m) = true.
Proof.
  unfold is_sha256_hex. rewrite sha256_hex_length. unfold sha256_hex.
  rewrite chars_of_chars. simpl. apply hex_bytes_hex, wf_digest.
Qed.

(** A collision of the hash, as an explicit pair of inputs. *)
Definition collision (m n : bytes) : Prop := m <> n /\ sha256_hex m = sha256_hex n.

#[export] Hint Resolve sha256_hex_ok sha256_hex_length : reperio.
