(* ===== verification/Base64.v ===== *)
(** * Base 64 (the functions of the module [base64] that the sources use)

    [urlsafe_b64encode], and decoding as [binascii.a2b_base64] does it: one pass with the position
    in the quad, the bits left over and the count of pads; strict, or skipping what is no digit.
    The theorem is that both ways of decoding read back what was encoded. *)

From Stdlib Require Import ZArith Lia String Ascii.
From stdpp Require Import base list strings.
From S2P Require Import Prelude PyStr.

Local Open Scope string_scope.
Local Open Scope Z_scope.

(** ** Digits *)

Definition digit_char (n : Z) : ascii :=
  if n <? 26 then chr (65 + n) else if n <? 52 then chr (71 + n) else if n <? 62 then chr (n - 4)
  else if n =? 62 then "-"%char else "_"%char.

(** The alphabets "-_" and "+/" are both read, as after [translate]. *)
Definition digit_val (c : ascii) : option Z :=
  let o := ord c in
  if (65 <=? o) && (o <=? 90) then Some (o - 65)
  else if (97 <=? o) && (o <=? 122) then Some (o - 71)
  else if is_digit c then Some (o + 4)
  else if Ascii.eqb c "-"%char || Ascii.eqb c "+"%char then Some 62
  else if Ascii.eqb c "_"%char || Ascii.eqb c "/"%char then Some 63
  else None.

Definition pad_char : ascii := "="%char.

(** ** Encoding *)

Fixpoint encode_chars (l : bytes) : list ascii :=
  match l with
  | a :: b :: c :: r =>
    digit_char (a / 4) :: digit_char (a mod 4 * 16 + b / 16) :: digit_char (b mod 16 * 4 + c / 64) ::
    digit_char (c mod 64) :: encode_chars r
  | [a; b] => [digit_char (a / 4); digit_char (a mod 4 * 16 + b / 16); digit_char (b mod 16 * 4); pad_char]
  | [a] => [digit_char (a / 4); digit_char (a mod 4 * 16); pad_char; pad_char]
  | [] => []
  end.

(** [base64.urlsafe_b64encode(value).decode("ascii")]. *)
Definition urlsafe_b64encode (value : bytes) : string := of_chars (encode_chars value).

(** ** Decoding *)

(** The state of the pass: the digit in the quad, the bits left over, the pads seen in a row,
    whether padding began, and the bytes so far. *)
Record quad := Quad { q_pos : Z; q_left : Z; q_pads : Z; q_padding : bool; q_out : bytes }.

Fixpoint a2b (strict : bool) (q : quad) (l : list ascii) : option bytes :=
  match l with
  | [] => if q_pos q =? 0 then Some (q_out q) else None
  | c :: r =>
    if Ascii.eqb c pad_char then
      if strict && (q_pos q =? 0) then None
      else if 2 <=? q_pos q then
        if 4 <=? q_pos q + q_pads q + 1
        then (if strict && negb (bool_decide (r = [])) then None else Some (q_out q))
        else a2b strict (Quad (q_pos q) (q_left q) (q_pads q + 1) true (q_out q)) r
      else a2b strict (Quad (q_pos q) (q_left q) (q_pads q) true (q_out q)) r
    else match digit_val c with
         | None => if strict then None else a2b strict (Quad (q_pos q) (q_left q) (q_pads q) (q_padding q) (q_out q)) r
         | Some d =>
           if strict && q_padding q then None
           else if q_pos q =? 0 then a2b strict (Quad 1 d 0 (q_padding q) (q_out q)) r
           else if q_pos q =? 1 then a2b strict (Quad 2 (d mod 16) 0 (q_padding q) (q_out q ++ [(q_left q * 4 + d / 16) mod 256])) r
           else if q_pos q =? 2 then a2b strict (Quad 3 (d mod 4) 0 (q_padding q) (q_out q ++ [(q_left q * 16 + d / 4) mod 256])) r
           else a2b strict (Quad 0 0 0 (q_padding q) (q_out q ++ [(q_left q * 64 + d) mod 256])) r
         end
  end.

Definition quad_start : quad := Quad 0 0 0 false [].

(** [s.encode("ascii")]: [None] where it raises. *)
Definition ascii_text (s : string) : option (list ascii) :=
  if forallb (fun c => ord c <? 128) (chars s) then Some (chars s) else None.

(** [base64.urlsafe_b64decode(s.encode("ascii"))]. *)
Definition urlsafe_b64decode (s : string) : option bytes := l ← ascii_text s; a2b false quad_start l.

(** [base64.b64decode(padded, altchars=b"-_", validate=True)] after the padding was completed. *)
Definition b64decode_strict (s : string) : option bytes :=
  l ← ascii_text s;
  a2b true quad_start (l ++ replicate (Z.to_nat ((- zlen l) mod 4)) pad_char)%list.

(** ** Round trip *)

Lemma digit_val_char n : 0 <= n < 64 -> digit_val (digit_char n) = Some n /\ Ascii.eqb (digit_char n) pad_char = false /\ ord (digit_char n) < 128.
Proof.
  intros Hn. assert (forallb (fun n => bool_decide (digit_val (digit_char n) = Some n /\
    Ascii.eqb (digit_char n) pad_char = false /\ ord (digit_char n) < 128)) (zrange 0 64) = true) as H by by vm_compute.
  rewrite forallb_elem in H. specialize (H n). rewrite bool_decide_eq_true in H. apply H, elem_of_zrange. lia.
Qed.

(** One digit, at each position of the quad. *)
Lemma a2b_digit strict pos left out n r :
  0 <= n < 64 ->
  a2b strict (Quad pos left 0 false out) (digit_char n :: r) =
  if pos =? 0 then a2b strict (Quad 1 n 0 false out) r
  else if pos =? 1 then a2b strict (Quad 2 (n mod 16) 0 false (out ++ [(left * 4 + n / 16) mod 256])) r
  else if pos =? 2 then a2b strict (Quad 3 (n mod 4) 0 false (out ++ [(left * 16 + n / 4) mod 256])) r
  else a2b strict (Quad 0 0 0 false (out ++ [(left * 64 + n) mod 256])) r.
Proof.
  intros Hn. destruct (digit_val_char n Hn) as (Hv & Hp & _). cbn [a2b q_pos q_left q_pads q_padding q_out].
  rewrite Hp, Hv, andb_false_r. done.
Qed.

Ltac base64_lia := Z.div_mod_to_equations; lia.

Lemma a2b_encode strict l out :
  wf_bytes l -> a2b strict (Quad 0 0 0 false out) (encode_chars l) = Some (out ++ l)%list.
Proof.
  revert out. induction l as [l IH] using (induction_ltof1 _ length). unfold ltof in IH. intros out Hl.
  destruct l as [|a [|b [|c r]]]; cbn [encode_chars].
  - by rewrite app_nil_r.
  - apply Forall_cons in Hl as [Ha _]. repeat (rewrite a2b_digit by base64_lia; cbn [Z.eqb Pos.eqb]).
    replace ((a / 4 * 4 + a mod 4 * 16 / 16) mod 256) with a by base64_lia.
    cbn [a2b q_pos q_left q_pads q_padding q_out]. change (Ascii.eqb pad_char pad_char) with true. rewrite andb_false_r.
    cbn. by rewrite andb_false_r.
  - apply Forall_cons in Hl as [Ha [Hb _]%Forall_cons]. repeat (rewrite a2b_digit by base64_lia; cbn [Z.eqb Pos.eqb]).
    replace ((a / 4 * 4 + (a mod 4 * 16 + b / 16) / 16) mod 256) with a by base64_lia.
    replace (((a mod 4 * 16 + b / 16) mod 16 * 16 + b mod 16 * 4 / 4) mod 256) with b by base64_lia.
    cbn. rewrite !andb_false_r. by rewrite <- app_assoc.
  - apply Forall_cons in Hl as [Ha [Hb [Hc Hr]%Forall_cons]%Forall_cons]. repeat (rewrite a2b_digit by base64_lia; cbn [Z.eqb Pos.eqb]).
    replace ((a / 4 * 4 + (a mod 4 * 16 + b / 16) / 16) mod 256) with a by base64_lia.
    replace (((a mod 4 * 16 + b / 16) mod 16 * 16 + (b mod 16 * 4 + c / 64) / 4) mod 256) with b by base64_lia.
    replace (((b mod 16 * 4 + c / 64) mod 4 * 64 + c mod 64) mod 256) with c by base64_lia.
    rewrite IH; [by rewrite <- !app_assoc|simpl; lia|exact Hr].
Qed.

Lemma length_encode l : exists k, length (encode_chars l) = (4 * k)%nat.
Proof.
  induction l as [l IH] using (induction_ltof1 _ length). unfold ltof in IH.
  destruct l as [|a [|b [|c r]]]; [by exists 0%nat|by exists 1%nat|by exists 1%nat|].
  destruct (IH r) as [k Hk]; [simpl; lia|]. exists (S k). cbn [encode_chars length]. lia.
Qed.

Lemma encode_ascii l : wf_bytes l -> forallb (fun c => ord c <? 128) (encode_chars l) = true.
Proof.
  assert (Hd : forall n, 0 <= n < 64 -> (ord (digit_char n) <? 128) = true).
  { intros n Hn. apply Z.ltb_lt. by apply digit_val_char. }
  induction l as [l IH] using (induction_ltof1 _ length). unfold ltof in IH. intros Hl.
  destruct l as [|a [|b [|c r]]]; [done|..]; cbn [encode_chars forallb].
  - apply Forall_cons in Hl as [Ha _]. by rewrite !Hd by base64_lia.
  - apply Forall_cons in Hl as [Ha [Hb _]%Forall_cons]. by rewrite !Hd by base64_lia.
  - apply Forall_cons in Hl as [Ha [Hb [Hc Hr]%Forall_cons]%Forall_cons]. rewrite !Hd by base64_lia.
    cbn [andb]. apply IH; [simpl; lia|exact Hr].
Qed.

Lemma ascii_encode l : wf_bytes l -> ascii_text (urlsafe_b64encode l) = Some (encode_chars l).
Proof. intros Hl. unfold ascii_text, urlsafe_b64encode. by rewrite chars_of_chars, encode_ascii. Qed.

Lemma urlsafe_roundtrip l : wf_bytes l -> urlsafe_b64decode (urlsafe_b64encode l) = Some l.
Proof.
  intros Hl. unfold urlsafe_b64decode. rewrite ascii_encode by done. cbn [mbind option_bind].
  by apply (a2b_encode false l []).
Qed.

Lemma strict_roundtrip l : wf_bytes l -> b64decode_strict (urlsafe_b64encode l) = Some l.
Proof.
  intros Hl. unfold b64decode_strict. rewrite ascii_encode by done. cbn [mbind option_bind].
  destruct (length_encode l) as [k Hk].
  replace ((- zlen (encode_chars l)) mod 4) with 0 by (unfold zlen; rewrite Hk; base64_lia).
  cbn [Z.to_nat replicate]. rewrite app_nil_r. by apply (a2b_encode true l []).
Qed.

Example base64_examples :
  urlsafe_b64encode [251; 255; 190; 1] = "-_--AQ==" /\ urlsafe_b64decode "-_--AQ==" = Some [251; 255; 190; 1] /\
  urlsafe_b64decode "- _-!-AQ==xyz" = Some [251; 255; 190; 1] /\ b64decode_strict "-_--AQ==xyz" = None /\
  b64decode_strict "-_--AQ" = Some [251; 255; 190; 1] /\ urlsafe_b64decode "AAA" = None.
Proof. by vm_compute. Qed.
