(* ===== verification/Timestamp.v ===== *)
(** * Catalog timestamps

    Every time the catalog stores is text of the form [%Y-%m-%dT%H:%M:%SZ], read with
    [datetime.strptime] and written with [strftime].  This file models both on the
    proleptic Gregorian calendar of Python's [datetime], [_add_seconds] of
    [shared/job_state.py], and proves the fact every lease and retry comparison of the
    catalog relies on: canonical timestamps compare as text exactly as the instants
    they denote. *)

From Stdlib Require Import ZArith Lia String Ascii.
From stdpp Require Import base list strings gmap.
From S2P Require Import Prelude PyStr.

Local Open Scope Z_scope.

Record datetime := DT { year : Z; month : Z; day : Z; hour : Z; minute : Z; second : Z }.

#[export] Instance datetime_eq_dec : EqDecision datetime.
Proof. solve_decision. Defined.

(** ** The calendar *)

Definition is_leap (y : Z) : bool :=
  (y mod 4 =? 0) && (negb (y mod 100 =? 0) || (y mod 400 =? 0)).

Definition days_in_month (leap : bool) (m : Z) : Z :=
  if m =? 2 then (if leap then 29 else 28)
  else if (m =? 4) || (m =? 6) || (m =? 9) || (m =? 11) then 30 else 31.

(** Days of the year before the first of month [m]. *)
Definition days_before_month (leap : bool) (m : Z) : Z :=
  let l := if leap then 1 else 0 in
  if m <=? 1 then 0 else if m =? 2 then 31 else if m =? 3 then 59 + l
  else if m =? 4 then 90 + l else if m =? 5 then 120 + l else if m =? 6 then 151 + l
  else if m =? 7 then 181 + l else if m =? 8 then 212 + l else if m =? 9 then 243 + l
  else if m =? 10 then 273 + l else if m =? 11 then 304 + l else 334 + l.

(** Days before January 1st of year [y]. *)
Definition days_before_year (y : Z) : Z :=
  (y - 1) * 365 + (y - 1) / 4 - (y - 1) / 100 + (y - 1) / 400.

(** The proleptic Gregorian ordinal of a date: January 1st of year 1 is day 1. *)
Definition ymd2ord (y m d : Z) : Z := days_before_year y + days_before_month (is_leap y) m + d.

(** The month of the zero-based day [n] of a year. *)
Definition month_of_day (leap : bool) (n : Z) : Z :=
  let b m := days_before_month leap m <=? n in
  if b 12 then 12 else if b 11 then 11 else if b 10 then 10 else if b 9 then 9
  else if b 8 then 8 else if b 7 then 7 else if b 6 then 6 else if b 5 then 5
  else if b 4 then 4 else if b 3 then 3 else if b 2 then 2 else 1.

Definition ord2ymd (o : Z) : Z * Z * Z :=
  let n := o - 1 in
  let n400 := n / 146097 in let n := n mod 146097 in
  let n100 := n / 36524 in let n := n mod 36524 in
  let n4 := n / 1461 in let n := n mod 1461 in
  let n1 := n / 365 in let n := n mod 365 in
  let y := n400 * 400 + n100 * 100 + n4 * 4 + n1 + 1 in
  if (n1 =? 4) || (n100 =? 4) then (y - 1, 12, 31)
  else
    let leap := (n1 =? 3) && (negb (n4 =? 24) || (n100 =? 3)) in
    let m := month_of_day leap n in
    (y, m, n - days_before_month leap m + 1).

Definition valid_ymd (y m d : Z) : Prop :=
  1 <= m <= 12 /\ 1 <= d <= days_in_month (is_leap y) m.

Definition valid_datetime (t : datetime) : Prop :=
  1 <= year t <= 9999 /\ valid_ymd (year t) (month t) (day t) /\
  0 <= hour t <= 23 /\ 0 <= minute t <= 59 /\ 0 <= second t <= 59.

Ltac case_conds :=
  repeat match goal with
  | |- context [if ?b then _ else _] =>
      let E := fresh "E" in destruct b eqn:E
  | H : context [if ?b then _ else _] |- _ =>
      let E := fresh "E" in destruct b eqn:E
  end.

Lemma month_bounds (leap : bool) m d :
  1 <= m <= 12 -> 1 <= d <= days_in_month leap m ->
  1 <= days_before_month leap m + d <= (if leap then 366 else 365).
Proof.
  intros Hm Hd. unfold days_in_month, days_before_month in *. destruct leap; case_conds; lia.
Qed.

Lemma month_of_day_spec (leap : bool) n :
  0 <= n < (if leap then 366 else 365) ->
  let m := month_of_day leap n in
  1 <= m <= 12 /\ 1 <= n - days_before_month leap m + 1 <= days_in_month leap m.
Proof.
  intros Hn.
  set (ok n := let m := month_of_day leap n in
    (1 <=? m) && (m <=? 12) && (1 <=? n - days_before_month leap m + 1)
    && (n - days_before_month leap m + 1 <=? days_in_month leap m)).
  assert (forallb ok (zrange 0 (if leap then 366 else 365)) = true) as Hall
    by (destruct leap; vm_compute; reflexivity).
  rewrite forallb_elem in Hall. specialize (Hall n).
  rewrite elem_of_zrange in Hall. specialize (Hall ltac:(destruct leap; lia)).
  unfold ok in Hall. cbv zeta in *. rewrite !andb_true_iff, !Z.leb_le in Hall. lia.
Qed.

(** The remainder of a number that reaches its modulus at most at the end. *)
Lemma mod_upto x m : 0 < m -> 0 <= x <= m -> x mod m = if decide (x = m) then 0 else x.
Proof.
  intros Hm Hx. case_decide as Hk; [subst; apply Z.mod_same; lia|apply Z.mod_small; lia].
Qed.

Lemma leap_decompose a b c e :
  0 <= b <= 3 -> 0 <= c <= 24 -> 0 <= e <= 3 ->
  is_leap (a * 400 + b * 100 + c * 4 + e + 1)
  = ((e =? 3) && (negb (c =? 24) || (b =? 3))).
Proof.
  intros Hb Hc He. unfold is_leap. set (k := b * 100 + c * 4 + e + 1).
  replace (a * 400 + b * 100 + c * 4 + e + 1) with (k + (a * 100) * 4) at 1 by lia.
  replace (a * 400 + b * 100 + c * 4 + e + 1) with (k + (a * 4) * 100) at 1 by lia.
  replace (a * 400 + b * 100 + c * 4 + e + 1) with (k + a * 400) by lia.
  rewrite !Z_mod_plus_full. clear a.
  assert (k mod 4 = (e + 1) mod 4) as ->.
  { unfold k. replace (b * 100 + c * 4 + e + 1) with (e + 1 + (b * 25 + c) * 4) by lia.
    apply Z_mod_plus_full. }
  assert (k mod 100 = (c * 4 + e + 1) mod 100) as ->.
  { unfold k. replace (b * 100 + c * 4 + e + 1) with (c * 4 + e + 1 + b * 100) by lia.
    apply Z_mod_plus_full. }
  apply eq_true_iff_eq.
  rewrite !andb_true_iff, !orb_true_iff, !negb_true_iff, !Z.eqb_eq, !Z.eqb_neq.
  rewrite (mod_upto k), (mod_upto (c * 4 + e + 1)), (mod_upto (e + 1)) by (unfold k; lia).
  unfold k. repeat case_decide; lia.
Qed.

Lemma days_before_year_decompose a b c e :
  0 <= b <= 3 -> 0 <= c <= 24 -> 0 <= e <= 3 ->
  days_before_year (a * 400 + b * 100 + c * 4 + e + 1)
  = a * 146097 + b * 36524 + c * 1461 + e * 365.
Proof.
  intros Hb Hc He. unfold days_before_year.
  replace (a * 400 + b * 100 + c * 4 + e + 1 - 1) with (a * 400 + b * 100 + c * 4 + e) by lia.
  rewrite <- (Z.div_unique_pos _ 4 (a * 100 + b * 25 + c) e) by lia.
  rewrite <- (Z.div_unique_pos _ 100 (a * 4 + b) (c * 4 + e)) by lia.
  rewrite <- (Z.div_unique_pos _ 400 a (b * 100 + c * 4 + e)) by lia. lia.
Qed.

(** [ord2ymd] returns the date whose ordinal it was given. *)
Lemma ord2ymd_spec o y m d :
  ord2ymd o = (y, m, d) -> valid_ymd y m d /\ ymd2ord y m d = o.
Proof.
  unfold ord2ymd.
  set (n := o - 1). set (n400 := n / 146097). set (r400 := n mod 146097).
  set (n100 := r400 / 36524). set (r100 := r400 mod 36524).
  set (n4 := r100 / 1461). set (r4 := r100 mod 1461).
  set (n1 := r4 / 365). set (r1 := r4 mod 365).
  assert (0 <= r400 < 146097) by (apply Z.mod_pos_bound; lia).
  assert (0 <= r100 < 36524) by (apply Z.mod_pos_bound; lia).
  assert (0 <= r4 < 1461) by (apply Z.mod_pos_bound; lia).
  assert (0 <= r1 < 365) by (apply Z.mod_pos_bound; lia).
  assert (o - 1 = n400 * 146097 + r400) by (pose proof (Z.div_mod n 146097); unfold n400, r400; fold n; lia).
  assert (r400 = n100 * 36524 + r100) by (pose proof (Z.div_mod r400 36524); unfold n100, r100; lia).
  assert (r100 = n4 * 1461 + r4) by (pose proof (Z.div_mod r100 1461); unfold n4, r4; lia).
  assert (r4 = n1 * 365 + r1) by (pose proof (Z.div_mod r4 365); unfold n1, r1; lia).
  assert (0 <= n100 <= 4 /\ 0 <= n4 <= 24 /\ 0 <= n1 <= 4) as (Hn100 & Hn4 & Hn1) by lia.
  clearbody n400 r400 n100 r100 n4 r4 n1 r1. clear n.
  destruct ((n1 =? 4) || (n100 =? 4)) eqn:E.
  - intros [= <- <- <-]. apply orb_true_iff in E. rewrite !Z.eqb_eq in E. split.
    + split; [lia|]. unfold days_in_month; simpl. lia.
    + unfold ymd2ord.
      assert (exists a b c, 0 <= b <= 3 /\ 0 <= c <= 24 /\
        n400 * 400 + n100 * 100 + n4 * 4 + n1 + 1 - 1 = a * 400 + b * 100 + c * 4 + 3 + 1 /\
        o = a * 146097 + b * 36524 + c * 1461 + 3 * 365 + 366 /\
        negb (c =? 24) || (b =? 3) = true) as (a & b & c & Hb & Hc & -> & -> & Hl).
      { destruct (decide (n100 = 4)).
        - exists n400, 3, 24. repeat split; try lia.
        - exists n400, n100, n4. repeat split; try lia. }
      rewrite days_before_year_decompose, leap_decompose, Hl by lia. change (days_before_month _ 12) with 335. lia.
  - intros [= <- <- <-]. apply orb_false_iff in E. rewrite !Z.eqb_neq in E.
    unfold ymd2ord, valid_ymd. rewrite days_before_year_decompose, leap_decompose by lia.
    set (leap := (n1 =? 3) && (negb (n4 =? 24) || (n100 =? 3))).
    pose proof (month_of_day_spec leap r1 ltac:(destruct leap; lia)) as Hs. simpl in Hs.
    split; [exact Hs|]. lia.
Qed.

Lemma div_pred y m : 0 < m -> y / m = (y - 1) / m + (if y mod m =? 0 then 1 else 0).
Proof.
  intros Hm. pose proof (Z.div_mod y m ltac:(lia)). pose proof (Z.mod_pos_bound y m Hm).
  destruct (Z.eqb_spec (y mod m) 0).
  - rewrite <- (Z.div_unique_pos (y - 1) m (y / m - 1) (m - 1)) by lia. lia.
  - rewrite <- (Z.div_unique_pos (y - 1) m (y / m) (y mod m - 1)) by lia. lia.
Qed.

Lemma mod_0_factor y a b : 0 < a -> 0 < b -> y mod (a * b) = 0 -> y mod a = 0.
Proof.
  intros Ha Hb H. rewrite Z.rem_mul_r in H by lia.
  pose proof (Z.mod_pos_bound y a Ha). pose proof (Z.mod_pos_bound (y / a) b Hb). nia.
Qed.

Lemma days_before_year_succ y :
  days_before_year (y + 1) = days_before_year y + (if is_leap y then 366 else 365).
Proof.
  unfold days_before_year, is_leap. rewrite Z.add_simpl_r.
  rewrite (div_pred y 4), (div_pred y 100), (div_pred y 400) by lia.
  pose proof (mod_0_factor y 100 4 ltac:(lia) ltac:(lia)).
  pose proof (mod_0_factor y 4 25 ltac:(lia) ltac:(lia)).
  change (100 * 4) with 400 in *. change (4 * 25) with 100 in *.
  destruct (Z.eqb_spec (y mod 4) 0), (Z.eqb_spec (y mod 100) 0), (Z.eqb_spec (y mod 400) 0);
    simpl; lia.
Qed.

Lemma days_before_year_le y (k : nat) : days_before_year y <= days_before_year (y + Z.of_nat k).
Proof.
  induction k as [|k IH]; [by rewrite Z.add_0_r|].
  replace (y + Z.of_nat (S k)) with (y + Z.of_nat k + 1) by lia.
  rewrite days_before_year_succ. destruct (is_leap _); lia.
Qed.

Lemma days_before_year_mono y y' :
  y < y' -> days_before_year y + (if is_leap y then 366 else 365) <= days_before_year y'.
Proof.
  intros H. rewrite <- days_before_year_succ.
  replace y' with (y + 1 + Z.of_nat (Z.to_nat (y' - y - 1))) by lia. apply days_before_year_le.
Qed.

(** The ordinal is strictly increasing in (year, month, day). *)
Lemma ymd2ord_lt y m d y' m' d' :
  valid_ymd y m d -> valid_ymd y' m' d' ->
  (y < y' \/ (y = y' /\ (m < m' \/ (m = m' /\ d < d')))) ->
  ymd2ord y m d < ymd2ord y' m' d'.
Proof.
  intros [Hm Hd] [Hm' Hd'] Hlt. unfold ymd2ord.
  pose proof (month_bounds _ _ _ Hm Hd). pose proof (month_bounds _ _ _ Hm' Hd').
  destruct Hlt as [Hy|[<- Hlt]].
  - pose proof (days_before_year_mono y y' Hy). lia.
  - destruct Hlt as [Hlt|[<- Hlt]]; [|lia].
    enough (days_before_month (is_leap y) m + days_in_month (is_leap y) m
            <= days_before_month (is_leap y) m') by lia.
    clear -Hm Hm' Hlt. unfold days_before_month, days_in_month.
    destruct (is_leap y); case_conds; lia.
Qed.

(** Two valid dates with one ordinal are the same date. *)
Lemma ymd2ord_inj y m d y' m' d' :
  valid_ymd y m d -> valid_ymd y' m' d' -> ymd2ord y m d = ymd2ord y' m' d' ->
  y = y' /\ m = m' /\ d = d'.
Proof.
  intros H H' Heq.
  destruct (decide (y = y' /\ m = m' /\ d = d')) as [|Hne]; [done|]. exfalso.
  assert ((y < y' \/ (y = y' /\ (m < m' \/ (m = m' /\ d < d')))) \/
          (y' < y \/ (y' = y /\ (m' < m \/ (m' = m /\ d' < d))))) as [Hl|Hl] by lia.
  - pose proof (ymd2ord_lt _ _ _ _ _ _ H H' Hl). lia.
  - pose proof (ymd2ord_lt _ _ _ _ _ _ H' H Hl). lia.
Qed.

(** ** Seconds *)

Definition ordinal (t : datetime) : Z := ymd2ord (year t) (month t) (day t).

(** Seconds since the start of day 0. *)
Definition epoch (t : datetime) : Z :=
  ordinal t * 86400 + hour t * 3600 + minute t * 60 + second t.

Definition of_epoch (s : Z) : datetime :=
  let '(y, m, d) := ord2ymd (s / 86400) in
  let r := s mod 86400 in
  DT y m d (r / 3600) (r mod 3600 / 60) (r mod 60).

Lemma epoch_of_epoch s : epoch (of_epoch s) = s.
Proof.
  unfold epoch, of_epoch, ordinal. destruct (ord2ymd (s / 86400)) as [[y m] d] eqn:E.
  apply ord2ymd_spec in E as [_ E]. cbn [year month day hour minute second].
  rewrite E. pose proof (Z.div_mod s 86400 ltac:(lia)).
  pose proof (Z.div_mod (s mod 86400) 3600 ltac:(lia)).
  pose proof (Z.div_mod (s mod 86400 mod 3600) 60 ltac:(lia)).
  replace (s mod 86400 mod 60) with (s mod 86400 mod 3600 mod 60); [lia|].
  symmetry. change 3600 with (60 * 60). rewrite (Z.rem_mul_r (s mod 86400) 60 60) by lia.
  rewrite (Z.mul_comm 60), Z_mod_plus_full, Z.mod_mod by lia. reflexivity.
Qed.

Definition clock_ok (t : datetime) : Prop :=
  0 <= hour t <= 23 /\ 0 <= minute t <= 59 /\ 0 <= second t <= 59.

Lemma of_epoch_valid s :
  let t := of_epoch s in valid_ymd (year t) (month t) (day t) /\ clock_ok t.
Proof.
  unfold of_epoch. destruct (ord2ymd (s / 86400)) as [[y m] d] eqn:E.
  apply ord2ymd_spec in E as [E _]. cbv zeta. unfold clock_ok.
  cbn [year month day hour minute second].
  pose proof (Z.mod_pos_bound s 86400 ltac:(lia)).
  pose proof (Z.mod_pos_bound (s mod 86400) 3600 ltac:(lia)).
  pose proof (Z.mod_pos_bound (s mod 86400) 60 ltac:(lia)).
  repeat split; try apply E; try lia;
    first [apply Z.div_pos; lia | apply Z.lt_succ_r, Z.div_lt_upper_bound; lia].
Qed.

(** The chronological order is the lexicographic order of the fields. *)
Definition field_lt (t u : datetime) : Prop :=
  year t < year u \/ (year t = year u /\ (month t < month u \/ (month t = month u /\
  (day t < day u \/ (day t = day u /\ (hour t < hour u \/ (hour t = hour u /\
  (minute t < minute u \/ (minute t = minute u /\ second t < second u))))))))).

Lemma epoch_lt t u :
  valid_datetime t -> valid_datetime u -> field_lt t u -> epoch t < epoch u.
Proof.
  intros (_ & Ht & Ht1 & Ht2 & Ht3) (_ & Hu & Hu1 & Hu2 & Hu3) Hlt. unfold epoch, ordinal.
  assert (((year t < year u \/ (year t = year u /\ (month t < month u \/
    (month t = month u /\ day t < day u)))) \/
    (year t = year u /\ month t = month u /\ day t = day u /\
     (hour t < hour u \/ (hour t = hour u /\ (minute t < minute u \/
     (minute t = minute u /\ second t < second u))))))) as [Hd|(-> & -> & -> & Hc)]
    by (unfold field_lt in Hlt; lia).
  - pose proof (ymd2ord_lt _ _ _ _ _ _ Ht Hu Hd). lia.
  - lia.
Qed.

Lemma field_lt_total t u : t = u \/ field_lt t u \/ field_lt u t.
Proof.
  destruct t as [a b c d e f], u as [a' b' c' d' e' f'].
  destruct (decide (a = a' /\ b = b' /\ c = c' /\ d = d' /\ e = e' /\ f = f'))
    as [(-> & -> & -> & -> & -> & ->)|Hne]; [by left|right].
  unfold field_lt. cbn [year month day hour minute second]. lia.
Qed.

Lemma epoch_inj t u : valid_datetime t -> valid_datetime u -> epoch t = epoch u -> t = u.
Proof.
  intros Ht Hu Heq. destruct (field_lt_total t u) as [->|[H|H]]; [done|..].
  - pose proof (epoch_lt t u Ht Hu H). lia.
  - pose proof (epoch_lt u t Hu Ht H). lia.
Qed.

(** ** [strftime("%Y-%m-%dT%H:%M:%SZ")] *)

Definition digit_char (d : Z) : ascii := chr (48 + d).
Definition pad2 (n : Z) : list ascii := [digit_char (n / 10); digit_char (n mod 10)].

(** The C library writes [%Y] without padding, so years below 1000 come out shorter. *)
Definition strftime_chars (t : datetime) : list ascii :=
  Z_chars (year t) ++ "-"%char :: pad2 (month t) ++ "-"%char :: pad2 (day t)
  ++ "T"%char :: pad2 (hour t) ++ ":"%char :: pad2 (minute t) ++ ":"%char :: pad2 (second t)
  ++ ["Z"%char].
Definition strftime (t : datetime) : string := of_chars (strftime_chars t).

(** ** [datetime.strptime] with the same format

    The format compiles to a case-insensitive regular expression in which a two-digit
    field also matches one digit, and [%d] a blank and a digit; the list of matches is
    in the order the alternatives are tried. *)

Definition two_digits (ok : Z -> bool) (l : list ascii) : list (Z * list ascii) :=
  match l with
  | a :: b :: r =>
    if is_digit a && is_digit b && ok ((ord a - 48) * 10 + (ord b - 48))
    then [((ord a - 48) * 10 + (ord b - 48), r)] else []
  | _ => []
  end.

Definition one_digit (ok : Z -> bool) (l : list ascii) : list (Z * list ascii) :=
  match l with
  | a :: r => if is_digit a && ok (ord a - 48) then [(ord a - 48, r)] else []
  | _ => []
  end.

Definition blank_digit (l : list ascii) : list (Z * list ascii) :=
  match l with
  | b :: r => if Ascii.eqb b " "%char then one_digit (fun v => 1 <=? v) r else []
  | [] => []
  end.

Definition literal (c : ascii) (l : list ascii) : list (list ascii) :=
  match l with
  | d :: r => if Ascii.eqb (lower_char c) (lower_char d) then [r] else []
  | [] => []
  end.

Definition field_year (l : list ascii) : list (Z * list ascii) :=
  '(c, l) ← two_digits (fun _ => true) l; '(y, l) ← two_digits (fun _ => true) l;
  [(c * 100 + y, l)].
Definition between (a b v : Z) : bool := (a <=? v) && (v <=? b).
Definition field_month l := two_digits (between 1 12) l ++ one_digit (between 1 9) l.
Definition field_day l := two_digits (between 1 31) l ++ one_digit (between 1 9) l ++ blank_digit l.
Definition field_hour l := two_digits (between 0 23) l ++ one_digit (between 0 9) l.
Definition field_minute l := two_digits (between 0 59) l ++ one_digit (between 0 9) l.
Definition field_second l := two_digits (between 0 61) l ++ one_digit (between 0 9) l.

(** A field and the literal after it. *)
Definition then_literal (f : list ascii -> list (Z * list ascii)) (c : ascii) (l : list ascii)
    : list (Z * list ascii) :=
  '(v, l) ← f l; l ← literal c l; [(v, l)].

Definition strptime_matches (l : list ascii) : list (datetime * list ascii) :=
  '(y, l) ← then_literal field_year "-"%char l;
  '(mo, l) ← then_literal field_month "-"%char l;
  '(d, l) ← then_literal field_day "T"%char l;
  '(h, l) ← then_literal field_hour ":"%char l;
  '(mi, l) ← then_literal field_minute ":"%char l;
  '(s, l) ← then_literal field_second "Z"%char l;
  [(DT y mo d h mi s, l)].

(** The range checks of the [datetime] constructor. *)
Definition datetime_ok (t : datetime) : bool :=
  between 1 9999 (year t) && between 1 12 (month t)
  && between 1 (days_in_month (is_leap (year t)) (month t)) (day t)
  && between 0 23 (hour t) && between 0 59 (minute t) && between 0 59 (second t).

(** [None] where [strptime] raises [ValueError]. *)
Definition strptime (s : string) : option datetime :=
  match strptime_matches (chars s) with
  | (t, []) :: _ => if datetime_ok t then Some t else None
  | _ => None
  end.

Lemma datetime_ok_valid t : datetime_ok t = true <-> valid_datetime t.
Proof.
  unfold datetime_ok, valid_datetime, valid_ymd, between.
  rewrite !andb_true_iff, !Z.leb_le. lia.
Qed.

Lemma strptime_valid s t : strptime s = Some t -> valid_datetime t.
Proof.
  unfold strptime. intros H. repeat case_match; simplify_eq. by apply datetime_ok_valid.
Qed.

Example strptime_unpadded : strptime "2024-2-29t1:02:3z" = Some (DT 2024 2 29 1 2 3).
Proof. vm_compute. reflexivity. Qed.
Example strptime_leap : strptime "2023-02-29T00:00:00Z" = None.
Proof. vm_compute. reflexivity. Qed.
Example strptime_tail : strptime "2024-02-29T00:00:00Z " = None.
Proof. vm_compute. reflexivity. Qed.

(** ** Round trip *)

Lemma digit_char_facts d :
  0 <= d <= 9 -> ord (digit_char d) = 48 + d /\ is_digit (digit_char d) = true.
Proof.
  intros H. unfold digit_char, is_digit. rewrite ord_chr by lia.
  split; [done|]. rewrite andb_true_iff, !Z.leb_le. lia.
Qed.

Lemma pad2_digits n : 0 <= n < 100 -> 0 <= n / 10 <= 9 /\ 0 <= n mod 10 <= 9.
Proof. intros H. pose proof (Z.div_mod n 10). pose proof (Z.mod_pos_bound n 10). lia. Qed.

Lemma two_digits_pad2 ok n r :
  0 <= n < 100 -> two_digits ok (pad2 n ++ r) = if ok n then [(n, r)] else [].
Proof.
  intros H. destruct (pad2_digits n H) as [Ha Hb]. simpl.
  destruct (digit_char_facts _ Ha) as [-> ->], (digit_char_facts _ Hb) as [-> ->]. simpl.
  replace ((48 + n / 10 - 48) * 10 + (48 + n mod 10 - 48)) with n; [done|].
  pose proof (Z.div_mod n 10). lia.
Qed.

(** A separator of the format. *)
Definition is_sep (c : ascii) : Prop := c ∈ ["-"; "T"; ":"; "Z"]%char.

Lemma literal_sep c r : is_sep c -> literal c (c :: r) = [r].
Proof. intros _. simpl. by rewrite Ascii.eqb_refl. Qed.

Lemma literal_digit c d r : is_sep c -> 0 <= d <= 9 -> literal c (digit_char d :: r) = [].
Proof.
  unfold is_sep. rewrite !elem_of_cons, elem_of_nil. intros Hc Hd.
  assert (d ∈ zrange 0 10) as Hin by (rewrite elem_of_zrange; lia).
  simpl in Hin. rewrite !elem_of_cons, elem_of_nil in Hin.
  destruct Hc as [->|[->|[->|[->|[]]]]];
    destruct Hin as [->|[->|[->|[->|[->|[->|[->|[->|[->|[->|[]]]]]]]]]]]; reflexivity.
Qed.

Lemma one_digit_cons ok a r :
  one_digit ok (a :: r) = if is_digit a && ok (ord a - 48) then [(ord a - 48, r)] else [].
Proof. reflexivity. Qed.

Lemma one_digit_literal ok c n r :
  is_sep c -> 0 <= n < 100 ->
  ('(v, l) ← one_digit ok (pad2 n ++ r); l ← literal c l; [(v, l)]) = @nil (Z * list ascii).
Proof.
  intros Hc Hn. destruct (pad2_digits n Hn) as [Ha Hb]. unfold pad2. cbn [app].
  rewrite one_digit_cons. destruct (_ && _); [|done]. rewrite bind_singleton.
  by rewrite literal_digit.
Qed.

Lemma blank_digit_pad2 n r : 0 <= n < 100 -> blank_digit (pad2 n ++ r) = [].
Proof.
  intros Hn. destruct (pad2_digits n Hn) as [Ha _]. simpl.
  destruct (Ascii.eqb_spec (digit_char (n / 10)) " "%char) as [E|]; [|done].
  destruct (digit_char_facts _ Ha) as [Ho _]. rewrite E in Ho.
  change (ord " "%char) with 32 in Ho. lia.
Qed.

Lemma then_literal_pad2 f ok ok1 c n r :
  (f = (fun l => two_digits ok l ++ one_digit ok1 l) \/
   f = (fun l => two_digits ok l ++ one_digit ok1 l ++ blank_digit l)) ->
  is_sep c -> 0 <= n < 100 -> ok n = true ->
  then_literal f c (pad2 n ++ c :: r) = [(n, r)].
Proof.
  intros Hf Hc Hn Hok. unfold then_literal.
  assert (f (pad2 n ++ c :: r) = (n, c :: r) :: one_digit ok1 (pad2 n ++ c :: r)) as ->.
  { destruct Hf as [Hf|Hf]; rewrite Hf, two_digits_pad2, Hok by done; [done|].
    by rewrite blank_digit_pad2, app_nil_r. }
  rewrite bind_cons, one_digit_literal, app_nil_r by done.
  change ((l ← literal c (c :: r); [(n, l)]) = [(n, r)]). by rewrite literal_sep.
Qed.

Definition four (y : Z) : list ascii := pad2 (y / 100) ++ pad2 (y mod 100).

(** From the year 1000 on, [%Y] has four digits. *)
Lemma Z_chars_year y : 1000 <= y <= 9999 -> Z_chars y = four y.
Proof.
  intros Hy.
  assert (forallb (fun y => String.eqb (of_chars (Z_chars y)) (of_chars (four y)))
            (zrange_to 1000 10000) = true) as Hall by (vm_compute; reflexivity).
  rewrite forallb_elem in Hall. specialize (Hall y ltac:(rewrite elem_of_zrange_to; lia)).
  apply String.eqb_eq in Hall. apply (f_equal chars) in Hall. by rewrite !chars_of_chars in Hall.
Qed.

Lemma year_halves y : 1000 <= y <= 9999 ->
  0 <= y / 100 < 100 /\ 0 <= y mod 100 < 100 /\ y / 100 * 100 + y mod 100 = y.
Proof. intros H. pose proof (Z.div_mod y 100). pose proof (Z.mod_pos_bound y 100). lia. Qed.

Lemma field_year_four y r : 1000 <= y <= 9999 -> field_year (four y ++ r) = [(y, r)].
Proof.
  intros H. destruct (year_halves y H) as (Ha & Hb & Hab).
  unfold field_year, four. rewrite <- app_assoc, two_digits_pad2, bind_singleton by done.
  rewrite two_digits_pad2, bind_singleton by done. by rewrite Hab.
Qed.

Lemma then_literal_year y r :
  1000 <= y <= 9999 -> then_literal field_year "-"%char (four y ++ "-"%char :: r) = [(y, r)].
Proof.
  intros H. unfold then_literal. rewrite field_year_four, bind_singleton by done.
  change ((l ← literal "-"%char ("-"%char :: r); [(y, l)]) = [(y, r)]).
  rewrite literal_sep; [done|]. unfold is_sep. elem_list.
Qed.

(** A canonical timestamp is one the catalog writes: a valid instant from year 1000 on. *)
Definition canonical_instant (t : datetime) : Prop := valid_datetime t /\ 1000 <= year t.

Lemma strptime_strftime t : canonical_instant t -> strptime (strftime t) = Some t.
Proof.
  intros [Hv Hy]. pose proof Hv as (Hy' & (Hm & Hd) & Hh & Hmi & Hs).
  assert (1 <= day t <= 31) as Hd'.
  { unfold days_in_month in Hd. case_conds; lia. }
  unfold strptime, strftime, strftime_chars. rewrite chars_of_chars, Z_chars_year by lia.
  assert (strptime_matches (four (year t) ++ "-"%char :: pad2 (month t) ++ "-"%char :: pad2 (day t)
    ++ "T"%char :: pad2 (hour t) ++ ":"%char :: pad2 (minute t) ++ ":"%char :: pad2 (second t)
    ++ ["Z"%char]) = [(t, [])]) as ->.
  { unfold strptime_matches. rewrite then_literal_year, bind_singleton by lia.
    unfold field_month, field_day, field_hour, field_minute, field_second.
    repeat (erewrite then_literal_pad2;
      [rewrite bind_singleton|first [left; reflexivity|right; reflexivity]|unfold is_sep; elem_list|lia
       |unfold between; lia]).
    by destruct t. }
  by rewrite (proj2 (datetime_ok_valid t) Hv).
Qed.

(** ** Text order is chronological order *)

Lemma compare_pad2 a b :
  0 <= a < 100 -> 0 <= b < 100 ->
  String.compare (of_chars (pad2 a)) (of_chars (pad2 b)) = (a ?= b).
Proof.
  intros Ha Hb.
  assert (forallb (fun a => forallb (fun b =>
     bool_decide (String.compare (of_chars (pad2 a)) (of_chars (pad2 b)) = (a ?= b)))
     (zrange 0 100)) (zrange 0 100) = true) as Hall by (vm_compute; reflexivity).
  rewrite forallb_elem in Hall. specialize (Hall a ltac:(rewrite elem_of_zrange; lia)).
  rewrite forallb_elem in Hall. specialize (Hall b ltac:(rewrite elem_of_zrange; lia)).
  by apply bool_decide_eq_true in Hall.
Qed.

(** Comparing texts that start with two-digit fields. *)
Lemma compare_pad2_app a b s t :
  0 <= a < 100 -> 0 <= b < 100 ->
  String.compare (of_chars (pad2 a ++ s)) (of_chars (pad2 b ++ t))
  = match a ?= b with Eq => String.compare (of_chars s) (of_chars t) | r => r end.
Proof.
  intros Ha Hb. rewrite !of_chars_app, compare_app_length by done. by rewrite compare_pad2.
Qed.

Lemma compare_same_char c s t :
  String.compare (of_chars (c :: s)) (of_chars (c :: t)) = String.compare (of_chars s) (of_chars t).
Proof. simpl of_chars. by rewrite compare_cons, Z.compare_refl. Qed.

Lemma compare_four y y' s t :
  1000 <= y <= 9999 -> 1000 <= y' <= 9999 ->
  String.compare (of_chars (four y ++ s)) (of_chars (four y' ++ t))
  = match y ?= y' with Eq => String.compare (of_chars s) (of_chars t) | r => r end.
Proof.
  intros Hy Hy'. destruct (year_halves y Hy) as (Ha & Hb & Hab).
  destruct (year_halves y' Hy') as (Ha' & Hb' & Hab').
  unfold four. rewrite <- !app_assoc, !compare_pad2_app by done.
  destruct (Z.compare_spec (y / 100) (y' / 100)), (Z.compare_spec (y mod 100) (y' mod 100)),
    (Z.compare_spec y y'); try done; exfalso; lia.
Qed.

Lemma field_lt_compare t u :
  canonical_instant t -> canonical_instant u -> field_lt t u ->
  String.compare (strftime t) (strftime u) = Lt.
Proof.
  intros [Ht Hyt] [Hu Hyu] Hlt. unfold strftime, strftime_chars.
  pose proof Ht as (Hy & (Hm & Hd) & Hh & Hmi & Hs).
  pose proof Hu as (Hy' & (Hm' & Hd') & Hh' & Hmi' & Hs').
  assert (1 <= day t <= 31 /\ 1 <= day u <= 31) as [Hd1 Hd2].
  { unfold days_in_month in Hd, Hd'. case_conds; lia. }
  rewrite !Z_chars_year, compare_four, compare_same_char by lia.
  rewrite compare_pad2_app, compare_same_char by lia.
  rewrite compare_pad2_app, compare_same_char by lia.
  rewrite compare_pad2_app, compare_same_char by lia.
  rewrite compare_pad2_app, compare_same_char by lia.
  rewrite compare_pad2_app by lia. unfold field_lt in Hlt.
  repeat match goal with |- context [?a ?= ?b] => destruct (Z.compare_spec a b) end;
    try done; exfalso; lia.
Qed.

(** Canonical timestamps compare as text as their instants compare. *)
Lemma str_lt_epoch t u :
  canonical_instant t -> canonical_instant u ->
  str_lt (strftime t) (strftime u) = (epoch t <? epoch u).
Proof.
  intros Ht Hu. unfold str_lt, String.ltb.
  destruct (field_lt_total t u) as [->|[H|H]].
  - by rewrite compare_refl, Z.ltb_irrefl.
  - rewrite field_lt_compare by done. symmetry. apply Z.ltb_lt, epoch_lt; apply Ht || apply Hu || done.
  - rewrite String.compare_antisym, field_lt_compare by done. symmetry.
    apply Z.ltb_ge. pose proof (epoch_lt u t (proj1 Hu) (proj1 Ht) H). simpl. lia.
Qed.

Lemma str_le_epoch t u :
  canonical_instant t -> canonical_instant u ->
  str_le (strftime t) (strftime u) = (epoch t <=? epoch u).
Proof.
  intros Ht Hu. rewrite <- (negb_involutive (str_le _ _)), <- str_lt_le, str_lt_epoch by done.
  by rewrite Z.leb_antisym.
Qed.

Lemma strftime_inj t u :
  canonical_instant t -> canonical_instant u -> strftime t = strftime u -> t = u.
Proof.
  intros Ht Hu H. apply strptime_strftime in Ht, Hu. congruence.
Qed.

(** ** [_add_seconds] *)

Inductive time_error := TsValueError | TsOverflowError.
#[export] Instance time_error_eq_dec : EqDecision time_error.
Proof. solve_decision. Defined.

(** The ordinals of January 1st of year 1 and December 31st of year 9999. *)
Definition max_ordinal : Z := 3652059.

Definition add_seconds (timestamp : string) (seconds : Z) : result time_error string :=
  match strptime timestamp with
  | None => Err TsValueError
  | Some t =>
    let e := epoch t + seconds in
    if (1 <=? e / 86400) && (e / 86400 <=? max_ordinal) then Ok (strftime (of_epoch e))
    else Err TsOverflowError
  end.

Example add_seconds_year : add_seconds "2023-12-31T23:59:50Z" 20 = Ok "2024-01-01T00:00:10Z"%string.
Proof. vm_compute. reflexivity. Qed.
Example add_seconds_overflow : add_seconds "9999-12-31T23:59:50Z" 20 = Err TsOverflowError.
Proof. vm_compute. reflexivity. Qed.

Lemma ymd2ord_year_bounds y m d :
  valid_ymd y m d ->
  days_before_year y < ymd2ord y m d <= days_before_year (y + 1).
Proof.
  intros [Hm Hd]. rewrite days_before_year_succ. unfold ymd2ord.
  pose proof (month_bounds _ _ _ Hm Hd). lia.
Qed.

(** A year at most [y] ends before any ordinal of a later year. *)
Lemma of_epoch_year_ge e y0 :
  days_before_year y0 < e / 86400 -> y0 <= year (of_epoch e).
Proof.
  intros H. unfold of_epoch. destruct (ord2ymd (e / 86400)) as [[y m] d] eqn:E. simpl.
  apply ord2ymd_spec in E as [Hv E]. pose proof (ymd2ord_year_bounds _ _ _ Hv).
  destruct (decide (y0 <= y)) as [|Hlt]; [done|]. exfalso.
  pose proof (days_before_year_le (y + 1) (Z.to_nat (y0 - (y + 1)))) as Hmono.
  replace (y + 1 + Z.of_nat _) with y0 in Hmono by lia. lia.
Qed.

Lemma of_epoch_year_le e y0 :
  e / 86400 <= days_before_year (y0 + 1) -> year (of_epoch e) <= y0.
Proof.
  intros H. unfold of_epoch. destruct (ord2ymd (e / 86400)) as [[y m] d] eqn:E. simpl.
  apply ord2ymd_spec in E as [Hv E]. pose proof (ymd2ord_year_bounds _ _ _ Hv).
  destruct (decide (y <= y0)) as [|Hlt]; [done|]. exfalso.
  pose proof (days_before_year_le (y0 + 1) (Z.to_nat (y - (y0 + 1)))) as Hmono.
  replace (y0 + 1 + Z.of_nat _) with y in Hmono by lia. lia.
Qed.

(** What [add_seconds] returns denotes the instant moved by that many seconds. *)
Lemma add_seconds_spec ts n r t :
  strptime ts = Some t -> 1000 <= year t -> 0 <= n -> add_seconds ts n = Ok r ->
  exists u, canonical_instant u /\ r = strftime u /\ epoch u = epoch t + n.
Proof.
  intros Ht Hy Hn H. unfold add_seconds in H. rewrite Ht in H.
  pose proof (strptime_valid _ _ Ht) as Hv.
  destruct (_ && _) eqn:Hb; [|done]. injection H as <-.
  rewrite andb_true_iff, !Z.leb_le in Hb. unfold max_ordinal in Hb.
  exists (of_epoch (epoch t + n)). pose proof (of_epoch_valid (epoch t + n)) as [Hw Hc].
  rewrite epoch_of_epoch. split; [|done].
  assert (1000 <= year (of_epoch (epoch t + n))) as Hy2.
  { apply of_epoch_year_ge.
    destruct Hv as (Hyy & Hymd & Hcl). pose proof (ymd2ord_year_bounds _ _ _ Hymd) as Hob.
    pose proof (days_before_year_le 1000 (Z.to_nat (year t - 1000))) as Hmono.
    replace (1000 + Z.of_nat _) with (year t) in Hmono by lia.
    apply (Z.lt_le_trans _ (ordinal t)); [unfold ordinal; lia|].
    apply Z.div_le_lower_bound; [lia|]. unfold epoch. lia. }
  split; [|done]. split; [|done]. split; [lia|].
  apply of_epoch_year_le. change (days_before_year (9999 + 1)) with 3652059. lia.
Qed.

(** Adding seconds to a canonical timestamp only fails past the year 9999. *)
Lemma add_seconds_total ts n t :
  strptime ts = Some t -> 0 <= n -> epoch t + n < 86400 * 3652060 ->
  exists r, add_seconds ts n = Ok r.
Proof.
  intros Ht Hn Hlt. unfold add_seconds. rewrite Ht.
  pose proof (strptime_valid _ _ Ht) as (Hy & Hymd & Hc).
  pose proof (ymd2ord_year_bounds _ _ _ Hymd) as Hob.
  pose proof (days_before_year_le 1 (Z.to_nat (year t - 1))) as Hmono.
  replace (1 + Z.of_nat _) with (year t) in Hmono by lia.
  change (days_before_year 1) with 0 in Hmono.
  assert (1 <= (epoch t + n) / 86400 <= 3652059) as Hb.
  { split; [apply Z.div_le_lower_bound; [lia|]; unfold epoch, ordinal; lia|].
    apply Z.lt_succ_r, Z.div_lt_upper_bound; lia. }
  destruct (_ && _) eqn:E; [eauto|]. unfold max_ordinal in E. lia.
Qed.
