(* ===== verification/Sql.v ===== *)
(** * Tables and the statements the program runs on them

    A table is the list of its rows in insertion order. [TableRow] is the interface a
    component's row type implements: its primary key and the CHECK constraints of its
    schema. UPDATE, INSERT, DELETE and the ordered LIMIT 1 selection are generic in it;
    a violated constraint is the error the caller passes. *)

From Stdlib Require Import ZArith Lia String Ascii.
From stdpp Require Import base list strings gmap sorting.
From S2P Require Import Prelude PyStr.

Local Open Scope string_scope.
Local Open Scope Z_scope.

Class TableRow (R : Type) := {
  row_id : R -> string;
  row_check : R -> bool
}.

(** ** Constraints of the catalog *)

(** shared/catalog_schema.py:10-18 CANONICAL_TIMESTAMP_CHECK *)
Definition timestamp_check (s : string) : bool :=
  let at_ (n : nat) c := match chars s !! n with Some d => Ascii.eqb d c | None => false end in
  (str_len s =? 20) && at_ 4%nat "-"%char && at_ 7%nat "-"%char && at_ 10%nat "T"%char
  && at_ 13%nat ":"%char && at_ 16%nat ":"%char && at_ 19%nat "Z"%char.

Definition timestamp_check_opt (s : option string) : bool :=
  match s with None => true | Some s => timestamp_check s end.

(** ** Ordered selection *)

(** [ORDER BY ... LIMIT 1], for the order of the ORDER BY clause. *)
Fixpoint first_by {A} (before : A -> A -> bool) (l : list A) : option A :=
  match l with
  | [] => None
  | j :: l => match first_by before l with
              | None => Some j
              | Some k => if before j k then Some j else Some k
              end
  end.

(** A pair of text columns, compared one after the other. *)
Definition cols_le (p q : string * string) : bool :=
  str_lt p.1 q.1 || (String.eqb p.1 q.1 && str_le p.2 q.2).

Lemma cols_le_iff p q :
  cols_le p q = true <-> str_lt p.1 q.1 = true \/ (p.1 = q.1 /\ str_le p.2 q.2 = true).
Proof. unfold cols_le. by rewrite orb_true_iff, andb_true_iff, String.eqb_eq. Qed.

Lemma cols_le_refl p : cols_le p p = true.
Proof. apply cols_le_iff. right. split; [done|apply str_le_refl]. Qed.

Lemma cols_le_total p q : cols_le p q = true \/ cols_le q p = true.
Proof.
  rewrite !cols_le_iff, !str_lt_iff.
  destruct (decide (p.1 = q.1)) as [He|He].
  - destruct (str_le_total p.2 q.2); [left|right]; right; done.
  - destruct (str_le_total p.1 q.1); [left|right]; left; split; congruence.
Qed.

Lemma cols_le_trans p q r : cols_le p q = true -> cols_le q r = true -> cols_le p r = true.
Proof.
  rewrite !cols_le_iff, !str_lt_iff.
  intros [[H1 N1]|[E1 H1]] [[H2 N2]|[E2 H2]].
  - left. split; [by eapply str_le_trans|]. intros E. rewrite E in H1. apply N2. by apply str_le_antisym.
  - left. by rewrite <- E2.
  - left. by rewrite E1.
  - right. split; [congruence|by eapply str_le_trans].
Qed.

Lemma cols_le_antisym p q : cols_le p q = true -> cols_le q p = true -> p = q.
Proof.
  rewrite !cols_le_iff, !str_lt_iff. destruct p as [a b], q as [c d]; simpl.
  intros [[H1 N1]|[E1 H1]] [[H2 N2]|[E2 H2]]; try congruence.
  - destruct N1. by apply str_le_antisym.
  - subst. f_equal. by apply str_le_antisym.
Qed.

(** Selecting by a key, ascending and descending. *)
Section ordered.
Context {A : Type} (cols : A -> string * string) (desc : bool).
Definition row_before (a b : A) : bool :=
  if desc then cols_le (cols b) (cols a) else cols_le (cols a) (cols b).

Lemma row_before_refl a : row_before a a = true.
Proof. unfold row_before. destruct desc; apply cols_le_refl. Qed.
Lemma row_before_total a b : row_before a b = false -> row_before b a = true.
Proof.
  unfold row_before. intros H. destruct desc, (cols_le_total (cols a) (cols b)); congruence.
Qed.
Lemma row_before_trans a b c :
  row_before a b = true -> row_before b c = true -> row_before a c = true.
Proof. unfold row_before. destruct desc; intros ? ?; eapply cols_le_trans; eauto. Qed.

Lemma first_by_min l j :
  first_by row_before l = Some j -> j ∈ l /\ forall k, k ∈ l -> row_before j k = true.
Proof.
  revert j; induction l as [|a l IH]; intros j H; [done|]. simpl in H.
  destruct (first_by row_before l) as [b|] eqn:E.
  - destruct (IH b eq_refl) as [Hb Hmin].
    destruct (row_before a b) eqn:Eab; injection H as <-.
    + split; [left|]. intros k [->|Hk]%elem_of_cons; [apply row_before_refl|].
      eapply row_before_trans; eauto.
    + split; [by right|]. intros k [->|Hk]%elem_of_cons; [by apply row_before_total|auto].
  - injection H as <-. split; [left|]. intros k [->|Hk]%elem_of_cons; [apply row_before_refl|].
    destruct l as [|c l]; [by apply elem_of_nil in Hk|]. simpl in E.
    destruct (first_by row_before l); [destruct (row_before c _)|]; discriminate.
Qed.
End ordered.

Lemma first_by_none {A} (before : A -> A -> bool) l : first_by before l = None -> l = [].
Proof.
  destruct l as [|a l]; [done|]. simpl. destruct (first_by before l); [destruct (before a _)|]; done.
Qed.

Lemma first_by_singleton {A} (before : A -> A -> bool) a : first_by before [a] = Some a.
Proof. done. Qed.

(** [ORDER BY] an integer column. *)
Section order_by_int.
Context {A : Type} (col : A -> Z).
Definition int_before (a b : A) : Prop := col a <= col b.
#[local] Instance int_before_dec : RelDecision int_before := fun a b => decide (col a <= col b).
#[local] Instance int_before_total : Total int_before.
Proof. intros a b. unfold int_before. lia. Qed.
#[local] Instance int_before_trans : Transitive int_before.
Proof. intros a b c. unfold int_before. lia. Qed.
Definition order_by_int (l : list A) : list A := merge_sort int_before l.

Lemma order_by_int_perm l : order_by_int l ≡ₚ l.
Proof. apply merge_sort_Permutation. Qed.
Lemma order_by_int_sorted l : StronglySorted int_before (order_by_int l).
Proof. apply StronglySorted_merge_sort; apply _. Qed.

Lemma strict_col_inj l x y :
  StronglySorted (fun a b => col a < col b) l -> x ∈ l -> y ∈ l -> col x = col y -> x = y.
Proof.
  induction 1 as [|a l Hs IH Ha]; [by intros ?%elem_of_nil|].
  rewrite Forall_forall in Ha. rewrite !elem_of_cons.
  intros [->|Hx] [->|Hy] He; auto.
  - specialize (Ha y Hy). lia.
  - specialize (Ha x Hx). lia.
Qed.

(** A list already in strict order is its own ordering. *)
Lemma order_by_int_strict l :
  StronglySorted (fun a b => col a < col b) l -> order_by_int l = l.
Proof.
  intros Hs. apply (StronglySorted_unique_strong int_before).
  - intros x y Hx Hy. unfold int_before. intros. rewrite order_by_int_perm in Hx.
    apply (strict_col_inj l); auto; lia.
  - apply order_by_int_sorted.
  - eapply StronglySorted_impl_in; [|exact Hs]. unfold int_before. intros; simpl in *; lia.
  - apply order_by_int_perm.
Qed.

(** The rows after the last row of a non-empty page. *)
Lemma after_page k l x :
  StronglySorted (fun a b => col a < col b) l -> last (take k l) = Some x ->
  filter_b (fun y => col x <? col y) l = drop k l.
Proof.
  intros Hs Hl. rewrite <- (take_drop k l) at 1. rewrite <- (take_drop k l) in Hs.
  apply StronglySorted_app in Hs as (Hc & Ht & Hd). apply last_Some in Hl as [m Hm].
  rewrite filter_b_app, filter_b_none, filter_b_all; [done|..].
  - intros y Hy. apply Z.ltb_lt. apply Hc; [|done]. rewrite Hm, elem_of_app. right; left.
  - intros y Hy. apply Z.ltb_ge. rewrite Hm in Hy, Ht. apply StronglySorted_app in Ht as (Hmx & _ & _).
    apply elem_of_app in Hy as [Hy|Hy%list_elem_of_singleton]; [|by subst].
    specialize (Hmx y x Hy ltac:(left)). lia.
Qed.
End order_by_int.

(** [ORDER BY] two text columns. *)
Section order_by_cols.
Context {A : Type} (cols : A -> string * string).
Definition cols_before (a b : A) : Prop := cols_le (cols a) (cols b) = true.
#[local] Instance cols_before_dec : RelDecision cols_before :=
  fun a b => decide (cols_le (cols a) (cols b) = true).
#[local] Instance cols_before_total : Total cols_before.
Proof. intros a b. apply cols_le_total. Qed.
#[local] Instance cols_before_trans : Transitive cols_before.
Proof. intros a b c. apply cols_le_trans. Qed.
Definition order_by_cols (l : list A) : list A := merge_sort cols_before l.

Lemma order_by_cols_perm l : order_by_cols l ≡ₚ l.
Proof. apply merge_sort_Permutation. Qed.
Lemma order_by_cols_sorted l : StronglySorted cols_before (order_by_cols l).
Proof. apply StronglySorted_merge_sort; apply _. Qed.
End order_by_cols.

(** ** Statements *)

Section statements.
Context {R E : Type} `{TableRow R} (violated : E).

(** [SELECT * WHERE id = ?]. *)
Definition find_row (t : list R) (id : string) : option R :=
  List.find (fun r => String.eqb (row_id r) id) t.

(** [UPDATE ... SET f WHERE p]: all matching rows or, on a violated constraint, none;
    the second component is [cursor.rowcount]. *)
Definition update_rows (p : R -> bool) (f : R -> R) (t : list R) : result E (list R * Z) :=
  if forallb (fun r => row_check (f r)) (filter_b p t)
  then Ok ((fun r => if p r then f r else r) <$> t, zlen (filter_b p t))
  else Err violated.

(** [INSERT]: the constraints and the primary key. *)
Definition insert_row (r : R) (t : list R) : result E (list R) :=
  if negb (row_check r) || existsb (fun k => String.eqb (row_id k) (row_id r)) t
  then Err violated else Ok (t ++ [r])%list.

(** [DELETE ... WHERE p] and the row count. *)
Definition delete_rows (p : R -> bool) (t : list R) : list R * Z :=
  (filter_b (fun r => negb (p r)) t, zlen (filter_b p t)).
End statements.

(** The table with the row of the same identifier replaced. *)
Definition put_row {R} `{TableRow R} (r' : R) (t : list R) : list R :=
  (fun k => if String.eqb (row_id k) (row_id r') then r' else k) <$> t.

(** ** Lemmas *)

Section lemmas.
Context {R E : Type} `{TableRow R} {violated : E}.
Implicit Types (t : list R) (p : R -> bool) (f : R -> R).
Local Notation update := (update_rows violated).

Lemma update_rows_ok p f t t' n :
  update p f t = Ok (t', n) ->
  t' = (fun j => if p j then f j else j) <$> t /\ n = zlen (filter_b p t) /\
  (forall j, j ∈ t -> p j = true -> row_check (f j) = true).
Proof.
  unfold update_rows. destruct (forallb _ _) eqn:Ef; [|done]. intros [= <- <-].
  split; [done|]. split; [done|]. intros j Hj Hp. rewrite forallb_elem in Ef.
  apply Ef, elem_of_filter_b. done.
Qed.

Lemma update_rows_ext p q f t : (forall j, p j = q j) -> update p f t = update q f t.
Proof.
  intros Hpq. unfold update_rows, filter_b. rewrite (List.filter_ext p q) by done.
  rewrite (list_fmap_ext _ (fun j => if q j then f j else j) t) by (intros; by rewrite Hpq). done.
Qed.

Lemma update_rows_id p f t : (forall k, k ∈ t -> p k = false) ->
  (fun j => if p j then f j else j) <$> t = t.
Proof.
  intros Hp. rewrite <- (list_fmap_id t) at 2. apply list_fmap_ext. intros i k Hk.
  rewrite Hp; [done|]. by eapply list_elem_of_lookup_2.
Qed.

(** An update that matches no row changes nothing. *)
Lemma update_rows_none p f t t' n :
  (forall k, k ∈ t -> p k = false) -> update p f t = Ok (t', n) -> t' = t /\ n = 0.
Proof.
  intros Hp Hu. apply update_rows_ok in Hu as (-> & -> & _).
  rewrite update_rows_id by done. by rewrite filter_b_none.
Qed.

Lemma update_rows_keep p f t t' n j :
  update p f t = Ok (t', n) -> j ∈ t -> p j = false -> j ∈ t'.
Proof.
  intros Hu Hj Hp. apply update_rows_ok in Hu as (-> & _ & _).
  apply list_elem_of_fmap. exists j. by rewrite Hp.
Qed.

Lemma find_row_some t id j : find_row t id = Some j -> j ∈ t /\ row_id j = id.
Proof.
  unfold find_row. intros [Hin He]%List.find_some. apply String.eqb_eq in He.
  by rewrite list_elem_of_In.
Qed.

Lemma find_row_unique t id j :
  NoDup (row_id <$> t) -> j ∈ t -> row_id j = id -> find_row t id = Some j.
Proof.
  unfold find_row. intros Hnd Hj <-. induction t as [|k t IH]; [by apply elem_of_nil in Hj|].
  rewrite fmap_cons, NoDup_cons in Hnd. destruct Hnd as [Hk Hnd]. simpl.
  destruct (String.eqb_spec (row_id k) (row_id j)) as [He|He].
  - apply elem_of_cons in Hj as [->|Hj]; [done|].
    destruct Hk. rewrite He. by apply list_elem_of_fmap_2.
  - apply elem_of_cons in Hj as [->|Hj]; [done|]. auto.
Qed.

Lemma find_row_none t id : find_row t id = None <-> id ∉ row_id <$> t.
Proof.
  unfold find_row. induction t as [|k t IH]; simpl; [split; [|done]; intros _; apply not_elem_of_nil|].
  rewrite not_elem_of_cons. destruct (String.eqb_spec (row_id k) id) as [He|He]; rewrite ?IH.
  - split; [done|]. intros [Hne _]. by destruct Hne.
  - split; [|tauto]. intros Hn. split; [congruence|done].
Qed.

Lemma row_unique t j k :
  NoDup (row_id <$> t) -> j ∈ t -> k ∈ t -> row_id j = row_id k -> j = k.
Proof.
  intros Hnd Hj Hk He. pose proof (find_row_unique t (row_id k) j Hnd Hj He).
  pose proof (find_row_unique t (row_id k) k Hnd Hk eq_refl). congruence.
Qed.

(** Selecting one row by its identifier with a guard. *)
Lemma filter_id_singleton q t id j :
  NoDup (row_id <$> t) -> j ∈ t -> row_id j = id ->
  filter_b (fun k => String.eqb (row_id k) id && q k) t = if q j then [j] else [].
Proof.
  induction t as [|k t IH]; intros Hnd Hj Hid; [by apply elem_of_nil in Hj|].
  rewrite fmap_cons, NoDup_cons in Hnd. destruct Hnd as [Hk Hnd].
  unfold filter_b in *. simpl. apply elem_of_cons in Hj as [->|Hj].
  - rewrite Hid, String.eqb_refl. simpl.
    assert (List.filter (fun k0 => String.eqb (row_id k0) id && q k0) t = []) as ->.
    { apply (filter_b_none (fun k0 => String.eqb (row_id k0) id && q k0)).
      intros m Hm. destruct (String.eqb_spec (row_id m) id) as [Hmid|]; [|done].
      destruct Hk. rewrite Hid, <- Hmid. by apply list_elem_of_fmap_2. }
    by destruct (q k).
  - destruct (String.eqb_spec (row_id k) id) as [He|]; simpl; [|by apply IH].
    exfalso. apply Hk. rewrite He, <- Hid. by apply list_elem_of_fmap_2.
Qed.

(** An update of one row by its identifier and a guard. *)
Lemma update_one q f t id j t' n :
  NoDup (row_id <$> t) -> j ∈ t -> row_id j = id -> row_id (f j) = row_id j ->
  update (fun k => String.eqb (row_id k) id && q k) f t = Ok (t', n) ->
  if q j then t' = put_row (f j) t /\ n = 1 else t' = t /\ n = 0.
Proof.
  intros Hnd Hj Hid Hf Hu. apply update_rows_ok in Hu as (-> & -> & _).
  rewrite (filter_id_singleton q t id j Hnd Hj Hid).
  assert (forall k, k ∈ t -> String.eqb (row_id k) id = true -> k = j) as Hone.
  { intros k Hk He%String.eqb_eq. apply (row_unique t); congruence. }
  destruct (q j) eqn:Hq; (split; [|done]).
  - apply list_fmap_ext. intros i k Hk%list_elem_of_lookup_2. rewrite Hf, Hid.
    destruct (String.eqb (row_id k) id) eqn:Ek; [|done]. simpl. by rewrite (Hone k Hk Ek), Hq.
  - apply update_rows_id. intros k Hk.
    destruct (String.eqb (row_id k) id) eqn:Ek; [|done]. simpl. by rewrite (Hone k Hk Ek), Hq.
Qed.

Lemma find_put_row t id j :
  id ∈ row_id <$> t -> row_id j = id -> find_row (put_row j t) id = Some j.
Proof.
  unfold find_row, put_row. intros Hin Hid. induction t as [|k t IH]; [by apply elem_of_nil in Hin|].
  simpl. destruct (String.eqb_spec (row_id k) (row_id j)) as [He|He].
  - by rewrite Hid, String.eqb_refl.
  - rewrite Hid in He. destruct (String.eqb_spec (row_id k) id); [done|]. apply IH.
    rewrite fmap_cons, elem_of_cons in Hin. destruct Hin; [congruence|done].
Qed.

Lemma elem_of_put_row t j k :
  NoDup (row_id <$> t) -> row_id j ∈ row_id <$> t ->
  k ∈ put_row j t <-> k = j \/ (k ∈ t /\ row_id k <> row_id j).
Proof.
  unfold put_row. intros Hnd Hin. rewrite list_elem_of_fmap. split.
  - intros (m & -> & Hm). destruct (String.eqb_spec (row_id m) (row_id j)); [by left|]. by right.
  - intros [->|[Hk Hne]].
    + apply list_elem_of_fmap in Hin as (m & He & Hm). exists m.
      by rewrite <- He, String.eqb_refl.
    + exists k. by destruct (String.eqb_spec (row_id k) (row_id j)).
Qed.

Lemma put_row_ids t j : row_id <$> put_row j t = row_id <$> t.
Proof.
  unfold put_row. rewrite <- list_fmap_compose. apply list_fmap_ext. intros i k _. simpl.
  by destruct (String.eqb_spec (row_id k) (row_id j)).
Qed.

Lemma insert_row_ok r t t' :
  insert_row violated r t = Ok t' ->
  t' = (t ++ [r])%list /\ row_check r = true /\ row_id r ∉ row_id <$> t.
Proof.
  unfold insert_row. destruct (_ || _) eqn:Eb; [done|]. intros [= <-].
  rewrite orb_false_iff, negb_false_iff in Eb. destruct Eb as [Hc Hi].
  split; [done|]. split; [done|]. intros (k & He & Hk)%list_elem_of_fmap.
  assert (existsb (fun k => String.eqb (row_id k) (row_id r)) t = true); [|congruence].
  apply existsb_elem. exists k. by rewrite He, String.eqb_refl.
Qed.

Lemma insert_row_nodup r t t' :
  NoDup (row_id <$> t) -> insert_row violated r t = Ok t' -> NoDup (row_id <$> t').
Proof.
  intros Hnd (-> & _ & Hn)%insert_row_ok. rewrite fmap_app. apply NoDup_app.
  split; [done|]. split; [|apply NoDup_singleton]. by intros x Hx ->%list_elem_of_singleton.
Qed.
End lemmas.

(** ** Transactions *)

(** A connection sees its own uncommitted work; [snapshot] is the table to which ROLLBACK
    returns while a transaction is open. *)
Record connection (S : Type) := Conn { current : S; snapshot : option S }.
Arguments Conn {S} _ _.
Arguments current {S} _.
Arguments snapshot {S} _.

(** [BEGIN], [COMMIT] and [ROLLBACK]; [None] is the OperationalError of a BEGIN inside a
    transaction, or of a COMMIT or ROLLBACK outside one. *)
Definition begin_ {S} (c : connection S) : option (connection S) :=
  match snapshot c with None => Some (Conn (current c) (Some (current c))) | Some _ => None end.
Definition commit {S} (c : connection S) : option (connection S) :=
  match snapshot c with Some _ => Some (Conn (current c) None) | None => None end.
Definition rollback {S} (c : connection S) : option (connection S) :=
  match snapshot c with Some s => Some (Conn s None) | None => None end.
