(* ===== verification/JobState.v ===== *)
(** * Durable jobs: [shared/job_state.py]

    The rows of the [jobs] table, the constraints of its schema, and every operation of
    the module as a function from the table to the table or to the error it raises.
    An UPDATE statement is [update_where]; NULL columns are [None].  Integers are unbounded: the
    OverflowError of the driver for a number outside 64 bits is not modelled. *)

From Stdlib Require Import ZArith Lia String Ascii.
From stdpp Require Import base list strings gmap.
From S2P Require Import Prelude PyStr Sql Json Timestamp.

Local Open Scope string_scope.
Local Open Scope Z_scope.

(** ** States *)

(** shared/job_state.py:15-27 ALLOWED_TRANSITIONS: the states of a job. *)
Inductive job_status :=
  | Pending | Leased | Running | Paused | Retrying
  | Completed | CompletedWarning | Failed | Cancelled.

#[export] Instance job_status_eq_dec : EqDecision job_status.
Proof. solve_decision. Defined.

(** shared/catalog_schema.py:147-147 _SCHEMA_SQL: the text stored in [jobs.state]. *)
Definition status_text (s : job_status) : string :=
  match s with
  | Pending => "pending" | Leased => "leased" | Running => "running" | Paused => "paused"
  | Retrying => "retrying" | Completed => "completed"
  | CompletedWarning => "completed-warning" | Failed => "failed" | Cancelled => "cancelled"
  end.

Definition all_statuses : list job_status :=
  [Pending; Leased; Running; Paused; Retrying; Completed; CompletedWarning; Failed; Cancelled].

(** shared/job_state.py:12-12 TERMINAL_STATES *)
Definition TERMINAL_STATES : list job_status := [Completed; CompletedWarning; Failed; Cancelled].

(** shared/job_state.py:15-27 ALLOWED_TRANSITIONS *)
Definition ALLOWED_TRANSITIONS (s : job_status) : list job_status :=
  match s with
  | Pending => [Leased; Cancelled]
  | Leased => [Running; Pending; Retrying; Failed; Cancelled]
  | Running => [Paused; Retrying; Completed; CompletedWarning; Failed; Cancelled]
  | Paused => [Running; Cancelled]
  | Retrying => [Pending; Failed; Cancelled]
  | Completed | CompletedWarning | Failed | Cancelled => []
  end.

Definition status_of_text (s : string) : option job_status :=
  List.find (fun st => String.eqb (status_text st) s) all_statuses.

(** shared/job_state.py:13-13 MAX_LEASE_SECONDS *)
Definition MAX_LEASE_SECONDS : Z := 24 * 60 * 60.

(** ** Errors *)

(** shared/job_state.py:30-31 JobStateError: and the other exceptions the module lets out. *)
Inductive job_error :=
  | JobStateError (message : string)
  | IntegrityError
  | TimeError (e : time_error).

#[export] Instance job_error_eq_dec : EqDecision job_error.
Proof. solve_decision. Defined.

(** ** The table *)

(** shared/catalog_schema.py:143-158 _SCHEMA_SQL: one row of the [jobs] table. *)
Record job := Job {
  j_id : string;
  j_case : option string;
  j_type : string;
  j_state : job_status;
  j_input : string;
  j_key : string;
  j_attempts : Z;
  j_max : Z;
  j_owner : option string;
  j_expires : option string;
  j_retry_after : option string;
  j_error : option string;
  j_created : string;
  j_updated : string
}.

#[export] Instance job_eq_dec : EqDecision job.
Proof. solve_decision. Defined.

Definition job_types : list string := ["scan"; "enrich"; "export"; "notify"; "maintenance"].

(** shared/catalog_schema.py:143-158 _SCHEMA_SQL: the CHECK constraints of a row; the JSON
    columns hold texts of [json.dumps], for which [json_valid] is true. *)
Definition job_check (j : job) : bool :=
  existsb (String.eqb (j_type j)) job_types
  && (0 <=? j_attempts j) && (1 <=? j_max j)
  && timestamp_check_opt (j_expires j) && timestamp_check_opt (j_retry_after j)
  && timestamp_check (j_created j) && timestamp_check (j_updated j).

#[export] Instance job_row : TableRow job := { row_id := j_id; row_check := job_check }.

(** [UPDATE jobs SET f WHERE p]. *)
Notation update_where := (update_rows IntegrityError).

(** shared/job_state.py:335-340 get_job *)
Definition get_job (t : list job) (id : string) : result job_error job :=
  match find_row t id with
  | Some j => Ok j
  | None => Err (JobStateError ("unknown job " +:+ id))
  end.
#[global] Arguments get_job : simpl never.

(** shared/job_state.py:350-354 _canonical_json *)
Definition canonical_json (payload : value) : result job_error string :=
  match dumps payload with
  | Some s => Ok s
  | None => Err (JobStateError "job payload is not canonical JSON")
  end.
#[global] Arguments canonical_json : simpl never.

(** shared/job_state.py:357-359 _add_seconds: the exceptions of [datetime] pass through. *)
Definition add_seconds_job (timestamp : string) (seconds : Z) : result job_error string :=
  match add_seconds timestamp seconds with Ok s => Ok s | Err e => Err (TimeError e) end.

(** shared/job_state.py:343-347 _validate_transition: returns the parsed target. *)
Definition validate_transition (from_state : job_status) (to_state : string)
    : result job_error job_status :=
  match status_of_text to_state with
  | None => Err (JobStateError ("unknown target state " +:+ to_state))
  | Some s =>
    if decide (s ∈ ALLOWED_TRANSITIONS from_state) then Ok s
    else Err (JobStateError ("invalid job transition " +:+ status_text from_state
                             +:+ " -> " +:+ to_state))
  end.

(** shared/job_state.py:367-369 _validate_lease_seconds *)
Definition validate_lease_seconds (v : value) : result job_error Z :=
  match v with
  | VInt n => if (0 <? n) && (n <=? MAX_LEASE_SECONDS) then Ok n
              else Err (JobStateError "lease_seconds is outside the supported bound")
  | _ => Err (JobStateError "lease_seconds is outside the supported bound")
  end.

(** shared/job_state.py:34-46 RetryPolicy *)
Record RetryPolicy := { base_delay_seconds : Z; max_delay_seconds : Z }.

(** shared/job_state.py:34-46 RetryPolicy.__post_init__ *)
Definition make_retry_policy (base max_ : value) : result job_error RetryPolicy :=
  match base, max_ with
  | VInt b, VInt m =>
    if (b <=? 0) || (m <? b) then Err (JobStateError "retry policy bounds are invalid")
    else Ok {| base_delay_seconds := b; max_delay_seconds := m |}
  | _, _ => Err (JobStateError "retry policy bounds are invalid")
  end.

Definition default_retry_policy : RetryPolicy :=
  {| base_delay_seconds := 30; max_delay_seconds := 300 |}.

(** shared/job_state.py:362-364 _retry_delay_seconds *)
Definition retry_delay_seconds (attempts : Z) (p : RetryPolicy) : Z :=
  let uncapped := base_delay_seconds p * 2 ^ Z.max (attempts - 1) 0 in
  Z.min uncapped (max_delay_seconds p).

(** shared/job_state.py:49-52 stage_idempotency_key *)
Definition stage_idempotency_key (case_id stage : string) (input_payload : value)
    : result job_error string :=
  canonical_json (VDict [("case_id", VStr case_id); ("input", input_payload); ("stage", VStr stage)]).

(** ** Creation *)

(** shared/job_state.py:55-85 create_job: [cases] are the rows of [scan_cases] the foreign
    key refers to. *)
Definition create_job (cases : list string) (t : list job)
    (id type : string) (input_payload : value) (key now : string)
    (case_id : option string) (max_attempts : Z) : result job_error (list job) :=
  input ← canonical_json input_payload;
  let row := Job id case_id type Pending input key 0 max_attempts None None None None now now in
  _ ← raise_if (existsb (fun j => String.eqb (j_key j) key) t
                || match case_id with
                   | Some c => negb (existsb (String.eqb c) cases)
                   | None => false
                   end) IntegrityError;
  insert_row IntegrityError row t.

(** shared/job_state.py:88-127 create_or_get_job *)
Definition create_or_get_job (cases : list string) (t : list job)
    (id type : string) (input_payload : value) (key now : string)
    (case_id : option string) (max_attempts : Z) : result job_error (list job * job) :=
  input ← canonical_json input_payload;
  match create_job cases t id type input_payload key now case_id max_attempts with
  | Ok t' => j ← get_job t' id; Ok (t', j)
  | Err IntegrityError =>
    match List.find (fun j => String.eqb (j_key j) key) t with
    | None => Err IntegrityError
    | Some existing =>
      j ← get_job t (j_id existing);
      if String.eqb (j_type j) type && bool_decide (j_case j = case_id)
         && String.eqb (j_input j) input
      then Ok (t, j)
      else Err (JobStateError "idempotency key reused for different job input")
    end
  | Err e => Err e
  end.

(** ** Leases *)

(** shared/job_state.py:130-141 claim_pending_job *)
Definition claim_pending_job (t : list job) (id owner now : string)
    : result job_error (list job * bool) :=
  '(t', n) ← update_where
    (fun j => String.eqb (j_id j) id && bool_decide (j_state j = Pending)
              && (j_attempts j <? j_max j))
    (fun j => Job (j_id j) (j_case j) (j_type j) Leased (j_input j) (j_key j)
                (j_attempts j + 1) (j_max j) (Some owner) (j_expires j) (j_retry_after j)
                (j_error j) (j_created j) now) t;
  Ok (t', n =? 1).

(** SQL comparison with a NULL column is not true. *)
Definition col_le (c : option string) (s : string) : bool :=
  match c with Some x => str_le x s | None => false end.
Definition col_lt (c : option string) (s : string) : bool :=
  match c with Some x => str_lt x s | None => false end.
Definition col_ge (c : option string) (s : string) : bool :=
  match c with Some x => str_le s x | None => false end.

(** shared/job_state.py:152-163 claim_next_job: the WHERE clause of the selection. *)
Definition runnable_now (now : string) (j : job) : bool :=
  bool_decide (j_state j = Pending)
  || (bool_decide (j_state j = Retrying) && col_le (j_retry_after j) now)
  || (bool_decide (j_state j ∈ [Leased; Running]) && col_lt (j_expires j) now).

(** [ORDER BY created_at, job_id]. *)
Definition claim_order (j : job) : string * string := (j_created j, j_id j).
Definition claim_before : job -> job -> bool := row_before claim_order false.

(** shared/job_state.py:152-165 claim_next_job: the SELECT statement. *)
Definition claim_select (t : list job) (now : string) : option job :=
  first_by claim_before (filter_b (runnable_now now) t).

(** shared/job_state.py:167-182 claim_next_job: the guarded UPDATE statement. *)
Definition claim_update (t : list job) (id owner now lease_expires_at : string)
    : result job_error (list job * Z) :=
  update_where
    (fun j => String.eqb (j_id j) id && (j_attempts j <? j_max j) && runnable_now now j)
    (fun j => Job (j_id j) (j_case j) (j_type j) Leased (j_input j) (j_key j)
                (j_attempts j + 1) (j_max j) (Some owner) (Some lease_expires_at) None
                (j_error j) (j_created j) now) t.

(** shared/job_state.py:144-184 claim_next_job *)
Definition claim_next_job (t : list job) (owner now : string) (lease_seconds : value)
    : result job_error (list job * option job) :=
  seconds ← validate_lease_seconds lease_seconds;
  lease_expires_at ← add_seconds_job now seconds;
  match claim_select t now with
  | None => Ok (t, None)
  | Some row =>
    '(t', n) ← claim_update t (j_id row) owner now lease_expires_at;
    if n =? 1 then j ← get_job t' (j_id row); Ok (t', Some j) else Ok (t', None)
  end.

(** shared/job_state.py:187-209 heartbeat_job *)
Definition heartbeat_job (t : list job) (id owner now : string) (lease_seconds : value)
    : result job_error (list job * bool) :=
  seconds ← validate_lease_seconds lease_seconds;
  expires ← add_seconds_job now seconds;
  '(t', n) ← update_where
    (fun j => String.eqb (j_id j) id && bool_decide (j_owner j = Some owner)
              && bool_decide (j_state j ∈ [Leased; Running]) && col_ge (j_expires j) now)
    (fun j => Job (j_id j) (j_case j) (j_type j) (j_state j) (j_input j) (j_key j)
                (j_attempts j) (j_max j) (j_owner j) (Some expires) (j_retry_after j)
                (j_error j) (j_created j) now) t;
  Ok (t', n =? 1).

(** ** Transitions *)

Definition opt_json (error : option value) : result job_error (option string) :=
  match error with None => Ok None | Some v => s ← canonical_json v; Ok (Some s) end.

(** shared/job_state.py:212-241 transition_job *)
Definition transition_job (t : list job) (id to_state now : string) (error : option value)
    : result job_error (list job) :=
  j ← get_job t id;
  target ← validate_transition (j_state j) to_state;
  error_json ← opt_json error;
  '(t', n) ← update_where
    (fun k => String.eqb (j_id k) id && bool_decide (j_state k = j_state j))
    (fun k => Job (j_id k) (j_case k) (j_type k) target (j_input k) (j_key k)
                (j_attempts k) (j_max k)
                (if bool_decide (target = Leased) then j_owner j else None) None
                (j_retry_after k) error_json (j_created k) now) t;
  _ ← raise_if (negb (n =? 1))
        (JobStateError "job state changed before transition could be committed");
  Ok t'.

(** shared/job_state.py:244-253 safe_stop_job *)
Definition safe_stop_job (t : list job) (id now : string) : result job_error (list job) :=
  transition_job t id "paused" now
    (Some (VDict [("kind", VStr "safe-stop"); ("retryable", VBool true)])).

(** shared/job_state.py:256-279 record_process_death *)
Definition record_process_death (t : list job) (id now : string)
    : result job_error (list job * job_status) :=
  j ← get_job t id;
  _ ← raise_if (negb (bool_decide (j_state j ∈ [Leased; Running])))
        (JobStateError ("process death cannot be recorded from " +:+ status_text (j_state j)));
  let next_state := if j_attempts j <? j_max j then Retrying else Failed in
  t' ← transition_job t id (status_text next_state) now
    (Some (VDict [("kind", VStr "process-death");
                  ("retryable", VBool (bool_decide (next_state = Retrying)));
                  ("attempts", VInt (j_attempts j)); ("max_attempts", VInt (j_max j))]));
  Ok (t', next_state).

(** shared/job_state.py:282-285 release_for_retry *)
Definition release_for_retry (t : list job) (id now : string) : result job_error (list job) :=
  transition_job t id "pending" now None.

(** shared/job_state.py:288-332 finish_attempt *)
Definition finish_attempt (t : list job) (id now error_class : string) (policy : RetryPolicy)
    : result job_error (list job * job_status) :=
  _ ← raise_if (negb (existsb (String.eqb error_class) ["transient"; "permanent"]))
        (JobStateError ("unknown error class " +:+ error_class));
  j ← get_job t id;
  _ ← raise_if (negb (bool_decide (j_state j ∈ [Leased; Running])))
        (JobStateError ("attempt cannot finish from " +:+ status_text (j_state j)));
  let attempts := j_attempts j in
  let retryable := String.eqb error_class "transient" && (attempts <? j_max j) in
  let next_state := if retryable then Retrying else Failed in
  retry_after ← (if retryable
                 then s ← add_seconds_job now (retry_delay_seconds attempts policy); Ok (Some s)
                 else Ok None);
  error_json ← canonical_json
    (VDict [("attempts", VInt attempts); ("class", VStr error_class);
            ("kind", VStr "attempt-failed"); ("retryable", VBool retryable)]);
  '(t', _) ← update_where
    (fun k => String.eqb (j_id k) id)
    (fun k => Job (j_id k) (j_case k) (j_type k) next_state (j_input k) (j_key k)
                (j_attempts k) (j_max k) None None retry_after (Some error_json)
                (j_created k) now) t;
  Ok (t', next_state).

(** ** Every operation changes rows only along legal edges *)

Definition same_identity (j k : job) : Prop :=
  j_id k = j_id j /\ j_case k = j_case j /\ j_type k = j_type j /\ j_input k = j_input j /\
  j_key k = j_key j /\ j_max k = j_max j /\ j_created k = j_created j.

(** A claim takes a pending, retrying or expired job with attempts left and counts one. *)
Definition claim_edge (j k : job) : Prop :=
  j_state j ∈ [Pending; Retrying; Leased; Running] /\ j_state k = Leased /\
  j_attempts j < j_max j /\ j_attempts k = j_attempts j + 1.

Definition legal_change (j k : job) : Prop :=
  k = j \/
  (same_identity j k /\ j_state j ∉ TERMINAL_STATES /\
   (claim_edge j k \/
    (j_attempts k = j_attempts j /\
     (j_state k = j_state j \/ j_state k ∈ ALLOWED_TRANSITIONS (j_state j))))).

Lemma legal_refl j : legal_change j j.
Proof. by left. Qed.

Lemma allowed_not_terminal s s' : s' ∈ ALLOWED_TRANSITIONS s -> s ∉ TERMINAL_STATES.
Proof. unfold TERMINAL_STATES. destruct s; set_solver. Qed.

Lemma live_not_terminal s : s ∈ [Leased; Running] -> s ∉ TERMINAL_STATES.
Proof. unfold TERMINAL_STATES. destruct s; set_solver. Qed.

Lemma update_where_legal p f t t' n :
  (forall j, j ∈ t -> p j = true -> legal_change j (f j)) ->
  update_where p f t = Ok (t', n) -> Forall2 legal_change t t'.
Proof.
  intros Hl H. apply update_rows_ok in H as (-> & _ & _).
  induction t as [|j t IH]; [constructor|]. rewrite fmap_cons. constructor.
  - destruct (p j) eqn:Hp; [apply Hl; [left|done]|apply legal_refl].
  - apply IH. intros k Hk. apply Hl. by right.
Qed.

Lemma get_job_ok t id j : get_job t id = Ok j -> j ∈ t /\ j_id j = id.
Proof.
  unfold get_job. destruct (find_row t id) eqn:E; [|done]. intros [= ->].
  by apply find_row_some in E.
Qed.

Lemma validate_transition_ok s txt s' :
  validate_transition s txt = Ok s' -> s' ∈ ALLOWED_TRANSITIONS s /\ status_text s' = txt.
Proof.
  unfold validate_transition. destruct (status_of_text txt) eqn:E; [|done].
  case_decide; [|done]. intros [= <-]. split; [done|].
  unfold status_of_text in E. apply List.find_some in E as [_ E]. by apply String.eqb_eq.
Qed.

Lemma transition_job_legal t id txt now err t' :
  transition_job t id txt now err = Ok t' -> Forall2 legal_change t t'.
Proof.
  unfold transition_job. intros H. inv_ok.
  match goal with H : update_where _ _ _ = Ok ?x |- _ => destruct x as [t1 n]; rename H into Hu end.
  match goal with H : validate_transition _ _ = Ok _ |- _ => apply validate_transition_ok in H as [Ha _] end.
  inv_ok. eapply update_where_legal; [|exact Hu].
  intros k _ Hk. rewrite andb_true_iff, bool_decide_eq_true in Hk. destruct Hk as [_ Hs].
  right. split; [by repeat split|]. rewrite Hs. split; [by eapply allowed_not_terminal|].
  right. split; [done|]. by right.
Qed.

Lemma claim_next_shape t owner now lease t' r :
  claim_next_job t owner now lease = Ok (t', r) ->
  (t' = t /\ r = None) \/
  exists n expires id k, update_where
    (fun j => String.eqb (j_id j) id && (j_attempts j <? j_max j) && runnable_now now j)
    (fun j => Job (j_id j) (j_case j) (j_type j) Leased (j_input j) (j_key j)
                (j_attempts j + 1) (j_max j) (Some owner) (Some expires) None
                (j_error j) (j_created j) now) t = Ok (t', n) /\
    validate_lease_seconds lease = Ok k /\ add_seconds_job now k = Ok expires /\
    (exists row, claim_select t now = Some row /\ j_id row = id) /\
    ((n = 1 /\ exists j, r = Some j /\ get_job t' id = Ok j) \/ (n <> 1 /\ r = None)).
Proof.
  unfold claim_next_job. intros H. inv_ok.
  destruct (claim_select t now) as [row|] eqn:Hsel; inv_ok; [|by left].
  match goal with H : claim_update _ _ _ _ _ = Ok ?x |- _ => destruct x as [t1 n]; rename H into Hu end.
  right. unfold claim_update in Hu. destruct (Z.eqb_spec n 1); inv_ok.
  - eauto 20.
  - eexists n, _, _, _. repeat split; eauto.
Qed.

Lemma runnable_claimable now j :
  runnable_now now j = true -> j_state j ∈ [Pending; Retrying; Leased; Running].
Proof.
  unfold runnable_now. rewrite !orb_true_iff, !andb_true_iff, !bool_decide_eq_true.
  intros [[->|[-> _]]|[H _]]; [elem_list|elem_list|].
  rewrite !elem_of_cons in *. tauto.
Qed.

Lemma claimable_not_terminal s :
  s ∈ [Pending; Retrying; Leased; Running] -> s ∉ TERMINAL_STATES.
Proof.
  unfold TERMINAL_STATES. destruct s; set_solver.
Qed.

Lemma claim_next_legal t owner now lease t' r :
  claim_next_job t owner now lease = Ok (t', r) -> Forall2 legal_change t t'.
Proof.
  intros H. apply claim_next_shape in H as [[-> _]|(n & e & id & k & Hu & _)].
  - apply Forall_Forall2_diag, Forall_forall. auto using legal_refl.
  - eapply update_where_legal; [|exact Hu]. intros j _ Hp.
    rewrite !andb_true_iff, Z.ltb_lt in Hp. destruct Hp as [[_ Ha] Hr].
    apply runnable_claimable in Hr.
    right. split; [by repeat split|]. split; [by apply claimable_not_terminal|]. by left.
Qed.

Lemma claim_pending_legal t id owner now t' b :
  claim_pending_job t id owner now = Ok (t', b) -> Forall2 legal_change t t'.
Proof.
  unfold claim_pending_job. intros H. inv_ok. destruct_and?.
  match goal with H : update_where _ _ _ = Ok ?x |- _ => destruct x as [t1 n]; rename H into Hu end.
  inv_ok. eapply update_where_legal; [|exact Hu]. intros j _ Hp.
  rewrite !andb_true_iff, bool_decide_eq_true, Z.ltb_lt in Hp. destruct Hp as [[_ Hs] Ha].
  right. split; [by repeat split|]. rewrite Hs. split; [apply claimable_not_terminal; elem_list|].
  left. split; [rewrite Hs; elem_list|]. done.
Qed.

Lemma heartbeat_legal t id owner now lease t' b :
  heartbeat_job t id owner now lease = Ok (t', b) -> Forall2 legal_change t t'.
Proof.
  unfold heartbeat_job. intros H. inv_ok.
  match goal with H : update_where _ _ _ = Ok ?x |- _ => destruct x as [t1 n]; rename H into Hu end.
  inv_ok. eapply update_where_legal; [|exact Hu]. intros j _ Hp.
  rewrite !andb_true_iff, !bool_decide_eq_true in Hp. destruct Hp as [[_ Hs] _].
  right. split; [by repeat split|]. split; [by apply live_not_terminal|].
  right. split; [done|]. by left.
Qed.

Lemma finish_attempt_legal t id now cls pol t' s :
  NoDup (j_id <$> t) ->
  finish_attempt t id now cls pol = Ok (t', s) -> Forall2 legal_change t t'.
Proof.
  unfold finish_attempt. intros Hnd H. inv_ok.
  match goal with H : update_where _ _ _ = Ok ?x |- _ => destruct x as [t1 n]; rename H into Hu end.
  match goal with H : get_job t id = Ok ?x |- _ => apply get_job_ok in H as [Hin Hid]; rename x into j end.
  match goal with H : negb (bool_decide (_ ∈ [Leased; Running])) = false |- _ =>
    rewrite negb_false_iff, bool_decide_eq_true in H; rename H into Hlive end.
  inv_ok. eapply update_where_legal; [|exact Hu]. intros k Hk Hp.
  apply String.eqb_eq in Hp.
  assert (k = j) as -> by (apply (row_unique t); simpl; congruence).
  right. split; [by repeat split|]. split; [by apply live_not_terminal|].
  right. split; [done|]. right. cbn [j_state].
  rewrite !elem_of_cons, elem_of_nil in Hlive.
  destruct Hlive as [->|[->|[]]]; destruct (_ && _); elem_list.
Qed.
