(* ===== verification/JobProofs.v ===== *)
(** * Theorems about durable jobs

    The jobs table as a state machine: [job_step] is one committed operation of any
    worker at any time. Invariants of every reachable table, and the functional
    behaviour of claiming, heartbeats, retries and idempotent creation. *)

From Stdlib Require Import ZArith Lia String Ascii.
From stdpp Require Import base list strings gmap.
From S2P Require Import Prelude PyStr Sql Json Timestamp JobState.

Local Open Scope string_scope.
Local Open Scope Z_scope.

(** ** The state machine *)

Inductive job_step (cases : list string) (t : list job) : list job -> Prop :=
  | step_create id type input key now c m t' :
      create_job cases t id type input key now c m = Ok t' -> job_step cases t t'
  | step_create_or_get id type input key now c m t' j :
      create_or_get_job cases t id type input key now c m = Ok (t', j) -> job_step cases t t'
  | step_claim_pending id owner now t' b :
      claim_pending_job t id owner now = Ok (t', b) -> job_step cases t t'
  | step_claim_next owner now lease t' r :
      claim_next_job t owner now lease = Ok (t', r) -> job_step cases t t'
  | step_heartbeat id owner now lease t' b :
      heartbeat_job t id owner now lease = Ok (t', b) -> job_step cases t t'
  | step_transition id to now error t' :
      transition_job t id to now error = Ok t' -> job_step cases t t'
  | step_safe_stop id now t' :
      safe_stop_job t id now = Ok t' -> job_step cases t t'
  | step_death id now t' s :
      record_process_death t id now = Ok (t', s) -> job_step cases t t'
  | step_release id now t' :
      release_for_retry t id now = Ok t' -> job_step cases t t'
  | step_finish id now cls policy t' s :
      finish_attempt t id now cls policy = Ok (t', s) -> job_step cases t t'.

(** What an update may do to the lease columns of a row: only a claim or a heartbeat sets
    them, and both leave the row leased. *)
Definition lease_cols_ok (j : job) : Prop :=
  (j_owner j <> None \/ j_expires j <> None) -> j_state j = Leased.

(** A well-formed row: the table's constraints, bounded attempts, lease columns only on a
    leased row. *)
Definition row_wf (j : job) : Prop :=
  job_check j = true /\ 0 <= j_attempts j <= j_max j /\ lease_cols_ok j.

Definition jobs_wf (t : list job) : Prop :=
  NoDup (j_id <$> t) /\ NoDup (j_key <$> t) /\ Forall row_wf t.

(** ** Shared lemmas *)

Lemma legal_ids t t' : Forall2 legal_change t t' -> j_id <$> t' = j_id <$> t.
Proof.
  induction 1 as [|j k t t' H _ IH]; [done|]. rewrite !fmap_cons, IH. f_equal.
  destruct H as [->|[(?&?&?&?&?&?&?) _]]; done.
Qed.

Lemma legal_keys t t' : Forall2 legal_change t t' -> j_key <$> t' = j_key <$> t.
Proof.
  induction 1 as [|j k t t' H _ IH]; [done|]. rewrite !fmap_cons, IH. f_equal.
  destruct H as [->|[(?&?&?&?&?&?&?) _]]; done.
Qed.

Lemma update_where_wf p f t t' n :
  (forall j, j ∈ t -> p j = true -> row_wf j -> legal_change j (f j) /\
     0 <= j_attempts (f j) <= j_max (f j) /\ lease_cols_ok (f j)) ->
  jobs_wf t -> update_where p f t = Ok (t', n) -> jobs_wf t'.
Proof.
  intros Hf (Hi & Hk & Hr) Hu. rewrite Forall_forall in Hr.
  assert (Forall2 legal_change t t') as Hl.
  { eapply update_where_legal; [|exact Hu]. intros j Hj Hp. by apply Hf; auto. }
  split; [by rewrite (legal_ids _ _ Hl)|]. split; [by rewrite (legal_keys _ _ Hl)|].
  apply update_rows_ok in Hu as (-> & _ & Hc). apply Forall_fmap, Forall_forall.
  intros j Hj. simpl. destruct (p j) eqn:Hp; [|by apply Hr].
  split; [by apply Hc|]. by apply Hf; auto.
Qed.

Lemma no_lease_cols j : j_owner j = None -> j_expires j = None -> lease_cols_ok j.
Proof. intros H1 H2 [H|H]; congruence. Qed.

Lemma job_unique (t : list job) j k :
  NoDup (j_id <$> t) -> j ∈ t -> k ∈ t -> j_id j = j_id k -> j = k.
Proof. exact (row_unique t j k). Qed.

(** An update of one job by its identifier and a guard. *)
Lemma update_job (q : job -> bool) f t id j t' n :
  NoDup (j_id <$> t) -> j ∈ t -> j_id j = id -> j_id (f j) = j_id j ->
  update_where (fun k => String.eqb (j_id k) id && q k) f t = Ok (t', n) ->
  if q j then t' = put_row (f j) t /\ n = 1 else t' = t /\ n = 0.
Proof. exact (update_one q f t id j t' n). Qed.

Lemma get_job_unique t id j :
  NoDup (j_id <$> t) -> j ∈ t -> j_id j = id -> get_job t id = Ok j.
Proof. unfold get_job. intros. by rewrite (find_row_unique t id j). Qed.

(** ** Invariants *)

Lemma create_job_ok cases t id type input key now c m t' :
  create_job cases t id type input key now c m = Ok t' ->
  exists s, canonical_json input = Ok s /\
    t' = (t ++ [Job id c type Pending s key 0 m None None None None now now])%list /\
    job_check (Job id c type Pending s key 0 m None None None None now now) = true /\
    id ∉ j_id <$> t /\ key ∉ j_key <$> t.
Proof.
  unfold create_job. intros H. inv_ok.
  match goal with H : canonical_json _ = Ok ?x |- _ => exists x; split; [exact H|] end.
  match goal with H : _ || _ = false |- _ => rewrite orb_false_iff in H; destruct H as [Hk _] end.
  apply insert_row_ok in H as (-> & Hc & Hi). split; [done|]. split; [done|]. split; [done|].
  intros (j & -> & Hj)%list_elem_of_fmap.
  assert (existsb (fun k => String.eqb (j_key k) (j_key j)) t = true); [|congruence].
  apply existsb_elem. exists j. by rewrite String.eqb_refl.
Qed.

Lemma create_job_wf cases t id type input key now c m t' :
  jobs_wf t -> create_job cases t id type input key now c m = Ok t' -> jobs_wf t'.
Proof.
  intros (Hi & Hk & Hr) H. apply create_job_ok in H as (s & _ & -> & Hc & Hid & Hkey).
  split; [|split].
  - rewrite fmap_app. simpl. apply NoDup_app. split; [done|]. split; [|apply NoDup_singleton].
    intros x Hx ->%list_elem_of_singleton. done.
  - rewrite fmap_app. simpl. apply NoDup_app. split; [done|]. split; [|apply NoDup_singleton].
    intros x Hx ->%list_elem_of_singleton. done.
  - apply Forall_app. split; [done|]. constructor; [|constructor].
    split; [done|]. split; [|by apply no_lease_cols]. simpl.
    unfold job_check in Hc. rewrite !andb_true_iff in Hc. simpl in Hc. lia.
Qed.

Lemma create_or_get_ok cases t id type input key now c m t' j :
  create_or_get_job cases t id type input key now c m = Ok (t', j) ->
  (t' = t /\ j ∈ t) \/ (create_job cases t id type input key now c m = Ok t' /\ get_job t' id = Ok j).
Proof.
  unfold create_or_get_job. intros H. inv_ok.
  destruct (create_job cases t id type input key now c m) as [t1|e] eqn:E; inv_ok; [by right|].
  destruct e; try discriminate. destruct (List.find _ t) eqn:F; [|discriminate]. inv_ok.
  match goal with H : (if ?b then _ else _) = _ |- _ => destruct b; inv_ok end.
  left. split; [done|]. by eapply get_job_ok.
Qed.

(** A transition as the update it makes. *)
Lemma transition_job_ok t id to now error t' :
  transition_job t id to now error = Ok t' ->
  exists j target error_json,
    get_job t id = Ok j /\ target ∈ ALLOWED_TRANSITIONS (j_state j) /\ status_text target = to /\
    opt_json error = Ok error_json /\
    update_where (fun k => String.eqb (j_id k) id && bool_decide (j_state k = j_state j))
      (fun k => Job (j_id k) (j_case k) (j_type k) target (j_input k) (j_key k)
         (j_attempts k) (j_max k) (if bool_decide (target = Leased) then j_owner j else None) None
         (j_retry_after k) error_json (j_created k) now) t = Ok (t', 1).
Proof.
  unfold transition_job. intros H. inv_ok.
  match goal with H : update_where _ _ _ = Ok ?x |- _ => destruct x as [t1 n]; rename H into Hu end.
  match goal with H : validate_transition _ _ = Ok _ |- _ => apply validate_transition_ok in H as [Ha Ht] end.
  inv_ok. match goal with H : negb (n =? 1) = false |- _ =>
    rewrite negb_false_iff, Z.eqb_eq in H; subst n end.
  eauto 20.
Qed.

Lemma transition_job_wf t id to now error t' :
  jobs_wf t -> transition_job t id to now error = Ok t' -> jobs_wf t'.
Proof.
  intros Hwf H. assert (Hl := H). apply transition_job_ok in H as (j & tg & e & Hg & Ha & _ & _ & Hu).
  apply get_job_ok in Hg as [Hj Hid].
  eapply update_where_wf; [|exact Hwf|exact Hu].
  intros k Hk Hp (_ & Hatt & _). rewrite andb_true_iff, bool_decide_eq_true in Hp.
  destruct Hp as [_ Hs]. split; [|split; [done|]].
  - right. split; [by repeat split|]. rewrite Hs. split; [by eapply allowed_not_terminal|].
    right. split; [done|]. by right.
  - intros Hc. simpl in *. case_bool_decide; [done|]. destruct Hc; done.
Qed.

Lemma claim_pending_wf t id owner now t' b :
  jobs_wf t -> claim_pending_job t id owner now = Ok (t', b) -> jobs_wf t'.
Proof.
  unfold claim_pending_job. intros Hwf H. inv_ok.
  match goal with H : update_where _ _ _ = Ok ?x |- _ => destruct x as [t1 n]; rename H into Hu end.
  inv_ok. eapply update_where_wf; [|exact Hwf|exact Hu]. intros j _ Hp (_ & Hatt & _).
  rewrite !andb_true_iff, bool_decide_eq_true, Z.ltb_lt in Hp. destruct Hp as [[_ Hs] Ha].
  split; [|split; [simpl; lia|done]].
  right. split; [by repeat split|]. rewrite Hs. split; [apply claimable_not_terminal; elem_list|].
  left. split; [rewrite Hs; elem_list|]. done.
Qed.

Lemma claim_next_wf t owner now lease t' r :
  jobs_wf t -> claim_next_job t owner now lease = Ok (t', r) -> jobs_wf t'.
Proof.
  intros Hwf H. apply claim_next_shape in H as [[-> _]|(n & e & id & k & Hu & _)]; [done|].
  eapply update_where_wf; [|exact Hwf|exact Hu]. intros j _ Hp (_ & Hatt & _).
  rewrite !andb_true_iff, Z.ltb_lt in Hp. destruct Hp as [[_ Ha] Hr].
  apply runnable_claimable in Hr. split; [|split; [simpl; lia|done]].
  right. split; [by repeat split|]. split; [by apply claimable_not_terminal|]. by left.
Qed.

Lemma heartbeat_wf t id owner now lease t' b :
  jobs_wf t -> heartbeat_job t id owner now lease = Ok (t', b) -> jobs_wf t'.
Proof.
  unfold heartbeat_job. intros Hwf H. inv_ok.
  match goal with H : update_where _ _ _ = Ok ?x |- _ => destruct x as [t1 n]; rename H into Hu end.
  inv_ok. eapply update_where_wf; [|exact Hwf|exact Hu]. intros j _ Hp (_ & Hatt & Hl).
  rewrite !andb_true_iff, !bool_decide_eq_true in Hp. destruct Hp as [[[_ Ho] Hs] _].
  split; [|split; [done|]].
  - right. split; [by repeat split|]. split; [by apply live_not_terminal|].
    right. split; [done|]. by left.
  - intros _. simpl. apply Hl. left. congruence.
Qed.

Lemma finish_attempt_wf t id now cls pol t' s :
  jobs_wf t -> finish_attempt t id now cls pol = Ok (t', s) -> jobs_wf t'.
Proof.
  intros Hwf H. assert (Hl := H). apply finish_attempt_legal in Hl; [|apply Hwf].
  destruct Hwf as (Hi & Hk & Hr).
  split; [by rewrite (legal_ids _ _ Hl)|]. split; [by rewrite (legal_keys _ _ Hl)|].
  unfold finish_attempt in H. inv_ok.
  match goal with H : update_where _ _ _ = Ok ?x |- _ => destruct x as [t1 n]; rename H into Hu end.
  inv_ok. apply update_rows_ok in Hu as (-> & _ & Hc).
  rewrite Forall_forall in Hr. apply Forall_fmap, Forall_forall. intros j Hj. simpl.
  destruct (String.eqb (j_id j) id) eqn:Hp; [|by apply Hr].
  split; [by apply Hc|]. split; [|by apply no_lease_cols].
  destruct (Hr j Hj) as (_ & ? & _). done.
Qed.

Lemma job_step_wf cases t t' : jobs_wf t -> job_step cases t t' -> jobs_wf t'.
Proof.
  intros Hwf [].
  - by eapply create_job_wf.
  - match goal with H : create_or_get_job _ _ _ _ _ _ _ _ _ = _ |- _ =>
      apply create_or_get_ok in H as [[-> _]|[H _]] end; [done|by eapply create_job_wf].
  - by eapply claim_pending_wf.
  - by eapply claim_next_wf.
  - by eapply heartbeat_wf.
  - by eapply transition_job_wf.
  - by eapply transition_job_wf.
  - unfold record_process_death in *. inv_ok. by eapply transition_job_wf.
  - by eapply transition_job_wf.
  - by eapply finish_attempt_wf.
Qed.

(** A step keeps every row in place, changed only along a legal edge, and may append one. *)
Lemma job_step_legal cases t t' :
  jobs_wf t -> job_step cases t t' ->
  exists u, Forall2 legal_change t u /\ (t' = u \/ exists j, t' = (u ++ [j])%list).
Proof.
  assert (Hrefl : Forall2 legal_change t t).
  { apply Forall_Forall2_diag, Forall_forall. auto using legal_refl. }
  intros Hwf [].
  - match goal with H : create_job _ _ _ _ _ _ _ _ _ = _ |- _ => apply create_job_ok in H as (s & _ & -> & _) end.
    exists t. split; [done|]. right. by eexists.
  - match goal with H : create_or_get_job _ _ _ _ _ _ _ _ _ = _ |- _ =>
      apply create_or_get_ok in H as [[-> _]|[H _]]; [by exists t; auto|] end.
    match goal with H : create_job _ _ _ _ _ _ _ _ _ = _ |- _ => apply create_job_ok in H as (s & _ & -> & _) end.
    exists t. split; [done|]. right. by eexists.
  - eexists. split; [|by left]. by eapply claim_pending_legal.
  - eexists. split; [|by left]. by eapply claim_next_legal.
  - eexists. split; [|by left]. by eapply heartbeat_legal.
  - eexists. split; [|by left]. by eapply transition_job_legal.
  - eexists. split; [|by left]. by eapply transition_job_legal.
  - eexists. split; [|by left]. unfold record_process_death in *. inv_ok. by eapply transition_job_legal.
  - eexists. split; [|by left]. by eapply transition_job_legal.
  - eexists. split; [|by left]. eapply finish_attempt_legal; [apply Hwf|done].
Qed.

Lemma jobs_wf_nil : jobs_wf [].
Proof. split; [constructor|split; constructor]. Qed.

Lemma reachable_wf cases t : reachable (job_step cases) [] t -> jobs_wf t.
Proof.
  apply reachable_invariant; [apply jobs_wf_nil|]. intros; by eapply job_step_wf.
Qed.

(** ** History of a row *)

Lemma legal_change_terminal j k : legal_change j k -> j_state j ∈ TERMINAL_STATES -> k = j.
Proof. intros [->|(_ & Hn & _)] Ht; [done|]. by destruct Hn. Qed.

Lemma legal_change_attempts j k : legal_change j k -> j_attempts j <= j_attempts k.
Proof.
  intros [->|(_ & _ & [(_ & _ & _ & H)|[H _]])]; lia.
Qed.

Lemma legal_change_identity j k : legal_change j k -> same_identity j k.
Proof. intros [->|[H _]]; [by repeat split|done]. Qed.

Lemma job_step_lookup cases t t' i j :
  jobs_wf t -> job_step cases t t' -> t !! i = Some j ->
  exists k, t' !! i = Some k /\ legal_change j k.
Proof.
  intros Hwf Hs Hi. destruct (job_step_legal _ _ _ Hwf Hs) as (u & Hl & Ht).
  eapply Forall2_lookup_l in Hl as (k & Hk & Hjk); [|exact Hi].
  exists k. split; [|done]. destruct Ht as [->|[x ->]]; [done|].
  by apply lookup_app_l_Some.
Qed.

Lemma history_lookup cases t0 t i j :
  jobs_wf t0 -> reachable (job_step cases) t0 t -> t0 !! i = Some j ->
  jobs_wf t /\ exists k, t !! i = Some k /\ same_identity j k /\ j_attempts j <= j_attempts k /\
    (j_state j ∈ TERMINAL_STATES -> k = j).
Proof.
  intros Hwf Hr Hi. induction Hr as [|s s' Hr IH Hs].
  - split; [done|]. exists j. split; [done|]. split; [by repeat split|]. split; [lia|done].
  - destruct IH as (Hws & k & Hk & Hid & Ha & Ht).
    split; [by eapply job_step_wf|].
    destruct (job_step_lookup _ _ _ _ _ Hws Hs Hk) as (k' & Hk' & Hl).
    exists k'. split; [done|]. split; [|split].
    + apply legal_change_identity in Hl. unfold same_identity in *. intuition congruence.
    + apply legal_change_attempts in Hl. lia.
    + intros Hj. assert (k = j) as -> by auto. by apply legal_change_terminal.
Qed.

Lemma owner_none_ne j owner : j_owner j = None -> j_owner j <> Some owner.
Proof. congruence. Qed.

(** ** The row a claim selects *)

Lemma claim_select_min t now row :
  claim_select t now = Some row ->
  row ∈ t /\ runnable_now now row = true /\
  forall k, k ∈ t -> runnable_now now k = true -> claim_before row k = true.
Proof.
  unfold claim_select. intros [H Hmin]%(first_by_min claim_order false). apply elem_of_filter_b in H as [Hin Hr].
  split; [done|]. split; [done|]. intros k Hk Hkr. apply Hmin, elem_of_filter_b. done.
Qed.

Lemma get_job_put_row t id j :
  id ∈ j_id <$> t -> j_id j = id -> get_job (put_row j t) id = Ok j.
Proof. unfold get_job. intros. by rewrite (find_put_row t id j). Qed.

(** ** Properties of the state machine *)

(** C1. Every table that any sequence of operations of any workers reaches from the empty
    table is well formed: job identifiers and idempotency keys are unique, every row
    satisfies the table's constraints, attempts stay between 0 and [max_attempts], and only
    a leased row carries an owner or a lease expiry. *)
Theorem jobs_reachable_wf cases t : reachable (job_step cases) [] t -> jobs_wf t.
Proof. apply reachable_wf. Qed.

(** C2. Rows are never deleted or re-identified: whatever happens after a reachable table,
    the row at a position keeps its identifier, case, type, input, key, [max_attempts] and
    creation time, its attempts never decrease, and once its state is terminal the whole
    row never changes again. *)
Theorem job_history cases t0 t i j :
  reachable (job_step cases) [] t0 -> reachable (job_step cases) t0 t -> t0 !! i = Some j ->
  exists k, t !! i = Some k /\ same_identity j k /\ j_attempts j <= j_attempts k /\
    (j_state j ∈ TERMINAL_STATES -> k = j).
Proof.
  intros H0 Hr Hi. eapply history_lookup; eauto using reachable_wf.
Qed.

(** A running job is outside the lease protocol: in every reachable table a running row
    has neither owner nor expiry, so no heartbeat touches it and no claim at any time selects
    it, although both operations name the running state in their conditions. *)
Theorem running_job_has_no_lease cases t j :
  reachable (job_step cases) [] t -> j ∈ t -> j_state j = Running ->
  j_owner j = None /\ j_expires j = None /\
  (forall now, runnable_now now j = false) /\
  (forall owner now lease t' b, heartbeat_job t (j_id j) owner now lease = Ok (t', b) ->
     b = false /\ t' = t).
Proof.
  intros Hr Hj Hs. apply reachable_wf in Hr as (Hnd & _ & Hf).
  rewrite Forall_forall in Hf. destruct (Hf j Hj) as (_ & _ & Hl).
  assert (j_owner j = None) as Ho.
  { destruct (j_owner j) eqn:E; [|done]. exfalso. rewrite Hl in Hs; [done|]. left. congruence. }
  assert (j_expires j = None) as He.
  { destruct (j_expires j) eqn:E; [|done]. exfalso. rewrite Hl in Hs; [done|]. right. congruence. }
  split; [done|]. split; [done|]. split.
  - intros now. unfold runnable_now. rewrite Hs, He. cbn [col_lt]. by rewrite andb_false_r.
  - intros owner now lease t' b H. unfold heartbeat_job in H. inv_ok.
    match goal with H : update_where _ _ _ = Ok ?x |- _ => destruct x as [t1 n]; rename H into Hu end.
    inv_ok. apply update_rows_none in Hu as [-> ->]; [done|]. intros k Hk.
    destruct (String.eqb_spec (j_id k) (j_id j)) as [Heq|]; [|done].
    by rewrite (job_unique t k j Hnd Hk Hj Heq), (bool_decide_false _ (owner_none_ne j owner Ho)).
Qed.

(** The row a successful claim writes. *)
Definition claimed_row (row : job) (owner expires now : string) : job :=
  Job (j_id row) (j_case row) (j_type row) Leased (j_input row) (j_key row)
    (j_attempts row + 1) (j_max row) (Some owner) (Some expires) None
    (j_error row) (j_created row) now.

(** C3. A claim takes the first runnable row of the queue: when [claim_next_job] returns a
    job, it is the runnable row that is least by creation time and identifier, with one more
    attempt, the caller as its owner and an expiry [lease_seconds] after [now]; no other row
    changes. When it returns none, the table is unchanged and either nothing was runnable or
    the first runnable row has no attempts left. *)
Theorem claim_next_spec t owner now lease t' r :
  NoDup (j_id <$> t) -> claim_next_job t owner now lease = Ok (t', r) ->
  match r with
  | Some j => exists row seconds expires,
      row ∈ t /\ runnable_now now row = true /\ j_attempts row < j_max row /\
      (forall k, k ∈ t -> runnable_now now k = true -> claim_before row k = true) /\
      lease = VInt seconds /\ 0 < seconds <= MAX_LEASE_SECONDS /\
      add_seconds now seconds = Ok expires /\
      j = claimed_row row owner expires now /\ t' = put_row j t
  | None => t' = t /\
      ((forall k, k ∈ t -> runnable_now now k = false) \/
       exists row, row ∈ t /\ runnable_now now row = true /\ j_max row <= j_attempts row /\
         forall k, k ∈ t -> runnable_now now k = true -> claim_before row k = true)
  end.
Proof.
  unfold claim_next_job. intros Hnd H. inv_ok.
  match goal with H : validate_lease_seconds _ = Ok ?x |- _ => rename H into Hv, x into k end.
  match goal with H : add_seconds_job _ _ = Ok ?x |- _ => rename H into Ha, x into e end.
  destruct (claim_select t now) as [row|] eqn:Hsel; [inv_ok|injection H as <- <-].
  2: { split; [done|]. left. intros k' Hk'. destruct (runnable_now now k') eqn:Hr; [|done].
       unfold claim_select in Hsel. apply first_by_none in Hsel.
       assert (k' ∈ filter_b (runnable_now now) t) as Hin by (by apply elem_of_filter_b).
       rewrite Hsel in Hin. by apply elem_of_nil in Hin. }
  match goal with H : claim_update _ _ _ _ _ = Ok ?x |- _ => destruct x as [t1 n]; rename H into Hu end.
  destruct (claim_select_min _ _ _ Hsel) as (Hin & Hrun & Hmin).
  assert (update_where (fun j => String.eqb (j_id j) (j_id row)
      && ((j_attempts j <? j_max j) && runnable_now now j))
    (fun j => claimed_row j owner e now) t = Ok (t1, n)) as Hu'.
  { rewrite <- Hu. apply update_rows_ext. intros j. apply andb_assoc. }
  apply (update_job _ _ _ _ row) in Hu'; [|done..]. rewrite Hrun, andb_true_r in Hu'.
  destruct (j_attempts row <? j_max row) eqn:Hatt; destruct Hu' as [-> ->]; simpl in H; inv_ok.
  - match goal with H : get_job _ _ = Ok _ |- _ => rewrite get_job_put_row in H;
      [injection H as <-| by apply list_elem_of_fmap_2 | done] end.
    exists row, k, e. unfold validate_lease_seconds in Hv. unfold add_seconds_job in Ha.
    destruct lease; try discriminate. destruct (_ && _) eqn:Hb; [|discriminate].
    injection Hv as ->. rewrite andb_true_iff, Z.ltb_lt, Z.leb_le in Hb.
    destruct (add_seconds now k) eqn:Eadd; [|discriminate]. injection Ha as ->.
    apply Z.ltb_lt in Hatt. repeat split; try done; tauto.
  - split; [done|]. right. exists row. apply Z.ltb_ge in Hatt. done.
Qed.

(** C4. A live lease is exclusive: while a job is leased by a worker and its expiry is not
    before [now], no claim by anyone and no heartbeat by another worker changes its row, and
    the owner's heartbeat, on any expiry it can compute, renews it, also at the very second of
    the expiry. *)
Theorem live_lease_exclusive t j A u v :
  NoDup (j_id <$> t) -> j ∈ t -> j_state j = Leased -> j_owner j = Some A ->
  j_expires j = Some (strftime u) -> canonical_instant u -> canonical_instant v ->
  epoch v <= epoch u ->
  let now := strftime v in
  (forall B lease t' r, claim_next_job t B now lease = Ok (t', r) -> j ∈ t') /\
  (forall id B t' b, claim_pending_job t id B now = Ok (t', b) -> j ∈ t') /\
  (forall id B lease t' b, B <> A -> heartbeat_job t id B now lease = Ok (t', b) -> j ∈ t') /\
  (forall lease t' b, heartbeat_job t (j_id j) A now lease = Ok (t', b) ->
     b = true /\ exists s e, lease = VInt s /\ add_seconds now s = Ok e /\
       t' = put_row (Job (j_id j) (j_case j) (j_type j) Leased (j_input j) (j_key j)
              (j_attempts j) (j_max j) (Some A) (Some e) (j_retry_after j) (j_error j)
              (j_created j) now) t).
Proof.
  intros Hnd Hj Hs Ho He Hu Hv Hle now.
  assert (runnable_now now j = false) as Hrun.
  { unfold runnable_now. rewrite Hs, He. cbn [col_lt]. subst now. rewrite str_lt_epoch by done.
    rewrite (proj2 (Z.ltb_ge _ _)) by lia. by rewrite andb_false_r. }
  split; [|split; [|split]].
  - intros B lease t' r [[-> _]|(n & e & id & k & Hup & _)]%claim_next_shape; [done|].
    eapply update_rows_keep; [exact Hup|done|]. cbv beta. by rewrite Hrun, andb_false_r.
  - intros id B t' b H. unfold claim_pending_job in H. inv_ok.
    match goal with H : update_where _ _ _ = Ok ?x |- _ => destruct x as [t1 n]; rename H into Hup end.
    inv_ok. eapply update_rows_keep; [exact Hup|done|]. cbv beta. rewrite Hs. by rewrite andb_false_r.
  - intros id B lease t' b HB H. unfold heartbeat_job in H. inv_ok.
    match goal with H : update_where _ _ _ = Ok ?x |- _ => destruct x as [t1 n]; rename H into Hup end.
    inv_ok. eapply update_rows_keep; [exact Hup|done|]. cbv beta.
    rewrite (bool_decide_false (j_owner j = Some B)) by congruence. by rewrite andb_false_r.
  - intros lease t' b H. unfold heartbeat_job in H. inv_ok.
    match goal with H : update_where _ _ _ = Ok ?x |- _ => destruct x as [t1 n]; rename H into Hup end.
    match goal with H : validate_lease_seconds _ = Ok ?x |- _ => rename H into Hval, x into s end.
    match goal with H : add_seconds_job _ _ = Ok ?x |- _ => rename H into Ha, x into e end.
    injection H as <- <-.
    rewrite (update_rows_ext _ (fun k => String.eqb (j_id k) (j_id j)
      && (bool_decide (j_owner k = Some A) && bool_decide (j_state k ∈ [Leased; Running])
          && col_ge (j_expires k) (strftime v)))) in Hup by (intros; by rewrite !andb_assoc).
    apply (update_job _ _ _ _ j) in Hup; [|done..].
    rewrite Ho, Hs, He in Hup. cbn [col_ge] in Hup. subst now.
    rewrite str_le_epoch, (proj2 (Z.leb_le _ _)), !bool_decide_true in Hup by (done || elem_list).
    destruct Hup as [-> ->]. split; [done|]. exists s, e.
    destruct lease; try discriminate. simpl in Hval. destruct (_ && _); [|discriminate].
    injection Hval as ->. unfold add_seconds_job in Ha.
    destruct (add_seconds (strftime v) s); [|discriminate]. by injection Ha as ->.
Qed.

(** ** Retries *)

Lemma make_retry_policy_ok b m p :
  make_retry_policy b m = Ok p -> 0 < base_delay_seconds p <= max_delay_seconds p.
Proof.
  unfold make_retry_policy. intros H. destruct b, m; try discriminate.
  destruct (_ || _) eqn:E; [discriminate|]. injection H as <-. simpl.
  rewrite orb_false_iff, Z.leb_gt, Z.ltb_ge in E. done.
Qed.

Lemma retry_delay_mono p m n :
  0 < base_delay_seconds p -> m <= n -> retry_delay_seconds m p <= retry_delay_seconds n p.
Proof.
  intros Hb Hmn. unfold retry_delay_seconds.
  assert (2 ^ Z.max (m - 1) 0 <= 2 ^ Z.max (n - 1) 0) by (apply Z.pow_le_mono_r; lia). nia.
Qed.

Lemma retry_delay_bounds p n :
  0 < base_delay_seconds p <= max_delay_seconds p ->
  base_delay_seconds p <= retry_delay_seconds n p <= max_delay_seconds p.
Proof.
  intros Hb. unfold retry_delay_seconds.
  pose proof (Z.pow_pos_nonneg 2 (Z.max (n - 1) 0)). nia.
Qed.

(** The retry policy as the queue sees it: with a policy the constructor accepts, the
    delay is between the base and the maximum and never decreases with the attempts; a
    transient failure with attempts left makes the job retrying, and it becomes runnable again
    exactly when that delay has passed; any other failure is final. *)
Theorem finish_attempt_backoff (t : list job) j now cls b m p t' s u :
  make_retry_policy b m = Ok p ->
  NoDup (j_id <$> t) -> j ∈ t -> now = strftime u -> canonical_instant u ->
  finish_attempt t (j_id j) now cls p = Ok (t', s) ->
  (forall n k, n <= k -> base_delay_seconds p <= retry_delay_seconds n p /\
     retry_delay_seconds n p <= retry_delay_seconds k p <= max_delay_seconds p) /\
  exists j', t' = put_row j' t /\ j_id j' = j_id j /\ j_state j' = s /\ j_owner j' = None /\
    j_attempts j' = j_attempts j /\
    if String.eqb cls "transient" && (j_attempts j <? j_max j)
    then s = Retrying /\ forall v, canonical_instant v ->
           runnable_now (strftime v) j'
           = (epoch u + retry_delay_seconds (j_attempts j) p <=? epoch v)
    else s = Failed /\ forall v, runnable_now v j' = false.
Proof.
  intros Hp Hnd Hj -> Hu H. apply make_retry_policy_ok in Hp. split.
  { intros n k Hnk. pose proof (retry_delay_mono p n k).
    pose proof (retry_delay_bounds p n). pose proof (retry_delay_bounds p k). lia. }
  unfold finish_attempt in H. inv_ok.
  match goal with H : get_job t _ = Ok _ |- _ => rewrite (get_job_unique t _ j) in H by done; injection H as <- end.
  match goal with H : update_where _ _ _ = Ok ?x |- _ => destruct x as [t1 n]; rename H into Hup end.
  injection H as <- <-.
  rewrite (update_rows_ext _ (fun k => String.eqb (j_id k) (j_id j) && true)) in Hup
    by (intros; by rewrite andb_true_r).
  apply (update_job (fun _ => true) _ _ _ j) in Hup; [|done..].
  destruct Hup as [-> _]. eexists; repeat split; simpl.
  match goal with H : (if ?c then _ else Ok None) = Ok _ |- _ => rename H into Hra; destruct c eqn:Ec end.
  - inv_ok. split; [done|]. intros v Hv.
    match goal with H : add_seconds_job _ _ = Ok ?x |- _ => rename H into Ha, x into e end.
    unfold add_seconds_job in Ha. destruct (add_seconds _ _) eqn:Eadd; [|discriminate].
    injection Ha as ->. eapply add_seconds_spec in Eadd as (w & Hw & -> & Hepoch);
      [|by apply strptime_strftime|apply Hu|pose proof (retry_delay_bounds p (j_attempts j)); lia].
    unfold runnable_now. cbn [j_state j_retry_after j_expires col_le col_lt].
    rewrite str_le_epoch by done. rewrite Hepoch.
    rewrite (bool_decide_true (Retrying = Retrying)), !bool_decide_false by (done || set_solver).
    simpl. by rewrite orb_false_r.
  - split; [done|]. intros v. unfold runnable_now. cbn [j_state].
    rewrite !bool_decide_false by (done || set_solver). done.
Qed.

(** ** Idempotent creation *)

Lemma find_key_unique t key j :
  NoDup (j_key <$> t) -> j ∈ t -> j_key j = key ->
  List.find (fun k => String.eqb (j_key k) key) t = Some j.
Proof.
  intros Hnd Hj <-. induction t as [|k t IH]; [by apply elem_of_nil in Hj|].
  rewrite fmap_cons, NoDup_cons in Hnd. destruct Hnd as [Hk Hnd]. simpl.
  destruct (String.eqb_spec (j_key k) (j_key j)) as [He|He].
  - apply elem_of_cons in Hj as [->|Hj]; [done|].
    destruct Hk. rewrite He. by apply list_elem_of_fmap_2.
  - apply elem_of_cons in Hj as [->|Hj]; [done|]. auto.
Qed.

Lemma create_or_get_existing cases t id type input key now c m j s :
  jobs_wf t -> j ∈ t -> j_key j = key -> canonical_json input = Ok s ->
  create_or_get_job cases t id type input key now c m
  = if String.eqb (j_type j) type && bool_decide (j_case j = c) && String.eqb (j_input j) s
    then Ok (t, j) else Err (JobStateError "idempotency key reused for different job input").
Proof.
  intros (Hi & Hk & _) Hj Hkey Hs. unfold create_or_get_job.
  assert (create_job cases t id type input key now c m = Err IntegrityError) as ->.
  { unfold create_job. rewrite Hs. simpl.
    assert (existsb (fun k => String.eqb (j_key k) key) t = true) as ->; [|done].
    apply existsb_elem. exists j. by rewrite Hkey, String.eqb_refl. }
  rewrite Hs. simpl. rewrite (find_key_unique t key j) by done.
  rewrite (get_job_unique t (j_id j) j) by done. done.
Qed.

Lemma create_or_get_key cases t id type input key now c m t' j :
  jobs_wf t -> create_or_get_job cases t id type input key now c m = Ok (t', j) ->
  jobs_wf t' /\ j ∈ t' /\ j_key j = key /\ j_type j = type /\ j_case j = c /\
  canonical_json input = Ok (j_input j).
Proof.
  intros Hwf H. unfold create_or_get_job in H. inv_ok.
  match goal with H : canonical_json _ = Ok ?x |- _ => rename H into Hs, x into s end.
  destruct (create_job cases t id type input key now c m) as [t1|e] eqn:E.
  - inv_ok. match goal with H : get_job _ _ = Ok _ |- _ => rename H into Hg end.
    assert (Hwf' := create_job_wf _ _ _ _ _ _ _ _ _ _ Hwf E).
    apply create_job_ok in E as (s' & Hs' & -> & _). rewrite Hs in Hs'. injection Hs' as <-.
    rewrite (get_job_unique _ id (Job id c type Pending s key 0 m None None None None now now)) in Hg
      by (apply Hwf' || (apply elem_of_app; right; left) || done).
    injection Hg as <-. split; [done|]. split; [apply elem_of_app; right; left|]. done.
  - destruct e; try discriminate. destruct (List.find _ t) as [k|] eqn:F; [|discriminate].
    inv_ok. match goal with H : get_job _ _ = Ok ?x |- _ => rename H into Hg, x into k' end.
    apply List.find_some in F as [Hk Hkey]. rewrite <- list_elem_of_In in Hk.
    rewrite (get_job_unique t _ k) in Hg by (done || apply Hwf). injection Hg as <-.
    match goal with H : (if ?b then _ else _) = _ |- _ => destruct b eqn:Hb; inv_ok end.
    rewrite !andb_true_iff, !String.eqb_eq, bool_decide_eq_true in Hb.
    apply String.eqb_eq in Hkey. destruct Hb as [[? ?] ?]. repeat split; congruence || apply Hwf || done.
Qed.

(** Creation is idempotent: after [create_or_get_job] returned a job for a key, any later
    call with that key, whatever identifier, time and attempt limit it carries, leaves the
    table as it is and returns that same job when type, case and canonical input agree, and
    is refused otherwise. *)
Theorem create_or_get_idempotent cases t id type input key now c m t1 j :
  jobs_wf t -> create_or_get_job cases t id type input key now c m = Ok (t1, j) ->
  forall id' type' input' now' c' m' s', canonical_json input' = Ok s' ->
  create_or_get_job cases t1 id' type' input' key now' c' m'
  = if String.eqb type type' && bool_decide (c = c') && bool_decide (canonical_json input = Ok s')
    then Ok (t1, j) else Err (JobStateError "idempotency key reused for different job input").
Proof.
  intros Hwf H id' type' input' now' c' m' s' Hs'.
  destruct (create_or_get_key _ _ _ _ _ _ _ _ _ _ _ Hwf H) as (Hwf' & Hj & Hk & Ht & Hc & Hs).
  rewrite (create_or_get_existing _ _ _ _ _ _ _ _ _ j s' Hwf' Hj Hk Hs').
  rewrite Ht, Hc, Hs. destruct (String.eqb_spec (j_input j) s') as [<-|Hn].
  - by rewrite (bool_decide_true (Ok _ = Ok _)).
  - by rewrite (bool_decide_false (Ok _ = Ok _)) by congruence.
Qed.

(** The stage idempotency key determines the case, the stage and the input up to the
    order of dictionary keys: two stages share a key only when they agree on all three. *)
Theorem stage_idempotency_key_inj c s v c' s' v' k :
  wf_value v -> wf_value v' ->
  stage_idempotency_key c s v = Ok k -> stage_idempotency_key c' s' v' = Ok k ->
  c = c' /\ s = s' /\ canon v = canon v'.
Proof.
  unfold stage_idempotency_key, canonical_json. intros Hv Hv' H H'.
  destruct (dumps (VDict _)) eqn:E; [injection H as ->|discriminate].
  destruct (dumps (VDict [("case_id", VStr c'); _; _])) eqn:E'; [injection H' as ->|discriminate].
  assert (Hwf : forall c s v, wf_value v ->
    wf_value (VDict [("case_id", VStr c); ("input", v); ("stage", VStr s)])).
  { intros c0 s0 v0 H0. apply wf_dict_Forall. split; [|by repeat constructor].
    by apply (bool_decide_unpack (NoDup ["case_id"; "input"; "stage"])). }
  pose proof (dumps_inj _ _ _ (Hwf c s v Hv) (Hwf c' s' v' Hv') E E') as He.
  cbn [canon map] in He.
  by injection He.
Qed.

(** Head-of-line blocking: when the first runnable row has exhausted its attempts, a claim
    returns no job and changes nothing, whatever other runnable rows wait behind it. *)
Theorem claim_blocked_by_exhausted_head t now row owner seconds e :
  NoDup (j_id <$> t) -> claim_select t now = Some row -> j_max row <= j_attempts row ->
  0 < seconds <= MAX_LEASE_SECONDS -> add_seconds now seconds = Ok e ->
  claim_next_job t owner now (VInt seconds) = Ok (t, None).
Proof.
  intros Hnd Hsel Hatt Hs He. unfold claim_next_job, validate_lease_seconds, add_seconds_job.
  rewrite (proj2 (andb_true_iff _ _)) by (rewrite Z.ltb_lt, Z.leb_le; done).
  cbn -[claim_update claim_select]. rewrite He. cbn -[claim_update claim_select]. rewrite Hsel.
  assert (forall k, k ∈ t -> (String.eqb (j_id k) (j_id row) && (j_attempts k <? j_max k)
    && runnable_now now k) = false) as Hno.
  { intros k Hk. destruct (String.eqb_spec (j_id k) (j_id row)) as [Hid|]; [|done].
    destruct (claim_select_min _ _ _ Hsel) as (Hin & _). rewrite (job_unique t k row) by done.
    by rewrite (proj2 (Z.ltb_ge _ _)). }
  unfold claim_update.
  destruct (update_where _ _ t) as [[t' n]|er] eqn:Hu.
  - apply update_rows_none in Hu as [-> ->]; [done|exact Hno].
  - unfold update_where in Hu. rewrite filter_b_none in Hu by exact Hno. discriminate.
Qed.

(** ** A concrete queue *)

Definition demo_now : string := strftime (DT 2026 1 1 0 0 0).
Definition demo_later : string := strftime (DT 2026 1 1 0 0 20).

(** One pending job; the same job leased; the same job running. *)
Definition demo_pending : list job :=
  ok_or (create_job [] [] "job_1" "scan" (VDict [("stage", VStr "read")]) "key_1" demo_now None 3) [].
Definition demo_leased : list job :=
  fst (ok_or (claim_next_job demo_pending "worker_a" demo_now (VInt 30)) ([], None)).
Definition demo_running : list job :=
  ok_or (transition_job demo_leased "job_1" "running" demo_later None) [].
Definition demo_done : list job :=
  ok_or (transition_job demo_running "job_1" "completed" demo_later None) [].

Lemma demo_pending_reachable : reachable (job_step []) [] demo_pending.
Proof.
  eapply reach_step; [apply reach_refl|].
  apply (step_create _ _ "job_1" "scan" (VDict [("stage", VStr "read")]) "key_1" demo_now None 3).
  by vm_compute.
Qed.

Lemma demo_leased_reachable : reachable (job_step []) [] demo_leased.
Proof.
  eapply reach_step; [apply demo_pending_reachable|].
  eapply (step_claim_next _ _ "worker_a" demo_now (VInt 30)). by vm_compute.
Qed.

Lemma demo_running_reachable : reachable (job_step []) [] demo_running.
Proof.
  eapply reach_step; [apply demo_leased_reachable|].
  eapply (step_transition _ _ "job_1" "running" demo_later None). by vm_compute.
Qed.

Lemma demo_done_step : reachable (job_step []) demo_running demo_done.
Proof.
  eapply reach_step; [apply reach_refl|].
  eapply (step_transition _ _ "job_1" "completed" demo_later None). by vm_compute.
Qed.

Definition no_job : job := Job "" None "" Pending "" "" 0 0 None None None None "" "".
Definition head_job (t : list job) : job := List.hd no_job t.

(** The demonstration tables hold one row each. *)
Lemma demo_rows :
  demo_leased = [head_job demo_leased] /\ demo_running = [head_job demo_running] /\
  demo_pending = [head_job demo_pending].
Proof. by vm_compute. Qed.

Lemma head_in t : t = [head_job t] -> head_job t ∈ t.
Proof. intros ->. left. Qed.

Lemma head_nodup t : t = [head_job t] -> NoDup (j_id <$> t).
Proof. intros ->. apply NoDup_singleton. Qed.

Lemma jobs_reachable_wf_witness : demo_running <> [] /\ jobs_wf demo_running.
Proof.
  split; [by vm_compute|]. apply (jobs_reachable_wf []). apply demo_running_reachable.
Defined.

Lemma job_history_witness :
  exists k, demo_done !! 0%nat = Some k /\ same_identity (head_job demo_running) k /\
    j_attempts (head_job demo_running) <= j_attempts k /\
    (j_state (head_job demo_running) ∈ TERMINAL_STATES -> k = head_job demo_running).
Proof.
  apply (job_history [] demo_running demo_done).
  - apply demo_running_reachable.
  - apply demo_done_step.
  - by vm_compute.
Defined.

Lemma running_job_has_no_lease_witness :
  j_owner (head_job demo_running) = None /\ j_expires (head_job demo_running) = None /\
  (forall now, runnable_now now (head_job demo_running) = false) /\
  (forall owner now lease t' b,
     heartbeat_job demo_running (j_id (head_job demo_running)) owner now lease = Ok (t', b) ->
     b = false /\ t' = demo_running).
Proof.
  apply (running_job_has_no_lease [] demo_running).
  - apply demo_running_reachable.
  - apply head_in. by vm_compute.
  - by vm_compute.
Defined.

Lemma claim_next_spec_witness :
  exists row seconds expires,
    row ∈ demo_pending /\ runnable_now demo_now row = true /\ j_attempts row < j_max row /\
    (forall k, k ∈ demo_pending -> runnable_now demo_now k = true -> claim_before row k = true) /\
    VInt 30 = VInt seconds /\ 0 < seconds <= MAX_LEASE_SECONDS /\
    add_seconds demo_now seconds = Ok expires /\
    head_job demo_leased = claimed_row row "worker_a" expires demo_now /\
    demo_leased = put_row (head_job demo_leased) demo_pending.
Proof.
  apply (claim_next_spec demo_pending "worker_a" demo_now (VInt 30) demo_leased
           (Some (head_job demo_leased))).
  - apply head_nodup. by vm_compute.
  - by vm_compute.
Defined.

Lemma live_lease_exclusive_witness :
  exists t' r, claim_next_job demo_leased "worker_b" demo_later (VInt 30) = Ok (t', r) /\
    head_job demo_leased ∈ t'.
Proof.
  exists demo_leased, None. split; [by vm_compute|].
  apply (proj1 (live_lease_exclusive demo_leased (head_job demo_leased) "worker_a"
           (DT 2026 1 1 0 0 30) (DT 2026 1 1 0 0 20)
           ltac:(apply head_nodup; by vm_compute) ltac:(apply head_in; by vm_compute)
           ltac:(by vm_compute) ltac:(by vm_compute) ltac:(by vm_compute)
           ltac:(split; [by apply datetime_ok_valid|done])
           ltac:(split; [by apply datetime_ok_valid|done]) ltac:(by vm_compute))
           "worker_b" (VInt 30) demo_leased None).
  by vm_compute.
Defined.

Definition demo_retrying : list job :=
  fst (ok_or (finish_attempt demo_leased "job_1" demo_later "transient" default_retry_policy)
         ([], Pending)).

Lemma finish_attempt_backoff_witness :
  exists j', demo_retrying = put_row j' demo_leased /\ j_id j' = "job_1" /\
    j_state j' = Retrying /\ forall v, canonical_instant v ->
      runnable_now (strftime v) j' = (epoch (DT 2026 1 1 0 0 50) <=? epoch v).
Proof.
  destruct (finish_attempt_backoff demo_leased (head_job demo_leased) demo_later "transient"
    (VInt 30) (VInt 300) default_retry_policy demo_retrying Retrying (DT 2026 1 1 0 0 20))
    as [_ (j' & Ht & Hid & Hs & _ & _ & Hv)].
  - by vm_compute.
  - apply head_nodup. by vm_compute.
  - apply head_in. by vm_compute.
  - done.
  - split; [by apply datetime_ok_valid|done].
  - by vm_compute.
  - exists j'. split; [exact Ht|]. split; [rewrite Hid; by vm_compute|]. split; [exact Hs|].
    assert (String.eqb "transient" "transient" && (j_attempts (head_job demo_leased)
      <? j_max (head_job demo_leased)) = true) as Hb by (by vm_compute).
    rewrite Hb in Hv. destruct Hv as [_ Hv]. intros v Hc. rewrite (Hv v Hc).
    f_equal; by vm_compute.
Defined.

Lemma create_or_get_idempotent_witness :
  create_or_get_job [] demo_pending "job_2" "scan" (VDict [("stage", VStr "read")]) "key_1"
    demo_later None 9 = Ok (demo_pending, head_job demo_pending).
Proof.
  assert (Hwf : jobs_wf []) by (split; [constructor|split; constructor]).
  rewrite (create_or_get_idempotent [] [] "job_1" "scan" (VDict [("stage", VStr "read")]) "key_1"
    demo_now None 3 demo_pending (head_job demo_pending) Hwf ltac:(by vm_compute)
    "job_2" "scan" (VDict [("stage", VStr "read")]) demo_later None 9
    (sq "{'stage':'read'}") ltac:(by vm_compute)).
  by vm_compute.
Defined.

Lemma stage_idempotency_key_inj_witness :
  canon (VDict [("a", VInt 1); ("b", VNone)]) = canon (VDict [("b", VNone); ("a", VInt 1)]).
Proof.
  destruct (stage_idempotency_key "case_1" "read" (VDict [("a", VInt 1); ("b", VNone)])) as [k|] eqn:E.
  - refine (proj2 (proj2 (stage_idempotency_key_inj "case_1" "read" _ "case_1" "read" _ k _ _ E _))).
    + apply wf_dict_Forall. split; [by apply (bool_decide_unpack (NoDup ["a"; "b"]))|by repeat constructor].
    + apply wf_dict_Forall. split; [by apply (bool_decide_unpack (NoDup ["b"; "a"]))|by repeat constructor].
    + rewrite <- E. by vm_compute.
  - by vm_compute in E.
Defined.
