(* ===== verification/Checkpoints.v ===== *)
(** * Checkpoints: [shared/checkpoints.py]

    Versioned checkpoint rows of restartable stages. Saving is a transaction on a
    [connection]: it supersedes the previous live row of the stage or leaves nothing behind.
    Loading trusts a row only if its integrity hash matches its fields. *)

From Stdlib Require Import ZArith Lia String Ascii.
From stdpp Require Import base list strings gmap.
From S2P Require Import Prelude PyStr Sql Json Sha256 Timestamp.

Local Open Scope string_scope.
Local Open Scope Z_scope.

(** ** Data *)

(** shared/checkpoints.py:18-23 CheckpointError: and the exceptions that pass through. *)
Inductive checkpoint_error :=
  | CheckpointError (message : string) (restart_stage : bool)
  | CkIntegrityError
  | CkOperationalError
  | CkOverflowError
  | CkRuntimeError (message : string).

Definition ck_error (m : string) : checkpoint_error := CheckpointError m true.

(** shared/catalog_schema.py:160-177 _SCHEMA_SQL: one row of the [checkpoints] table. *)
Record checkpoint := Ck {
  ck_id : string;
  ck_job : string;
  ck_fp : string;
  ck_stage : string;
  ck_version : Z;
  ck_tool : string;
  ck_toolv : string;
  ck_cursor : string;
  ck_counters : string;
  ck_blob : bytes;
  ck_digest : string;
  ck_supersedes : option string;
  ck_superseded_by : option string;
  ck_created : string;
  ck_medium : option string
}.

(** shared/catalog_schema.py:160-177 _SCHEMA_SQL: the CHECK constraints; [json_valid] holds of
    every text [json.dumps] gives and is not repeated. *)
Definition ck_check (r : checkpoint) : bool :=
  (str_len (ck_fp r) =? 64) && (0 <? ck_version r) && (str_len (ck_digest r) =? 64)
  && timestamp_check (ck_created r).

#[export] Instance checkpoint_row : TableRow checkpoint :=
  { row_id := ck_id; row_check := ck_check }.

(** shared/checkpoints.py:26-39 CheckpointRecord *)
Record CheckpointRecord := CR {
  cr_id : string;
  cr_job : string;
  cr_fp : string;
  cr_stage : string;
  cr_version : Z;
  cr_tool : string;
  cr_toolv : string;
  cr_cursor : value;
  cr_counters : value;
  cr_blob : bytes;
  cr_integrity : string;
  cr_supersedes : option string
}.

(** shared/checkpoints.py:13-13 SUPPORTED_CHECKPOINT_VERSION *)
Definition SUPPORTED_CHECKPOINT_VERSION : Z := 1.
(** shared/checkpoints.py:15-15 MAX_CHECKPOINT_TEXT *)
Definition MAX_CHECKPOINT_TEXT : Z := 128.

(** ** Operations *)

(** shared/checkpoints.py:208-212 _canonical_json *)
Definition ck_canonical_json (payload : value) : result checkpoint_error string :=
  match dumps payload with
  | Some s => Ok s
  | None => Err (ck_error "checkpoint payload is not canonical JSON")
  end.
#[global] Arguments ck_canonical_json : simpl never.

(** The text test of [_validate_checkpoint_inputs]. *)
Definition bad_checkpoint_text (s : string) : bool :=
  String.eqb s "" || (MAX_CHECKPOINT_TEXT <? str_len s) || char_in "000"%char s.

(** shared/checkpoints.py:215-245 _validate_checkpoint_inputs *)
Definition validate_checkpoint_inputs (source_fingerprint stage : string) (version : value)
    (tool_name tool_version : string) : result checkpoint_error Z :=
  _ ← raise_if (negb (is_sha256_hex source_fingerprint))
        (ck_error "checkpoint source fingerprint is invalid");
  v ← match version with
      | VInt v => if v <=? 0 then Err (ck_error "checkpoint version is invalid") else Ok v
      | _ => Err (ck_error "checkpoint version is invalid")
      end;
  _ ← raise_if (bad_checkpoint_text stage) (ck_error "checkpoint stage is invalid");
  _ ← raise_if (bad_checkpoint_text tool_name) (ck_error "checkpoint tool name is invalid");
  _ ← raise_if (bad_checkpoint_text tool_version) (ck_error "checkpoint tool version is invalid");
  Ok v.

(** A field of the hashed message: its length in eight bytes, then its bytes. *)
Definition frame (b : bytes) : bytes := (to_bytes_big 8 (zlen b) ++ b)%list.

(** The message [_integrity_hash] feeds to SHA-256. *)
Definition integrity_fields (fp stage : string) (version : Z) (tool toolv cursor_json counters_json : string)
    (blob : bytes) : list bytes :=
  ([utf8 fp; utf8 stage; utf8 (str_of_Z version); utf8 tool; utf8 toolv; utf8 cursor_json;
    utf8 counters_json] ++ [blob])%list.

(** The fields, each behind its length. *)
Definition integrity_message fp st v tl tv cu co b : bytes := concat (frame <$> integrity_fields fp st v tl tv cu co b).

(** shared/checkpoints.py:248-274 _integrity_hash *)
Definition integrity_hash (fp stage : string) (version : Z) (tool toolv cursor_json counters_json : string)
    (blob : bytes) : string :=
  sha256_hex (integrity_message fp stage version tool toolv cursor_json counters_json blob).
#[global] Arguments integrity_hash : simpl never.

(** The rows [WHERE job_id = ? AND stage = ? AND superseded_by_checkpoint_id IS NULL]. *)
Definition live_for (job stage : string) (r : checkpoint) : bool :=
  String.eqb (ck_job r) job && String.eqb (ck_stage r) stage && bool_decide (ck_superseded_by r = None).

Definition ck_order (r : checkpoint) : string * string := (ck_created r, ck_id r).

(** The row both queries take: [ORDER BY created_at DESC, checkpoint_id DESC LIMIT 1]. *)
Definition latest_row (t : list checkpoint) (job stage : string) : option checkpoint :=
  first_by (row_before ck_order true) (filter_b (live_for job stage) t).

(** shared/checkpoints.py:171-181 _latest_checkpoint_id *)
Definition latest_checkpoint_id (t : list checkpoint) (job stage : string) : option string :=
  ck_id <$> latest_row t job stage.

(** The INSERT: parameters beyond 64 bits, the foreign key to [jobs], the constraints. *)
Definition insert_checkpoint (jobs : list string) (r : checkpoint) (t : list checkpoint)
    : result checkpoint_error (list checkpoint) :=
  _ ← raise_if (2 ^ 63 <=? ck_version r) CkOverflowError;
  _ ← raise_if (negb (existsb (String.eqb (ck_job r)) jobs)) CkIntegrityError;
  insert_row CkIntegrityError r t.

(** The UPDATE that marks the previous row. *)
Definition mark_superseded (id previous : string) (t : list checkpoint)
    : result checkpoint_error (list checkpoint * Z) :=
  update_rows CkIntegrityError (fun r => String.eqb (ck_id r) previous)
    (fun r => Ck (ck_id r) (ck_job r) (ck_fp r) (ck_stage r) (ck_version r) (ck_tool r)
      (ck_toolv r) (ck_cursor r) (ck_counters r) (ck_blob r) (ck_digest r) (ck_supersedes r)
      (Some id) (ck_created r) (ck_medium r)) t.

(** The statements between BEGIN and COMMIT, as the table they leave or the exception; the
    column [medium_identity_json] is NULL here and filled by [MediaCheckpoints]. *)
Definition save_body (jobs : list string) (id job fp stage : string) (version : Z)
    (tool toolv cursor_json counters_json : string) (blob : bytes) (digest created_at : string)
    (medium : option string) (inject_failure_after_insert : bool) (t : list checkpoint)
    : result checkpoint_error (list checkpoint) :=
  let previous := latest_checkpoint_id t job stage in
  t1 ← insert_checkpoint jobs (Ck id job fp stage version tool toolv cursor_json counters_json blob
                                 digest previous None created_at medium) t;
  _ ← raise_if inject_failure_after_insert (CkRuntimeError "injected checkpoint failure");
  match previous with
  | None => Ok t1
  | Some p => '(t2, _) ← mark_superseded id p t1; Ok t2
  end.

(** shared/checkpoints.py:80-121 save_checkpoint: BEGIN IMMEDIATE, the body, COMMIT, and on
    any exception ROLLBACK; the table is the connection's view of it. *)
Definition in_transaction (c : connection (list checkpoint))
    (body : list checkpoint -> result checkpoint_error (list checkpoint))
    : connection (list checkpoint) * result checkpoint_error unit :=
  let fail c e := match rollback c with Some c' => (c', Err e) | None => (c, Err CkOperationalError) end in
  match begin_ c with
  | None => fail c CkOperationalError
  | Some c1 =>
    match body (current c1) with
    | Err e => fail c1 e
    | Ok t => match commit (Conn t (snapshot c1)) with
              | Some c2 => (c2, Ok tt)
              | None => fail c1 CkOperationalError
              end
    end
  end.

(** shared/checkpoints.py:42-121 save_checkpoint *)
Definition save_checkpoint (jobs : list string) (c : connection (list checkpoint))
    (id job fp stage tool toolv : string) (cursor counters : value) (blob : bytes)
    (created_at : string) (checkpoint_version : value) (inject_failure_after_insert : bool)
    : connection (list checkpoint) * result checkpoint_error unit :=
  match (v ← validate_checkpoint_inputs fp stage checkpoint_version tool toolv;
         cu ← ck_canonical_json cursor; co ← ck_canonical_json counters; Ok (v, cu, co)) with
  | Err e => (c, Err e)
  | Ok (v, cursor_json, counters_json) =>
    let digest := integrity_hash fp stage v tool toolv cursor_json counters_json blob in
    in_transaction c (save_body jobs id job fp stage v tool toolv cursor_json counters_json blob
                        digest created_at None inject_failure_after_insert)
  end.

(** shared/checkpoints.py:184-205 _record_from_row *)
Definition record_from_row (r : checkpoint) : result checkpoint_error CheckpointRecord :=
  match loads (ck_cursor r), loads (ck_counters r) with
  | Some (VDict cu), Some (VDict co) =>
    Ok (CR (ck_id r) (ck_job r) (ck_fp r) (ck_stage r) (ck_version r) (ck_tool r) (ck_toolv r)
          (VDict cu) (VDict co) (ck_blob r) (ck_digest r) (ck_supersedes r))
  | _, _ => Err (ck_error "checkpoint record is malformed; restart stage")
  end.

(** shared/checkpoints.py:124-168 load_latest_checkpoint *)
Definition load_latest_checkpoint (t : list checkpoint) (job fp stage tool toolv : string)
    : result checkpoint_error CheckpointRecord :=
  match latest_row t job stage with
  | None => Err (ck_error "no checkpoint is available; restart stage")
  | Some row =>
    record ← record_from_row row;
    _ ← raise_if (negb (cr_version record =? SUPPORTED_CHECKPOINT_VERSION))
          (ck_error "unsupported checkpoint version; restart stage");
    _ ← raise_if (negb (String.eqb (cr_fp record) fp))
          (ck_error "checkpoint source fingerprint mismatch; restart stage");
    _ ← raise_if (negb (String.eqb (cr_tool record) tool) || negb (String.eqb (cr_toolv record) toolv))
          (ck_error "checkpoint tool version mismatch; restart stage");
    cu ← ck_canonical_json (cr_cursor record);
    co ← ck_canonical_json (cr_counters record);
    let expected := integrity_hash (cr_fp record) (cr_stage record) (cr_version record)
      (cr_tool record) (cr_toolv record) cu co (cr_blob record) in
    _ ← raise_if (negb (String.eqb expected (cr_integrity record)))
          (ck_error "checkpoint integrity hash mismatch; restart stage");
    Ok record
  end.

(** ** The hashed message determines the fields *)

Lemma concat_frame x (l : list bytes) :
  concat (frame x :: l) = (to_bytes_big 8 (zlen x) ++ x ++ concat l)%list.
Proof. unfold frame. cbn [concat]. by rewrite app_assoc. Qed.

Lemma frames_inj (l k : list bytes) :
  length l = length k ->
  Forall (fun b => zlen b < 2 ^ 64) l -> Forall (fun b => zlen b < 2 ^ 64) k ->
  concat (frame <$> l) = concat (frame <$> k) -> l = k.
Proof.
  revert k; induction l as [|x l IH]; intros [|y k] Hlen Hl Hk He; try done.
  rewrite Forall_cons in Hl, Hk. destruct Hl as [Hx Hl], Hk as [Hy Hk].
  rewrite !fmap_cons, !concat_frame in He.
  apply app_inj_1 in He as [Hn He]; [|by rewrite !length_to_bytes_big].
  apply to_bytes_big_inj in Hn; [|change (256 ^ Z.of_nat 8) with (2 ^ 64); pose proof (zlen_nonneg x);
    lia|change (256 ^ Z.of_nat 8) with (2 ^ 64); pose proof (zlen_nonneg y); lia].
  apply app_inj_1 in He as [-> He]; [|unfold zlen in Hn; lia].
  f_equal. apply IH; auto.
Qed.

Lemma str_of_Z_inj a b : 0 <= a -> 0 <= b -> str_of_Z a = str_of_Z b -> a = b.
Proof. intros Ha Hb He. apply Z_of_digits_str in Ha, Hb. congruence. Qed.

Lemma integrity_fields_inj fp st v tl tv cu co b fp' st' v' tl' tv' cu' co' b' :
  0 <= v -> 0 <= v' ->
  integrity_fields fp st v tl tv cu co b = integrity_fields fp' st' v' tl' tv' cu' co' b' ->
  fp = fp' /\ st = st' /\ v = v' /\ tl = tl' /\ tv = tv' /\ cu = cu' /\ co = co' /\ b = b'.
Proof.
  unfold integrity_fields. intros Hv Hv' He. injection He as H1 H2 H3 H4 H5 H6 H7 H8.
  apply utf8_inj in H1, H2, H3, H4, H5, H6, H7. apply str_of_Z_inj in H3; tauto.
Qed.

(** Fields short enough for their eight length bytes. *)
Definition small_fields (l : list bytes) : Prop := Forall (fun b => zlen b < 2 ^ 64) l.

Lemma integrity_hash_binding fp st v tl tv cu co b fp' st' v' tl' tv' cu' co' b' :
  0 <= v -> 0 <= v' ->
  small_fields (integrity_fields fp st v tl tv cu co b) ->
  small_fields (integrity_fields fp' st' v' tl' tv' cu' co' b') ->
  integrity_hash fp st v tl tv cu co b = integrity_hash fp' st' v' tl' tv' cu' co' b' ->
  (fp = fp' /\ st = st' /\ v = v' /\ tl = tl' /\ tv = tv' /\ cu = cu' /\ co = co' /\ b = b') \/
  collision (integrity_message fp st v tl tv cu co b) (integrity_message fp' st' v' tl' tv' cu' co' b').
Proof.
  intros Hv Hv' Hs Hs' He. unfold integrity_hash in He.
  destruct (decide (concat (frame <$> integrity_fields fp st v tl tv cu co b)
                    = concat (frame <$> integrity_fields fp' st' v' tl' tv' cu' co' b'))) as [Heq|Hne].
  - left. apply frames_inj in Heq; [|done..]. by apply integrity_fields_inj in Heq.
  - right. by split.
Qed.

(** ** Chains of checkpoints *)

(** The rows of a table: unique identifiers, at most one live row per job and stage, and
    the two link columns mirror each other. *)
Record chains (t : list checkpoint) : Prop := {
  ch_ids : NoDup (ck_id <$> t);
  ch_live : forall r s, r ∈ t -> s ∈ t -> ck_job r = ck_job s -> ck_stage r = ck_stage s ->
    ck_superseded_by r = None -> ck_superseded_by s = None -> r = s;
  ch_forward : forall r i, r ∈ t -> ck_superseded_by r = Some i ->
    exists s, s ∈ t /\ ck_id s = i /\ ck_supersedes s = Some (ck_id r) /\
      ck_job s = ck_job r /\ ck_stage s = ck_stage r;
  ch_back : forall s i, s ∈ t -> ck_supersedes s = Some i ->
    exists r, r ∈ t /\ ck_id r = i /\ ck_superseded_by r = Some (ck_id s)
}.

Lemma ck_unique (t : list checkpoint) r s :
  NoDup (ck_id <$> t) -> r ∈ t -> s ∈ t -> ck_id r = ck_id s -> r = s.
Proof. exact (row_unique t r s). Qed.

Lemma live_for_iff job stage r :
  live_for job stage r = true <-> ck_job r = job /\ ck_stage r = stage /\ ck_superseded_by r = None.
Proof.
  unfold live_for. rewrite !andb_true_iff, !String.eqb_eq, bool_decide_eq_true. tauto.
Qed.

Lemma latest_row_some t job stage r :
  latest_row t job stage = Some r ->
  r ∈ t /\ ck_job r = job /\ ck_stage r = stage /\ ck_superseded_by r = None.
Proof.
  unfold latest_row. intros [H _]%first_by_min. apply elem_of_filter_b in H as [Hr Hl].
  split; [done|]. by apply live_for_iff.
Qed.

Lemma latest_row_none t job stage r :
  latest_row t job stage = None -> r ∈ t -> ck_job r = job -> ck_stage r = stage ->
  ck_superseded_by r <> None.
Proof.
  unfold latest_row. intros Hn%first_by_none Hr Hj Hs Hl.
  assert (r ∈ filter_b (live_for job stage) t) as Hin.
  { apply elem_of_filter_b. split; [done|]. by apply live_for_iff. }
  rewrite Hn in Hin. by apply elem_of_nil in Hin.
Qed.

(** In a table of chains the live row is the one the queries take. *)
Lemma latest_row_live t r :
  chains t -> r ∈ t -> ck_superseded_by r = None -> latest_row t (ck_job r) (ck_stage r) = Some r.
Proof.
  intros Hc Hr Hl. destruct (latest_row t _ _) as [s|] eqn:E.
  - apply latest_row_some in E as (Hs & Hj & Hst & Hls). f_equal. by apply (ch_live t Hc).
  - exfalso. by eapply latest_row_none.
Qed.

Definition superseded (r : checkpoint) (id : string) : checkpoint :=
  Ck (ck_id r) (ck_job r) (ck_fp r) (ck_stage r) (ck_version r) (ck_tool r) (ck_toolv r)
    (ck_cursor r) (ck_counters r) (ck_blob r) (ck_digest r) (ck_supersedes r) (Some id) (ck_created r)
    (ck_medium r).

(** What the body leaves: the new row, live, and the previous live row marked. *)
Lemma save_body_ok jobs id job fp stage v tool toolv cu co blob digest now medium inject t t' :
  NoDup (ck_id <$> t) ->
  save_body jobs id job fp stage v tool toolv cu co blob digest now medium inject t = Ok t' ->
  let new p := Ck id job fp stage v tool toolv cu co blob digest p None now medium in
  id ∉ ck_id <$> t /\ inject = false /\
  match latest_row t job stage with
  | None => t' = (t ++ [new None])%list
  | Some r => t' = (put_row (superseded r id) t ++ [new (Some (ck_id r))])%list
  end.
Proof.
  unfold save_body, insert_checkpoint, latest_checkpoint_id. intros Hnd H. inv_ok.
  match goal with H : insert_row _ _ _ = Ok _ |- _ => rename H into Hi end.
  apply insert_row_ok in Hi as (-> & Hc & Hid). cbn [row_id checkpoint_row ck_id] in Hid.
  split; [done|]. split; [done|].
  destruct (latest_row t job stage) as [r|] eqn:E; cbn [fmap option_fmap option_map] in *; [|by injection H as <-].
  inv_ok. match goal with H : mark_superseded _ _ _ = Ok ?x |- _ => destruct x as [t2 n]; rename H into Hm end.
  injection H as <-. unfold mark_superseded in Hm. apply update_rows_ok in Hm as (-> & _ & _).
  apply latest_row_some in E as (Hr & Hj & Hs & Hl). rewrite fmap_app. f_equal.
  - apply list_fmap_ext. intros i k Hk%list_elem_of_lookup_2. cbn [row_id checkpoint_row ck_id superseded].
    destruct (String.eqb_spec (ck_id k) (ck_id r)) as [He|]; [|done].
    by rewrite (ck_unique t k r Hnd Hk Hr He).
  - simpl. destruct (String.eqb_spec id (ck_id r)) as [->|]; [|done].
    destruct Hid. by apply list_elem_of_fmap_2.
Qed.

(** The members of the table a superseding save leaves. *)
Lemma elem_of_superseded t r id n k :
  NoDup (ck_id <$> t) -> r ∈ t ->
  k ∈ (put_row (superseded r id) t ++ [n])%list <->
  k = superseded r id \/ (k ∈ t /\ k <> r) \/ k = n.
Proof.
  intros Hnd Hr. rewrite elem_of_app, list_elem_of_singleton.
  rewrite (elem_of_put_row t (superseded r id)) by (done || exact (list_elem_of_fmap_2 ck_id t r Hr)).
  cbn [row_id checkpoint_row ck_id superseded].
  split; (intros [[?|[? Hne]]|?] || intros [?|[[? Hne]|?]]); auto.
  - right. left. split; [done|]. by intros ->.
  - left. right. split; [done|]. intros He. by apply Hne, (ck_unique t).
Qed.

Lemma superseded_member t r id n s :
  NoDup (ck_id <$> t) -> r ∈ t -> s ∈ t ->
  exists s', s' ∈ (put_row (superseded r id) t ++ [n])%list /\ ck_id s' = ck_id s /\
    ck_supersedes s' = ck_supersedes s /\ ck_job s' = ck_job s /\ ck_stage s' = ck_stage s /\
    (s <> r -> ck_superseded_by s' = ck_superseded_by s).
Proof.
  intros Hnd Hr Hs. setoid_rewrite (elem_of_superseded t r id n); [|done..].
  destruct (decide (ck_id s = ck_id r)) as [He|He].
  - exists (superseded r id). assert (s = r) as -> by (by apply (ck_unique t)). simpl; tauto.
  - exists s. split; [|tauto]. right; left. split; [done|]. congruence.
Qed.

Lemma chains_supersede t r n :
  chains t -> r ∈ t -> ck_superseded_by r = None -> ck_id n ∉ ck_id <$> t ->
  ck_job n = ck_job r -> ck_stage n = ck_stage r ->
  ck_supersedes n = Some (ck_id r) -> ck_superseded_by n = None ->
  chains (put_row (superseded r (ck_id n)) t ++ [n])%list.
Proof.
  intros [Hid Hlive Hfw Hbk] Hr Hrl Hn Hj Hst Hsup Hnl.
  pose proof (fun k => elem_of_superseded t r (ck_id n) n k Hid Hr) as Hin.
  pose proof (fun s Hs => superseded_member t r (ck_id n) n s Hid Hr Hs) as Hmem.
  split.
  - rewrite fmap_app. apply NoDup_app.
    assert (ck_id <$> put_row (superseded r (ck_id n)) t = ck_id <$> t) as ->
      by exact (put_row_ids t (superseded r (ck_id n))).
    split; [done|]. split; [|apply NoDup_singleton]. by intros x Hx ->%list_elem_of_singleton.
  - intros a b Ha Hb Hab Hab' La Lb. apply Hin in Ha, Hb.
    destruct Ha as [->|[[Ha Hna]| ->]]; [done| |]; destruct Hb as [->|[[Hb Hnb]| ->]]; try done.
    + by apply Hlive.
    + destruct Hna. apply Hlive; congruence.
    + destruct Hnb. apply Hlive; congruence.
  - intros a i Ha Hi. apply Hin in Ha. destruct Ha as [->|[[Ha Hna]| ->]].
    + injection Hi as <-. exists n. split; [apply Hin; tauto|]. done.
    + destruct (Hfw a i Ha Hi) as (s & Hs & Hsi & Hss & Hsj & Hsst).
      destruct (Hmem s Hs) as (s' & Hs' & E1 & E2 & E3 & E4 & _).
      exists s'. split; [done|]. repeat split; congruence.
    + congruence.
  - intros s i Hs Hi. apply Hin in Hs.
    assert (forall s0, s0 ∈ t -> ck_supersedes s0 = Some i -> exists q,
      q ∈ (put_row (superseded r (ck_id n)) t ++ [n])%list /\ ck_id q = i /\
      ck_superseded_by q = Some (ck_id s0)) as Hold.
    { intros s0 Hs0 Hi0. destruct (Hbk s0 i Hs0 Hi0) as (q & Hq & Hqi & Hqs).
      exists q. split; [|done]. apply Hin. right; left. split; [done|]. congruence. }
    destruct Hs as [->|[[Hs Hna]| ->]]; [by apply (Hold r)|by apply Hold|].
    exists (superseded r (ck_id n)). split; [apply Hin; tauto|]. simpl. split; congruence.
Qed.

Lemma chains_first t n :
  chains t -> ck_id n ∉ ck_id <$> t ->
  (forall r, r ∈ t -> ck_job r = ck_job n -> ck_stage r = ck_stage n -> ck_superseded_by r <> None) ->
  ck_supersedes n = None -> ck_superseded_by n = None -> chains (t ++ [n])%list.
Proof.
  intros [Hid Hlive Hfw Hbk] Hn Hno Hsup Hnl. split.
  - rewrite fmap_app. apply NoDup_app. split; [done|]. split; [|apply NoDup_singleton].
    by intros x Hx ->%list_elem_of_singleton.
  - intros a b. rewrite !elem_of_app, !list_elem_of_singleton.
    intros [Ha| ->] [Hb| ->] Hj Hs La Lb; [by apply Hlive| | |done].
    + by destruct (Hno a).
    + by destruct (Hno b).
  - intros a i. rewrite elem_of_app, list_elem_of_singleton. intros [Ha| ->] Hi; [|congruence].
    destruct (Hfw a i Ha Hi) as (s & Hs & ?). exists s. rewrite elem_of_app. tauto.
  - intros a i. rewrite elem_of_app, list_elem_of_singleton. intros [Ha| ->] Hi; [|congruence].
    destruct (Hbk a i Ha Hi) as (s & Hs & ?). exists s. rewrite elem_of_app. tauto.
Qed.

Lemma save_body_chains jobs id job fp stage v tool toolv cu co blob digest now medium inject t t' :
  chains t ->
  save_body jobs id job fp stage v tool toolv cu co blob digest now medium inject t = Ok t' ->
  chains t' /\ exists p, let n := Ck id job fp stage v tool toolv cu co blob digest p None now medium in
    n ∈ t' /\ latest_row t' job stage = Some n.
Proof.
  intros Hc H. apply save_body_ok in H as (Hid & _ & Ht); [|apply Hc].
  assert (forall p, chains t' -> Ck id job fp stage v tool toolv cu co blob digest p None now medium ∈ t' ->
    latest_row t' job stage = Some (Ck id job fp stage v tool toolv cu co blob digest p None now medium)) as Hlast.
  { intros p Hc' Hin. by apply (latest_row_live t' _ Hc' Hin). }
  destruct (latest_row t job stage) as [r|] eqn:E; subst t'.
  - apply latest_row_some in E as (Hr & Hj & Hs & Hl).
    match goal with |- chains (_ ++ [?m]) /\ _ => pose proof (chains_supersede t r m Hc Hr Hl Hid) as Hc' end.
    simpl in Hc'. specialize (Hc' (eq_sym Hj) (eq_sym Hs) eq_refl eq_refl). split; [exact Hc'|].
    exists (Some (ck_id r)). split; [|apply Hlast; [done|]]; apply elem_of_app; right; left.
  - match goal with |- chains (_ ++ [?m]) /\ _ => assert (chains (t ++ [m])) as Hc' end.
    { apply chains_first; [done|done| |done|done]. intros r Hr Hj Hs. by eapply latest_row_none. }
    split; [done|]. exists None. split; [|apply Hlast; [done|]]; apply elem_of_app; right; left.
Qed.

(** ** Properties *)

Lemma in_transaction_closed c body :
  snapshot c = None ->
  in_transaction c body = match body (current c) with
                          | Ok t => (Conn t None, Ok tt)
                          | Err e => (c, Err e)
                          end.
Proof.
  destruct c as [t s]. simpl. intros ->. unfold in_transaction. simpl.
  by destruct (body t).
Qed.

Lemma in_transaction_open c body outer :
  snapshot c = Some outer -> in_transaction c body = (Conn outer None, Err CkOperationalError).
Proof. destruct c as [t s]. simpl. by intros ->. Qed.

(** Saving is atomic and keeps the chains: on a connection outside a transaction a save
    leaves no transaction open, a failed save (invalid input, violated constraint, injected
    failure after the insert) leaves the table exactly as it was, and a successful one adds
    one row and keeps identifiers unique, one live row per job and stage, and the supersession
    links symmetric. Called inside a caller's transaction, the save fails and rolls the
    caller's uncommitted work back. *)
Theorem save_checkpoint_transaction jobs c id job fp stage tool toolv cursor counters blob now ver inject c' res :
  chains (current c) ->
  save_checkpoint jobs c id job fp stage tool toolv cursor counters blob now ver inject = (c', res) ->
  match snapshot c with
  | None => snapshot c' = None /\ chains (current c') /\ (is_ok res = false -> c' = c) /\
      (is_ok res = true -> inject = false /\ length (current c') = S (length (current c)))
  | Some outer => is_ok res = false /\ (c' = c \/ c' = Conn outer None)
  end.
Proof.
  intros Hc H. unfold save_checkpoint in H.
  destruct (_ ≫= _) as [[[v cu] co]|e].
  2: { injection H as <- <-. destruct (snapshot c) eqn:E; [by auto|].
       split; [done|]. split; [done|]. by split. }
  destruct (snapshot c) as [outer|] eqn:E.
  - rewrite (in_transaction_open _ _ outer E) in H. injection H as <- <-. auto.
  - rewrite (in_transaction_closed _ _ E) in H.
    destruct (save_body _ _ _ _ _ _ _ _ _ _ _ _ _ _ _ _) as [t|e] eqn:Hb; injection H as <- <-.
    + destruct (save_body_chains _ _ _ _ _ _ _ _ _ _ _ _ _ _ _ _ _ Hc Hb) as [Hc' _].
      destruct (save_body_ok _ _ _ _ _ _ _ _ _ _ _ _ _ _ _ _ _ (ch_ids _ Hc) Hb) as (_ & Hi & Ht).
      split; [done|]. split; [done|]. split; [done|]. intros _. split; [done|].
      simpl. destruct (latest_row _ _ _); rewrite Ht, length_app; simpl;
        unfold put_row; rewrite ?length_fmap; lia.
    + split; [done|]. split; [done|]. by split.
Qed.

(** A saved checkpoint is the one a resume loads: after a successful save of version 1,
    loading for the same job, source fingerprint, stage and tool returns exactly the saved
    fields, with cursor and counters equal up to the order of their keys. *)
Theorem checkpoint_roundtrip jobs c id job fp stage tool toolv cursor counters blob now inject c' :
  chains (current c) -> snapshot c = None ->
  wf_value (VDict cursor) -> wf_value (VDict counters) ->
  save_checkpoint jobs c id job fp stage tool toolv (VDict cursor) (VDict counters) blob now
    (VInt SUPPORTED_CHECKPOINT_VERSION) inject = (c', Ok tt) ->
  exists digest previous,
    load_latest_checkpoint (current c') job fp stage tool toolv
    = Ok (CR id job fp stage SUPPORTED_CHECKPOINT_VERSION tool toolv (canon (VDict cursor))
            (canon (VDict counters)) blob digest previous).
Proof.
  intros Hc Hs Hwc Hwk H. unfold save_checkpoint in H.
  destruct (_ ≫= _) as [[[v cu] co]|e] eqn:Hp; [|done].
  assert (v = SUPPORTED_CHECKPOINT_VERSION /\ dumps (VDict cursor) = Some cu /\ dumps (VDict counters) = Some co)
    as (-> & Hcu & Hco).
  { inv_ok. unfold validate_checkpoint_inputs in *. unfold ck_canonical_json in *. inv_ok.
    destruct (dumps (VDict cursor)), (dumps (VDict counters)); try discriminate. inv_ok. done. }
  rewrite (in_transaction_closed _ _ Hs) in H.
  destruct (save_body _ _ _ _ _ _ _ _ _ _ _ _ _ _ _ _) as [t|e] eqn:Hb; [|done].
  injection H as <-. destruct (save_body_chains _ _ _ _ _ _ _ _ _ _ _ _ _ _ _ _ _ Hc Hb) as [_ (p & _ & Hl)].
  exists (integrity_hash fp stage SUPPORTED_CHECKPOINT_VERSION tool toolv cu co blob), p.
  unfold load_latest_checkpoint. simpl current. rewrite Hl.
  unfold record_from_row. cbn [ck_cursor ck_counters].
  rewrite (loads_dumps _ _ Hwc Hcu), (loads_dumps _ _ Hwk Hco). cbn [canon].
  change (VDict (sort_keys (map _ cursor))) with (canon (VDict cursor)).
  change (VDict (sort_keys (map _ counters))) with (canon (VDict counters)).
  cbn -[canon SUPPORTED_CHECKPOINT_VERSION]. rewrite Z.eqb_refl, !String.eqb_refl.
  cbn -[canon SUPPORTED_CHECKPOINT_VERSION]. unfold ck_canonical_json.
  rewrite !dumps_canon, Hcu, Hco by done.
  cbn -[canon SUPPORTED_CHECKPOINT_VERSION]. rewrite String.eqb_refl. done.
Qed.

(** C5. Tampering is evident: when a checkpoint loads from a row whose integrity column was
    computed for some fields (fewer than 2^64 bytes each), then the loaded fingerprint,
    stage, version, tool, tool version, blob and the canonical texts of cursor and counters
    are exactly those fields, unless the two framed messages, that of the loaded fields and that of
    the given ones, are different messages with the same SHA-256 value. *)
Theorem checkpoint_tamper_evident t job fp stage tool toolv r fp0 st0 v0 tl0 tv0 cu0 co0 b0 :
  load_latest_checkpoint t job fp stage tool toolv = Ok r ->
  cr_integrity r = integrity_hash fp0 st0 v0 tl0 tv0 cu0 co0 b0 -> 0 <= v0 ->
  small_fields (integrity_fields fp0 st0 v0 tl0 tv0 cu0 co0 b0) ->
  (forall cu co, dumps (cr_cursor r) = Some cu -> dumps (cr_counters r) = Some co ->
     small_fields (integrity_fields (cr_fp r) (cr_stage r) (cr_version r) (cr_tool r) (cr_toolv r)
                     cu co (cr_blob r))) ->
  (fp = fp0 /\ cr_fp r = fp0 /\ cr_stage r = st0 /\ cr_version r = v0 /\ tool = tl0 /\
   toolv = tv0 /\ cr_blob r = b0 /\
   dumps (cr_cursor r) = Some cu0 /\ dumps (cr_counters r) = Some co0) \/
  exists cu co, dumps (cr_cursor r) = Some cu /\ dumps (cr_counters r) = Some co /\
    collision (integrity_message (cr_fp r) (cr_stage r) (cr_version r) (cr_tool r) (cr_toolv r) cu co (cr_blob r))
              (integrity_message fp0 st0 v0 tl0 tv0 cu0 co0 b0).
Proof.
  intros H Hd Hv Hs0 Hs1. unfold load_latest_checkpoint in H.
  destruct (latest_row t job stage) as [row|]; [|done]. inv_ok. unfold ck_canonical_json in *.
  destruct (dumps (cr_cursor r)) as [cu|] eqn:Hcu; [|done].
  destruct (dumps (cr_counters r)) as [co|] eqn:Hco; [|done]. inv_ok.
  repeat match goal with H : _ || _ = false |- _ => apply orb_false_iff in H as [? ?] end.
  repeat match goal with H : negb _ = false |- _ => apply negb_false_iff in H end.
  repeat match goal with H : String.eqb _ _ = true |- _ => apply String.eqb_eq in H
                       | H : (_ =? _) = true |- _ => apply Z.eqb_eq in H end.
  match goal with H : integrity_hash _ _ _ _ _ _ _ _ = cr_integrity r |- _ => rename H into He end.
  rewrite Hd in He. apply integrity_hash_binding in He; [|unfold SUPPORTED_CHECKPOINT_VERSION in *; lia|done|by apply Hs1|done].
  destruct He as [He|He]; [left|right].
  2: { match goal with Hc : dumps (cr_cursor _) = Some ?a, Ho : dumps (cr_counters _) = Some ?b |- _ => exists a, b end. done. }
  destruct He as (?&?&?&?&?&?&?&?). repeat split; congruence.
Qed.

(** ** A concrete checkpoint *)

Definition demo_ck_fp : string := sha256_hex [].
Definition demo_ck_save : connection (list checkpoint) * result checkpoint_error unit :=
  save_checkpoint ["job_1"] (Conn [] None) "ck_1" "job_1" demo_ck_fp "enumerate" "tsk" "4.12"
    (VDict [("offset", VInt 512); ("depth", VInt 2)]) (VDict [("files", VInt 3)]) [1; 2]
    "2026-01-01T00:00:00Z" (VInt 1) false.

Lemma chains_nil : chains [].
Proof. split; [constructor|..]; intros; by exfalso; eapply not_elem_of_nil. Qed.

Lemma save_checkpoint_transaction_witness :
  snapshot (fst demo_ck_save) = None /\ chains (current (fst demo_ck_save)) /\
  length (current (fst demo_ck_save)) = 1%nat.
Proof.
  destruct (save_checkpoint_transaction ["job_1"] (Conn [] None) "ck_1" "job_1" demo_ck_fp "enumerate"
    "tsk" "4.12" (VDict [("offset", VInt 512); ("depth", VInt 2)]) (VDict [("files", VInt 3)]) [1; 2]
    "2026-01-01T00:00:00Z" (VInt 1) false (fst demo_ck_save) (Ok tt) chains_nil
    ltac:(by vm_compute)) as (H1 & H2 & _ & H4).
  split; [exact H1|]. split; [exact H2|]. exact (proj2 (H4 eq_refl)).
Defined.

Lemma checkpoint_roundtrip_witness :
  exists digest previous,
    load_latest_checkpoint (current (fst demo_ck_save)) "job_1" demo_ck_fp "enumerate" "tsk" "4.12"
    = Ok (CR "ck_1" "job_1" demo_ck_fp "enumerate" 1 "tsk" "4.12"
            (VDict [("depth", VInt 2); ("offset", VInt 512)]) (VDict [("files", VInt 3)]) [1; 2]
            digest previous).
Proof.
  apply (checkpoint_roundtrip ["job_1"] (Conn [] None) "ck_1" "job_1" demo_ck_fp "enumerate"
    "tsk" "4.12" [("offset", VInt 512); ("depth", VInt 2)] [("files", VInt 3)] [1; 2]
    "2026-01-01T00:00:00Z" false (fst demo_ck_save) chains_nil eq_refl).
  - apply wf_dict_Forall. split; [by apply (bool_decide_unpack (NoDup ["offset"; "depth"]))|by repeat constructor].
  - apply wf_dict_Forall. split; [by apply (bool_decide_unpack (NoDup ["files"]))|by repeat constructor].
  - by vm_compute.
Defined.

Lemma checkpoint_tamper_evident_witness :
  exists r, load_latest_checkpoint (current (fst demo_ck_save)) "job_1" demo_ck_fp "enumerate" "tsk" "4.12" = Ok r /\
  (cr_fp r = demo_ck_fp \/ exists m,
     collision m (integrity_message demo_ck_fp "enumerate" 1 "tsk" "4.12" (sq "{'depth':2,'offset':512}") (sq "{'files':3}") [1; 2])).
Proof.
  destruct (load_latest_checkpoint (current (fst demo_ck_save)) "job_1" demo_ck_fp "enumerate" "tsk" "4.12")
    as [r|] eqn:E; [|by vm_compute in E].
  exists r. split; [done|].
  assert (Some r = Some (CR "ck_1" "job_1" demo_ck_fp "enumerate" 1 "tsk" "4.12"
            (VDict [("depth", VInt 2); ("offset", VInt 512)]) (VDict [("files", VInt 3)]) [1; 2]
            (integrity_hash demo_ck_fp "enumerate" 1 "tsk" "4.12"
               (sq "{'depth':2,'offset':512}") (sq "{'files':3}") [1; 2]) None)) as Hr.
  { assert (match load_latest_checkpoint (current (fst demo_ck_save)) "job_1" demo_ck_fp "enumerate"
              "tsk" "4.12" with Ok r => Some r | Err _ => None end = Some r) as <- by (by rewrite E).
    by vm_compute. }
  injection Hr as Hr.
  destruct (checkpoint_tamper_evident _ _ _ _ _ _ r demo_ck_fp "enumerate" 1 "tsk" "4.12"
    (sq "{'depth':2,'offset':512}") (sq "{'files':3}") [1; 2] E) as [(_ & H & _)|H].
  - by rewrite Hr.
  - done.
  - by repeat constructor.
  - rewrite Hr. cbn [cr_cursor cr_counters cr_fp cr_stage cr_version cr_tool cr_toolv cr_blob].
    intros cu co Hcu Hco.
    assert (Some cu = Some (sq "{'depth':2,'offset':512}")) as [= ->] by (rewrite <- Hcu; by vm_compute).
    assert (Some co = Some (sq "{'files':3}")) as [= ->] by (rewrite <- Hco; by vm_compute).
    by repeat constructor.
  - by left.
  - destruct H as (cu & co & _ & _ & Hc). right. eexists. exact Hc.
Defined.
