(* ===== verification/EventOutbox.v ===== *)
(** * The event outbox: [shared/event_outbox.py]

    Per-case ordered events written next to the job transitions that cause them, polled and
    resumed by sequence number, published and compacted. The module works on a catalog of
    three tables through a connection whose transaction mode is the caller's choice.  Integers are
    unbounded: the OverflowError of the driver for a number outside 64 bits is not modelled. *)

From Stdlib Require Import ZArith Lia String Ascii.
From stdpp Require Import base list strings gmap sorting.
From S2P Require Import Prelude PyStr Sql Json Timestamp JobState.

Local Open Scope string_scope.
Local Open Scope Z_scope.

(** ** Data *)

(** shared/event_outbox.py:15-16 EventOutboxError: and the exceptions that pass through. *)
Inductive outbox_error :=
  | EventOutboxError (message : string)
  | EvJobError (e : job_error)
  | EvTypeError
  | EvIntegrityError.

(** shared/catalog_schema.py:206-215 _SCHEMA_SQL: one row of the [events] table; every writer
    stores a case. *)
Record event := Ev {
  ev_id : string;
  ev_case : string;
  ev_seq : Z;
  ev_job : option string;
  ev_type : string;
  ev_payload : string;
  ev_published : option string;
  ev_created : string
}.

(** shared/catalog_schema.py:206-215 _SCHEMA_SQL: the CHECK constraints. *)
Definition event_check (e : event) : bool :=
  (0 <? ev_seq e) && timestamp_check_opt (ev_published e) && timestamp_check (ev_created e).

#[export] Instance event_row : TableRow event := { row_id := ev_id; row_check := event_check }.

(** The tables the module reads and writes. *)
Record catalog := Cat {
  cat_cases : list string;
  cat_jobs : list job;
  cat_events : list event
}.

(** shared/event_outbox.py:12-12 MAX_POLL_LIMIT *)
Definition MAX_POLL_LIMIT : Z := 500.

(** ** Validation *)

(** shared/event_outbox.py:207-209 _validate_public_id *)
Definition validate_public_id (label v : string) : result outbox_error unit :=
  raise_if (String.eqb v "" || (128 <? str_len v)
            || any_char_in ["/"; "\"; "000"; "010"; "013"]%char v)
    (EventOutboxError (label +:+ " must be a bounded non-path identifier")).

(** The event type test of [append_event]. *)
Definition bad_event_type (s : string) : bool :=
  String.eqb s "" || (128 <? str_len s) || any_char_in ["000"; "010"; "013"]%char s.

(** shared/event_outbox.py:198-204 _canonical_json *)
Definition ev_canonical_json (payload : value) : result outbox_error string :=
  match dumps payload with Some s => Ok s | None => Err EvTypeError end.
#[global] Arguments ev_canonical_json : simpl never.

(** ** Operations on the catalog *)

(** shared/event_outbox.py:178-182 _next_sequence *)
Definition next_sequence (t : list event) (case_id : string) : Z :=
  foldr Z.max 0 (ev_seq <$> filter_b (fun e => String.eqb (ev_case e) case_id) t) + 1.

(** shared/event_outbox.py:163-175 get_event *)
Definition get_event (t : list event) (id : string) : result outbox_error event :=
  _ ← validate_public_id "event_id" id;
  match find_row t id with
  | Some e => Ok e
  | None => Err (EventOutboxError ("unknown event " +:+ id))
  end.

(** The INSERT of [append_event]: foreign keys, the unique index on case and sequence, the
    constraints and the primary key. *)
Definition insert_event (c : catalog) (e : event) : result outbox_error catalog :=
  _ ← raise_if (negb (existsb (String.eqb (ev_case e)) (cat_cases c))
                || match ev_job e with
                   | Some j => negb (existsb (fun k => String.eqb (j_id k) j) (cat_jobs c))
                   | None => false
                   end
                || existsb (fun k => String.eqb (ev_case k) (ev_case e) && (ev_seq k =? ev_seq e))
                     (cat_events c)) EvIntegrityError;
  t ← insert_row EvIntegrityError e (cat_events c);
  Ok (Cat (cat_cases c) (cat_jobs c) t).

(** shared/event_outbox.py:19-47 append_event *)
Definition append_event (c : catalog) (event_id case_id event_type : string) (payload : value)
    (now : string) (job_id : option string) : result outbox_error (catalog * event) :=
  _ ← validate_public_id "event_id" event_id;
  _ ← validate_public_id "case_id" case_id;
  _ ← match job_id with Some j => validate_public_id "job_id" j | None => Ok tt end;
  _ ← raise_if (bad_event_type event_type)
        (EventOutboxError "event_type must be bounded single-line text");
  let sequence := next_sequence (cat_events c) case_id in
  payload_json ← ev_canonical_json payload;
  c' ← insert_event c (Ev event_id case_id sequence job_id event_type payload_json None now);
  e ← get_event (cat_events c') event_id;
  Ok (c', e).

(** shared/event_outbox.py:82-106 list_events *)
Definition list_events (t : list event) (case_id : string) (after_sequence limit : value)
    : result outbox_error (list event) :=
  _ ← validate_public_id "case_id" case_id;
  after ← match after_sequence with
          | VInt n => if n <? 0 then Err (EventOutboxError "after_sequence must be a non-negative integer")
                      else Ok n
          | _ => Err (EventOutboxError "after_sequence must be a non-negative integer")
          end;
  lim ← match limit with
        | VInt n => if n <=? 0 then Err (EventOutboxError "limit must be a positive integer") else Ok n
        | _ => Err (EventOutboxError "limit must be a positive integer")
        end;
  let bounded_limit := Z.min (Z.max lim 1) MAX_POLL_LIMIT in
  Ok (take (Z.to_nat bounded_limit)
        (order_by_int ev_seq
           (filter_b (fun e => String.eqb (ev_case e) case_id && (after <? ev_seq e)) t))).

(** api/app.py:1170-1173 _next_after *)
Definition next_after (events : list event) (fallback : Z) : Z :=
  match last events with None => fallback | Some e => ev_seq e end.

(** shared/event_outbox.py:109-123 mark_published *)
Definition mark_published (t : list event) (event_ids : list string) (published_at : string)
    : result outbox_error (list event * Z) :=
  match event_ids with
  | [] => Ok (t, 0)
  | _ =>
    _ ← mapM_result (validate_public_id "event_id") event_ids;
    update_rows EvIntegrityError (fun e => existsb (String.eqb (ev_id e)) event_ids)
      (fun e => Ev (ev_id e) (ev_case e) (ev_seq e) (ev_job e) (ev_type e) (ev_payload e)
                  (match ev_published e with Some p => Some p | None => Some published_at end)
                  (ev_created e)) t
  end.

(** The rows the subquery of [compact_published_events] selects. *)
Definition compactable (before_created_at : string) (e : event) : bool :=
  bool_decide (ev_published e <> None) && str_lt (ev_created e) before_created_at.

(** shared/event_outbox.py:126-144 compact_published_events *)
Definition compact_published_events (t : list event) (before_created_at : string) (limit : value)
    : result outbox_error (list event * Z) :=
  lim ← match limit with
        | VInt n => if n <=? 0 then Err (EventOutboxError "limit must be a positive integer") else Ok n
        | _ => Err (EventOutboxError "limit must be a positive integer")
        end;
  let ids := ev_id <$> take (Z.to_nat (Z.min (Z.max lim 1) 10000))
               (order_by_cols (fun e => (ev_created e, ev_id e))
                  (filter_b (compactable before_created_at) t)) in
  Ok (delete_rows (fun e => existsb (String.eqb (ev_id e)) ids) t).

(** shared/event_outbox.py:147-160 format_sse: [payload] is the parsed payload of the event. *)
Definition format_sse (e : event) (payload : value) : result outbox_error string :=
  data ← ev_canonical_json
    (VDict [("case_id", VStr (ev_case e)); ("created_at", VStr (ev_created e));
            ("event_id", VStr (ev_id e)); ("payload", payload);
            ("sequence", VInt (ev_seq e)); ("type", VStr (ev_type e))]);
  let nl := of_chars ["010"%char] in
  Ok ("id: " +:+ str_of_Z (ev_seq e) +:+ nl +:+ "event: " +:+ ev_type e +:+ nl
      +:+ "data: " +:+ data +:+ nl +:+ nl).

(** ** Transition and event *)

(** The two ways a connection treats a data change outside a transaction: the default mode of
    [sqlite3] opens a transaction first, [isolation_level=None] commits each statement. *)
Inductive isolation := Deferred | Autocommit.

(** A data-changing step on a connection. *)
Definition dml {A} (mode : isolation) (c : connection catalog)
    (f : catalog -> result outbox_error (catalog * A)) : connection catalog * result outbox_error A :=
  let snap := match snapshot c, mode with
              | Some s, _ => Some s
              | None, Deferred => Some (current c)
              | None, Autocommit => None
              end in
  match f (current c) with
  | Ok (k, a) => (Conn k snap, Ok a)
  | Err e => (Conn (current c) snap, Err e)
  end.

(** [with connection:]: commit on success, roll back on an exception; both do nothing when no
    transaction is open. *)
Definition with_connection {A} (r : connection catalog * result outbox_error A)
    : connection catalog * result outbox_error A :=
  let (c, res) := r in
  match res, snapshot c with
  | Ok _, _ => (Conn (current c) None, res)
  | Err _, Some s => (Conn s None, res)
  | Err _, None => (c, res)
  end.

(** The job transition as a step on the catalog. *)
Definition transition_step (job_id to_state now : string) (error : option value) (k : catalog)
    : result outbox_error (catalog * unit) :=
  match transition_job (cat_jobs k) job_id to_state now error with
  | Ok t => Ok (Cat (cat_cases k) t (cat_events k), tt)
  | Err e => Err (EvJobError e)
  end.

(** The payload with the defaults for [job_id] and [state]. *)
Definition event_payload (payload : option (list (string * value))) (job_id to_state : string) : value :=
  let p := match payload with Some p => p | None => [] end in
  VDict (dict_setdefault (dict_setdefault p "job_id" (VStr job_id)) "state" (VStr to_state)).

(** shared/event_outbox.py:50-79 transition_job_and_append_event *)
Definition transition_job_and_append_event (mode : isolation) (c : connection catalog)
    (job_id to_state event_id event_type now : string)
    (payload : option (list (string * value))) (error : option value)
    : connection catalog * result outbox_error event :=
  with_connection
    (match get_job (cat_jobs (current c)) job_id with
     | Err e => (c, Err (EvJobError e))
     | Ok j =>
       match j_case j with
       | None => (c, Err (EventOutboxError "job must belong to a scan case before emitting case events"))
       | Some case_id =>
         if String.eqb case_id ""
         then (c, Err (EventOutboxError "job must belong to a scan case before emitting case events"))
         else
           match dml mode c (transition_step job_id to_state now error) with
           | (c1, Err e) => (c1, Err e)
           | (c1, Ok _) =>
             dml mode c1 (fun k => append_event k event_id case_id event_type
                            (event_payload payload job_id to_state) now (Some job_id))
           end
       end
     end).

(** ** The events of a case are stored in sequence order *)

Definition in_case (case_id : string) (e : event) : bool := String.eqb (ev_case e) case_id.

Definition seq_before (e f : event) : Prop := ev_case e = ev_case f -> ev_seq e < ev_seq f.

(** Unique identifiers, and within each case strictly increasing sequences, all positive. *)
Definition events_wf (t : list event) : Prop :=
  NoDup (ev_id <$> t) /\ StronglySorted seq_before t /\ Forall (fun e => 0 < ev_seq e) t.

Lemma foldr_max_ge (l : list Z) x : x ∈ l -> x <= foldr Z.max 0 l.
Proof. induction l as [|y l IH]; [by intros ?%elem_of_nil|]. simpl. intros [->|?]%elem_of_cons; [lia|]. specialize (IH H). lia. Qed.

Lemma foldr_max_nonneg (l : list Z) : 0 <= foldr Z.max 0 l.
Proof. induction l; simpl; lia. Qed.

Lemma next_sequence_gt t e : e ∈ t -> ev_seq e < next_sequence t (ev_case e).
Proof.
  intros He. unfold next_sequence.
  assert (ev_seq e <= foldr Z.max 0 (ev_seq <$> filter_b (in_case (ev_case e)) t)); [|unfold in_case in *; lia].
  apply foldr_max_ge, list_elem_of_fmap_2, elem_of_filter_b. split; [done|apply String.eqb_refl].
Qed.

Lemma case_strict t case_id :
  StronglySorted seq_before t ->
  StronglySorted (fun a b => ev_seq a < ev_seq b) (filter_b (in_case case_id) t).
Proof.
  intros Hs. eapply StronglySorted_impl_in; [|by apply StronglySorted_filter_b].
  intros x y Hx Hy Hxy. apply elem_of_filter_b in Hx as [_ Hx%String.eqb_eq], Hy as [_ Hy%String.eqb_eq].
  apply Hxy. congruence.
Qed.

Lemma get_event_ok t id e : get_event t id = Ok e -> e ∈ t /\ ev_id e = id.
Proof.
  unfold get_event. intros H. inv_ok. destruct (find_row t id) eqn:E; [|discriminate].
  injection H as ->. by apply find_row_some in E.
Qed.

Lemma append_event_ok c id case_id type payload now job c' e :
  append_event c id case_id type payload now job = Ok (c', e) ->
  exists text, dumps payload = Some text /\
    e = Ev id case_id (next_sequence (cat_events c) case_id) job type text None now /\
    c' = Cat (cat_cases c) (cat_jobs c) (cat_events c ++ [e]) /\
    id ∉ ev_id <$> cat_events c /\ bad_event_type type = false.
Proof.
  unfold append_event, insert_event, ev_canonical_json. intros H.
  destruct (dumps payload) as [text|] eqn:Hd; [|by inv_ok]. inv_ok.
  match goal with H : insert_row _ _ _ = Ok _ |- _ => apply insert_row_ok in H as (-> & Hc & Hid) end.
  match goal with H : get_event _ _ = Ok _ |- _ => apply get_event_ok in H as [Hin Heid] end.
  simpl in Hin. apply elem_of_app in Hin as [Hin|Hin%list_elem_of_singleton].
  - destruct Hid. simpl. rewrite <- Heid. by apply list_elem_of_fmap_2.
  - exists text. rewrite Hin. done.
Qed.

(** ** Steps *)

(** What the catalog's users do to the outbox; changes of cases and jobs leave it alone. *)
Inductive outbox_step (compaction : bool) (c : catalog) : catalog -> Prop :=
  | step_append id case_id type payload now job c' e :
      append_event c id case_id type payload now job = Ok (c', e) -> outbox_step compaction c c'
  | step_publish ids at_ t n :
      mark_published (cat_events c) ids at_ = Ok (t, n) ->
      outbox_step compaction c (Cat (cat_cases c) (cat_jobs c) t)
  | step_compact before limit t n :
      compaction = true -> compact_published_events (cat_events c) before limit = Ok (t, n) ->
      outbox_step compaction c (Cat (cat_cases c) (cat_jobs c) t)
  | step_elsewhere cases jobs :
      outbox_step compaction c (Cat cases jobs (cat_events c)).

(** Publication changes only the publication column. *)
Definition same_event (e f : event) : Prop :=
  ev_id f = ev_id e /\ ev_case f = ev_case e /\ ev_seq f = ev_seq e /\ ev_job f = ev_job e /\
  ev_type f = ev_type e /\ ev_payload f = ev_payload e /\ ev_created f = ev_created e.

Lemma mark_published_ok t ids at_ t' n :
  mark_published t ids at_ = Ok (t', n) -> Forall2 same_event t t'.
Proof.
  unfold mark_published. intros H.
  assert (Hrefl : Forall2 same_event t t).
  { apply Forall_Forall2_diag, Forall_forall. by repeat split. }
  destruct ids; [by injection H as <- <-|]. inv_ok.
  apply update_rows_ok in H as (-> & _ & _). clear Hrefl.
  induction t as [|r t IH]; [constructor|]. rewrite fmap_cons. constructor; [|exact IH].
  cbv beta. match goal with |- context [if ?b then _ else _] => destruct b end; by repeat split.
Qed.

Lemma same_events_wf t t' : Forall2 same_event t t' -> events_wf t -> events_wf t'.
Proof.
  intros Hs (Hi & Ho & Hp). split; [|split].
  - assert (ev_id <$> t' = ev_id <$> t) as ->; [|done].
    clear -Hs. induction Hs as [|x y t t' (Hx & _) _ IH]; [done|]. rewrite !fmap_cons. congruence.
  - clear Hi Hp. induction Hs as [|x y t t' Hxy Hs IH]; [constructor|].
    apply StronglySorted_inv in Ho as [Ho Hx]. constructor; [by apply IH|]. clear IH Ho.
    induction Hs as [|z w t t' Hzw Hs IH]; constructor; inversion Hx; subst; [|by apply IH].
    destruct Hxy as (_ & Hc & Hq & _), Hzw as (_ & Hc' & Hq' & _). unfold seq_before in *.
    rewrite Hc, Hc', Hq, Hq'. auto.
  - clear Hi Ho. induction Hs as [|x y t t' (_ & _ & Hq & _) _ IH]; constructor; inversion Hp; subst; [lia|auto].
Qed.

Lemma filter_events_wf (p : event -> bool) t : events_wf t -> events_wf (filter_b p t).
Proof.
  intros (Hi & Ho & Hp). split; [|split].
  - clear Ho Hp. induction t as [|x t IH]; [constructor|]. rewrite fmap_cons, NoDup_cons in Hi.
    destruct Hi as [Hx Hi]. unfold filter_b in *. simpl. destruct (p x); [|by apply IH].
    rewrite fmap_cons. constructor; [|by apply IH].
    intros (y & He & Hy%elem_of_filter_b)%list_elem_of_fmap. apply Hx. rewrite He.
    apply list_elem_of_fmap_2. tauto.
  - by apply StronglySorted_filter_b.
  - rewrite Forall_forall in *. intros x [Hx _]%elem_of_filter_b. auto.
Qed.

Lemma append_events_wf t id case_id job type text now :
  events_wf t -> id ∉ ev_id <$> t ->
  events_wf (t ++ [Ev id case_id (next_sequence t case_id) job type text None now]).
Proof.
  intros (Hi & Ho & Hp) Hid. split; [|split].
  - rewrite fmap_app. apply NoDup_app. split; [done|]. split; [|apply NoDup_singleton].
    by intros x Hx ->%list_elem_of_singleton.
  - apply StronglySorted_app_2; [|done|by repeat constructor].
    intros x y Hx ->%list_elem_of_singleton. unfold seq_before. simpl. intros <-.
    by apply next_sequence_gt.
  - apply Forall_app. split; [done|]. constructor; [|constructor]. simpl. unfold next_sequence.
    pose proof (foldr_max_nonneg (ev_seq <$> filter_b (fun e => String.eqb (ev_case e) case_id) t)). lia.
Qed.

Lemma outbox_step_wf b c c' : events_wf (cat_events c) -> outbox_step b c c' -> events_wf (cat_events c').
Proof.
  intros Hwf []; simpl; try done.
  - match goal with H : append_event _ _ _ _ _ _ _ = _ |- _ =>
      apply append_event_ok in H as (text & _ & -> & -> & Hid & _) end.
    by apply append_events_wf.
  - match goal with H : mark_published _ _ _ = _ |- _ => apply mark_published_ok in H end.
    by eapply same_events_wf.
  - match goal with H : compact_published_events _ _ _ = _ |- _ =>
      unfold compact_published_events in H; inv_ok end.
    match goal with H : delete_rows _ _ = _ |- _ => unfold delete_rows in H; injection H as <- <- | _ => idtac end.
    by apply filter_events_wf.
Qed.

(** ** Properties *)

Lemma same_event_refl e : same_event e e.
Proof. by repeat split. Qed.

(** A compaction keeps every event that is not both published and older than the boundary. *)
Lemma compact_keeps t before limit t' n e :
  compact_published_events t before limit = Ok (t', n) -> NoDup (ev_id <$> t) ->
  e ∈ t -> compactable before e = false -> e ∈ t'.
Proof.
  unfold compact_published_events. intros H Hnd He Hc. inv_ok. unfold delete_rows in *.
  match goal with H : (filter_b ?p t, _) = _ |- _ => injection H as <- <- | _ => idtac end.
  apply elem_of_filter_b. split; [done|]. apply negb_true_iff.
  destruct (existsb _ _) eqn:E; [|done]. exfalso. apply existsb_elem in E as (i & Hi & Hei).
  apply String.eqb_eq in Hei. subst i. apply list_elem_of_fmap in Hi as (f & Hf & Hin).
  apply (elem_of_submseteq _ (order_by_cols (fun e => (ev_created e, ev_id e)) (filter_b (compactable before) t))) in Hin;
    [|apply sublist_submseteq, sublist_take].
  rewrite order_by_cols_perm in Hin. apply elem_of_filter_b in Hin as [Hin Hcf].
  assert (e = f) as -> by (apply (row_unique t); done). congruence.
Qed.

Lemma outbox_step_keeps b c c' e :
  events_wf (cat_events c) -> outbox_step b c c' -> e ∈ cat_events c -> ev_published e = None ->
  exists e', e' ∈ cat_events c' /\ same_event e e'.
Proof.
  intros Hwf Hs He Hp. destruct Hs; simpl.
  - match goal with H : append_event _ _ _ _ _ _ _ = _ |- _ =>
      apply append_event_ok in H as (text & _ & _ & -> & _) end.
    exists e. split; [simpl; apply elem_of_app; by left|apply same_event_refl].
  - match goal with H : mark_published _ _ _ = _ |- _ => apply mark_published_ok in H end.
    apply list_elem_of_lookup in He as [i Hi].
    eapply Forall2_lookup_l in Hi as (e' & Hi & Hse); [|done].
    exists e'. split; [by eapply list_elem_of_lookup_2|done].
  - exists e. split; [|apply same_event_refl]. eapply compact_keeps; [done|apply Hwf|done|].
    unfold compactable. by rewrite Hp.
  - exists e. split; [done|apply same_event_refl].
Qed.

(** The outbox order: in every catalog reached from an empty outbox by appends,
    publications and compactions, event identifiers are unique and the sequences of each case
    are positive and strictly increase in insertion order; and no step ever loses an event
    that has not been published. *)
Theorem outbox_order c0 c :
  cat_events c0 = [] -> reachable (outbox_step true) c0 c ->
  events_wf (cat_events c) /\
  forall c' e, outbox_step true c c' -> e ∈ cat_events c -> ev_published e = None ->
    exists e', e' ∈ cat_events c' /\ same_event e e'.
Proof.
  intros H0 Hr. assert (events_wf (cat_events c)) as Hwf.
  { eapply (reachable_invariant _ (fun c => events_wf (cat_events c)));
      [|intros; by eapply outbox_step_wf|exact Hr].
    rewrite H0. split; [constructor|split; constructor]. }
  split; [done|]. intros c' e. by apply outbox_step_keeps.
Qed.

(** The sequences of a case are exactly 1, 2, ..., n. *)
Definition gapless (t : list event) : Prop :=
  forall case_id, let l := filter_b (in_case case_id) t in
    ev_seq <$> l = zrange 1 (length l).

Lemma zrange_snoc a n : zrange a (S n) = (zrange a n ++ [a + Z.of_nat n])%list.
Proof.
  revert a; induction n as [|n IH]; intros a.
  - simpl. f_equal. lia.
  - change (zrange a (S (S n))) with (a :: zrange (a + 1) (S n)). rewrite IH. simpl.
    do 2 f_equal. f_equal. lia.
Qed.

Lemma foldr_max_zrange a n : 0 <= a -> foldr Z.max 0 (zrange (a + 1) n) = if decide (n = O) then 0 else a + Z.of_nat n.
Proof.
  revert a; induction n as [|n IH]; intros a Ha; [done|].
  cbn [zrange foldr]. rewrite IH by lia. repeat case_decide; lia.
Qed.

Lemma gapless_next t case_id :
  gapless t -> next_sequence t case_id = Z.of_nat (length (filter_b (in_case case_id) t)) + 1.
Proof.
  intros Hg. unfold next_sequence. fold (in_case case_id). rewrite (Hg case_id).
  change (zrange 1) with (zrange (0 + 1)). rewrite foldr_max_zrange by lia. case_decide; lia.
Qed.

Lemma same_events_case t t' case_id :
  Forall2 same_event t t' ->
  ev_seq <$> filter_b (in_case case_id) t' = ev_seq <$> filter_b (in_case case_id) t.
Proof.
  unfold filter_b. induction 1 as [|x y t t' (_ & Hc & Hs & _) _ IH]; [done|]. simpl.
  assert (in_case case_id y = in_case case_id x) as -> by (unfold in_case; by rewrite Hc).
  destruct (in_case case_id x); [|done]. rewrite !fmap_cons. congruence.
Qed.

Lemma gapless_step k k' : gapless (cat_events k) -> outbox_step false k k' -> gapless (cat_events k').
Proof.
  intros Hg Hs. destruct Hs as [id ci ty pl now job k' e Ha|ids at_ t n Hm|? ? ? ? Hf|]; simpl; try done.
  + apply append_event_ok in Ha as (text & _ & -> & -> & _). intros case_id l. subst l. simpl.
    rewrite filter_b_app. unfold filter_b at 2 4. simpl. unfold in_case at 2 4. simpl.
    destruct (String.eqb_spec ci case_id) as [->|]; [|rewrite app_nil_r; apply Hg].
    rewrite fmap_app, length_app, (Hg case_id), gapless_next by done. simpl.
    rewrite Nat.add_1_r, zrange_snoc. do 2 f_equal. lia.
  + apply mark_published_ok in Hm. intros case_id l. subst l.
    assert (length (filter_b (in_case case_id) t) = length (filter_b (in_case case_id) (cat_events k))) as ->.
    { rewrite <- (length_fmap ev_seq), (same_events_case _ _ _ Hm). apply length_fmap. }
    rewrite (same_events_case _ _ _ Hm). apply Hg.
Qed.

(** Without compaction the sequences have no gaps and no repetitions: after any appends
    and publications, the events of every case carry exactly the sequences 1, 2, ..., n in
    insertion order, and the next event gets n + 1. *)
Theorem outbox_gapless c0 c :
  cat_events c0 = [] -> reachable (outbox_step false) c0 c ->
  gapless (cat_events c) /\
  forall case_id, next_sequence (cat_events c) case_id
    = Z.of_nat (length (filter_b (in_case case_id) (cat_events c))) + 1.
Proof.
  intros H0 Hr. assert (gapless (cat_events c)) as Hg; [|by split; [|intros; apply gapless_next]].
  eapply (reachable_invariant _ (fun c => gapless (cat_events c))); [| |exact Hr].
  - rewrite H0. by intros case_id.
  - intros k k'. apply gapless_step.
Qed.

(** *** Polling *)

(** A client that polls page after page, resuming after the last sequence it saw. *)
Fixpoint poll_pages (n : nat) (t : list event) (case_id : string) (after limit : Z)
    : result outbox_error (list event) :=
  match n with
  | O => Ok []
  | S n => page ← list_events t case_id (VInt after) (VInt limit);
           rest ← poll_pages n t case_id (next_after page after) limit;
           Ok (page ++ rest)%list
  end.

Definition events_after (t : list event) (case_id : string) (after : Z) : list event :=
  filter_b (fun e => String.eqb (ev_case e) case_id && (after <? ev_seq e)) t.

Lemma events_after_strict t case_id after :
  StronglySorted seq_before t ->
  StronglySorted (fun a b => ev_seq a < ev_seq b) (events_after t case_id after).
Proof.
  intros Hs. unfold events_after.
  rewrite <- (filter_b_filter_b (fun e => after <? ev_seq e) (in_case case_id)).
  by apply StronglySorted_filter_b, case_strict.
Qed.

Lemma events_after_later t case_id a b :
  a <= b -> events_after t case_id b = filter_b (fun e => b <? ev_seq e) (events_after t case_id a).
Proof.
  intros Hab. unfold events_after. rewrite filter_b_filter_b. unfold filter_b.
  apply List.filter_ext. intros e. destruct (String.eqb _ _); [|done]. simpl.
  destruct (a <? ev_seq e) eqn:E; [done|]. simpl. apply Z.ltb_ge. lia.
Qed.

Lemma list_events_page t case_id after limit :
  validate_public_id "case_id" case_id = Ok tt -> 0 <= after -> 0 < limit ->
  StronglySorted seq_before t ->
  list_events t case_id (VInt after) (VInt limit)
  = Ok (take (Z.to_nat (Z.min limit MAX_POLL_LIMIT)) (events_after t case_id after)).
Proof.
  intros Hv Ha Hl Hs. unfold list_events. rewrite Hv. simpl.
  rewrite (proj2 (Z.ltb_ge after 0)) by lia. simpl.
  rewrite (proj2 (Z.leb_gt limit 0)) by lia. simpl.
  fold (events_after t case_id after). rewrite order_by_int_strict by (by apply events_after_strict).
  by rewrite Z.max_l by lia.
Qed.

(** Polling loses nothing and repeats nothing: on a well-formed outbox, a client that
    polls with any positive limit and resumes after the last sequence of each page receives,
    within as many polls as there are events, exactly the events of the case after its
    starting sequence, each once and in order; a page never exceeds the limit or 500 rows. *)
Theorem poll_complete t case_id after limit n :
  events_wf t -> validate_public_id "case_id" case_id = Ok tt -> 0 <= after -> 0 < limit ->
  (length (events_after t case_id after) <= n)%nat ->
  poll_pages n t case_id after limit = Ok (events_after t case_id after) /\
  exists page, list_events t case_id (VInt after) (VInt limit) = Ok page /\
    zlen page <= Z.min limit MAX_POLL_LIMIT.
Proof.
  intros Hwf Hv Ha Hl Hn. split.
  2: { rewrite list_events_page by (done || apply Hwf). eexists. split; [done|].
       unfold zlen. rewrite length_take. unfold MAX_POLL_LIMIT. lia. }
  revert after Ha Hn. induction n as [|n IH]; intros after Ha Hn.
  { simpl. by destruct (events_after t case_id after); [|simpl in Hn; lia]. }
  simpl. rewrite list_events_page by (done || apply Hwf). simpl.
  pose proof (events_after_strict t case_id after (proj1 (proj2 Hwf))) as Hs.
  set (k := Z.to_nat (Z.min limit MAX_POLL_LIMIT)) in *.
  assert (1 <= k)%nat as Hk by (unfold k, MAX_POLL_LIMIT; lia).
  unfold next_after. destruct (last (take k (events_after t case_id after))) as [e|] eqn:El.
  - pose proof (after_page ev_seq k _ _ Hs El) as Hd.
    assert (e ∈ events_after t case_id after) as He.
    { apply last_Some in El as [m Hm]. rewrite <- (take_drop k). rewrite Hm, !elem_of_app. left. right. left. }
    apply elem_of_filter_b in He as [_ He]. rewrite andb_true_iff, Z.ltb_lt in He.
    rewrite <- (events_after_later t case_id after (ev_seq e)) in Hd by lia.
    rewrite IH; [|lia|rewrite Hd, length_drop].
    + rewrite Hd. simpl. by rewrite take_drop.
    + lia.
  - apply last_None in El. destruct (events_after t case_id after) as [|x l] eqn:Ex.
    + rewrite take_nil. rewrite IH; [|done|]; rewrite Ex; simpl; [done|lia].
    + destruct k; [lia|]. discriminate.
Qed.

(** Sequence numbers are reused after compaction: when every event of a case is published
    and older than the boundary, a compaction followed by an append gives the new event
    sequence 1 again, and a client that resumes after any sequence it has seen is never sent
    that event. *)
Theorem compaction_reuses_sequences c before limit t n id case_id type payload now job c' e seen :
  (forall x, x ∈ cat_events c -> ev_case x = case_id -> compactable before x = true) ->
  zlen (cat_events c) <= Z.min limit 10000 -> 0 < limit ->
  compact_published_events (cat_events c) before (VInt limit) = Ok (t, n) ->
  append_event (Cat (cat_cases c) (cat_jobs c) t) id case_id type payload now job = Ok (c', e) ->
  1 <= seen ->
  ev_seq e = 1 /\ e ∈ cat_events c' /\ e ∉ events_after (cat_events c') case_id seen.
Proof.
  intros Hall Hlen Hl Hc Ha Hseen. apply append_event_ok in Ha as (text & _ & He & -> & _).
  assert (forall x, x ∈ t -> ev_case x <> case_id) as Hnone.
  { intros x Hx Hxc. unfold compact_published_events in Hc.
    rewrite (proj2 (Z.leb_gt limit 0)) in Hc by lia. simpl in Hc. unfold delete_rows in Hc.
    injection Hc as <- _. apply elem_of_filter_b in Hx as [Hx Hn]. apply negb_true_iff in Hn.
    assert (existsb (String.eqb (ev_id x)) (ev_id <$> take (Z.to_nat (Z.min (Z.max limit 1) 10000))
      (order_by_cols (fun e0 => (ev_created e0, ev_id e0)) (filter_b (compactable before) (cat_events c)))) = true);
      [|congruence].
    apply existsb_elem. exists (ev_id x). rewrite String.eqb_refl. split; [|done].
    apply list_elem_of_fmap_2. rewrite take_ge.
    - rewrite order_by_cols_perm. apply elem_of_filter_b. auto.
    - rewrite order_by_cols_perm. unfold zlen in Hlen.
      assert (length (filter_b (compactable before) (cat_events c)) <= length (cat_events c))%nat
        by apply List.filter_length_le. lia. }
  assert (next_sequence t case_id = 1) as Hs.
  { unfold next_sequence. rewrite filter_b_none; [done|]. intros x Hx.
    destruct (String.eqb_spec (ev_case x) case_id); [|done]. by destruct (Hnone x Hx). }
  simpl in He. rewrite Hs in He.
  assert (ev_seq e = 1) as H1 by (by rewrite He). split; [done|].
  split; [simpl; apply elem_of_app; right; left|].
  unfold events_after. rewrite elem_of_filter_b, H1, (proj2 (Z.ltb_ge seen 1)) by lia.
  rewrite andb_false_r. by intros [_ ?].
Qed.

(** *** Transition and event in one transaction *)

Lemma with_connection_open {A} (c : connection catalog) s (r : result outbox_error A) :
  snapshot c = Some s -> is_ok r = false -> current (fst (with_connection (c, r))) = s.
Proof. destruct c as [k [s'|]], r; simpl; congruence. Qed.

(** Atomicity depends on the connection: on a connection in the default isolation mode a
    failed [transition_job_and_append_event] leaves the catalog as it was; on a connection in
    autocommit mode, the mode the catalog is opened in, a transition that is legal but whose
    event is refused leaves the job in its new state with no event. In both modes a success
    leaves the transition and the event together. *)
Theorem transition_event_atomicity mode c job_id to_state event_id event_type now payload error c' res :
  snapshot c = None ->
  transition_job_and_append_event mode c job_id to_state event_id event_type now payload error = (c', res) ->
  snapshot c' = None /\
  match res with
  | Ok e => exists t,
      transition_job (cat_jobs (current c)) job_id to_state now error = Ok t /\
      current c' = Cat (cat_cases (current c)) t (cat_events (current c) ++ [e])
  | Err _ =>
      match mode with
      | Deferred => current c' = current c
      | Autocommit => current c' = current c \/
          exists t, transition_job (cat_jobs (current c)) job_id to_state now error = Ok t /\
            current c' = Cat (cat_cases (current c)) t (cat_events (current c))
      end
  end.
Proof.
  intros Hs H. destruct c as [k sn]. simpl in Hs. subst sn.
  unfold transition_job_and_append_event in H. simpl current in *.
  destruct (get_job (cat_jobs k) job_id) as [j|e] eqn:Hg.
  2: { injection H as <- <-. simpl. destruct mode; auto. }
  destruct (j_case j) as [ci|].
  2: { injection H as <- <-. simpl. destruct mode; auto. }
  destruct (String.eqb ci "").
  { injection H as <- <-. simpl. destruct mode; auto. }
  unfold dml at 1 in H. unfold transition_step in H. simpl current in H. simpl snapshot in H.
  destruct (transition_job (cat_jobs k) job_id to_state now error) as [t|e] eqn:Ht.
  2: { destruct mode; injection H as <- <-; simpl; auto. }
  unfold dml in H. simpl current in H. simpl snapshot in H.
  destruct (append_event _ _ _ _ _ _ _) as [[k2 ev]|e] eqn:Ha.
  - apply append_event_ok in Ha as (text & _ & Hev & -> & _).
    destruct mode; injection H as <- <-; (split; [done|]); exists t; auto.
  - destruct mode; injection H as <- <-; (split; [done|]); simpl; [done|]. right. by exists t.
Qed.

(** *** Server-sent events *)

Definition newline : ascii := "010"%char.

Lemma printable_no_newline l : all_printable l -> newline ∉ l.
Proof. intros Hp Hin. unfold all_printable in Hp. rewrite Forall_forall in Hp. by apply Hp in Hin. Qed.

Lemma char_not_in c cs s : any_char_in cs s = false -> c ∈ cs -> c ∉ chars s.
Proof.
  unfold any_char_in. intros H Hc Hin.
  assert (existsb (fun c => char_in c s) cs = true); [|unfold char_in in *; congruence].
  apply existsb_elem. exists c. split; [done|]. unfold char_in. apply existsb_elem. exists c.
  by rewrite Ascii.eqb_refl.
Qed.

(** A server-sent event is one well-formed frame: for any event the outbox accepted, the
    text is the id, event and data fields on one line each followed by an empty line; the
    event type and the JSON data contain no line break, so neither the payload nor the type
    can inject a field or end the frame early, and the id is the sequence to resume from. *)
Theorem sse_frame c id case_id type payload now job c' e parsed text :
  append_event c id case_id type payload now job = Ok (c', e) -> format_sse e parsed = Ok text ->
  exists data,
    chars text = (chars "id: " ++ Z_chars (ev_seq e) ++ newline :: chars "event: " ++ chars type
                  ++ newline :: chars "data: " ++ chars data ++ [newline; newline])%list /\
    newline ∉ chars type /\ newline ∉ Z_chars (ev_seq e) /\ newline ∉ chars data /\
    dumps (VDict [("case_id", VStr case_id); ("created_at", VStr now); ("event_id", VStr id);
                  ("payload", parsed); ("sequence", VInt (ev_seq e)); ("type", VStr type)]) = Some data.
Proof.
  intros Ha Hf. apply append_event_ok in Ha as (pt & _ & He & _ & _ & Hty).
  unfold format_sse, ev_canonical_json in Hf.
  assert (ev_case e = case_id /\ ev_created e = now /\ ev_id e = id /\ ev_type e = type)
    as (E1 & E2 & E3 & E4) by (by rewrite He).
  rewrite E1, E2, E3, E4 in Hf.
  match type of Hf with context [dumps ?v] => destruct (dumps v) as [data|] eqn:Hd end; [|discriminate].
  simpl in Hf. injection Hf as <-. exists data. split; [|split; [|split; [|split]]].
  - unfold str_of_Z. rewrite !chars_app, !chars_of_chars. done.
  - unfold bad_event_type in Hty. rewrite !orb_false_iff in Hty. destruct Hty as [_ Hty].
    eapply char_not_in; [exact Hty|]. elem_list.
  - apply printable_no_newline, printable_Z.
  - eapply printable_no_newline, dumps_printable, Hd.
  - done.
Qed.

(** ** A concrete outbox *)

Definition demo_ev_now : string := "2026-01-01T00:00:00Z".
Definition demo_ev_job : job :=
  Job "job_1" (Some "case_1") "scan" Leased "{}" "key_1" 1 3 None None None None demo_ev_now demo_ev_now.
Definition demo_catalog : catalog := Cat ["case_1"] [demo_ev_job] [].
Definition demo_append (c : catalog) (id : string) : result outbox_error (catalog * event) :=
  append_event c id "case_1" "job.state" (VDict [("state", VStr "running")]) demo_ev_now (Some "job_1").
Definition demo_events : catalog :=
  let c1 := fst (ok_or (demo_append demo_catalog "event_1") (demo_catalog, Ev "" "" 0 None "" "" None "")) in
  fst (ok_or (demo_append c1 "event_2") (demo_catalog, Ev "" "" 0 None "" "" None "")).

Lemma demo_events_reachable b : reachable (outbox_step b) demo_catalog demo_events.
Proof.
  eapply reach_step; [eapply reach_step; [apply reach_refl|]|].
  - eapply (step_append _ _ "event_1" "case_1" "job.state" (VDict [("state", VStr "running")])
      demo_ev_now (Some "job_1")). by vm_compute.
  - eapply (step_append _ _ "event_2" "case_1" "job.state" (VDict [("state", VStr "running")])
      demo_ev_now (Some "job_1")). by vm_compute.
Qed.

Lemma demo_events_wf : events_wf (cat_events demo_events).
Proof.
  eapply (reachable_invariant _ (fun c => events_wf (cat_events c)));
    [|intros; by eapply outbox_step_wf|exact (demo_events_reachable false)].
  split; [constructor|split; constructor].
Qed.

Lemma outbox_order_witness :
  length (cat_events demo_events) = 2%nat /\ events_wf (cat_events demo_events).
Proof.
  split; [by vm_compute|].
  exact (proj1 (outbox_order demo_catalog demo_events eq_refl (demo_events_reachable true))).
Defined.

Lemma outbox_gapless_witness :
  gapless (cat_events demo_events) /\ next_sequence (cat_events demo_events) "case_1" = 3.
Proof.
  split; [exact (proj1 (outbox_gapless demo_catalog demo_events eq_refl (demo_events_reachable false)))|].
  by vm_compute.
Defined.

Lemma poll_complete_witness :
  poll_pages 2 (cat_events demo_events) "case_1" 0 1 = Ok (events_after (cat_events demo_events) "case_1" 0) /\
  length (events_after (cat_events demo_events) "case_1" 0) = 2%nat.
Proof.
  split; [|by vm_compute].
  exact (proj1 (poll_complete (cat_events demo_events) "case_1" 0 1 2 demo_events_wf ltac:(by vm_compute)
    ltac:(lia) ltac:(lia) ltac:(vm_compute; lia))).
Defined.

Definition demo_published : list event :=
  fst (ok_or (mark_published (cat_events demo_events) ["event_1"; "event_2"] demo_ev_now) ([], 0)).
Definition demo_compacted : list event :=
  fst (ok_or (compact_published_events demo_published "2026-01-02T00:00:00Z" (VInt 100)) ([], 0)).
Definition demo_reused : catalog * event :=
  ok_or (demo_append (Cat ["case_1"] [demo_ev_job] demo_compacted) "event_3")
    (demo_catalog, Ev "" "" 0 None "" "" None "").

Lemma compaction_reuses_sequences_witness :
  ev_seq (snd demo_reused) = 1 /\ snd demo_reused ∈ cat_events (fst demo_reused) /\
  snd demo_reused ∉ events_after (cat_events (fst demo_reused)) "case_1" 2.
Proof.
  apply (compaction_reuses_sequences (Cat ["case_1"] [demo_ev_job] demo_published)
    "2026-01-02T00:00:00Z" 100 demo_compacted 2 "event_3" "case_1" "job.state"
    (VDict [("state", VStr "running")]) demo_ev_now (Some "job_1")).
  - intros x Hx _. simpl in Hx.
    assert (forallb (compactable "2026-01-02T00:00:00Z") demo_published = true) as Hall by (by vm_compute).
    rewrite forallb_elem in Hall. by apply Hall.
  - vm_compute. discriminate.
  - lia.
  - by vm_compute.
  - by vm_compute.
  - lia.
Defined.

(** The refused event: its payload holds bytes, which JSON cannot carry. *)
Definition demo_failed : connection catalog * result outbox_error event :=
  transition_job_and_append_event Autocommit (Conn demo_catalog None) "job_1" "running" "event_1"
    "job.state" demo_ev_now (Some [("bad", VBytes [0])]) None.

Lemma transition_event_atomicity_witness :
  is_ok (snd demo_failed) = false /\ snapshot (fst demo_failed) = None /\
  (j_state <$> cat_jobs (current (fst demo_failed))) = [Running] /\
  cat_events (current (fst demo_failed)) = [].
Proof.
  split; [by vm_compute|]. split; [|by vm_compute].
  exact (proj1 (transition_event_atomicity Autocommit (Conn demo_catalog None) "job_1" "running" "event_1"
    "job.state" demo_ev_now (Some [("bad", VBytes [0])]) None (fst demo_failed) (snd demo_failed) eq_refl
    ltac:(by vm_compute))).
Defined.

Lemma sse_frame_witness :
  exists e text data, demo_append demo_catalog "event_1" = Ok (Cat ["case_1"] [demo_ev_job] [e], e) /\
    format_sse e (VDict [("state", VStr "running")]) = Ok text /\ newline ∉ chars data /\
    chars text = (chars "id: " ++ Z_chars (ev_seq e) ++ newline :: chars "event: " ++ chars "job.state"
                  ++ newline :: chars "data: " ++ chars data ++ [newline; newline])%list.
Proof.
  destruct (demo_append demo_catalog "event_1") as [[c' e]|] eqn:E; [|by vm_compute in E].
  destruct (format_sse e (VDict [("state", VStr "running")])) as [text|] eqn:F.
  - destruct (sse_frame _ _ _ _ _ _ _ _ _ _ _ E F) as (data & H1 & _ & _ & H2 & _).
    exists e, text, data. split; [|by auto].
    apply append_event_ok in E as (_ & _ & _ & -> & _). done.
  - apply append_event_ok in E as (tx & _ & -> & _). by vm_compute in F.
Defined.
