(* ===== verification/OutboxLog.v ===== *)
(** * The outbox as a log (abstract specification of [EventOutbox])

    What the rest of the program may rely on when it writes and polls events: per case an
    append-only list whose positions are the sequence numbers.  [CaseLog] is that promise as a
    class, the catalog without compaction is an instance of it, and a follower that copies a
    case page by page is proved right against the class alone. *)

From Stdlib Require Import ZArith Lia String Ascii.
From stdpp Require Import base list strings gmap sorting.
From S2P Require Import Prelude PyStr Sql Json Timestamp JobState EventOutbox.

Local Open Scope string_scope.
Local Open Scope Z_scope.

(** ** Specification *)

(** What a reader sees of an event, its position and publication aside. *)
Record log_entry := LE {
  le_id : string; le_job : option string; le_type : string; le_payload : string; le_created : string
}.

(** A log per case. *)
Abbreviation logs := (string -> list log_entry).

(** Entries with their positions from 1. *)
Definition numbered (l : list log_entry) : list (Z * log_entry) := zip (zrange 1 (length l)) l.

(** A step of the abstract log: nothing, or one entry at the end of one case. *)
Definition log_step (l l' : logs) : Prop :=
  (forall k, l' k = l k) \/
  exists c x, l' c = (l c ++ [x])%list /\ forall k, k <> c -> l' k = l k.

(** A store that promises such logs: its states, their logs, steps, and reads by position. *)
Class CaseLog (S : Type) := {
  cl_state : S -> Prop;
  cl_logs : S -> logs;
  cl_step : S -> S -> Prop;
  cl_read : S -> string -> Z -> Z -> list log_entry -> Prop;
  cl_page : Z;
  cl_page_pos : 0 < cl_page;
  cl_step_state s s' : cl_state s -> cl_step s s' -> cl_state s';
  cl_step_log s s' : cl_state s -> cl_step s s' -> log_step (cl_logs s) (cl_logs s');
  cl_read_page s case_id after limit page :
    cl_state s -> 0 <= after -> 0 < limit -> cl_read s case_id after limit page ->
    page = take (Z.to_nat (Z.min limit cl_page)) (drop (Z.to_nat after) (cl_logs s case_id))
}.

(** ** A follower *)

Section follower.
Context {S : Type} `{CaseLog S}.

(** A copy of a case that grows by reading the page after its end, while the store moves on. *)
Inductive follow (case_id : string) (limit : Z) : S * list log_entry -> S * list log_entry -> Prop :=
  | follow_store s s' copy : cl_step s s' -> follow case_id limit (s, copy) (s', copy)
  | follow_read s copy page :
      cl_read s case_id (zlen copy) limit page -> follow case_id limit (s, copy) (s, (copy ++ page)%list).

Lemma log_step_prefix l l' k : log_step l l' -> l k `prefix_of` l' k.
Proof.
  intros [He|(c & x & Hc & Ho)]; [by rewrite He|]. destruct (decide (k = c)) as [->|Hk].
  - rewrite Hc. by apply prefix_app_r.
  - by rewrite Ho.
Qed.

(** Following a log loses nothing.  A client that only reads the page after the end of its
    copy holds, whatever the store does in between, a prefix of the log of the case; a read
    leaves it unchanged exactly when the copy is complete, and otherwise makes it longer. *)
Theorem follower_prefix case_id limit s0 s copy :
  cl_state s0 -> 0 < limit -> reachable (follow case_id limit) (s0, []) (s, copy) ->
  copy `prefix_of` cl_logs s case_id /\
  forall page, cl_read s case_id (zlen copy) limit page ->
    (copy ++ page)%list `prefix_of` cl_logs s case_id /\
    (page = [] <-> copy = cl_logs s case_id).
Proof.
  intros H0 Hlim Hr.
  assert (forall s copy, cl_state s -> copy `prefix_of` cl_logs s case_id ->
    forall page, cl_read s case_id (zlen copy) limit page ->
    (copy ++ page)%list `prefix_of` cl_logs s case_id /\ (page = [] <-> copy = cl_logs s case_id)) as Hread.
  { intros t cp Ht [r Hp] page Hrd. apply cl_read_page in Hrd; [|done|apply zlen_nonneg|done].
    rewrite Hp in Hrd. unfold zlen in Hrd. rewrite Nat2Z.id, drop_app_length in Hrd. subst page. split.
    - rewrite Hp. apply prefix_app, prefix_take.
    - rewrite Hp. pose proof cl_page_pos. destruct (Z.to_nat (Z.min limit cl_page)) as [|k] eqn:E; [lia|].
      destruct r as [|x r]; simpl.
      + by rewrite app_nil_r.
      + split; [done|]. intros He. apply (f_equal length) in He. rewrite length_app in He. simpl in He. lia. }
  assert (cl_state (s, copy).1 /\ (s, copy).2 `prefix_of` cl_logs (s, copy).1 case_id) as [Hs Hp].
  { eapply (reachable_invariant _ (fun p => cl_state p.1 /\ p.2 `prefix_of` cl_logs p.1 case_id)); [| |exact Hr].
    - split; [done|]. apply prefix_nil.
    - intros [t cp] [t' cp'] [Ht Hcp] Hf. inversion Hf; subst; simpl in *.
      + split; [by eapply cl_step_state|]. etrans; [exact Hcp|]. apply log_step_prefix. by apply cl_step_log.
      + split; [done|]. by apply Hread. }
  split; [exact Hp|]. by apply Hread.
Qed.
End follower.

(** ** The outbox implements the specification *)

Definition entry_of (e : event) : log_entry := LE (ev_id e) (ev_job e) (ev_type e) (ev_payload e) (ev_created e).

Definition log_of (c : catalog) : logs := fun k => entry_of <$> filter_b (in_case k) (cat_events c).

Lemma gapless_events_after_from l a after :
  ev_seq <$> l = zrange (a + 1) (length l) -> a <= after ->
  filter_b (fun e => after <? ev_seq e) l = drop (Z.to_nat (after - a)) l.
Proof.
  revert a. induction l as [|e l IH]; intros a Hs Ha; [by rewrite drop_nil|].
  rewrite fmap_cons in Hs. simpl in Hs. injection Hs as He Hs. unfold filter_b in *. simpl.
  destruct (Z.ltb_spec after (ev_seq e)).
  - replace (Z.to_nat (after - a)) with O by lia. simpl. f_equal.
    apply filter_b_all. intros f Hf. apply (list_elem_of_fmap_2 ev_seq) in Hf. rewrite Hs in Hf.
    apply elem_of_zrange in Hf. lia.
  - replace (Z.to_nat (after - a)) with (Datatypes.S (Z.to_nat (after - (a + 1)))) by lia. simpl. apply IH; [done|lia].
Qed.

Lemma gapless_events_after t case_id after :
  gapless t -> 0 <= after -> events_after t case_id after = drop (Z.to_nat after) (filter_b (in_case case_id) t).
Proof.
  intros Hg Ha. unfold events_after. rewrite <- (filter_b_filter_b (fun e => after <? ev_seq e) (in_case case_id)).
  rewrite (gapless_events_after_from _ 0 after); [by rewrite Z.sub_0_r|apply Hg|done].
Qed.

Lemma same_event_entry t t' k :
  Forall2 same_event t t' -> entry_of <$> filter_b (in_case k) t' = entry_of <$> filter_b (in_case k) t.
Proof.
  unfold filter_b. induction 1 as [|x y t t' (Hi & Hc & _ & Hj & Hty & Hp & Hcr) _ IH]; [done|]. simpl.
  assert (in_case k y = in_case k x) as -> by (unfold in_case; by rewrite Hc).
  destruct (in_case k x); [|done]. rewrite !fmap_cons, IH. f_equal. unfold entry_of. congruence.
Qed.

Lemma outbox_log_step c c' : outbox_step false c c' -> log_step (log_of c) (log_of c').
Proof.
  intros [id ci ty pl now job c1 e Ha|ids at_ t n Hm|? ? ? ? Hf|]; try done.
  - apply append_event_ok in Ha as (text & _ & -> & -> & _). right. exists ci.
    exists (LE id job ty text now). unfold log_of. cbn [cat_events].
    split; [|intros k Hk]; rewrite filter_b_app, fmap_app; unfold filter_b at 2; simpl; unfold in_case at 2; simpl.
    + by rewrite String.eqb_refl.
    + rewrite (proj2 (String.eqb_neq _ _)) by done. by rewrite app_nil_r.
  - apply mark_published_ok in Hm. left. intros k. unfold log_of. by apply same_event_entry.
  - left. done.
Qed.

(** The states of an outbox that was never compacted. *)
Definition outbox_state (c : catalog) : Prop := events_wf (cat_events c) /\ gapless (cat_events c).

Lemma outbox_state_step c c' : outbox_state c -> outbox_step false c c' -> outbox_state c'.
Proof. intros [Hw Hg] Hs. split; [by eapply outbox_step_wf|by eapply gapless_step]. Qed.

Lemma outbox_state_empty cases jobs : outbox_state (Cat cases jobs []).
Proof.
  split; [|by intros k]. split; [constructor|]. split; constructor.
Qed.

Lemma outbox_read c case_id after limit page :
  outbox_state c -> 0 <= after -> 0 < limit ->
  list_events (cat_events c) case_id (VInt after) (VInt limit) = Ok page ->
  page = take (Z.to_nat (Z.min limit MAX_POLL_LIMIT))
           (drop (Z.to_nat after) (filter_b (in_case case_id) (cat_events c))).
Proof.
  intros [Hw Hg] Ha Hl H.
  assert (validate_public_id "case_id" case_id = Ok tt) as Hv.
  { unfold list_events in H. by apply bind_ok in H as ([] & Hv & _). }
  rewrite list_events_page in H by (done || apply Hw). injection H as <-. by rewrite gapless_events_after.
Qed.

(** What a poll returns, as log entries. *)
Definition polled (c : catalog) (case_id : string) (after limit : Z) (page : list log_entry) : Prop :=
  exists es, list_events (cat_events c) case_id (VInt after) (VInt limit) = Ok es /\ page = entry_of <$> es.

Lemma polled_page c case_id after limit page :
  outbox_state c -> 0 <= after -> 0 < limit -> polled c case_id after limit page ->
  page = take (Z.to_nat (Z.min limit MAX_POLL_LIMIT)) (drop (Z.to_nat after) (log_of c case_id)).
Proof.
  intros Hc Ha Hl (es & H & ->). apply outbox_read in H as ->; [|done..]. unfold log_of. by rewrite fmap_take, fmap_drop.
Qed.

#[export] Instance outbox_case_log : CaseLog catalog := {
  cl_state := outbox_state;
  cl_logs := log_of;
  cl_step := outbox_step false;
  cl_read := polled;
  cl_page := MAX_POLL_LIMIT;
  cl_page_pos := eq_refl;
  cl_step_state := outbox_state_step;
  cl_step_log c c' _ := outbox_log_step c c';
  cl_read_page := polled_page
}.

(** C6. The outbox refines an append-only log.  In every state reached from an empty outbox
    without compaction, each step of the outbox is a step of the abstract log (one entry at
    the end of one case, or none), a new event gets the length of its log plus one as its
    sequence number, and polling after a sequence number returns the entries behind that
    position with their positions, at most the limit or 500 of them. *)
Theorem outbox_refines_log c0 c :
  cat_events c0 = [] -> reachable (outbox_step false) c0 c ->
  (forall c', outbox_step false c c' -> log_step (log_of c) (log_of c')) /\
  (forall id case_id type payload now job c' e,
     append_event c id case_id type payload now job = Ok (c', e) ->
     ev_seq e = zlen (log_of c case_id) + 1 /\ log_of c' case_id = (log_of c case_id ++ [entry_of e])%list) /\
  (forall case_id after limit page, 0 <= after -> 0 < limit ->
     list_events (cat_events c) case_id (VInt after) (VInt limit) = Ok page ->
     ((fun e => (ev_seq e, entry_of e)) <$> page)
     = take (Z.to_nat (Z.min limit MAX_POLL_LIMIT)) (drop (Z.to_nat after) (numbered (log_of c case_id)))).
Proof.
  intros H0 Hr. assert (outbox_state c) as Hc.
  { eapply (reachable_invariant _ outbox_state); [|intros ? ?; apply outbox_state_step|exact Hr].
    destruct c0 as [cases jobs ev]. simpl in H0. subst ev. apply outbox_state_empty. }
  split; [intros c'; apply outbox_log_step|]. split.
  - intros id case_id type payload now job c' e Ha.
    apply append_event_ok in Ha as (text & _ & -> & -> & _). cbn [ev_seq].
    split.
    + rewrite (gapless_next _ _ (proj2 Hc)). unfold log_of, zlen. by rewrite length_fmap.
    + unfold log_of. cbn [cat_events]. rewrite filter_b_app, fmap_app. unfold filter_b at 2. simpl.
      unfold in_case at 2. simpl. by rewrite String.eqb_refl.
  - intros case_id after limit page Ha Hl H. apply outbox_read in H as ->; [|done..].
    rewrite fmap_take, fmap_drop. do 2 f_equal. unfold numbered, log_of. rewrite length_fmap.
    pose proof (proj2 Hc case_id) as Hg. cbv zeta in Hg. rewrite <- Hg.
    generalize (filter_b (in_case case_id) (cat_events c)). intros l. induction l as [|x l IH]; [done|].
    rewrite !fmap_cons. simpl. by rewrite IH.
Qed.

(** ** Witnesses *)

Lemma follow_lift case_id limit c c' copy :
  reachable (outbox_step false) c c' -> reachable (follow case_id limit) (c, copy) (c', copy).
Proof.
  induction 1 as [|d d' _ IH Hs]; [constructor|]. eapply reach_step; [exact IH|]. by apply follow_store.
Qed.

Definition demo_page : list log_entry :=
  entry_of <$> match list_events (cat_events demo_events) "case_1" (VInt 0) (VInt 1) with Ok es => es | Err _ => [] end.

Lemma demo_polled : polled demo_events "case_1" (zlen (@nil log_entry)) 1 demo_page.
Proof. eexists. split; [by vm_compute|reflexivity]. Qed.

Lemma follower_prefix_witness :
  demo_page `prefix_of` log_of demo_events "case_1" /\ demo_page <> [].
Proof.
  assert (0 < 1) as Hl by lia.
  destruct (@follower_prefix catalog outbox_case_log "case_1" 1 demo_catalog demo_events [] (outbox_state_empty ["case_1"] [demo_ev_job]) Hl
    (follow_lift "case_1" 1 _ _ [] (demo_events_reachable false))) as [_ H].
  destruct (H demo_page demo_polled) as [Hp _]. split; [exact Hp|]. by vm_compute.
Defined.

Lemma outbox_refines_log_witness :
  ((fun e => (ev_seq e, le_id (entry_of e))) <$>
     match list_events (cat_events demo_events) "case_1" (VInt 1) (VInt 10) with Ok es => es | Err _ => [] end)
  = [(2, "event_2")] /\
  log_step (log_of demo_events) (log_of demo_events).
Proof.
  split; [by vm_compute|].
  exact (proj1 (outbox_refines_log demo_catalog demo_events eq_refl (demo_events_reachable false)) demo_events
    ltac:(destruct demo_events; apply step_elsewhere)).
Defined.
