(* ===== verification/Scheduler.v ===== *)
(** * The stage scheduler: [scanner/scheduler.py]

    The dependency graph of a deep scan, which stages may run under an I/O limit, and how a
    failure propagates. A mapping of statuses that passed validation is a total function on
    the seven stages. *)

From Stdlib Require Import ZArith Lia String Ascii.
From stdpp Require Import base list strings gmap sorting.
From S2P Require Import Prelude PyStr Sql Json.

Local Open Scope string_scope.
Local Open Scope Z_scope.

(** ** Stages *)

(** scanner/scheduler.py:10-16 STAGE_VALIDATION: the stages of the one scan mode. *)
Inductive stage :=
  | Validation | Volumes | Enumeration | Artifacts | Enrichment | Carving | Finalization.

#[export] Instance stage_eq_dec : EqDecision stage.
Proof. solve_decision. Defined.

(** scanner/scheduler.py:18-23 STAGE_PENDING: the statuses of a stage. *)
Inductive stage_state := SPending | SRunning | SPaused | SCompleted | SFailed | SSkipped.

#[export] Instance stage_state_eq_dec : EqDecision stage_state.
Proof. solve_decision. Defined.

(** scanner/scheduler.py:10-16 STAGE_VALIDATION *)
Definition stage_name (s : stage) : string :=
  match s with
  | Validation => "validation" | Volumes => "volumes" | Enumeration => "enumeration"
  | Artifacts => "artifacts" | Enrichment => "enrichment" | Carving => "carving"
  | Finalization => "finalization"
  end.

(** scanner/scheduler.py:18-23 STAGE_PENDING *)
Definition state_name (s : stage_state) : string :=
  match s with
  | SPending => "pending" | SRunning => "running" | SPaused => "paused"
  | SCompleted => "completed" | SFailed => "failed" | SSkipped => "skipped"
  end.

(** scanner/scheduler.py:26-31 StageDefinition *)
Record StageDefinition := {
  sd_dependencies : list stage;
  io_cost : Z;
  mandatory : bool
}.

(** scanner/scheduler.py:52-70 STAGES *)
Definition STAGES (s : stage) : StageDefinition :=
  match s with
  | Validation => {| sd_dependencies := []; io_cost := 1; mandatory := true |}
  | Volumes => {| sd_dependencies := [Validation]; io_cost := 1; mandatory := true |}
  | Enumeration => {| sd_dependencies := [Volumes]; io_cost := 1; mandatory := true |}
  | Artifacts => {| sd_dependencies := [Enumeration]; io_cost := 1; mandatory := false |}
  | Enrichment => {| sd_dependencies := [Artifacts]; io_cost := 1; mandatory := false |}
  | Carving => {| sd_dependencies := [Validation; Volumes; Enumeration]; io_cost := 1;
                  mandatory := false |}
  | Finalization => {| sd_dependencies := [Enumeration; Artifacts; Enrichment; Carving];
                       io_cost := 1; mandatory := true |}
  end.

(** The keys of STAGES in the order of the source. *)
Definition stage_keys : list stage :=
  [Validation; Volumes; Enumeration; Artifacts; Enrichment; Carving; Finalization].

(** scanner/scheduler.py:48-49 SchedulerError: and the TypeError of comparing a
    non-integer limit. *)
Inductive scheduler_error :=
  | SchedulerError (message : string)
  | SchedulerTypeError.

Definition statuses : Type := stage -> stage_state.
Definition set_status (st : statuses) (s : stage) (v : stage_state) : statuses :=
  fun k => if decide (k = s) then v else st k.

(** scanner/scheduler.py:34-38 SchedulerConfig: once validated. *)
Record SchedulerConfig := {
  max_io_cost : Z;
  enable_enrichment : bool;
  enable_carving : bool
}.

(** scanner/scheduler.py:41-45 StagePlan *)
Record StagePlan := {
  scan_mode : string;
  runnable : list stage;
  blocked : list stage
}.

(** ** Validation *)

Definition stage_of_name (n : string) : option stage :=
  List.find (fun s => String.eqb (stage_name s) n) stage_keys.
Definition state_of_name (n : string) : option stage_state :=
  List.find (fun s => String.eqb (state_name s) n)
    [SPending; SRunning; SPaused; SCompleted; SFailed; SSkipped].

(** scanner/scheduler.py:237-249 _validate_statuses: returns the parsed mapping. *)
Definition validate_statuses (raw : gmap string string) : result scheduler_error statuses :=
  _ ← raise_if (negb (bool_decide (dom raw = list_to_set (stage_name <$> stage_keys))))
        (SchedulerError "statuses must contain exactly the known stages");
  _ ← raise_if (existsb (fun kv => match state_of_name (snd kv) with Some _ => false | None => true end)
                  (map_to_list raw)) (SchedulerError "unknown stage status");
  Ok (fun s => match raw !! stage_name s ≫= state_of_name with Some v => v | None => SPending end).

(** scanner/scheduler.py:252-258 _validate_config: returns the typed configuration. *)
Definition validate_config (max_io enrichment carving : value) : result scheduler_error SchedulerConfig :=
  n ← match max_io with
      | VInt n => if n <? 1 then Err (SchedulerError "max_io_cost must be positive") else Ok n
      | VBool _ => Err (SchedulerError "max_io_cost must be positive")
      | _ => Err SchedulerTypeError
      end;
  match enrichment, carving with
  | VBool e, VBool c => Ok {| max_io_cost := n; enable_enrichment := e; enable_carving := c |}
  | _, _ => Err (SchedulerError "stage enable flags must be boolean")
  end.

(** ** Ordering *)

(** [sorted] on stages: by name. *)
Definition sorted_stages (l : list stage) : list stage :=
  order_by_cols (fun s => (stage_name s, "")) l.

(** The loop of [stage_order]: [fuel] rounds, each taking at least one stage. *)
Fixpoint stage_rounds (fuel : nat) (remaining completed order : list stage)
    : result scheduler_error (list stage) :=
  match remaining with
  | [] => Ok order
  | _ =>
    match fuel with
    | O => Err (SchedulerError "stage graph contains a dependency cycle")
    | S fuel =>
      let ready := sorted_stages
        (filter_b (fun s => forallb (fun d => bool_decide (d ∈ completed)) (sd_dependencies (STAGES s)))
           remaining) in
      match ready with
      | [] => Err (SchedulerError "stage graph contains a dependency cycle")
      | _ => stage_rounds fuel (filter_b (fun s => negb (bool_decide (s ∈ ready))) remaining)
               (completed ++ ready) (order ++ ready)
      end
    end
  end.

(** scanner/scheduler.py:73-89 stage_order *)
Definition stage_order : result scheduler_error (list stage) :=
  stage_rounds (length stage_keys) stage_keys [] [].

(** ** Planning *)

(** scanner/scheduler.py:92-93 initial_statuses *)
Definition initial_statuses : statuses := fun _ => SPending.

(** scanner/scheduler.py:230-234 _enabled *)
Definition enabled (s : stage) (c : SchedulerConfig) : bool :=
  negb ((bool_decide (s = Enrichment) && negb (enable_enrichment c))
        || (bool_decide (s = Carving) && negb (enable_carving c))).

(** The set [completed] of [runnable_stages]. *)
Definition is_completed (st : statuses) (s : stage) : bool :=
  bool_decide (st s ∈ [SCompleted; SSkipped]).

(** scanner/scheduler.py:197-213 _dependencies_satisfied *)
Definition dependencies_satisfied (s : stage) (st : statuses) (c : SchedulerConfig) : bool :=
  let dependencies := sd_dependencies (STAGES s) in
  if bool_decide (s = Finalization) then
    forallb (fun d => is_completed st d || bool_decide (st d ∈ [SFailed; SSkipped]) || negb (enabled d c))
      (filter_b (fun d => negb (mandatory (STAGES d))) dependencies)
    && forallb (is_completed st) (filter_b (fun d => mandatory (STAGES d)) dependencies)
  else forallb (is_completed st) dependencies.

(** The loop of [runnable_stages] over the stage order. *)
Fixpoint select_stages (order : list stage) (st : statuses) (c : SchedulerConfig) (available_io : Z)
    : list stage * list stage :=
  match order with
  | [] => ([], [])
  | s :: order =>
    if negb (bool_decide (st s = SPending)) || negb (enabled s c)
    then select_stages order st c available_io
    else if negb (dependencies_satisfied s st c) then
      let (r, b) := select_stages order st c available_io in (r, s :: b)
    else if io_cost (STAGES s) <=? available_io then
      let (r, b) := select_stages order st c (available_io - io_cost (STAGES s)) in (s :: r, b)
    else let (r, b) := select_stages order st c available_io in (r, s :: b)
  end.

Definition active_io (st : statuses) : Z :=
  zsum ((fun s => io_cost (STAGES s)) <$> filter_b (fun s => bool_decide (st s = SRunning)) stage_keys).

(** scanner/scheduler.py:96-126 runnable_stages: after the two validations. *)
Definition runnable_stages (st : statuses) (c : SchedulerConfig) : result scheduler_error StagePlan :=
  order ← stage_order;
  let available_io := Z.max (max_io_cost c - active_io st) 0 in
  let (r, b) := select_stages order st c available_io in
  Ok {| scan_mode := "deep-scan-v1"; runnable := r; blocked := b |}.

(** scanner/scheduler.py:129-136 pause_all *)
Definition pause_all (st : statuses) : statuses :=
  fun s => match st s with SPending | SRunning => SPaused | v => v end.

(** scanner/scheduler.py:216-220 _has_failed_mandatory_dependency *)
Definition has_failed_mandatory_dependency (s : stage) (st : statuses) : bool :=
  existsb (fun d => bool_decide (st d = SFailed) && mandatory (STAGES d)) (sd_dependencies (STAGES s)).

(** scanner/scheduler.py:223-227 _has_failed_optional_dependency *)
Definition has_failed_optional_dependency (s : stage) (st : statuses) : bool :=
  existsb (fun d => bool_decide (st d = SFailed) && negb (mandatory (STAGES d))) (sd_dependencies (STAGES s)).

(** One iteration of the propagation loop. *)
Definition propagate_one (acc : statuses * bool) (s : stage) : statuses * bool :=
  let (st, scan_failed) := acc in
  if negb (bool_decide (st s = SPending)) then (st, scan_failed)
  else if has_failed_mandatory_dependency s st then (set_status st s SFailed, true)
  else if negb (bool_decide (s = Finalization)) && has_failed_optional_dependency s st
  then (set_status st s SSkipped, scan_failed)
  else (st, scan_failed).

(** scanner/scheduler.py:139-158 apply_stage_failure *)
Definition apply_stage_failure (st : statuses) (failed_stage : string)
    : result scheduler_error (statuses * bool) :=
  match stage_of_name failed_stage with
  | None => Err (SchedulerError "unknown stage")
  | Some f =>
    order ← stage_order;
    Ok (foldl propagate_one (set_status st f SFailed, mandatory (STAGES f)) order)
  end.

(** scanner/scheduler.py:161-179 restart_plan: [completed_stages] in any order. *)
Definition restart_plan (completed_stages : list string) (c : SchedulerConfig)
    : result scheduler_error StagePlan :=
  done_ ← mapM_result (fun n => match stage_of_name n with
                                | Some s => Ok s
                                | None => Err (SchedulerError "unknown completed stage")
                                end) completed_stages;
  _ ← raise_if (negb (forallb (fun s => forallb (fun d => bool_decide (d ∈ done_) || negb (enabled d c))
                                          (sd_dependencies (STAGES s))) done_))
        (SchedulerError "completed stage has incomplete dependencies");
  runnable_stages (fun s => if bool_decide (s ∈ done_) then SCompleted else SPending) c.

(** The loop of [execution_waves]. *)
Fixpoint waves_loop (fuel : nat) (st : statuses) (c : SchedulerConfig)
    : result scheduler_error (list (list stage)) :=
  match fuel with
  | O => Ok []
  | S fuel =>
    plan ← runnable_stages st c;
    match runnable plan with
    | [] => Ok []
    | r => ws ← waves_loop fuel (fun s => if bool_decide (s ∈ r) then SCompleted else st s) c;
           Ok (r :: ws)
    end
  end.

(** scanner/scheduler.py:182-194 execution_waves: eight rounds, one more than the stages. *)
Definition execution_waves (c : SchedulerConfig) : result scheduler_error (list (list stage)) :=
  waves_loop 8 initial_statuses c.

(** ** Facts about the graph *)

Definition the_order : list stage :=
  [Validation; Volumes; Enumeration; Artifacts; Carving; Enrichment; Finalization].

Lemma stage_order_eq : stage_order = Ok the_order.
Proof. by vm_compute. Qed.

Lemma elem_of_the_order s : s ∈ the_order.
Proof. destruct s; unfold the_order; elem_list. Qed.

Lemma NoDup_the_order : NoDup the_order.
Proof. apply (bool_decide_unpack _). by vm_compute. Qed.

Lemma stage_of_name_name s : stage_of_name (stage_name s) = Some s.
Proof. by destruct s. Qed.

Lemma runnable_stages_eq st c :
  runnable_stages st c =
  let p := select_stages the_order st c (Z.max (max_io_cost c - active_io st) 0) in
  Ok {| scan_mode := "deep-scan-v1"; runnable := p.1; blocked := p.2 |}.
Proof.
  unfold runnable_stages. rewrite stage_order_eq. unfold mbind, result_bind.
  by destruct (select_stages the_order st c _).
Qed.

Definition costs (l : list stage) : Z := zsum ((fun s => io_cost (STAGES s)) <$> l).

Lemma costs_cons s l : costs (s :: l) = io_cost (STAGES s) + costs l.
Proof. done. Qed.

Lemma io_cost_pos s : io_cost (STAGES s) = 1.
Proof. by destruct s. Qed.

(** Selection: what runs is pending, enabled and ready, within the budget; what is left of
    the enabled pending stages is blocked. *)
Lemma select_stages_spec order st c a r b :
  select_stages order st c a = (r, b) -> 0 <= a ->
  costs r <= a /\
  (forall s, s ∈ r -> st s = SPending /\ enabled s c = true /\ dependencies_satisfied s st c = true) /\
  (r ++ b)%list ≡ₚ filter_b (fun s => bool_decide (st s = SPending) && enabled s c) order.
Proof.
  revert a r b; induction order as [|s order IH]; intros a r b H Ha; simpl in H.
  { injection H as <- <-. split; [done|]. split; [|done]. by intros s ?%elem_of_nil. }
  unfold filter_b in *. simpl.
  destruct (bool_decide (st s = SPending)) eqn:Hp; simpl in H |- *; [|by apply IH].
  destruct (enabled s c) eqn:He; simpl in H |- *; [|by apply IH].
  apply bool_decide_eq_true in Hp.
  destruct (dependencies_satisfied s st c) eqn:Hd; simpl in H.
  - destruct (Z.leb_spec (io_cost (STAGES s)) a) as [Hle|Hgt].
    + destruct (select_stages order st c _) as [r' b'] eqn:Hs. injection H as <- <-.
      apply IH in Hs as (Hc & Hr & Hpm); [|lia]. split; [|split].
      * rewrite costs_cons. lia.
      * intros x [->|Hx]%elem_of_cons; auto.
      * simpl. by rewrite Hpm.
    + destruct (select_stages order st c a) as [r' b'] eqn:Hs. injection H as <- <-.
      apply IH in Hs as (Hc & Hr & Hpm); [|lia]. split; [done|]. split; [done|].
      rewrite <- Permutation_middle. by rewrite Hpm.
  - destruct (select_stages order st c a) as [r' b'] eqn:Hs. injection H as <- <-.
    apply IH in Hs as (Hc & Hr & Hpm); [|lia]. split; [done|]. split; [done|].
    rewrite <- Permutation_middle. by rewrite Hpm.
Qed.

(** A plan is safe: under any validated statuses and configuration the runnable stages
    are pending, enabled, have their dependencies satisfied, and together with the running
    stages stay within the I/O limit (or nothing is added when the limit is already used up);
    runnable and blocked stages together are exactly the enabled pending stages, each once. *)
Theorem runnable_stages_sound st c plan :
  runnable_stages st c = Ok plan ->
  (forall s, s ∈ runnable plan ->
     st s = SPending /\ enabled s c = true /\ dependencies_satisfied s st c = true) /\
  costs (runnable plan) <= Z.max (max_io_cost c - active_io st) 0 /\
  NoDup (runnable plan ++ blocked plan)%list /\
  (forall s, s ∈ (runnable plan ++ blocked plan)%list <-> st s = SPending /\ enabled s c = true).
Proof.
  rewrite runnable_stages_eq. intros H.
  destruct (select_stages the_order st c _) as [r b] eqn:Hs. injection H as <-. simpl.
  apply select_stages_spec in Hs as (Hc & Hr & Hp); [|lia].
  split; [done|]. split; [done|]. split.
  - rewrite Hp. apply NoDup_filter_b, NoDup_the_order.
  - intros s. rewrite Hp, elem_of_filter_b, andb_true_iff, bool_decide_eq_true.
    pose proof (elem_of_the_order s). tauto.
Qed.

(** ** Failure propagation *)

(** The position of a stage in the order. *)
Definition pos (s : stage) : nat :=
  match s with
  | Validation => 0 | Volumes => 1 | Enumeration => 2 | Artifacts => 3 | Carving => 4
  | Enrichment => 5 | Finalization => 6
  end.

Lemma deps_before s d : d ∈ sd_dependencies (STAGES s) -> (pos d < pos s)%nat.
Proof.
  destruct s; simpl; rewrite ?elem_of_cons, elem_of_nil; intros H;
    repeat destruct H as [->|H]; simpl; try lia; done.
Qed.

Lemma order_prefix l1 x l2 s :
  the_order = (l1 ++ x :: l2)%list -> s ∈ l1 -> (pos s < pos x)%nat.
Proof.
  intros He Hs. assert (StronglySorted (fun a b => pos a < pos b)%nat the_order) as Hsort.
  { unfold the_order. repeat constructor. }
  rewrite He in Hsort. apply StronglySorted_app in Hsort as (Hb & _ & _).
  apply Hb; [done|left].
Qed.

(** A pending stage has no failed dependency that would have decided it. *)
Definition closed_at (st : statuses) (s : stage) : Prop :=
  st s = SPending ->
  has_failed_mandatory_dependency s st = false /\
  (s <> Finalization -> has_failed_optional_dependency s st = false).

Definition closed (st : statuses) : Prop := forall s, closed_at st s.

Lemma existsb_ext_in {A} (p q : A -> bool) l :
  (forall x, x ∈ l -> p x = q x) -> existsb p l = existsb q l.
Proof.
  induction l as [|x l IH]; intros H; [done|]. simpl. rewrite (H x) by left. f_equal.
  apply IH. intros y Hy. apply H. by right.
Qed.

Lemma closed_at_ext st st' s :
  st' s = st s -> (forall d, d ∈ sd_dependencies (STAGES s) -> st' d = st d) ->
  closed_at st s -> closed_at st' s.
Proof.
  unfold closed_at, has_failed_mandatory_dependency, has_failed_optional_dependency.
  intros Hs Hd Hc. rewrite Hs. intros Hp.
  rewrite (existsb_ext_in _ (fun d => bool_decide (st d = SFailed) && mandatory (STAGES d)))
    by (intros d Hin; by rewrite Hd).
  rewrite (existsb_ext_in (fun d => bool_decide (st' d = SFailed) && negb (mandatory (STAGES d)))
             (fun d => bool_decide (st d = SFailed) && negb (mandatory (STAGES d))))
    by (intros d Hin; by rewrite Hd).
  auto.
Qed.

Lemma set_status_other st s v k : k <> s -> set_status st s v k = st k.
Proof. unfold set_status. by case_decide. Qed.

Lemma set_status_same st s v : set_status st s v s = v.
Proof. unfold set_status. by case_decide. Qed.

Lemma propagate_one_other st b x k : k <> x -> (propagate_one (st, b) x).1 k = st k.
Proof.
  intros Hk. unfold propagate_one. repeat case_match; simpl; auto using set_status_other.
Qed.

Lemma propagate_one_at st b x : closed_at (propagate_one (st, b) x).1 x.
Proof.
  unfold propagate_one, closed_at. intros Hp.
  destruct (bool_decide (st x = SPending)) eqn:E; simpl in Hp.
  - destruct (has_failed_mandatory_dependency x st) eqn:Em; simpl in Hp;
      [by rewrite set_status_same in Hp|].
    destruct (bool_decide (x = Finalization)) eqn:Ef; simpl in Hp |- *.
    + split; [done|]. apply bool_decide_eq_true in Ef. done.
    + destruct (has_failed_optional_dependency x st) eqn:Eo; simpl in Hp |- *;
        [by rewrite set_status_same in Hp|]. done.
  - apply bool_decide_eq_false in E. done.
Qed.

Lemma propagate_closed l1 l2 acc :
  the_order = (l1 ++ l2)%list -> (forall s, s ∈ l1 -> closed_at acc.1 s) ->
  closed (foldl propagate_one acc l2).1.
Proof.
  revert l1 acc; induction l2 as [|x l2 IH]; intros l1 [st b] He Hc.
  - intros s. apply Hc. rewrite app_nil_r in He. rewrite <- He. apply elem_of_the_order.
  - cbn [foldl]. apply (IH (l1 ++ [x])%list); [by rewrite <- app_assoc|].
    intros s [Hs|Hs%list_elem_of_singleton]%elem_of_app; [|subst; apply propagate_one_at].
    pose proof (order_prefix _ _ _ _ He Hs) as Hpos. simpl in Hc.
    apply (closed_at_ext st); [..|by apply Hc].
    + apply propagate_one_other. intros ->. lia.
    + intros d Hd. apply propagate_one_other. intros ->. apply deps_before in Hd. lia.
Qed.

(** What one iteration may do to a stage: decide it if it was pending, report a new failure. *)
Lemma propagate_effect l st b st' b' :
  foldl propagate_one (st, b) l = (st', b') ->
  (forall s, st s <> SPending -> st' s = st s) /\
  (forall s, st s = SPending -> st' s ∈ [SPending; SFailed; SSkipped]) /\
  (b' = true <-> b = true \/ exists s, st s = SPending /\ st' s = SFailed).
Proof.
  revert st b; induction l as [|x l IH]; intros st b H; cbn [foldl] in H.
  { injection H as <- <-. split; [done|]. split; [intros s ->; left|].
    split; [by left|]. intros [?|(s & H1 & H2)]; [done|congruence]. }
  destruct (propagate_one (st, b) x) as [st1 b1] eqn:E.
  destruct (IH _ _ H) as (I1 & I2 & I3). clear IH H.
  assert (forall k, k <> x -> st1 k = st k) as Hoth.
  { intros k Hk. pose proof (propagate_one_other st b x k Hk) as Hp. by rewrite E in Hp. }
  unfold propagate_one in E.
  destruct (bool_decide (st x = SPending)) eqn:Ep; simpl in E;
    [apply bool_decide_eq_true in Ep|apply bool_decide_eq_false in Ep; injection E as <- <-; auto].
  assert (forall k, st k <> SPending -> k <> x) as Hne by (intros k ? ->; done).
  destruct (has_failed_mandatory_dependency x st).
  { injection E as <- <-. pose proof (set_status_same st x SFailed) as Hx. split; [|split].
    - intros s Hs. rewrite I1; rewrite Hoth by auto; done.
    - intros s Hs. destruct (decide (s = x)) as [->|Hsx]; [rewrite I1, Hx by congruence; elem_list|].
      apply I2. by rewrite Hoth.
    - rewrite I3. split; [|by left]. intros _. right. exists x. rewrite I1, Hx by congruence. done. }
  destruct (negb _ && _).
  { injection E as <- <-. pose proof (set_status_same st x SSkipped) as Hx. split; [|split].
    - intros s Hs. rewrite I1; rewrite Hoth by auto; done.
    - intros s Hs. destruct (decide (s = x)) as [->|Hsx]; [rewrite I1, Hx by congruence; elem_list|].
      apply I2. by rewrite Hoth.
    - rewrite I3. split; (intros [?|(s & H1 & H2)]; [by left|right]); exists s.
      + destruct (decide (s = x)) as [->|Hsx]; [congruence|]. by rewrite <- Hoth.
      + destruct (decide (s = x)) as [->|Hsx]; [rewrite I1 in H2; congruence|]. by rewrite Hoth. }
  injection E as <- <-. auto.
Qed.

Lemma apply_stage_failure_ok st name st' sf :
  apply_stage_failure st name = Ok (st', sf) ->
  exists f, stage_of_name name = Some f /\
    foldl propagate_one (set_status st f SFailed, mandatory (STAGES f)) the_order = (st', sf).
Proof.
  unfold apply_stage_failure. destruct (stage_of_name name) as [f|]; [|done].
  rewrite stage_order_eq. unfold mbind, result_bind. intros [= H]. eauto.
Qed.

(** Failure propagation: reporting a failed stage marks it failed, changes no stage that
    was not pending, leaves each pending stage pending, failed or skipped, and leaves no
    pending stage behind with a failed mandatory dependency or, finalization apart, with a
    failed optional one; the scan fails exactly when the stage is mandatory or some pending
    stage was failed with it. *)
Theorem apply_stage_failure_spec st name st' sf :
  apply_stage_failure st name = Ok (st', sf) ->
  exists f, stage_of_name name = Some f /\ st' f = SFailed /\ closed st' /\
    (forall s, s <> f -> st s <> SPending -> st' s = st s) /\
    (forall s, s <> f -> st s = SPending -> st' s ∈ [SPending; SFailed; SSkipped]) /\
    (sf = true <-> mandatory (STAGES f) = true \/
       exists s, s <> f /\ st s = SPending /\ st' s = SFailed).
Proof.
  intros H. apply apply_stage_failure_ok in H as (f & Hf & H). exists f. split; [done|].
  destruct (propagate_effect _ _ _ _ _ H) as (I1 & I2 & I3).
  pose proof (set_status_same st f SFailed) as Hsame.
  split; [rewrite I1; congruence|]. split.
  { pose proof (propagate_closed [] the_order (set_status st f SFailed, mandatory (STAGES f)) eq_refl) as Hc.
    rewrite H in Hc. apply Hc. by intros s ?%elem_of_nil. }
  split; [|split].
  - intros s Hs Hp. rewrite I1; rewrite set_status_other; done.
  - intros s Hs Hp. apply I2. by rewrite set_status_other.
  - rewrite I3. split; (intros [?|(s & H1 & H2)]; [by left|right]); exists s.
    + assert (s <> f) as Hsf by (intros ->; congruence).
      rewrite set_status_other in H1 by done. done.
    + rewrite set_status_other by done. tauto.
Qed.

(** ** Progress *)

(** A scan under a configuration: planned stages start, running stages end or fail. *)
Inductive sched_step (c : SchedulerConfig) (st : statuses) : statuses -> Prop :=
  | step_start plan s :
      runnable_stages st c = Ok plan -> s ∈ runnable plan ->
      sched_step c st (set_status st s SRunning)
  | step_complete s : st s = SRunning -> sched_step c st (set_status st s SCompleted)
  | step_fail s st' sf :
      st s = SRunning -> apply_stage_failure st (stage_name s) = Ok (st', sf) -> sched_step c st st'.

(** Nothing is ever paused, and no failure is left unpropagated. *)
Definition sched_inv (st : statuses) : Prop :=
  closed st /\ forall s, st s <> SPaused.

Lemma closed_set st s v :
  closed st -> v <> SFailed -> v <> SPending -> closed (set_status st s v).
Proof.
  intros Hc Hv Hp k Hk. unfold set_status in Hk. case_decide; [done|].
  destruct (Hc k Hk) as [Hm Ho]. unfold has_failed_mandatory_dependency, has_failed_optional_dependency in *.
  assert (forall g, existsb (fun d => bool_decide (st d = SFailed) && g d) (sd_dependencies (STAGES k)) = false ->
    existsb (fun d => bool_decide (set_status st s v d = SFailed) && g d) (sd_dependencies (STAGES k)) = false) as Hg.
  { intros g Hg. apply not_true_iff_false. intros (d & Hd & E)%existsb_elem.
    rewrite andb_true_iff, bool_decide_eq_true in E. destruct E as [E Egd].
    unfold set_status in E. case_decide; [congruence|].
    assert (existsb (fun d => bool_decide (st d = SFailed) && g d) (sd_dependencies (STAGES k)) = true); [|congruence].
    apply existsb_elem. exists d. rewrite bool_decide_true by done. by rewrite Egd. }
  split; [by apply Hg|]. intros Hf. by apply Hg, Ho.
Qed.

Lemma sched_step_inv c st st' : sched_inv st -> sched_step c st st' -> sched_inv st'.
Proof.
  intros [Hc Hn] [plan s Hp Hs|s Hs|s st2 sf Hs Hf].
  - split; [by apply closed_set|]. intros k. unfold set_status. by case_decide.
  - split; [by apply closed_set|]. intros k. unfold set_status. by case_decide.
  - apply apply_stage_failure_ok in Hf as (f & _ & Hf).
    destruct (propagate_effect _ _ _ _ _ Hf) as (I1 & I2 & _). split.
    + pose proof (propagate_closed [] the_order (set_status st f SFailed, mandatory (STAGES f)) eq_refl) as Hcl.
      rewrite Hf in Hcl. apply Hcl. by intros k ?%elem_of_nil.
    + intros k. destruct (decide (set_status st f SFailed k = SPending)) as [Hk|Hk].
      * apply I2 in Hk. rewrite !elem_of_cons, elem_of_nil in Hk. intros E. rewrite E in Hk.
        destruct Hk as [?|[?|[?|[]]]]; done.
      * rewrite I1 by done. unfold set_status. by case_decide.
Qed.

(** The first stage of the order that is pending and enabled. *)
Definition waiting (st : statuses) (c : SchedulerConfig) (s : stage) : bool :=
  bool_decide (st s = SPending) && enabled s c.

Lemma first_waiting l (p : stage -> bool) s :
  s ∈ l -> p s = true ->
  exists l1 x l2, l = (l1 ++ x :: l2)%list /\ p x = true /\ forall k, k ∈ l1 -> p k = false.
Proof.
  induction l as [|y l IH]; [by intros ?%elem_of_nil|]. intros Hs Hp.
  destruct (p y) eqn:E; [exists [], y, l; split; [done|]; split; [done|]; by intros k ?%elem_of_nil|].
  apply elem_of_cons in Hs as [->|Hs]; [congruence|].
  destruct (IH Hs Hp) as (l1 & x & l2 & -> & Hx & Hl1). exists (y :: l1), x, l2.
  split; [done|]. split; [done|]. intros k [->|Hk]%elem_of_cons; auto.
Qed.

Lemma select_first l1 x l2 st c a :
  (forall k, k ∈ l1 -> waiting st c k = false) -> waiting st c x = true ->
  dependencies_satisfied x st c = true -> 1 <= a ->
  x ∈ (select_stages (l1 ++ x :: l2) st c a).1.
Proof.
  intros Hl1 Hx Hd Ha. induction l1 as [|y l1 IH]; simpl.
  - unfold waiting in Hx. rewrite andb_true_iff in Hx. destruct Hx as [-> ->]. simpl.
    rewrite Hd. simpl. rewrite io_cost_pos, (proj2 (Z.leb_le 1 a)) by lia.
    destruct (select_stages l2 st c _). simpl. left.
  - assert (waiting st c y = false) as Hy by (apply Hl1; left).
    unfold waiting in Hy. apply andb_false_iff in Hy.
    assert (negb (bool_decide (st y = SPending)) || negb (enabled y c) = true) as ->
      by (destruct Hy as [-> | ->]; [done|apply orb_true_r]).
    apply IH. intros k Hk. apply Hl1. by right.
Qed.

(** Dependencies of the first waiting stage are settled. *)
Lemma first_waiting_ready st c l1 x l2 :
  the_order = (l1 ++ x :: l2)%list -> (forall k, k ∈ l1 -> waiting st c k = false) ->
  sched_inv st -> (forall s, st s <> SRunning) -> st x = SPending ->
  dependencies_satisfied x st c = true.
Proof.
  intros He Hl1 [Hc Hn] Hrun Hp. destruct (Hc x Hp) as [Hm Ho].
  assert (forall d, d ∈ sd_dependencies (STAGES x) ->
    is_completed st d = true \/ st d = SFailed \/ (st d = SPending /\ enabled d c = false)) as Hdep.
  { intros d Hd. assert (d ∈ l1) as Hdl.
    { pose proof (elem_of_the_order d) as Hin. rewrite He in Hin.
      apply elem_of_app in Hin as [?|[->|Hin]%elem_of_cons]; [done|apply deps_before in Hd; lia|].
      exfalso. apply deps_before in Hd.
      assert (pos x < pos d)%nat; [|lia].
      apply list_elem_of_split in Hin as (m1 & m2 & ->).
      apply (order_prefix (l1 ++ x :: m1) d m2); [by rewrite He, <- app_assoc|].
      rewrite elem_of_app. right. left. }
    apply Hl1 in Hdl. unfold waiting, is_completed in *.
    pose proof (Hn d). pose proof (Hrun d). destruct (st d) eqn:E; try done; auto. }
  unfold has_failed_mandatory_dependency, has_failed_optional_dependency in *.
  assert (forall d, d ∈ sd_dependencies (STAGES x) -> st d = SFailed -> mandatory (STAGES d) = false) as Hopt.
  { intros d Hd Hf. destruct (mandatory (STAGES d)) eqn:E; [|done]. exfalso.
    apply not_true_iff_false in Hm. apply Hm, existsb_elem. exists d.
    rewrite bool_decide_true by done. by rewrite E. }
  unfold dependencies_satisfied. destruct (bool_decide (x = Finalization)) eqn:Ex.
  - rewrite andb_true_iff, !forallb_elem. split; intros d [Hd Hmd]%elem_of_filter_b.
    + destruct (Hdep d Hd) as [->|[Hf|[_ ->]]]; [done| |apply orb_true_r].
      rewrite (bool_decide_true (st d ∈ _)) by (rewrite Hf; elem_list). by rewrite orb_true_r.
    + destruct (Hdep d Hd) as [?|[Hf|[Hpd Hen]]]; [done|rewrite Hopt in Hmd by done; done|].
      by destruct d.
  - apply bool_decide_eq_false in Ex. specialize (Ho Ex).
    rewrite forallb_elem. intros d Hd.
    destruct (Hdep d Hd) as [?|[Hf|[Hpd Hen]]]; [done| |].
    + exfalso. apply not_true_iff_false in Ho. apply Ho, existsb_elem. exists d.
      rewrite bool_decide_true by done. by rewrite Hopt.
    + exfalso. revert Hd Hen Ex. clear. destruct x; simpl; rewrite ?elem_of_cons, elem_of_nil;
        intros Hd; repeat destruct Hd as [->|Hd]; unfold enabled; simpl; done.
Qed.

(** C7. The scheduler never deadlocks: in every state a scan can reach from the initial
    statuses by starting planned stages, completing them and failing them in any order, if no
    stage is running and an enabled stage is still pending, then the plan runs a stage. *)
Theorem scheduler_progress c st s :
  1 <= max_io_cost c -> reachable (sched_step c) initial_statuses st ->
  (forall k, st k <> SRunning) -> st s = SPending -> enabled s c = true ->
  exists plan, runnable_stages st c = Ok plan /\ runnable plan <> [].
Proof.
  intros Hmax Hr Hrun Hs He.
  assert (sched_inv st) as Hinv.
  { eapply reachable_invariant; [|intros; by eapply sched_step_inv|exact Hr].
    split; [|done]. intros k _. unfold has_failed_mandatory_dependency, has_failed_optional_dependency.
    by destruct k. }
  destruct (first_waiting the_order (waiting st c) s) as (l1 & x & l2 & Ho & Hx & Hl1).
  { apply elem_of_the_order. }
  { unfold waiting. rewrite bool_decide_true by done. done. }
  assert (st x = SPending) as Hxp.
  { unfold waiting in Hx. rewrite andb_true_iff, bool_decide_eq_true in Hx. apply Hx. }
  pose proof (first_waiting_ready st c l1 x l2 Ho Hl1 Hinv Hrun Hxp) as Hd.
  assert (active_io st = 0) as Hio.
  { unfold active_io. rewrite filter_b_none; [done|]. intros k _. apply bool_decide_eq_false. apply Hrun. }
  pose proof (select_first l1 x l2 st c (Z.max (max_io_cost c - 0) 0) Hl1 Hx Hd ltac:(lia)) as Hin.
  rewrite <- Ho in Hin. rewrite runnable_stages_eq, Hio. eexists. split; [reflexivity|].
  cbn [runnable]. intros E. rewrite E in Hin. by apply elem_of_nil in Hin.
Qed.

(** ** Execution waves *)

Definition with_max (c : SchedulerConfig) (m : Z) : SchedulerConfig :=
  {| max_io_cost := m; enable_enrichment := enable_enrichment c; enable_carving := enable_carving c |}.

Lemma select_enough order st c m n a b :
  Z.of_nat (length order) <= a -> Z.of_nat (length order) <= b ->
  select_stages order st (with_max c m) a = select_stages order st (with_max c n) b.
Proof.
  revert a b; induction order as [|s order IH]; intros a b Ha Hb; [done|]. cbn [length] in *.
  cbn [select_stages]. change (enabled s (with_max c m)) with (enabled s c).
  change (enabled s (with_max c n)) with (enabled s c).
  change (dependencies_satisfied s st (with_max c m)) with (dependencies_satisfied s st c).
  change (dependencies_satisfied s st (with_max c n)) with (dependencies_satisfied s st c).
  rewrite io_cost_pos, !(proj2 (Z.leb_le 1 _)) by lia.
  rewrite (IH a b), (IH (a - 1) (b - 1)) by lia. done.
Qed.

Lemma waves_enough fuel st c m :
  7 <= m -> (forall s, st s <> SRunning) ->
  waves_loop fuel st (with_max c m) = waves_loop fuel st (with_max c 7).
Proof.
  intros Hm. revert st; induction fuel as [|fuel IH]; intros st Hr; [done|]. cbn [waves_loop].
  assert (active_io st = 0) as Hio.
  { unfold active_io. rewrite filter_b_none; [done|]. intros k _. apply bool_decide_eq_false, Hr. }
  rewrite !runnable_stages_eq, Hio. cbv zeta. unfold mbind, result_bind. cbn [runnable max_io_cost with_max].
  rewrite (select_enough the_order st c m 7 (Z.max (m - 0) 0) (Z.max (7 - 0) 0)) by (simpl; lia).
  destruct (select_stages the_order st (with_max c 7) _).1 as [|x r]; [done|].
  rewrite IH; [done|]. intros s. by case_bool_decide.
Qed.

(** Each enabled dependency of a stage ran in an earlier wave. *)
Fixpoint waves_ordered (c : SchedulerConfig) (before : list stage) (ws : list (list stage)) : bool :=
  match ws with
  | [] => true
  | w :: ws =>
      forallb (fun s => forallb (fun d => bool_decide (d ∈ before) || negb (enabled d c))
                          (sd_dependencies (STAGES s))) w
      && waves_ordered c (before ++ w) ws
  end.

Definition waves_ok (c : SchedulerConfig) (r : result scheduler_error (list (list stage))) : bool :=
  match r with
  | Ok ws => waves_ordered c [] ws && forallb (fun w => (0 <? zlen w) && (zlen w <=? max_io_cost c)) ws
      && bool_decide (NoDup (concat ws))
      && forallb (fun s => Bool.eqb (bool_decide (s ∈ concat ws)) (enabled s c)) stage_keys
  | Err _ => false
  end.

(** Every scan completes: for each I/O limit of at least one and each choice of optional
    stages, [execution_waves] ends with waves that run each enabled stage exactly once and no
    disabled one, never exceed the limit, and run a stage only after every enabled stage it
    depends on; the order is a topological order of the stage graph. *)
Theorem execution_waves_complete c :
  1 <= max_io_cost c ->
  exists ws, execution_waves c = Ok ws /\ waves_ordered c [] ws = true /\
    (forall w, w ∈ ws -> 1 <= zlen w <= max_io_cost c) /\
    NoDup (concat ws) /\ (forall s, s ∈ concat ws <-> enabled s c = true).
Proof.
  intros Hm. assert (waves_ok c (execution_waves c) = true) as Hok.
  { unfold execution_waves. destruct c as [m e ca]; simpl in Hm.
    destruct (Z.lt_ge_cases m 7) as [Hlt|Hge].
    - assert (m = 1 \/ m = 2 \/ m = 3 \/ m = 4 \/ m = 5 \/ m = 6) as Hcases by lia.
      repeat destruct Hcases as [->|Hcases]; [..|subst m]; destruct e, ca; by vm_compute.
    - set (c := {| max_io_cost := 0; enable_enrichment := e; enable_carving := ca |}).
      change {| max_io_cost := m; enable_enrichment := e; enable_carving := ca |} with (with_max c m).
      rewrite waves_enough by done.
      assert (waves_ok (with_max c 7) (waves_loop 8 initial_statuses (with_max c 7)) = true) as H7
        by (subst c; destruct e, ca; by vm_compute).
      destruct (waves_loop 8 initial_statuses (with_max c 7)) as [ws|]; [|done].
      unfold waves_ok in *. rewrite !andb_true_iff in *. destruct H7 as [[[Ho Hw] Hn] Hs].
      split; [split; [split|]|].
      + clear -Ho. revert Ho. generalize (@nil stage).
        induction ws as [|w ws IH]; intros b; simpl; [done|]. rewrite !andb_true_iff. intros [H1 H2]. auto.
      + rewrite forallb_elem in *. intros w Hin. specialize (Hw w Hin). simpl in *.
        rewrite andb_true_iff, Z.ltb_lt, Z.leb_le in *. lia.
      + done.
      + exact Hs. }
  destruct (execution_waves c) as [ws|]; [|done]. exists ws. split; [done|].
  unfold waves_ok in Hok. rewrite !andb_true_iff, !forallb_elem, bool_decide_eq_true in Hok.
  destruct Hok as [[[Ho Hw] Hn] Hs]. split; [done|]. split; [|split; [done|]].
  - intros w Hin. specialize (Hw w Hin). rewrite andb_true_iff, Z.ltb_lt, Z.leb_le in Hw. lia.
  - intros s. specialize (Hs s ltac:(destruct s; unfold stage_keys; elem_list)).
    apply Bool.eqb_prop in Hs. rewrite <- Hs. by rewrite bool_decide_eq_true.
Qed.

(** ** Concrete plans *)

Definition demo_config : SchedulerConfig :=
  {| max_io_cost := 2; enable_enrichment := true; enable_carving := true |}.

Lemma runnable_stages_sound_witness :
  exists plan, runnable_stages initial_statuses demo_config = Ok plan /\
    NoDup (runnable plan ++ blocked plan)%list.
Proof.
  destruct (runnable_stages initial_statuses demo_config) as [plan|] eqn:E; [|by vm_compute in E].
  exists plan. split; [done|]. exact (proj1 (proj2 (proj2 (runnable_stages_sound _ _ _ E)))).
Defined.

Lemma apply_stage_failure_spec_witness :
  exists st' sf, apply_stage_failure initial_statuses "artifacts" = Ok (st', sf) /\ closed st' /\ sf = false.
Proof.
  destruct (apply_stage_failure initial_statuses "artifacts") as [[st' sf]|] eqn:E; [|by vm_compute in E].
  exists st', sf. split; [done|].
  destruct (apply_stage_failure_spec _ _ _ _ E) as (f & _ & _ & Hc & _). split; [exact Hc|].
  assert (match apply_stage_failure initial_statuses "artifacts" with Ok (_, b) => b | _ => true end = false)
    as Hb by (by vm_compute). by rewrite E in Hb.
Defined.

Lemma scheduler_progress_witness :
  exists plan, runnable_stages initial_statuses demo_config = Ok plan /\ runnable plan <> [].
Proof.
  apply (scheduler_progress demo_config initial_statuses Validation); [by vm_compute|apply reach_refl|done..].
Defined.

Lemma execution_waves_complete_witness :
  exists ws, execution_waves demo_config = Ok ws /\ NoDup (concat ws).
Proof.
  destruct (execution_waves_complete demo_config) as (ws & H1 & _ & _ & H2 & _); [by vm_compute|].
  exists ws. split; [exact H1|exact H2].
Defined.
