(* ===== verification/Fat12.v ===== *)
(** * FAT12 floppies: [scanner/fat12_parser.py]

    The parser of a FAT12 superfloppy: geometry detection, sector reads with gaps, the
    file allocation table, cluster chains of allocated and deleted entries, and the sector
    ranges left to carve. The reader is the caller's: [read_at offset length] is the bytes it
    returned or [None] for an [OSError]. Decoded names are lists of code points. *)

From Stdlib Require Import ZArith Lia String Ascii.
From stdpp Require Import base list strings gmap sorting.
From S2P Require Import Prelude PyStr Sql Timestamp.

Local Open Scope string_scope.
Local Open Scope Z_scope.

(** ** Constants and data *)

(** scanner/fat12_parser.py:14-18 FAT12_EOC_MIN *)
Definition FAT12_EOC_MIN : Z := 4088.
(** scanner/fat12_parser.py:15-15 FAT12_BAD_CLUSTER *)
Definition FAT12_BAD_CLUSTER : Z := 4087.
(** scanner/fat12_parser.py:16-16 FAT12_RESERVED_MIN *)
Definition FAT12_RESERVED_MIN : Z := 4080.
(** scanner/fat12_parser.py:18-18 DIRECTORY_ENTRY_SIZE *)
Definition DIRECTORY_ENTRY_SIZE : Z := 32.

(** scanner/fat12_parser.py:21-26 Fat12Error: its code and message. *)
Record Fat12Error := { fat12_code : string; fat12_message : string }.

Definition fail12 {A} (code message : string) : result Fat12Error A :=
  Err {| fat12_code := code; fat12_message := message |}.

(** scanner/fat12_parser.py:35-48 Fat12Geometry *)
Record Fat12Geometry := Geo {
  geo_label : string;
  total_sectors : Z;
  sectors_per_cluster : Z;
  root_entries : Z;
  sectors_per_fat : Z;
  sectors_per_track : Z;
  heads : Z;
  cylinders : Z;
  media_descriptor : Z;
  bytes_per_sector : Z;
  reserved_sectors : Z;
  fat_count : Z
}.

(** scanner/fat12_parser.py:50-52 size_bytes *)
Definition geo_size_bytes (g : Fat12Geometry) : Z := total_sectors g * bytes_per_sector g.

(** scanner/fat12_parser.py:54-57 root_directory_sectors *)
Definition root_directory_sectors (g : Fat12Geometry) : Z :=
  (root_entries g * DIRECTORY_ENTRY_SIZE + bytes_per_sector g - 1) / bytes_per_sector g.

(** scanner/fat12_parser.py:59-65 first_data_sector *)
Definition first_data_sector (g : Fat12Geometry) : Z :=
  reserved_sectors g + fat_count g * sectors_per_fat g + root_directory_sectors g.

(** scanner/fat12_parser.py:67-69 cluster_count *)
Definition cluster_count (g : Fat12Geometry) : Z :=
  (total_sectors g - first_data_sector g) / sectors_per_cluster g.

(** scanner/fat12_parser.py:72-77 SUPPORTED_GEOMETRIES *)
Definition SUPPORTED_GEOMETRIES : list Fat12Geometry :=
  [Geo "360 KiB" 720 2 112 2 9 2 40 253 512 1 2;
   Geo "720 KiB" 1440 2 112 3 9 2 80 249 512 1 2;
   Geo "1.2 MiB" 2400 1 224 7 15 2 80 249 512 1 2;
   Geo "1.44 MiB" 2880 1 224 9 18 2 80 240 512 1 2].

(** scanner/entry_normalization.py:28-32 Extent *)
Record Extent := { ext_offset : Z; ext_length : Z; ext_sparse : bool }.

(** scanner/photorec_carving.py:38-44 CarveRange *)
Record CarveRange := { cr_offset : Z; cr_length : Z }.

(** A decoded text: its code points. *)
Abbreviation text := (list Z).

(** scanner/fat12_parser.py:80-96 Fat12Entry *)
Record Fat12Entry := {
  e_index : Z;
  e_name : text;
  e_short_name : text;
  e_raw_short_name : bytes;
  e_type : string;
  e_attributes : list string;
  e_allocated : bool;
  e_size_bytes : Z;
  e_first_cluster : option Z;
  e_cluster_chain : list Z;
  e_confidence : string;
  e_recovery_state : string;
  e_timestamps : list (string * string);
  e_extents : list Extent;
  e_warnings : list string
}.

(** scanner/fat12_parser.py:99-105 Fat12ScanResult *)
Record Fat12ScanResult := {
  sr_geometry : Fat12Geometry;
  sr_entries : list Fat12Entry;
  sr_carve_ranges : list CarveRange;
  sr_unreadable : list Z;
  sr_warnings : list string
}.

(** ** Reading *)

(** [b[lo:hi]] for non-negative bounds. *)
Definition slice (lo hi : Z) (b : bytes) : bytes := take (Z.to_nat (hi - lo)) (drop (Z.to_nat lo) b).

(** [b.ljust(n, b'\x00')]. *)
Definition ljust0 (n : Z) (b : bytes) : bytes := (b ++ replicate (Z.to_nat n - length b) 0)%list.

Section reader.
  Context (read_at : Z -> Z -> option bytes) (known_bad : gset Z).

(** scanner/fat12_parser.py:114-129 read_sectors: the data and the updated set of
    unreadable sectors. *)
Fixpoint read_sectors (unreadable : gset Z) (start : Z) (count : nat) (sector_size : Z)
    : bytes * gset Z :=
  match count with
  | O => ([], unreadable)
  | S count =>
    let '(data, unreadable) :=
      if bool_decide (start ∈ known_bad)
      then (replicate (Z.to_nat sector_size) 0, {[start]} ∪ unreadable)
      else
        let data := match read_at (start * sector_size) sector_size with Some d => d | None => [] end in
        if negb (zlen data =? sector_size)
        then (ljust0 sector_size (take (Z.to_nat sector_size) data), {[start]} ∪ unreadable)
        else (data, unreadable) in
    let '(rest, unreadable) := read_sectors unreadable (start + 1) count sector_size in
    ((data ++ rest)%list, unreadable)
  end.

(** scanner/fat12_parser.py:241-248 _read_fat_copies *)
Fixpoint read_fat_copies (g : Fat12Geometry) (unreadable : gset Z) (index : Z) (count : nat)
    : list bytes * gset Z :=
  match count with
  | O => ([], unreadable)
  | S count =>
    let start := reserved_sectors g + index * sectors_per_fat g in
    let '(copy, unreadable) :=
      read_sectors unreadable start (Z.to_nat (sectors_per_fat g)) (bytes_per_sector g) in
    let '(rest, unreadable) := read_fat_copies g unreadable (index + 1) count in
    (copy :: rest, unreadable)
  end.
End reader.

(** ** Geometry *)

(** scanner/fat12_parser.py:223-238 _geometry_matches: the BPB fields of the boot sector. *)
Definition geometry_matches (g : Fat12Geometry) (boot : bytes) : bool :=
  let total_sectors_16 := u16le boot 19 in
  let total := if total_sectors_16 =? 0 then u32le boot 32 else total_sectors_16 in
  (u16le boot 11 =? bytes_per_sector g) && (byte_at boot 13 =? sectors_per_cluster g)
  && (u16le boot 14 =? reserved_sectors g) && (byte_at boot 16 =? fat_count g)
  && (u16le boot 17 =? root_entries g) && (total =? total_sectors g)
  && (byte_at boot 21 =? media_descriptor g) && (u16le boot 22 =? sectors_per_fat g)
  && (u16le boot 24 =? sectors_per_track g) && (u16le boot 26 =? heads g).

(** [.rstrip(b' \x00').upper()] on ASCII bytes. *)
Definition rstrip_bytes (cs : list Z) (b : bytes) : bytes :=
  rdrop_while (fun x => existsb (Z.eqb x) cs) b.
Definition upper_bytes (b : bytes) : bytes :=
  (fun x => if (97 <=? x) && (x <=? 122) then x - 32 else x) <$> b.

(** scanner/fat12_parser.py:179-220 detect_geometry *)
Definition detect_geometry (boot : bytes) (source_size_bytes : Z) : result Fat12Error Fat12Geometry :=
  if zlen boot <? 512 then fail12 "boot_sector_unreadable" "FAT12 boot sector was truncated"
  else if negb (existsb (Z.eqb (byte_at boot 0)) [233; 235])
          || negb (bool_decide (slice 510 512 boot = [85; 170]))
  then fail12 "non_dos_signature" "source lacks a supported DOS boot signature"
  else if negb (bool_decide (upper_bytes (rstrip_bytes [32; 0] (slice 54 62 boot)) = [70; 65; 84; 49; 50]))
  then fail12 "non_dos_signature" "source does not identify as DOS FAT12"
  else
    let candidates := filter_b (fun g => geo_size_bytes g =? source_size_bytes) SUPPORTED_GEOMETRIES in
    match candidates with
    | [] => fail12 "unsupported_geometry" "source capacity is not an advertised FAT12 floppy geometry"
    | _ =>
      match filter_b (fun g => geometry_matches g boot) candidates with
      | [g] => if 4085 <=? cluster_count g
               then fail12 "not_fat12" "BPB cluster count exceeds FAT12 limits"
               else Ok g
      | _ => fail12 "ambiguous_geometry"
               "boot geometry does not exactly match the supported capacity; geometry was not guessed"
      end
    end.

(** ** The file allocation table *)

(** scanner/fat12_parser.py:268-274 _decode_fat: one iteration, the twelve-bit value at an index. *)
Definition fat_entry (raw : bytes) (index : Z) : Z :=
  let offset := index + index / 2 in
  if zlen raw <=? offset + 1 then 0
  else
    let word := Z.lor (byte_at raw (Z.to_nat offset)) (Z.shiftl (byte_at raw (Z.to_nat (offset + 1))) 8) in
    if negb (Z.land index 1 =? 0) then Z.land (Z.shiftr word 4) 4095 else Z.land word 4095.

(** scanner/fat12_parser.py:266-275 _decode_fat *)
Definition decode_fat (raw : bytes) (count : Z) : list Z :=
  fat_entry raw <$> zrange_to 0 count.

(** [fat[i]] for an index in range. *)
Definition fat_at (fat : list Z) (i : Z) : Z := nth (Z.to_nat i) fat 0.

(** scanner/fat12_parser.py:278-279 _fat_header_valid *)
Definition fat_header_valid (media : Z) (fat : list Z) : bool :=
  (2 <=? zlen fat) && (fat_at fat 0 =? Z.lor 3840 media) && (FAT12_EOC_MIN <=? fat_at fat 1).

(** scanner/fat12_parser.py:251-263 _select_fat *)
Definition select_fat (copies : list bytes) (g : Fat12Geometry) : list Z * list string :=
  let decoded := (fun copy => decode_fat copy (cluster_count g + 2)) <$> copies in
  match filter_b (fat_header_valid (media_descriptor g)) decoded with
  | [] => (replicate (Z.to_nat (cluster_count g + 2)) 0, ["fat_copies_corrupt"])
  | v :: vs =>
    (v, ((if negb (zlen (v :: vs) =? zlen decoded) then ["fat_copy_corrupt"] else [])
         ++ (if existsb (fun f => negb (bool_decide (f = v))) vs then ["fat_copies_disagree"] else []))%list)
  end.

(** ** Cluster chains *)

(** scanner/fat12_parser.py:426-428 _clusters_for_size *)
Definition clusters_for_size (size : Z) (g : Fat12Geometry) : Z :=
  let cluster_size := sectors_per_cluster g * bytes_per_sector g in
  if size =? 0 then 0 else (size + cluster_size - 1) / cluster_size.

(** The while loop of [_allocated_chain]; [chain] is what it has appended so far. *)
Fixpoint follow_chain (fuel : nat) (fat : list Z) (limit : Z) (cursor : Z) (chain : list Z)
    : list Z * list string * string :=
  match fuel with
  | O => (chain, [], "allocated_intact")
  | S fuel =>
    if negb ((2 <=? cursor) && (cursor <? zlen fat) && (zlen chain <=? limit))
    then (chain, [], "allocated_intact")
    else if bool_decide (cursor ∈ chain) then (chain, ["fat12_cluster_loop"], "partial")
    else
      let chain := (chain ++ [cursor])%list in
      let next_cluster := fat_at fat cursor in
      if FAT12_EOC_MIN <=? next_cluster then (chain, [], "allocated_intact")
      else if next_cluster =? FAT12_BAD_CLUSTER
      then (chain, ["fat12_bad_cluster_marker"], "partial_bad_sector")
      else if next_cluster =? 0 then (chain, ["fat12_chain_terminated_free"], "partial")
      else if (FAT12_RESERVED_MIN <=? next_cluster) || (next_cluster <? 2)
      then (chain, ["fat12_reserved_cluster_marker"], "partial")
      else follow_chain fuel fat limit next_cluster chain
  end.

(** [any(current != previous + 1 for previous, current in zip(chain, chain[1:]))]. *)
Fixpoint fragmented (chain : list Z) : bool :=
  match chain with
  | p :: ((c :: _) as rest) => negb (c =? p + 1) || fragmented rest
  | _ => false
  end.

(** scanner/fat12_parser.py:350-403 _allocated_chain: the loop can append at most one cluster
    more than [cluster_count + 1] before its test stops it. *)
Definition allocated_chain (first size : Z) (fat : list Z) (g : Fat12Geometry)
    : list Z * string * string * list string :=
  if (size =? 0) && (first <? 2) then ([], "certain", "allocated_intact", [])
  else if (first <? 2) || (zlen fat <=? first)
  then ([], "low", "partial", ["fat12_missing_first_cluster"])
  else
    let '(chain, warnings, status) :=
      follow_chain (Z.to_nat (cluster_count g + 2)) fat (cluster_count g) first [] in
    let expected := clusters_for_size size g in
    let '(chain, warnings, status) :=
      if zlen chain <? expected
      then (chain, warnings ++ ["fat12_cluster_chain_short"], "partial")%list
      else if (expected <? zlen chain) && (0 <? expected)
      then (take (Z.to_nat expected) chain, warnings ++ ["fat12_cluster_chain_long"], status)%list
      else (chain, warnings, status) in
    let '(warnings, status) :=
      if String.eqb status "allocated_intact" && fragmented chain
      then (warnings ++ ["fat12_fragmented_chain"], "allocated_fragmented")%list
      else (warnings, status) in
    let confidence :=
      if starts_with "partial" status then "low"
      else if String.eqb status "allocated_intact" && bool_decide (warnings = []) then "certain"
      else "high" in
    (chain, confidence, status, warnings).

(** scanner/fat12_parser.py:406-423 _deleted_chain *)
Definition deleted_chain (first size : Z) (fat : list Z) (g : Fat12Geometry)
    : list Z * string * string * list string :=
  let count := clusters_for_size size g in
  if (first <? 2) || (count =? 0)
  then ([], "unknown", "deleted_metadata_only", ["fat12_deleted_chain_missing"])
  else
    let candidate := zrange_to first (first + count) in
    if zlen fat <=? first + count - 1
    then ([], "low", "deleted_partial", ["fat12_deleted_chain_out_of_range"])
    else if existsb (fun c => negb (fat_at fat c =? 0)) candidate
    then ([], "low", "deleted_reused", ["fat12_deleted_cluster_reused"])
    else (candidate, "medium", "deleted_contiguous_candidate",
          "fat12_deleted_chain_inferred_contiguous"
          :: (if 1 <? count then ["fat12_deleted_fragmentation_unknown"] else [])).

(** The first sector of a cluster. *)
Definition cluster_sector (g : Fat12Geometry) (cluster : Z) : Z :=
  first_data_sector g + (cluster - 2) * sectors_per_cluster g.

(** scanner/fat12_parser.py:431-440 _cluster_extents *)
Definition cluster_extents12 (chain : list Z) (g : Fat12Geometry) : list Extent :=
  (fun cluster => {| ext_offset := cluster_sector g cluster * bytes_per_sector g;
                     ext_length := sectors_per_cluster g * bytes_per_sector g;
                     ext_sparse := false |}) <$> chain.

(** scanner/fat12_parser.py:443-453 _chain_has_bad_sector *)
Definition chain_has_bad_sector (chain : list Z) (g : Fat12Geometry) (unreadable : gset Z) : bool :=
  existsb (fun cluster =>
    existsb (fun sector => bool_decide (sector ∈ unreadable))
      (zrange (cluster_sector g cluster) (Z.to_nat (sectors_per_cluster g)))) chain.

(** ** Free space *)

(** scanner/fat12_parser.py:482-483 _sector_range *)
Definition sector_range (first last sector_size : Z) : CarveRange :=
  {| cr_offset := first * sector_size; cr_length := (last - first + 1) * sector_size |}.

(** The loop over [readable_sectors\[1:\]]. *)
Fixpoint merge_sectors (start previous : Z) (l : list Z) (sector_size : Z) : list CarveRange :=
  match l with
  | [] => [sector_range start previous sector_size]
  | sector :: l =>
    if negb (sector =? previous + 1)
    then sector_range start previous sector_size :: merge_sectors sector sector l sector_size
    else merge_sectors start sector l sector_size
  end.

(** The list [readable_sectors]. *)
Definition free_readable_sectors (fat : list Z) (g : Fat12Geometry) (unreadable : gset Z) : list Z :=
  concat ((fun cluster =>
     if negb (fat_at fat cluster =? 0) then []
     else filter_b (fun sector => negb (bool_decide (sector ∈ unreadable)))
            (zrange (cluster_sector g cluster) (Z.to_nat (sectors_per_cluster g))))
   <$> zrange_to 2 (Z.min (zlen fat) (cluster_count g + 2))).

(** scanner/fat12_parser.py:456-479 _free_cluster_ranges *)
Definition free_cluster_ranges (fat : list Z) (g : Fat12Geometry) (unreadable : gset Z) : list CarveRange :=
  match free_readable_sectors fat g unreadable with
  | [] => []
  | s :: l => merge_sectors s s l (bytes_per_sector g)
  end.

(** ** Names, attributes and times of a directory entry *)

(** scanner/fat12_parser.py:486-492 _decode_short_name: Latin-1 bytes are their code points. *)
Definition decode_short_name (raw : bytes) (deleted : bool) : text :=
  let name := slice 0 8 raw in
  let name := if deleted then (match name with [] => [] | _ :: r => 63 :: r end) else name in
  let base := match rdrop_while (Z.eqb 32) name with [] => [63] | b => b end in
  let extension := rdrop_while (Z.eqb 32) (slice 8 11 raw) in
  match extension with [] => base | _ => (base ++ 46 :: extension)%list end.

(** scanner/fat12_parser.py:524-529 _lfn_checksum *)
Definition lfn_checksum (short_name : bytes) : Z :=
  foldl (fun checksum v =>
           Z.land (Z.lor (Z.shiftl (Z.land checksum 1) 7) (Z.shiftr checksum 1) + v) 255) 0 short_name.

(** Sixteen-bit units of a byte string. *)
Fixpoint units16 (b : bytes) : list Z :=
  match b with
  | lo :: hi :: b => lo + 256 * hi :: units16 b
  | _ => []
  end.

(** [bytes.decode("utf-16le")] on units; [None] for an unpaired surrogate. *)
Fixpoint decode_utf16 (l : list Z) : option text :=
  match l with
  | [] => Some []
  | u :: l' =>
    if (55296 <=? u) && (u <=? 56319) then
      match l' with
      | v :: l'' => if (56320 <=? v) && (v <=? 57343)
                    then r ← decode_utf16 l''; Some (65536 + (u - 55296) * 1024 + (v - 56320) :: r)
                    else None
      | [] => None
      end
    else if (56320 <=? u) && (u <=? 57343) then None
    else r ← decode_utf16 l'; Some (u :: r)
  end.

Definition zdict_get {A} (d : list (Z * A)) (k : Z) : option A :=
  match List.find (fun kv => fst kv =? k) d with Some kv => Some (snd kv) | None => None end.

(** The loop of [_decode_lfn]: the units by sequence and the expected count, or invalid. *)
Fixpoint lfn_parts (entries : list bytes) (checksum : Z) (ordered : list (Z * list Z)) (expected : option Z)
    : option (list (Z * list Z) * option Z) :=
  match entries with
  | [] => Some (ordered, expected)
  | raw :: entries =>
    let order := byte_at raw 0 in
    let sequence := Z.land order 31 in
    let expected := if negb (Z.land order 64 =? 0) then Some sequence else expected in
    if (sequence =? 0) || negb (byte_at raw 13 =? checksum) then None
    else lfn_parts entries checksum
           ((sequence, units16 (slice 1 11 raw ++ slice 14 26 raw ++ slice 28 32 raw)) :: ordered) expected
  end.

(** scanner/fat12_parser.py:495-521 _decode_lfn: a later entry of the same sequence replaces
    an earlier one. *)
Definition decode_lfn (entries : list bytes) (short_name : bytes) (deleted : bool)
    : option text * option string :=
  if bool_decide (entries = []) || deleted then (None, None)
  else
    match lfn_parts entries (lfn_checksum short_name) [] None with
    | Some (ordered, Some count) =>
      if forallb (fun i => bool_decide (i ∈ ordered.*1)) (zrange_to 1 (count + 1))
         && forallb (fun i => (1 <=? i) && (i <=? count)) ordered.*1
      then
        let units := concat ((fun i => match zdict_get ordered i with Some u => u | None => [] end)
                             <$> zrange_to 1 (count + 1)) in
        match decode_utf16 (filter_b (fun u => negb ((u =? 0) || (u =? 65535))) units) with
        | Some name => (Some name, None)
        | None => (None, Some "fat12_lfn_invalid")
        end
      else (None, Some "fat12_lfn_invalid")
    | _ => (None, Some "fat12_lfn_invalid")
    end.

(** scanner/fat12_parser.py:532-540 _attribute_names *)
Definition attribute_names (v : Z) : list string :=
  snd <$> filter_b (fun bn => negb (Z.land v (fst bn) =? 0))
    [(1, "read_only"); (2, "hidden"); (4, "system"); (16, "directory"); (32, "archive")].

(** [datetime.isoformat()] of a year between 1980 and 2107. *)
Definition isoformat (t : datetime) : string :=
  of_chars (Z_chars (year t) ++ "-" :: pad2 (month t) ++ "-" :: pad2 (day t) ++ "T" :: pad2 (hour t)
            ++ ":" :: pad2 (minute t) ++ ":" :: pad2 (second t))%list%char.

(** scanner/fat12_parser.py:557-571 _fat_datetime *)
Definition fat_datetime (date_bits : Z) (time_bits : option Z) : option string :=
  let day_ := Z.land date_bits 31 in
  let month_ := Z.land (Z.shiftr date_bits 5) 15 in
  let year_ := 1980 + Z.land (Z.shiftr date_bits 9) 127 in
  if (day_ =? 0) || (month_ =? 0) then None
  else
    let '(hour_, minute_, second_) :=
      match time_bits with
      | None => (0, 0, 0)
      | Some t => (Z.land (Z.shiftr t 11) 31, Z.land (Z.shiftr t 5) 63, Z.land t 31 * 2)
      end in
    let t := DT year_ month_ day_ hour_ minute_ second_ in
    if datetime_ok t then Some (isoformat t) else None.

(** scanner/fat12_parser.py:543-554 _timestamps *)
Definition timestamps (raw : bytes) : list (string * string) :=
  omap (fun '(name, date_bits, time_bits) =>
          match fat_datetime date_bits time_bits with Some v => Some (name, v) | None => None end)
    [("created", u16le raw 16, Some (u16le raw 14)); ("accessed", u16le raw 18, None);
     ("modified", u16le raw 24, Some (u16le raw 22))].

(** ** The root directory *)

(** scanner/fat12_parser.py:302-346 _parse_root_directory: one short entry. *)
Definition parse_entry (raw : bytes) (index : Z) (pending_lfn : list bytes) (g : Fat12Geometry)
    (fat : list Z) (unreadable : gset Z) : Fat12Entry :=
  let attributes := byte_at raw 11 in
  let deleted := byte_at raw 0 =? 229 in
  let short_name := decode_short_name (slice 0 11 raw) deleted in
  let '(long_name, lfn_warning) := decode_lfn pending_lfn (slice 0 11 raw) deleted in
  let name := match long_name with Some ((_ :: _) as n) => n | _ => short_name end in
  let first_cluster := u16le raw 26 in
  let size := u32le raw 28 in
  let '(chain, confidence, recovery_state, chain_warnings) :=
    if deleted then deleted_chain first_cluster size fat g else allocated_chain first_cluster size fat g in
  let warnings := ((match lfn_warning with Some w => [w] | None => [] end) ++ chain_warnings)%list in
  let bad := chain_has_bad_sector chain g unreadable in
  {| e_index := index;
     e_name := name;
     e_short_name := short_name;
     e_raw_short_name := slice 0 11 raw;
     e_type := if negb (Z.land attributes 16 =? 0) then "directory" else "file";
     e_attributes := attribute_names attributes;
     e_allocated := negb deleted;
     e_size_bytes := size;
     e_first_cluster := if 2 <=? first_cluster then Some first_cluster else None;
     e_cluster_chain := chain;
     e_confidence := if bad then "low" else confidence;
     e_recovery_state := if bad then "partial_bad_sector" else recovery_state;
     e_timestamps := timestamps raw;
     e_extents := cluster_extents12 chain g;
     e_warnings := dedup (if bad then (warnings ++ ["fat12_bad_sector_in_content"])%list else warnings) |}.

(** The loop of [_parse_root_directory]. *)
Fixpoint parse_entries (count : nat) (index : Z) (root : bytes) (pending_lfn : list bytes)
    (g : Fat12Geometry) (fat : list Z) (unreadable : gset Z) : list Fat12Entry :=
  match count with
  | O => []
  | S count =>
    let raw := slice (index * DIRECTORY_ENTRY_SIZE) ((index + 1) * DIRECTORY_ENTRY_SIZE) root in
    if negb (zlen raw =? DIRECTORY_ENTRY_SIZE) || (byte_at raw 0 =? 0) then []
    else if byte_at raw 11 =? 15
    then parse_entries count (index + 1) root (pending_lfn ++ [raw])%list g fat unreadable
    else if negb (Z.land (byte_at raw 11) 8 =? 0)
    then parse_entries count (index + 1) root [] g fat unreadable
    else parse_entry raw index pending_lfn g fat unreadable
         :: parse_entries count (index + 1) root [] g fat unreadable
  end.

(** scanner/fat12_parser.py:282-347 _parse_root_directory *)
Definition parse_root_directory (root : bytes) (g : Fat12Geometry) (fat : list Z) (unreadable : gset Z)
    : list Fat12Entry :=
  parse_entries (Z.to_nat (root_entries g)) 0 root [] g fat unreadable.

(** ** The scan *)

(** [sorted(set)]. *)
Definition sorted_set (s : gset Z) : list Z := order_by_int id (elements s).

(** scanner/fat12_parser.py:132-176 scan_fat12 *)
Definition scan_fat12 (read_at : Z -> Z -> option bytes) (source_size_bytes : Z) (known_bad_sectors : list Z)
    : result Fat12Error Fat12ScanResult :=
  if source_size_bytes <? 512
  then fail12 "source_too_small" "source is too small for a DOS FAT boot sector"
  else
  match read_at 0 512 with
  | None => fail12 "boot_sector_unreadable" "FAT12 boot sector could not be read"
  | Some boot =>
    if negb (zlen boot =? 512) then fail12 "boot_sector_unreadable" "FAT12 boot sector was truncated"
    else
      g ← detect_geometry boot source_size_bytes;
      let bad : gset Z := list_to_set known_bad_sectors in
      let '(fats, unreadable) := read_fat_copies read_at bad g bad 0 (Z.to_nat (fat_count g)) in
      let '(fat, fat_warnings) := select_fat fats g in
      let root_start := reserved_sectors g + fat_count g * sectors_per_fat g in
      let '(root, unreadable) := read_sectors read_at bad unreadable root_start
        (Z.to_nat (root_directory_sectors g)) (bytes_per_sector g) in
      let in_root s := (root_start <=? s) && (s <? root_start + root_directory_sectors g) in
      Ok {| sr_geometry := g;
            sr_entries := parse_root_directory root g fat unreadable;
            sr_carve_ranges := free_cluster_ranges fat g unreadable;
            sr_unreadable := sorted_set unreadable;
            sr_warnings := dedup (fat_warnings
              ++ (if existsb in_root (elements unreadable) then ["root_directory_read_gap"] else [])
              ++ (if bool_decide (unreadable = ∅) then [] else ["source_read_gaps"]))%list |}
  end.

(** ** The decoded table *)

(** The reference packing of pairs of twelve-bit values into three bytes. *)
Fixpoint encode_fat (l : list (Z * Z)) : bytes :=
  match l with
  | [] => []
  | (a, b) :: l => a mod 256 :: (a / 256 + 16 * (b mod 16)) :: b / 16 :: encode_fat l
  end.

Definition flatten_pairs (l : list (Z * Z)) : list Z := concat ((fun '(a, b) => [a; b]) <$> l).

Definition twelve_bit (p : Z * Z) : Prop := 0 <= p.1 < 4096 /\ 0 <= p.2 < 4096.

Lemma length_encode_fat l : length (encode_fat l) = (3 * length l)%nat.
Proof. induction l as [|[a b] l IH]; simpl; lia. Qed.

Lemma encode_fat_bytes l k a b :
  l !! k = Some (a, b) ->
  byte_at (encode_fat l) (3 * k) = a mod 256 /\
  byte_at (encode_fat l) (3 * k + 1) = a / 256 + 16 * (b mod 16) /\
  byte_at (encode_fat l) (3 * k + 2) = b / 16.
Proof.
  revert k; induction l as [|[a' b'] l IH]; intros [|k] H; simplify_eq/=; [done|].
  destruct (IH k H) as (H1 & H2 & H3). unfold byte_at in *.
  replace (k + S (k + S (k + 0)))%nat with (S (S (3 * k))) by lia.
  replace (S (S (3 * k)) + 1)%nat with (S (S (3 * k + 1))) by lia.
  replace (S (S (3 * k)) + 2)%nat with (S (S (3 * k + 2))) by lia. auto.
Qed.

Lemma land_4095 x : Z.land x 4095 = x mod 4096.
Proof. exact (Z.land_ones x 12 ltac:(lia)). Qed.

Lemma even_index k : Z.land (2 * Z.of_nat k) 1 = 0.
Proof. rewrite (Z.land_ones _ 1) by lia. rewrite Z.mul_comm. apply Z.mod_mul. lia. Qed.

Lemma odd_index k : Z.land (2 * Z.of_nat k + 1) 1 = 1.
Proof.
  rewrite (Z.land_ones _ 1) by lia. change (2 ^ 1) with 2.
  rewrite Z.add_comm, Z.mul_comm, Z.mod_add by lia. done.
Qed.

Lemma fat_entry_pair l k a b :
  Forall twelve_bit l -> l !! k = Some (a, b) ->
  fat_entry (encode_fat l) (2 * Z.of_nat k) = a /\ fat_entry (encode_fat l) (2 * Z.of_nat k + 1) = b.
Proof.
  intros Hl Hk. rewrite Forall_lookup in Hl. destruct (Hl k _ Hk) as [Ha Hb]. simpl in Ha, Hb.
  destruct (encode_fat_bytes l k a b Hk) as (B0 & B1 & B2).
  assert (k < length l)%nat as Hlen by (by eapply lookup_lt_Some).
  assert (zlen (encode_fat l) = 3 * Z.of_nat (length l)) as Hz.
  { unfold zlen. rewrite length_encode_fat. lia. }
  split.
  - unfold fat_entry. rewrite even_index. simpl negb. cbv iota.
    rewrite (Z.mul_comm 2 (Z.of_nat k)), Z.div_mul by lia.
    rewrite Hz, (proj2 (Z.leb_gt _ _)) by lia.
    replace (Z.to_nat (Z.of_nat k * 2 + Z.of_nat k)) with (3 * k)%nat by lia.
    replace (Z.to_nat (Z.of_nat k * 2 + Z.of_nat k + 1)) with (3 * k + 1)%nat by lia.
    rewrite B0, B1, (lor_shiftl_add _ _ 8), land_4095 by (pose proof (Z.mod_pos_bound a 256); lia).
    change (2 ^ 8) with 256. Z.to_euclidean_division_equations. lia.
  - unfold fat_entry. rewrite odd_index. simpl negb. cbv iota.
    assert ((2 * Z.of_nat k + 1) / 2 = Z.of_nat k) as ->
      by (Z.to_euclidean_division_equations; lia).
    rewrite Hz, (proj2 (Z.leb_gt _ _)) by lia.
    replace (Z.to_nat (2 * Z.of_nat k + 1 + Z.of_nat k)) with (3 * k + 1)%nat by lia.
    replace (Z.to_nat (2 * Z.of_nat k + 1 + Z.of_nat k + 1)) with (3 * k + 2)%nat by lia.
    rewrite B1, B2, (lor_shiftl_add _ _ 8), Z.shiftr_div_pow2, land_4095
      by (change (2 ^ 8) with 256; Z.to_euclidean_division_equations; lia).
    change (2 ^ 8) with 256. change (2 ^ 4) with 16. Z.to_euclidean_division_equations. lia.
Qed.

Lemma fat_entry_bounds raw i : 0 <= fat_entry raw i <= 4095.
Proof.
  unfold fat_entry. destruct (_ <=? _); [lia|]. cbv zeta.
  destruct (negb _); rewrite land_4095;
    match goal with |- context [?x mod 4096] => pose proof (Z.mod_pos_bound x 4096) end; lia.
Qed.

Lemma length_decode_fat raw n : length (decode_fat raw n) = Z.to_nat n.
Proof. unfold decode_fat, zrange_to. rewrite length_fmap, length_zrange. lia. Qed.

Lemma flatten_pairs_zrange (f : Z -> Z) (l : list (Z * Z)) base :
  (forall k a b, l !! k = Some (a, b) ->
     f (base + 2 * Z.of_nat k) = a /\ f (base + 2 * Z.of_nat k + 1) = b) ->
  f <$> zrange base (2 * length l) = flatten_pairs l.
Proof.
  revert base; induction l as [|[a b] l IH]; intros base H; [done|].
  replace (2 * length ((a, b) :: l))%nat with (S (S (2 * length l))) by (simpl; lia).
  cbn [zrange]. rewrite !fmap_cons. unfold flatten_pairs. rewrite fmap_cons. cbn [concat app].
  destruct (H 0%nat a b eq_refl) as [H0 H1]. rewrite Z.mul_0_r, Z.add_0_r in H0, H1.
  rewrite H0, H1. do 2 f_equal. apply IH. intros k a' b' Hk.
  destruct (H (S k) a' b' Hk) as [HA HB]. split; rewrite <- ?HA, <- ?HB; f_equal; lia.
Qed.

(** The allocation table decodes exactly: reading back the standard packing of any pairs
    of twelve-bit values gives those values, and whatever bytes the table holds every decoded
    entry is a twelve-bit value and there is one entry per index asked for. *)
Theorem decode_fat_roundtrip l :
  (Forall twelve_bit l -> decode_fat (encode_fat l) (2 * Z.of_nat (length l)) = flatten_pairs l) /\
  forall raw n, length (decode_fat raw n) = Z.to_nat n /\
    Forall (fun v => 0 <= v <= 4095) (decode_fat raw n).
Proof.
  split.
  - intros Hl. unfold decode_fat, zrange_to.
    replace (Z.to_nat (2 * Z.of_nat (length l) - 0)) with (2 * length l)%nat by lia.
    apply flatten_pairs_zrange. intros k a b Hk. simpl. by apply fat_entry_pair.
  - intros raw n. split; [apply length_decode_fat|].
    apply Forall_forall. intros v (i & -> & _)%list_elem_of_fmap. apply fat_entry_bounds.
Qed.

(** ** Chains *)

(** Each cluster's table entry is the next cluster of the chain. *)
Fixpoint linked (fat : list Z) (chain : list Z) : Prop :=
  match chain with
  | p :: ((c :: _) as rest) => fat_at fat p = c /\ linked fat rest
  | _ => True
  end.

Lemma linked_snoc fat chain c :
  linked fat chain -> (forall p, last chain = Some p -> fat_at fat p = c) -> linked fat (chain ++ [c])%list.
Proof.
  induction chain as [|p [|q r] IH]; intros Hl Hp; [done| |].
  - simpl. split; [by apply Hp|done].
  - destruct Hl as [H1 H2]. change ((p :: q :: r) ++ [c])%list with (p :: ((q :: r) ++ [c]))%list.
    simpl. split; [done|]. apply IH; [done|]. intros x Hx. apply Hp. done.
Qed.

Lemma linked_take fat n chain : linked fat chain -> linked fat (take n chain).
Proof.
  revert n; induction chain as [|p [|q r] IH]; intros [|[|n]] Hl; try done.
  simpl in *. destruct Hl as [H1 H2]. split; [done|]. apply (IH (S n) H2).
Qed.

Definition in_table (fat : list Z) (c : Z) : Prop := 2 <= c < zlen fat.

(** A chain the code may return: distinct clusters of the table, each linked to the next. *)
Definition sound_chain (fat : list Z) (chain : list Z) : Prop :=
  NoDup chain /\ Forall (in_table fat) chain /\ linked fat chain.

Lemma sound_chain_take fat n chain : sound_chain fat chain -> sound_chain fat (take n chain).
Proof.
  intros (H1 & H2 & H3). split; [|split; [by apply Forall_take|by apply linked_take]].
  apply (sublist_NoDup _ chain); [done|apply sublist_take].
Qed.

Lemma follow_chain_sound fuel fat limit cursor chain chain' w s :
  sound_chain fat chain -> (forall p, last chain = Some p -> fat_at fat p = cursor) ->
  zlen chain <= limit + 1 ->
  follow_chain fuel fat limit cursor chain = (chain', w, s) ->
  sound_chain fat chain' /\ zlen chain' <= limit + 1 /\ (exists more, chain' = (chain ++ more)%list) /\
  s ∈ ["allocated_intact"; "partial"; "partial_bad_sector"] /\ (s = "allocated_intact" -> w = []).
Proof.
  revert cursor chain; induction fuel as [|fuel IH]; intros cursor chain Hs Hp Hl H.
  { injection H as <- <- <-. split; [done|]. split; [done|].
    split; [exists []; by rewrite app_nil_r|]. split; [left|done]. }
  cbn [follow_chain] in H. destruct (negb _) eqn:Ht.
  { injection H as <- <- <-. split; [done|]. split; [done|].
    split; [exists []; by rewrite app_nil_r|]. split; [left|done]. }
  rewrite negb_false_iff, !andb_true_iff, Z.leb_le, Z.ltb_lt, Z.leb_le in Ht.
  destruct (bool_decide (cursor ∈ chain)) eqn:Hc.
  { injection H as <- <- <-. split; [done|]. split; [done|].
    split; [exists []; by rewrite app_nil_r|]. split; [elem_list|done]. }
  apply bool_decide_eq_false in Hc.
  assert (sound_chain fat (chain ++ [cursor])) as Hs'.
  { destruct Hs as (H1 & H2 & H3). split; [|split].
    - apply NoDup_app. split; [done|]. split; [|apply NoDup_singleton].
      by intros x Hx ->%list_elem_of_singleton.
    - apply Forall_app. split; [done|]. constructor; [|constructor]. unfold in_table. lia.
    - by apply linked_snoc. }
  assert (zlen (chain ++ [cursor]) <= limit + 1) as Hl' by (unfold zlen in *; rewrite length_app; simpl; lia).
  assert (exists more, (chain ++ [cursor])%list = (chain ++ more)%list) as Hm by eauto.
  cbv zeta in H.
  destruct (_ <=? _); [injection H as <- <- <-; split; [done|]; split; [done|]; split; [done|]; split; [left|done]|].
  destruct (_ =? _); [injection H as <- <- <-; split; [done|]; split; [done|]; split; [done|]; split; [elem_list|done]|].
  destruct (_ =? _); [injection H as <- <- <-; split; [done|]; split; [done|]; split; [done|]; split; [elem_list|done]|].
  destruct (_ || _); [injection H as <- <- <-; split; [done|]; split; [done|]; split; [done|]; split; [elem_list|done]|].
  apply IH in H as (R1 & R2 & (m & ->) & R3); [|done| |done].
  - split; [done|]. split; [done|]. split; [exists (cursor :: m)%list; by rewrite <- app_assoc|done].
  - intros p Hp'. rewrite last_snoc in Hp'. by injection Hp' as <-.
Qed.

Lemma follow_chain_prefix fuel fat limit cursor chain chain' w s :
  follow_chain fuel fat limit cursor chain = (chain', w, s) -> exists m, chain' = (chain ++ m)%list.
Proof.
  revert cursor chain; induction fuel as [|fuel IH]; intros cursor chain H.
  { injection H as <- _ _. exists []. by rewrite app_nil_r. }
  cbn [follow_chain] in H. cbv zeta in H.
  repeat match type of H with
  | (if ?b then _ else _) = _ => destruct b
  end; try (injection H as <- _ _; solve [by eexists | exists []; by rewrite app_nil_r]).
  apply IH in H as (m & ->). exists (cursor :: m). by rewrite <- app_assoc.
Qed.

Lemma follow_chain_head fuel fat limit cursor chain' w s :
  follow_chain fuel fat limit cursor [] = (chain', w, s) -> chain' = [] \/ exists m, chain' = cursor :: m.
Proof.
  intros H. destruct fuel as [|fuel]; [injection H as <- _ _; by left|].
  cbn [follow_chain] in H. cbv zeta in H. cbn [app] in H.
  repeat match type of H with
  | (if ?b then _ else _) = _ => destruct b
  end; try (injection H as <- _ _; solve [by left | right; by eexists]).
  apply follow_chain_prefix in H as (m & ->). right. by eexists.
Qed.

(** Once the chain has the most clusters the test allows, more fuel changes nothing. *)
Lemma follow_chain_fuel n m fat limit cursor chain :
  limit + 2 - zlen chain <= Z.of_nat n -> limit + 2 - zlen chain <= Z.of_nat m ->
  follow_chain n fat limit cursor chain = follow_chain m fat limit cursor chain.
Proof.
  revert m cursor chain; induction n as [|n IH]; intros m cursor chain Hn Hm.
  - destruct m as [|m]; [done|]. cbn [follow_chain].
    rewrite (proj2 (Z.leb_gt (zlen chain) limit)) by lia. by rewrite andb_false_r.
  - destruct m as [|m].
    + cbn [follow_chain]. rewrite (proj2 (Z.leb_gt (zlen chain) limit)) by lia. by rewrite andb_false_r.
    + cbn [follow_chain]. destruct (negb _); [done|]. destruct (bool_decide _); [done|]. cbv zeta.
      rewrite (IH m); [done|..]; unfold zlen in *; rewrite length_app; simpl; lia.
Qed.

Lemma fragmented_false x chain :
  fragmented (x :: chain) = false -> x :: chain = zrange x (S (length chain)).
Proof.
  revert x; induction chain as [|y chain IH]; intros x H; [done|].
  cbn [fragmented] in H. apply orb_false_iff in H as [H1 H2].
  apply negb_false_iff, Z.eqb_eq in H1 as ->.
  change (zrange x (S (length (x + 1 :: chain)))) with (x :: zrange (x + 1) (S (length chain))).
  f_equal. by apply IH.
Qed.

Lemma clusters_for_size_nonneg size g :
  0 <= size -> 0 < sectors_per_cluster g * bytes_per_sector g -> 0 <= clusters_for_size size g.
Proof.
  intros Hs Hg. unfold clusters_for_size. destruct (Z.eqb_spec size 0); [lia|].
  apply Z.div_pos; lia.
Qed.

(** The steps of [allocated_chain] after the loop. *)
Lemma allocated_chain_cases first size fat g chain conf status warns :
  0 <= size -> 0 < sectors_per_cluster g * bytes_per_sector g ->
  allocated_chain first size fat g = (chain, conf, status, warns) ->
  chain = [] \/ exists chain0 w0 s0 w1 s1,
    follow_chain (Z.to_nat (cluster_count g + 2)) fat (cluster_count g) first [] = (chain0, w0, s0) /\
    (exists n, chain = take n chain0) /\
    (s1 = "partial" \/ (s1 = s0 /\ clusters_for_size size g <= zlen chain0 /\
       (0 < clusters_for_size size g -> zlen chain = clusters_for_size size g))) /\
    (w1 = [] -> w0 = []) /\
    ((s1 = "allocated_intact" /\ fragmented chain = true /\ status = "allocated_fragmented") \/
     (status = s1 /\ (s1 = "allocated_intact" -> fragmented chain = false) /\ warns = w1)) /\
    (conf = "certain" -> status = "allocated_intact" /\ warns = []).
Proof.
  intros Hsz Hg H. unfold allocated_chain in H.
  pose proof (clusters_for_size_nonneg size g Hsz Hg) as He.
  destruct (_ && _); [injection H as <- <- <- <-; by left|].
  destruct (_ || _); [injection H as <- <- <- <-; by left|].
  destruct (follow_chain _ _ _ _ _) as [[c0 w0] s0] eqn:Ef. right.
  set (adj := if zlen c0 <? clusters_for_size size g then _ else _) in H.
  destruct adj as [[c1 w1] s1] eqn:Eadj. subst adj.
  assert ((exists n, c1 = take n c0) /\ (s1 = "partial" \/ (s1 = s0 /\ clusters_for_size size g <= zlen c0 /\
     (0 < clusters_for_size size g -> zlen c1 = clusters_for_size size g))) /\ (w1 = [] -> w0 = []))
    as (HA & HB & HC).
  { destruct (Z.ltb_spec (zlen c0) (clusters_for_size size g)) as [Hlt|Hge].
    - injection Eadj as <- <- <-. split; [exists (length c0); by rewrite take_ge|].
      split; [by left|]. intros E. by destruct w0.
    - destruct (_ && _) eqn:Eb.
      + rewrite andb_true_iff, !Z.ltb_lt in Eb. injection Eadj as <- <- <-.
        split; [by eexists|]. split; [right; split; [done|]; split; [done|]|intros E; by destruct w0].
        intros _. unfold zlen in *. rewrite length_take. lia.
      + injection Eadj as <- <- <-. split; [exists (length c0); by rewrite take_ge|].
        split; [right; split; [done|]; split; [done|]|done]. intros Hpos.
        rewrite andb_false_iff, !Z.ltb_ge in Eb. lia. }
  exists c0, w0, s0, w1, s1.
  destruct (String.eqb s1 "allocated_intact" && fragmented c1) eqn:Efr.
  - rewrite andb_true_iff, String.eqb_eq in Efr. destruct Efr as [-> Efr]. injection H as <- <- <- <-.
    split; [done|]. split; [done|]. split; [done|]. split; [done|]. split; [by left|]. done.
  - injection H as <- <- <- <-. split; [done|]. split; [done|]. split; [done|]. split; [done|].
    split.
    + right. split; [done|]. split; [|done]. intros ->. by rewrite String.eqb_refl in Efr.
    + destruct (starts_with "partial" s1); [done|].
      destruct (String.eqb_spec s1 "allocated_intact"); [|done]. case_bool_decide; done.
Qed.

(** C34. Chains of allocated entries are sound and bounded: the clusters returned are distinct,
    lie in the table and each is linked to the next; the loop, even on a cyclic or hostile
    table, never needs more steps than the volume has clusters plus two; and when the chain of
    a non-empty file is reported as intact it is contiguous from the first cluster and holds
    exactly the clusters of the file's size; certain confidence means intact, no warnings. *)
Theorem allocated_chain_sound first size fat g chain conf status warns :
  g ∈ SUPPORTED_GEOMETRIES -> 0 <= size ->
  allocated_chain first size fat g = (chain, conf, status, warns) ->
  sound_chain fat chain /\ zlen chain <= cluster_count g + 1 /\
  (forall fuel, cluster_count g + 2 <= Z.of_nat fuel ->
     follow_chain fuel fat (cluster_count g) first []
     = follow_chain (Z.to_nat (cluster_count g + 2)) fat (cluster_count g) first []) /\
  (status = "allocated_intact" -> 0 < size -> chain <> [] ->
     chain = zrange first (Z.to_nat (clusters_for_size size g))) /\
  (conf = "certain" -> chain <> [] -> status = "allocated_intact" /\ warns = []).
Proof.
  intros Hg Hsz H.
  assert (0 < sectors_per_cluster g * bytes_per_sector g /\ 0 < cluster_count g) as [Hcl Hcc].
  { unfold SUPPORTED_GEOMETRIES in Hg. rewrite !elem_of_cons, elem_of_nil in Hg.
    repeat destruct Hg as [->|Hg]; by vm_compute || done. }
  assert (sound_chain fat []) as Hnil by (split; [constructor|split; [constructor|done]]).
  assert (forall fuel, cluster_count g + 2 <= Z.of_nat fuel ->
     follow_chain fuel fat (cluster_count g) first []
     = follow_chain (Z.to_nat (cluster_count g + 2)) fat (cluster_count g) first []) as Hfuel.
  { intros fuel Hf. apply follow_chain_fuel; unfold zlen; simpl; lia. }
  destruct (allocated_chain_cases _ _ _ _ _ _ _ _ Hsz Hcl H)
    as [->|(c0 & w0 & s0 & w1 & s1 & Hf & (n & Hn) & Hs1 & Hw & Hst & Hconf)].
  { split; [done|]. split; [unfold zlen; simpl; lia|]. split; [done|]. split; done. }
  assert (zlen (@nil Z) <= cluster_count g + 1) as H0 by (unfold zlen; simpl; lia).
  assert (forall p, last (@nil Z) = Some p -> fat_at fat p = first) as Hl by done.
  destruct (follow_chain_sound _ _ _ _ _ _ _ _ Hnil Hl H0 Hf) as (Hsound & Hlen & _ & Hs0 & _).
  split; [subst chain; by apply sound_chain_take|].
  split; [subst chain; unfold zlen in *; rewrite length_take; lia|].
  split; [done|]. split; [|auto].
  intros -> Hpos Hne. destruct Hst as [(_ & _ & ?)|(Es & Hfr & _)]; [done|]. subst s1.
  destruct Hs1 as [?|(_ & _ & Hc)]; [done|].
  assert (0 < clusters_for_size size g) as Hcs.
  { unfold clusters_for_size. destruct (Z.eqb_spec size 0); [lia|]. apply Z.div_str_pos. lia. }
  specialize (Hc Hcs). specialize (Hfr eq_refl).
  assert (head chain = Some first) as Hhead.
  { destruct (follow_chain_head _ _ _ _ _ _ _ Hf) as [->|(m & ->)];
      [by rewrite take_nil in Hn|]. destruct n; [done|]. by subst chain. }
  destruct chain as [|x r]; [done|]. injection Hhead as ->.
  rewrite (fragmented_false first r Hfr). f_equal. unfold zlen in Hc. simpl in Hc. lia.
Qed.

(** A last link that points outside the table goes unnoticed: the entry is reported intact
    with certain confidence. *)
Example out_of_table_link_reported_certain :
  allocated_chain 2 1024 ([4093; 4095; 2304] ++ replicate 353 0) (List.hd (Geo "" 0 0 0 0 0 0 0 0 0 0 0) SUPPORTED_GEOMETRIES)
  = ([2], "certain", "allocated_intact", []).
Proof. by vm_compute. Qed.

(** ** Free ranges *)

(** The sectors a range covers. *)
Definition range_sectors (sector_size : Z) (r : CarveRange) : list Z :=
  zrange (cr_offset r / sector_size) (Z.to_nat (cr_length r / sector_size)).

Lemma range_sectors_range first last ss :
  0 < ss -> range_sectors ss (sector_range first last ss) = zrange first (Z.to_nat (last - first + 1)).
Proof. intros Hs. unfold range_sectors, sector_range. simpl. by rewrite !Z.div_mul by lia. Qed.

Lemma merge_sectors_exact start previous l ss :
  0 < ss -> start <= previous ->
  concat (range_sectors ss <$> merge_sectors start previous l ss)
  = (zrange start (Z.to_nat (previous - start + 1)) ++ l)%list.
Proof.
  intros Hss. revert start previous; induction l as [|x l IH]; intros start previous Hle.
  - simpl. by rewrite range_sectors_range.
  - cbn [merge_sectors]. destruct (Z.eqb_spec x (previous + 1)) as [->|Hne]; cbn [negb].
    + rewrite IH by lia.
      replace (Z.to_nat (previous + 1 - start + 1)) with (Z.to_nat (previous - start + 1) + 1)%nat by lia.
      rewrite zrange_app, <- app_assoc. do 2 f_equal. simpl. f_equal. lia.
    + rewrite fmap_cons. cbn [concat]. rewrite range_sectors_range, IH by lia.
      rewrite Z.sub_diag. done.
Qed.

Lemma merge_sectors_sector_aligned start previous l ss r :
  0 < ss -> 0 <= start -> start <= previous -> Forall (fun x => 0 <= x) l ->
  r ∈ merge_sectors start previous l ss ->
  exists a n, cr_offset r = a * ss /\ cr_length r = n * ss /\ 0 <= a /\ 1 <= n.
Proof.
  intros Hss. revert start previous; induction l as [|x l IH]; intros start previous H0 Hle Hl Hr.
  - apply list_elem_of_singleton in Hr as ->. exists start, (previous - start + 1). simpl. lia.
  - apply Forall_cons in Hl as [Hx Hl]. cbn [merge_sectors] in Hr. destruct (Z.eqb_spec x (previous + 1)) as [->|]; cbn [negb] in Hr.
    + eapply (IH start (previous + 1)); eauto; lia.
    + apply elem_of_cons in Hr as [->|Hr]; [exists start, (previous - start + 1); simpl; lia|].
      eapply (IH x x); eauto; lia.
Qed.

Definition free_sectors (r : Fat12ScanResult) : list Z :=
  concat (range_sectors (bytes_per_sector (sr_geometry r)) <$> sr_carve_ranges r).

Lemma free_readable_sectors_spec fat g unreadable s :
  0 < sectors_per_cluster g ->
  s ∈ free_readable_sectors fat g unreadable <->
  exists c, 2 <= c < Z.min (zlen fat) (cluster_count g + 2) /\ fat_at fat c = 0 /\
    cluster_sector g c <= s < cluster_sector g c + sectors_per_cluster g /\ s ∉ unreadable.
Proof.
  intros Hspc. unfold free_readable_sectors. rewrite elem_of_concat. split.
  - intros (l & Hs & Hl). apply list_elem_of_fmap in Hl as (c & -> & Hc).
    apply elem_of_zrange_to in Hc. exists c. split; [done|].
    destruct (Z.eqb_spec (fat_at fat c) 0) as [Hf|]; simpl in Hs; [|by apply elem_of_nil in Hs].
    apply elem_of_filter_b in Hs as [Hs Hu]. rewrite negb_true_iff, bool_decide_eq_false in Hu.
    apply elem_of_zrange in Hs. rewrite Z2Nat.id in Hs by lia. done.
  - intros (c & Hc & Hf & Hs & Hu). eexists. split; [|apply list_elem_of_fmap; exists c; split; [done|]].
    + rewrite Hf. simpl. apply elem_of_filter_b. rewrite negb_true_iff, bool_decide_eq_false.
      split; [|done]. apply elem_of_zrange. rewrite Z2Nat.id by lia. done.
    + by apply elem_of_zrange_to.
Qed.

Lemma free_readable_sectors_strict fat g unreadable :
  0 < sectors_per_cluster g -> StronglySorted Z.lt (free_readable_sectors fat g unreadable).
Proof.
  intros Hspc. unfold free_readable_sectors, zrange_to.
  generalize (Z.to_nat (Z.min (zlen fat) (cluster_count g + 2) - 2)) as n. generalize 2 as a.
  intros a n. revert a; induction n as [|n IH]; intros a; [constructor|].
  cbn [zrange]. rewrite fmap_cons. cbn [concat].
  apply StronglySorted_app_2; [|destruct (negb _); [constructor|apply StronglySorted_filter_b, zrange_sorted]|apply IH].
  intros x y Hx Hy. destruct (negb _); [by apply elem_of_nil in Hx|].
  apply elem_of_filter_b in Hx as [Hx%elem_of_zrange _]. rewrite Z2Nat.id in Hx by lia.
  apply elem_of_concat in Hy as (l & Hy & (c & -> & Hc%elem_of_zrange)%list_elem_of_fmap).
  destruct (negb _); [by apply elem_of_nil in Hy|].
  apply elem_of_filter_b in Hy as [Hy%elem_of_zrange _]. unfold cluster_sector in *. nia.
Qed.

Lemma select_fat_length copies g fat w : select_fat copies g = (fat, w) -> zlen fat = Z.max 0 (cluster_count g + 2).
Proof.
  unfold select_fat, zlen. intros H.
  destruct (filter_b _ _) as [|v vs] eqn:E; injection H as <- _.
  - rewrite length_replicate. lia.
  - assert (v ∈ v :: vs) as Hv by left. rewrite <- E in Hv. apply elem_of_filter_b in Hv as [Hv _].
    apply list_elem_of_fmap in Hv as (c & -> & _). rewrite length_decode_fat. lia.
Qed.

(** ** The medium, byte by byte *)

Section medium.
Variable read_at : Z -> Z -> option bytes.
Variable bad : list Z.

(** The byte of the medium at an offset, as a scan sees it: zero in a sector known to be bad, in one
    that cannot be read, and past the end of a short answer. *)
Definition medium_byte (o : Z) : Z :=
  if bool_decide (o / 512 ∈ bad) then 0
  else match read_at (o / 512 * 512) 512 with Some d => byte_at d (Z.to_nat (o mod 512)) | None => 0 end.

(** Where copy [k] of the allocation table and the root directory begin. *)
Definition table_start (g : Fat12Geometry) (k : Z) : Z := (reserved_sectors g + k * sectors_per_fat g) * 512.
Definition root_start (g : Fat12Geometry) : Z := (reserved_sectors g + fat_count g * sectors_per_fat g) * 512.

(** The twelve bits of cluster [c] in copy [k]: two clusters share three bytes. *)
Definition table_value (g : Fat12Geometry) (k c : Z) : Z :=
  let o := table_start g k + 3 * (c / 2) in
  if c mod 2 =? 0 then medium_byte o + 256 * (medium_byte (o + 1) mod 16)
  else medium_byte (o + 1) / 16 + 16 * medium_byte (o + 2).

(** A copy whose first two values are the marks of the medium. *)
Definition valid_copy (g : Fat12Geometry) (k : Z) : Prop :=
  table_value g k 0 = Z.lor 3840 (media_descriptor g) /\ 4088 <= table_value g k 1.

(** The table a scan works with: the first valid copy, or all clusters free when there is none. *)
Definition medium_table (g : Fat12Geometry) (fat : list Z) : Prop :=
  zlen fat = cluster_count g + 2 /\
  ((exists k, 0 <= k < fat_count g /\ valid_copy g k /\ (forall j, 0 <= j < k -> ~ valid_copy g j) /\
      forall c, 0 <= c < zlen fat -> fat_at fat c = table_value g k c) \/
   ((forall k, 0 <= k < fat_count g -> ~ valid_copy g k) /\ forall c, 0 <= c < zlen fat -> fat_at fat c = 0)).

(** Byte [n] of slot [i] of the root directory. *)
Definition slot_byte (g : Fat12Geometry) (i n : Z) : Z := medium_byte (root_start g + 32 * i + n).
Definition slot_first_cluster (g : Fat12Geometry) (i : Z) : Z := slot_byte g i 26 + 256 * slot_byte g i 27.
Definition slot_size (g : Fat12Geometry) (i : Z) : Z :=
  slot_byte g i 28 + 256 * slot_byte g i 29 + 65536 * slot_byte g i 30 + 16777216 * slot_byte g i 31.

(** The bytes are those of the medium from [o] on. *)
Definition medium_bytes (b : bytes) (o : Z) : Prop :=
  forall j, (j < length b)%nat -> byte_at b j = medium_byte (o + Z.of_nat j).

Lemma byte_at_app_l a b j : (j < length a)%nat -> byte_at (a ++ b) j = byte_at a j.
Proof. intros Hj. unfold byte_at. by apply app_nth1. Qed.

Lemma byte_at_app_r a b j : (length a <= j)%nat -> byte_at (a ++ b) j = byte_at b (j - length a).
Proof. intros Hj. unfold byte_at. by apply app_nth2. Qed.

Lemma byte_at_beyond b j : (length b <= j)%nat -> byte_at b j = 0.
Proof. intros Hj. unfold byte_at. by apply nth_overflow. Qed.

Lemma byte_at_zeros n j : byte_at (replicate n 0) j = 0.
Proof. unfold byte_at. revert j. induction n as [|n IH]; intros [|j]; simpl; auto. Qed.

Lemma byte_at_take n b j : (j < n)%nat -> byte_at (take n b) j = byte_at b j.
Proof.
  intros Hj. rewrite <- (take_drop n b) at 2. destruct (decide (j < length (take n b))%nat) as [Hl|Hl]; [by rewrite byte_at_app_l|].
  rewrite (byte_at_beyond (take n b)) by lia. rewrite length_take in Hl. rewrite take_ge, drop_ge by lia. by rewrite app_nil_r, byte_at_beyond by lia.
Qed.

(** The bytes of one sector. *)
Lemma medium_sector_bytes sector data :
  length data = 512%nat ->
  (forall j, (j < 512)%nat -> byte_at data j =
     if bool_decide (sector ∈ bad) then 0 else match read_at (sector * 512) 512 with Some d => byte_at d j | None => 0 end) ->
  medium_bytes data (sector * 512).
Proof.
  intros Hl Hd j Hj. rewrite Hl in Hj. rewrite Hd by done. unfold medium_byte.
  assert ((sector * 512 + Z.of_nat j) / 512 = sector) as -> by (Z.to_euclidean_division_equations; lia).
  assert ((sector * 512 + Z.of_nat j) mod 512 = Z.of_nat j) as -> by (Z.to_euclidean_division_equations; lia).
  by rewrite Nat2Z.id.
Qed.

Lemma medium_bytes_app a b o : medium_bytes a o -> medium_bytes b (o + zlen a) -> medium_bytes (a ++ b) o.
Proof.
  intros Ha Hb j Hj. rewrite length_app in Hj. destruct (decide (j < length a)%nat).
  - rewrite byte_at_app_l by done. by apply Ha.
  - rewrite byte_at_app_r by lia. rewrite Hb by lia. f_equal. unfold zlen. lia.
Qed.

Lemma read_sectors_medium u start count :
  let b := (read_sectors read_at (list_to_set bad) u start count 512).1 in
  length b = (count * 512)%nat /\ medium_bytes b (start * 512).
Proof.
  revert u start. induction count as [|count IH]; intros u start; [split; [done|]; intros j Hj; cbn in Hj; lia|].
  cbn [read_sectors].
  assert (Hgo : forall data u', length data = 512%nat ->
    (forall j, (j < 512)%nat -> byte_at data j =
       if bool_decide (start ∈ bad) then 0 else match read_at (start * 512) 512 with Some d => byte_at d j | None => 0 end) ->
    let b := (let '(rest, unreadable) := read_sectors read_at (list_to_set bad) u' (start + 1) count 512 in ((data ++ rest)%list, unreadable)).1 in
    length b = (S count * 512)%nat /\ medium_bytes b (start * 512)).
  { intros data u' Hl Hd. destruct (IH u' (start + 1)) as [IHl IHb]. destruct (read_sectors _ _ u' _ _ _) as [rest u2]. cbn [fst] in *.
    split; [rewrite length_app; lia|]. apply medium_bytes_app; [by apply medium_sector_bytes|].
    unfold zlen. rewrite Hl. by replace (start * 512 + Z.of_nat 512) with ((start + 1) * 512) by lia. }
  assert (Hin : bool_decide (start ∈ (list_to_set bad : gset Z)) = bool_decide (start ∈ bad)) by (apply bool_decide_ext, elem_of_list_to_set).
  rewrite Hin. destruct (bool_decide (start ∈ bad)) eqn:Eb.
  - apply Hgo; [by rewrite length_replicate|]. intros j _. apply byte_at_zeros.
  - cbv zeta. set (d := match read_at (start * 512) 512 with Some d => d | None => [] end).
    assert (Hsame : forall j, match read_at (start * 512) 512 with Some d => byte_at d j | None => 0 end = byte_at d j).
    { intros j. unfold d. destruct (read_at _ _); [done|]. by rewrite byte_at_beyond by (cbn; lia). }
    destruct (Z.eqb_spec (zlen d) 512) as [Hd|Hd]; cbn [negb].
    + apply Hgo; [unfold zlen in Hd; lia|]. intros j _. by rewrite Hsame.
    + apply Hgo.
      * unfold ljust0. rewrite length_app, length_replicate, length_take. lia.
      * intros j Hj. rewrite Hsame. unfold ljust0. destruct (decide (j < length (take (Z.to_nat 512) d))%nat) as [Hjd|Hjd].
        -- rewrite byte_at_app_l by done. apply byte_at_take. lia.
        -- rewrite byte_at_app_r by lia. rewrite byte_at_zeros, byte_at_beyond; [done|]. rewrite length_take in Hjd. lia.
Qed.

Lemma read_fat_copies_medium g u index count :
  bytes_per_sector g = 512 ->
  let copies := (read_fat_copies read_at (list_to_set bad) g u index count).1 in
  length copies = count /\
  forall k copy, copies !! k = Some copy ->
    length copy = (Z.to_nat (sectors_per_fat g) * 512)%nat /\ medium_bytes copy (table_start g (index + Z.of_nat k)).
Proof.
  intros Hb. revert u index. induction count as [|count IH]; intros u index; [split; [done|]; intros [|k] copy; done|].
  cbn [read_fat_copies]. cbv zeta. rewrite Hb.
  pose proof (read_sectors_medium u (reserved_sectors g + index * sectors_per_fat g) (Z.to_nat (sectors_per_fat g))) as [Hl Hm].
  destruct (read_sectors _ _ u _ _ _) as [c u1]. destruct (IH u1 (index + 1)) as [IHl IHk].
  destruct (read_fat_copies _ _ g u1 _ _) as [rest u2]. cbn [fst] in *. split; [cbn; lia|].
  intros [|k] copy; cbn.
  - intros [= <-]. split; [done|]. unfold table_start. by rewrite Z.add_0_r.
  - intros Hk. destruct (IHk k copy Hk) as [H1 H2]. split; [done|].
    by replace (index + Z.of_nat (S k)) with (index + 1 + Z.of_nat k) by lia.
Qed.

(** The decoded value of a cluster is the one on the medium. *)
Lemma fat_entry_medium g k copy c :
  wf_bytes copy -> medium_bytes copy (table_start g k) -> 0 <= c -> c + c / 2 + 1 < zlen copy ->
  fat_entry copy c = table_value g k c.
Proof.
  intros Hw Hm Hc Hlen. unfold fat_entry, table_value. rewrite (proj2 (Z.leb_gt _ _)) by lia.
  assert (Hat : forall j, 0 <= j -> j < zlen copy -> byte_at copy (Z.to_nat j) = medium_byte (table_start g k + j)).
  { intros j H0 Hj. rewrite Hm by (unfold zlen in Hj; lia). by rewrite Z2Nat.id. }
  assert (0 <= c / 2) by (apply Z.div_pos; lia).
  rewrite !Hat by lia. assert (Z.land c 1 = c mod 2) as -> by exact (Z.land_ones c 1 ltac:(lia)).
  set (o := table_start g k). set (h := c / 2) in *.
  assert (Hb : forall j, 0 <= j -> j < zlen copy -> 0 <= medium_byte (o + j) < 256).
  { intros j H0 Hj. rewrite <- Hat by done. by apply wf_bytes_at. }
  pose proof (Hb (c + h) ltac:(lia) ltac:(lia)) as B0. pose proof (Hb (c + h + 1) ltac:(lia) ltac:(lia)) as B1.
  rewrite (lor_shiftl_add _ _ 8) by lia. change (2 ^ 8) with 256.
  pose proof (Z.div_mod c 2 ltac:(lia)) as Hdm. fold h in Hdm. pose proof (Z.mod_pos_bound c 2 ltac:(lia)).
  destruct (Z.eqb_spec (c mod 2) 0) as [He|He]; cbn [negb].
  - replace (o + (c + h)) with (o + 3 * h) in * by lia. replace (o + (c + h + 1)) with (o + 3 * h + 1) in * by lia.
    rewrite land_4095. Z.to_euclidean_division_equations. lia.
  - replace (o + (c + h)) with (o + 3 * h + 1) in * by lia. replace (o + (c + h + 1)) with (o + 3 * h + 2) in * by lia.
    rewrite Z.shiftr_div_pow2, land_4095 by lia. change (2 ^ 4) with 16. Z.to_euclidean_division_equations. lia.
Qed.

Lemma fat_at_decode copy n c : 0 <= c < n -> fat_at (decode_fat copy n) c = fat_entry copy c.
Proof.
  intros Hc. unfold fat_at, decode_fat, zrange_to.
  assert (Hl : (fat_entry copy <$> zrange 0 (Z.to_nat (n - 0))) !! Z.to_nat c = Some (fat_entry copy c)).
  { rewrite list_lookup_fmap, lookup_zrange by lia. cbn. f_equal. f_equal. lia. }
  by apply nth_lookup_Some with (d := 0) in Hl.
Qed.

(** The table of a supported geometry is large enough for its clusters. *)
Definition table_fits (g : Fat12Geometry) : bool :=
  (cluster_count g + 1) + (cluster_count g + 1) / 2 + 1 <? sectors_per_fat g * 512.

Lemma supported_table_fits g : g ∈ SUPPORTED_GEOMETRIES -> table_fits g = true.
Proof.
  intros Hg. unfold SUPPORTED_GEOMETRIES in Hg. rewrite !elem_of_cons, elem_of_nil in Hg.
  repeat destruct Hg as [->|Hg]; by vm_compute || done.
Qed.

Lemma decoded_medium g k copy c :
  g ∈ SUPPORTED_GEOMETRIES -> wf_bytes copy -> medium_bytes copy (table_start g k) ->
  length copy = (Z.to_nat (sectors_per_fat g) * 512)%nat -> 0 <= c < cluster_count g + 2 ->
  fat_at (decode_fat copy (cluster_count g + 2)) c = table_value g k c.
Proof.
  intros Hg Hw Hm Hl Hc. rewrite fat_at_decode by done. apply fat_entry_medium; [done|done|lia|].
  pose proof (supported_table_fits g Hg) as Hf. unfold table_fits in Hf. apply Z.ltb_lt in Hf.
  assert (c / 2 <= (cluster_count g + 1) / 2) by (apply Z.div_le_mono; lia). unfold zlen. lia.
Qed.

(** What [select_fat] takes from copies that are those of the medium. *)
Lemma select_fat_medium g copies fat w :
  g ∈ SUPPORTED_GEOMETRIES -> 0 < cluster_count g -> length copies = Z.to_nat (fat_count g) ->
  (forall k copy, copies !! k = Some copy -> wf_bytes copy /\ medium_bytes copy (table_start g (Z.of_nat k)) /\
     length copy = (Z.to_nat (sectors_per_fat g) * 512)%nat) ->
  select_fat copies g = (fat, w) -> medium_table g fat.
Proof.
  intros Hg Hcc Hlen Hcopies Hs. pose proof (select_fat_length _ _ _ _ Hs) as Hz. split; [lia|].
  set (decode := fun copy => decode_fat copy (cluster_count g + 2)) in *.
  assert (Hvalid : forall k copy, copies !! k = Some copy ->
            fat_header_valid (media_descriptor g) (decode copy) = true <-> valid_copy g (Z.of_nat k)).
  { intros k copy Hk. destruct (Hcopies k copy Hk) as (Hw & Hm & Hl). unfold fat_header_valid, valid_copy, decode.
    rewrite !(decoded_medium g (Z.of_nat k)) by (done || lia). rewrite !andb_true_iff, Z.eqb_eq, !Z.leb_le.
    assert (2 <= zlen (decode_fat copy (cluster_count g + 2))) by (unfold zlen; rewrite length_decode_fat; lia).
    unfold FAT12_EOC_MIN. tauto. }
  assert (Hcase : (exists pre copy rest, copies = (pre ++ copy :: rest)%list /\ fat = decode copy /\
            fat_header_valid (media_descriptor g) (decode copy) = true /\
            forall c, c ∈ pre -> fat_header_valid (media_descriptor g) (decode c) = false) \/
          (forall c, c ∈ copies -> fat_header_valid (media_descriptor g) (decode c) = false) /\
          fat = replicate (Z.to_nat (cluster_count g + 2)) 0).
  { unfold select_fat in Hs. fold decode in Hs. unfold filter_b in Hs. clear -Hs. revert Hs. generalize (zlen (decode <$> copies)). intros n.
    induction copies as [|copy rest IH]; cbn [fmap list_fmap List.filter].
    - intros [= <- _]. right. split; [by intros c ?%elem_of_nil|done].
    - destruct (fat_header_valid (media_descriptor g) (decode copy)) eqn:E.
      + intros [= <- _]. left. exists [], copy, rest. split; [done|]. split; [done|]. split; [done|]. by intros c ?%elem_of_nil.
      + intros [(pre & c & r & -> & -> & Hv & Hpre)|[Hno ->]]%IH.
        * left. exists (copy :: pre), c, r. split; [done|]. split; [done|]. split; [done|]. by intros c' [->|Hc]%elem_of_cons; [|apply Hpre].
        * right. split; [|done]. by intros c' [->|Hc]%elem_of_cons; [|apply Hno]. }
  destruct Hcase as [(pre & copy & rest & Ec & -> & Hv & Hpre)|[Hno ->]].
  - left. exists (Z.of_nat (length pre)). assert (Hk : copies !! length pre = Some copy) by (rewrite Ec; by apply list_lookup_middle).
    destruct (Hcopies _ _ Hk) as (Hw & Hm & Hl). split.
    { apply lookup_lt_Some in Hk. lia. }
    split; [by apply (Hvalid _ _ Hk)|]. split.
    + intros j Hj Hbad. assert (Hjl : (Z.to_nat j < length pre)%nat) by lia.
      destruct (lookup_lt_is_Some_2 pre (Z.to_nat j) Hjl) as [c Hc].
      assert (Hc' : copies !! Z.to_nat j = Some c) by (rewrite Ec, lookup_app_l by done; done).
      rewrite <- (Z2Nat.id j) in Hbad by lia. apply (Hvalid _ _ Hc') in Hbad.
      rewrite Hpre in Hbad; [done|]. by eapply list_elem_of_lookup_2.
    + intros c Hc. apply decoded_medium; try done. unfold decode, zlen in Hc. rewrite length_decode_fat in Hc. lia.
  - right. split.
    + intros k Hk Hbad. assert (Hkl : (Z.to_nat k < length copies)%nat) by lia.
      destruct (lookup_lt_is_Some_2 copies (Z.to_nat k) Hkl) as [c Hc].
      rewrite <- (Z2Nat.id k) in Hbad by lia. apply (Hvalid _ _ Hc) in Hbad.
      rewrite Hno in Hbad; [done|]. by eapply list_elem_of_lookup_2.
    + intros c _. unfold fat_at. by apply byte_at_zeros.
Qed.
End medium.

(** ** What a scan returns *)

Lemma detect_geometry_ok boot size g :
  detect_geometry boot size = Ok g -> g ∈ SUPPORTED_GEOMETRIES /\ geo_size_bytes g = size.
Proof.
  unfold detect_geometry, fail12. intros H.
  destruct (_ <? _); [done|]. destruct (_ || _); [done|]. destruct (negb _); [done|].
  destruct (filter_b _ SUPPORTED_GEOMETRIES) as [|c cs] eqn:Ec; [done|].
  destruct (filter_b _ (c :: cs)) as [|m [|]] eqn:Em; try done.
  destruct (4085 <=? _); [done|]. injection H as ->.
  assert (g ∈ c :: cs) as Hin.
  { assert (g ∈ filter_b (fun g => geometry_matches g boot) (c :: cs)) as Hg by (rewrite Em; left).
    by apply elem_of_filter_b in Hg as [? _]. }
  rewrite <- Ec in Hin. apply elem_of_filter_b in Hin as [Hin Hs]. by apply Z.eqb_eq in Hs.
Qed.

(** The supported layouts: every cluster of the table lies on the medium. *)
Definition layout_ok (g : Fat12Geometry) : bool :=
  (bytes_per_sector g =? 512) && (0 <? sectors_per_cluster g) && (1 <=? first_data_sector g)
  && (0 <? cluster_count g)
  && (first_data_sector g + cluster_count g * sectors_per_cluster g <=? total_sectors g)
  && (first_data_sector g =? reserved_sectors g + fat_count g * sectors_per_fat g + root_directory_sectors g)
  && (0 <? reserved_sectors g) && (0 <? fat_count g) && (0 <? sectors_per_fat g)
  && (0 <=? root_directory_sectors g).

Lemma supported_layout g : g ∈ SUPPORTED_GEOMETRIES -> layout_ok g = true.
Proof.
  intros Hg. unfold SUPPORTED_GEOMETRIES in Hg. rewrite !elem_of_cons, elem_of_nil in Hg.
  repeat destruct Hg as [->|Hg]; by vm_compute || done.
Qed.

Lemma wf_read_sectors read_at bad :
  (forall o n d, read_at o n = Some d -> wf_bytes d) ->
  forall count u start ss, wf_bytes (read_sectors read_at bad u start count ss).1.
Proof.
  intros Hr. induction count as [|count IH]; intros u start ss; [constructor|]. cbn [read_sectors].
  assert (forall n, wf_bytes (replicate n 0)) as Hrep by (intros n; by apply Forall_replicate).
  destruct (bool_decide _).
  - specialize (IH ({[start]} ∪ u) (start + 1) ss). destruct (read_sectors _ _ _ _ _ _) as [rest u'].
    apply Forall_app. split; [apply Hrep|apply IH].
  - cbv zeta. set (d := match read_at _ _ with Some d => d | None => [] end).
    assert (wf_bytes d) as Hd.
    { subst d. destruct (read_at _ _) eqn:E; [by eapply Hr|constructor]. }
    destruct (negb _).
    + specialize (IH ({[start]} ∪ u) (start + 1) ss). destruct (read_sectors _ _ _ _ _ _) as [rest u'].
      apply Forall_app. split; [|apply IH]. unfold ljust0. apply Forall_app. split; [by apply Forall_take|apply Hrep].
    + specialize (IH u (start + 1) ss). destruct (read_sectors _ _ _ _ _ _) as [rest u'].
      apply Forall_app. split; [done|apply IH].
Qed.

Lemma wf_read_fat_copies read_at bad g :
  (forall o n d, read_at o n = Some d -> wf_bytes d) ->
  forall count u index, Forall wf_bytes (read_fat_copies read_at bad g u index count).1.
Proof.
  intros Hr. induction count as [|count IH]; intros u index; [constructor|]. cbn [read_fat_copies]. cbv zeta.
  pose proof (wf_read_sectors read_at bad Hr (Z.to_nat (sectors_per_fat g)) u (reserved_sectors g + index * sectors_per_fat g)
    (bytes_per_sector g)) as Hw. destruct (read_sectors _ _ u _ _ _) as [c u1]. specialize (IH u1 (index + 1)).
  destruct (read_fat_copies _ _ g u1 _ _) as [rest u2]. by constructor.
Qed.

Lemma scan_fat12_ok read_at size bad r :
  scan_fat12 read_at size bad = Ok r ->
  exists g fat root unreadable,
    g ∈ SUPPORTED_GEOMETRIES /\ geo_size_bytes g = size /\ sr_geometry r = g /\
    zlen fat = cluster_count g + 2 /\ sr_unreadable r = sorted_set unreadable /\
    sr_carve_ranges r = free_cluster_ranges fat g unreadable /\
    sr_entries r = parse_root_directory root g fat unreadable /\
    ((forall o n d, read_at o n = Some d -> wf_bytes d) ->
     wf_bytes root /\ medium_bytes read_at bad root (root_start g) /\ medium_table read_at bad g fat).
Proof.
  unfold scan_fat12, fail12. intros H.
  destruct (_ <? _); [done|]. destruct (read_at 0 512) as [boot|]; [|done].
  destruct (negb _); [done|].
  destruct (detect_geometry boot size) as [g|] eqn:Hg; [|done].
  cbn [mbind result_bind] in H. apply detect_geometry_ok in Hg as [Hg Hs].
  pose proof (supported_layout g Hg) as Hl. unfold layout_ok in Hl. rewrite !andb_true_iff in Hl.
  assert (0 < cluster_count g) as Hcc by lia. assert (bytes_per_sector g = 512) as Hbps by lia.
  pose proof (read_fat_copies_medium read_at bad g (list_to_set bad) 0 (Z.to_nat (fat_count g)) Hbps) as [Hcl Hcm].
  pose proof (fun Hr => wf_read_fat_copies read_at (list_to_set bad) g Hr (Z.to_nat (fat_count g)) (list_to_set bad) 0) as Hcw.
  destruct (read_fat_copies _ _ _ _ _ _) as [fats u1]. cbn [fst] in Hcl, Hcm, Hcw.
  destruct (select_fat fats g) as [fat fw] eqn:Hf. rewrite Hbps in H.
  match type of H with context [read_sectors ?a ?b ?c ?d ?e ?f] =>
    pose proof (fun Hr => wf_read_sectors a b Hr e c d f) as Hroot;
    pose proof (read_sectors_medium read_at bad c d e) as [_ Hrm];
    destruct (read_sectors a b c d e f) as [root u2] end.
  injection H as <-. exists g, fat, root, u2. cbn [fst] in *. cbn [sr_geometry sr_unreadable sr_carve_ranges sr_entries].
  pose proof (select_fat_length _ _ _ _ Hf) as Hz. repeat (split; [done || lia|]).
  intros Hr. split; [by apply Hroot|]. split; [exact Hrm|].
  apply (select_fat_medium read_at bad g fats fat fw Hg Hcc Hcl); [|done].
  intros k copy Hk. destruct (Hcm k copy Hk) as [H1 H2]. specialize (Hcw Hr). rewrite Forall_lookup in Hcw.
  split; [by eapply Hcw|]. by split.
Qed.

Lemma elem_of_sorted_set s x : x ∈ sorted_set s <-> x ∈ s.
Proof. unfold sorted_set. by rewrite order_by_int_perm, elem_of_elements. Qed.

(** What is left to carve: the carve ranges of a scan, expanded to sectors, are strictly
    increasing, so no two ranges overlap; every range is a whole number of sectors inside the
    source; and a sector is in some range exactly when it belongs to a cluster the allocation
    table of the medium marks free and could be read: no allocated and no unreadable sector is ever
    carved. *)
Theorem carve_ranges_exact read_at size bad r :
  scan_fat12 read_at size bad = Ok r ->
  StronglySorted Z.lt (free_sectors r) /\
  (forall x, x ∈ sr_carve_ranges r ->
     0 <= cr_offset x /\ 512 <= cr_length x /\ cr_offset x mod 512 = 0 /\ cr_length x mod 512 = 0) /\
  exists fat, zlen fat = cluster_count (sr_geometry r) + 2 /\
    ((forall o n d, read_at o n = Some d -> wf_bytes d) -> medium_table read_at bad (sr_geometry r) fat) /\
    forall s, s ∈ free_sectors r <->
      exists c, 2 <= c < zlen fat /\ fat_at fat c = 0 /\
        cluster_sector (sr_geometry r) c <= s
          < cluster_sector (sr_geometry r) c + sectors_per_cluster (sr_geometry r) /\
        s ∉ sr_unreadable r /\ s * 512 + 512 <= size.
Proof.
  intros H. destruct (scan_fat12_ok _ _ _ _ H) as (g & fat & root & u & Hg & Hsz & Er & Hlen & Eu & Ec & _ & Hmed).
  pose proof (supported_layout g Hg) as Hl. unfold layout_ok in Hl.
  rewrite !andb_true_iff, !Z.eqb_eq, !Z.ltb_lt, !Z.leb_le in Hl.
  destruct Hl as [[[[[[[[[Hbps Hspc] Hfd] Hcc] Htot] _] _] _] _] _].
  assert (free_sectors r = free_readable_sectors fat g u) as Hfree.
  { unfold free_sectors. rewrite Er, Ec. unfold free_cluster_ranges.
    destruct (free_readable_sectors fat g u) as [|s l]; [done|].
    rewrite merge_sectors_exact by lia. by rewrite Z.sub_diag. }
  assert (forall s, s ∈ free_readable_sectors fat g u <->
    exists c, 2 <= c < zlen fat /\ fat_at fat c = 0 /\
      cluster_sector g c <= s < cluster_sector g c + sectors_per_cluster g /\
      s ∉ sr_unreadable r /\ s * 512 + 512 <= size) as Hspec.
  { intros s. rewrite free_readable_sectors_spec by done. split.
    - intros (c & Hc & Hf & Hs & Hu). exists c. split; [lia|]. split; [done|]. split; [done|].
      split; [by rewrite Eu, elem_of_sorted_set|].
      rewrite <- Hsz. unfold geo_size_bytes, cluster_sector in *. rewrite Hbps. nia.
    - intros (c & Hc & Hf & Hs & Hu & _). exists c. rewrite Eu, elem_of_sorted_set in Hu.
      split; [lia|]. done. }
  split; [rewrite Hfree; by apply free_readable_sectors_strict|]. split.
  - intros x Hx. rewrite Ec in Hx. unfold free_cluster_ranges in Hx.
    destruct (free_readable_sectors fat g u) as [|s l] eqn:El; [by apply elem_of_nil in Hx|].
    assert (Forall (fun x => 0 <= x) (s :: l)) as Hpos.
    { apply Forall_forall. intros y Hy. apply Hspec in Hy as (c & Hc & _ & Hy & _).
      unfold cluster_sector in Hy. nia. }
    apply Forall_cons in Hpos as [Hs Hpos]. rewrite Hbps in Hx.
    apply merge_sectors_sector_aligned in Hx as (a & n & -> & -> & Ha & Hn); [|lia..|done].
    rewrite !Z.mod_mul by lia. lia.
  - exists fat. rewrite Er. split; [done|]. split; [intros Hr; by apply Hmed|]. by rewrite Hfree.
Qed.

(** ** Entries of a scan *)

Lemma deleted_chain_sound first size fat g chain conf status warns :
  deleted_chain first size fat g = (chain, conf, status, warns) ->
  Forall (in_table fat) chain /\
  (chain = [] \/ (chain = zrange first (Z.to_nat (clusters_for_size size g)) /\
                  Forall (fun c => fat_at fat c = 0) chain)).
Proof.
  unfold deleted_chain. intros H. destruct (_ || _) eqn:E1.
  { injection H as <- _ _ _. split; [constructor|by left]. }
  destruct (_ <=? _) eqn:E2; [injection H as <- _ _ _; split; [constructor|by left]|].
  destruct (existsb _ _) eqn:E3; [injection H as <- _ _ _; split; [constructor|by left]|].
  injection H as <- _ _ _.
  rewrite orb_false_iff, Z.ltb_ge in E1. apply Z.leb_gt in E2.
  split.
  - apply Forall_forall. intros c Hc%elem_of_zrange_to. unfold in_table. lia.
  - right. split; [unfold zrange_to; f_equal; lia|].
    apply Forall_forall. intros c Hc. destruct (Z.eqb_spec (fat_at fat c) 0) as [|Hne]; [done|].
    exfalso. apply not_true_iff_false in E3. apply E3, existsb_elem. exists c.
    split; [done|]. by apply negb_true_iff, Z.eqb_neq.
Qed.

Lemma wf_slice lo hi b : wf_bytes b -> wf_bytes (slice lo hi b).
Proof. intros H. unfold slice, wf_bytes. by apply Forall_take, Forall_drop. Qed.

(** Every entry is parsed from one slot of the directory, and knows which. *)
Lemma parse_entries_inv (P : Fat12Entry -> Prop) count index root pending g fat u :
  (forall raw i p, index <= i < index + Z.of_nat count -> raw = slice (i * 32) ((i + 1) * 32) root -> zlen raw = 32 ->
     P (parse_entry raw i p g fat u)) ->
  Forall P (parse_entries count index root pending g fat u).
Proof.
  revert index pending; induction count as [|count IH]; intros index pending HP; [constructor|].
  assert (Hrest : forall pending, Forall P (parse_entries count (index + 1) root pending g fat u)).
  { intros pending'. apply IH. intros raw i p Hi. apply HP. lia. }
  cbn [parse_entries]. cbv zeta.
  destruct (negb _ || _) eqn:E; [constructor|]. apply orb_false_iff in E as [E _]. apply negb_false_iff, Z.eqb_eq in E.
  destruct (_ =? 15); [apply Hrest|]. destruct (negb _); [apply Hrest|].
  constructor; [|apply Hrest]. apply HP; [lia|done|exact E].
Qed.

Lemma byte_at_slice lo hi b n : 0 <= lo -> Z.of_nat n < hi - lo -> byte_at (slice lo hi b) n = byte_at b (Z.to_nat lo + n).
Proof.
  intros Hlo Hn. unfold slice. rewrite byte_at_take by lia. rewrite <- (take_drop (Z.to_nat lo) b) at 2.
  destruct (decide (Z.to_nat lo <= length b)%nat) as [Hl|Hl].
  - rewrite byte_at_app_r by (rewrite length_take; lia). rewrite length_take. f_equal. lia.
  - rewrite drop_ge, app_nil_r by lia. rewrite !byte_at_beyond; [done|rewrite length_take; lia|cbn; lia].
Qed.

Lemma slot_bytes read_at bad root g i n :
  medium_bytes read_at bad root (root_start g) -> 0 <= i -> zlen (slice (i * 32) ((i + 1) * 32) root) = 32 -> (n < 32)%nat ->
  byte_at (slice (i * 32) ((i + 1) * 32) root) n = slot_byte read_at bad g i (Z.of_nat n).
Proof.
  intros Hm Hi Hl Hn. rewrite byte_at_slice by lia. unfold zlen, slice in Hl. rewrite length_take, length_drop in Hl.
  rewrite Hm by lia. unfold slot_byte. f_equal. lia.
Qed.

Lemma parse_entry_chain raw i p g fat u :
  e_extents (parse_entry raw i p g fat u) = cluster_extents12 (e_cluster_chain (parse_entry raw i p g fat u)) g /\
  (if byte_at raw 0 =? 229 then deleted_chain (u16le raw 26) (u32le raw 28) fat g
   else allocated_chain (u16le raw 26) (u32le raw 28) fat g).1.1.1
  = e_cluster_chain (parse_entry raw i p g fat u) /\
  e_allocated (parse_entry raw i p g fat u) = negb (byte_at raw 0 =? 229).
Proof.
  unfold parse_entry. destruct (decode_lfn _ _ _) as [ln lw].
  destruct (byte_at raw 0 =? 229).
  - by destruct (deleted_chain _ _ _ _) as [[[c co] st] ws].
  - by destruct (allocated_chain _ _ _ _) as [[[c co] st] ws].
Qed.

(** The byte ranges of an entry lie in the data area of a source of [size] bytes. *)
Definition entry_bounded (g : Fat12Geometry) (size : Z) (e : Fat12Entry) : Prop :=
  Forall (fun x => first_data_sector g * 512 <= ext_offset x /\
                   ext_length x = sectors_per_cluster g * 512 /\
                   ext_offset x + ext_length x <= size) (e_extents e).

Lemma extents_bounded g fat chain :
  layout_ok g = true -> zlen fat = cluster_count g + 2 -> Forall (in_table fat) chain ->
  Forall (fun x => first_data_sector g * 512 <= ext_offset x /\
                   ext_length x = sectors_per_cluster g * 512 /\
                   ext_offset x + ext_length x <= geo_size_bytes g) (cluster_extents12 chain g).
Proof.
  intros Hl Hlen Hc. unfold layout_ok in Hl.
  rewrite !andb_true_iff, !Z.eqb_eq, !Z.ltb_lt, !Z.leb_le in Hl.
  destruct Hl as [[[[[[[[[Hbps Hspc] Hfd] Hcc] Htot] _] _] _] _] _].
  rewrite Forall_forall in Hc. apply Forall_fmap, Forall_forall. intros c Hin. simpl.
  specialize (Hc c Hin). unfold in_table in Hc. unfold geo_size_bytes, cluster_sector.
  rewrite Hbps. nia.
Qed.

Lemma allocated_chain_in_table first size fat g chain conf status warns :
  g ∈ SUPPORTED_GEOMETRIES -> 0 <= size ->
  allocated_chain first size fat g = (chain, conf, status, warns) -> sound_chain fat chain.
Proof.
  intros Hg Hsz H. pose proof (supported_layout g Hg) as Hl. unfold layout_ok in Hl.
  rewrite !andb_true_iff, !Z.eqb_eq, !Z.ltb_lt in Hl.
  assert (0 < sectors_per_cluster g * bytes_per_sector g) as Hcl by nia.
  assert (sound_chain fat []) as Hnil by (split; [constructor|split; [constructor|done]]).
  destruct (allocated_chain_cases _ _ _ _ _ _ _ _ Hsz Hcl H)
    as [->|(c0 & w0 & s0 & w1 & s1 & Hf & (n & ->) & _)]; [done|].
  assert (zlen (@nil Z) <= cluster_count g + 1) as H0 by (unfold zlen; simpl; lia).
  assert (forall p, last (@nil Z) = Some p -> fat_at fat p = first) as Hla by done.
  destruct (follow_chain_sound _ _ _ _ _ _ _ _ Hnil Hla H0 Hf) as (Hsound & _).
  by apply sound_chain_take.
Qed.


(** The first cluster of an allocated chain is the one asked for. *)
Lemma allocated_chain_first first size fat g chain conf status warns :
  g ∈ SUPPORTED_GEOMETRIES -> 0 <= size ->
  allocated_chain first size fat g = (chain, conf, status, warns) -> chain = [] \/ head chain = Some first.
Proof.
  intros Hg Hsz H. pose proof (supported_layout g Hg) as Hl. unfold layout_ok in Hl.
  rewrite !andb_true_iff, !Z.eqb_eq, !Z.ltb_lt in Hl.
  assert (0 < sectors_per_cluster g * bytes_per_sector g) as Hcl by nia.
  destruct (allocated_chain_cases _ _ _ _ _ _ _ _ Hsz Hcl H)
    as [->|(c0 & w0 & s0 & w1 & s1 & Hf & (n & ->) & _)]; [by left|].
  apply follow_chain_head in Hf as [->|[m ->]]; [left; by rewrite take_nil|]. destruct n; [by left|by right].
Qed.

(** What an entry of slot [i] has to be. *)
Definition entry_sound (read_at : Z -> Z -> option bytes) (bad : list Z) (g : Fat12Geometry) (size : Z) (fat : list Z) (e : Fat12Entry) : Prop :=
  let i := e_index e in
  let first := slot_first_cluster read_at bad g i in
  0 <= i < root_entries g /\ e_size_bytes e = slot_size read_at bad g i /\
  (e_allocated e = true <-> slot_byte read_at bad g i 0 <> 229) /\
  entry_bounded g size e /\
  Forall2 (fun cluster x => ext_offset x = cluster_sector g cluster * 512) (e_cluster_chain e) (e_extents e) /\
  if e_allocated e
  then sound_chain fat (e_cluster_chain e) /\ (e_cluster_chain e = [] \/ head (e_cluster_chain e) = Some first)
  else e_cluster_chain e = [] \/
       exists n, e_cluster_chain e = zrange first n /\
         (Z.of_nat n - 1) * (sectors_per_cluster g * 512) < e_size_bytes e <= Z.of_nat n * (sectors_per_cluster g * 512) /\
         Forall (fun c => fat_at fat c = 0) (e_cluster_chain e).

Lemma cluster_extents_places g chain : bytes_per_sector g = 512 ->
  Forall2 (fun cluster x => ext_offset x = cluster_sector g cluster * 512) chain (cluster_extents12 chain g).
Proof. intros Hb. unfold cluster_extents12. rewrite Hb. induction chain as [|c chain IH]; by constructor. Qed.

Lemma clusters_needed size g : bytes_per_sector g = 512 -> 0 < sectors_per_cluster g -> 0 <= size ->
  let n := clusters_for_size size g in
  0 <= n /\ (n - 1) * (sectors_per_cluster g * 512) < size <= n * (sectors_per_cluster g * 512).
Proof.
  intros Hb Hs Hz. unfold clusters_for_size. rewrite Hb. set (w := sectors_per_cluster g * 512). assert (0 < w) by lia.
  destruct (Z.eqb_spec size 0) as [->|Hne]; [lia|].
  pose proof (Z.div_mod (size + w - 1) w ltac:(lia)). pose proof (Z.mod_pos_bound (size + w - 1) w ltac:(lia)).
  assert (0 <= (size + w - 1) / w) by (apply Z.div_pos; lia). cbv zeta. nia.
Qed.

Lemma parse_entry_sound read_at bad g fat u root i p :
  g ∈ SUPPORTED_GEOMETRIES -> zlen fat = cluster_count g + 2 -> wf_bytes root ->
  medium_bytes read_at bad root (root_start g) -> 0 <= i < root_entries g ->
  let raw := slice (i * 32) ((i + 1) * 32) root in zlen raw = 32 ->
  entry_sound read_at bad g (geo_size_bytes g) fat (parse_entry raw i p g fat u).
Proof.
  intros Hg Hlen Hw Hm Hi raw Hraw. pose proof (wf_slice (i * 32) ((i + 1) * 32) root Hw) as Hwr. fold raw in Hwr.
  pose proof (supported_layout g Hg) as Hl. unfold layout_ok in Hl. rewrite !andb_true_iff, !Z.eqb_eq, !Z.ltb_lt, !Z.leb_le in Hl.
  assert (bytes_per_sector g = 512) as Hbps by tauto. assert (0 < sectors_per_cluster g) as Hspc by tauto. clear Hl.
  assert (Hat : forall n, (n < 32)%nat -> byte_at raw n = slot_byte read_at bad g i (Z.of_nat n)).
  { intros n Hn. apply slot_bytes; [done|lia|exact Hraw|done]. }
  assert (Hfirst : u16le raw 26 = slot_first_cluster read_at bad g i).
  { unfold u16le, slot_first_cluster. cbn [Nat.add]. by rewrite !Hat by lia. }
  assert (Hsize : u32le raw 28 = slot_size read_at bad g i).
  { unfold u32le, slot_size. cbn [Nat.add]. by rewrite !Hat by lia. }
  destruct (parse_entry_chain raw i p g fat u) as (Hx & Hc & Ha). pose proof (u32le_bound raw 28 Hwr) as Hsb.
  assert (Hie : e_index (parse_entry raw i p g fat u) = i /\ e_size_bytes (parse_entry raw i p g fat u) = u32le raw 28).
  { unfold parse_entry. destruct (decode_lfn _ _ _) as [ln lw]. destruct (byte_at raw 0 =? 229).
    - by destruct (deleted_chain _ _ _ _) as [[[c co] st] ws].
    - by destruct (allocated_chain _ _ _ _) as [[[c co] st] ws]. }
  destruct Hie as [Hie Hse]. unfold entry_sound, entry_bounded. rewrite Hie, Hse, Hx, Ha, <- Hc, <- Hfirst, <- Hsize. clear Hie Hse Hx Hc Ha.
  split; [done|]. split; [done|]. assert (byte_at raw 0 = slot_byte read_at bad g i 0) as <- by (apply (Hat 0%nat); lia).
  split; [rewrite negb_true_iff, Z.eqb_neq; done|].
  destruct (byte_at raw 0 =? 229); cbn [negb].
  - destruct (deleted_chain _ _ _ _) as [[[c co] st] ws] eqn:E. cbn [fst].
    apply deleted_chain_sound in E as (Hin & Hd).
    split; [by apply (extents_bounded g fat); [apply supported_layout|..]|]. split; [by apply cluster_extents_places|].
    destruct Hd as [->|[-> Hz]]; [by left|]. right. eexists. split; [reflexivity|]. split; [|exact Hz].
    destruct (clusters_needed (u32le raw 28) g Hbps Hspc ltac:(lia)) as [H0 Hn]. rewrite Z2Nat.id by done. exact Hn.
  - destruct (allocated_chain _ _ _ _) as [[[c co] st] ws] eqn:E. cbn [fst].
    apply allocated_chain_in_table in E as Hs; [|done|lia]. apply allocated_chain_first in E; [|done|lia].
    split; [apply (extents_bounded g fat); [by apply supported_layout|done|apply Hs]|]. split; [by apply cluster_extents_places|done].
Qed.

(** C35. Recovered entries never reach outside the data area and are what the medium says.  The
    table a scan works with is the first copy on the medium that begins with the marks of a
    table, with every cluster free when there is none, where a sector that is bad or unreadable
    counts as zeros.  Every entry stands in a slot of the root directory; whether it is deleted, its
    first cluster and its size are those of the slot.  Its extents are its clusters, whole, inside
    the data area, so no plan reads the boot sector, the tables, the root directory or past the
    end.  The clusters of an allocated entry are distinct, linked in the table, and begin with the
    first cluster; a deleted entry is given nothing, or as many clusters as its size needs,
    contiguous from its first one, which the table all marks free. *)
Theorem scan_entries_sound read_at size bad r :
  (forall o n d, read_at o n = Some d -> wf_bytes d) -> scan_fat12 read_at size bad = Ok r ->
  exists fat, medium_table read_at bad (sr_geometry r) fat /\
    Forall (entry_sound read_at bad (sr_geometry r) size fat) (sr_entries r).
Proof.
  intros Hrd H. destruct (scan_fat12_ok _ _ _ _ H) as (g & fat & root & u & Hg & Hsz & Er & Hlen & _ & _ & Ee & Hmed).
  destruct (Hmed Hrd) as (Hw & Hm & Ht). exists fat. rewrite Er, Ee. split; [done|]. unfold parse_root_directory.
  apply parse_entries_inv. intros raw i p Hi -> Hraw. rewrite <- Hsz. by apply parse_entry_sound; [..|lia|].
Qed.

(** ** Which sectors a scan reads *)

(** Two readers that agree on the sectors of a set. *)
Definition agree_on (P : Z -> Prop) (r1 r2 : Z -> Z -> option bytes) : Prop :=
  forall s, P s -> r1 (s * 512) 512 = r2 (s * 512) 512.

Lemma read_sectors_agree P r1 r2 bad count u start :
  agree_on P r1 r2 -> (forall s, start <= s < start + Z.of_nat count -> s ∉ bad -> P s) ->
  read_sectors r1 bad u start count 512 = read_sectors r2 bad u start count 512.
Proof.
  intros Ha. revert u start; induction count as [|count IH]; intros u start HP; [done|].
  cbn [read_sectors]. destruct (bool_decide (start ∈ bad)) eqn:Eb.
  - rewrite IH; [done|]. intros s Hs. apply HP. lia.
  - apply bool_decide_eq_false in Eb. rewrite (Ha start) by (apply HP; [lia|done]).
    cbv zeta. destruct (negb _); (rewrite IH; [done|]; intros s Hs; apply HP; lia).
Qed.

Lemma read_fat_copies_agree P r1 r2 bad g count u index :
  agree_on P r1 r2 -> bytes_per_sector g = 512 -> 0 <= sectors_per_fat g ->
  (forall s, reserved_sectors g + index * sectors_per_fat g <= s
     < reserved_sectors g + (index + Z.of_nat count) * sectors_per_fat g -> s ∉ bad -> P s) ->
  read_fat_copies r1 bad g u index count = read_fat_copies r2 bad g u index count.
Proof.
  intros Ha Hb Hspf. revert u index; induction count as [|count IH]; intros u index HP; [done|].
  cbn [read_fat_copies]. cbv zeta. rewrite Hb.
  rewrite (read_sectors_agree P r1 r2) by (done || (intros s Hs; apply HP; nia)).
  destruct (read_sectors r2 _ _ _ _ _) as [c u']. rewrite IH; [done|].
  intros s Hs. apply HP. nia.
Qed.

(** A scan reads only what it must: its whole result is determined by the boot sector
    and by the sectors before the data area that are not known to be bad. A known bad sector,
    a data sector or a sector past the end of the source is never read, so changing what the
    medium would return there, or whether it fails, changes nothing. *)
Theorem scan_reads_only_metadata r1 r2 size bad :
  (forall s, (s = 0 \/ (0 < s < 720 /\ s * 512 < size /\ s ∉ bad /\
      exists g, g ∈ SUPPORTED_GEOMETRIES /\ geo_size_bytes g = size /\ s < first_data_sector g)) ->
     r1 (s * 512) 512 = r2 (s * 512) 512) ->
  scan_fat12 r1 size bad = scan_fat12 r2 size bad.
Proof.
  intros Ha. unfold scan_fat12. destruct (size <? 512); [done|].
  pose proof (Ha 0 ltac:(by left)) as H0. change (0 * 512) with 0 in H0. rewrite <- H0.
  destruct (r1 0 512) as [boot|]; [|done]. destruct (negb _); [done|].
  destruct (detect_geometry boot size) as [g|] eqn:Hg; [|done]. cbn [mbind result_bind].
  apply detect_geometry_ok in Hg as [Hg Hs].
  pose proof (supported_layout g Hg) as Hl. unfold layout_ok in Hl.
  rewrite !andb_true_iff, !Z.eqb_eq, !Z.ltb_lt, !Z.leb_le in Hl.
  destruct Hl as [[[[[[[[[Hbps Hspc] Hfd] Hcc] Htot] Hsum] Hres] Hfc] Hspf] Hroot].
  assert (first_data_sector g < 720) as Hsmall.
  { unfold SUPPORTED_GEOMETRIES in Hg. rewrite !elem_of_cons, elem_of_nil in Hg.
    clear - Hg. repeat destruct Hg as [->|Hg]; by vm_compute || done. }
  set (P := fun s => 0 < s < first_data_sector g /\ s ∉ (list_to_set bad : gset Z)).
  assert (agree_on P r1 r2) as HP.
  { intros s [Hs1 Hs2]. apply Ha. right. rewrite elem_of_list_to_set in Hs2.
    split; [lia|]. split; [|split; [done|exists g; by split; [|split; [|lia]]]].
    rewrite <- Hs. unfold geo_size_bytes. rewrite Hbps. nia. }
  rewrite (read_fat_copies_agree P r1 r2) by (done || lia || (intros s Hs1 Hs2; split; [nia|done])).
  destruct (read_fat_copies r2 _ _ _ _ _) as [fats u]. destruct (select_fat fats g) as [fat w].
  rewrite Hbps, (read_sectors_agree P r1 r2) by (done || (intros s Hs1 Hs2; split; [nia|done])).
  done.
Qed.

(** ** A concrete floppy *)

Definition demo_boot_fields : list (Z * Z) :=
  [(0, 235); (11, 0); (12, 2); (13, 2); (14, 1); (16, 2); (17, 112); (19, 208); (20, 2); (21, 253);
   (22, 2); (24, 9); (26, 2); (54, 70); (55, 65); (56, 84); (57, 49); (58, 50); (59, 32); (60, 32);
   (61, 32); (510, 85); (511, 170)].
Definition demo_boot : bytes :=
  (fun i => match zdict_get demo_boot_fields i with Some v => v | None => 0 end) <$> zrange 0 512.
Definition demo_fat : bytes :=
  (encode_fat [(4093, 4095); (3, 4095); (0, 0)] ++ replicate 503 0)%list.
(** An allocated file of two clusters and a deleted one. *)
Definition demo_root : bytes :=
  ([72; 69; 76; 76; 79; 32; 32; 32; 84; 88; 84; 32; 0; 0; 0; 0; 0; 0; 0; 0; 0; 0; 0; 0; 0; 0; 2; 0; 100; 4; 0; 0]
   ++ [229; 76; 68; 32; 32; 32; 32; 32; 32; 32; 32; 32; 0; 0; 0; 0; 0; 0; 0; 0; 0; 0; 0; 0; 0; 0; 4; 0; 9; 0; 0; 0]
   ++ replicate 448 0)%list.
Definition demo_blank : bytes := replicate 512 0.
Definition demo_reader (offset n : Z) : option bytes :=
  if offset =? 0 then Some demo_boot
  else if (offset =? 512) || (offset =? 1536) then Some demo_fat
  else if offset =? 2560 then Some demo_root
  else Some demo_blank.

Definition demo_scan : result Fat12Error Fat12ScanResult := scan_fat12 demo_reader 368640 [700].

Example demo_scan_entries :
  match demo_scan with
  | Ok r => (fun e => (e_cluster_chain e, e_recovery_state e, e_confidence e)) <$> sr_entries r
  | Err _ => []
  end = [([2; 3], "allocated_intact", "certain"); ([4], "deleted_contiguous_candidate", "medium")].
Proof. by vm_compute. Qed.

Lemma demo_reader_bytes o n d : demo_reader o n = Some d -> wf_bytes d.
Proof.
  assert (forallb (fun x => (0 <=? x) && (x <? 256)) (demo_boot ++ demo_fat ++ demo_root ++ demo_blank) = true) as Hall
    by (by vm_compute).
  rewrite forallb_elem in Hall.
  assert (forall l, (forall x, x ∈ l -> x ∈ (demo_boot ++ demo_fat ++ demo_root ++ demo_blank)%list) -> wf_bytes l) as Hl.
  { intros l Hl. apply Forall_forall. intros x Hx. specialize (Hall x (Hl x Hx)). lia. }
  unfold demo_reader. intros H. apply Hl. intros x Hx. rewrite !elem_of_app.
  destruct (o =? 0); [injection H as <-; tauto|].
  destruct (_ || _); [injection H as <-; tauto|].
  destruct (o =? 2560); [injection H as <-; tauto|]. injection H as <-; tauto.
Qed.

Lemma decode_fat_roundtrip_witness :
  Forall twelve_bit [(4093, 4095); (3, 4095)] /\
  decode_fat (encode_fat [(4093, 4095); (3, 4095)]) 4 = [4093; 4095; 3; 4095].
Proof.
  assert (Forall twelve_bit [(4093, 4095); (3, 4095)]) as H by (repeat constructor; unfold twelve_bit; simpl; lia).
  split; [exact H|]. exact (proj1 (decode_fat_roundtrip [(4093, 4095); (3, 4095)]) H).
Defined.

Definition geo360 : Fat12Geometry := Geo "360 KiB" 720 2 112 2 9 2 40 253 512 1 2.

Lemma allocated_chain_sound_witness :
  [2; 3] = zrange 2 (Z.to_nat (clusters_for_size 1124 geo360)).
Proof.
  destruct (allocated_chain_sound 2 1124 ([4093; 4095; 3; 4095] ++ replicate 352 0) geo360 [2; 3]
    "certain" "allocated_intact" []) as (_ & _ & _ & H & _).
  - left.
  - lia.
  - by vm_compute.
  - apply H; [done|lia|done].
Defined.

Lemma carve_ranges_exact_witness : exists r, demo_scan = Ok r /\ StronglySorted Z.lt (free_sectors r).
Proof.
  destruct demo_scan as [r|] eqn:E; [|by vm_compute in E]. exists r. split; [done|].
  exact (proj1 (carve_ranges_exact _ _ _ _ E)).
Defined.

Lemma scan_entries_sound_witness :
  exists r fat, demo_scan = Ok r /\ medium_table demo_reader [700] (sr_geometry r) fat /\
    Forall (fun e => entry_bounded (sr_geometry r) 368640 e) (sr_entries r).
Proof.
  destruct demo_scan as [r|] eqn:E; [|by vm_compute in E].
  destruct (scan_entries_sound demo_reader 368640 [700] r demo_reader_bytes E) as (fat & Ht & Hf).
  exists r, fat. split; [done|]. split; [exact Ht|]. eapply Forall_impl; [exact Hf|]. by intros e (_ & _ & _ & Hb & _).
Defined.

Lemma scan_reads_only_metadata_witness :
  scan_fat12 demo_reader 368640 [700]
  = scan_fat12 (fun o n => if o <? 368640 then demo_reader o n else None) 368640 [700].
Proof.
  apply scan_reads_only_metadata. intros s Hs. assert (s * 512 < 368640) as Hlt by lia.
  by rewrite (proj2 (Z.ltb_lt _ _) Hlt).
Defined.
