(* ===== verification/ReadErrors.v ===== *)
(** * Damaged source ranges: [scanner/read_errors.py]

    A reader that retries a bounded number of times, records a gap when a range stays
    unreadable and recommends a pause. The wrapped reader and the temperature sensor are the
    caller's: the answer to the n-th call is a parameter. *)

From Stdlib Require Import ZArith Lia String Ascii.
From stdpp Require Import base list strings gmap.
From S2P Require Import Prelude PyStr.

Local Open Scope string_scope.
Local Open Scope Z_scope.

(** ** Data *)

(** scanner/read_errors.py:11-14 MAX_ATTEMPTS *)
Definition MAX_ATTEMPTS : Z := 16.
(** scanner/read_errors.py:12-12 MAX_BACKOFF_MS *)
Definition MAX_BACKOFF_MS : Z := 60000.
(** scanner/read_errors.py:13-13 MAX_ERROR_RANGES *)
Definition MAX_ERROR_RANGES : Z := 4096.
(** scanner/read_errors.py:14-14 MAX_READ_LENGTH_BYTES *)
Definition MAX_READ_LENGTH_BYTES : Z := 16 * 1024 * 1024.

(** scanner/read_errors.py:17-22 ReadErrorHandlingError: its code. *)
Inductive read_error := ReadErrorHandlingError (code : string).

(** scanner/read_errors.py:29-34 ReadErrorRange *)
Record ReadErrorRange := {
  re_offset : Z; re_length : Z; re_code : string; re_attempts : Z
}.

(** scanner/read_errors.py:37-60 ReadCounters *)
Record ReadCounters := Cnt {
  attempted_reads : Z; successful_reads : Z; retry_reads : Z; failed_reads : Z;
  skipped_bytes : Z; recovered_after_retry : Z; short_reads : Z; timeouts : Z; invalid_reads : Z
}.

Definition zero_counters : ReadCounters := Cnt 0 0 0 0 0 0 0 0 0.

(** scanner/read_errors.py:63-69 ReadPolicy *)
Record ReadPolicy := {
  max_attempts : Z; base_backoff_ms : Z; max_error_ranges : Z; pause_after_errors : Z;
  pause_temperature_celsius : option Z
}.

(** scanner/read_errors.py:71-86 __post_init__ *)
Definition valid_policy (p : ReadPolicy) : bool :=
  (0 <? max_attempts p) && (max_attempts p <=? MAX_ATTEMPTS)
  && (0 <=? base_backoff_ms p) && (base_backoff_ms p <=? MAX_BACKOFF_MS)
  && (0 <? max_error_ranges p) && (max_error_ranges p <=? MAX_ERROR_RANGES)
  && (0 <? pause_after_errors p) && (pause_after_errors p <=? MAX_ERROR_RANGES).

(** What one call of the wrapped reader does: bytes, another object, a timeout, an OSError. *)
Inductive raw_read := RData (b : bytes) | ROther | RTimeout | ROSError.

(** scanner/read_errors.py:105-118 __init__: the mutable state of a reader; [calls],
    [sensor_reads] and [sleeps] record the calls of the reader, the sensor and [sleep]. *)
Record reader_state := RS {
  counters : ReadCounters;
  error_ranges : list ReadErrorRange;
  calls : nat;
  sensor_reads : nat;
  sleeps : list Z
}.

Definition initial_reader : reader_state := RS zero_counters [] 0 0 [].

(** scanner/read_errors.py:196-207 warnings: the two kinds of warning mappings. *)
Inductive warning :=
  | ReadGap (message : string) (offset length_ : Z) (read_error_code : string)
  | PauseRecommended (message : string).

(** scanner/read_errors.py:89-95 ReadOutcome *)
Record ReadOutcome := {
  o_data : bytes;
  o_gap : option ReadErrorRange;
  o_counters : ReadCounters;
  o_warnings : list warning;
  o_pause_reason : option string
}.

Section resilient_reader.
  Context (policy : ReadPolicy) (raw : nat -> Z -> Z -> raw_read) (temperature : nat -> option Z).

(** scanner/read_errors.py:210-222 _pause_reason *)
Definition pause_reason (s : reader_state) : option string * reader_state :=
  if pause_after_errors policy <=? zlen (error_ranges s)
  then (Some "read error threshold reached", s)
  else if max_error_ranges policy <=? zlen (error_ranges s)
  then (Some "maximum read error ranges reached", s)
  else
    let s' := RS (counters s) (error_ranges s) (calls s) (S (sensor_reads s)) (sleeps s) in
    match temperature (sensor_reads s), pause_temperature_celsius policy with
    | Some t, Some limit => if limit <=? t then (Some "source temperature threshold reached", s')
                            else (None, s')
    | _, _ => (None, s')
    end.

(** scanner/read_errors.py:193-208 warnings *)
Definition warnings (s : reader_state) : list warning * reader_state :=
  let gaps := (fun e => ReadGap ("skipped unreadable range at " +:+ str_of_Z (re_offset e)
                           +:+ " length " +:+ str_of_Z (re_length e))
                          (re_offset e) (re_length e) (re_code e)) <$> error_ranges s in
  let '(reason, s') := pause_reason s in
  ((gaps ++ match reason with Some r => [PauseRecommended r] | None => [] end)%list, s').

(** scanner/read_errors.py:224-226 _backoff_seconds: in milliseconds. *)
Definition backoff_ms (attempt : Z) : Z :=
  Z.min (base_backoff_ms policy * 2 ^ (attempt - 1)) MAX_BACKOFF_MS.

(** scanner/read_errors.py:229-238 _validate_range *)
Definition validate_range (offset length_ : Z) : result read_error unit :=
  _ ← raise_if ((offset <? 0) || (length_ <? 0)) (ReadErrorHandlingError "invalid_range");
  raise_if (MAX_READ_LENGTH_BYTES <? length_) (ReadErrorHandlingError "range_too_large").

(** Count one failed attempt under its code. *)
Definition count_failure (r : raw_read) (c : ReadCounters) : ReadCounters * string :=
  match r with
  | RTimeout => (Cnt (attempted_reads c) (successful_reads c) (retry_reads c) (failed_reads c)
      (skipped_bytes c) (recovered_after_retry c) (short_reads c) (timeouts c + 1) (invalid_reads c),
      "timeout")
  | ROSError => (c, "eio")
  | ROther => (Cnt (attempted_reads c) (successful_reads c) (retry_reads c) (failed_reads c)
      (skipped_bytes c) (recovered_after_retry c) (short_reads c) (timeouts c) (invalid_reads c + 1),
      "invalid_data")
  | RData _ => (Cnt (attempted_reads c) (successful_reads c) (retry_reads c) (failed_reads c)
      (skipped_bytes c) (recovered_after_retry c) (short_reads c + 1) (timeouts c) (invalid_reads c),
      "short_read")
  end.

(** scanner/read_errors.py:129-165 read_or_gap: the loop from [attempt] on, for the attempts
    left; the data of a successful read or the code of the last failure. *)
Fixpoint attempts_loop (n : nat) (attempt : Z) (last_code : string) (offset length_ : Z) (s : reader_state)
    : (bytes + string) * reader_state :=
  match n with
  | O => (inr last_code, s)
  | S n =>
    let c := counters s in
    let c := Cnt (attempted_reads c + 1) (successful_reads c) (retry_reads c) (failed_reads c)
               (skipped_bytes c) (recovered_after_retry c) (short_reads c) (timeouts c) (invalid_reads c) in
    let r := raw (calls s) offset length_ in
    let fail :=
      let '(c, code) := count_failure r c in
      if attempt <? max_attempts policy
      then
        let c := Cnt (attempted_reads c) (successful_reads c) (retry_reads c + 1) (failed_reads c)
                   (skipped_bytes c) (recovered_after_retry c) (short_reads c) (timeouts c) (invalid_reads c) in
        attempts_loop n (attempt + 1) code offset length_
          (RS c (error_ranges s) (S (calls s)) (sensor_reads s) (sleeps s ++ [backoff_ms attempt])%list)
      else attempts_loop n (attempt + 1) code offset length_
             (RS c (error_ranges s) (S (calls s)) (sensor_reads s) (sleeps s)) in
    match r with
    | RData d =>
      if zlen d =? length_
      then (inl d,
            RS (Cnt (attempted_reads c) (successful_reads c + 1) (retry_reads c) (failed_reads c)
                  (skipped_bytes c) (recovered_after_retry c + (if 1 <? attempt then 1 else 0))
                  (short_reads c) (timeouts c) (invalid_reads c))
               (error_ranges s) (S (calls s)) (sensor_reads s) (sleeps s))
      else fail
    | _ => fail
    end
  end.

(** scanner/read_errors.py:126-175 read_or_gap *)
Definition read_or_gap (offset length_ : Z) (s : reader_state)
    : result read_error (ReadOutcome * reader_state) :=
  _ ← validate_range offset length_;
  match attempts_loop (Z.to_nat (max_attempts policy)) 1 "read_error" offset length_ s with
  | (inl d, s) =>
    let '(ws, s1) := warnings s in
    let '(reason, s2) := pause_reason s1 in
    Ok ({| o_data := d; o_gap := None; o_counters := counters s; o_warnings := ws;
           o_pause_reason := reason |}, s2)
  | (inr code, s) =>
    let gap := {| re_offset := offset; re_length := length_; re_code := code;
                  re_attempts := max_attempts policy |} in
    let c := counters s in
    let s := RS (Cnt (attempted_reads c) (successful_reads c) (retry_reads c) (failed_reads c + 1)
                   (skipped_bytes c + length_) (recovered_after_retry c) (short_reads c) (timeouts c)
                   (invalid_reads c))
               (error_ranges s ++ [gap])%list (calls s) (sensor_reads s) (sleeps s) in
    let '(reason, s1) := pause_reason s in
    let '(ws, s2) := warnings s1 in
    Ok ({| o_data := replicate (Z.to_nat length_) 0; o_gap := Some gap; o_counters := counters s;
           o_warnings := ws; o_pause_reason := reason |}, s2)
  end.

(** scanner/read_errors.py:120-124 read_at *)
Definition resilient_read_at (offset length_ : Z) (s : reader_state)
    : result read_error (bytes * reader_state) :=
  '(o, s) ← read_or_gap offset length_ s;
  match o_gap o with
  | Some _ => Ok (replicate (Z.to_nat length_) 0, s)
  | None => Ok (o_data o, s)
  end.
End resilient_reader.

(** ** Accounting *)

(** The counters account for every call of the reader, and the gaps for every failure. *)
Definition accounted (s : reader_state) : Prop :=
  let c := counters s in
  attempted_reads c = Z.of_nat (calls s) /\
  attempted_reads c = successful_reads c + retry_reads c + failed_reads c /\
  failed_reads c = zlen (error_ranges s) /\
  skipped_bytes c = zsum (re_length <$> error_ranges s) /\
  0 <= recovered_after_retry c <= successful_reads c /\
  0 <= timeouts c /\ 0 <= short_reads c /\ 0 <= invalid_reads c /\
  timeouts c + short_reads c + invalid_reads c <= retry_reads c + failed_reads c /\
  retry_reads c = zlen (sleeps s).

Section accounting.
Context (policy : ReadPolicy) (raw : nat -> Z -> Z -> raw_read) (temperature : nat -> option Z).

(** The same while an attempt that is about to fail for good is not yet counted. *)
Definition accounted_but (open : Z) (s : reader_state) : Prop :=
  let c := counters s in
  attempted_reads c = Z.of_nat (calls s) /\
  attempted_reads c = successful_reads c + retry_reads c + failed_reads c + open /\
  failed_reads c = zlen (error_ranges s) /\
  skipped_bytes c = zsum (re_length <$> error_ranges s) /\
  0 <= recovered_after_retry c <= successful_reads c /\
  0 <= timeouts c /\ 0 <= short_reads c /\ 0 <= invalid_reads c /\
  timeouts c + short_reads c + invalid_reads c <= retry_reads c + failed_reads c + open /\
  retry_reads c = zlen (sleeps s).

Lemma attempts_loop_spec n attempt code offset len s r s' :
  accounted_but 0 s -> 1 <= attempt -> attempt + Z.of_nat n = max_attempts policy + 1 -> (0 < n)%nat ->
  attempts_loop policy raw n attempt code offset len s = (r, s') ->
  error_ranges s' = error_ranges s /\ sensor_reads s' = sensor_reads s /\
  Z.of_nat (calls s') <= Z.of_nat (calls s) + Z.of_nat n /\
  match r with
  | inl d => zlen d = len /\ accounted_but 0 s' /\ exists i, raw i offset len = RData d
  | inr _ => accounted_but 1 s' /\ Z.of_nat (calls s') = Z.of_nat (calls s) + Z.of_nat n
  end /\
  exists more, sleeps s' = (sleeps s ++ more)%list /\ zlen more < Z.of_nat n /\
    Forall (fun ms => ms <= MAX_BACKOFF_MS) more.
Proof.
  revert attempt code s; induction n as [|n IH]; intros attempt code s Hacc Ha Hn Hpos H; [lia|].
  cbn [attempts_loop] in H. cbv zeta in H.
  set (fail := let '(c, code0) := count_failure _ _ in _) in H.
  assert (forall x, fail = x -> (forall d, raw (calls s) offset len = RData d -> zlen d <> len) ->
    x = (r, s') ->
    error_ranges s' = error_ranges s /\ sensor_reads s' = sensor_reads s /\
    Z.of_nat (calls s') <= Z.of_nat (calls s) + Z.of_nat (S n) /\
    match r with
    | inl d => zlen d = len /\ accounted_but 0 s' /\ exists i, raw i offset len = RData d
    | inr _ => accounted_but 1 s' /\ Z.of_nat (calls s') = Z.of_nat (calls s) + Z.of_nat (S n)
    end /\
    exists more, sleeps s' = (sleeps s ++ more)%list /\ zlen more < Z.of_nat (S n) /\
      Forall (fun ms => ms <= MAX_BACKOFF_MS) more) as Hfail.
  { intros x Hx _ ->. subst fail. clear H.
    destruct (count_failure _ _) as [c code'] eqn:Ec.
    assert (attempted_reads c = attempted_reads (counters s) + 1 /\
      successful_reads c = successful_reads (counters s) /\ retry_reads c = retry_reads (counters s) /\
      failed_reads c = failed_reads (counters s) /\ skipped_bytes c = skipped_bytes (counters s) /\
      recovered_after_retry c = recovered_after_retry (counters s) /\
      0 <= timeouts c /\ 0 <= short_reads c /\ 0 <= invalid_reads c /\
      timeouts c + short_reads c + invalid_reads c
        <= timeouts (counters s) + short_reads (counters s) + invalid_reads (counters s) + 1) as Hc.
    { destruct Hacc as (_ & _ & _ & _ & _ & ? & ? & ? & _).
      destruct (raw _ _ _); simpl in Ec; injection Ec as <- _; simpl; repeat split; lia. }
    clear Ec. destruct Hacc as (A1 & A2 & A3 & A4 & A5 & A6 & A7 & A8 & A9 & A10).
    destruct (Z.ltb_spec attempt (max_attempts policy)) as [Hlt|Hge].
    - apply IH in Hx as (R1 & R2 & R3 & R4 & (more & R5 & R6 & R7)); [| |lia|lia|lia].
      + simpl in *. split; [done|]. split; [done|]. split; [lia|]. split.
        * destruct r as [d|]; [done|]. destruct R4 as [R4 R4']. split; [done|lia].
        * exists (backoff_ms policy attempt :: more). split; [by rewrite R5, <- app_assoc|].
          unfold zlen in *. simpl. split; [lia|]. constructor; [|done]. unfold backoff_ms. lia.
      + unfold accounted_but. simpl. rewrite zlen_snoc. repeat split; lia.
    - assert (n = O) as -> by lia. simpl in Hx. injection Hx as <- <-.
      split; [done|]. split; [done|]. simpl. split; [lia|]. split; [split; [|lia]|].
      + unfold accounted_but. simpl. repeat split; lia.
      + exists []. rewrite app_nil_r. split; [done|]. split; [unfold zlen; simpl; lia|constructor]. }
  destruct (raw (calls s) offset len) as [d| | |] eqn:Er;
    [|by apply (Hfail fail eq_refl)..].
  destruct (Z.eqb_spec (zlen d) len) as [Hd|Hd];
    [|apply (Hfail fail eq_refl); [by intros d' [= <-]|done]].
  injection H as <- <-. simpl. split; [done|]. split; [done|]. split; [lia|].
  split; [split; [done|split]|].
  - destruct Hacc as (A1 & A2 & A3 & A4 & A5 & A6 & A7 & A8 & A9 & A10).
    unfold accounted_but. simpl. destruct (1 <? attempt); repeat split; lia.
  - by eexists.
  - exists []. rewrite app_nil_r. split; [done|]. split; [unfold zlen; simpl; lia|constructor].
Qed.
End accounting.

(** Readings of the sensor change nothing else. *)
Definition same_but_sensor (s s' : reader_state) : Prop :=
  counters s' = counters s /\ error_ranges s' = error_ranges s /\ calls s' = calls s /\ sleeps s' = sleeps s.

Lemma pause_reason_same p t s r s' : pause_reason p t s = (r, s') -> same_but_sensor s s'.
Proof.
  unfold pause_reason. intros H. repeat case_match; injection H as <- <-; by repeat split.
Qed.

Lemma warnings_same p t s w s' : warnings p t s = (w, s') -> same_but_sensor s s'.
Proof.
  unfold warnings. destruct (pause_reason p t s) as [r s1] eqn:E. intros [= <- <-].
  by eapply pause_reason_same.
Qed.

Lemma same_but_sensor_trans a b c : same_but_sensor a b -> same_but_sensor b c -> same_but_sensor a c.
Proof. unfold same_but_sensor. intuition congruence. Qed.

Lemma accounted_same s s' : same_but_sensor s s' -> accounted s -> accounted s'.
Proof. intros (H1 & H2 & H3 & H4). unfold accounted. by rewrite H1, H2, H3, H4. Qed.

Lemma valid_policy_attempts p : valid_policy p = true -> 0 < max_attempts p <= 16.
Proof. unfold valid_policy, MAX_ATTEMPTS. rewrite !andb_true_iff. lia. Qed.

Lemma validate_range_ok o n u : validate_range o n = Ok u <-> 0 <= o /\ 0 <= n <= MAX_READ_LENGTH_BYTES.
Proof.
  unfold validate_range. destruct u. rewrite bind_ok. split.
  - intros (? & H1 & H2). apply raise_if_ok in H1, H2. rewrite orb_false_iff in H1. lia.
  - intros H. exists tt. rewrite !raise_if_ok. rewrite orb_false_iff. lia.
Qed.

(** A reader's history: any reads, failed ones included. *)
Inductive reader_step (p : ReadPolicy) raw temp (s : reader_state) : reader_state -> Prop :=
  | step_read o n out s' : read_or_gap p raw temp o n s = Ok (out, s') -> reader_step p raw temp s s'.

Lemma read_or_gap_spec p raw temp o n s out s' :
  valid_policy p = true -> accounted s -> read_or_gap p raw temp o n s = Ok (out, s') ->
  accounted s' /\ o_counters out = counters s' /\ zlen (o_data out) = n /\
  Z.of_nat (calls s') <= Z.of_nat (calls s) + max_attempts p /\
  (exists more, sleeps s' = (sleeps s ++ more)%list /\ zlen more < max_attempts p /\
     Forall (fun ms => ms <= MAX_BACKOFF_MS) more) /\
  match o_gap out with
  | None => error_ranges s' = error_ranges s /\ exists i, raw i o n = RData (o_data out)
  | Some g => error_ranges s' = (error_ranges s ++ [g])%list /\ re_offset g = o /\ re_length g = n /\
      re_attempts g = max_attempts p /\ Z.of_nat (calls s') = Z.of_nat (calls s) + max_attempts p /\
      o_data out = replicate (Z.to_nat n) 0
  end.
Proof.
  intros Hp Hacc H. apply valid_policy_attempts in Hp. unfold read_or_gap in H.
  apply bind_ok in H as (u & Hv & H). apply validate_range_ok in Hv.
  destruct (attempts_loop _ _ _ _ _ _ _ s) as [r s1] eqn:El.
  apply attempts_loop_spec in El as (E1 & E2 & E3 & E4 & (more & E5 & E6 & E7)); [| |lia|lia|lia].
  2: { unfold accounted in Hacc. unfold accounted_but. intuition lia. }
  destruct r as [d|code].
  - destruct E4 as (Hd & Hacc1 & i & Hi).
    destruct (warnings p temp s1) as [ws s2] eqn:Ew. destruct (pause_reason p temp s2) as [rs s3] eqn:Epr.
    injection H as <- <-. simpl.
    apply warnings_same in Ew. apply pause_reason_same in Epr.
    pose proof (same_but_sensor_trans _ _ _ Ew Epr) as Hs.
    assert (accounted s1) as Ha1 by (unfold accounted, accounted_but in *; intuition lia).
    split; [by eapply accounted_same|]. destruct Hs as (S1 & S2 & S3 & S4).
    rewrite S1, S2, S3, S4. split; [done|]. split; [done|]. split; [lia|].
    split; [exists more; split; [done|]; split; [lia|done]|]. split; [done|by exists i].
  - destruct E4 as (Hacc1 & Hcalls).
    set (s2 := RS _ _ _ _ _) in H.
    destruct (pause_reason p temp s2) as [rs s3] eqn:Epr. destruct (warnings p temp s3) as [ws s4] eqn:Ew.
    injection H as <- <-. cbn [o_counters o_data o_gap].
    apply warnings_same in Ew. apply pause_reason_same in Epr.
    pose proof (same_but_sensor_trans _ _ _ Epr Ew) as Hs.
    assert (accounted s2) as Ha2.
    { unfold accounted, accounted_but in *. subst s2. simpl.
      rewrite zlen_snoc, fmap_app, zsum_app. change (zsum (re_length <$> [_])) with (n + 0). intuition lia. }
    split; [by eapply accounted_same|]. destruct Hs as (S1 & S2 & S3 & S4).
    rewrite S1, S2, S3, S4. subst s2. cbn [counters error_ranges calls sleeps].
    split; [done|]. split; [unfold zlen; rewrite length_replicate; lia|]. split; [lia|].
    split; [exists more; split; [done|]; split; [lia|done]|].
    rewrite E1. repeat split; try done. lia.
Qed.

(** C36. Reading a damaged source is bounded, complete and accounted for: under a policy the
    constructor accepts, every in-range read returns, after at most [max_attempts] (at most
    16) calls of the reader and fewer pauses of at most a minute, either exactly the requested
    bytes as the reader gave them or a zero-filled block of that length with its gap recorded;
    and after any history the counters add up: attempts are successes, retries and failures,
    failures are the recorded gaps, skipped bytes are their total length. *)
Theorem read_or_gap_accounted p raw temp s o n :
  valid_policy p = true -> reachable (reader_step p raw temp) initial_reader s ->
  0 <= o -> 0 <= n <= MAX_READ_LENGTH_BYTES ->
  accounted s /\ exists out s', read_or_gap p raw temp o n s = Ok (out, s') /\
    accounted s' /\ zlen (o_data out) = n /\
    Z.of_nat (calls s') - Z.of_nat (calls s) <= max_attempts p <= 16 /\
    (exists more, sleeps s' = (sleeps s ++ more)%list /\ zlen more < max_attempts p /\
       Forall (fun ms => ms <= MAX_BACKOFF_MS) more) /\
    match o_gap out with
    | None => error_ranges s' = error_ranges s /\ exists i, raw i o n = RData (o_data out)
    | Some g => error_ranges s' = (error_ranges s ++ [g])%list /\ re_offset g = o /\ re_length g = n /\
        o_data out = replicate (Z.to_nat n) 0
    end.
Proof.
  intros Hp Hr Ho Hn.
  assert (accounted s) as Hacc.
  { eapply (reachable_invariant _ accounted); [| |exact Hr].
    - unfold accounted, zlen. simpl. repeat split; try done; lia.
    - intros a b Ha [o' n' out b' Hs]. by apply (read_or_gap_spec p raw temp) in Hs as [? _]. }
  split; [done|].
  assert (exists out s', read_or_gap p raw temp o n s = Ok (out, s')) as (out & s' & H).
  { unfold read_or_gap. rewrite (proj2 (validate_range_ok o n tt)) by done. simpl.
    destruct (attempts_loop _ _ _ _ _ _ _ s) as [[d|code] s1].
    - destruct (warnings _ _ _) as [ws s2]. destruct (pause_reason _ _ _) as [r s3]. by eexists _, _.
    - destruct (pause_reason _ _ _) as [r s2]. destruct (warnings _ _ _) as [ws s3]. by eexists _, _. }
  exists out, s'. split; [done|].
  apply (read_or_gap_spec p raw temp) in H as (R1 & R2 & R3 & R4 & R5 & R6); [|done..].
  apply valid_policy_attempts in Hp.
  split; [done|]. split; [done|]. split; [lia|]. split; [done|].
  destruct (o_gap out); [|done]. destruct R6 as (? & ? & ? & _ & _ & ?). done.
Qed.

Definition demo_policy : ReadPolicy :=
  {| max_attempts := 3; base_backoff_ms := 10; max_error_ranges := 128; pause_after_errors := 16;
     pause_temperature_celsius := None |}.

(** A reader that times out twice, then answers. *)
Definition demo_raw (i : nat) (o n : Z) : raw_read :=
  match i with O | 1%nat => RTimeout | _ => RData (replicate (Z.to_nat n) 7) end.

Lemma read_or_gap_accounted_witness :
  exists out s', read_or_gap demo_policy demo_raw (fun _ => None) 0 4 initial_reader = Ok (out, s') /\
    zlen (o_data out) = 4 /\ timeouts (counters s') = 2 /\ sleeps s' = [10; 20].
Proof.
  destruct (read_or_gap_accounted demo_policy demo_raw (fun _ => None) initial_reader 0 4
    ltac:(by vm_compute) (reach_refl _ _) ltac:(lia) ltac:(unfold MAX_READ_LENGTH_BYTES; lia)) as (_ & out & s' & H & _ & Hl & _).
  exists out, s'. split; [exact H|]. split; [exact Hl|].
  assert (match read_or_gap demo_policy demo_raw (fun _ => None) 0 4 initial_reader with
    | Ok (_, s') => (timeouts (counters s'), sleeps s') | Err _ => (0, []) end = (2, [10; 20])) as Hd
    by (by vm_compute).
  rewrite H in Hd. injection Hd as H1 H2. exact (conj H1 H2).
Defined.
