(* ===== verification/Messages.v ===== *)
(** * The scanner's line protocol (src/scanner/messages.py)

    [encode_message] and [decode_line] are the two ends of the protocol between the
    scanner and the control plane, [validate_decoded_object] the check both apply,
    [decode_stream] the de-duplicating reader.  A message is a value of [Json], its line
    a list of bytes.  Python's recursion limit and its limit on digits of an integer are
    not modelled; strings have the code points below 256. *)

From Stdlib Require Import ZArith Lia String Ascii.
From stdpp Require Import base list strings gmap sorting.
From S2P Require Import Prelude PyStr Json.

Local Open Scope string_scope.
Local Open Scope Z_scope.

(** ** Bytes and text *)

(** [bytes.decode("utf-8")] for code points below 256. *)
Fixpoint utf8_decode (b : bytes) : option (list ascii) :=
  match b with
  | [] => Some []
  | x :: r =>
    if x <? 128 then cons (chr x) <$> utf8_decode r
    else match r with
         | y :: r' =>
           if ((x =? 194) || (x =? 195)) && (128 <=? y) && (y <? 192)
           then cons (chr ((x - 192) * 64 + (y - 128))) <$> utf8_decode r' else None
         | [] => None
         end
  end.

(** [repr] of a string and [str] of a JSON value, used by the replay key. *)
Definition repr_char (quote c : ascii) : list ascii :=
  if Ascii.eqb c backslash || Ascii.eqb c quote then [backslash; c]
  else if ord c =? 10 then [backslash; "n"%char]
  else if ord c =? 13 then [backslash; "r"%char]
  else if ord c =? 9 then [backslash; "t"%char]
  else if (ord c <? 32) || ((127 <=? ord c) && (ord c <? 161)) || (ord c =? 173)
  then [backslash; "x"%char; hex_digit (ord c / 16); hex_digit (ord c mod 16)]
  else [c].

Definition repr_string (s : string) : string :=
  let quote := if char_in "'"%char s && negb (char_in quote_char s) then quote_char else "'"%char in
  of_chars (quote :: concat (repr_char quote <$> chars s) ++ [quote]).

Fixpoint py_repr (v : value) : string :=
  match v with
  | VNone => "None"
  | VBool b => if b then "True" else "False"
  | VInt z => str_of_Z z
  | VStr s => repr_string s
  | VBytes b => "b" +:+ repr_string (of_chars (chr <$> b))
  | VList l => "[" +:+ join ", " (map py_repr l) +:+ "]"
  | VDict d => "{" +:+ join ", " (map (fun '(k, x) => repr_string k +:+ ": " +:+ py_repr x) d) +:+ "}"
  end.

Definition py_str (v : value) : string := match v with VStr s => s | v => py_repr v end.

(** [bool(v)]. *)
Definition truthy (v : value) : bool :=
  match v with
  | VNone => false | VBool b => b | VInt z => negb (z =? 0)
  | VStr s => negb (String.eqb s "") | VBytes b => negb (zlen b =? 0)
  | VList l => negb (zlen l =? 0) | VDict d => negb (zlen d =? 0)
  end.

(** [int(v)] of a JSON value, [None] for the [TypeError] and [ValueError]: text may have spaces
    around it, a sign, and single underscores between digits. *)
Fixpoint drop_underscores (after_digit : bool) (l : list ascii) : option (list ascii) :=
  match l with
  | [] => if after_digit then Some [] else None
  | c :: l =>
    if is_digit c then cons c <$> drop_underscores true l
    else if Ascii.eqb c "_"%char && after_digit then drop_underscores false l else None
  end.

Definition int_of_text (s : string) : option Z :=
  let digits l := drop_underscores false l ≫= fun ds => Z_of_digits (of_chars ds) in
  match chars (strip s) with
  | c :: l => if Ascii.eqb c "-"%char then Z.opp <$> digits l
              else if Ascii.eqb c "+"%char then digits l else digits (c :: l)
  | [] => None
  end.

Definition py_int (v : value) : option Z :=
  match v with
  | VInt z => Some z
  | VBool b => Some (if b then 1 else 0)
  | VStr s => int_of_text s
  | VBytes b => int_of_text (of_chars (chr <$> b))
  | _ => None
  end.

Example py_int_ex : (py_int (VStr " -1_000 "), py_int (VStr "1__0"), py_int (VStr "")) = (Some (-1000), None, None).
Proof. reflexivity. Qed.

(** ** Data *)

Definition PROTOCOL_VERSION : Z := 1.
Definition MAX_LINE_BYTES : Z := 16384.
Definition MAX_FIELD_CHARS : Z := 4096.
Definition MAX_BATCH_FINDINGS : Z := 256.

(** scanner/messages.py:31-42 REQUIRED_FIELDS; its keys are the set of message types. *)
Definition REQUIRED_FIELDS : list (string * list string) :=
  [("hello", ["worker_id"; "scanner_version"]);
   ("capabilities", ["capabilities"]);
   ("stage_start", ["stage"; "idempotency_key"]);
   ("finding_batch", ["stage"; "batch_id"; "findings"]);
   ("progress", ["stage"; "completed"; "total"]);
   ("checkpoint", ["stage"; "checkpoint_id"]);
   ("warning", ["stage"; "code"; "message"]);
   ("error", ["stage"; "code"; "message"; "retryable"]);
   ("pause_ack", ["stage"; "reason"]);
   ("complete", ["stage"; "status"])].

(** scanner/messages.py:16-29 MESSAGE_TYPES. *)
Definition MESSAGE_TYPES : list string :=
  ["hello"; "capabilities"; "stage_start"; "finding_batch"; "progress"; "checkpoint";
   "warning"; "error"; "pause_ack"; "complete"].

(** scanner/messages.py:45-46 ScannerMessageError, next to the [TypeError] Python raises when an
    unhashable value is looked up in a set. *)
Inductive message_error :=
  | ScannerMessageError (m : string)
  | MessageTypeError.

#[global] Instance message_error_eq_dec : EqDecision message_error.
Proof. solve_decision. Defined.

(** scanner/messages.py:49-53 ScannerMessage. *)
Record ScannerMessage := {
  message_type : string;
  sm_sequence : Z;
  sm_payload : list (string * value);
}.

(** [d.get(k)]. *)
Definition get_or_none (d : list (string * value)) (k : string) : value :=
  default VNone (dict_get d k).

(** scanner/messages.py:55-60 replay_key. *)
Definition replay_key (m : ScannerMessage) : string * Z * option string :=
  let stage := get_or_none (sm_payload m) "stage" in
  let ikey := get_or_none (sm_payload m) "idempotency_key" in
  let idempotency_key := if truthy ikey then ikey else get_or_none (sm_payload m) "batch_id" in
  let scoped := match idempotency_key with VNone => None | v => Some (py_str v) end in
  let stage_key := if truthy stage then Some (py_str stage) else None in
  (message_type m, sm_sequence m,
   match scoped with Some "" | None => stage_key | Some s => Some s end).

(** ** Validation *)

Definition unsafe_char (c : ascii) : bool := (ord c =? 0) || (ord c =? 10) || (ord c =? 13).

Definition validate_text (s : string) : result message_error unit :=
  if MAX_FIELD_CHARS <? str_len s
  then Err (ScannerMessageError "scanner message field exceeds maximum size")
  else if existsb unsafe_char (chars s)
  then Err (ScannerMessageError "scanner message field contains unsafe control characters")
  else Ok tt.

(** scanner/messages.py:157-178 _validate_value. *)
Fixpoint validate_value (v : value) : result message_error unit :=
  match v with
  | VStr s => validate_text s
  | VDict d =>
    (fix go (d : list (string * value)) := match d with
      | [] => Ok tt
      | (key, child) :: d =>
        match validate_text key with
        | Err e => Err e
        | Ok _ => match validate_value child with Err e => Err e | Ok _ => go d end
        end
      end) d
  | VList l =>
    (fix go (l : list value) := match l with
      | [] => Ok tt
      | child :: l => match validate_value child with Err e => Err e | Ok _ => go l end
      end) l
  | VNone | VBool _ | VInt _ => Ok tt
  | VBytes _ => Err (ScannerMessageError "scanner message field has unsupported type")
  end.

(** [message.get("protocol_version") != PROTOCOL_VERSION]: [True == 1] in Python. *)
Definition is_version (v : value) : bool :=
  match v with VInt z => z =? PROTOCOL_VERSION | VBool b => b | _ => false end.

(** [REQUIRED_FIELDS\[message_type\] - payload.keys()] is not empty. *)
Definition missing_fields (mtype : string) (payload : list (string * value)) : bool :=
  existsb (fun f => bool_decide (f ∉ payload.*1)) (default [] (dict_get REQUIRED_FIELDS mtype)).

(** scanner/messages.py:135-154 _validate_decoded_object. *)
Definition validate_decoded_object (message : list (string * value)) : result message_error unit :=
  _ ← raise_if (negb (is_version (get_or_none message "protocol_version")))
        (ScannerMessageError "unsupported scanner protocol version");
  mtype ← match get_or_none message "type" with
          | VStr t => if decide (t ∈ MESSAGE_TYPES) then Ok t
                      else Err (ScannerMessageError "unknown scanner message type")
          | VList _ | VDict _ => Err MessageTypeError
          | _ => Err (ScannerMessageError "unknown scanner message type")
          end;
  _ ← match get_or_none message "sequence" with
      | VInt z => raise_if (z <? 0)
          (ScannerMessageError "scanner message sequence must be a non-negative integer")
      | _ => Err (ScannerMessageError "scanner message sequence must be a non-negative integer")
      end;
  payload ← match get_or_none message "payload" with
            | VDict d => Ok d
            | _ => Err (ScannerMessageError "scanner message payload must be an object")
            end;
  _ ← raise_if (missing_fields mtype payload)
        (ScannerMessageError "scanner message is missing required fields");
  _ ← validate_value (VDict payload);
  if String.eqb mtype "finding_batch" then
    match get_or_none payload "findings" with
    | VList l => raise_if (MAX_BATCH_FINDINGS <? zlen l)
        (ScannerMessageError "finding batch size is invalid")
    | _ => Err (ScannerMessageError "finding batch size is invalid")
    end
  else Ok tt.

(** ** Encoding and decoding *)

(** The object [encode_message] builds. *)
Definition message_object (mtype sequence : value) (payload : list (string * value))
    : list (string * value) :=
  [("protocol_version", VInt PROTOCOL_VERSION); ("type", mtype);
                  ("sequence", sequence); ("payload", VDict payload)].

(** scanner/messages.py:63-86 encode_message. *)
Definition encode_message (mtype sequence : value) (payload : list (string * value))
    : result message_error bytes :=
  let message := message_object mtype sequence payload in
  _ ← validate_decoded_object message;
  encoded ← match dumps (VDict message) with
            | Some s => Ok (utf8 s ++ [10])%list
            | None => Err MessageTypeError
            end;
  _ ← raise_if (MAX_LINE_BYTES <? zlen encoded)
        (ScannerMessageError "message exceeds maximum line size");
  Ok encoded.

Definition ends_with_newline (line : bytes) : bool :=
  match last line with Some x => x =? 10 | None => false end.

(** scanner/messages.py:89-118 decode_line. *)
Definition decode_line (line : bytes) : result message_error ScannerMessage :=
  _ ← raise_if (negb (ends_with_newline line)) (ScannerMessageError "truncated scanner message");
  _ ← raise_if (MAX_LINE_BYTES <? zlen line)
        (ScannerMessageError "scanner message exceeds maximum line size");
  text ← match utf8_decode line with
         | Some t => Ok t
         | None => Err (ScannerMessageError "scanner message is not valid UTF-8")
         end;
  decoded ← match loads_chars text with
            | Some v => Ok v
            | None => Err (ScannerMessageError "scanner message is not valid JSON")
            end;
  message ← match decoded with
            | VDict d => Ok d
            | _ => Err (ScannerMessageError "scanner message must be a JSON object")
            end;
  _ ← validate_decoded_object message;
  Ok {| message_type := py_str (get_or_none message "type");
        sm_sequence := match get_or_none message "sequence" with VInt z => z | _ => 0 end;
        sm_payload := match get_or_none message "payload" with VDict d => d | _ => [] end |}.

(** scanner/messages.py:121-132 decode_stream. *)
Fixpoint decode_from (seen : list (string * Z * option string)) (lines : list bytes)
    : result message_error (list ScannerMessage) :=
  match lines with
  | [] => Ok []
  | line :: lines =>
    message ← decode_line line;
    if decide (replay_key message ∈ seen) then decode_from seen lines
    else messages ← decode_from (replay_key message :: seen) lines; Ok (message :: messages)
  end.
Definition decode_stream (lines : list bytes) : result message_error (list ScannerMessage) :=
  decode_from [] lines.

(** ** Lemmas *)

Lemma validate_list l :
  validate_value (VList l) = Ok tt <-> Forall (fun v => validate_value v = Ok tt) l.
Proof.
  simpl. induction l as [|v l IH]; [by split|].
  rewrite Forall_cons, <- IH. destruct (validate_value v) as [[]|]; naive_solver.
Qed.

Lemma validate_dict d :
  validate_value (VDict d) = Ok tt
  <-> Forall (fun kv => validate_text kv.1 = Ok tt /\ validate_value kv.2 = Ok tt) d.
Proof.
  simpl. induction d as [|[k v] d IH]; [by split|]. simpl.
  rewrite Forall_cons, <- IH. simpl.
  destruct (validate_text k) as [[]|], (validate_value v) as [[]|]; naive_solver.
Qed.

Lemma canon_dict d : canon (VDict d) = VDict (sort_keys (prod_map id canon <$> d)).
Proof. simpl. f_equal. f_equal. apply map_ext. by intros []. Qed.

Lemma validate_canon v : validate_value v = Ok tt -> validate_value (canon v) = Ok tt.
Proof.
  induction v as [|b|z|s|b|l IH|d IH] using value_ind'; try done.
  - rewrite validate_list. change (canon (VList l)) with (VList (canon <$> l)).
    rewrite validate_list, Forall_fmap, !Forall_forall in *. intros Hl x Hx. apply IH; auto.
  - rewrite validate_dict, canon_dict, validate_dict, sort_keys_perm, Forall_fmap, !Forall_forall in *.
    intros Hd [k x] Hx. simpl. destruct (Hd _ Hx). split; [done|]. by apply (IH (k, x)).
Qed.

Lemma dict_get_elem {A} (d : list (string * A)) k v :
  NoDup d.*1 -> dict_get d k = Some v <-> (k, v) ∈ d.
Proof.
  induction d as [|[k' v'] d IH]; simpl.
  - rewrite elem_of_nil. done.
  - intros [Hk Hnd]%NoDup_cons. rewrite elem_of_cons, <- IH by done.
    destruct (String.eqb_spec k k') as [->|Hne]; [|naive_solver].
    split; [naive_solver|]. intros [|Hd]; [naive_solver|].
    apply dict_get_None in Hk. congruence.
Qed.

Lemma dict_get_perm {A} (d e : list (string * A)) k :
  NoDup d.*1 -> d ≡ₚ e -> dict_get d k = dict_get e k.
Proof.
  intros Hnd Hp. apply option_eq. intros v.
  rewrite !dict_get_elem by (by rewrite <- ?Hp). by rewrite Hp.
Qed.

Lemma dict_get_fmap {A B} (f : A -> B) (d : list (string * A)) k :
  dict_get (prod_map id f <$> d) k = f <$> dict_get d k.
Proof. induction d as [|[k' v] d IH]; simpl; [done|]. by destruct (String.eqb k k'). Qed.

Lemma keys_fmap {A B} (f : A -> B) (d : list (string * A)) : (prod_map id f <$> d).*1 = d.*1.
Proof. rewrite <- list_fmap_compose. by apply list_fmap_ext. Qed.

Lemma wf_canon v : wf_value v -> wf_value (canon v).
Proof.
  induction v as [|b|z|s|b|l IH|d IH] using value_ind'; try done.
  - rewrite wf_list_Forall. change (canon (VList l)) with (VList (canon <$> l)).
    rewrite wf_list_Forall, Forall_fmap, !Forall_forall in *. intros Hl x Hx. apply IH; auto.
  - rewrite wf_dict_Forall, canon_dict, wf_dict_Forall, sort_keys_perm, keys_fmap. intros [Hnd Hwf].
    split; [done|]. rewrite Forall_fmap, !Forall_forall in *. intros [k x] Hx. apply (IH _ Hx), (Hwf _ Hx).
Qed.

Lemma canon_canon v : wf_value v -> canon (canon v) = canon v.
Proof.
  induction v as [|b|z|s|b|l IH|d IH] using value_ind'; try done.
  - rewrite wf_list_Forall. change (canon (VList l)) with (VList (canon <$> l)).
    change (canon (VList (canon <$> l))) with (VList (canon <$> (canon <$> l))).
    intros Hl. f_equal. rewrite <- list_fmap_compose. apply list_fmap_ext.
    intros i x Hx%list_elem_of_lookup_2. rewrite Forall_forall in IH, Hl. simpl. auto.
  - intros [Hnd Hd]%wf_dict_Forall. rewrite canon_dict, canon_dict. f_equal.
    set (e := prod_map id canon <$> d). assert (NoDup e.*1) as He by (unfold e; by rewrite keys_fmap).
    rewrite sort_keys_fmap by (by rewrite sort_keys_perm). rewrite sort_keys_idem by done.
    rewrite <- sort_keys_fmap by done. f_equal. unfold e. rewrite <- list_fmap_compose. apply list_fmap_ext.
    intros i [k x] Hx%list_elem_of_lookup_2. rewrite Forall_forall in IH, Hd. simpl.
    unfold prod_map. simpl. f_equal. apply (IH _ Hx), (Hd _ Hx).
Qed.

Lemma dict_get_canon d k :
  NoDup d.*1 -> dict_get (sort_keys (prod_map id canon <$> d)) k = canon <$> dict_get d k.
Proof.
  intros Hnd. rewrite <- dict_get_fmap. apply dict_get_perm; [|apply sort_keys_perm].
  by rewrite sort_keys_perm, keys_fmap.
Qed.

Lemma get_or_none_canon d k :
  NoDup d.*1 -> get_or_none (sort_keys (prod_map id canon <$> d)) k = canon (get_or_none d k).
Proof. intros Hnd. unfold get_or_none. rewrite dict_get_canon by done. by destruct (dict_get d k). Qed.

Lemma missing_fields_sorted t d :
  missing_fields t (sort_keys (prod_map id canon <$> d)) = missing_fields t d.
Proof.
  unfold missing_fields. induction (default [] _) as [|f l IH]; [done|]. simpl. rewrite IH. f_equal.
  apply bool_decide_ext. by rewrite sort_keys_perm, keys_fmap.
Qed.

#[local] Arguments missing_fields : simpl never.
#[local] Arguments validate_value : simpl never.

Lemma in_payload_wf d p : wf_value (VDict d) -> get_or_none d "payload" = VDict p -> wf_value (VDict p).
Proof.
  intros [Hnd Hwf]%wf_dict_Forall Hp. unfold get_or_none in Hp.
  destruct (dict_get d "payload") as [v|] eqn:Hg; [|done].
  apply dict_get_elem in Hg; [|done]. rewrite Forall_forall in Hwf. simpl in Hp; subst v. apply (Hwf _ Hg).
Qed.

(** Sorting the keys of a valid message leaves it valid. *)
Lemma validate_sorted d :
  wf_value (VDict d) -> validate_decoded_object d = Ok tt ->
  validate_decoded_object (sort_keys (prod_map id canon <$> d)) = Ok tt.
Proof.
  intros [Hnd Hwf]%wf_dict_Forall. unfold validate_decoded_object.
  rewrite !get_or_none_canon by done. intros H. inv_ok. rewrite bind_ok. exists tt. split.
  { apply raise_if_ok. by destruct (get_or_none d "protocol_version"). }
  destruct (get_or_none d "type") as [| | |t| | |]; try discriminate. simpl. case_decide; [|discriminate].
  inv_ok. rewrite bind_ok. eexists. split; [reflexivity|]. rewrite bind_ok. exists tt. split.
  { destruct (get_or_none d "sequence"); try discriminate. simpl. by rewrite raise_if_ok in *. }
  destruct (get_or_none d "payload") as [| | | | | |p] eqn:Hp; try discriminate. inv_ok.
  match goal with H : get_or_none d "payload" = VDict ?q |- _ => rename q into p end.
  assert (wf_value (VDict p)) as Hpwf by (eapply in_payload_wf; [by apply wf_dict_Forall|done]).
  rewrite canon_dict. rewrite bind_ok. eexists. split; [reflexivity|].
  rewrite missing_fields_sorted,  bind_ok. exists tt. split.
  { by apply raise_if_ok. }
  rewrite <- canon_dict. rewrite bind_ok. exists tt.
  match goal with H : validate_value _ = Ok ?u |- _ => destruct u; split; [by apply validate_canon|] end.
  apply wf_dict_Forall in Hpwf as [Hpnd _]. rewrite get_or_none_canon by done.
  destruct (String.eqb _ _); [|done]. destruct (get_or_none p "findings"); try done. simpl.
  unfold zlen in *. by rewrite length_map.
Qed.

Lemma utf8_decode_printable l r :
  all_printable l -> utf8_decode (concat (utf8_char <$> l) ++ r) = app l <$> utf8_decode r.
Proof.
  induction 1 as [|c l Hc Hl IH]; simpl.
  - by destruct (utf8_decode r).
  - unfold printable in Hc. to_prop. pose proof (ord_bound c).
    assert (utf8_char c = [ord c]) as -> by (unfold utf8_char; by replace (ord c <? 128) with true by lia).
    change (utf8_decode (ord c :: (concat (utf8_char <$> l) ++ r)) = app (c :: l) <$> utf8_decode r).
    cbn [utf8_decode]. replace (ord c <? 128) with true by lia.
    rewrite IH, chr_ord. by destruct (utf8_decode r).
Qed.

(** Canonical text followed by a newline parses as the text does. *)
Lemma loads_chars_newline v c :
  wf_value v -> dump v = Some c -> loads_chars (c ++ ["010"%char]) = Some (canon v).
Proof.
  intros Hwf Hc. unfold loads_chars. destruct (dump_head _ _ Hc) as (h & t & -> & Hw & _).
  rewrite <- app_comm_cons, skip_ws_head by done. rewrite app_comm_cons.
  rewrite (parse_dump v Hwf _ _ ["010"%char] Hc); [done|rewrite length_app; simpl; lia|].
  simpl. set_solver.
Qed.

Lemma wf_message mtype seq payload :
  wf_value mtype -> wf_value seq -> wf_value (VDict payload) ->
  wf_value (VDict (message_object mtype seq payload)).
Proof.
  intros Ht Hs Hp. apply wf_dict_Forall. split.
  - apply (bool_decide_unpack _). by vm_compute.
  - repeat constructor; simpl; try done; apply Hp.
Qed.

#[local] Arguments dump : simpl never.
#[local] Arguments message_object : simpl never.

Lemma encode_ok mtype seq payload line :
  encode_message mtype seq payload = Ok line ->
  exists c, validate_decoded_object (message_object mtype seq payload) = Ok tt
    /\ dump (VDict (message_object mtype seq payload)) = Some c
    /\ line = (utf8 (of_chars c) ++ [10])%list /\ zlen line <= MAX_LINE_BYTES.
Proof.
  unfold encode_message, dumps. intros H. inv_ok.
  destruct (dump _) as [c|] eqn:Hd; [|discriminate]. simpl in *. inv_ok.
  match goal with H : validate_decoded_object _ = Ok ?u |- _ => destruct u end.
  exists c. to_prop. repeat split; auto.
Qed.

(** C37. A line [encode_message] returns is one bounded line of printable ASCII, and
    [decode_line] gives back its type and sequence number and its payload up to the order of
    keys: the two ends of the protocol agree on every message the encoder accepts. *)
Theorem message_roundtrip mtype seq payload line :
  wf_value (VDict payload) -> encode_message (VStr mtype) (VInt seq) payload = Ok line ->
  zlen line <= MAX_LINE_BYTES
  /\ (exists body, line = (body ++ [10])%list /\ Forall (fun b => 32 <= b <= 126) body)
  /\ exists p, canon (VDict payload) = VDict p
     /\ decode_line line = Ok {| message_type := mtype; sm_sequence := seq; sm_payload := p |}.
Proof.
  intros Hp He. destruct (encode_ok _ _ _ _ He) as (c & Hv & Hd & -> & Hlen).
  assert (all_printable c) as Hpr by (by eapply dump_printable).
  pose proof (wf_message (VStr mtype) (VInt seq) _ I I Hp) as Hwf.
  assert (utf8 (of_chars c) = ord <$> c) as Hu.
  { unfold utf8. rewrite chars_of_chars. clear -Hpr. induction Hpr as [|x l Hx Hl IH]; [done|].
    rewrite !fmap_cons. simpl concat. rewrite IH. unfold utf8_char, printable in *. to_prop.
    by replace (ord x <? 128) with true by lia. }
  split; [done|]. split.
  { exists (ord <$> c). rewrite Hu. split; [done|]. rewrite Forall_fmap.
    eapply Forall_impl; [exact Hpr|]. intros x Hx. unfold printable in Hx. to_prop. simpl. lia. }
  eexists. split; [apply canon_dict|].
  unfold decode_line. rewrite bind_ok. exists tt. split.
  { apply raise_if_ok. unfold ends_with_newline. by rewrite last_snoc. }
  rewrite bind_ok. exists tt. split; [apply raise_if_ok; lia|].
  rewrite bind_ok. exists (c ++ ["010"%char])%list. split.
  { unfold utf8. rewrite chars_of_chars, utf8_decode_printable by done. reflexivity. }
  rewrite (loads_chars_newline _ _ Hwf Hd), canon_dict. rewrite bind_ok. eexists. split; [reflexivity|].
  rewrite bind_ok. eexists. split; [reflexivity|]. rewrite bind_ok. exists tt. split.
  { by apply validate_sorted. }
  apply wf_dict_Forall in Hwf as [Hnd _]. rewrite !get_or_none_canon by exact Hnd.
  change (get_or_none _ "payload") with (VDict payload). by rewrite canon_dict.
Qed.

Lemma decode_from_spec seen lines out :
  decode_from seen lines = Ok out ->
  exists all, mapM_result decode_line lines = Ok all
    /\ sublist out all /\ NoDup (replay_key <$> out)
    /\ (forall m, m ∈ out -> replay_key m ∉ seen)
    /\ (forall m, m ∈ all -> replay_key m ∈ seen \/ replay_key m ∈ replay_key <$> out).
Proof.
  revert seen out; induction lines as [|line lines IH]; intros seen out H; simpl in H; inv_ok.
  { exists []. split; [done|]. split; [done|]. split; [constructor|]. set_solver. }
  rename x into m. match goal with H : decode_line line = _ |- _ => rename H into Hm end.
  simpl. rewrite Hm. simpl. case_decide as Hs.
  - apply IH in H as (all & -> & Hsub & Hnd & Hnew & Hall). exists (m :: all).
    split; [done|]. split; [by constructor|]. split; [done|]. split; [done|].
    intros m' [->|Hm']%elem_of_cons; [by left|auto].
  - inv_ok. match goal with H : decode_from _ _ = _ |- _ => apply IH in H as (all & -> & Hsub & Hnd & Hnew & Hall) end.
    exists (m :: all). split; [done|]. split; [by constructor|]. split.
    { rewrite fmap_cons. constructor; [|done]. rewrite list_elem_of_fmap. intros (m' & He & Hm').
      apply (Hnew _ Hm'). rewrite He. left. }
    split.
    { intros m' [->|Hm']%elem_of_cons; [done|]. intros Hin. apply (Hnew _ Hm'). by right. }
    rewrite fmap_cons. intros m' [->|Hm']%elem_of_cons; [right; left|].
    destruct (Hall _ Hm') as [[->|?]%elem_of_cons|?]; [right; left|by left|right; by right].
Qed.

Lemma decode_from_seen seen lines all :
  mapM_result decode_line lines = Ok all -> (forall m, m ∈ all -> replay_key m ∈ seen) ->
  decode_from seen lines = Ok [].
Proof.
  revert all; induction lines as [|line lines IH]; intros all H Hs; simpl in *; [done|]. inv_ok.
  match goal with H : decode_line line = _ |- _ => rewrite H end. simpl.
  rewrite decide_True by (apply Hs; left). eapply IH; [done|]. intros m Hm. apply Hs. by right.
Qed.

Lemma decode_from_app seen lines more out :
  decode_from seen lines = Ok out ->
  decode_from seen (lines ++ more)
  = (rest ← decode_from (rev (replay_key <$> out) ++ seen) more; Ok (out ++ rest)%list).
Proof.
  revert seen out; induction lines as [|line lines IH]; intros seen out H; simpl in H; inv_ok.
  { simpl. by destruct (decode_from seen more). }
  simpl. match goal with H : decode_line line = _ |- _ => rewrite H end. simpl.
  case_decide; [by apply IH|]. inv_ok.
  match goal with H : decode_from _ _ = _ |- _ => rewrite (IH _ _ H) end. simpl.
  rewrite <- app_assoc. simpl. by destruct (decode_from _ more).
Qed.

Lemma mapM_elem {E A B} (f : A -> result E B) l k :
  mapM_result f l = Ok k -> (forall y, y ∈ k -> exists x, x ∈ l /\ f x = Ok y) /\
  (forall x, x ∈ l -> exists y, y ∈ k /\ f x = Ok y).
Proof.
  revert k; induction l as [|x l IH]; intros k H; simpl in H; inv_ok; [set_solver|].
  match goal with H : mapM_result f l = _ |- _ => apply IH in H as [H1 H2] end. split.
  - intros y [->|Hy]%elem_of_cons; [set_solver|]. destruct (H1 _ Hy) as (z & ? & ?). set_solver.
  - intros y [->|Hy]%elem_of_cons; [set_solver|]. destruct (H2 _ Hy) as (z & ? & ?). set_solver.
Qed.

(** Reading a stream yields each message once: the result is a subsequence of the decoded
    lines with distinct replay keys in which every decoded message's key appears, and lines of
    the stream sent again, in any order and number, change nothing. *)
Theorem decode_stream_replay lines out :
  decode_stream lines = Ok out ->
  (exists all, mapM_result decode_line lines = Ok all /\ sublist out all
    /\ forall m, m ∈ all -> replay_key m ∈ replay_key <$> out)
  /\ NoDup (replay_key <$> out)
  /\ forall again, Forall (fun l => l ∈ lines) again -> decode_stream (lines ++ again) = Ok out.
Proof.
  intros H. destruct (decode_from_spec _ _ _ H) as (all & Hall & Hsub & Hnd & _ & Hkeys).
  assert (forall m, m ∈ all -> replay_key m ∈ replay_key <$> out) as Hk.
  { intros m Hm. destruct (Hkeys _ Hm) as [[]%elem_of_nil|]; done. }
  split; [by exists all|]. split; [done|]. intros again Ha.
  unfold decode_stream. rewrite (decode_from_app _ _ _ _ H).
  assert (exists more, mapM_result decode_line again = Ok more /\ forall m, m ∈ more -> m ∈ all)
    as (more & Hmore & Hin).
  { clear H. pose proof (mapM_elem _ _ _ Hall) as [_ He].
    induction Ha as [|l again Hl _ (more & Hm & Hin)]; [exists []; split; [done|by intros m ?%elem_of_nil]|].
    destruct (He _ Hl) as (m & Hml & Hd). exists (m :: more). simpl. rewrite Hd. simpl. rewrite Hm.
    split; [done|]. intros m' [->|?]%elem_of_cons; auto. }
  rewrite (decode_from_seen _ _ _ Hmore); [simpl; by rewrite app_nil_r|].
  intros m Hm. rewrite elem_of_app, list_elem_of_In, <- in_rev, <- list_elem_of_In. left. by apply Hk, Hin.
Qed.

(** ** Witnesses *)

Definition demo_payload : list (string * value) :=
  [("stage", VStr "filesystem"); ("batch_id", VStr "b-1"); ("findings", VList [VDict [("size", VInt 10); ("name", VStr "a")]])].
Definition demo_line : bytes := ok_or (encode_message (VStr "finding_batch") (VInt 3) demo_payload) [].

Lemma message_roundtrip_witness :
  exists p, decode_line demo_line = Ok {| message_type := "finding_batch"; sm_sequence := 3; sm_payload := p |}.
Proof.
  assert (encode_message (VStr "finding_batch") (VInt 3) demo_payload = Ok demo_line) as H by (by vm_compute).
  assert (wf_value (VDict demo_payload)) as Hw.
  { split; [|simpl; split_and!; try done; apply (bool_decide_unpack _); by vm_compute].
    apply (bool_decide_unpack _); by vm_compute. }
  destruct (message_roundtrip _ _ _ _ Hw H) as (_ & _ & p & _ & Hd). by exists p.
Defined.

Lemma decode_stream_replay_witness :
  decode_stream ([demo_line; demo_line] ++ [demo_line]) = decode_stream [demo_line].
Proof.
  destruct (decode_stream [demo_line; demo_line]) as [out|e] eqn:H; [|by vm_compute in H].
  destruct (decode_stream_replay _ _ H) as (_ & _ & Hr).
  rewrite Hr by (repeat constructor). rewrite <- H. by vm_compute.
Defined.

(** A line whose type is a list leaves [decode_line] with a [TypeError]. *)
Example unhashable_type_escapes :
  decode_line (utf8 (sq "{'protocol_version':1,'type':[]}") ++ [10]) = Err MessageTypeError.
Proof. by vm_compute. Qed.
