(* ===== verification/JsonLines.v ===== *)
(** * JSON texts line by line

    What the files that keep one JSON object per line, or one object per file, share: the keys of
    an object that was read, objects without one of their keys, UTF-8 text that grows, and the
    lines of a text that ends in a line break. *)

From Stdlib Require Import ZArith Lia String Ascii.
From stdpp Require Import base list strings sorting.
From S2P Require Import Prelude PyStr Json Messages.

Local Open Scope Z_scope.

(** [frozenset(d) == keys]. *)
Definition same_keys (d : list (string * value)) (keys : list string) : bool :=
  forallb (fun k => bool_decide (k ∈ keys)) d.*1 && forallb (fun k => bool_decide (k ∈ d.*1)) keys.

Lemma same_keys_perm d e keys : d.*1 ≡ₚ e.*1 -> same_keys d keys = same_keys e keys.
Proof.
  intros Hp. unfold same_keys. f_equal; apply eq_iff_eq_true; rewrite !forallb_elem.
  - by setoid_rewrite Hp.
  - split; intros Hk k Hin; specialize (Hk k Hin); rewrite bool_decide_eq_true in *; by rewrite ?Hp in *.
Qed.

Lemma keys_canon d : (sort_keys (prod_map id canon <$> d)).*1 ≡ₚ d.*1.
Proof. by rewrite sort_keys_perm, keys_fmap. Qed.

Lemma same_keys_canon d keys : same_keys (sort_keys (prod_map id canon <$> d)) keys = same_keys d keys.
Proof. apply same_keys_perm, keys_canon. Qed.

(** ** Objects without a key *)

(** [d.pop(k, None)]. *)
Definition dict_remove {A} (d : list (string * A)) (k : string) : list (string * A) :=
  filter_b (fun kv => negb (String.eqb kv.1 k)) d.

Lemma NoDup_keys_remove {A} (d : list (string * A)) k : NoDup d.*1 -> NoDup (dict_remove d k).*1.
Proof.
  unfold dict_remove, filter_b. induction d as [|[x v] d IH]; csimpl; [done|]. intros [Hx Hd]%NoDup_cons.
  destruct (negb (String.eqb x k)); [|by apply IH]. csimpl. constructor; [|by apply IH].
  intros (y & -> & Hy)%list_elem_of_fmap. apply Hx. apply list_elem_of_fmap. exists y. split; [done|].
  by apply (elem_of_filter_b _ d y) in Hy as [? _].
Qed.

Lemma wf_remove d k : wf_value (VDict d) -> wf_value (VDict (dict_remove d k)).
Proof.
  rewrite !wf_dict_Forall. intros [Hn Hd]. split; [by apply NoDup_keys_remove|].
  rewrite Forall_forall in *. intros kv Hkv. apply Hd. by apply elem_of_filter_b in Hkv as [? _].
Qed.

Lemma Permutation_filter_b {A} (p : A -> bool) l k : l ≡ₚ k -> filter_b p l ≡ₚ filter_b p k.
Proof.
  unfold filter_b. induction 1 as [|x l k H IH|x y l|l k m H1 IH1 H2 IH2]; simpl; [done| | |by etransitivity].
  - destruct (p x); by rewrite IH.
  - destruct (p x), (p y); try done. apply Permutation_swap.
Qed.

Lemma sort_keys_remove {A} (d : list (string * A)) k :
  NoDup d.*1 -> dict_remove (sort_keys d) k = sort_keys (dict_remove d k).
Proof.
  intros Hn. apply sorted_keys_unique.
  - apply NoDup_keys_remove. by rewrite sort_keys_perm.
  - apply StronglySorted_Sorted, StronglySorted_filter_b. apply Sorted_StronglySorted; [apply _|apply sort_keys_sorted].
  - apply sort_keys_sorted.
  - unfold dict_remove. rewrite (sort_keys_perm (filter_b _ d)). apply Permutation_filter_b, sort_keys_perm.
Qed.

(** Removing a key from an object that was read back, or before it was written, is the same. *)
Lemma dumps_remove_canon d k :
  wf_value (VDict d) ->
  dumps (VDict (dict_remove (sort_keys (prod_map id canon <$> d)) k)) = dumps (VDict (dict_remove d k)).
Proof.
  intros Hwf. pose proof Hwf as [Hn _]%wf_dict_Forall.
  rewrite sort_keys_remove by by rewrite keys_fmap.
  assert (dict_remove (prod_map id canon <$> d) k = prod_map id canon <$> dict_remove d k) as ->.
  { unfold dict_remove, filter_b. clear. induction d as [|[x v] d IH]; csimpl; [done|].
    destruct (negb (String.eqb x k)); csimpl; by rewrite IH. }
  rewrite <- canon_dict. by apply dumps_canon, wf_remove.
Qed.

(** ** What the parser returns is well formed *)

Lemma wf_get d k : wf_value (VDict d) -> wf_value (get_or_none d k).
Proof.
  intros [Hnd Hwf]%wf_dict_Forall. unfold get_or_none. destruct (dict_get d k) as [v|] eqn:E; [|done].
  apply dict_get_elem in E; [|done]. rewrite Forall_forall in Hwf. apply (Hwf _ E).
Qed.

Lemma wf_dict_set d k v : wf_value (VDict d) -> wf_value v -> wf_value (VDict (dict_set d k v)).
Proof.
  rewrite !wf_dict_Forall. intros [Hn Hd] Hv. split.
  - clear Hd Hv. induction d as [|[x w] d IH]; csimpl; [by apply NoDup_singleton|]. apply NoDup_cons in Hn as [Hx Hn].
    destruct (String.eqb_spec k x) as [->|Hne]; csimpl; constructor; auto.
    intros Hin. apply Hx. clear -Hin Hne. induction d as [|[y u] d IH]; csimpl in *.
    + apply list_elem_of_singleton in Hin. congruence.
    + destruct (String.eqb_spec k y) as [->|]; csimpl in *; rewrite elem_of_cons in *; naive_solver.
  - clear Hn. induction Hd as [|[x w] d Hw Hd IH]; csimpl; [by repeat constructor|].
    destruct (String.eqb k x); by constructor.
Qed.

Lemma parse_wf n :
  (forall l v r, parse_value n l = Some (v, r) -> wf_value v) /\
  (forall acc l v r, Forall wf_value acc -> parse_elems n acc l = Some (v, r) -> wf_value v) /\
  (forall acc l v r, wf_value (VDict acc) -> parse_members n acc l = Some (v, r) -> wf_value v).
Proof.
  induction n as [|n (IHv & IHe & IHm)]; [done|]. split_and!.
  - intros [|c r] v r'; [done|]. cbn [parse_value]. unfold parse_number, expect.
    repeat (case_match; try done); intros; simplify_eq; try done.
    + by eapply IHe.
    + by split; [constructor|].
    + eapply IHm; [|done]. by split; [constructor|].
  - intros acc l v r Hacc. cbn [parse_elems]. destruct (parse_value n l) as [[x k]|] eqn:E; [|done].
    apply IHv in E. destruct (skip_ws k) as [|c k']; [done|].
    destruct (Ascii.eqb c "]"%char); [intros [= <- <-]|].
    + apply wf_list_Forall, Forall_app. by repeat constructor.
    + destruct (Ascii.eqb c ","%char); [|done]. apply IHe, Forall_app. by repeat constructor.
  - intros acc [|q l] v r Hacc; [done|]. cbn [parse_members]. destruct (Ascii.eqb q quote_char); [|done].
    destruct (parse_string l) as [[k r1]|]; [|done]. destruct (skip_ws r1) as [|c r2]; [done|].
    destruct (Ascii.eqb c ":"%char); [|done]. destruct (parse_value n (skip_ws r2)) as [[x r3]|] eqn:E; [|done].
    apply IHv in E. destruct (skip_ws r3) as [|c' r4]; [done|].
    destruct (Ascii.eqb c' "}"%char); [intros [= <- <-]; by apply wf_dict_set|].
    destruct (Ascii.eqb c' ","%char); [|done]. by apply IHm, wf_dict_set.
Qed.

Lemma loads_wf l v : loads_chars l = Some v -> wf_value v.
Proof.
  unfold loads_chars. destruct (parse_value _ _) as [[x r]|] eqn:E; [|done].
  destruct (skip_ws r); [|done]. intros [= <-]. by eapply (proj1 (parse_wf _)).
Qed.

(** ** Text that grows *)

Lemma utf8_decode_app a b t : utf8_decode a = Some t -> utf8_decode (a ++ b) = app t <$> utf8_decode b.
Proof.
  revert t. induction a as [a IH] using (induction_ltof1 _ (@length Z)). unfold ltof in IH. intros t.
  destruct a as [|x a]; cbn [app utf8_decode].
  - intros [= <-]. by destruct (utf8_decode b).
  - destruct (x <? 128).
    + destruct (utf8_decode a) as [u|] eqn:E; [|done]. intros [= <-].
      rewrite (IH a) with (t := u); [|simpl; lia|done]. by destruct (utf8_decode b).
    + destruct a as [|y a]; [done|]. cbn [app]. destruct (_ && _); [|done].
      destruct (utf8_decode a) as [u|] eqn:E; [|done]. intros [= <-].
      rewrite (IH a) with (t := u); [|simpl; lia|done]. by destruct (utf8_decode b).
Qed.

Lemma utf8_decode_dumps v s : dumps v = Some s -> utf8_decode (utf8 s) = Some (chars s).
Proof.
  intros H. apply dumps_printable in H. pose proof (utf8_decode_printable (chars s) [] H) as Hd.
  unfold utf8. rewrite app_nil_r in Hd. rewrite Hd. simpl. by rewrite app_nil_r.
Qed.

(** Lines after a line feed do not depend on the text before it. *)
Lemma split_lines_feed cur t r :
  split_lines cur (t ++ chr 10 :: r) = (split_lines cur (t ++ [chr 10]) ++ split_lines [] r)%list.
Proof.
  revert cur. induction t as [t IH] using (induction_ltof1 _ (@length ascii)). unfold ltof in IH. intros cur.
  destruct t as [|c t].
  - cbn [app split_lines]. change (is_line_break (chr 10)) with true. cbn iota. by destruct r.
  - cbn [app split_lines]. destruct (is_line_break c); [|by rewrite IH by (simpl; lia)].
    destruct t as [|d t]; cbn [app].
    + change (ord (chr 10) =? 10) with true. rewrite andb_true_r. destruct (ord c =? 13); [done|].
      cbn [app split_lines]. change (is_line_break (chr 10)) with true. cbn iota. by destruct r.
    + destruct ((ord c =? 13) && (ord d =? 10)).
      * by rewrite IH by (simpl; lia).
      * change (d :: t ++ chr 10 :: r)%list with ((d :: t) ++ chr 10 :: r)%list.
        change (d :: t ++ [chr 10])%list with ((d :: t) ++ [chr 10])%list.
        by rewrite IH by (simpl; lia).
Qed.

(** A line without breaks. *)
Lemma split_lines_one cur l :
  Forall (fun c => is_line_break c = false) l -> split_lines cur (l ++ [chr 10]) = [(reverse cur ++ l)%list].
Proof.
  intros Hl. revert cur. induction Hl as [|c l Hc _ IH]; intros cur.
  - cbn [app split_lines]. change (is_line_break (chr 10)) with true. by rewrite app_nil_r.
  - cbn [app split_lines]. rewrite Hc, IH, reverse_cons, <- app_assoc. done.
Qed.

Lemma printable_no_break l : all_printable l -> Forall (fun c => is_line_break c = false) l.
Proof.
  intros Hl. eapply Forall_impl; [exact Hl|]. intros c. unfold printable, is_line_break. intros H.
  apply andb_true_iff in H as [H1%Z.leb_le H2%Z.leb_le].
  repeat (rewrite orb_false_iff; split); try apply andb_false_iff; rewrite ?Z.leb_gt; try apply Z.eqb_neq; lia.
Qed.
