(* ===== verification/Lifecycle.v ===== *)
(** * Pause, stop and restart of scanner stages (src/scanner/lifecycle.py)

    [cooperative_pause] snapshots a stage before it pauses, [safe_stop_process] stops the
    process that runs it, [restart_from_checkpoint] decides what runs afterwards from a
    checkpoint of [Checkpoints] and the plan of [Scheduler].  The process is an interface of
    two calls on a state of its own; the model also records the signals sent to it. *)

From Stdlib Require Import ZArith Lia String Ascii.
From stdpp Require Import base list strings gmap sorting.
From S2P Require Import Prelude PyStr Json Sha256 Sql Checkpoints Scheduler Messages.

Local Open Scope string_scope.
Local Open Scope Z_scope.

(** ** Data *)

(** scanner/lifecycle.py:15-15 ALLOWED_STOP_SIGNALS *)
Definition ALLOWED_STOP_SIGNALS : list string := ["TERM"; "KILL"].
(** scanner/lifecycle.py:16-16 MAX_STOP_TIMEOUT_SECONDS *)
Definition MAX_STOP_TIMEOUT_SECONDS : Z := 300.
(** scanner/lifecycle.py:17-17 FORCE_WAIT_SECONDS *)
Definition FORCE_WAIT_SECONDS : Z := 1.
(** scanner/lifecycle.py:18-18 MAX_CHECKPOINT_PAYLOAD_BYTES *)
Definition MAX_CHECKPOINT_PAYLOAD_BYTES : Z := 1024 * 1024.

(** scanner/lifecycle.py:21-26 LifecycleError: and the errors of the codec that pass through. *)
Inductive lifecycle_error :=
  | LifecycleError (code message : string)
  | LcMessageError (e : message_error)
  | LcCheckpointError (e : checkpoint_error).

(** scanner/lifecycle.py:332-340 _validate_reason *)
Definition validate_reason (reason : value) (required : bool) : result lifecycle_error unit :=
  match reason with
  | VStr r =>
    if (MAX_FIELD_CHARS <? str_len r) || existsb unsafe_char (chars r)
    then Err (LifecycleError "invalid_pause_reason" "pause reason is too long or contains controls")
    else if required && String.eqb (strip r) ""
    then Err (LifecycleError "invalid_pause_reason" "pause reason must not be empty")
    else Ok tt
  | _ => Err (LifecycleError "invalid_pause_reason" "pause reason must be text")
  end.

(** scanner/lifecycle.py:29-32 PauseRequest *)
Record PauseRequest := { requested : bool; pr_reason : string }.

(** scanner/lifecycle.py:34-37 __post_init__ of PauseRequest. *)
Definition make_pause_request (req reason : value) : result lifecycle_error PauseRequest :=
  match req with
  | VBool b =>
    _ ← validate_reason reason b;
    match reason with
    | VStr r => Ok {| requested := b; pr_reason := r |}
    | _ => Err (LifecycleError "invalid_pause_reason" "pause reason must be text")
    end
  | _ => Err (LifecycleError "invalid_pause_request" "pause request flag must be boolean")
  end.

(** scanner/lifecycle.py:40-45 PauseDecision *)
Record PauseDecision := {
  should_pause : bool;
  pd_reason : value;
  checkpoint_payload : value;
  checkpoint_persisted : bool;
}.

(** scanner/lifecycle.py:47-63 __post_init__ of PauseDecision. *)
Definition make_pause_decision (pause reason payload persisted : value)
    : result lifecycle_error PauseDecision :=
  match pause with
  | VBool p =>
    _ ← (if p then validate_reason reason true
         else match reason, payload with
              | VNone, VNone => Ok tt
              | _, _ => Err (LifecycleError "invalid_pause_decision" "non-pause decision contains pause data")
              end);
    _ ← match payload with
        | VNone | VDict _ => Ok tt
        | _ => Err (LifecycleError "invalid_pause_decision" "checkpoint payload must be an object")
        end;
    match persisted with
    | VBool s =>
      _ ← raise_if (s && (negb p || match payload with VNone => true | _ => false end))
            (LifecycleError "invalid_pause_decision" "persisted checkpoint requires a pause payload");
      Ok {| should_pause := p; pd_reason := reason; checkpoint_payload := payload;
            checkpoint_persisted := s |}
    | _ => Err (LifecycleError "invalid_pause_decision" "checkpoint persistence flag must be boolean")
    end
  | _ => Err (LifecycleError "invalid_pause_decision" "pause decision flag must be boolean")
  end.

(** [isinstance(stage, str) and stage in scheduler.STAGES]. *)
Definition known_stage (stage : value) : option string :=
  match stage with
  | VStr n => match stage_of_name n with Some _ => Some n | None => None end
  | _ => None
  end.

(** scanner/lifecycle.py:65-72 ack_message *)
Definition ack_message (d : PauseDecision) (stage sequence : value) : result lifecycle_error bytes :=
  if negb (should_pause d) || match pd_reason d with VNone => true | _ => false end
  then Err (LifecycleError "pause_not_requested" "pause acknowledgement requires a pause")
  else match known_stage stage with
       | None => Err (LifecycleError "unknown_stage" "pause acknowledgement has an unknown stage")
       | Some _ =>
         match encode_message (VStr "pause_ack") sequence [("stage", stage); ("reason", pd_reason d)] with
         | Ok line => Ok line
         | Err e => Err (LcMessageError e)
         end
       end.

(** scanner/lifecycle.py:75-79 StopPolicy *)
Record StopPolicy := { graceful_signal : string; force_signal : string; timeout_seconds : Z }.

(** scanner/lifecycle.py:81-93 __post_init__ of StopPolicy. *)
Definition make_stop_policy (graceful force timeout : value) : result lifecycle_error StopPolicy :=
  match graceful, force, timeout with
  | VStr g, VStr f, VInt t =>
    if negb (bool_decide (g ∈ ALLOWED_STOP_SIGNALS)) || negb (bool_decide (f ∈ ALLOWED_STOP_SIGNALS))
       || String.eqb g f || negb ((0 <? t) && (t <=? MAX_STOP_TIMEOUT_SECONDS))
    then Err (LifecycleError "invalid_stop_policy" "stop policy signals or timeout are out of bounds")
    else Ok {| graceful_signal := g; force_signal := f; timeout_seconds := t |}
  | _, _, _ => Err (LifecycleError "invalid_stop_policy" "stop policy signals or timeout are out of bounds")
  end.

(** scanner/lifecycle.py:96-102 StopResult *)
Record StopResult := SR {
  sr_status : string;
  signal_sent : string;
  force_signal_sent : option string;
  checkpoint_preserved : bool;
  sr_reason : string;
}.

(** scanner/lifecycle.py:105-110 RestartDecision *)
Record RestartDecision := RD {
  rd_status : string;
  rd_runnable : list stage;
  rd_reason : string;
  rd_cursor : option (list (string * value));
}.

(** ** Snapshots *)

(** scanner/lifecycle.py:301-329 _snapshot_mapping: [_materialize_json] is the identity on JSON values,
    whose keys are strings and whose arrays are lists. *)
Definition snapshot_mapping (v : value) (label : string) : result lifecycle_error (list (string * value)) :=
  match v with
  | VDict _ =>
    match dumps v with
    | None => Err (LifecycleError "invalid_checkpoint" (label +:+ " is not canonical JSON"))
    | Some encoded =>
      if MAX_CHECKPOINT_PAYLOAD_BYTES <? zlen (utf8 encoded)
      then Err (LifecycleError "checkpoint_too_large" (label +:+ " exceeds the bounded limit"))
      else match loads encoded with
           | Some (VDict d) => Ok d
           | Some _ => Err (LifecycleError "invalid_checkpoint" (label +:+ " must be an object"))
           | None => Err (LifecycleError "invalid_checkpoint" (label +:+ " is not canonical JSON"))
           end
    end
  | _ => Err (LifecycleError "invalid_checkpoint" (label +:+ " must be an object"))
  end.

(** How the callback that stores a checkpoint ends. *)
Inductive persist_outcome := PRaises | PReturnsFalse | PReturns.

(** scanner/lifecycle.py:119-157 cooperative_pause: with the payload handed to the callback, if any. *)
Definition cooperative_pause (stage cursor counters : value) (pause : PauseRequest)
    (persist_checkpoint : option (list (string * value) -> persist_outcome))
    : result lifecycle_error PauseDecision :=
  match known_stage stage with
  | None => Err (LifecycleError "unknown_stage" "pause requested for unknown stage")
  | Some _ =>
    if negb (requested pause) then make_pause_decision (VBool false) VNone VNone (VBool false)
    else
      payload ← snapshot_mapping (VDict [("stage", stage); ("cursor", cursor); ("counters", counters);
                                         ("reason", VStr (pr_reason pause))]) "pause checkpoint";
      _ ← match persist_checkpoint with
          | None => Ok tt
          | Some persist =>
            match persist payload with
            | PRaises => Err (LifecycleError "checkpoint_failed" "pause checkpoint could not be persisted")
            | PReturnsFalse => Err (LifecycleError "checkpoint_failed" "pause checkpoint was not persisted")
            | PReturns => Ok tt
            end
          end;
      make_pause_decision (VBool true) (VStr (pr_reason pause)) (VDict payload)
        (VBool match persist_checkpoint with Some _ => true | None => false end)
  end.

(** scanner/lifecycle.py:275-278 paused_statuses *)
Definition paused_statuses (st : statuses) : statuses := pause_all st.

(** ** Stopping a process *)

(** scanner/lifecycle.py:281-284 _WaitResult *)
Record wait_result := { exited : bool; timed_out : bool }.

Inductive send_outcome := Sent | SendLookupError | SendOSError.
Inductive wait_outcome := WaitTimeout | WaitOSError | WaitReturns (v : value).
Inductive process_event := Signal (name : string) | Wait (seconds : Z) (r : wait_outcome).

(** scanner/lifecycle.py:113-116 StageProcess: the two calls, each on the state of the process. *)
Class StageProcess (P : Type) := {
  send_signal : P -> string -> P * send_outcome;
  process_wait : P -> Z -> P * wait_outcome;
}.

Section Stop.
Context {P : Type} `{StageProcess P}.

(** scanner/lifecycle.py:287-298 _wait_for_exit *)
Definition wait_for_exit (p : P) (seconds : Z) : P * process_event * result lifecycle_error wait_result :=
  let (p, r) := process_wait p seconds in
  (p, Wait seconds r,
   match r with
   | WaitTimeout => Ok {| exited := false; timed_out := true |}
   | WaitOSError => Ok {| exited := false; timed_out := false |}
   | WaitReturns (VBool b) => Ok {| exited := b; timed_out := negb b |}
   | WaitReturns (VInt _) => Ok {| exited := true; timed_out := false |}
   | WaitReturns _ => Err (LifecycleError "invalid_process_status" "stage process returned an invalid wait status")
   end).

(** The part of [safe_stop_process] after the graceful stop timed out. *)
Definition force_stop (p : P) (policy : StopPolicy) : P * list process_event * result lifecycle_error StopResult :=
  let (p, sent) := send_signal p (force_signal policy) in
  match sent with
  | SendLookupError =>
    (p, [], Ok (SR "stopped" (graceful_signal policy) None true "process exited before force signal was needed"))
  | SendOSError =>
    (p, [], Ok (SR "force_failed" (graceful_signal policy) None true
                  "graceful stop timed out; force signal could not be sent"))
  | Sent =>
    let '(p, ev, w) := wait_for_exit p FORCE_WAIT_SECONDS in
    (p, [Signal (force_signal policy); ev],
     force_wait ← w;
     Ok (if exited force_wait
         then SR "force_stopped" (graceful_signal policy) (Some (force_signal policy)) true
                "graceful stop timed out; force signal sent after checkpoint preservation"
         else SR (if timed_out force_wait then "force_stop_timeout" else "force_failed")
                (graceful_signal policy) (Some (force_signal policy)) true
                "force signal sent but process exit could not be verified"))
  end.

(** scanner/lifecycle.py:160-241 safe_stop_process: with the signals delivered and the waits. *)
Definition safe_stop_process (p : P) (policy : StopPolicy) (preserved : value)
    : P * list process_event * result lifecycle_error StopResult :=
  match preserved with
  | VBool preserved =>
    let (p, sent) := send_signal p (graceful_signal policy) in
    match sent with
    | SendLookupError => (p, [], Ok (SR "already_stopped" "" None preserved "process already exited"))
    | SendOSError =>
      (p, [], Ok (SR "stop_failed" "" None preserved "graceful stop signal could not be sent"))
    | Sent =>
      let '(p, ev, w) := wait_for_exit p (timeout_seconds policy) in
      let trace := [Signal (graceful_signal policy); ev] in
      match w with
      | Err e => (p, trace, Err e)
      | Ok graceful_wait =>
        if exited graceful_wait
        then (p, trace, Ok (SR "stopped" (graceful_signal policy) None preserved "graceful stop completed"))
        else if negb (timed_out graceful_wait)
        then (p, trace, Ok (SR "stop_failed" (graceful_signal policy) None preserved
                              "graceful stop status could not be verified"))
        else if negb preserved
        then (p, trace, Ok (SR "force_blocked" (graceful_signal policy) None false
               "graceful stop timed out; force signal withheld until checkpoint preservation"))
        else let '(p, more, r) := force_stop p policy in (p, (trace ++ more)%list, r)
      end
    end
  | _ => (p, [], Err (LifecycleError "invalid_stop_request" "checkpoint preservation flag must be boolean"))
  end.
End Stop.

(** ** Restarting *)

(** scanner/lifecycle.py:381-388 _safe_reason *)
Definition safe_reason (reason fallback : string) : string :=
  if (MAX_FIELD_CHARS <? str_len reason) || existsb unsafe_char (chars reason) then fallback else reason.
Definition default_fallback : string := "checkpoint cannot be trusted; restart stage".

(** scanner/lifecycle.py:343-344 _valid_fingerprint *)
Definition valid_fingerprint (v : value) : bool := match v with VStr s => is_sha256_hex s | _ => false end.

(** scanner/lifecycle.py:372-378 _restart_plan *)
Definition lc_restart_plan (completed : list string) (c : SchedulerConfig) : result lifecycle_error StagePlan :=
  match restart_plan completed c with
  | Ok plan => Ok plan
  | Err (SchedulerError m) => Err (LifecycleError "invalid_restart_plan" m)
  | Err SchedulerTypeError => Err (LifecycleError "invalid_restart_plan" "")
  end.

(** What the loader returned: a record, or an object of another type. *)
Inductive loaded := LRecord (r : CheckpointRecord) | LOther.

(** scanner/lifecycle.py:347-369 _checkpoint_snapshot_error: the error or the cursor. *)
Definition checkpoint_snapshot_error (l : loaded) (current_fp : string)
    : result string (list (string * value)) :=
  match l with
  | LOther => Err "checkpoint record is malformed; restart stage"
  | LRecord r =>
    if negb (String.eqb (cr_fp r) current_fp) then Err "checkpoint source fingerprint mismatch; restart stage"
    else if negb (cr_version r =? SUPPORTED_CHECKPOINT_VERSION)
    then Err "unsupported checkpoint version; restart stage"
    else match stage_of_name (cr_stage r) with
    | None => Err "checkpoint stage is unknown; restart stage"
    | Some _ =>
      match (cursor ← snapshot_mapping (cr_cursor r) "checkpoint cursor";
             _ ← snapshot_mapping (cr_counters r) "checkpoint counters"; Ok cursor) with
      | Ok cursor => Ok cursor
      | Err (LifecycleError _ m) => Err (safe_reason m "checkpoint record is malformed; restart stage")
      | Err _ => Err "checkpoint record is malformed; restart stage"
      end
    end
  end.

(** scanner/lifecycle.py:244-272 restart_from_checkpoint *)
Definition restart_from_checkpoint (load_checkpoint : unit -> result checkpoint_error loaded)
    (completed : list string) (expected current : value) (c : SchedulerConfig)
    : result lifecycle_error RestartDecision :=
  if negb (valid_fingerprint expected) || negb (valid_fingerprint current)
  then Ok (RD "blocked" [] "source fingerprint is invalid" None)
  else if negb (bool_decide (py_str current = py_str expected))
  then Ok (RD "blocked" [] "source reconnect fingerprint mismatch" None)
  else match load_checkpoint tt with
  | Err (CheckpointError m restart) =>
    plan ← lc_restart_plan completed c;
    Ok (RD (if restart then "restart_stage" else "blocked")
          (if restart then runnable plan else []) (safe_reason m default_fallback) None)
  | Err e => Err (LcCheckpointError e)
  | Ok l =>
    match checkpoint_snapshot_error l (py_str current) with
    | Err reason =>
      plan ← lc_restart_plan completed c;
      Ok (RD "restart_stage" (runnable plan) reason None)
    | Ok cursor =>
      plan ← lc_restart_plan completed c;
      Ok (RD "resume" (runnable plan) "checkpoint validated" (Some cursor))
    end
  end.

(** ** Properties *)

Lemma make_stop_policy_ok g f t policy :
  make_stop_policy g f t = Ok policy ->
  graceful_signal policy ∈ ALLOWED_STOP_SIGNALS /\ force_signal policy ∈ ALLOWED_STOP_SIGNALS
  /\ graceful_signal policy <> force_signal policy /\ 0 < timeout_seconds policy <= MAX_STOP_TIMEOUT_SECONDS.
Proof.
  unfold make_stop_policy. destruct g as [| | |g| | |], f as [| | |f| | |], t as [| |t| | | |]; try done.
  destruct (_ || _) eqn:E; [done|]. intros [= <-]. simpl. to_prop. destruct E as [[[Hg Hf] Hne] Ht].
  apply bool_decide_eq_true in Hg, Hf. apply String.eqb_neq in Hne. to_prop. auto.
Qed.

(** The answers of [wait] that say the time ran out. *)
Definition says_timeout (r : wait_outcome) : Prop := r = WaitTimeout \/ r = WaitReturns (VBool false).
(** The answers that say the process is gone. *)
Definition says_exited (r : wait_outcome) : Prop := r = WaitReturns (VBool true) \/ exists z, r = WaitReturns (VInt z).

Lemma wait_for_exit_ok {P} `{StageProcess P} (p p' : P) s ev w :
  wait_for_exit p s = (p', ev, Ok w) ->
  exists r, ev = Wait s r /\ (exited w = true <-> says_exited r) /\ (timed_out w = true <-> says_timeout r).
Proof.
  unfold wait_for_exit, says_exited, says_timeout. destruct (process_wait p s) as [q r]. intros H0.
  exists r. destruct r as [| |[|[]|z| | | |]]; simplify_eq/=; split_and!; naive_solver.
Qed.

Lemma wait_for_exit_event {P} `{StageProcess P} (p p' : P) s ev w :
  wait_for_exit p s = (p', ev, w) -> exists r, ev = Wait s r.
Proof. unfold wait_for_exit. destruct (process_wait p s) as [q r]. intros [= <- <- <-]. eauto. Qed.

Lemma force_stop_trace {P} `{StageProcess P} (p p' : P) policy trace r :
  force_stop p policy = (p', trace, r) ->
  trace = [] \/ exists w, trace = [Signal (force_signal policy); Wait FORCE_WAIT_SECONDS w].
Proof.
  unfold force_stop. destruct (send_signal p _) as [q []]; intros H0; [|naive_solver..].
  destruct (wait_for_exit q _) as [[q' ev] w] eqn:E. apply wait_for_exit_event in E as [r0 ->]. naive_solver.
Qed.

Lemma force_stop_status {P} `{StageProcess P} (p p' : P) policy trace res :
  force_stop p policy = (p', trace, Ok res) ->
  sr_status res <> "force_blocked"
  /\ (sr_status res = "force_stopped" <-> exists w, trace = [Signal (force_signal policy); Wait FORCE_WAIT_SECONDS w] /\ says_exited w).
Proof.
  unfold force_stop. destruct (send_signal p _) as [q []]; intros H0.
  - destruct (wait_for_exit q _) as [[q' ev] [w|]] eqn:E; [|done].
    apply wait_for_exit_ok in E as (r0 & -> & He & _). injection H0 as <- <- <-. split.
    + by destruct (exited w), (timed_out w).
    + destruct (exited w) eqn:Hx; simpl; [naive_solver|]. destruct (timed_out w); simpl; split; try done;
        intros (? & [= <-] & Hw); by apply He in Hw.
  - injection H0 as <- <- <-. split; [done|]. split; [done|]. by intros (? & ? & _).
  - injection H0 as <- <- <-. split; [done|]. split; [done|]. by intros (? & ? & _).
Qed.

(** Stopping a process is bounded and forces nothing early: with a validated policy at most
    two signals are delivered, only the policy's, each followed by one bounded wait; the force
    signal is delivered only when the caller said the checkpoint is preserved and only after the
    graceful signal was delivered and its wait timed out; the result says [force_blocked] exactly
    when that wait timed out and no checkpoint is preserved, and [force_stopped] only when the
    process was seen to exit after the force signal. *)
Theorem safe_stop_force_guard {P} `{StageProcess P} (p p' : P) g f t policy preserved trace r :
  make_stop_policy g f t = Ok policy ->
  safe_stop_process p policy preserved = (p', trace, r) ->
  (length trace <= 4)%nat
  /\ (forall s, Signal s ∈ trace -> s = graceful_signal policy \/ s = force_signal policy)
  /\ (Signal (force_signal policy) ∈ trace ->
      preserved = VBool true /\ exists w w', says_timeout w /\
      trace = [Signal (graceful_signal policy); Wait (timeout_seconds policy) w;
               Signal (force_signal policy); Wait FORCE_WAIT_SECONDS w'])
  /\ (forall res, r = Ok res ->
      (sr_status res = "force_blocked" <-> preserved = VBool false /\ exists w, says_timeout w /\
         trace = [Signal (graceful_signal policy); Wait (timeout_seconds policy) w])
      /\ (sr_status res = "force_stopped" -> exists w, last trace = Some (Wait FORCE_WAIT_SECONDS w) /\ says_exited w)).
Proof.
  intros (_ & _ & Hne & _)%make_stop_policy_ok. unfold safe_stop_process.
  destruct preserved as [|b| | | | |]; try (intros [= <- <- <-]; split_and!; [simpl; lia|set_solver..|done]).
  destruct (send_signal p _) as [q []].
  2,3: intros [= <- <- <-]; split_and!; [simpl; lia|set_solver..|].
  2,3: intros res [= <-]; split; [split; [done|]; by intros (_ & ? & _ & ?)|done].
  destruct (wait_for_exit q _) as [[q1 ev] [w|e]] eqn:E.
  2:{ apply wait_for_exit_event in E as [r0 ->]. intros [= <- <- <-].
      split_and!; [simpl; lia|set_solver|set_solver|done]. }
  apply wait_for_exit_ok in E as (r0 & -> & Hex & Hto).
  assert (exited w = true -> timed_out w = false) as Hexcl.
  { intros Hx. apply not_true_is_false. intros Ht. apply Hex in Hx. apply Hto in Ht.
    unfold says_exited, says_timeout in *. naive_solver. }
  destruct (exited w) eqn:Hx; [|destruct (timed_out w) eqn:Ht; simpl; [destruct b; simpl|]].
  - intros [= <- <- <-]. specialize (Hexcl eq_refl). split_and!; [simpl; lia|set_solver..|].
    intros res [= <-]. split; [split; [done|]|done]. intros (_ & w' & Hw & [= <-]). apply Hto in Hw. congruence.
  - destruct (force_stop q1 policy) as [[q2 more] r1] eqn:Ef. intros [= <- <- <-].
    destruct (force_stop_trace _ _ _ _ _ Ef) as [->|[w' ->]].
    + split_and!; [simpl; lia|set_solver|set_solver|]. intros res ->.
      apply force_stop_status in Ef as [Hb Hf]. split; [naive_solver|]. intros (? & ? & _)%Hf; done.
    + split_and!; [simpl; lia|set_solver| |].
      { intros _. split; [done|]. exists r0, w'. split; [by apply Hto|done]. }
      intros res ->. apply force_stop_status in Ef as [Hb Hf]. split; [naive_solver|].
      intros (? & [= <-] & ?)%Hf. eauto.
  - intros [= <- <- <-]. split_and!; [simpl; lia|set_solver..|]. intros res [= <-]. split; [|done].
    split; [|done]. intros _. split; [done|]. exists r0. split; [by apply Hto|done].
  - intros [= <- <- <-]. split_and!; [simpl; lia|set_solver..|]. intros res [= <-]. split; [|done].
    split; [done|]. intros (_ & w' & Hw & [= <-]). apply Hto in Hw. congruence.
Qed.

(** *** Snapshots are canonical and bounded *)

Lemma snapshot_ok v label d :
  wf_value v -> snapshot_mapping v label = Ok d <->
  exists s, dumps v = Some s /\ zlen (utf8 s) <= MAX_CHECKPOINT_PAYLOAD_BYTES /\ VDict d = canon v.
Proof.
  intros Hwf. unfold snapshot_mapping. destruct v as [| | | | | |e];
    try (split; [done|]; intros (? & _ & _ & Hx); discriminate Hx).
  destruct (dumps (VDict e)) as [s|] eqn:Hs; [|split; [done|by intros (? & ? & _)]].
  rewrite (loads_dumps _ _ Hwf Hs), canon_dict. case_match eqn:E; to_prop.
  - split; [done|]. intros (? & [= <-] & Hle & _). lia.
  - split; [intros [= <-]; eauto|]. intros (? & _ & _ & [= <-]). done.
Qed.

Lemma restart_plan_ok completed c plan :
  lc_restart_plan completed c = Ok plan <-> restart_plan completed c = Ok plan.
Proof. unfold lc_restart_plan. destruct (restart_plan completed c) as [|[]]; naive_solver. Qed.

(** When a record can be resumed from, and with which cursor. *)
Definition resumable (r : CheckpointRecord) (fp : string) (cursor : list (string * value)) : Prop :=
  cr_fp r = fp /\ cr_version r = SUPPORTED_CHECKPOINT_VERSION /\ stage_of_name (cr_stage r) <> None
  /\ VDict cursor = canon (cr_cursor r)
  /\ exists cu co d, dumps (cr_cursor r) = Some cu /\ dumps (cr_counters r) = Some co
     /\ cr_counters r = VDict d
     /\ zlen (utf8 cu) <= MAX_CHECKPOINT_PAYLOAD_BYTES /\ zlen (utf8 co) <= MAX_CHECKPOINT_PAYLOAD_BYTES.

Lemma canon_is_dict v d : VDict d = canon v -> exists e, v = VDict e.
Proof. destruct v; try done. eauto. Qed.

Lemma checkpoint_snapshot_spec r fp cursor :
  wf_value (cr_cursor r) -> wf_value (cr_counters r) ->
  checkpoint_snapshot_error (LRecord r) fp = Ok cursor <-> resumable r fp cursor.
Proof.
  intros Hwc Hwk. unfold checkpoint_snapshot_error, resumable.
  destruct (String.eqb_spec (cr_fp r) fp) as [Hf|Hf]; simpl; [|split; [done|by intros (? & _)]].
  destruct (Z.eqb_spec (cr_version r) SUPPORTED_CHECKPOINT_VERSION) as [Hv|Hv]; simpl; [|split; [done|by intros (_ & ? & _)]].
  destruct (stage_of_name (cr_stage r)); [|split; [done|by intros (_ & _ & ? & _)]].
  destruct (snapshot_mapping (cr_cursor r) _) as [cu|e] eqn:Hc; simpl.
  - apply snapshot_ok in Hc as (cus & Hcu & Hcl & Hcc); [|done].
    destruct (snapshot_mapping (cr_counters r) _) as [co|e] eqn:Hk; simpl.
    + apply snapshot_ok in Hk as (cos & Hco & Hkl & Hkk); [|done].
      destruct (canon_is_dict _ _ Hkk) as [kd Hkd].
      split; [intros [= <-]; split_and!; try done; by eexists cus, cos, kd|].
      intros (_ & _ & _ & Hcan & _). rewrite <- Hcc in Hcan. by injection Hcan as ->.
    + split; [by destruct e|]. intros (_ & _ & _ & _ & cu' & co' & d & _ & Hco & Hd & _ & Hl).
      exfalso. assert (snapshot_mapping (cr_counters r) "checkpoint counters"
        = Ok (sort_keys (prod_map id canon <$> d))) as He; [|congruence].
      apply snapshot_ok; [done|]. exists co'. rewrite <- canon_dict, Hd in *. done.
  - split; [by destruct e|]. intros (_ & _ & _ & Hcan & cu' & co' & d & Hcu & _ & _ & Hl & _).
    exfalso. assert (snapshot_mapping (cr_cursor r) "checkpoint cursor" = Ok cursor) as He; [|congruence].
    apply snapshot_ok; [done|]. eauto.
Qed.

#[local] Arguments checkpoint_snapshot_error : simpl never.
#[local] Arguments lc_restart_plan : simpl never.

(** A restart decision resumes exactly from a usable checkpoint: when a decision is made for
    the expected source, its status is [resume] if and only if the loader returned a record of
    that source, version and a known stage whose cursor and counters are bounded canonical
    objects, and then its cursor is the record's in canonical form; with another or an invalid
    fingerprint it is [blocked], nothing is loaded and nothing runs; whatever runs is the plan of
    the scheduler for the completed stages. *)
Theorem restart_decision_spec load completed expected current c d :
  (forall r, load tt = Ok (LRecord r) -> wf_value (cr_cursor r) /\ wf_value (cr_counters r)) ->
  restart_from_checkpoint load completed expected current c = Ok d ->
  (rd_status d = "resume" <->
     exists fp r cursor, expected = VStr fp /\ current = VStr fp /\ is_sha256_hex fp = true
       /\ load tt = Ok (LRecord r) /\ resumable r fp cursor)
  /\ (forall cursor, rd_cursor d = Some cursor <->
        rd_status d = "resume" /\ exists r, load tt = Ok (LRecord r) /\ VDict cursor = canon (cr_cursor r))
  /\ (rd_status d = "blocked" -> rd_runnable d = [])
  /\ (rd_runnable d <> [] -> exists plan, restart_plan completed c = Ok plan /\ rd_runnable d = runnable plan)
  /\ (valid_fingerprint expected = false \/ valid_fingerprint current = false \/ current <> expected ->
      rd_status d = "blocked" /\ forall load', restart_from_checkpoint load' completed expected current c = Ok d).
Proof.
  intros Hwf. unfold restart_from_checkpoint.
  destruct (valid_fingerprint expected) eqn:He; simpl.
  2:{ intros [= <-]. split_and!; try naive_solver. split; [done|].
      intros (fp & r & cursor & -> & -> & Hx & _). simpl in He. congruence. }
  destruct (valid_fingerprint current) eqn:Hc; simpl.
  2:{ intros [= <-]. split_and!; try naive_solver. split; [done|].
      intros (fp & r & cursor & -> & -> & Hx & _). simpl in Hc. congruence. }
  destruct expected as [| | |e| | |], current as [| | |k| | |]; try done. simpl in He, Hc. simpl py_str.
  case_bool_decide as Hek; simpl.
  2:{ intros [= <-]. split_and!; try naive_solver. }
  subst k.
  destruct (load tt) as [[r|]|[m restart| | | |]] eqn:Hl; simpl; try done.
  - destruct (Hwf _ eq_refl) as [Hwc Hwk].
    destruct (checkpoint_snapshot_error (LRecord r) e) as [cursor|reason] eqn:Hs.
    + apply checkpoint_snapshot_spec in Hs; [|done..]. intros H. inv_ok. simpl.
      match goal with H : lc_restart_plan _ _ = _ |- _ => apply restart_plan_ok in H; rename H into Hp end.
      split_and!; try naive_solver. intros cursor'. split.
      * intros [= <-]. split; [done|]. exists r. split; [done|]. apply Hs.
      * intros (_ & r' & [= <-] & Hcan). destruct Hs as (_ & _ & _ & Hcan' & _).
        rewrite <- Hcan' in Hcan. by injection Hcan as ->.
    + intros H. inv_ok. simpl.
      match goal with H : lc_restart_plan _ _ = _ |- _ => apply restart_plan_ok in H; rename H into Hp end.
      split_and!; try naive_solver. split; [done|].
      intros (fp & r' & cursor & [= <-] & _ & _ & [= <-] & Hr).
      apply checkpoint_snapshot_spec in Hr; [|done..]. congruence.
  - intros H. inv_ok. simpl.
    match goal with H : lc_restart_plan _ _ = _ |- _ => apply restart_plan_ok in H end. split_and!; naive_solver.
  - intros H. inv_ok. simpl.
    match goal with H : lc_restart_plan _ _ = _ |- _ => apply restart_plan_ok in H end.
    split_and!; destruct restart; naive_solver.
Qed.

(** *** What a pause stored is what a restart resumes from *)

Lemma length_sep_by sep x (l : list (list ascii)) : x ∈ l -> (length x <= length (sep_by sep l))%nat.
Proof.
  induction l as [|y l IH]; [by intros ?%elem_of_nil|]. intros [->|Hx]%elem_of_cons.
  - destruct l as [|z l]; [done|].
    change (sep_by sep (y :: z :: l)) with (y ++ sep ++ sep_by sep (z :: l))%list. rewrite length_app. lia.
  - specialize (IH Hx). destruct l as [|z l]; [by apply elem_of_nil in Hx|].
    change (sep_by sep (y :: z :: l)) with (y ++ sep ++ sep_by sep (z :: l))%list. rewrite !length_app. lia.
Qed.

Lemma dump_child d c k x :
  dump (VDict d) = Some c -> (k, x) ∈ d -> exists cx, dump x = Some cx /\ (length cx <= length c)%nat.
Proof.
  intros Hd Hx. change (dump (VDict d)) with
    (match sequence (map dump_pair d) with
     | Some kcs => Some ("{"%char :: sep_by [","%char] (dump_member <$> sort_keys kcs) ++ ["}"%char])
     | None => None end) in Hd.
  destruct (sequence (map dump_pair d)) as [kcs|] eqn:Hs; [|done]. injection Hd as <-.
  apply sequence_Forall2 in Hs. apply list_elem_of_lookup in Hx as [i Hi].
  destruct (Forall2_lookup_l _ _ _ _ _ Hs Hi) as (kc & Hkc & [_ Hc]%dump_pair_Some). simpl in Hc.
  exists kc.2. split; [done|]. simpl. rewrite length_app. simpl.
  assert (length kc.2 <= length (dump_member kc))%nat.
  { unfold dump_member. rewrite length_app. simpl. lia. }
  pose proof (length_sep_by [","%char] (dump_member kc) (dump_member <$> sort_keys kcs)) as Hl.
  enough (dump_member kc ∈ dump_member <$> sort_keys kcs) by (specialize (Hl ltac:(done)); lia).
  apply list_elem_of_fmap. exists kc. split; [done|].
  rewrite sort_keys_perm. by eapply list_elem_of_lookup_2.
Qed.

Lemma length_utf8_printable l : all_printable l -> zlen (utf8 (of_chars l)) = Z.of_nat (length l).
Proof.
  intros H. unfold utf8, zlen. rewrite chars_of_chars. induction H as [|x l Hx Hl IH]; [done|].
  rewrite fmap_cons. simpl concat. rewrite length_app. unfold utf8_char at 1. unfold printable in Hx. to_prop.
  replace (ord x <? 128) with true by lia. simpl. lia.
Qed.

Lemma dumps_child d s k x :
  dumps (VDict d) = Some s -> (k, x) ∈ d ->
  exists t, dumps x = Some t /\ zlen (utf8 t) <= zlen (utf8 s).
Proof.
  unfold dumps. destruct (dump (VDict d)) as [c|] eqn:Hd; [|done]. intros [= <-] Hx.
  destruct (dump_child _ _ _ _ Hd Hx) as (cx & Hcx & Hle). exists (of_chars cx). rewrite Hcx.
  split; [done|]. rewrite !length_utf8_printable by (eapply dump_printable; done). lia.
Qed.

(** A paused stage resumes where it stopped: the payload of an acknowledged pause holds the
    stage, the reason and canonical copies of cursor and counters, it is marked persisted exactly
    when the callback stored it, and restarting from a record with the payload's stage, cursor and
    counters resumes with that cursor and the scheduler's plan. *)
Theorem pause_restart_roundtrip st cursor counters pause persist d :
  wf_value (VDict cursor) -> wf_value (VDict counters) -> requested pause = true ->
  cooperative_pause (VStr st) (VDict cursor) (VDict counters) pause persist = Ok d ->
  exists payload cu co,
    checkpoint_payload d = VDict payload /\ should_pause d = true /\ pd_reason d = VStr (pr_reason pause)
    /\ dict_get payload "stage" = Some (VStr st) /\ dict_get payload "reason" = Some (VStr (pr_reason pause))
    /\ dict_get payload "cursor" = Some (VDict cu) /\ VDict cu = canon (VDict cursor)
    /\ dict_get payload "counters" = Some co /\ co = canon (VDict counters)
    /\ (checkpoint_persisted d = true <-> exists f, persist = Some f /\ f payload = PReturns)
    /\ forall cid job fp tool toolv blob digest previous completed c plan,
         is_sha256_hex fp = true -> restart_plan completed c = Ok plan ->
         restart_from_checkpoint
           (fun _ => Ok (LRecord (CR cid job fp st SUPPORTED_CHECKPOINT_VERSION tool toolv (VDict cu) co
                                    blob digest previous))) completed (VStr fp) (VStr fp) c
         = Ok (RD "resume" (runnable plan) "checkpoint validated" (Some cu)).
Proof.
  intros Hwc Hwk Hreq. unfold cooperative_pause. destruct (known_stage (VStr st)) as [n|] eqn:Hst; [|done].
  rewrite Hreq. simpl negb. cbn match. intros H. inv_ok. rename x into payload.
  match goal with H : snapshot_mapping _ _ = _ |- _ => rename H into Hsnap end.
  set (src := [("stage", VStr st); ("cursor", VDict cursor); ("counters", VDict counters);
               ("reason", VStr (pr_reason pause))]) in *.
  assert (wf_value (VDict src)) as Hw.
  { apply wf_dict_Forall. split; [apply (bool_decide_unpack _); by vm_compute|].
    repeat (apply Forall_cons; split); [exact I|exact Hwc|exact Hwk|exact I|by apply Forall_nil]. }
  apply snapshot_ok in Hsnap as (s & Hs & Hlen & Hcan); [|done].
  rewrite canon_dict in Hcan.
  assert (payload = sort_keys (prod_map id canon <$> src)) as Hpay by congruence.
  pose proof Hw as [Hnd _]%wf_dict_Forall.
  assert (forall k v, dict_get src k = Some v -> dict_get payload k = Some (canon v)) as Hget.
  { intros k v Hv. rewrite Hpay, dict_get_canon, Hv by done. done. }
  destruct (dumps_child _ _ "cursor" (VDict cursor) Hs) as (cut & Hcut & Hcul); [elem_list|].
  destruct (dumps_child _ _ "counters" (VDict counters) Hs) as (cot & Hcot & Hcol); [elem_list|].
  assert (known_stage (VStr st) = Some st) as Hk by (unfold known_stage in *; by destruct (stage_of_name st)).
  exists payload, (sort_keys (prod_map id canon <$> cursor)), (canon (VDict counters)).
  cbn [checkpoint_payload should_pause pd_reason checkpoint_persisted].
  split_and!; try done.
  - by apply (Hget "stage" (VStr st)).
  - by apply (Hget "reason" (VStr (pr_reason pause))).
  - rewrite <- canon_dict. by apply (Hget "cursor" (VDict cursor)).
  - symmetry; apply (canon_dict cursor).
  - by apply (Hget "counters" (VDict counters)).
  - destruct persist as [f|]; [|split; [done|by intros (? & ? & _)]].
    destruct (f payload) eqn:Hf; try discriminate. split; [eauto|done].
  - intros cid job fp tool toolv blob digest previous completed c plan Hfp Hplan.
    apply restart_plan_ok in Hplan. unfold restart_from_checkpoint, valid_fingerprint. rewrite Hfp. simpl negb.
    cbn -[checkpoint_snapshot_error lc_restart_plan canon]. rewrite bool_decide_true by done. cbn -[checkpoint_snapshot_error lc_restart_plan canon].
    assert (checkpoint_snapshot_error (LRecord (CR cid job fp st SUPPORTED_CHECKPOINT_VERSION tool toolv
      (VDict (sort_keys (prod_map id canon <$> cursor))) (canon (VDict counters)) blob digest previous)) fp
      = Ok (sort_keys (prod_map id canon <$> cursor))) as ->; [|by rewrite Hplan].
    rewrite <- canon_dict. apply checkpoint_snapshot_spec; cbn [cr_cursor cr_counters]; rewrite <- ?canon_dict; try by apply wf_canon.
    split_and!; try done.
    { cbn [cr_stage]. unfold known_stage in Hk. by destruct (stage_of_name st). }
    { cbn [cr_cursor]. rewrite canon_canon, canon_dict by done; done. }
    exists cut, cot, (sort_keys (prod_map id canon <$> counters)). cbn [cr_cursor cr_counters].
    rewrite <- !canon_dict, !dumps_canon by done. split_and!; [done..|lia|lia].
Qed.

(** ** Witnesses *)

(** A process that ignores the first signal and exits on the second. *)
#[local] Instance stubborn : StageProcess nat :=
  { send_signal := fun n _ => (S n, Sent);
    process_wait := fun n _ => (n, if (n <=? 1)%nat then WaitTimeout else WaitReturns (VInt 0)) }.

Lemma safe_stop_force_guard_witness :
  let out := safe_stop_process 0%nat {| graceful_signal := "TERM"; force_signal := "KILL"; timeout_seconds := 10 |} (VBool true) in
  Signal "KILL" ∈ out.1.2 /\ (length out.1.2 <= 4)%nat.
Proof.
  set (policy := {| graceful_signal := "TERM"; force_signal := "KILL"; timeout_seconds := 10 |}).
  destruct (safe_stop_process 0%nat policy (VBool true)) as [[p' trace] r] eqn:E.
  assert (make_stop_policy (VStr "TERM") (VStr "KILL") (VInt 10) = Ok policy) as Hp by (by vm_compute).
  pose proof (safe_stop_force_guard 0%nat p' _ _ _ policy _ _ _ Hp E) as (Hl & _ & _ & _).
  split; [|exact Hl]. vm_compute in E. injection E as <- <- <-. simpl. elem_list.
Defined.

(** A policy may name KILL as its graceful signal: it is then sent without a checkpoint. *)
Example kill_before_checkpoint :
  exists policy, make_stop_policy (VStr "KILL") (VStr "TERM") (VInt 10) = Ok policy
  /\ Signal "KILL" ∈ (safe_stop_process 0%nat policy (VBool false)).1.2.
Proof. eexists. split; [reflexivity|]. simpl. elem_list. Qed.

Definition demo_record : CheckpointRecord :=
  CR "c1" "j1" demo_ck_fp "enumeration" 1 "tsk" "4.12" (VDict [("offset", VInt 7)]) (VDict []) [] "" None.

Lemma wf_demo_cursor : wf_value (VDict [("offset", VInt 7)]) /\ wf_value (VDict []).
Proof. simpl. split_and!; try done; apply (bool_decide_unpack _); by vm_compute. Qed.

Lemma restart_decision_spec_witness :
  exists d, restart_from_checkpoint (fun _ => Ok (LRecord demo_record)) ["validation"; "volumes"]
              (VStr demo_ck_fp) (VStr demo_ck_fp) demo_config = Ok d /\ rd_status d = "resume".
Proof.
  destruct (restart_from_checkpoint (fun _ => Ok (LRecord demo_record)) ["validation"; "volumes"]
    (VStr demo_ck_fp) (VStr demo_ck_fp) demo_config) as [d|e] eqn:E; [|by vm_compute in E].
  exists d. split; [done|].
  assert (forall r, (fun _ : unit => Ok (E := checkpoint_error) (LRecord demo_record)) tt = Ok (LRecord r) ->
    wf_value (cr_cursor r) /\ wf_value (cr_counters r)) as Hw.
  { intros r [= <-]. exact wf_demo_cursor. }
  destruct (restart_decision_spec _ _ _ _ _ _ Hw E) as (Hs & _). apply Hs.
  exists demo_ck_fp, demo_record, [("offset", VInt 7)].
  split; [reflexivity|]. split; [reflexivity|]. split; [by vm_compute|]. split; [reflexivity|].
  apply checkpoint_snapshot_spec; [apply (Hw _ eq_refl)..|by vm_compute].
Defined.

Lemma pause_restart_roundtrip_witness :
  exists d payload, cooperative_pause (VStr "enumeration") (VDict [("offset", VInt 7)]) (VDict [])
              {| requested := true; pr_reason := "operator" |} (Some (fun _ => PReturns)) = Ok d
    /\ checkpoint_payload d = VDict payload /\ checkpoint_persisted d = true.
Proof.
  pose proof wf_demo_cursor as [H1 H2].
  destruct (cooperative_pause (VStr "enumeration") (VDict [("offset", VInt 7)]) (VDict [])
              {| requested := true; pr_reason := "operator" |} (Some (fun _ => PReturns))) as [d|e] eqn:E;
    [|by vm_compute in E].
  destruct (pause_restart_roundtrip _ _ _ {| requested := true; pr_reason := "operator" |} _ _ H1 H2 eq_refl E)
    as (payload & cu & co & Hp & _ & _ & _ & _ & _ & _ & _ & _ & Hc & _).
  exists d, payload. split; [done|]. split; [done|]. apply Hc. by eexists.
Defined.
