(* ===== verification/AiBudget.v ===== *)
(** * Batching, cache and budget of AI enrichment (src/worker/ai_budget.py)

    [batch_items] and [chunk_text] bound what is sent to a provider, [cache_key] names a cached
    response, [run_batch] records one outcome per entry within the retry budget.  Metrics and
    outcomes are dictionaries; the cancellation token is an oracle for its [i]-th check. *)

From Stdlib Require Import ZArith Lia String Ascii.
From stdpp Require Import base list strings gmap sorting.
From S2P Require Import Prelude PyStr Json Sha256 Messages.

Local Open Scope string_scope.
Local Open Scope Z_scope.

(** ** Data *)

(** worker/ai_budget.py:20-20 AI_BUDGET_VERSION *)
Definition AI_BUDGET_VERSION : string := "ai-budget-v1".
(** worker/ai_budget.py:22-26 DEFAULT_MAX_BATCH_SIZE: and the other defaults. *)
Definition DEFAULT_MAX_BATCH_SIZE : Z := 32.
Definition DEFAULT_MAX_BATCH_BYTES : Z := 1048576.
Definition DEFAULT_CONCURRENCY : Z := 1.
Definition DEFAULT_RETRY_BUDGET : Z := 3.
Definition DEFAULT_RATE_PER_MINUTE : Z := 60.

(** worker/ai_budget.py:32-35 AiBudgetError *)
Inductive ai_error := AiBudgetError (code message : string).

(** ** Cache *)

(** worker/ai_budget.py:48-58 cache_key: the canonical object before hashing. *)
Definition cache_object (content_hash : string) (input_refs : list string)
    (prompt_version provider model schema_version : string) : value :=
  VDict [("content_hash", VStr content_hash); ("input_refs", VList (VStr <$> sorted_strings input_refs));
         ("prompt_version", VStr prompt_version); ("provider", VStr provider); ("model", VStr model);
         ("schema_version", VStr schema_version)].
(** worker/ai_budget.py:38-60 cache_key *)
Definition cache_key (content_hash : string) (input_refs : list string)
    (prompt_version provider model schema_version : string) : string :=
  sha256_hex (utf8 (default ""
    (dumps (cache_object content_hash input_refs prompt_version provider model schema_version)))).

(** worker/ai_budget.py:63-64 cache_lookup *)
Definition cache_lookup (cache : gmap string string) (key : string) : option string := cache !! key.
(** worker/ai_budget.py:67-68 cache_store *)
Definition cache_store (cache : gmap string string) (key v : string) : gmap string string := <[key := v]> cache.
(** worker/ai_budget.py:71-72 cache_hit *)
Definition cache_hit (cache : gmap string string) (key : string) : bool := bool_decide (is_Some (cache !! key)).
(** worker/ai_budget.py:75-79 cache_merge: [setdefault] keeps what is there. *)
Definition cache_merge (primary persisted : gmap string string) : gmap string string := primary ∪ persisted.

(** ** Batches *)

(** [json.dumps(item, separators=(",", ":"), default=str)]: keys in insertion order, other
    objects as the text of [str]. *)
Fixpoint dump_plain (v : value) : list ascii :=
  match v with
  | VNone => chars "null"
  | VBool b => chars (if b then "true" else "false")
  | VInt z => Z_chars z
  | VStr s => dump_string s
  | VBytes _ => dump_string (py_str v)
  | VList l => ("["%char :: sep_by [","%char] (map dump_plain l) ++ ["]"%char])%list
  | VDict d =>
    ("{"%char :: sep_by [","%char] (map (fun '(k, x) => dump_member (k, dump_plain x)) d) ++ ["}"%char])%list
  end.

Definition item_bytes (v : value) : Z := zlen (utf8 (of_chars (dump_plain v))).

(** worker/ai_budget.py:93-110 batch_items: the loop, [current] being the open batch. *)
Fixpoint batch_loop (max_size max_bytes : Z) (items current : list value) (current_bytes : Z)
    : result ai_error (list (list value)) :=
  match items with
  | [] => Ok (match current with [] => [] | _ => [current] end)
  | item :: items =>
    let n := item_bytes item in
    if max_bytes <? n
    then Err (AiBudgetError "oversized_item" "a single item exceeds the maximum batch byte limit")
    else if match current with [] => false | _ => true end
            && ((max_size <=? zlen current) || (max_bytes <? current_bytes + n))
    then rest ← batch_loop max_size max_bytes items [item] n; Ok (current :: rest)
    else batch_loop max_size max_bytes items (current ++ [item]) (current_bytes + n)
  end.

(** worker/ai_budget.py:82-110 batch_items *)
Definition batch_items (items : list value) (max_size max_bytes : Z) : result ai_error (list (list value)) :=
  if (max_size <=? 0) || (max_bytes <=? 0)
  then Err (AiBudgetError "invalid_batch_limits" "batch limits must be positive")
  else batch_loop max_size max_bytes items [] 0.

(** ** Chunks *)

(** [text\[start:end\]]. *)
Definition slice {A} (l : list A) (a b : Z) : list A := take (Z.to_nat (b - a)) (drop (Z.to_nat a) l).

(** worker/ai_budget.py:122-132 chunk_text: the loop from [start]. *)
Fixpoint chunk_loop (fuel : nat) (text : list ascii) (max_chars overlap start : Z) : list (list ascii) :=
  match fuel with
  | O => []
  | S fuel =>
    if negb (start <? zlen text) then [] else
    let stop := Z.min (start + max_chars) (zlen text) in
    let chunk := slice text start stop in
    let rest :=
      if zlen text <=? stop then []
      else let next_start := Z.max (start + 1) (stop - overlap) in
           if next_start <=? start then [] else chunk_loop fuel text max_chars overlap next_start in
    match chunk with [] => rest | _ => chunk :: rest end
  end.

(** worker/ai_budget.py:113-133 chunk_text: one round of fuel per character is enough. *)
Definition chunk_text (text : string) (max_chars overlap : Z) : result ai_error (list string) :=
  if (max_chars <=? 0) || (overlap <? 0) || (max_chars <=? overlap)
  then Err (AiBudgetError "invalid_chunk_limits" "chunk limits are invalid")
  else Ok (of_chars <$> chunk_loop (String.length text) (chars text) max_chars overlap 0).

(** ** Limits *)

(** worker/ai_budget.py:136-146 concurrency_for *)
Definition concurrency_for (concurrency : gmap string Z) (provider : string) (dflt : Z) : result ai_error Z :=
  let v := default dflt (concurrency !! provider) in
  if v <? 0 then Err (AiBudgetError "invalid_concurrency" "concurrency must be non-negative") else Ok v.

(** worker/ai_budget.py:149-153 within_budget *)
Definition within_budget (attempt budget : Z) : result ai_error bool :=
  if budget <? 0 then Err (AiBudgetError "invalid_budget" "retry budget must be non-negative")
  else Ok (attempt <? budget).

(** worker/ai_budget.py:156-160 request_allowed *)
Definition request_allowed (counter per_minute : Z) : result ai_error bool :=
  if per_minute <=? 0 then Err (AiBudgetError "invalid_rate" "rate limit must be positive")
  else Ok (counter <? per_minute).

(** worker/ai_budget.py:163-167 rate_limit_wait_seconds *)
Definition rate_limit_wait_seconds (counter per_minute : Z) : Z := if counter <? per_minute then 0 else 60.

(** ** Usage metrics *)

Record usage := Usage { u_calls : Z; u_tokens_in : Z; u_tokens_out : Z; u_cache_hits : Z; u_failures : Z }.

(** worker/ai_budget.py:170-172 new_usage_metrics *)
Definition new_usage_metrics : gmap string usage := ∅.

Definition usage_add (a b : usage) : usage :=
  Usage (u_calls a + u_calls b) (u_tokens_in a + u_tokens_in b) (u_tokens_out a + u_tokens_out b)
    (u_cache_hits a + u_cache_hits b) (u_failures a + u_failures b).
Definition usage_zero : usage := Usage 0 0 0 0 0.

(** worker/ai_budget.py:175-195 record_usage *)
Definition record_usage (metrics : gmap string usage) (provider model : string) (delta : usage) : gmap string usage :=
  let key := provider +:+ "/" +:+ model in
  <[key := usage_add (default usage_zero (metrics !! key)) delta]> metrics.

(** worker/ai_budget.py:198-204 usage_summary *)
Definition usage_summary (metrics : gmap string usage) : usage :=
  map_fold (fun _ u acc => usage_add acc u) usage_zero metrics.

(** ** Batches of entries *)

Record item_outcome := { io_entry : string; io_status : string; io_provider : string; io_model : string; io_detail : string }.

(** worker/ai_budget.py:207-227 per_item_outcome *)
Definition per_item_outcome (outcomes : list (string * item_outcome)) (entry_id status provider model detail : string)
    : result ai_error (list (string * item_outcome)) :=
  if negb (bool_decide (status ∈ ["completed"; "failed"]))
  then Err (AiBudgetError "invalid_outcome" "outcome status must be completed or failed")
  else Ok (dict_set outcomes entry_id
             {| io_entry := entry_id; io_status := status; io_provider := provider; io_model := model; io_detail := detail |}).

Record batch_report := { b_outcomes : list (string * item_outcome); b_attempts : Z; b_failures : Z; b_completed : Z }.

Definition outage_detail : string := "provider outage; outcome recorded for deterministic completion".

(** The loop of [run_batch] over the entry ids; [cancelled i] says that the [i]-th check raises. *)
Fixpoint batch_run (cancelled : Z -> bool) (provider model : string) (budget : Z) (entries : list string)
    (outcomes : list (string * item_outcome)) (attempts failures : Z) : result ai_error batch_report :=
  match entries with
  | [] => Ok {| b_outcomes := outcomes; b_attempts := attempts; b_failures := failures;
                b_completed := attempts - failures |}
  | e :: entries =>
    _ ← raise_if (cancelled attempts) (AiBudgetError "cancelled" "batch was cancelled");
    let attempts := attempts + 1 in
    ok ← within_budget attempts budget;
    if ok : bool
    then outcomes ← per_item_outcome outcomes e "completed" provider model "";
         batch_run cancelled provider model budget entries outcomes attempts failures
    else outcomes ← per_item_outcome outcomes e "failed" provider model outage_detail;
         batch_run cancelled provider model budget entries outcomes attempts (failures + 1)
  end.

(** worker/ai_budget.py:230-273 run_batch: [entries] are the mappings' [entry_id] values. *)
Definition run_batch (cancelled : Z -> bool) (entries : list value) (provider model : string) (budget : Z)
    : result ai_error batch_report :=
  batch_run cancelled provider model budget
    ((fun e => py_str (match e with VDict d => get_or_none d "entry_id" | _ => VNone end)) <$> entries) [] 0 0.

(** ** Chunks cover the text *)

Lemma length_slice {A} (l : list A) a b :
  0 <= a -> a <= b -> b <= zlen l -> zlen (slice l a b) = b - a.
Proof. unfold slice, zlen. intros. rewrite length_take, length_drop. lia. Qed.

Lemma slice_app {A} (l : list A) a b c :
  0 <= a -> a <= b -> b <= c -> (slice l a b ++ slice l b c)%list = slice l a c.
Proof.
  unfold slice. intros. replace (Z.to_nat (c - a)) with (Z.to_nat (b - a) + Z.to_nat (c - b))%nat by lia.
  rewrite <- take_take_drop, drop_drop. do 3 f_equal. lia.
Qed.

Lemma slice_all {A} (l : list A) a : 0 <= a -> slice l a (zlen l) = drop (Z.to_nat a) l.
Proof. unfold slice, zlen. intros. apply take_ge. rewrite length_drop. lia. Qed.

Lemma drop_slice {A} (l : list A) k a b :
  0 <= k -> 0 <= a -> drop (Z.to_nat k) (slice l a b) = slice l (a + k) b.
Proof.
  unfold slice. intros. rewrite skipn_firstn_comm, drop_drop. f_equal; [lia|]. f_equal. lia.
Qed.

Lemma take_slice {A} (l : list A) k a b :
  0 <= k -> a + k <= b -> take (Z.to_nat k) (slice l a b) = slice l a (a + k).
Proof. unfold slice. intros. rewrite take_take. f_equal. lia. Qed.

(** The windows of [chunk_loop]: where each chunk starts and stops. *)
Inductive windows (n m o : Z) : Z -> list (Z * Z) -> Prop :=
  | win_last a : 0 <= a -> a < n -> n <= a + m -> windows n m o a [(a, n)]
  | win_next a ws : 0 <= a -> a + m < n -> windows n m o (a + m - o) ws -> windows n m o a ((a, a + m) :: ws).

Lemma chunk_loop_windows fuel text m o a :
  0 <= o < m -> 0 <= a < zlen text -> zlen text - a <= Z.of_nat fuel ->
  exists ws, windows (zlen text) m o a ws
    /\ chunk_loop fuel text m o a = (fun w => slice text w.1 w.2) <$> ws.
Proof.
  intros Ho. revert a; induction fuel as [|fuel IH]; intros a Ha Hf; [lia|].
  simpl. replace (a <? zlen text) with true by lia. simpl negb. cbn match.
  assert (Hne : forall s, a < s <= zlen text -> exists x r, slice text a s = x :: r).
  { intros s Hs. pose proof (length_slice text a s ltac:(lia) ltac:(lia) ltac:(lia)) as Hl.
    destruct (slice text a s) as [|x r]; [|eauto]. unfold zlen in *; simpl in *. lia. }
  destruct (Z.leb_spec (zlen text) (Z.min (a + m) (zlen text))) as [Hle|Hlt].
  - exists [(a, zlen text)]. split; [apply win_last; lia|]. replace (Z.min (a + m) (zlen text)) with (zlen text) by lia.
    simpl. destruct (Hne (zlen text) ltac:(lia)) as (x & r & ->). done.
  - replace (Z.min (a + m) (zlen text)) with (a + m) by lia.
    replace (Z.max (a + 1) (a + m - o)) with (a + m - o) by lia.
    replace (a + m - o <=? a) with false by lia.
    destruct (IH (a + m - o)) as (ws & Hw & ->); [lia..|].
    exists ((a, a + m) :: ws). split; [apply win_next; [lia|lia|done]|].
    simpl. destruct (Hne (a + m) ltac:(lia)) as (x & r & ->). done.
Qed.

Lemma windows_head n m o a ws : windows n m o a ws -> exists b r, ws = (a, b) :: r.
Proof. inversion 1; subst; by eexists _, _. Qed.

Lemma windows_cover {A} (l : list A) m o a ws :
  0 <= o < m -> windows (zlen l) m o a ws ->
  exists c cs, (fun w => slice l w.1 w.2) <$> ws = c :: cs
    /\ (c ++ concat (drop (Z.to_nat o) <$> cs))%list = slice l a (zlen l).
Proof.
  intros Ho. induction 1 as [a Ha Hn Hm|a ws Ha Hm Hw IH].
  - exists (slice l a (zlen l)), []. simpl. by rewrite app_nil_r.
  - destruct IH as (c & cs & Hc & Hcat). exists (slice l a (a + m)), (c :: cs).
    rewrite fmap_cons, Hc. split; [done|]. rewrite fmap_cons. simpl concat.
    destruct (windows_head _ _ _ _ _ Hw) as (b & r & ->).
    rewrite fmap_cons in Hc. injection Hc as Hc1 Hc2. simpl in Hc1.
    assert (drop (Z.to_nat o) c ++ concat (drop (Z.to_nat o) <$> cs) = slice l (a + m) (zlen l))%list as ->.
    { transitivity (drop (Z.to_nat o) (c ++ concat (drop (Z.to_nat o) <$> cs))).
      - rewrite drop_app_le; [done|]. subst c. inversion Hw; subst;
          match goal with |- (_ <= length (slice _ ?x ?y))%nat =>
            pose proof (length_slice l x y ltac:(lia) ltac:(lia) ltac:(lia)) as Hl; unfold zlen in *; lia end.
      - rewrite Hcat, drop_slice by lia. f_equal. lia. }
    apply slice_app; lia.
Qed.

Lemma windows_sizes {A} (l : list A) m o a ws :
  0 <= o < m -> windows (zlen l) m o a ws ->
  Forall (fun c => 1 <= zlen c <= m) ((fun w => slice l w.1 w.2) <$> ws)
  /\ (forall i c d, ((fun w => slice l w.1 w.2) <$> ws) !! i = Some c ->
        ((fun w => slice l w.1 w.2) <$> ws) !! S i = Some d ->
        zlen c = m /\ take (Z.to_nat o) d = drop (Z.to_nat (m - o)) c)
  /\ (Z.of_nat (length ws) - 1) * (m - o) < zlen l - a.
Proof.
  intros Ho. induction 1 as [a Ha Hn Hm|a ws Ha Hm Hw IH].
  - split_and!; [|done|simpl; lia]. constructor; [|done]. simpl. rewrite length_slice by lia. lia.
  - destruct IH as (IH1 & IH2 & IH3). rewrite fmap_cons. split_and!.
    + constructor; [|done]. simpl. rewrite length_slice by lia. lia.
    + intros [|i] c d Hc Hd; [|by eapply IH2]. simpl in Hc, Hd. injection Hc as <-.
      rewrite length_slice by lia. split; [lia|]. destruct ws as [|w ws]; [done|]. injection Hd as <-.
      rewrite drop_slice by lia. inversion Hw; subst; simpl;
        rewrite take_slice by lia; f_equal; lia.
    + simpl length. lia.
Qed.

Lemma join_cons_nil x l : join "" (x :: l) = (x +:+ join "" l).
Proof.
  destruct l as [|y l]; [|done]. apply chars_inj. rewrite chars_app. unfold join. simpl. by rewrite app_nil_r.
Qed.

(** Chunking loses nothing and ends: for valid limits every chunk has between one and
    [max_chars] characters, all but the last exactly [max_chars], consecutive chunks share exactly
    [overlap] characters, dropping the shared prefixes and concatenating gives the text back, and
    the number of chunks is bounded by the text's length; other limits are refused. *)
Theorem chunk_text_cover text m o :
  (0 <= o < m -> exists cs, chunk_text text m o = Ok cs
     /\ Forall (fun c => 1 <= str_len c <= m) cs
     /\ (forall i c d, cs !! i = Some c -> cs !! S i = Some d -> str_len c = m /\ str_take o d = str_drop (m - o) c)
     /\ match cs with
        | [] => text = ""
        | c :: cs => text = (c +:+ join "" (str_drop o <$> cs))
        end
     /\ (zlen cs - 1) * (m - o) < Z.max 1 (str_len text))
  /\ (~ (0 <= o < m) -> chunk_text text m o = Err (AiBudgetError "invalid_chunk_limits" "chunk limits are invalid")).
Proof.
  split.
  2:{ intros Hn. unfold chunk_text. destruct (_ || _) eqn:E; [done|]. to_prop. lia. }
  intros Ho. unfold chunk_text. replace (_ || _) with false by lia. eexists. split; [reflexivity|].
  destruct (decide (text = "")) as [->|Hne].
  { simpl. split_and!; try done. unfold zlen. simpl. lia. }
  assert (0 < zlen (chars text)) as Hl.
  { unfold zlen. rewrite length_chars. destruct text; [done|simpl; lia]. }
  destruct (chunk_loop_windows (String.length text) (chars text) m o 0) as (ws & Hw & ->); [lia|lia| |].
  { unfold zlen. rewrite length_chars. lia. }
  destruct (windows_sizes _ _ _ _ _ Ho Hw) as (Hs & Hi & Hn).
  destruct (windows_cover _ _ _ _ _ Ho Hw) as (c & cs & Hc & Hcat).
  assert (forall l, str_len (of_chars l) = zlen l) as Hlen.
  { intros l. unfold str_len, zlen. by rewrite <- length_chars, chars_of_chars. }
  split_and!.
  - rewrite Forall_fmap. eapply Forall_impl; [exact Hs|]. intros l Hl'. simpl. by rewrite Hlen.
  - intros i x y Hx Hy. rewrite list_lookup_fmap in Hx, Hy.
    apply fmap_Some in Hx as (x' & Hx & ->), Hy as (y' & Hy & ->).
    destruct (Hi i x' y' Hx Hy) as [H1 H2]. rewrite Hlen. split; [done|].
    unfold str_take, str_drop. rewrite !chars_of_chars. by rewrite H2.
  - rewrite Hc. simpl. rewrite <- (of_chars_chars text) at 1.
    rewrite slice_all in Hcat by lia.
    change (drop (Z.to_nat 0) (chars text)) with (chars text) in Hcat. rewrite <- Hcat, of_chars_app. f_equal.
    clear. induction cs as [|x cs IH]; [done|]. rewrite !fmap_cons. simpl concat. rewrite of_chars_app, IH.
    rewrite join_cons_nil. f_equal. unfold str_drop. by rewrite chars_of_chars.
  - unfold zlen at 1. rewrite length_fmap. rewrite Hc in *. simpl length in *.
    assert (length ws = S (length cs)) by (rewrite <- (length_fmap (fun w => slice (chars text) w.1 w.2)), Hc; done).
    assert (str_len text = zlen (chars text)) by (unfold str_len, zlen; by rewrite length_chars). simpl in *. lia.
Qed.

(** ** Batches *)

Definition batch_size (b : list value) : Z := zsum (item_bytes <$> b).

Lemma batch_size_app b c : batch_size (b ++ c) = batch_size b + batch_size c.
Proof. unfold batch_size. by rewrite fmap_app, zsum_app. Qed.

(** A batch was closed only because the first item of the next one did not fit. *)
Definition full_before (size bytes : Z) (b c : list value) : Prop :=
  exists x r, c = x :: r /\ (zlen b = size \/ bytes < batch_size b + item_bytes x).

Lemma batch_loop_ok size bytes items current bs :
  0 < size -> current <> [] -> zlen current <= size -> batch_size current <= bytes ->
  batch_loop size bytes items current (batch_size current) = Ok bs ->
  exists more rest, bs = (current ++ more)%list :: rest /\ concat bs = (current ++ items)%list
    /\ Forall (fun b => b <> [] /\ zlen b <= size /\ batch_size b <= bytes) bs
    /\ (forall i b c, bs !! i = Some b -> bs !! S i = Some c -> full_before size bytes b c).
Proof.
  intros Hsz. revert current bs; induction items as [|x items IH]; intros cur bs Hne Hlen Hby H; simpl in H.
  - destruct cur; [done|]. injection H as <-. eexists [], []. rewrite app_nil_r. split; [done|].
    split; [simpl; by rewrite !app_nil_r|]. split; [by repeat constructor|]. intros [|i] b c; done.
  - destruct (Z.ltb_spec bytes (item_bytes x)) as [|Hx]; [done|].
    assert (batch_size [x] = item_bytes x) as Hsx by (unfold batch_size; simpl; lia).
    destruct cur as [|y cur]; [done|]. simpl andb in H.
    destruct (_ || _) eqn:E.
    + inv_ok. match goal with H : batch_loop _ _ _ _ _ = Ok ?b |- _ => rename H into Hr; rename b into rest end.
      rewrite <- Hsx in Hr. apply IH in Hr as (more & rest' & -> & Hcat & Hall & Hadj); [|done|unfold zlen; simpl; lia|lia].
      eexists [], _. rewrite app_nil_r. split; [reflexivity|]. split; [by rewrite concat_cons, Hcat|].
      split; [by constructor|]. intros [|i] b c Hb Hc; [|by eapply Hadj].
      injection Hb as <-. injection Hc as <-. eexists x, _. split; [reflexivity|].
      apply orb_true_iff in E. to_prop. destruct E; [left; lia|right; lia].
    + to_prop. destruct E as [E1 E2].
      rewrite <- Hsx, <- batch_size_app in H.
      apply IH in H as (more & rest & -> & Hcat & Hall & Hadj).
      * exists (x :: more), rest. rewrite <- app_assoc in *. split; [done|]. split; [|done].
        rewrite Hcat. by rewrite <- app_assoc.
      * by destruct cur.
      * unfold zlen in *. rewrite length_app. simpl in *. lia.
      * rewrite batch_size_app. lia.
Qed.

Lemma batch_loop_err size bytes items current n :
  is_ok (batch_loop size bytes items current n) = forallb (fun x => item_bytes x <=? bytes) items.
Proof.
  revert current n; induction items as [|x items IH]; intros cur n; simpl; [done|].
  destruct (Z.ltb_spec bytes (item_bytes x)).
  - by replace (item_bytes x <=? bytes) with false by lia.
  - replace (item_bytes x <=? bytes) with true by lia. simpl. destruct (_ && _); [|apply IH].
    rewrite <- (IH [x] (item_bytes x)). by destruct (batch_loop _ _ _ _ _).
Qed.

(** Batching loses, splits and reorders nothing: for positive limits it succeeds exactly when
    every item fits on its own; the batches then concatenate to the items, each is non-empty and
    within both limits, and each was closed only because the next item did not fit. *)
Theorem batch_items_spec items size bytes :
  (0 < size /\ 0 < bytes ->
   (is_ok (batch_items items size bytes) = true <-> Forall (fun x => item_bytes x <= bytes) items)
   /\ forall bs, batch_items items size bytes = Ok bs ->
      concat bs = items
      /\ Forall (fun b => b <> [] /\ zlen b <= size /\ batch_size b <= bytes) bs
      /\ forall i b c, bs !! i = Some b -> bs !! S i = Some c -> full_before size bytes b c)
  /\ (size <= 0 \/ bytes <= 0 ->
      batch_items items size bytes = Err (AiBudgetError "invalid_batch_limits" "batch limits must be positive")).
Proof.
  unfold batch_items. split.
  2:{ intros H. destruct (_ || _) eqn:E; [done|]. to_prop. lia. }
  intros [Hs Hb]. replace (_ || _) with false by lia. split.
  { rewrite batch_loop_err, forallb_elem, Forall_forall. split; intros H x Hx; specialize (H x Hx); lia. }
  intros bs H. destruct items as [|x items]; simpl in H.
  { injection H as <-. done. }
  destruct (Z.ltb_spec bytes (item_bytes x)) as [|Hx]; [done|].
  assert (batch_size [x] = item_bytes x) as Hsx by (unfold batch_size; simpl; lia).
  rewrite <- Hsx in H. apply batch_loop_ok in H as (more & rest & _ & Hcat & Hall & Hadj); try done.
  unfold zlen. simpl. lia. lia.
Qed.

(** ** Outcomes *)

Lemma dict_get_set_ne {A} (d : list (string * A)) k k' v : k <> k' -> dict_get (dict_set d k v) k' = dict_get d k'.
Proof. intros Hne. rewrite dict_get_set. by destruct (String.eqb_spec k' k) as [->|]. Qed.

Lemma batch_run_spec p m budget entries outcomes a f r :
  0 <= a -> f = a - Z.min a (Z.max 0 (budget - 1)) ->
  batch_run (fun _ => false) p m budget entries outcomes a f = Ok r ->
  b_attempts r = a + zlen entries
  /\ b_completed r = Z.min (b_attempts r) (Z.max 0 (budget - 1))
  /\ b_failures r = b_attempts r - b_completed r
  /\ (forall e, e ∉ entries -> dict_get (b_outcomes r) e = dict_get outcomes e)
  /\ (forall i e, entries !! i = Some e -> (forall j, (i < j)%nat -> entries !! j <> Some e) ->
      exists o, dict_get (b_outcomes r) e = Some o
        /\ io_status o = if a + Z.of_nat i + 1 <? budget then "completed" else "failed").
Proof.
  revert outcomes a f; induction entries as [|e entries IH]; intros outcomes a f Ha Hf H; simpl in H.
  { injection H as <-. simpl. unfold zlen. simpl. split_and!; try done; lia. }
  assert (exists o, io_status o = (if a + 1 <? budget then "completed" else "failed")
    /\ batch_run (fun _ => false) p m budget entries (dict_set outcomes e o) (a + 1)
         (a + 1 - Z.min (a + 1) (Z.max 0 (budget - 1))) = Ok r) as (o & Ho & Hr).
  { unfold within_budget in H. destruct (Z.ltb_spec budget 0); [done|]. simpl in H.
    destruct (Z.ltb_spec (a + 1) budget); simpl in H; eexists; (split; [|
      match type of H with batch_run _ _ _ _ _ _ _ ?k = _ => replace (a + 1 - _) with k by lia; exact H end]); done. }
  apply IH in Hr as (H1 & H2 & H3 & H4 & H5); [|lia|done]. unfold zlen in *. simpl length. split_and!; [lia..| |].
  - intros e' He'. rewrite not_elem_of_cons in He'. destruct He' as [Hne Hin]. rewrite H4 by done.
    by rewrite dict_get_set_ne.
  - intros [|i] e' He' Hlast; simpl in He'.
    + injection He' as <-. exists o. split; [|by rewrite Z.add_0_r].
      rewrite H4, dict_get_set, String.eqb_refl; [done|]. intros [j Hj]%list_elem_of_lookup.
      by apply (Hlast (S j)); [lia|].
    + destruct (H5 i e' He') as (o' & Ho' & Hs'); [intros j Hj; apply (Hlast (S j)); lia|].
      exists o'. split; [done|]. rewrite Hs'. by replace (a + 1 + Z.of_nat i + 1) with (a + Z.of_nat (S i) + 1) by lia.
Qed.

(** The entry ids of a batch. *)
Definition entry_ids (entries : list value) : list string :=
  (fun e => py_str (match e with VDict d => get_or_none d "entry_id" | _ => VNone end)) <$> entries.

(** A batch that is not cancelled ends with every entry accounted for: it fails only for a
    negative budget and a non-empty batch; otherwise attempts is the number of entries, the first
    [budget - 1] of them are completed and the rest failed, completed and failures add up to
    attempts, exactly the entries' ids have an outcome, and an id's outcome is that of its last
    entry. *)
Theorem run_batch_accounts entries p m budget :
  (is_ok (run_batch (fun _ => false) entries p m budget) = negb ((budget <? 0) && (0 <? zlen entries)))
  /\ forall r, run_batch (fun _ => false) entries p m budget = Ok r ->
     b_attempts r = zlen entries /\ b_completed r = Z.min (zlen entries) (Z.max 0 (budget - 1))
     /\ b_completed r + b_failures r = b_attempts r
     /\ (forall e, is_Some (dict_get (b_outcomes r) e) <-> e ∈ entry_ids entries)
     /\ forall i e, entry_ids entries !! i = Some e -> (forall j, (i < j)%nat -> entry_ids entries !! j <> Some e) ->
        exists o, dict_get (b_outcomes r) e = Some o
          /\ io_status o = if Z.of_nat i + 1 <? budget then "completed" else "failed".
Proof.
  unfold run_batch. fold (entry_ids entries).
  assert (zlen entries = zlen (entry_ids entries)) as -> by (unfold zlen, entry_ids; by rewrite length_fmap).
  generalize (entry_ids entries) as ids. intros ids. split.
  - destruct (Z.ltb_spec budget 0) as [Hb|Hb]; simpl.
    + destruct ids as [|e ids]; [done|]. simpl. unfold within_budget. by replace (budget <? 0) with true by lia.
    + assert (forall o a f, is_ok (batch_run (fun _ => false) p m budget ids o a f) = true) as ->; [|done].
      induction ids as [|e ids IH]; intros o a f; [done|].
      simpl. unfold within_budget. replace (budget <? 0) with false by lia. simpl. destruct (_ <? _); apply IH.
  - intros r H. apply batch_run_spec in H as (H1 & H2 & H3 & H4 & H5); [|lia|lia].
    split_and!; [lia..| |].
    + intros e. destruct (decide (e ∈ ids)) as [Hin|Hin].
      * split; [done|]. intros _. clear -Hin H5.
        assert (exists i, ids !! i = Some e /\ forall j, (i < j)%nat -> ids !! j <> Some e) as (i & Hi & Hl).
        { clear H5. induction ids as [|x ids IH]; [by apply elem_of_nil in Hin|].
          destruct (decide (e ∈ ids)) as [He|He].
          - destruct (IH He) as (i & Hi & Hl). exists (S i). split; [done|]. intros [|j] Hj; [lia|]. apply Hl. lia.
          - apply elem_of_cons in Hin as [->|]; [|done]. exists 0%nat. split; [done|].
            intros [|j] Hj; [lia|]. simpl. intros Hx. apply He. by eapply list_elem_of_lookup_2. }
        destruct (H5 i e Hi Hl) as (o & -> & _). eauto.
      * rewrite H4 by done. simpl. split; [by intros []|done].
    + intros i e Hi Hl. destruct (H5 i e Hi Hl) as (o & Ho & Hs). exists o. by rewrite Z.add_0_l in Hs.
Qed.

(** ** Witnesses *)

Lemma chunk_text_cover_witness : exists cs, chunk_text "recovered" 4 1 = Ok cs /\ Forall (fun c => 1 <= str_len c <= 4) cs.
Proof.
  destruct (chunk_text_cover "recovered" 4 1) as [H _]. destruct (H ltac:(lia)) as (cs & Hc & Hf & _). by exists cs.
Defined.

Lemma batch_items_spec_witness :
  exists bs, batch_items [VInt 1; VStr "ab"; VInt 20] 2 6 = Ok bs /\ concat bs = [VInt 1; VStr "ab"; VInt 20].
Proof.
  destruct (batch_items_spec [VInt 1; VStr "ab"; VInt 20] 2 6) as [H _]. destruct (H ltac:(lia)) as [_ Hb].
  destruct (batch_items [VInt 1; VStr "ab"; VInt 20] 2 6) as [bs|e] eqn:E; [|by vm_compute in E].
  exists bs. split; [done|]. by apply Hb.
Defined.

Lemma run_batch_accounts_witness :
  exists r, run_batch (fun _ => false) [VDict [("entry_id", VStr "a")]; VDict [("entry_id", VStr "b")]] "p" "m" 2 = Ok r
    /\ b_completed r = 1.
Proof.
  destruct (run_batch_accounts [VDict [("entry_id", VStr "a")]; VDict [("entry_id", VStr "b")]] "p" "m" 2) as [_ H].
  destruct (run_batch (fun _ => false) [VDict [("entry_id", VStr "a")]; VDict [("entry_id", VStr "b")]] "p" "m" 2)
    as [r|e] eqn:E; [|by vm_compute in E].
  exists r. split; [done|]. destruct (H r eq_refl) as (_ & Hc & _). rewrite Hc. by vm_compute.
Defined.
