(* ===== verification/ExportQueue.v ===== *)
(** * The export queue (src/worker/export_queue.py)

    [step_queue] advances every item from one snapshot of readiness, copy results and
    dismissals; [build_completion_report] and [queue_snapshot] report on the queue.  Delays are
    the whole seconds the code's floats hold; the mappings are finite maps. *)

From Stdlib Require Import ZArith Lia String Ascii.
From stdpp Require Import base list strings gmap.
From S2P Require Import Prelude PyStr Json Messages.

Local Open Scope string_scope.
Local Open Scope Z_scope.

(** ** Data *)

(** worker/export_queue.py:18-18 EXPORT_QUEUE_VERSION *)
Definition EXPORT_QUEUE_VERSION : string := "export-queue-v1".
(** worker/export_queue.py:20-22 MAX_WAIT_RETRIES: and the two delays. *)
Definition MAX_WAIT_RETRIES : Z := 5.
Definition RETRY_BASE_DELAY_SECONDS : Z := 2.
Definition RETRY_MAX_DELAY_SECONDS : Z := 60.
(** worker/export_queue.py:24-24 QUEUE_STATES *)
Definition QUEUE_STATES : list string := ["ready"; "waiting"; "exported"; "failed"; "skipped"].

(** worker/export_queue.py:27-28 ExportQueueError: and the overflow of an int too large for a float. *)
Inductive queue_error := ExportQueueError (code message : string) | QueueOverflowError.

(** worker/export_queue.py:31-38 QueueItem *)
Record QueueItem := QI {
  export_item_id : string;
  q_state : string;
  q_attempts : Z;
  q_error : option string;
  destination_path : option string;
  verified : bool;
}.

(** worker/export_queue.py:41-48 QueueStep *)
Record QueueStep := QS {
  qs_item : string;
  qs_before : string;
  qs_after : string;
  qs_attempts : Z;
  qs_delay : option Z;
  qs_error : option string;
}.

(** worker/export_queue.py:51-57 CompletionReport *)
Record CompletionReport := {
  r_ready : Z; r_exported : Z; r_waiting : Z; r_failed : Z; r_skipped : Z;
}.

(** worker/export_queue.py:59-61 total *)
Definition report_total (r : CompletionReport) : Z :=
  r_ready r + r_exported r + r_waiting r + r_failed r + r_skipped r.

(** ** Operations *)

(** worker/export_queue.py:64-68 retry_delay_seconds *)
Definition retry_delay_seconds (attempt : Z) : result queue_error Z :=
  if attempt <? 1 then Err (ExportQueueError "invalid_attempt" "attempt must be positive")
  else if 1024 <=? attempt - 1 then Err QueueOverflowError
  else Ok (Z.min (RETRY_BASE_DELAY_SECONDS * 2 ^ (attempt - 1)) RETRY_MAX_DELAY_SECONDS).

(** worker/export_queue.py:71-82 classify_readiness *)
Definition classify_readiness (content_ready dismissed : bool) : string :=
  if dismissed then "skipped" else if content_ready then "ready" else "waiting".

(** [mapping.get(id, False)]. *)
Definition flag (m : gmap string bool) (id : string) : bool := default false (m !! id).

Definition terminal (s : string) : bool := bool_decide (s ∈ ["exported"; "failed"; "skipped"]).

(** worker/export_queue.py:124-144 step_queue: the state, attempts, error and delay its branches
    choose for an item that is neither terminal nor dismissed. *)
Definition next_state (item : QueueItem) (ready copied : bool)
    : result queue_error (string * Z * option string * option Z) :=
  if String.eqb (q_state item) "waiting" then
    let attempts := q_attempts item + 1 in
    if ready then Ok ("ready", attempts, None, None)
    else if MAX_WAIT_RETRIES <? attempts then Ok ("failed", attempts, Some "extraction_timeout", None)
    else delay ← retry_delay_seconds attempts; Ok ("waiting", attempts, q_error item, Some delay)
  else if String.eqb (q_state item) "ready" then
    if copied then Ok ("exported", q_attempts item, None, None)
    else if MAX_WAIT_RETRIES <=? q_attempts item
    then Ok ("failed", q_attempts item, Some "export_failed", None)
    else let attempts := q_attempts item + 1 in
         delay ← retry_delay_seconds attempts; Ok ("ready", attempts, q_error item, Some delay)
  else Ok (q_state item, q_attempts item, q_error item, None).

(** worker/export_queue.py:105-157 step_queue: one iteration. *)
Definition step_item (readiness exporter dismissed : gmap string bool) (item : QueueItem)
    : result queue_error (QueueItem * option QueueStep) :=
  let id := export_item_id item in
  let before := q_state item in
  if terminal before then Ok (item, None)
  else if flag dismissed id then
    Ok (QI id "skipped" (q_attempts item) None None false,
        Some (QS id before "skipped" (q_attempts item) None None))
  else
    '(after, attempts, error, delay) ← next_state item (flag readiness id) (flag exporter id);
    if negb (String.eqb after before) || match delay with Some _ => true | None => false end
       || negb (bool_decide (error = q_error item))
    then Ok (QI id after attempts error (if String.eqb after "exported" then destination_path item else None)
               (String.eqb after "exported"),
             Some (QS id before after attempts delay error))
    else Ok (item, None).

(** worker/export_queue.py:85-158 step_queue *)
Definition step_queue (items : list QueueItem) (readiness exporter dismissed : gmap string bool)
    : result queue_error (list QueueItem * list QueueStep) :=
  out ← mapM_result (step_item readiness exporter dismissed) items;
  Ok (out.*1, omap snd out).

(** [counts\[state\]]. *)
Definition count_state (items : list QueueItem) (s : string) : Z :=
  zlen (filter_b (fun i => String.eqb (q_state i) s) items).

(** worker/export_queue.py:161-174 build_completion_report *)
Definition build_completion_report (items : list QueueItem) : result queue_error CompletionReport :=
  match List.find (fun i => negb (bool_decide (q_state i ∈ QUEUE_STATES))) items with
  | Some i => Err (ExportQueueError "unknown_state" ("unrecognized queue state " +:+ repr_string (q_state i)))
  | None => Ok {| r_ready := count_state items "ready"; r_exported := count_state items "exported";
                  r_waiting := count_state items "waiting"; r_failed := count_state items "failed";
                  r_skipped := count_state items "skipped" |}
  end.

Definition opt_str (o : option string) : value := match o with Some s => VStr s | None => VNone end.

(** worker/export_queue.py:177-209 queue_snapshot *)
Definition queue_snapshot (items : list QueueItem) (export_id case_id : string) (dynamic_saved_search : bool)
    : result queue_error value :=
  report ← build_completion_report items;
  Ok (VDict [("export_queue_version", VStr EXPORT_QUEUE_VERSION); ("export_id", VStr export_id);
             ("case_id", VStr case_id); ("dynamic_saved_search", VBool dynamic_saved_search);
             ("counts", VDict [("ready", VInt (r_ready report)); ("exported", VInt (r_exported report));
                               ("waiting", VInt (r_waiting report)); ("failed", VInt (r_failed report));
                               ("skipped", VInt (r_skipped report))]);
             ("items", VList ((fun i =>
                VDict [("export_item_id", VStr (export_item_id i)); ("state", VStr (q_state i));
                       ("attempts", VInt (q_attempts i)); ("error", opt_str (q_error i));
                       ("destination_path", opt_str (destination_path i)); ("verified", VBool (verified i))])
                <$> items))]).

(** The queue advanced through a sequence of snapshots. *)
Fixpoint run_queue (rounds : list (gmap string bool * gmap string bool * gmap string bool)) (items : list QueueItem)
    : result queue_error (list QueueItem) :=
  match rounds with
  | [] => Ok items
  | (readiness, exporter, dismissed) :: rounds =>
    out ← step_queue items readiness exporter dismissed; run_queue rounds out.1
  end.

(** ** One step *)

(** Items the queue works with. *)
Definition wf_item (i : QueueItem) : Prop := q_state i ∈ QUEUE_STATES /\ 0 <= q_attempts i.

(** The edges of the item state machine. *)
Inductive edge (readiness exporter dismissed : gmap string bool) (i : QueueItem) : string -> Prop :=
  | edge_terminal : terminal (q_state i) = true -> edge readiness exporter dismissed i (q_state i)
  | edge_dismissed : terminal (q_state i) = false -> flag dismissed (export_item_id i) = true ->
      edge readiness exporter dismissed i "skipped"
  | edge_extracted : q_state i = "waiting" -> flag dismissed (export_item_id i) = false ->
      flag readiness (export_item_id i) = true -> edge readiness exporter dismissed i "ready"
  | edge_wait : q_state i = "waiting" -> flag dismissed (export_item_id i) = false ->
      flag readiness (export_item_id i) = false -> q_attempts i < MAX_WAIT_RETRIES ->
      edge readiness exporter dismissed i "waiting"
  | edge_timeout : q_state i = "waiting" -> flag dismissed (export_item_id i) = false ->
      flag readiness (export_item_id i) = false -> MAX_WAIT_RETRIES <= q_attempts i ->
      edge readiness exporter dismissed i "failed"
  | edge_exported : q_state i = "ready" -> flag dismissed (export_item_id i) = false ->
      flag exporter (export_item_id i) = true -> edge readiness exporter dismissed i "exported"
  | edge_retry : q_state i = "ready" -> flag dismissed (export_item_id i) = false ->
      flag exporter (export_item_id i) = false -> q_attempts i < MAX_WAIT_RETRIES ->
      edge readiness exporter dismissed i "ready"
  | edge_failed : q_state i = "ready" -> flag dismissed (export_item_id i) = false ->
      flag exporter (export_item_id i) = false -> MAX_WAIT_RETRIES <= q_attempts i ->
      edge readiness exporter dismissed i "failed".

Lemma retry_delay_ok n : 1 <= n <= MAX_WAIT_RETRIES ->
  retry_delay_seconds n = Ok (Z.min (RETRY_BASE_DELAY_SECONDS * 2 ^ (n - 1)) RETRY_MAX_DELAY_SECONDS).
Proof.
  unfold retry_delay_seconds, MAX_WAIT_RETRIES. intros H. replace (n <? 1) with false by lia.
  by replace (1024 <=? n - 1) with false by lia.
Qed.

Lemma wf_state i : q_state i ∈ QUEUE_STATES ->
  terminal (q_state i) = true \/ q_state i = "waiting" \/ q_state i = "ready".
Proof.
  unfold QUEUE_STATES. rewrite !elem_of_cons, elem_of_nil.
  intros [->|[->|[->|[->|[->|[]]]]]]; auto; left; by vm_compute.
Qed.

(** What a step does to a well-formed item. *)
Record step_result (readiness exporter dismissed : gmap string bool) (i j : QueueItem) : Prop := {
  sr_id : export_item_id j = export_item_id i;
  sr_edge : edge readiness exporter dismissed i (q_state j);
  sr_wf : wf_item j;
  sr_terminal : terminal (q_state i) = true -> j = i;
  sr_verified : terminal (q_state i) = false -> verified j = String.eqb (q_state j) "exported";
  sr_attempts : q_attempts i <= q_attempts j <= q_attempts i + 1;
  sr_progress : terminal (q_state i) = false -> terminal (q_state j) = false -> q_attempts i < q_attempts j;
}.

(** Close a case of a step: the item it gives, the edge taken, its attempts. *)
Ltac step_case edge :=
  eexists _, _; split; [reflexivity|]; split; simpl; try done; try congruence;
  try (by apply edge; try done; lia); try (split; simpl; [elem_list|lia]); lia.

Lemma step_item_ok readiness exporter dismissed i :
  wf_item i -> exists j s, step_item readiness exporter dismissed i = Ok (j, s)
    /\ step_result readiness exporter dismissed i j.
Proof.
  intros [Hs Ha]. unfold step_item. destruct (terminal (q_state i)) eqn:Ht; [step_case edge_terminal|].
  destruct (flag dismissed (export_item_id i)) eqn:Hd; [step_case edge_dismissed|].
  apply wf_state in Hs as [?|[Hw|Hr]]; [congruence| |]; unfold next_state.
  - rewrite Hw. simpl. destruct (flag readiness _) eqn:Hf; [step_case edge_extracted|].
    destruct (Z.ltb_spec MAX_WAIT_RETRIES (q_attempts i + 1)) as [Hm|Hm]; [step_case edge_timeout|].
    rewrite retry_delay_ok by lia. simpl. step_case edge_wait.
  - rewrite Hr. simpl. destruct (flag exporter _) eqn:Hf; [step_case edge_exported|].
    destruct (Z.leb_spec MAX_WAIT_RETRIES (q_attempts i)) as [Hm|Hm]; [step_case edge_failed|].
    rewrite retry_delay_ok by lia. simpl. step_case edge_retry.
Qed.

Lemma step_queue_ok readiness exporter dismissed items :
  Forall wf_item items ->
  exists items' steps, step_queue items readiness exporter dismissed = Ok (items', steps)
    /\ Forall2 (step_result readiness exporter dismissed) items items'.
Proof.
  intros H. unfold step_queue.
  assert (exists out, mapM_result (step_item readiness exporter dismissed) items = Ok out
    /\ Forall2 (step_result readiness exporter dismissed) items out.*1) as (out & -> & Hf).
  { induction H as [|i items Hi _ (out & Ho & Hf)]; [by exists []|].
    destruct (step_item_ok readiness exporter dismissed i Hi) as (j & s & Hj & Hr).
    exists ((j, s) :: out). simpl. rewrite Hj. simpl. rewrite Ho. split; [done|]. by constructor. }
  simpl. eauto.
Qed.

(** One step of the queue follows the item state machine: on items in known states with
    non-negative attempts it never raises, keeps the items and their order, moves each along an
    edge of the machine, leaves terminal items untouched, marks exactly the newly exported items
    verified, and every item it leaves unfinished has used one more attempt. *)
Theorem export_queue_step readiness exporter dismissed items :
  Forall wf_item items ->
  exists items' steps, step_queue items readiness exporter dismissed = Ok (items', steps)
    /\ length items' = length items /\ Forall wf_item items'
    /\ forall n i j, items !! n = Some i -> items' !! n = Some j ->
       export_item_id j = export_item_id i /\ edge readiness exporter dismissed i (q_state j)
       /\ (terminal (q_state i) = true -> j = i)
       /\ (terminal (q_state i) = false -> (verified j = true <-> q_state j = "exported"))
       /\ (terminal (q_state i) = false -> terminal (q_state j) = false -> q_attempts j = q_attempts i + 1).
Proof.
  intros H. destruct (step_queue_ok readiness exporter dismissed items H) as (items' & steps & Hs & Hf).
  exists items', steps. split; [done|]. split; [symmetry; by eapply Forall2_length|].
  split. { eapply Forall2_Forall_r; [exact Hf|]. apply Forall_forall. intros i _ j Hr. apply Hr. }
  intros n i j Hi Hj. destruct (Forall2_lookup_lr _ _ _ _ _ _ Hf Hi Hj) as [Hid He Hw Ht Hv Ha Hp].
  split_and!; try done.
  - intros Hn. rewrite (Hv Hn). apply String.eqb_eq.
  - intros Hn Hn'. specialize (Hp Hn Hn'). lia.
Qed.

(** Rounds an item still needs at most. *)
Definition rank (i : QueueItem) : Z :=
  if terminal (q_state i) then 0
  else (if String.eqb (q_state i) "waiting" then 1 else 0) + Z.max 1 (MAX_WAIT_RETRIES + 1 - q_attempts i).

Lemma rank_bound i : wf_item i -> 0 <= rank i <= MAX_WAIT_RETRIES + 2.
Proof. intros [_ Ha]. unfold rank, MAX_WAIT_RETRIES. destruct (terminal _); [lia|]. destruct (String.eqb _ _); lia. Qed.

Lemma rank_zero i : wf_item i -> rank i <= 0 -> terminal (q_state i) = true.
Proof. intros [_ Ha]. unfold rank, MAX_WAIT_RETRIES. destruct (terminal _); [done|]. destruct (String.eqb _ _); lia. Qed.

Lemma rank_step readiness exporter dismissed i j :
  step_result readiness exporter dismissed i j -> rank j <= Z.max 0 (rank i - 1).
Proof.
  intros [_ He _ Ht _ Ha Hp]. unfold rank. destruct (terminal (q_state i)) eqn:Hi.
  { rewrite (Ht eq_refl), Hi. lia. }
  destruct (terminal (q_state j)) eqn:Hj; [lia|]. specialize (Hp eq_refl eq_refl).
  assert (q_attempts j = q_attempts i + 1) as -> by lia. unfold MAX_WAIT_RETRIES in *.
  revert Hj. destruct He as [Hx|Hx _|Hx _ _|Hx _ _ Hl|Hx _ _ _|Hx _ _|Hx _ _ Hl|Hx _ _ _]; intros Hj;
    try congruence; try (by vm_compute in Hj); rewrite ?Hx; simpl; unfold MAX_WAIT_RETRIES in *; lia.
Qed.

(** The report of a finished queue. *)
Lemma build_report_terminal items :
  Forall (fun i => terminal (q_state i) = true) items ->
  exists r, build_completion_report items = Ok r
    /\ report_total r = zlen items /\ r_ready r = 0 /\ r_waiting r = 0.
Proof.
  intros H. assert (forall i, i ∈ items -> q_state i ∈ ["exported"; "failed"; "skipped"]) as Hin.
  { intros i Hi. rewrite Forall_forall in H. by apply (bool_decide_eq_true_1 _ (H i Hi)). }
  unfold build_completion_report.
  destruct (List.find _ items) as [i|] eqn:E.
  { apply List.find_some in E as [Hi%list_elem_of_In Hn]. exfalso. specialize (Hin i Hi).
    apply negb_true_iff, bool_decide_eq_false in Hn. apply Hn. unfold QUEUE_STATES.
    rewrite !elem_of_cons in *. naive_solver. }
  eexists. split; [reflexivity|]. unfold report_total. simpl. clear E H. unfold count_state, zlen, filter_b.
  induction items as [|i items IH]; [done|].
  destruct IH as (H1 & H2 & H3). { intros j Hj. apply Hin. by right. }
  assert (q_state i ∈ ["exported"; "failed"; "skipped"]) as Hi by (apply Hin; left).
  rewrite !elem_of_cons, elem_of_nil in Hi. simpl.
  destruct Hi as [->|[->|[->|[]]]]; simpl; lia.
Qed.

(** The queue drains: from items in known states with non-negative attempts, after seven
    rounds, whatever the readiness, copy results and dismissals of each round, every item is
    exported, failed or skipped, no item was lost, renamed or reordered, items that were finished
    are unchanged, and the completion report accounts for all of them. *)
Theorem export_queue_drains rounds items :
  Forall wf_item items -> MAX_WAIT_RETRIES + 2 <= zlen rounds ->
  exists items' report, run_queue rounds items = Ok items'
    /\ export_item_id <$> items' = export_item_id <$> items
    /\ Forall (fun i => terminal (q_state i) = true) items'
    /\ (forall n i, items !! n = Some i -> terminal (q_state i) = true -> items' !! n = Some i)
    /\ build_completion_report items' = Ok report
    /\ report_total report = zlen items /\ r_ready report = 0 /\ r_waiting report = 0.
Proof.
  intros Hw Hn.
  assert (exists items', run_queue rounds items = Ok items'
    /\ Forall2 (fun i j => export_item_id j = export_item_id i /\ wf_item j
         /\ (terminal (q_state i) = true -> j = i) /\ rank j <= Z.max 0 (rank i - zlen rounds)) items items')
    as (items' & Hrun & Hf).
  { clear Hn. revert items Hw; induction rounds as [|[[readiness exporter] dismissed] rounds IH]; intros items Hw.
    { exists items. split; [done|]. apply Forall_Forall2_diag. eapply Forall_impl; [exact Hw|].
      intros i Hi. split_and!; try done. unfold zlen. simpl. pose proof (rank_bound i Hi). lia. }
    destruct (step_queue_ok readiness exporter dismissed items Hw) as (mid & steps & Hs & Hf).
    assert (Forall wf_item mid) as Hm.
    { eapply Forall2_Forall_r; [exact Hf|]. apply Forall_forall. intros i _ j Hr. apply Hr. }
    destruct (IH mid Hm) as (items' & Hrun & Hf'). exists items'. simpl. rewrite Hs. split; [done|].
    eapply Forall2_trans; [|exact Hf|exact Hf']. intros i j k Hij (Hid & Hwk & Ht & Hr).
    pose proof (rank_step _ _ _ _ _ Hij) as Hrk. destruct Hij as [Hid' _ _ Ht' _ _ _].
    split_and!; [congruence|done| |].
    - intros Hi. specialize (Ht' Hi). subst j. auto.
    - unfold zlen in *. simpl length. lia. }
  assert (Forall (fun i => terminal (q_state i) = true) items') as Hterm.
  { eapply Forall2_Forall_r; [exact Hf|]. eapply Forall_impl; [exact Hw|].
    intros i Hi j (_ & Hj & _ & Hr). apply rank_zero; [done|]. pose proof (rank_bound i Hi). lia. }
  destruct (build_report_terminal items' Hterm) as (report & Hb & Ht & Hr & Hwt).
  exists items', report. split_and!; try done.
  - clear -Hf. induction Hf as [|i j items items' (Hid & _) _ IH]; [done|]. by rewrite !fmap_cons, Hid, IH.
  - intros n i Hi Hti. destruct (Forall2_lookup_l _ _ _ _ _ Hf Hi) as (j & Hj & _ & _ & He & _). by rewrite Hj, He.
  - rewrite Ht. unfold zlen. by rewrite (Forall2_length _ _ _ Hf).
Qed.

(** ** Witnesses *)

Definition demo_queue : list QueueItem :=
  [QI "a" "waiting" 0 None (Some "/out/a") false; QI "b" "exported" 2 None (Some "/out/b") true].

Lemma demo_queue_wf : Forall wf_item demo_queue.
Proof. repeat constructor; simpl; try lia; elem_list. Qed.

Lemma export_queue_step_witness :
  exists items' steps, step_queue demo_queue {["a" := true]} ∅ ∅ = Ok (items', steps) /\ length items' = 2%nat.
Proof.
  destruct (export_queue_step {["a" := true]} ∅ ∅ demo_queue demo_queue_wf) as (items' & steps & Hs & Hl & _).
  exact (ex_intro _ items' (ex_intro _ steps (conj Hs Hl))).
Defined.

Lemma export_queue_drains_witness :
  exists items', run_queue (repeat (∅, ∅, ∅) 7) demo_queue = Ok items'
    /\ Forall (fun i => terminal (q_state i) = true) items'.
Proof.
  destruct (export_queue_drains (repeat (∅, ∅, ∅) 7) demo_queue demo_queue_wf) as (items' & r & Hr & _ & Ht & _).
  { vm_compute. discriminate. }
  exact (ex_intro _ items' (conj Hr Ht)).
Defined.

(** An item that waited for its content once has lost its destination path when it is exported. *)
Example waiting_drops_destination :
  fmap destination_path (ok_or (run_queue [({["a" := true]}, ∅, ∅); (∅, {["a" := true]}, ∅)] demo_queue) [])
  = [None; Some "/out/b"].
Proof. by vm_compute. Qed.
