(* ===== verification/UnionFind.v ===== *)
(** * The union-find of duplicate clustering (src/worker/duplicate_groups.py)

    The local functions [find] and [union] of [_clusters] on the dictionary [parent]: [find]
    halves the path it walks, [union] links the larger root below the smaller.  The section
    proves that [find] terminates and keeps the roots, and that [union] merges two classes. *)

From Stdlib Require Import ZArith Lia String Ascii.
From stdpp Require Import base list strings gmap relations.
From S2P Require Import Prelude PyStr.

Local Open Scope string_scope.

(** ** Operations *)

(** worker/duplicate_groups.py:226-230 find: the returned root and the halved [parent]; [None]
    where a key is missing or the fuel ran out. *)
Fixpoint uf_find (fuel : nat) (parent : gmap string string) (v : string)
    : option (gmap string string * string) :=
  match fuel with
  | O => None
  | S fuel =>
    w ← parent !! v;
    if String.eqb w v then Some (parent, v)
    else g ← parent !! w;
         uf_find fuel (<[v := g]> parent) g
  end.

(** Every step moves to a smaller key of the dictionary, so its size bounds the steps. *)
Definition find (parent : gmap string string) (v : string) : option (gmap string string * string) :=
  uf_find (S (size parent)) parent v.

(** [max] and [min] on strings. *)
Definition str_max (a b : string) : string := if str_lt a b then b else a.
Definition str_min (a b : string) : string := if str_lt b a then b else a.

(** worker/duplicate_groups.py:232-236 union *)
Definition union_roots (parent : gmap string string) (left right : string) : option (gmap string string) :=
  '(parent, left_root) ← find parent left;
  '(parent, right_root) ← find parent right;
  Some (if String.eqb left_root right_root then parent
        else <[str_max left_root right_root := str_min left_root right_root]> parent).

(** ** Invariant and roots *)

Definition below (a b : string) : Prop := str_le a b = true.

(** Parents are keys, never larger than their child. *)
Definition uf_ok (p : gmap string string) : Prop :=
  forall v w, p !! v = Some w -> below w v /\ is_Some (p !! w).

Inductive root_of (p : gmap string string) : string -> string -> Prop :=
  | root_self v : p !! v = Some v -> root_of p v v
  | root_up v w r : p !! v = Some w -> w <> v -> root_of p w r -> root_of p v r.

Lemma root_is_root p v r : root_of p v r -> p !! r = Some r.
Proof. by induction 1. Qed.

Lemma root_unique p v r s : root_of p v r -> root_of p v s -> r = s.
Proof.
  intros Hr. revert s. induction Hr as [v Hv|v w r Hv Hne Hr IH]; intros s Hs; inversion Hs; subst; try congruence.
  apply IH. congruence.
Qed.

(** The number of keys strictly below a string bounds the walk from it. *)
Definition depth (p : gmap string string) (v : string) : nat :=
  size (filter (fun k => str_lt k v = true) (dom p)).

Lemma lt_below a b : str_lt a b = true <-> below a b /\ a <> b.
Proof. apply str_lt_iff. Qed.

Lemma lt_trans_le a b c : str_lt a b = true -> below b c -> str_lt a c = true.
Proof.
  rewrite !lt_below. unfold below. intros [H1 H2] H3. split; [by eapply str_le_trans|].
  intros ->. apply H2. by apply str_le_antisym.
Qed.

Lemma depth_lt p v w : p !! w <> None -> str_lt w v = true -> (depth p w < depth p v)%nat.
Proof.
  intros Hw Hlt. apply subset_size. split.
  - intros k. rewrite !elem_of_filter. intros [Hk Hd]. split; [|done].
    eapply lt_trans_le; [exact Hk|]. by apply lt_below in Hlt as [? _].
  - intros Hs. specialize (Hs w). rewrite !elem_of_filter in Hs.
    assert (str_lt w w = true) as Hb; [|by rewrite str_lt_irrefl in Hb].
    apply Hs. split; [done|]. apply elem_of_dom. by destruct (p !! w) eqn:E.
Qed.

Lemma depth_bound p v : (depth p v <= size p)%nat.
Proof.
  unfold depth. rewrite <- size_dom. apply subseteq_size. intros k. rewrite elem_of_filter. tauto.
Qed.

Lemma uf_total p v : uf_ok p -> is_Some (p !! v) -> exists r, root_of p v r.
Proof.
  intros Hok. remember (depth p v) as n eqn:Hn. revert v Hn.
  induction n as [n IH] using lt_wf_ind. intros v -> [w Hw].
  destruct (decide (w = v)) as [->|Hne]; [exists v; by constructor|].
  destruct (Hok v w Hw) as [Hb Hs]. destruct (IH (depth p w)) with w as [r Hr]; try done.
  - apply depth_lt; [by intros E; rewrite E in Hs; destruct Hs|]. by apply lt_below.
  - exists r. by eapply root_up.
Qed.

Lemma root_key p v r : root_of p v r -> is_Some (p !! v).
Proof. inversion 1; eauto. Qed.

(** ** Path halving *)

Section halving.
Context (p : gmap string string) (v w g : string).
Hypothesis (Hok : uf_ok p) (Hv : p !! v = Some w) (Hne : w <> v) (Hw : p !! w = Some g).

Lemma halve_lt : str_lt g v = true.
Proof using Hok Hv Hne Hw.
  destruct (Hok v w Hv) as [H1 _], (Hok w g Hw) as [H2 _]. apply lt_below.
  unfold below in *. split; [by eapply str_le_trans|]. intros ->. apply Hne. by apply str_le_antisym.
Qed.

Lemma halve_ok : uf_ok (<[v := g]> p).
Proof using Hok Hv Hne Hw.
  intros k x. pose proof halve_lt as [Hb _]%lt_below. destruct (Hok w g Hw) as [_ Hg].
  destruct (decide (k = v)) as [->|Hk].
  - rewrite lookup_insert. destruct (decide _); [|done]. intros [= <-]. split; [done|].
    destruct (decide (g = v)) as [->|]; [by rewrite lookup_insert; case_decide; eauto|by rewrite lookup_insert_ne].
  - rewrite lookup_insert_ne by done. intros Hx. destruct (Hok k x Hx) as [? Hs]. split; [done|].
    destruct (decide (x = v)) as [->|]; [by rewrite lookup_insert; case_decide; eauto|by rewrite lookup_insert_ne].
Qed.

Lemma halve_dom : dom (<[v := g]> p) = dom p.
Proof using Hv. clear Hok Hne Hw. rewrite dom_insert_L. apply elem_of_dom_2 in Hv. set_solver. Qed.

Lemma halve_roots_back u s : root_of (<[v := g]> p) u s -> root_of p u s.
Proof using Hok Hv Hne Hw.
  pose proof halve_lt as [_ Hgv]%lt_below.
  induction 1 as [u Hu|u x s Hu Hx Hs IH]; destruct (decide (u = v)) as [->|Huv].
  - rewrite lookup_insert in Hu. case_decide; [|done]. injection Hu as ->. done.
  - rewrite lookup_insert_ne in Hu by done. by constructor.
  - rewrite lookup_insert in Hu. case_decide; [|done]. injection Hu as <-.
    eapply root_up; [exact Hv|done|]. destruct (decide (g = w)) as [->|]; [done|]. by eapply root_up.
  - rewrite lookup_insert_ne in Hu by done. by eapply root_up.
Qed.

Lemma halve_roots u s : root_of (<[v := g]> p) u s <-> root_of p u s.
Proof using Hok Hv Hne Hw.
  split; [apply halve_roots_back|]. intros Hs.
  destruct (uf_total (<[v := g]> p) u) as [s' Hs'].
  - apply halve_ok.
  - apply elem_of_dom. rewrite halve_dom. apply elem_of_dom. by eapply root_key.
  - assert (s = s') as ->; [|done]. eapply root_unique; [exact Hs|]. by apply halve_roots_back.
Qed.
End halving.

(** ** [find] *)

(** [p'] has the keys and the roots of [p]. *)
Definition same_classes (p p' : gmap string string) : Prop :=
  uf_ok p' /\ dom p' = dom p /\ forall u s, root_of p' u s <-> root_of p u s.

Lemma uf_find_ok fuel p v :
  uf_ok p -> is_Some (p !! v) -> (depth p v < fuel)%nat ->
  exists p' r, uf_find fuel p v = Some (p', r) /\ root_of p v r /\ same_classes p p'.
Proof.
  revert p v; induction fuel as [|fuel IH]; intros p v Hok [w Hw] Hd; [lia|].
  simpl. rewrite Hw. simpl. destruct (String.eqb_spec w v) as [->|Hne].
  { exists p, v. split; [done|]. split; [by constructor|]. by split. }
  destruct (Hok v w Hw) as [_ [g Hg]]. rewrite Hg. simpl.
  pose proof (halve_lt p v w g Hok Hw Hne Hg) as Hlt.
  destruct (Hok w g Hg) as [_ Hgs].
  assert (is_Some (<[v := g]> p !! g)) as Hgk.
  { apply elem_of_dom. rewrite (halve_dom p v w g Hw). by apply elem_of_dom. }
  destruct (IH (<[v := g]> p) g) as (p' & r & Hf & Hr & Hok' & Hd' & Hr'); try done.
  - by eapply halve_ok.
  - unfold depth in *. rewrite (halve_dom p v w g Hw).
    pose proof (depth_lt p v g) as Hdl. unfold depth in Hdl.
    assert (p !! g <> None) as Hn by (by intros E; rewrite E in Hgs; destruct Hgs). specialize (Hdl Hn Hlt). lia.
  - exists p', r. split; [done|]. pose proof (halve_roots p v w g Hok Hw Hne Hg) as Hh.
    apply Hh in Hr. split.
    + eapply root_up; [exact Hw|done|]. destruct (decide (g = w)) as [->|]; [done|]. by eapply root_up.
    + split; [done|]. split; [by rewrite Hd', (halve_dom p v w g Hw)|]. intros u s. by rewrite Hr', Hh.
Qed.

Lemma find_ok p v :
  uf_ok p -> is_Some (p !! v) -> exists p' r, find p v = Some (p', r) /\ root_of p v r /\ same_classes p p'.
Proof. intros Hok Hv. apply uf_find_ok; try done. pose proof (depth_bound p v). lia. Qed.

(** ** [union] *)

(** Two keys are in one class when they have the same root. *)
Definition same_root (p : gmap string string) (a b : string) : Prop :=
  exists r, root_of p a r /\ root_of p b r.

Lemma same_root_sym p a b : same_root p a b -> same_root p b a.
Proof. intros (r & ? & ?); by exists r. Qed.

Lemma same_root_trans p a b c : same_root p a b -> same_root p b c -> same_root p a c.
Proof. intros (r & Ha & Hb) (s & Hb' & Hc). rewrite (root_unique _ _ _ _ Hb' Hb) in Hc. by exists r. Qed.

Lemma str_min_max a b : a <> b ->
  str_lt (str_min a b) (str_max a b) = true /\
  ((str_min a b = a /\ str_max a b = b) \/ (str_min a b = b /\ str_max a b = a)).
Proof.
  intros Hne. unfold str_min, str_max. destruct (str_lt a b) eqn:Hab, (str_lt b a) eqn:Hba; auto.
  - exfalso. apply lt_below in Hab as [H1 _], Hba as [H2 _]. apply Hne. by apply str_le_antisym.
  - exfalso. destruct (str_le_total a b) as [H|H].
    + assert (str_lt a b = true); [apply lt_below; by split|congruence].
    + assert (str_lt b a = true); [apply lt_below; split; [done|congruence]|congruence].
Qed.

Section link.
Context (p : gmap string string) (lo hi : string).
Hypothesis (Hok : uf_ok p) (Hlo : p !! lo = Some lo) (Hhi : p !! hi = Some hi) (Hlt : str_lt lo hi = true).

Lemma link_ok : uf_ok (<[hi := lo]> p).
Proof using Hok Hlo Hhi Hlt.
  apply lt_below in Hlt as [Hb Hne]. intros k x. destruct (decide (k = hi)) as [->|Hk].
  - rewrite lookup_insert. case_decide; [|done]. intros [= <-]. split; [done|]. rewrite lookup_insert_ne by done. eauto.
  - rewrite lookup_insert_ne by done. intros Hx. destruct (Hok k x Hx) as [? Hs]. split; [done|].
    destruct (decide (x = hi)) as [->|]; [by rewrite lookup_insert; case_decide; eauto|by rewrite lookup_insert_ne].
Qed.

Lemma link_dom : dom (<[hi := lo]> p) = dom p.
Proof using Hhi. clear Hok Hlo Hlt. rewrite dom_insert_L. apply elem_of_dom_2 in Hhi. set_solver. Qed.

Lemma link_roots u r : root_of p u r -> root_of (<[hi := lo]> p) u (if decide (r = hi) then lo else r).
Proof using Hok Hlo Hhi Hlt.
  apply lt_below in Hlt as [Hb Hne].
  assert (root_of (<[hi := lo]> p) lo lo) as Hl by (constructor; by rewrite lookup_insert_ne).
  induction 1 as [u Hu|u x r Hu Hx Hr IH].
  - case_decide as Hd; [|constructor; by rewrite lookup_insert_ne].
    subst u. eapply root_up; [rewrite lookup_insert; by case_decide|done|done].
  - eapply root_up; [|exact Hx|exact IH]. rewrite lookup_insert_ne; [done|]. intros <-. congruence.
Qed.

(** Linking two roots merges their classes and no others. *)
Lemma link_same a b :
  is_Some (p !! a) -> is_Some (p !! b) ->
  same_root (<[hi := lo]> p) a b <->
  same_root p a b \/ (root_of p a lo /\ root_of p b hi) \/ (root_of p a hi /\ root_of p b lo).
Proof using Hok Hlo Hhi Hlt.
  intros Ha Hb. destruct (uf_total p a Hok Ha) as [r Hr], (uf_total p b Hok Hb) as [s Hs].
  pose proof (link_roots _ _ Hr) as Hr'. pose proof (link_roots _ _ Hs) as Hs'.
  apply lt_below in Hlt as [_ Hne]. split.
  - intros (x & Hxa & Hxb). rewrite (root_unique _ _ _ _ Hxa Hr') in Hxb.
    pose proof (root_unique _ _ _ _ Hxb Hs') as He. repeat case_decide; subst; try (left; by eexists); auto.
  - intros [(x & Hxa & Hxb)|[[Hxa Hxb]|[Hxa Hxb]]];
      rewrite (root_unique _ _ _ _ Hxa Hr) in *; rewrite (root_unique _ _ _ _ Hxb Hs) in *;
      eexists; split; eauto; repeat case_decide; subst; try congruence; done.
Qed.
End link.

Lemma same_classes_root p p' a b : same_classes p p' -> same_root p' a b <-> same_root p a b.
Proof. intros (_ & _ & H). unfold same_root. setoid_rewrite H. done. Qed.

Lemma same_classes_trans p q r : same_classes p q -> same_classes q r -> same_classes p r.
Proof.
  intros (_ & Hd & H) (Hok & Hd' & H'). split; [done|]. split; [congruence|]. intros u s. by rewrite H', H.
Qed.

(** [union] joins the classes of its arguments and leaves the others. *)
Lemma union_ok p a b :
  uf_ok p -> is_Some (p !! a) -> is_Some (p !! b) ->
  exists p', union_roots p a b = Some p' /\ uf_ok p' /\ dom p' = dom p /\
  forall x y, is_Some (p !! x) -> is_Some (p !! y) ->
    same_root p' x y <-> same_root p x y \/ (same_root p x a /\ same_root p b y) \/ (same_root p x b /\ same_root p a y).
Proof.
  intros Hok Ha Hb. unfold union_roots.
  destruct (find_ok p a Hok Ha) as (p1 & ra & -> & Hra & H1). simpl.
  assert (is_Some (p1 !! b)) as Hb1.
  { destruct H1 as (_ & Hd & _). apply elem_of_dom. rewrite Hd. by apply elem_of_dom. }
  destruct (find_ok p1 b (proj1 H1) Hb1) as (p2 & rb & -> & Hrb & H2). simpl.
  apply (proj2 (proj2 H1)) in Hrb. pose proof (same_classes_trans _ _ _ H1 H2) as H12.
  eexists. split; [reflexivity|]. destruct H12 as (Hok2 & Hd2 & Hr2).
  assert (forall x r c, root_of p c r -> root_of p2 x r <-> same_root p x c) as Hroot.
  { intros x r c Hc. rewrite Hr2. split; [intros Hx; by exists r|]. intros (s & Hx & Hs).
    by rewrite (root_unique _ _ _ _ Hc Hs). }
  assert (forall x y, same_root p2 x y <-> same_root p x y) as Hsame.
  { intros x y. unfold same_root. by setoid_rewrite Hr2. }
  destruct (String.eqb_spec ra rb) as [<-|Hne].
  - split; [done|]. split; [done|]. intros x y _ _. rewrite Hsame.
    assert (same_root p a b) as Hab by (by exists ra).
    split; [auto|]. intros [H|[[Hx Hy]|[Hx Hy]]]; [done|..]; eapply same_root_trans; try exact Hx;
      eapply same_root_trans; try exact Hy; [done|by apply same_root_sym].
  - destruct (str_min_max ra rb Hne) as [Hlt Hmm].
    assert (p2 !! ra = Some ra /\ p2 !! rb = Some rb) as [Hpa Hpb].
    { split; eapply root_is_root; apply Hr2; done. }
    assert (p2 !! str_min ra rb = Some (str_min ra rb) /\ p2 !! str_max ra rb = Some (str_max ra rb)) as [Hlo Hhi].
    { by destruct Hmm as [[-> ->]|[-> ->]]. }
    split; [by apply link_ok|]. split; [by rewrite (link_dom _ _ _ Hhi)|]. intros x y Hx Hy.
    rewrite link_same; try done; try (apply elem_of_dom; rewrite Hd2; by apply elem_of_dom).
    rewrite Hsame. pose proof (fun x => Hroot x _ _ Hra) as Hxa. pose proof (fun x => Hroot x _ _ Hrb) as Hxb.
    pose proof (same_root_sym p) as Hsym.
    destruct Hmm as [[-> ->]|[-> ->]]; rewrite !Hxa, !Hxb; naive_solver.
Qed.
