(* ===== verification/DuplicateGroups.v ===== *)
(** * Duplicate grouping of recovered findings (src/worker/duplicate_groups.py)

    Exact groups by content hash and size, image groups by the Hamming distance of perceptual
    hashes, video groups by matching key frames; the latter two are the classes of [UnionFind]
    over the pairs a predicate accepts.  A candidate's hash is looked up among the candidates
    that have one, so the [KeyError] of [_lookup] is out of reach and has no counterpart. *)

From Stdlib Require Import ZArith Lia String Ascii.
From stdpp Require Import base list strings gmap sorting relations.
From S2P Require Import Prelude PyStr Json Sha256 Sql Messages UnionFind.

Local Open Scope string_scope.
Local Open Scope Z_scope.

(** ** Data *)

(** worker/duplicate_groups.py:10-10 PARSER_VERSION *)
Definition PARSER_VERSION : string := "duplicate-groups-v1".

(** worker/duplicate_groups.py:13-18 DuplicateGroupingConfig *)
Record DuplicateGroupingConfig := {
  image_hamming_threshold : Z;
  video_frame_hamming_threshold : Z;
  video_min_matching_frames : Z;
  max_video_keyframes : Z;
}.
Definition default_grouping : DuplicateGroupingConfig :=
  {| image_hamming_threshold := 8; video_frame_hamming_threshold := 10;
     video_min_matching_frames := 2; max_video_keyframes := 32 |}.

(** worker/duplicate_groups.py:21-31 DuplicateCandidate *)
Record DuplicateCandidate := {
  finding_id : string;
  content_sha256 : option string;
  dc_size : option Z;
  source_paths : list string;
  media_kind : string;
  preview_uri : option string;
  perceptual_hash : option string;
  video_keyframe_hashes : list string;
  content_id : option string;
}.

(** worker/duplicate_groups.py:34-42 DuplicateMember *)
Record DuplicateMember := {
  dm_finding : string;
  dm_content : option string;
  dm_paths : list string;
  dm_sha256 : option string;
  dm_size : option Z;
  distance : option Z;
  matching_frames : option Z;
}.

(** worker/duplicate_groups.py:45-55 DuplicateGroup *)
Record DuplicateGroup := {
  group_id : string;
  group_kind : string;
  algorithm : string;
  threshold : option Z;
  canonical_finding_id : string;
  canonical_preview_uri : option string;
  members : list DuplicateMember;
  dg_warnings : list string;
}.

(** ** Helpers *)

(** worker/duplicate_groups.py:253-267 _member *)
Definition member (item : DuplicateCandidate) (dist frames : option Z) : DuplicateMember :=
  {| dm_finding := finding_id item; dm_content := content_id item; dm_paths := source_paths item;
     dm_sha256 := content_sha256 item; dm_size := dc_size item; distance := dist; matching_frames := frames |}.

(** worker/duplicate_groups.py:294-298 _preview_uri *)
Definition member_preview (id : string) (ms : list DuplicateMember) : option string :=
  match List.find (fun m => String.eqb (dm_finding m) id && match dm_paths m with [] => false | _ => true end) ms with
  | Some m => head (dm_paths m)
  | None => None
  end.

(** [min(paths) if paths else ""]. *)
Definition min_path (paths : list string) : string :=
  match paths with [] => "" | x :: l => foldl (fun a b => if str_lt b a then b else a) x l end.

(** The sort key [(no preview, -(size or 0), min path, finding id)] and its order. *)
Record canon_key := CK { k_none : bool; k_size : Z; k_path : string; k_id : string }.
Definition key_before (a b : canon_key) : bool :=
  if Bool.eqb (k_none a) (k_none b) then
    if k_size a =? k_size b then
      if String.eqb (k_path a) (k_path b) then str_le (k_id a) (k_id b) else str_lt (k_path a) (k_path b)
    else k_size a <? k_size b
  else k_none b.

Definition size_or_zero (s : option Z) : Z := default 0 s.

(** worker/duplicate_groups.py:270-279 _canonical_member: the first of [sorted(...)]. *)
Definition member_key (ms : list DuplicateMember) (m : DuplicateMember) : canon_key :=
  CK (match member_preview (dm_finding m) ms with None => true | _ => false end)
     (- size_or_zero (dm_size m)) (min_path (dm_paths m)) (dm_finding m).
Definition canonical_member (ms : list DuplicateMember) : option DuplicateMember :=
  first_by (fun a b => key_before (member_key ms a) (member_key ms b)) ms.

(** worker/duplicate_groups.py:282-291 _canonical *)
Definition candidate_key (c : DuplicateCandidate) : canon_key :=
  CK (match preview_uri c with None => true | _ => false end)
     (- size_or_zero (dc_size c)) (min_path (source_paths c)) (finding_id c).
Definition canonical (cs : list DuplicateCandidate) : option DuplicateCandidate :=
  first_by (fun a b => key_before (candidate_key a) (candidate_key b)) cs.

(** worker/duplicate_groups.py:339-347 _hex_hash *)
Definition hex_hash (v : string) : option Z :=
  let s := lower (strip v) in
  if String.eqb s "" || negb (str_len s mod 2 =? 0) || existsb (fun c => negb (is_hex_lower c)) (chars s)
  then None
  else Some (foldl (fun n c => 16 * n + default 0 (hex_val c)) 0 (chars s)).

(** [int.bit_count]. *)
Fixpoint pos_bits (p : positive) : Z :=
  match p with xI p => 1 + pos_bits p | xO p => pos_bits p | xH => 1 end.
Definition bit_count (z : Z) : Z := match z with Z0 => 0 | Zpos p | Zneg p => pos_bits p end.

(** worker/duplicate_groups.py:350-351 _hamming *)
Definition hamming (a b : Z) : Z := bit_count (Z.lxor a b).

(** worker/duplicate_groups.py:354-355 _valid_sha256 *)
Definition valid_sha256 (v : string) : bool :=
  (str_len v =? 64) && forallb is_hex_lower (chars (lower v)).

(** The inner loop of [_matching_frames]: the first unused index that is close enough. *)
Fixpoint match_index (lv threshold : Z) (used : list nat) (index : nat) (frames : list Z) : option nat :=
  match frames with
  | [] => None
  | rv :: frames =>
    if negb (bool_decide (index ∈ used)) && (hamming lv rv <=? threshold) then Some index
    else match_index lv threshold used (S index) frames
  end.

(** worker/duplicate_groups.py:325-336 _matching_frames *)
Definition count_matching (ls rs : list Z) (threshold : Z) : Z :=
  zlen (foldl (fun used l => match match_index l threshold used 0 rs with
                             | Some i => i :: used
                             | None => used
                             end) [] ls).

(** worker/duplicate_groups.py:301-314 _lookup: and [_video_lookup]. *)
Fixpoint lookup_value {V} (dflt : V) (item : DuplicateCandidate) (values : list (DuplicateCandidate * V)) : V :=
  match values with
  | [] => dflt
  | (c, v) :: values => if String.eqb (finding_id c) (finding_id item) then v else lookup_value dflt item values
  end.

(** [sorted(..., key=lambda item: item.finding_id)]. *)
Definition sorted_candidates (l : list DuplicateCandidate) : list DuplicateCandidate :=
  order_by_cols (fun c => (finding_id c, "")) l.
Definition sorted_members (l : list DuplicateMember) : list DuplicateMember :=
  order_by_cols (fun m => (dm_finding m, "")) l.

(** worker/duplicate_groups.py:198-216 _group: [None] where [sorted(members)\[0\]] has no element. *)
Definition group (kind alg : string) (thr : option Z) (ms : list DuplicateMember) (warnings : list string)
    : option DuplicateGroup :=
  canon ← canonical_member ms;
  let raw_id := join (of_chars ["000"%char]) (kind :: alg :: (dm_finding <$> sorted_members ms)) in
  Some {| group_id := "dup-" +:+ str_take 24 (sha256_hex (utf8 raw_id));
          group_kind := kind; algorithm := alg; threshold := thr;
          canonical_finding_id := dm_finding canon;
          canonical_preview_uri := member_preview (dm_finding canon) ms;
          members := sorted_members ms; dg_warnings := warnings |}.

(** ** Clusters *)

(** The pairs the two loops of [_clusters] visit, in order. *)
Fixpoint pairs {A} (l : list A) : list (A * A) :=
  match l with [] => [] | x :: l => ((pair x <$> l) ++ pairs l)%list end.

(** A loop whose body may fail. *)
Fixpoint fold_option {A B} (f : B -> A -> option B) (l : list A) (b : B) : option B :=
  match l with [] => Some b | x :: l => b ← f b x; fold_option f l b end.

(** [grouped\[key\].append(item)] on a [defaultdict(list)]. *)
Definition group_append {A} (d : list (string * list A)) (key : string) (x : A) : list (string * list A) :=
  dict_set d key (default [] (dict_get d key) ++ [x])%list.

(** worker/duplicate_groups.py:219-250 _clusters *)
Definition clusters (items : list DuplicateCandidate) (predicate : DuplicateCandidate -> DuplicateCandidate -> bool)
    : option (list (list DuplicateCandidate)) :=
  if zlen items <? 2 then Some [] else
  let parent : gmap string string := foldl (fun p c => <[finding_id c := finding_id c]> p) ∅ items in
  parent ← fold_option (fun p lr => if predicate lr.1 lr.2 : bool
                                    then union_roots p (finding_id lr.1) (finding_id lr.2) else Some p)
             (pairs items) parent;
  '(_, grouped) ← fold_option (fun st item =>
      '(parent, root) ← find st.1 (finding_id item);
      Some (parent, group_append st.2 root item)) items (parent, []);
  Some (sorted_candidates <$> filter_b (fun g => 1 <? zlen g) grouped.*2).

(** ** Groups *)

(** worker/duplicate_groups.py:88-95 _exact_groups: the first loop, [by_hash] and the warnings. *)
Definition exact_index (items : list DuplicateCandidate) : list (string * list DuplicateCandidate) * list string :=
  foldl (fun acc item =>
    match content_sha256 item with
    | None => acc
    | Some h => if valid_sha256 h then (group_append acc.1 h item, acc.2)
                else (acc.1, acc.2 ++ ["invalid_content_sha256:" +:+ finding_id item])%list
    end) ([], []) items.
(** worker/duplicate_groups.py:85-114 _exact_groups: the groups and the new warnings. *)
Definition exact_groups (items : list DuplicateCandidate) : option (list DuplicateGroup * list string) :=
  let '(by_hash, warnings) := exact_index items in
  fold_option (fun acc kv =>
    let '(digest, ms) := kv in
    if zlen ms <? 2 then Some acc
    else if negb (zlen (dedup (dc_size <$> ms)) =? 1)
    then Some (acc.1, acc.2 ++ ["sha256_size_mismatch:" +:+ digest])%list
    else g ← group "exact-sha256" "sha256-size-v1" None ((fun c => member c None None) <$> ms) [];
         Some (acc.1 ++ [g], acc.2)%list) (sort_keys by_hash) ([], warnings).

(** The candidates with a usable value, and a warning for each with an unusable one. *)
Fixpoint collect {V} (f : DuplicateCandidate -> option (option V)) (warning : string) (items : list DuplicateCandidate)
    : list (DuplicateCandidate * V) * list string :=
  match items with
  | [] => ([], [])
  | item :: items =>
    let '(vs, ws) := collect f warning items in
    match f item with
    | None => (vs, ws)
    | Some None => (vs, (warning +:+ finding_id item) :: ws)
    | Some (Some v) => ((item, v) :: vs, ws)
    end
  end.

(** worker/duplicate_groups.py:117-148 _image_groups *)
Definition image_groups (items : list DuplicateCandidate) (config : DuplicateGroupingConfig)
    : option (list DuplicateGroup * list string) :=
  let '(image_items, warnings) := collect (fun item =>
      if bool_decide (media_kind item ∈ ["image"; "photo"])
      then match perceptual_hash item with Some h => Some (hex_hash h) | None => None end
      else None) "invalid_perceptual_hash:" items in
  let value item := lookup_value 0 item image_items in
  cs ← clusters image_items.*1 (fun l r => hamming (value l) (value r) <=? image_hamming_threshold config);
  groups ← mapM (fun cluster =>
      canon ← canonical cluster;
      group "image-perceptual" "hex-hamming-v1" (Some (image_hamming_threshold config))
        ((fun item => member item (Some (hamming (value item) (value canon))) None) <$> cluster) []) cs;
  Some (groups, warnings).

(** [l\[:n\]]. *)
Definition py_take {A} (n : Z) (l : list A) : list A := take (Z.to_nat (if n <? 0 then zlen l + n else n)) l.

(** worker/duplicate_groups.py:151-195 _video_groups *)
Definition video_groups (items : list DuplicateCandidate) (config : DuplicateGroupingConfig)
    : option (list DuplicateGroup * list string) :=
  let '(video_items, warnings) := collect (fun item =>
      if negb (String.eqb (media_kind item) "video") || match video_keyframe_hashes item with [] => true | _ => false end
      then None
      else Some (mapM hex_hash (py_take (max_video_keyframes config) (video_keyframe_hashes item))))
      "invalid_video_keyframe_hash:" items in
  let value item := lookup_value [] item video_items in
  let frames l r := count_matching (value l) (value r) (video_frame_hamming_threshold config) in
  cs ← clusters video_items.*1 (fun l r => video_min_matching_frames config <=? frames l r);
  groups ← mapM (fun cluster =>
      canon ← canonical cluster;
      group "video-keyframe" "bounded-keyframe-hamming-v1" (Some (video_frame_hamming_threshold config))
        ((fun item => member item None (Some (frames item canon))) <$> cluster)
        ["video_min_matching_frames:" +:+ str_of_Z (video_min_matching_frames config)]) cs;
  Some (groups, warnings).

(** worker/duplicate_groups.py:65-82 build_duplicate_groups: groups and warnings; [None] would be
    an exception. *)
Definition build_duplicate_groups (candidates : list DuplicateCandidate) (config : DuplicateGroupingConfig)
    : option (list DuplicateGroup * list string) :=
  let items := sorted_candidates candidates in
  '(exact, w1) ← exact_groups items;
  '(images, w2) ← image_groups items config;
  '(videos, w3) ← video_groups items config;
  Some (order_by_cols (fun g => (group_kind g, group_id g)) (exact ++ images ++ videos)%list,
        dedup (w1 ++ w2 ++ w3)%list).

(** ** Grouping by a key *)

(** The values of a key, in order. *)
Definition matching {A} (k : string) (l : list (string * A)) : list A :=
  (filter_b (fun kx => String.eqb k kx.1) l).*2.

Definition group_all {A} (l : list (string * A)) (d : list (string * list A)) : list (string * list A) :=
  foldl (fun d kx => group_append d kx.1 kx.2) d l.

Lemma dict_set_keys {A} (d : list (string * A)) k v : NoDup d.*1 -> NoDup (dict_set d k v).*1.
Proof.
  intros Hnd. destruct (dict_get d k) as [w|] eqn:E.
  - enough ((dict_set d k v).*1 = d.*1) as H by (by rewrite H). clear Hnd.
    induction d as [|[k' v'] d IH]; simpl in *; [done|]. destruct (String.eqb_spec k k'); [done|].
    rewrite fmap_cons. by rewrite IH.
  - apply dict_get_None in E. rewrite dict_set_fresh by done. rewrite fmap_app. apply NoDup_app.
    split; [done|]. split; [|by apply NoDup_singleton]. intros x Hx ->%list_elem_of_singleton. done.
Qed.

Lemma matching_snoc {A} k k0 (x : A) l :
  matching k (l ++ [(k0, x)]) = (matching k l ++ if String.eqb k k0 then [x] else [])%list.
Proof.
  unfold matching. rewrite filter_b_app, fmap_app. f_equal. unfold filter_b. simpl. by destruct (String.eqb k k0).
Qed.

Lemma group_all_spec {A} (l : list (string * A)) :
  NoDup (group_all l []).*1
  /\ forall k, dict_get (group_all l []) k = match matching k l with [] => None | g => Some g end.
Proof.
  induction l as [|[k0 x] l [IH1 IH2]] using rev_ind; [by split; [constructor|]|].
  unfold group_all in *. rewrite foldl_app. simpl. unfold group_append at 1 3.
  split; [by apply dict_set_keys|]. intros k. rewrite dict_get_set, !IH2, matching_snoc.
  destruct (String.eqb_spec k k0) as [->|Hne]; [|by rewrite app_nil_r].
  by destruct (matching k0 l).
Qed.

Lemma elem_of_group_all {A} (l : list (string * A)) k g :
  (k, g) ∈ group_all l [] <-> g = matching k l /\ g <> [].
Proof.
  destruct (group_all_spec l) as [Hnd Hg]. rewrite <- dict_get_elem by done. rewrite Hg.
  destruct (matching k l); naive_solver.
Qed.

Lemma elem_of_matching {A} k (l : list (string * A)) x : x ∈ matching k l <-> (k, x) ∈ l.
Proof.
  unfold matching. rewrite list_elem_of_fmap. split.
  - intros ([k' y] & -> & [Hin He]%elem_of_filter_b). simpl in *. by apply String.eqb_eq in He as ->.
  - intros H. exists (k, x). split; [done|]. apply elem_of_filter_b. split; [done|]. by apply String.eqb_eq.
Qed.

(** ** The classes of the unions *)

Lemma rtsc_bind {A} (R S : relation A) x y :
  (forall a b, R a b -> rtsc S a b) -> rtsc R x y -> rtsc S x y.
Proof.
  intros H. induction 1 as [x|x y z Hxy _ IH]; [done|]. transitivity y; [|done].
  destruct Hxy as [|]; [auto|symmetry; auto].
Qed.

(** Links among the finding ids of a list of pairs. *)
Definition id_link (predicate : DuplicateCandidate -> DuplicateCandidate -> bool)
    (ps : list (DuplicateCandidate * DuplicateCandidate)) (x y : string) : Prop :=
  exists l r, (l, r) ∈ ps /\ predicate l r = true /\ x = finding_id l /\ y = finding_id r.

Definition union_step (predicate : DuplicateCandidate -> DuplicateCandidate -> bool) (p : gmap string string)
    (lr : DuplicateCandidate * DuplicateCandidate) : option (gmap string string) :=
  if predicate lr.1 lr.2 then union_roots p (finding_id lr.1) (finding_id lr.2) else Some p.

Lemma same_root_dom p x y : same_root p x y -> x ∈ dom p /\ y ∈ dom p.
Proof. intros (r & Hx & Hy). split; apply elem_of_dom; by eapply root_key. Qed.

Lemma same_root_refl p x : uf_ok p -> x ∈ dom p -> same_root p x x.
Proof. intros Hok [w Hx]%elem_of_dom. destruct (uf_total p x Hok) as [r Hr]; [eauto|]. by exists r. Qed.

Lemma union_fold_ok predicate ps p :
  uf_ok p -> (forall l r, (l, r) ∈ ps -> finding_id l ∈ dom p /\ finding_id r ∈ dom p) ->
  exists p', fold_option (union_step predicate) ps p = Some p' /\ uf_ok p' /\ dom p' = dom p
    /\ forall x y, x ∈ dom p -> y ∈ dom p ->
       same_root p' x y <-> rtsc (fun a b => same_root p a b \/ id_link predicate ps a b) x y.
Proof.
  revert p; induction ps as [|[l r] ps IH]; intros p Hok Hdom.
  { exists p. split_and!; try done. intros x y Hx Hy. split; [intros H; by apply rtsc_lr; left|].
    intros H. revert Hx. induction H as [x|x z y Hxz _ IH]; intros Hx; [by apply same_root_refl|].
    assert (same_root p x z) as Hs.
    { destruct Hxz as [[|(? & ? & []%elem_of_nil & _)]|[|(? & ? & []%elem_of_nil & _)]]; [done|by apply same_root_sym]. }
    eapply same_root_trans; [exact Hs|]. apply IH; [done|]. by apply (same_root_dom _ _ _ Hs). }
  destruct (Hdom l r) as [Hl Hr]; [by left|].
  assert (exists p1, union_step predicate p (l, r) = Some p1 /\ uf_ok p1 /\ dom p1 = dom p
    /\ forall x y, x ∈ dom p -> y ∈ dom p -> same_root p1 x y <->
         same_root p x y \/ (predicate l r = true /\
           ((same_root p x (finding_id l) /\ same_root p (finding_id r) y)
            \/ (same_root p x (finding_id r) /\ same_root p (finding_id l) y)))) as (p1 & H1 & Hok1 & Hd1 & Hs1).
  { unfold union_step. simpl. destruct (predicate l r); [|exists p; naive_solver].
    destruct (union_ok p (finding_id l) (finding_id r) Hok) as (p1 & Hu & Hok1 & Hd & Hs); [by apply elem_of_dom..|].
    exists p1. split_and!; try done. intros x y Hx%elem_of_dom Hy%elem_of_dom. rewrite (Hs x y Hx Hy). tauto. }
  destruct (IH p1 Hok1) as (p' & Hf & Hok' & Hd' & Hs').
  { intros a b Hab. rewrite Hd1. apply Hdom. by right. }
  exists p'. simpl. rewrite H1. split_and!; try done; [congruence|].
  intros x y Hx Hy. rewrite Hs' by (by rewrite Hd1). split; apply rtsc_bind; intros a b Hab.
  - destruct Hab as [Hab|(l' & r' & Hin & Hp & -> & ->)].
    + destruct (same_root_dom _ _ _ Hab) as [Ha Hb]. rewrite Hd1 in Ha, Hb.
      apply (Hs1 a b Ha Hb) in Hab as [Hab|(Hp & [[H2 H3]|[H2 H3]])]; [by apply rtsc_lr; left|..].
      * transitivity (finding_id l); [by apply rtsc_lr; left|]. transitivity (finding_id r); [|by apply rtsc_lr; left].
        apply rtsc_lr. right. exists l, r. split; [by left|done].
      * transitivity (finding_id r); [by apply rtsc_lr; left|]. transitivity (finding_id l); [|by apply rtsc_lr; left].
        apply rtsc_rl. right. exists l, r. split; [by left|done].
    + apply rtsc_lr. right. exists l', r'. split; [by right|done].
  - destruct Hab as [Hab|(l' & r' & Hin & Hp & -> & ->)].
    + destruct (same_root_dom _ _ _ Hab) as [Ha Hb]. apply rtsc_lr. left. apply Hs1; auto.
    + apply elem_of_cons in Hin as [[= -> ->]|Hin].
      * apply rtsc_lr. left. apply Hs1; try done. right. split; [done|]. left. split; by apply same_root_refl.
      * apply rtsc_lr. right. by exists l', r'.
Qed.

(** ** Clusters are the connected components *)

Lemma initial_parent items (p : gmap string string) k :
  foldl (fun p c => <[finding_id c := finding_id c]> p) p items !! k
  = if decide (k ∈ finding_id <$> items) then Some k else p !! k.
Proof.
  revert p; induction items as [|c items IH]; intros p.
  - rewrite decide_False; [done|apply not_elem_of_nil].
  - rewrite fmap_cons. cbn [foldl]. rewrite IH. destruct (decide (k ∈ finding_id <$> items)) as [Hk|Hk].
    + by rewrite decide_True by (by right).
    + destruct (decide (k = finding_id c)) as [->|Hne].
      * rewrite decide_True by left. by rewrite lookup_insert, decide_True.
      * rewrite decide_False by (by rewrite elem_of_cons; intros []). by rewrite lookup_insert_ne.
Qed.

(** The grouping loop collects the items by their roots. *)
Lemma group_loop p items q d :
  (forall c, c ∈ items -> finding_id c ∈ dom p) -> same_classes p q ->
  exists q' rs,
    fold_option (fun st item =>
      '(parent, root) ← find st.1 (finding_id item);
      Some (parent, group_append st.2 root item)) items (q, d) = Some (q', group_all (zip rs items) d)
    /\ Forall2 (fun r c => root_of p (finding_id c) r) rs items.
Proof.
  revert q d; induction items as [|c items IH]; intros q d Hin Hq; [by exists q, []|].
  destruct (find_ok q (finding_id c)) as (q1 & r & Hf & Hr & Hq1); [apply Hq|apply elem_of_dom; rewrite (proj1 (proj2 Hq)); apply Hin; left|].
  destruct (IH q1 (group_append d r c)) as (q' & rs & Hl & Hrs).
  - intros c' Hc'. apply Hin. by right.
  - by eapply same_classes_trans.
  - exists q', (r :: rs). simpl. rewrite Hf. simpl. split; [done|]. constructor; [|done]. by apply Hq.
Qed.

(** Two candidates the predicate links: asked about the earlier and the later one. *)
Definition linked (items : list DuplicateCandidate) (predicate : DuplicateCandidate -> DuplicateCandidate -> bool)
    (a b : DuplicateCandidate) : Prop :=
  exists i j, (i < j)%nat /\ items !! i = Some a /\ items !! j = Some b /\ predicate a b = true.

(** The loops visit the pairs of an earlier and a later position. *)
Lemma pairs_spec {A} (l : list A) a b : (a, b) ∈ pairs l <-> exists i j, (i < j)%nat /\ l !! i = Some a /\ l !! j = Some b.
Proof.
  induction l as [|x l IH]; cbn [pairs].
  - split; [by intros ?%elem_of_nil|]. by intros (i & j & _ & ? & _).
  - rewrite elem_of_app, list_elem_of_fmap, IH. split.
    + intros [(y & [= -> ->] & [j Hj]%list_elem_of_lookup)|(i & j & Hij & Hi & Hj)].
      * exists 0%nat, (S j). split; [lia|done].
      * exists (S i), (S j). split; [lia|done].
    + intros ([|i] & [|j] & Hij & Hi & Hj); [lia| |lia|].
      * left. injection Hi as ->. exists b. split; [done|]. by eapply list_elem_of_lookup_2.
      * right. exists i, j. split; [lia|done].
Qed.

Lemma linked_pairs items predicate a b : linked items predicate a b <-> (a, b) ∈ pairs items /\ predicate a b = true.
Proof. rewrite pairs_spec. unfold linked. naive_solver. Qed.

Lemma pairs_in {A} (l : list A) a b : (a, b) ∈ pairs l -> a ∈ l /\ b ∈ l.
Proof.
  induction l as [|x l IH]; simpl; [by intros ?%elem_of_nil|].
  rewrite elem_of_app, list_elem_of_fmap. intros [(y & [= -> ->] & Hy)|[Ha Hb]%IH].
  - split; [left|by right].
  - split; by right.
Qed.

Lemma id_unique items (a b : DuplicateCandidate) :
  NoDup (finding_id <$> items) -> a ∈ items -> b ∈ items -> finding_id a = finding_id b -> a = b.
Proof.
  intros Hnd [i Hi]%list_elem_of_lookup [j Hj]%list_elem_of_lookup He.
  assert (i = j) as ->; [|congruence]. eapply NoDup_lookup; [exact Hnd|..];
    rewrite list_lookup_fmap; [by rewrite Hi|by rewrite Hj, He].
Qed.

(** Links among ids are links among the candidates. *)
Lemma id_link_linked items predicate a b :
  NoDup (finding_id <$> items) -> a ∈ items -> b ∈ items ->
  rtsc (id_link predicate (pairs items)) (finding_id a) (finding_id b) <-> rtsc (linked items predicate) a b.
Proof.
  intros Hnd Ha Hb. split.
  - remember (finding_id a) as x eqn:Hx. remember (finding_id b) as y eqn:Hy. intros H.
    revert a Ha Hx. induction H as [x|x z y Hxz _ IH]; intros a Ha Hx.
    { assert (a = b) as -> by (eapply id_unique; eauto; congruence). done. }
    destruct Hxz as [(l & r & Hin & Hp & -> & ->)|(l & r & Hin & Hp & -> & ->)];
      destruct (pairs_in _ _ _ Hin) as [Hl Hr].
    + assert (l = a) as -> by (eapply id_unique; eauto). transitivity r; [by apply rtsc_lr, linked_pairs|by apply IH].
    + assert (r = a) as -> by (eapply id_unique; eauto). transitivity l; [by apply rtsc_rl, linked_pairs|by apply IH].
  - clear Ha Hb. induction 1 as [a|a c b Hac _ IH]; [done|].
    transitivity (finding_id c); [|done].
    destruct Hac as [[Hin Hp]%linked_pairs|[Hin Hp]%linked_pairs]; [apply rtsc_lr|apply rtsc_rl]; by eexists _, _.
Qed.

Lemma sorted_candidates_perm l : sorted_candidates l ≡ₚ l.
Proof. apply order_by_cols_perm. Qed.

Lemma elem_of_sorted l a : a ∈ sorted_candidates l <-> a ∈ l.
Proof. by rewrite sorted_candidates_perm. Qed.

Lemma sorted_candidates_sorted l :
  StronglySorted (fun a b => str_le (finding_id a) (finding_id b) = true) (sorted_candidates l).
Proof.
  eapply StronglySorted_impl_in; [|apply order_by_cols_sorted]. intros a b _ _ H%cols_le_iff. simpl in H.
  destruct H as [[H _]%lt_below|[-> _]]; [done|apply str_le_refl].
Qed.

(** The groups that [clusters] keeps. *)
Lemma elem_of_kept l c :
  c ∈ (sorted_candidates <$> filter_b (fun g => 1 <? zlen g) (group_all l []).*2) <->
  exists k, c = sorted_candidates (matching k l) /\ 1 < zlen (matching k l).
Proof.
  rewrite list_elem_of_fmap. setoid_rewrite elem_of_filter_b. setoid_rewrite list_elem_of_fmap. split.
  - intros (g & -> & ([k g'] & -> & [-> _]%elem_of_group_all) & Hl). exists k. split; [done|]. simpl in Hl. lia.
  - intros (k & -> & Hl). eexists. split; [reflexivity|]. split; [|simpl; lia].
    exists (k, matching k l). split; [done|]. apply elem_of_group_all. split; [done|].
    intros E. rewrite E in Hl. done.
Qed.

Lemma filter_b_snd {A B} (f : B -> bool) (l : list (A * B)) : filter_b f l.*2 = (filter_b (fun p => f p.2) l).*2.
Proof. unfold filter_b. induction l as [|[a b] l IH]; [done|]. csimpl. rewrite IH. by destruct (f b). Qed.

(** A group is listed once, as its members have one key. *)
Lemma kept_once l : (forall k k' c, (k, c) ∈ l -> (k', c) ∈ l -> k = k') ->
  NoDup (sorted_candidates <$> filter_b (fun g => 1 <? zlen g) (group_all l []).*2).
Proof.
  intros Hkey. rewrite filter_b_snd, <- list_fmap_compose. apply NoDup_fmap_2_strong.
  - intros [k g] [k' g'] [Hg Hl]%elem_of_filter_b [Hg' _]%elem_of_filter_b. cbn. intros E.
    apply elem_of_group_all in Hg as [-> _], Hg' as [-> _]. cbn in Hl.
    change (sorted_candidates (matching k l) = sorted_candidates (matching k' l)) in E.
    assert (exists c, c ∈ matching k l) as [c Hc] by (destruct (matching k l) as [|c m]; [done|exists c; left]).
    assert (c ∈ matching k' l) as Hc' by (apply elem_of_sorted; rewrite <- E; by apply elem_of_sorted).
    apply elem_of_matching in Hc, Hc'. by rewrite (Hkey k k' c).
  - apply NoDup_filter_b. eapply NoDup_fmap_1, group_all_spec.
Qed.

Lemma NoDup_matching {A} k (l : list (string * A)) : NoDup l.*2 -> NoDup (matching k l).
Proof.
  unfold matching, filter_b. induction l as [|[k' x] l IH]; [done|]. simpl. intros [Hx Hl]%NoDup_cons.
  destruct (String.eqb k k'); [|by apply IH]. simpl. apply NoDup_cons. split; [|by apply IH].
  intros ([k2 y] & He & Hin%list_elem_of_In)%list_elem_of_fmap. apply filter_In in Hin as [Hin%list_elem_of_In _].
  apply Hx. apply list_elem_of_fmap. exists (k2, y). done.
Qed.

Lemma elem_of_zip_roots p rs items k a :
  NoDup items -> Forall2 (fun r c => root_of p (finding_id c) r) rs items ->
  (k, a) ∈ zip rs items <-> a ∈ items /\ root_of p (finding_id a) k.
Proof.
  intros Hnd H. split.
  - clear Hnd. induction H as [|r c rs items Hr _ IH]; simpl; [by intros ?%elem_of_nil|].
    intros [[= -> ->]|[Ha Hk]%IH]%elem_of_cons; (split; [|done]); [left|by right].
  - intros [Ha Hk]. clear Hnd. induction H as [|r c rs items Hr _ IH]; simpl; [by apply elem_of_nil in Ha|].
    apply elem_of_cons in Ha as [->|Ha]; [|right; auto]. rewrite (root_unique _ _ _ _ Hk Hr). left.
Qed.

Lemma two_elements {A} (l : list A) a b : a ∈ l -> b ∈ l -> a <> b -> 1 < zlen l.
Proof.
  intros Ha Hb Hne. destruct l as [|x [|y l]]; [by apply elem_of_nil in Ha| |unfold zlen; simpl; lia].
  apply list_elem_of_singleton in Ha, Hb. congruence.
Qed.

(** C40. Clustering computes connected components: for candidates with distinct ids it ends with a
    list of disjoint groups of at least two candidates, none listed twice, each sorted by finding
    id, such that two different candidates are in one group exactly when a chain of pairs the
    predicate accepts, an earlier and a later candidate each, connects them. *)
Theorem clusters_components items predicate :
  NoDup (finding_id <$> items) ->
  exists cs, clusters items predicate = Some cs /\ NoDup cs
    /\ (forall c, c ∈ cs -> (2 <= length c)%nat /\ NoDup c /\ (forall a, a ∈ c -> a ∈ items)
          /\ StronglySorted (fun a b => str_le (finding_id a) (finding_id b) = true) c)
    /\ (forall a b, a ∈ items -> b ∈ items -> a <> b ->
          (exists c, c ∈ cs /\ a ∈ c /\ b ∈ c) <-> rtsc (linked items predicate) a b)
    /\ (forall c c' a, c ∈ cs -> c' ∈ cs -> a ∈ c -> a ∈ c' -> c = c').
Proof.
  intros Hnd. unfold clusters. destruct (Z.ltb_spec (zlen items) 2) as [Hlt|Hge].
  { exists []. split_and!; try done; try (by intros ? ?%elem_of_nil); [constructor| |by intros ? ? ? ?%elem_of_nil].
    intros a b Ha Hb Hne. exfalso. destruct items as [|x [|y items]]; [by apply elem_of_nil in Ha| |].
    - apply list_elem_of_singleton in Ha, Hb. congruence.
    - unfold zlen in Hlt. simpl in Hlt. lia. }
  set (p0 := foldl _ ∅ items). assert (forall k, p0 !! k = if decide (k ∈ finding_id <$> items) then Some k else None) as Hp0.
  { intros k. unfold p0. by rewrite initial_parent, lookup_empty. }
  assert (uf_ok p0) as Hok0.
  { intros v w Hv. pose proof Hv as Hv'. rewrite Hp0 in Hv. case_decide; [|done]. injection Hv as <-.
    split; [apply str_le_refl|eauto]. }
  assert (forall c, c ∈ items -> finding_id c ∈ dom p0) as Hdom.
  { intros c Hc. apply elem_of_dom. rewrite Hp0, decide_True; [eauto|]. by apply list_elem_of_fmap_2. }
  assert (forall x y, same_root p0 x y -> x = y) as Hroot0.
  { intros x y (r & Hx & Hy). assert (forall z s, root_of p0 z s -> z = s) as Hz.
    { destruct 1 as [|z w s Hz Hne _]; [done|]. rewrite Hp0 in Hz. case_decide; [|done]. congruence. }
    by rewrite (Hz _ _ Hx), (Hz _ _ Hy). }
  destruct (union_fold_ok predicate (pairs items) p0 Hok0) as (p & Hf & Hok & Hd & Hs).
  { intros l r [Hl Hr]%pairs_in. auto. }
  unfold union_step in Hf. rewrite Hf. cbn [mbind option_bind].
  destruct (group_loop p items p []) as (q & rs & -> & Hrs); [by rewrite Hd|by split|]. cbn [mbind option_bind].
  eexists. split; [reflexivity|].
  assert (NoDup items) as Hnd' by (by eapply NoDup_fmap_1).
  assert ((zip rs items).*2 = items) as Hzip.
  { apply snd_zip. by rewrite (Forall2_length _ _ _ Hrs). }
  assert (forall a b, a ∈ items -> b ∈ items ->
    same_root p (finding_id a) (finding_id b) <-> rtsc (linked items predicate) a b) as Hsame.
  { intros a b Ha Hb. rewrite Hs by auto. rewrite <- id_link_linked by done. split; apply rtsc_bind; intros x y Hxy.
    - destruct Hxy as [->%Hroot0|]; [done|by apply rtsc_lr].
    - by apply rtsc_lr; right. }
  pose proof (fun k a => elem_of_zip_roots p rs items k a Hnd' Hrs) as Hin.
  split_and!.
  - apply kept_once. intros k k' c [_ Hk]%Hin [_ Hk']%Hin. by eapply root_unique.
  - intros c (k & -> & Hl)%elem_of_kept. split_and!.
    + rewrite sorted_candidates_perm. unfold zlen in Hl. lia.
    + rewrite sorted_candidates_perm. apply NoDup_matching. by rewrite Hzip.
    + intros a. rewrite elem_of_sorted, elem_of_matching, Hin. tauto.
    + apply sorted_candidates_sorted.
  - intros a b Ha Hb Hne. rewrite <- Hsame by done. split.
    + intros (c & (k & -> & _)%elem_of_kept & Hac & Hbc).
      rewrite elem_of_sorted, elem_of_matching, Hin in Hac, Hbc. exists k. tauto.
    + intros (k & Hak & Hbk). exists (sorted_candidates (matching k (zip rs items))).
      split; [|rewrite !elem_of_sorted, !elem_of_matching, !Hin; tauto].
      apply elem_of_kept. exists k. split; [done|].
      apply (two_elements _ a b); [rewrite elem_of_matching, Hin; tauto..|done].
  - intros c c' a (k & -> & _)%elem_of_kept (k' & -> & _)%elem_of_kept Ha Ha'.
    rewrite elem_of_sorted, elem_of_matching, Hin in Ha, Ha'.
    by rewrite (root_unique _ _ _ _ (proj2 Ha) (proj2 Ha')).
Qed.

(** ** Exact groups *)

(** The candidates with a valid hash, under it. *)
Definition hashed (items : list DuplicateCandidate) : list (string * DuplicateCandidate) :=
  omap (fun c => match content_sha256 c with
                 | Some h => if valid_sha256 h then Some (h, c) else None
                 | None => None
                 end) items.

Lemma exact_index_groups items d ws :
  (foldl (fun acc item =>
    match content_sha256 item with
    | None => acc
    | Some h => if valid_sha256 h then (group_append acc.1 h item, acc.2)
                else (acc.1, acc.2 ++ ["invalid_content_sha256:" +:+ finding_id item])%list
    end) (d, ws) items).1 = group_all (hashed items) d.
Proof.
  revert d ws; induction items as [|c items IH]; intros d ws; [done|]. simpl.
  destruct (content_sha256 c) as [h|]; [|apply IH]. destruct (valid_sha256 h); apply IH.
Qed.

Lemma elem_of_hashed items h c :
  (h, c) ∈ hashed items <-> c ∈ items /\ content_sha256 c = Some h /\ valid_sha256 h = true.
Proof.
  unfold hashed. rewrite list_elem_of_omap. split.
  - intros (c' & Hin & Hc). destruct (content_sha256 c') as [h'|] eqn:E; [|done].
    destruct (valid_sha256 h') eqn:Ev; [|done]. by simplify_eq.
  - intros (Hin & Hc & Hv). exists c. by rewrite Hc, Hv.
Qed.

Lemma NoDup_hashed items : NoDup items -> NoDup (hashed items).*2.
Proof.
  unfold hashed. induction 1 as [|c items Hc _ IH]; [constructor|]. simpl.
  destruct (content_sha256 c) as [h|] eqn:E; [|done]. destruct (valid_sha256 h); [|done].
  rewrite fmap_cons. apply NoDup_cons. split; [|done].
  intros ([h' c'] & He & (Hin & _)%elem_of_hashed)%list_elem_of_fmap. simpl in He. by subst.
Qed.

Lemma group_some kind alg thr ms ws : ms <> [] -> exists g, group kind alg thr ms ws = Some g.
Proof.
  intros Hne. unfold group, canonical_member.
  destruct (first_by _ ms) eqn:E; [by eexists|]. by apply first_by_none in E.
Qed.

Lemma group_members kind alg thr ms ws g :
  group kind alg thr ms ws = Some g ->
  group_kind g = kind /\ members g ≡ₚ ms /\ canonical_finding_id g ∈ dm_finding <$> ms.
Proof.
  unfold group. destruct (canonical_member ms) as [m|] eqn:E; [|done]. intros [= <-]. simpl.
  split; [done|]. split; [apply order_by_cols_perm|]. apply list_elem_of_fmap. exists m. split; [done|].
  clear -E. unfold canonical_member in E. revert E. generalize (fun a b => key_before (member_key ms a) (member_key ms b)).
  intros f. revert m. induction ms as [|x ms IH]; [done|]. intros m. simpl.
  destruct (first_by f ms) as [k|]; [destruct (f x k)|]; intros [= <-]; try left. right. by apply IH.
Qed.

(** One iteration of the loop of [exact_groups]. *)
Definition exact_step (acc : list DuplicateGroup * list string) (kv : string * list DuplicateCandidate)
    : option (list DuplicateGroup * list string) :=
  let '(digest, ms) := kv in
  if zlen ms <? 2 then Some acc
  else if negb (zlen (dedup (dc_size <$> ms)) =? 1)
  then Some (acc.1, acc.2 ++ ["sha256_size_mismatch:" +:+ digest])%list
  else g ← group "exact-sha256" "sha256-size-v1" None ((fun c => member c None None) <$> ms) [];
       Some (acc.1 ++ [g], acc.2)%list.

(** The lists of candidates that make an exact group. *)
Definition exact_class (ms : list DuplicateCandidate) : Prop :=
  2 <= zlen ms /\ forall a b, a ∈ ms -> b ∈ ms -> dc_size a = dc_size b.

Lemma one_size ms : 2 <= zlen ms ->
  (zlen (dedup (dc_size <$> ms)) =? 1) = true <-> forall a b, a ∈ ms -> b ∈ ms -> dc_size a = dc_size b.
Proof.
  intros Hl. rewrite Z.eqb_eq. split.
  - intros H a b Ha Hb. destruct (dedup (dc_size <$> ms)) as [|x [|y l]] eqn:E; unfold zlen in H; simpl in H; try lia.
    assert (forall c, c ∈ ms -> dc_size c = x) as Hx.
    { intros c Hc. assert (dc_size c ∈ dedup (dc_size <$> ms)) as Hd.
      { apply elem_of_dedup. by apply list_elem_of_fmap_2. }
      rewrite E in Hd. by apply list_elem_of_singleton in Hd. }
    by rewrite (Hx a Ha), (Hx b Hb).
  - intros H. destruct ms as [|a ms]; [done|].
    pose proof (NoDup_dedup (dc_size <$> (a :: ms))) as Hnd.
    assert (forall s, s ∈ dedup (dc_size <$> (a :: ms)) -> s = dc_size a) as Hs.
    { intros s (c & -> & Hc)%elem_of_dedup%list_elem_of_fmap. apply H; [done|left]. }
    assert (dc_size a ∈ dedup (dc_size <$> (a :: ms))) as Ha by (apply elem_of_dedup; left).
    destruct (dedup (dc_size <$> (a :: ms))) as [|x [|y l]]; [by apply elem_of_nil in Ha|done|].
    exfalso. apply NoDup_cons in Hnd as [Hx _]. apply Hx.
    rewrite (Hs x) by left. rewrite <- (Hs y); [left|right; left].
Qed.

Lemma exact_step_fold l gs ws :
  exists gs' ws', fold_option exact_step l (gs, ws) = Some (gs', ws')
    /\ forall g, g ∈ gs' <-> g ∈ gs \/ exists k ms, (k, ms) ∈ l /\ exact_class ms
         /\ group "exact-sha256" "sha256-size-v1" None ((fun c => member c None None) <$> ms) [] = Some g.
Proof.
  revert gs ws; induction l as [|[k ms] l IH]; intros gs ws.
  { exists gs, ws. split; [done|]. intros g. split; [by left|]. intros [?|(? & ? & []%elem_of_nil & _)]; done. }
  cbn [fold_option]. set (rest := fold_option exact_step l) in *. unfold exact_step.
  destruct (Z.ltb_spec (zlen ms) 2) as [Hlt|Hge].
  { cbn [mbind option_bind]. destruct (IH gs ws) as (gs' & ws' & Hf & Hg). exists gs', ws'. split; [done|]. intros g.
    rewrite Hg. apply or_iff_compat_l. split; intros (k' & ms' & Hin & Hc & Hgr).
    - exists k', ms'. split; [by right|done].
    - apply elem_of_cons in Hin as [[= -> ->]|Hin]; [destruct Hc; lia|]. by exists k', ms'. }
  destruct (zlen (dedup (dc_size <$> ms)) =? 1) eqn:Es; simpl negb; cbn match.
  - destruct (group_some "exact-sha256" "sha256-size-v1" None ((fun c => member c None None) <$> ms) []) as [g0 Hg0].
    { intros E. apply fmap_nil_inv in E. subst. done. }
    rewrite Hg0. cbn [mbind option_bind]. destruct (IH (gs ++ [g0])%list ws) as (gs' & ws' & Hf & Hg).
    exists gs', ws'. split; [done|]. intros g. rewrite Hg, elem_of_app, list_elem_of_singleton.
    rewrite one_size in Es by done. assert (exact_class ms) as Hc0 by done. split.
    + intros [[H| ->]|(k' & ms' & Hin & Hc & Hgr)]; [by left|right; exists k, ms; split; [left|exact (conj Hc0 Hg0)]|].
      right. exists k', ms'. split; [by right|done].
    + intros [H|(k' & ms' & Hin & Hc & Hgr)]; [auto|].
      apply elem_of_cons in Hin as [[= -> ->]|Hin]; [left; right; congruence|]. right. by exists k', ms'.
  - cbn [mbind option_bind]. destruct (IH gs (ws ++ ["sha256_size_mismatch:" +:+ k])%list) as (gs' & ws' & Hf & Hg).
    exists gs', ws'. split; [done|]. intros g. rewrite Hg. apply or_iff_compat_l.
    split; intros (k' & ms' & Hin & Hc & Hgr).
    + exists k', ms'. split; [by right|done].
    + apply elem_of_cons in Hin as [[= -> ->]|Hin]; [|by exists k', ms'].
      destruct Hc as [_ Hc]. apply one_size in Hc; [congruence|done].
Qed.

Lemma member_by_id (items : list DuplicateCandidate) c (ms : list DuplicateCandidate) :
  NoDup (finding_id <$> items) -> (forall d, d ∈ ms -> d ∈ items) -> c ∈ items ->
  finding_id c ∈ finding_id <$> ms -> c ∈ ms.
Proof.
  intros Hn Hsub Hc (d & Hd & Hdm)%list_elem_of_fmap. by rewrite (id_unique _ _ _ Hn Hc (Hsub d Hdm) Hd).
Qed.

(** Exact groups are the classes of equal content: on candidates with distinct ids the exact
    grouping succeeds, every group has the same members as one class of at least two candidates,
    and two different candidates share a group exactly when both carry the same valid SHA-256 hash
    and all candidates with that hash report one size. *)
Theorem exact_groups_spec items :
  NoDup (finding_id <$> items) ->
  exists gs ws, exact_groups items = Some (gs, ws)
    /\ (forall g, g ∈ gs -> group_kind g = "exact-sha256" /\ (2 <= length (members g))%nat
          /\ NoDup (dm_finding <$> members g) /\ canonical_finding_id g ∈ dm_finding <$> members g)
    /\ forall a b, a ∈ items -> b ∈ items -> a <> b ->
       (exists g, g ∈ gs /\ finding_id a ∈ dm_finding <$> members g /\ finding_id b ∈ dm_finding <$> members g) <->
       exists h, content_sha256 a = Some h /\ content_sha256 b = Some h /\ valid_sha256 h = true
         /\ forall c, c ∈ items -> content_sha256 c = Some h -> dc_size c = dc_size a.
Proof.
  intros Hnd. unfold exact_groups. destruct (exact_index items) as [by_hash warnings] eqn:Ei.
  assert (by_hash = group_all (hashed items) []) as ->.
  { pose proof (exact_index_groups items [] []) as H. unfold exact_index in Ei. by rewrite Ei in H. }
  destruct (exact_step_fold (sort_keys (group_all (hashed items) [])) [] warnings) as (gs & ws & Hf & Hg).
  exists gs, ws. split; [exact Hf|].
  assert (forall g, g ∈ gs -> exists h ms, (forall c, c ∈ ms <-> (h, c) ∈ hashed items) /\ NoDup (finding_id <$> ms)
    /\ exact_class ms /\ group_kind g = "exact-sha256" /\ dm_finding <$> members g ≡ₚ finding_id <$> ms
    /\ canonical_finding_id g ∈ finding_id <$> ms) as Hgs.
  { intros g [[]%elem_of_nil|(h & ms & Hin & Hc & Hgr)]%Hg.
    rewrite sort_keys_perm, elem_of_group_all in Hin. destruct Hin as [-> _].
    apply group_members in Hgr as (Hk & Hm & Hcan).
    assert (dm_finding <$> ((fun c => member c None None) <$> matching h (hashed items)) = finding_id <$> matching h (hashed items)) as He.
    { rewrite <- list_fmap_compose. by apply list_fmap_ext. }
    exists h, (matching h (hashed items)). split; [intros c; apply elem_of_matching|]. split.
    { apply NoDup_fmap_2_strong; [|apply NoDup_matching, NoDup_hashed; by eapply NoDup_fmap_1].
      intros a b Ha Hb. rewrite elem_of_matching, elem_of_hashed in Ha, Hb.
      apply (id_unique items); [done|apply Ha|apply Hb]. }
    split; [done|]. split; [done|]. rewrite Hm. by rewrite He in *. }
  split.
  { intros g (h & ms & _ & Hn & [Hl _] & Hk & Hp & Hcan)%Hgs. split; [done|].
    pose proof (Permutation_length Hp) as Hlen. rewrite !length_fmap in Hlen. rewrite Hlen.
    split; [unfold zlen in Hl; lia|]. split; [by rewrite Hp|by rewrite Hp]. }
  intros a b Ha Hb Hne. split.
  - intros (g & (h & ms & Hms & Hn & [_ Hsz] & _ & Hp & _)%Hgs & Hag & Hbg). rewrite Hp in Hag, Hbg.
    assert (forall d, d ∈ ms -> d ∈ items) as Hsub by (intros d Hd; apply Hms, elem_of_hashed in Hd; tauto).
    apply (member_by_id items) in Hag, Hbg; try done. pose proof Hag as Hag'. apply Hms, elem_of_hashed in Hag as (_ & Hh & Hv).
    apply Hms, elem_of_hashed in Hbg as (_ & Hh' & _). exists h. split_and!; try done.
    intros c Hc Hch. apply Hsz; [|done]. apply Hms, elem_of_hashed. done.
  - intros (h & Hah & Hbh & Hv & Hsz). set (ms := matching h (hashed items)).
    assert (forall c, c ∈ ms <-> c ∈ items /\ content_sha256 c = Some h) as Hms.
    { intros c. unfold ms. rewrite elem_of_matching, elem_of_hashed. tauto. }
    assert (1 < zlen ms) as Hl by (by apply (two_elements _ a b); [apply Hms..|]).
    destruct (group_some "exact-sha256" "sha256-size-v1" None ((fun c => member c None None) <$> ms) []) as [g Hgr].
    { intros E. apply fmap_nil_inv in E. by rewrite E in Hl. }
    exists g. apply group_members in Hgr as Hgm. destruct Hgm as (_ & Hm & _). split.
    + apply Hg. right. exists h, ms. split.
      { rewrite sort_keys_perm. apply elem_of_group_all. split; [done|]. intros E. by rewrite E in Hl. }
      split; [|done]. split; [lia|]. intros c d [Hc Hch]%Hms [Hd Hdh]%Hms. by rewrite (Hsz c), (Hsz d).
    + rewrite Hm, <- list_fmap_compose. split; apply list_elem_of_fmap; [exists a|exists b]; (split; [done|by apply Hms]).
Qed.

(** ** Witnesses *)

Definition demo_candidate (id : string) (size : Z) (hash phash : string) (path : string) (preview : option string) : DuplicateCandidate :=
  {| finding_id := id; content_sha256 := Some hash; dc_size := Some size; source_paths := [path];
     media_kind := "image"; preview_uri := preview; perceptual_hash := Some phash;
     video_keyframe_hashes := []; content_id := None |}.

Definition demo_hash : string := of_chars (repeat "a"%char 64).
Definition demo_images : list DuplicateCandidate :=
  [demo_candidate "f1" 10 demo_hash "00" "/a" None; demo_candidate "f2" 10 demo_hash "01" "/b" (Some "p");
   demo_candidate "f3" 7 "x" "ff" "/c" None].

Lemma demo_images_ids : NoDup (finding_id <$> demo_images).
Proof. apply (bool_decide_unpack _). by vm_compute. Qed.

Definition demo_similar (a b : DuplicateCandidate) : bool := size_or_zero (dc_size a) =? size_or_zero (dc_size b).

Lemma clusters_components_witness :
  exists cs, clusters demo_images demo_similar = Some cs
    /\ forall c c' a, c ∈ cs -> c' ∈ cs -> a ∈ c -> a ∈ c' -> c = c'.
Proof.
  destruct (clusters_components demo_images demo_similar demo_images_ids) as (cs & Hc & _ & _ & _ & Hd).
  exact (ex_intro _ cs (conj Hc Hd)).
Defined.

Lemma exact_groups_spec_witness :
  exists gs ws, exact_groups demo_images = Some (gs, ws)
    /\ forall g, g ∈ gs -> group_kind g = "exact-sha256".
Proof.
  destruct (exact_groups_spec demo_images demo_images_ids) as (gs & ws & Hg & Hk & _).
  exact (ex_intro _ gs (ex_intro _ ws (conj Hg (fun g H => proj1 (Hk g H))))).
Defined.

(** The distance of a member is measured to another candidate than the group's canonical one: the
    former prefers a preview, the latter a source path. *)
Example two_canonicals :
  match image_groups (take 2 demo_images) default_grouping with
  | Some ([g], _) => (canonical_finding_id g, map (fun m => (dm_finding m, distance m)) (members g))
  | _ => ("", [])
  end = ("f1", [("f1", Some 1); ("f2", Some 0)]).
Proof. by vm_compute. Qed.
