(* ===== verification/ProtectedAudit.v ===== *)
(** * Protected-target audits (src/worker/protected_audit.py)

    An audit target is normalised from a record, moves through the audit state machine, is
    restarted within an attempt budget and advances a checkpoint within a resource budget.  The
    secret store is a parameter: whether it still knows a reference. *)

From Stdlib Require Import ZArith Lia String Ascii.
From stdpp Require Import base list strings gmap.
From S2P Require Import Prelude PyStr Json Messages.

Local Open Scope string_scope.
Local Open Scope Z_scope.

(** ** Data *)

(** worker/protected_audit.py:27-29 AUDIT_STATES *)
Inductive audit_state := APending | AQueued | ARunning | AVerifying | ACompleted | AFailed | ABlocked | ACancelled.

#[global] Instance audit_state_eq_dec : EqDecision audit_state.
Proof. solve_decision. Defined.

Definition audit_states : list audit_state :=
  [APending; AQueued; ARunning; AVerifying; ACompleted; AFailed; ABlocked; ACancelled].

Definition audit_state_name (s : audit_state) : string :=
  match s with
  | APending => "pending" | AQueued => "queued" | ARunning => "running" | AVerifying => "verifying"
  | ACompleted => "completed" | AFailed => "failed" | ABlocked => "blocked" | ACancelled => "cancelled"
  end.
Definition audit_state_of (n : string) : option audit_state :=
  List.find (fun s => String.eqb (audit_state_name s) n) audit_states.

(** worker/protected_audit.py:32-41 ALLOWED_TRANSITIONS *)
Definition audit_transitions (s : audit_state) : list audit_state :=
  match s with
  | APending => [AQueued; ACancelled; AFailed]
  | AQueued => [ARunning; ACancelled; AFailed]
  | ARunning => [AVerifying; AFailed; ACancelled]
  | AVerifying => [ACompleted; AFailed]
  | ACompleted => []
  | AFailed => [AQueued]
  | ABlocked => [AQueued]
  | ACancelled => []
  end.

(** worker/protected_audit.py:22-24 TARGET_FORMATS *)
Definition TARGET_FORMATS : list string :=
  ["kdbx"; "pdf"; "office-openxml"; "zip"; "7z"; "rar"; "gpg"; "wallet"; "volume"].
(** worker/protected_audit.py:25-25 KDF_NAMES *)
Definition KDF_NAMES : list string := ["pbkdf2"; "scrypt"; "argon2"; "bcrypt"; "na"; "unknown"].
(** worker/protected_audit.py:26-26 ENGINE_STRATEGIES *)
Definition ENGINE_STRATEGIES : list string := ["stdin"; "fd"].

(** worker/protected_audit.py:71-74 ResourceBudget *)
Record ResourceBudget := Budget { max_cpu_seconds : Z; max_memory_bytes : Z; budget_attempts : Z }.

(** worker/protected_audit.py:77-78 within *)
Definition within (b : ResourceBudget) (cpu_seconds memory_bytes : Z) : bool :=
  (cpu_seconds <=? max_cpu_seconds b) && (memory_bytes <=? max_memory_bytes b).

(** worker/protected_audit.py:43-53 DEFAULT_BUDGET_BY_FORMAT: for the formats it lists. *)
Definition default_budget (format : string) : ResourceBudget :=
  let mb := 1024 * 1024 in
  if String.eqb format "zip" then Budget 120 (256 * mb) 3
  else if String.eqb format "wallet" then Budget 600 (1024 * mb) 3
  else if String.eqb format "volume" then Budget 1800 (4 * 1024 * mb) 3
  else Budget 300 (512 * mb) 3.

(** worker/protected_audit.py:55-62 KDF_COST_MULTIPLIER: in tenths; the products are exact. *)
Definition kdf_tenths (kdf : string) : Z :=
  if String.eqb kdf "scrypt" || String.eqb kdf "argon2" then 16
  else if String.eqb kdf "bcrypt" then 13 else 10.

(** worker/protected_audit.py:81-85 CostEstimate *)
Record CostEstimate := { ce_cpu : Z; ce_memory : Z; ce_tier : string }.

(** worker/protected_audit.py:88-92 AuditCheckpoint *)
Record AuditCheckpoint := AC { ac_stage : string; ac_cursor : string; ac_counters : list (string * Z) }.

(** worker/protected_audit.py:95-112 AuditTarget *)
Record AuditTarget := AT {
  at_id : string;
  at_artifact : string;
  at_finding : string;
  at_format : string;
  at_kdf : string;
  at_kind : string;
  at_status : string;
  at_secret_ref : string;
  at_strategy : string;
  at_budget : ResourceBudget;
  at_checkpoint : option AuditCheckpoint;
  at_result_ref : option string;
  at_attempts : Z;
  at_state : audit_state;
  at_error : option string;
}.

(** worker/protected_audit.py:65-68 ProtectedAuditError: by its code. *)
Inductive audit_error := ProtectedAuditError (code : string).

#[global] Instance audit_error_eq_dec : EqDecision audit_error.
Proof. solve_decision. Defined.

(** ** Reading records *)

(** [record.get(name) or default], as text. *)
Definition text_or (record : list (string * value)) (name dflt : string) : string :=
  let v := get_or_none record name in if truthy v then py_str v else dflt.

(** worker/protected_audit.py:294-298 _required_str *)
Definition required_str (record : list (string * value)) (name : string) : result audit_error string :=
  let v := text_or record name "" in
  if String.eqb v "" then Err (ProtectedAuditError "missing_field") else Ok v.

(** [isinstance(value, int)] and its number: booleans are integers. *)
Definition as_int (v : value) : option Z :=
  match v with VInt z => Some z | VBool b => Some (if b then 1 else 0) | _ => None end.

(** worker/protected_audit.py:301-304 _positive_int *)
Definition positive_int (v : value) : result audit_error Z :=
  match as_int v with
  | Some z => if z <=? 0 then Err (ProtectedAuditError "invalid_integer") else Ok z
  | None => Err (ProtectedAuditError "invalid_integer")
  end.

(** worker/protected_audit.py:307-312 _nonnegative_int *)
Definition nonnegative_int (v : value) : result audit_error Z :=
  match v with
  | VNone => Ok 0
  | v => match as_int v with
         | Some z => if z <? 0 then Err (ProtectedAuditError "invalid_integer") else Ok z
         | None => Err (ProtectedAuditError "invalid_integer")
         end
  end.

(** worker/protected_audit.py:19-20 SECRET_REF_RE: [vault:] and 32 lower-case hex digits. *)
Definition is_vault_ref (s : string) : bool :=
  starts_with "vault:" s && (str_len s =? 38) && forallb is_hex_lower (chars (str_drop 6 s)).

(** worker/protected_audit.py:248-253 _secret_ref *)
Definition secret_ref (v : value) : result audit_error string :=
  match v with
  | VStr s => if is_vault_ref s then Ok s else Err (ProtectedAuditError "inline_secret_rejected")
  | _ => Err (ProtectedAuditError "inline_secret_rejected")
  end.

(** worker/protected_audit.py:256-268 _budget *)
Definition budget (v : value) (format : string) : result audit_error ResourceBudget :=
  let d := default_budget format in
  match v with
  | VNone => Ok d
  | VDict m =>
    let field name dflt := positive_int (default (VInt dflt) (dict_get m name)) in
    cpu ← field "max_cpu_seconds" (max_cpu_seconds d);
    mem ← field "max_memory_bytes" (max_memory_bytes d);
    att ← field "max_attempts" (budget_attempts d);
    Ok (Budget cpu mem att)
  | _ => Err (ProtectedAuditError "malformed_budget")
  end.

(** worker/protected_audit.py:271-291 _checkpoint *)
Definition checkpoint_of (v : value) : result audit_error (option AuditCheckpoint) :=
  match v with
  | VNone => Ok None
  | VDict m =>
    match get_or_none m "counters" with
    | VDict counters =>
      normalized ← foldl (fun acc kx =>
          d ← acc;
          match py_int kx.2 with
          | Some z => Ok (dict_set d (str_take 128 kx.1) z)
          | None => Err (ProtectedAuditError "malformed_checkpoint")
          end) (Ok []) counters;
      Ok (Some (AC (str_take 128 (text_or m "stage" "unknown")) (str_take 512 (text_or m "cursor" "")) normalized))
    | _ => Err (ProtectedAuditError "malformed_checkpoint")
    end
  | _ => Err (ProtectedAuditError "malformed_checkpoint")
  end.

(** worker/protected_audit.py:115-166 normalize_target *)
Definition normalize_target (record : list (string * value)) : result audit_error AuditTarget :=
  target_id ← required_str record "target_id";
  artifact_id ← required_str record "artifact_id";
  finding_id ← required_str record "finding_id";
  format_name ← required_str record "format";
  _ ← raise_if (negb (bool_decide (format_name ∈ TARGET_FORMATS))) (ProtectedAuditError "unsupported_format");
  let kdf := text_or record "kdf" "unknown" in
  _ ← raise_if (negb (bool_decide (kdf ∈ KDF_NAMES))) (ProtectedAuditError "unsupported_kdf");
  let kind := str_take 128 (text_or record "protection_kind" "unknown") in
  secret_set_ref ← secret_ref (get_or_none record "secret_set_ref");
  let strategy := text_or record "engine_strategy" "stdin" in
  _ ← raise_if (negb (bool_decide (strategy ∈ ENGINE_STRATEGIES))) (ProtectedAuditError "unsupported_strategy");
  b ← budget (get_or_none record "budget") format_name;
  result_ref ← match get_or_none record "result_secret_ref" with
               | VNone => Ok None
               | v => r ← secret_ref v; Ok (Some r)
               end;
  attempts ← nonnegative_int (get_or_none record "attempts");
  state ← match audit_state_of (text_or record "state" "pending") with
          | Some s => Ok s
          | None => Err (ProtectedAuditError "invalid_state")
          end;
  checkpoint ← checkpoint_of (get_or_none record "checkpoint");
  Ok (AT target_id artifact_id finding_id format_name kdf kind (text_or record "status" "pending")
        secret_set_ref strategy b checkpoint result_ref attempts state
        match get_or_none record "error_code" with VStr e => Some e | _ => None end).

(** worker/protected_audit.py:169-184 estimate_target_cost *)
Definition estimate_target_cost (format kdf : string) : result audit_error CostEstimate :=
  if negb (bool_decide (format ∈ TARGET_FORMATS)) then Err (ProtectedAuditError "unsupported_format")
  else
    let b := default_budget format in
    let cpu := max_cpu_seconds b * kdf_tenths kdf / 10 in
    Ok {| ce_cpu := cpu; ce_memory := max_memory_bytes b;
          ce_tier := if cpu <=? 120 then "low" else if cpu <=? 480 then "medium" else "high" |}.

(** ** Operations *)

(** [replace(target, ...)]. *)
Definition with_state (t : AuditTarget) (s : audit_state) (attempts : Z) (error : option string) : AuditTarget :=
  AT (at_id t) (at_artifact t) (at_finding t) (at_format t) (at_kdf t) (at_kind t) (at_status t)
    (at_secret_ref t) (at_strategy t) (at_budget t) (at_checkpoint t) (at_result_ref t) attempts s error.
Definition with_checkpoint (t : AuditTarget) (c : AuditCheckpoint) : AuditTarget :=
  AT (at_id t) (at_artifact t) (at_finding t) (at_format t) (at_kdf t) (at_kind t) (at_status t)
    (at_secret_ref t) (at_strategy t) (at_budget t) (Some c) (at_result_ref t) (at_attempts t) (at_state t) (at_error t).

(** worker/protected_audit.py:187-195 transition_audit *)
Definition transition_audit (t : AuditTarget) (to_state : string) : result audit_error AuditTarget :=
  match audit_state_of to_state with
  | None => Err (ProtectedAuditError "invalid_state")
  | Some s => if negb (bool_decide (s ∈ audit_transitions (at_state t)))
              then Err (ProtectedAuditError "invalid_transition")
              else Ok (with_state t s (at_attempts t) (at_error t))
  end.

(** worker/protected_audit.py:198-201 fail_audit *)
Definition fail_audit (t : AuditTarget) (error_code : string) : result audit_error AuditTarget :=
  if negb (bool_decide (at_state t ∈ [APending; AQueued; ARunning; AVerifying]))
  then Err (ProtectedAuditError "invalid_transition")
  else Ok (with_state t AFailed (at_attempts t) (Some (str_take 128 error_code))).

(** worker/protected_audit.py:204-207 block_audit *)
Definition block_audit (t : AuditTarget) (error_code : string) : result audit_error AuditTarget :=
  if negb (bool_decide (at_state t ∈ [APending; AQueued]))
  then Err (ProtectedAuditError "invalid_transition")
  else Ok (with_state t ABlocked (at_attempts t) (Some (str_take 128 error_code))).

(** worker/protected_audit.py:210-216 restart_audit *)
Definition restart_audit (t : AuditTarget) : result audit_error AuditTarget :=
  if negb (bool_decide (at_state t ∈ [AFailed; ABlocked])) then Err (ProtectedAuditError "invalid_transition")
  else if budget_attempts (at_budget t) <=? at_attempts t then Err (ProtectedAuditError "attempt_limit")
  else Ok (with_state t AQueued (at_attempts t + 1) None).

(** worker/protected_audit.py:219-231 update_checkpoint *)
Definition update_checkpoint (t : AuditTarget) (stage cursor : string) (counters : list (string * Z))
    : result audit_error AuditTarget :=
  if negb (bool_decide (at_state t ∈ [ARunning; AVerifying])) then Err (ProtectedAuditError "invalid_checkpoint")
  else
    let get name := default 0 (dict_get counters name) in
    if negb (within (at_budget t) (get "cpu_seconds" + get "elapsed_seconds") (get "memory_bytes"))
    then Err (ProtectedAuditError "budget_exceeded")
    else Ok (with_checkpoint t (AC (str_take 128 stage) (str_take 512 cursor) counters)).

(** worker/protected_audit.py:234-245 verify_secret_reference: [known] says that the store still
    has metadata of a reference. *)
Definition verify_secret_reference (t : AuditTarget) (known : string -> bool) : result audit_error AuditTarget :=
  if known (at_secret_ref t) then Ok t else block_audit t "secret_set_missing".

(** ** The life of a target *)

Inductive audit_step (t t' : AuditTarget) : Prop :=
  | step_transition to_state : transition_audit t to_state = Ok t' -> audit_step t t'
  | step_fail e : fail_audit t e = Ok t' -> audit_step t t'
  | step_block e : block_audit t e = Ok t' -> audit_step t t'
  | step_restart : restart_audit t = Ok t' -> audit_step t t'
  | step_checkpoint stage cursor counters : update_checkpoint t stage cursor counters = Ok t' -> audit_step t t'
  | step_verify known : verify_secret_reference t known = Ok t' -> audit_step t t'.

Definition audit_terminal (s : audit_state) : Prop := s = ACompleted \/ s = ACancelled.

(** The counters of a checkpoint against a budget, as [update_checkpoint] adds them up. *)
Definition affordable (b : ResourceBudget) (c : AuditCheckpoint) : Prop :=
  let get name := default 0 (dict_get (ac_counters c) name) in
  get "cpu_seconds" + get "elapsed_seconds" <= max_cpu_seconds b /\ get "memory_bytes" <= max_memory_bytes b.

(** What no step changes. *)
Definition same_target (t t' : AuditTarget) : Prop :=
  exists c, t' = with_state (match c with Some c => with_checkpoint t c | None => t end)
                   (at_state t') (at_attempts t') (at_error t')
    /\ (forall c', c = Some c' -> affordable (at_budget t) c').

(** What one step guarantees. *)
Record audit_step_ok (t t' : AuditTarget) : Prop := {
  as_same : same_target t t';
  as_attempts : at_attempts t <= at_attempts t' <= Z.max (at_attempts t) (budget_attempts (at_budget t));
  as_terminal : audit_terminal (at_state t) -> t' = t;
}.

Lemma with_state_id t : with_state t (at_state t) (at_attempts t) (at_error t) = t.
Proof. by destruct t. Qed.

Lemma step_ok_state t s n e :
  (audit_terminal (at_state t) -> False) ->
  at_attempts t <= n <= Z.max (at_attempts t) (budget_attempts (at_budget t)) ->
  audit_step_ok t (with_state t s n e).
Proof. intros Ht Hn. split; [by exists None|done|by intros ?%Ht]. Qed.

Lemma audit_step_sound t t' : audit_step t t' -> audit_step_ok t t'.
Proof.
  assert (forall t, audit_step_ok t t) as Hrefl.
  { intros k. split; [|lia|done]. exists None. split; [by rewrite with_state_id|done]. }
  assert (forall t e t', block_audit t e = Ok t' -> audit_step_ok t t') as Hblock.
  { intros k e k'. unfold block_audit. case_bool_decide as Hs; [|done]. intros [= <-].
    apply step_ok_state; [|lia]. intros [Ht|Ht]; rewrite Ht in Hs; set_solver. }
  destruct 1 as [s H|e H|e H|H|st cu co H|known H].
  - unfold transition_audit in H. destruct (audit_state_of s) as [s'|]; [|done]. case_bool_decide as Hs; [|done].
    injection H as <-. apply step_ok_state; [|lia]. intros [Ht|Ht]; rewrite Ht in Hs; simpl in Hs; set_solver.
  - unfold fail_audit in H. case_bool_decide as Hs; [|done]. injection H as <-. apply step_ok_state; [|lia].
    intros [Ht|Ht]; rewrite Ht in Hs; set_solver.
  - by eapply Hblock.
  - unfold restart_audit in H. case_bool_decide as Hs; [|done]. simpl in H.
    destruct (Z.leb_spec (budget_attempts (at_budget t)) (at_attempts t)); [done|]. injection H as <-.
    apply step_ok_state; [|lia]. intros [Ht|Ht]; rewrite Ht in Hs; set_solver.
  - unfold update_checkpoint in H. case_bool_decide as Hs; [|done]. simpl in H.
    destruct (within _ _ _) eqn:Hw; [|done]. injection H as <-. unfold within in Hw. to_prop.
    split; [|simpl; lia|].
    + exists (Some (AC (str_take 128 st) (str_take 512 cu) co)). split; [by destruct t|].
      intros c' [= <-]. split; simpl; tauto.
    + intros [Ht|Ht]; rewrite Ht in Hs; set_solver.
  - unfold verify_secret_reference in H. destruct (known _); [|by eapply Hblock]. injection H as <-. apply Hrefl.
Qed.

Lemma required_str_ok r n s : required_str r n = Ok s -> s <> "".
Proof. unfold required_str. destruct (String.eqb_spec (text_or r n "") ""); [done|]. by intros [= <-]. Qed.

Lemma secret_ref_ok v s : secret_ref v = Ok s -> is_vault_ref s = true.
Proof. destruct v as [| | |x| | |]; try done. simpl. destruct (is_vault_ref x) eqn:E; [|done]. by intros [= <-]. Qed.

#[local] Arguments secret_ref : simpl never.

Lemma positive_int_ok v z : positive_int v = Ok z -> 0 < z.
Proof.
  unfold positive_int. destruct (as_int v) as [y|]; [|done]. destruct (Z.leb_spec y 0); [done|]. by intros [= <-].
Qed.

Lemma nonnegative_int_ok v z : nonnegative_int v = Ok z -> 0 <= z.
Proof.
  unfold nonnegative_int. destruct v; try (by intros [= <-]);
    (destruct (as_int _) as [y|]; [|done]; destruct (Z.ltb_spec y 0); [done|]; by intros [= <-]).
Qed.

Lemma default_budget_pos f : 0 < max_cpu_seconds (default_budget f) /\ 0 < max_memory_bytes (default_budget f)
  /\ 0 < budget_attempts (default_budget f).
Proof. unfold default_budget. repeat destruct (String.eqb _ _); simpl; lia. Qed.

Lemma budget_pos v f b : budget v f = Ok b ->
  0 < max_cpu_seconds b /\ 0 < max_memory_bytes b /\ 0 < budget_attempts b.
Proof.
  unfold budget. destruct v as [| | | | | |m]; try done.
  - intros [= <-]. apply default_budget_pos.
  - intros H. inv_ok. repeat match goal with H : positive_int _ = Ok _ |- _ => apply positive_int_ok in H end. done.
Qed.

Lemma normalize_ok r t :
  normalize_target r = Ok t ->
  at_format t ∈ TARGET_FORMATS /\ at_kdf t ∈ KDF_NAMES /\ at_strategy t ∈ ENGINE_STRATEGIES
  /\ is_vault_ref (at_secret_ref t) = true /\ (forall s, at_result_ref t = Some s -> is_vault_ref s = true)
  /\ 0 <= at_attempts t /\ 0 < max_cpu_seconds (at_budget t) /\ 0 < max_memory_bytes (at_budget t)
  /\ 0 < budget_attempts (at_budget t)
  /\ at_id t <> "" /\ at_artifact t <> "" /\ at_finding t <> "".
Proof.
  unfold normalize_target. intros H. inv_ok.
  repeat match goal with
  | H : required_str _ _ = Ok _ |- _ => apply required_str_ok in H
  | H : secret_ref _ = Ok _ |- _ => apply secret_ref_ok in H
  | H : nonnegative_int _ = Ok _ |- _ => apply nonnegative_int_ok in H
  | H : budget _ _ = Ok _ |- _ => apply budget_pos in H as (? & ? & ?)
  | H : negb (bool_decide _) = false |- _ => apply negb_false_iff, bool_decide_eq_true in H
  end. simpl. split_and!; try done.
  intros s ->. destruct (get_or_none r "result_secret_ref"); try done;
    match goal with H : mbind _ _ = Ok _ |- _ =>
      apply bind_ok in H as (y & Hy & [= <-]); by apply secret_ref_ok in Hy end.
Qed.

(** The life of an audit target: normalisation accepts only opaque vault references, known
    formats, key derivations and strategies, and positive budgets; whatever operations follow, the
    target keeps its identity, references and budget, its attempts only grow and never exceed the
    larger of the initial attempts and the budget, a completed or cancelled target never changes
    again, and every checkpoint stored is within the resource budget. *)
Theorem audit_history r t0 t :
  normalize_target r = Ok t0 -> reachable audit_step t0 t ->
  is_vault_ref (at_secret_ref t) = true /\ at_format t ∈ TARGET_FORMATS /\ at_kdf t ∈ KDF_NAMES
  /\ at_strategy t ∈ ENGINE_STRATEGIES /\ 0 < budget_attempts (at_budget t)
  /\ (at_id t, at_artifact t, at_finding t, at_format t, at_kdf t, at_kind t, at_status t)
     = (at_id t0, at_artifact t0, at_finding t0, at_format t0, at_kdf t0, at_kind t0, at_status t0)
  /\ (at_secret_ref t, at_strategy t, at_budget t, at_result_ref t)
     = (at_secret_ref t0, at_strategy t0, at_budget t0, at_result_ref t0)
  /\ at_attempts t0 <= at_attempts t <= Z.max (at_attempts t0) (budget_attempts (at_budget t0))
  /\ (audit_terminal (at_state t0) -> t = t0)
  /\ (at_checkpoint t = at_checkpoint t0 \/ exists c, at_checkpoint t = Some c /\ affordable (at_budget t0) c).
Proof.
  intros (H1 & H2 & H3 & H4 & _ & _ & _ & _ & H5 & _)%normalize_ok Hr.
  induction Hr as [|t t' _ IH Hs]; [split_and!; try done; [lia|by left]|].
  destruct IH as (I1 & I2 & I3 & I4 & I5 & I6 & I7 & I8 & I9 & I10).
  apply audit_step_sound in Hs as [(c & Hst & Hc) Ha Ht].
  assert (at_budget t = at_budget t0) as Hb by congruence.
  split_and!; try (rewrite Hst; by destruct c).
  - lia.
  - rewrite Hb in Ha. lia.
  - intros Hterm. assert (t = t0) as E by auto. rewrite <- E in Hterm. rewrite (Ht Hterm). done.
  - rewrite Hst. destruct c as [c|]; simpl; [|done]. right. exists c. split; [done|]. rewrite <- Hb. by apply Hc.
Qed.

(** The attempt budget bounds restarts only: a failed target runs again through plain transitions,
    and failing once more gives the target back, attempts included. *)
Theorem audit_retry_unbounded t :
  at_state t = AFailed ->
  (t1 ← transition_audit t "queued"; t2 ← transition_audit t1 "running"; transition_audit t2 "failed") = Ok t.
Proof. destruct t. simpl. intros ->. reflexivity. Qed.

(** ** Witnesses *)

Definition demo_vault : string := "vault:" +:+ of_chars (repeat "a"%char 32).
Definition demo_record : list (string * value) :=
  [("target_id", VStr "t1"); ("artifact_id", VStr "a1"); ("finding_id", VStr "f1"); ("format", VStr "zip");
   ("secret_set_ref", VStr demo_vault); ("budget", VDict [("max_attempts", VInt 2)])].
Definition demo_target : AuditTarget :=
  AT "t1" "a1" "f1" "zip" "unknown" "unknown" "pending" demo_vault "stdin" (Budget 120 (256 * 1024 * 1024) 2)
    None None 0 APending None.

Lemma audit_history_witness :
  normalize_target demo_record = Ok demo_target
  /\ reachable audit_step demo_target (with_state demo_target AQueued 0 None)
  /\ is_vault_ref (at_secret_ref (with_state demo_target AQueued 0 None)) = true.
Proof.
  assert (normalize_target demo_record = Ok demo_target) as Hn by (by vm_compute).
  assert (reachable audit_step demo_target (with_state demo_target AQueued 0 None)) as Hr.
  { eapply reach_step; [apply reach_refl|]. apply (step_transition _ _ "queued"). reflexivity. }
  split; [exact Hn|]. split; [exact Hr|]. apply (audit_history _ _ _ Hn Hr).
Defined.
