(* ===== verification/PartitionDiscovery.v ===== *)
(** * Partition discovery (src/scanner/partition_discovery.py)

    The command the scanner lets run, the parser of the text that mmls prints, the entries it
    builds and the overlap check.  The runner is an argument of [discover_partitions], the call
    of [subprocess.run] an argument of [run_mmls].  The regular expression [MMLS_LINE] is the
    matcher [mmls_match], shown to accept exactly the lines the expression describes.  [int] of
    more than 4300 digits raises [ValueError] as Python does. *)

From Stdlib Require Import ZArith Lia String Ascii.
From stdpp Require Import base list strings gmap sorting.
From S2P Require Import Prelude PyStr Json.

Local Open Scope string_scope.
Local Open Scope Z_scope.

(** ** Data *)

(** scanner/partition_discovery.py:38-43 PartitionDiscoveryError: next to the [ValueError] of [int]. *)
Inductive pd_error :=
  | PartitionDiscoveryError (code message : string)
  | PdValueError.

#[global] Instance pd_error_eq_dec : EqDecision pd_error.
Proof. solve_decision. Defined.

(** scanner/partition_discovery.py:11-11 SUPPORTED_TABLES *)
Definition SUPPORTED_TABLES : list string := ["DOS Partition Table"; "GUID Partition Table"].
(** scanner/partition_discovery.py:12-12 MAX_TOOL_OUTPUT_CHARS *)
Definition MAX_TOOL_OUTPUT_CHARS : Z := 1048576.
(** scanner/partition_discovery.py:13-13 MAX_DESCRIPTION_CHARS *)
Definition MAX_DESCRIPTION_CHARS : Z := 1024.
(** scanner/partition_discovery.py:14-27 DENIED_ARGUMENT_FRAGMENTS *)
Definition DENIED_ARGUMENT_FRAGMENTS : list string :=
  ["repair"; "write"; "wipe"; "format"; "init"; "mkfs"; "parted"; "fdisk"; "sgdisk"; "testdisk"].

(** scanner/partition_discovery.py:46-58 PartitionEntry *)
Record PartitionEntry := PE {
  pe_slot : string;
  pe_offset_bytes : Z;
  pe_length_bytes : Z;
  pe_start : Z;
  pe_end : Z;
  pe_count : Z;
  pe_description : string;
  pe_type : option string;
  pe_label : option string;
  pe_allocated : bool;
  pe_warnings : list string
}.

(** scanner/partition_discovery.py:61-67 PartitionDiscoveryResult *)
Record PartitionDiscoveryResult := PDR {
  pr_source_id : string;
  pr_table_type : option string;
  pr_sector_size : Z;
  pr_partitions : list PartitionEntry;
  pr_warnings : list string
}.

(** scanner/partition_discovery.py:70-74 TskCommandResult *)
Record TskCommandResult := TSK { returncode : Z; stdout : string; stderr : string }.

(** ** The line matcher *)

(** The groups of [MMLS_LINE]. *)
Record mmls_groups := MG {
  g_slot : string; g_meta : string; g_start : string; g_end : string; g_length : string;
  g_description : string
}.

(** A greedy run of a class of characters and the rest. *)
Fixpoint span (p : ascii -> bool) (l : list ascii) : list ascii * list ascii :=
  match l with
  | [] => ([], [])
  | c :: k => if p c then let '(a, b) := span p k in (c :: a, b) else ([], l)
  end.

(** [\s+] and [\d+]: a run of at least one character. *)
Definition run1 (p : ascii -> bool) (l : list ascii) : option (list ascii * list ascii) :=
  match span p l with ([], _) => None | r => Some r end.

Definition match_slot (l : list ascii) : option (list ascii * list ascii) :=
  match l with
  | a :: b :: c :: d :: r =>
    if is_digit a && is_digit b && is_digit c && Ascii.eqb d ":"%char
    then Some ([a; b; c; d], r) else None
  | _ => None
  end.

Definition match_word (w l : list ascii) : option (list ascii * list ascii) :=
  if decide (take (length w) l = w) then Some (w, drop (length w) l) else None.

Definition match_meta (l : list ascii) : option (list ascii * list ascii) :=
  match match_word (chars "Meta") l with
  | Some r => Some r
  | None => match_word (chars "-----") l
  end.

(** The end of the expression, [\s+(.+?)\s*$]: the description is the shortest text before
    trailing white space, and when only white space is left its last character. *)
Definition match_description (l : list ascii) : option (list ascii) :=
  let '(w, rest) := span is_space l in
  match rest with
  | [] => match reverse w with c :: _ :: _ => Some [c] | _ => None end
  | _ => match w with [] => None | _ => Some (rdrop_while is_space rest) end
  end.

(** scanner/partition_discovery.py:28-35 MMLS_LINE: [match] on a line without line breaks. *)
Definition mmls_match (l : list ascii) : option mmls_groups :=
  '(slot, l) ← match_slot (drop_while is_space l);
  '(_, l) ← run1 is_space l;
  '(meta, l) ← match_meta l;
  '(_, l) ← run1 is_space l;
  '(start, l) ← run1 is_digit l;
  '(_, l) ← run1 is_space l;
  '(end_, l) ← run1 is_digit l;
  '(_, l) ← run1 is_space l;
  '(len, l) ← run1 is_digit l;
  description ← match_description l;
  Some (MG (of_chars slot) (of_chars meta) (of_chars start) (of_chars end_) (of_chars len)
          (of_chars description)).

(** ** Entries *)

(** [int] of a run of digits. *)
Definition int_of_digits (s : string) : result pd_error Z :=
  if 4300 <? str_len s then Err PdValueError
  else match Z_of_digits s with Some z => Ok z | None => Err PdValueError end.

Definition or_none (s : string) : option string := if String.eqb s "" then None else Some s.

(** [s.split(c, 1)\[0\]] and [s.split(c, 1)\[1\]]. *)
Definition before_char (c : ascii) (s : string) : string :=
  match partition_char c s with Some (a, _) => a | None => s end.
Definition after_char (c : ascii) (s : string) : string :=
  match partition_char c s with Some (_, b) => b | None => s end.

(** scanner/partition_discovery.py:222-226 _partition_type *)
Definition partition_type (description : string) : option string :=
  if char_in ","%char description then or_none (strip (before_char ","%char description))
  else if char_in "("%char description then or_none (strip (before_char "("%char description))
  else or_none description.

(** scanner/partition_discovery.py:229-232 _partition_label *)
Definition partition_label (description : string) : option string :=
  if negb (char_in "("%char description) || negb (char_in ")"%char description) then None
  else or_none (strip (before_char ")"%char (after_char "("%char description))).

(** scanner/partition_discovery.py:189-219 _entry_from_match *)
Definition entry_from_match (g : mmls_groups) (sector_size : Z) : result pd_error PartitionEntry :=
  start_sector ← int_of_digits (g_start g);
  end_sector ← int_of_digits (g_end g);
  sector_count ← int_of_digits (g_length g);
  let description := strip (g_description g) in
  let expected_count := Z.max 0 (end_sector - start_sector + 1) in
  let too_long := MAX_DESCRIPTION_CHARS <? str_len description in
  let description := if too_long then str_take MAX_DESCRIPTION_CHARS description else description in
  let invalid := (end_sector <? start_sector) || (sector_count <=? 0) in
  let warnings :=
    ((if too_long then ["description_truncated:" +:+ g_slot g] else []) ++
     (if negb (sector_count =? expected_count) then ["length_mismatch:" +:+ g_slot g] else []) ++
     (if invalid then ["invalid_extent:" +:+ g_slot g] else []))%list in
  let allocated :=
    if str_contains "Primary Table" description || str_contains "Unallocated" description then false
    else if invalid then false else String.eqb (g_meta g) "Meta" in
  Ok (PE (g_slot g) (start_sector * sector_size) (sector_count * sector_size) start_sector
        end_sector sector_count description (partition_type description)
        (partition_label description) allocated warnings).

(** ** Overlaps *)

Definition pair_le (p q : Z * Z) : Prop := p.1 < q.1 \/ (p.1 = q.1 /\ p.2 <= q.2).
#[export] Instance pair_le_dec : RelDecision pair_le.
Proof. intros p q. unfold pair_le. apply _. Defined.
#[export] Instance pair_le_total : Total pair_le.
Proof. intros p q. unfold pair_le. lia. Qed.
#[export] Instance pair_le_trans : Transitive pair_le.
Proof. intros p q r. unfold pair_le. lia. Qed.

Fixpoint overlap_loop (previous_end : option Z) (l : list (Z * Z)) : bool :=
  match l with
  | [] => false
  | (start, end_) :: l =>
    match previous_end with
    | Some e => if start <=? e then true else overlap_loop (Some end_) l
    | None => overlap_loop (Some end_) l
    end
  end.

Definition extent_pair (e : PartitionEntry) : Z * Z := (pe_start e, pe_end e).

(** scanner/partition_discovery.py:235-244 _has_overlap *)
Definition has_overlap (partitions : list PartitionEntry) : bool :=
  overlap_loop None (merge_sort pair_le (extent_pair <$> filter_b pe_allocated partitions)).

(** ** The parser *)

(** What the loop of [parse_mmls_output] carries. *)
Record parse_state := PS {
  ps_warnings : list string; ps_table : option string; ps_partitions : list PartitionEntry;
  ps_unrecognized : bool
}.

(** One iteration: a table header, an entry, or a line nobody knows. *)
Definition parse_line (sector_size : Z) (st : parse_state) (raw_line : list ascii)
    : result pd_error parse_state :=
  let line := strip (of_chars raw_line) in
  if String.eqb line "" then Ok st
  else if starts_with "Partition Table:" line then
    let table := or_none (strip (after_char ":"%char line)) in
    let warning := match table with
                   | Some t => if bool_decide (t ∈ SUPPORTED_TABLES) then []
                               else ["unsupported_table:" +:+ t]
                   | None => []
                   end in
    Ok (PS (ps_warnings st ++ warning)%list table (ps_partitions st) (ps_unrecognized st))
  else match mmls_match raw_line with
       | None => Ok (PS (ps_warnings st) (ps_table st) (ps_partitions st) true)
       | Some g =>
         entry ← entry_from_match g sector_size;
         Ok (PS (ps_warnings st ++ pe_warnings entry)%list (ps_table st)
               (ps_partitions st ++ [entry])%list (ps_unrecognized st))
       end.

Fixpoint parse_lines (sector_size : Z) (st : parse_state) (lines : list (list ascii))
    : result pd_error parse_state :=
  match lines with
  | [] => Ok st
  | line :: lines => st ← parse_line sector_size st line; parse_lines sector_size st lines
  end.

(** scanner/partition_discovery.py:247-248 _sanitize_text *)
Definition sanitize_text (s : string) : string :=
  str_take 240 (join " " (split_ws (replace_char "000"%char " " s))).

Definition sector_size_of (v : value) : result pd_error Z :=
  match v with
  | VInt z => if z <=? 0 then Err (PartitionDiscoveryError "invalid_sector_size" "sector size must be positive")
              else Ok z
  | _ => Err (PartitionDiscoveryError "invalid_sector_size" "sector size must be positive")
  end.

(** scanner/partition_discovery.py:130-186 parse_mmls_output *)
Definition parse_mmls_output (stdout stderr : string) (returncode : Z) (source_id : string)
    (sector_size : value) : result pd_error PartitionDiscoveryResult :=
  size ← sector_size_of sector_size;
  _ ← raise_if ((MAX_TOOL_OUTPUT_CHARS <? str_len stdout) || (MAX_TOOL_OUTPUT_CHARS <? str_len stderr))
        (PartitionDiscoveryError "partition_output_too_large" "partition tool output is too large");
  st ← parse_lines size (PS [] None [] false) (splitlines stdout);
  let stderr_text := sanitize_text stderr in
  let warnings :=
    (ps_warnings st ++
     (if negb (returncode =? 0) then ["mmls_exit:" +:+ str_of_Z returncode] else []) ++
     (if negb (String.eqb stderr_text "") then ["mmls_stderr:" +:+ stderr_text] else []) ++
     (if bool_decide (ps_table st = None) then ["partition_table_missing"] else []) ++
     (if ps_unrecognized st then ["unrecognized_partition_output"] else []) ++
     (if bool_decide (length (ps_partitions st) = 0%nat) then ["no_partitions"] else []) ++
     (if has_overlap (ps_partitions st) then ["overlapping_partitions"] else []))%list in
  Ok (PDR source_id (ps_table st) size (ps_partitions st) (dedup warnings)).

(** ** The command *)

(** [Path(s).name]: the last component that is not empty and not a dot. *)
Definition path_name (s : string) : string :=
  default "" (last (filter_b (fun p => negb (String.eqb p "") && negb (String.eqb p "."))
                      (split_on "/"%char s))).

(** scanner/partition_discovery.py:251-261 _validate_safe_command *)
Definition validate_safe_command (args : list string) : result pd_error unit :=
  match args with
  | [] => Err (PartitionDiscoveryError "empty_command" "partition command is empty")
  | binary :: _ =>
    _ ← raise_if (negb (String.eqb binary "mmls") || negb (String.eqb (path_name binary) "mmls"))
          (PartitionDiscoveryError "unsafe_partition_command" "only mmls is allowed");
    let joined := lower (join " " args) in
    raise_if (existsb (fun fragment => str_contains fragment joined) DENIED_ARGUMENT_FRAGMENTS)
      (PartitionDiscoveryError "unsafe_partition_command" "repair or write command surface is prohibited")
  end.

#[global] Arguments validate_safe_command : simpl never.

(** scanner/partition_discovery.py:84-99 run_mmls: [run] is [subprocess.run], [None] its timeout. *)
Definition run_mmls (run : list string -> value -> option TskCommandResult) (args : list string)
    (timeout_seconds : value) : result pd_error TskCommandResult :=
  _ ← validate_safe_command args;
  match run args timeout_seconds with
  | Some completed => Ok completed
  | None => Err (PartitionDiscoveryError "partition_timeout" "partition discovery timed out")
  end.

(** [not isinstance(timeout_seconds, int) or timeout_seconds <= 0]. *)
Definition bad_timeout (v : value) : bool :=
  match v with VInt z => z <=? 0 | VBool b => negb b | _ => true end.

(** scanner/partition_discovery.py:102-127 discover_partitions *)
Definition discover_partitions (runner : list string -> value -> result pd_error TskCommandResult)
    (source_path source_id : string) (sector_size timeout_seconds : value) (mmls_binary : string)
    : result pd_error PartitionDiscoveryResult :=
  size ← sector_size_of sector_size;
  _ ← raise_if (bad_timeout timeout_seconds)
        (PartitionDiscoveryError "invalid_timeout" "partition timeout must be positive");
  let args := [mmls_binary; "-B"; "-S"; str_of_Z size; source_path] in
  _ ← validate_safe_command args;
  result ← runner args timeout_seconds;
  parse_mmls_output (stdout result) (stderr result) (returncode result) source_id sector_size.

(** ** Pairs of a list *)

(** Two positions of the list whose elements are related. *)
Fixpoint some_pair {A} (R : A -> A -> Prop) (l : list A) : Prop :=
  match l with [] => False | x :: l => (exists y, y ∈ l /\ R x y) \/ some_pair R l end.

Lemma some_pair_lookup {A} (R : A -> A -> Prop) l :
  some_pair R l <-> exists i j x y, (i < j)%nat /\ l !! i = Some x /\ l !! j = Some y /\ R x y.
Proof.
  induction l as [|a l IH]; simpl.
  - split; [done|]. by intros (i & j & x & y & _ & H & _).
  - rewrite IH. split.
    + intros [(y & [k Hk]%list_elem_of_lookup & HR)|(i & j & x & y & Hij & Hx & Hy & HR)].
      * exists 0%nat, (S k), a, y. split; [lia|done].
      * exists (S i), (S j), x, y. split; [lia|done].
    + intros ([|i] & [|j] & x & y & Hij & Hx & Hy & HR); simplify_eq/=; try lia.
      * left. exists y. split; [by eapply list_elem_of_lookup_2|done].
      * right. exists i, j, x, y. split; [lia|done].
Qed.

Lemma some_pair_perm {A} (R : A -> A -> Prop) l k :
  (forall x y, R x y -> R y x) -> l ≡ₚ k -> some_pair R l -> some_pair R k.
Proof.
  intros HR. induction 1 as [|x l k Hp IH|x y l|l k m _ IH1 _ IH2]; simpl; [done| | |auto].
  - intros [(y & Hy & Hxy)|H]; [left|by right; apply IH]. exists y. by rewrite <- Hp.
  - setoid_rewrite elem_of_cons. intros [(z & [->|Hz] & H)|[(z & Hz & H)|H]]; eauto 7.
Qed.

Lemma some_pair_fmap {A B} (f : A -> B) (R : B -> B -> Prop) l :
  some_pair R (f <$> l) <-> some_pair (fun x y => R (f x) (f y)) l.
Proof.
  induction l as [|a l IH]; simpl; [done|]. rewrite IH. apply or_iff_compat_r.
  setoid_rewrite list_elem_of_fmap. naive_solver.
Qed.

Lemma some_pair_filter {A} (p : A -> bool) (R : A -> A -> Prop) l :
  some_pair R (filter_b p l) <-> some_pair (fun x y => p x = true /\ p y = true /\ R x y) l.
Proof.
  induction l as [|a l IH]; simpl; [done|]. rewrite <- IH.
  pose proof (fun y => elem_of_filter_b p l y) as Hf. unfold filter_b in *.
  destruct (p a) eqn:E; simpl; [setoid_rewrite Hf|]; naive_solver.
Qed.

(** ** Overlaps *)

(** Two extents share a sector. *)
Definition share (p q : Z * Z) : Prop := exists s, p.1 <= s <= p.2 /\ q.1 <= s <= q.2.

Lemma overlap_loop_some e l :
  overlap_loop (Some e) l =
  match l with [] => false | p :: k => (p.1 <=? e) || overlap_loop (Some p.2) k end.
Proof. destruct l as [|[s t] k]; [done|]. simpl. by destruct (s <=? e). Qed.

Lemma overlap_loop_spec l :
  StronglySorted pair_le l -> Forall (fun p => p.1 <= p.2) l ->
  overlap_loop None l = true <-> some_pair share l.
Proof.
  destruct l as [|[s0 e0] l]; [done|]. intros Hs Hw. cbn [overlap_loop].
  revert s0 e0 Hs Hw. induction l as [|[s1 e1] l IH]; intros s0 e0 Hs Hw.
  - simpl. split; [done|]. intros [(y & Hy & _)|[]]. by apply elem_of_nil in Hy.
  - inversion Hs as [|? ? Hs' Hle]; subst. rewrite !Forall_cons in Hw, Hle. simpl in Hw, Hle.
    rewrite Forall_cons in Hw. destruct Hw as (W0 & W1 & Wl), Hle as [L1 Ll].
    unfold pair_le in L1. simpl in W1, L1.
    rewrite overlap_loop_some, orb_true_iff, Z.leb_le. cbn [fst snd].
    rewrite (IH s1 e1) by (done || (constructor; done)).
    change (some_pair share ((s0, e0) :: (s1, e1) :: l))
      with ((exists y, y ∈ (s1, e1) :: l /\ share (s0, e0) y) \/ some_pair share ((s1, e1) :: l)).
    split; intros [H|H]; auto.
    + left. exists (s1, e1). split; [left|]. exists s1. simpl. lia.
    + destruct (decide (s1 <= e0)); [by left|]. exfalso. destruct H as ([s e] & Hy & (x & Hx & Hx')).
      simpl in *. apply elem_of_cons in Hy as [[= -> ->]|Hy]; [lia|].
      inversion Hs' as [|? ? _ Hle']; subst. rewrite Forall_forall in Hle'.
      specialize (Hle' _ Hy). unfold pair_le in Hle'. simpl in Hle'. lia.
Qed.

Lemma share_sym p q : share p q -> share q p.
Proof. intros (s & ? & ?). by exists s. Qed.

(** Every allocated entry has a proper extent. *)
Definition proper (e : PartitionEntry) : Prop := pe_allocated e = true -> pe_start e <= pe_end e.

Lemma has_overlap_spec l :
  Forall proper l ->
  has_overlap l = true <->
  some_pair (fun p q => pe_allocated p = true /\ pe_allocated q = true /\
                        share (extent_pair p) (extent_pair q)) l.
Proof.
  intros Hp. rewrite <- some_pair_filter, <- (some_pair_fmap extent_pair). unfold has_overlap.
  pose proof (merge_sort_Permutation pair_le (extent_pair <$> filter_b pe_allocated l)) as Hm.
  rewrite overlap_loop_spec.
  - split; apply some_pair_perm; (exact share_sym || done).
  - apply StronglySorted_merge_sort; apply _.
  - rewrite Hm, Forall_fmap, Forall_forall. intros e [He Ha]%elem_of_filter_b. simpl.
    rewrite Forall_forall in Hp. by apply Hp.
Qed.

(** ** What the parser guarantees of an entry *)

Record entry_ok (size : Z) (e : PartitionEntry) : Prop := {
  eo_offset : pe_offset_bytes e = pe_start e * size;
  eo_length : pe_length_bytes e = pe_count e * size;
  eo_nonneg : 0 <= pe_start e /\ 0 <= pe_end e /\ 0 <= pe_count e;
  eo_allocated : pe_allocated e = true -> pe_start e <= pe_end e /\ 0 < pe_count e;
  eo_count : pe_warnings e = [] -> pe_count e = pe_end e - pe_start e + 1;
  eo_description : str_len (pe_description e) <= MAX_DESCRIPTION_CHARS;
  eo_warnings : "overlapping_partitions" ∉ pe_warnings e
}.

Lemma int_of_digits_nonneg s z : int_of_digits s = Ok z -> 0 <= z.
Proof.
  unfold int_of_digits, Z_of_digits, uint_Z. intros H. split_matches. lia.
Qed.

Lemma str_take_len n s : 0 <= n -> str_len (str_take n s) <= n.
Proof.
  intros Hn. unfold str_take, str_len. rewrite <- length_chars, chars_of_chars, length_take. lia.
Qed.

Lemma entry_from_match_ok g size e : entry_from_match g size = Ok e -> entry_ok size e.
Proof.
  unfold entry_from_match. intros H. inv_ok.
  repeat match goal with H : int_of_digits _ = Ok _ |- _ => apply int_of_digits_nonneg in H end.
  split; cbn [pe_offset_bytes pe_length_bytes pe_start pe_end pe_count pe_allocated pe_warnings pe_description].
  - done.
  - done.
  - lia.
  - destruct (_ || str_contains "Unallocated" _); [done|].
    destruct (_ || _) eqn:E; [done|]. apply orb_false_iff in E. lia.
  - intros Hw. apply app_eq_nil in Hw as [_ [Hw Hi]%app_eq_nil].
    destruct (negb _) eqn:E in Hw; [done|]. destruct (_ || _) eqn:E' in Hi; [done|].
    apply orb_false_iff in E'. apply negb_false_iff, Z.eqb_eq in E. lia.
  - destruct (_ <? _) eqn:E; [apply str_take_len; unfold MAX_DESCRIPTION_CHARS; lia|].
    apply Z.ltb_ge in E. done.
  - rewrite !elem_of_app, !elem_of_if. naive_solver.
Qed.

Definition state_ok (size : Z) (st : parse_state) : Prop :=
  Forall (entry_ok size) (ps_partitions st) /\ "overlapping_partitions" ∉ ps_warnings st /\
  forall e, e ∈ ps_partitions st -> pe_warnings e ⊆ ps_warnings st.

Lemma parse_line_ok size st line st' :
  parse_line size st line = Ok st' -> state_ok size st -> state_ok size st'.
Proof.
  unfold parse_line. intros H (Hp & Hw & Hs). destruct (String.eqb _ ""); [by inv_ok|].
  destruct (starts_with _ _).
  - injection H as <-. split; [done|]. cbn [ps_warnings ps_partitions]. split.
    + rewrite elem_of_app. intros [?|Ht]; [done|].
      destruct (or_none _); [destruct (bool_decide _)|];
        try (by apply elem_of_nil in Ht); by apply list_elem_of_singleton in Ht.
    + intros e He x Hx. apply elem_of_app. left. by apply (Hs e).
  - destruct (mmls_match line) as [g|]; [|injection H as <-; done]. inv_ok.
    match goal with H : entry_from_match _ _ = Ok ?y |- _ => rename y into e; apply entry_from_match_ok in H as He end.
    split; [apply Forall_app; split; [done|]; by constructor|]. cbn [ps_warnings ps_partitions]. split.
    + rewrite elem_of_app. intros [?|?]; [done|]. by apply (eo_warnings _ _ He).
    + intros k [Hk|Hk]%elem_of_app x Hx; apply elem_of_app; [left; by apply (Hs k)|].
      apply list_elem_of_singleton in Hk as ->. by right.
Qed.

Lemma parse_lines_ok size st lines st' :
  parse_lines size st lines = Ok st' -> state_ok size st -> state_ok size st'.
Proof.
  revert st. induction lines as [|line lines IH]; intros st H Hok; simpl in H; inv_ok; [done|].
  eapply IH; [done|]. by eapply parse_line_ok.
Qed.

(** The byte ranges of two entries have no byte in common. *)
Definition bytes_disjoint (p q : PartitionEntry) : Prop :=
  pe_offset_bytes p + pe_length_bytes p <= pe_offset_bytes q \/
  pe_offset_bytes q + pe_length_bytes q <= pe_offset_bytes p.

Lemma disjoint_sectors size p q :
  0 < size -> entry_ok size p -> entry_ok size q -> pe_warnings p = [] -> pe_warnings q = [] ->
  pe_start p <= pe_end p -> pe_start q <= pe_end q ->
  ~ share (extent_pair p) (extent_pair q) -> bytes_disjoint p q.
Proof.
  intros Hs Hp Hq Wp Wq Lp Lq Hn. unfold bytes_disjoint.
  rewrite (eo_offset _ _ Hp), (eo_offset _ _ Hq), (eo_length _ _ Hp), (eo_length _ _ Hq),
    (eo_count _ _ Hp Wp), (eo_count _ _ Hq Wq).
  destruct (decide (pe_end p < pe_start q)); [left; nia|].
  destruct (decide (pe_end q < pe_start p)); [right; nia|].
  destruct Hn. exists (Z.max (pe_start p) (pe_start q)). simpl. lia.
Qed.

(** The parsed partition table is consistent.  Every entry has its byte offset and length
    from its sectors and the sector size, an allocated entry has a non-empty extent, and its
    warnings are among those of the result.  The warning [overlapping_partitions] is given
    exactly when two different entries are allocated and share a sector; without it the byte
    ranges of any two allocated entries that carry no warning are disjoint. *)
Theorem parsed_partitions_consistent out err rc id size r :
  parse_mmls_output out err rc id (VInt size) = Ok r ->
  Forall (fun e => entry_ok size e /\ pe_warnings e ⊆ pr_warnings r) (pr_partitions r) /\
  ("overlapping_partitions" ∈ pr_warnings r <->
   exists i j p q s, (i < j)%nat /\ pr_partitions r !! i = Some p /\ pr_partitions r !! j = Some q /\
     pe_allocated p = true /\ pe_allocated q = true /\
     pe_start p <= s <= pe_end p /\ pe_start q <= s <= pe_end q) /\
  ("overlapping_partitions" ∉ pr_warnings r ->
   forall i j p q, (i < j)%nat -> pr_partitions r !! i = Some p -> pr_partitions r !! j = Some q ->
     pe_allocated p = true -> pe_allocated q = true -> pe_warnings p = [] -> pe_warnings q = [] ->
     bytes_disjoint p q).
Proof.
  unfold parse_mmls_output. intros H. inv_ok.
  match goal with H : sector_size_of _ = Ok ?x |- _ =>
    assert (x = size /\ 0 < size) as [-> Hsize] by (revert H; simpl; destruct (size <=? 0) eqn:E;
      [done|]; intros [= ->]; split; [done|]; lia) end.
  match goal with H : parse_lines _ _ _ = Ok ?x |- _ => rename x into st; apply parse_lines_ok in H as (Hp & Hw & Hs) end.
  2: { split; [constructor|]. split; [apply not_elem_of_nil|]. by intros e ?%elem_of_nil. }
  cbn [pr_partitions pr_warnings].
  match goal with |- context [dedup ?l] => set (ws := l) end.
  assert ("overlapping_partitions" ∈ dedup ws <-> has_overlap (ps_partitions st) = true) as Hin.
  { rewrite elem_of_dedup. subst ws. rewrite !elem_of_app. split.
    - rewrite !elem_of_if. naive_solver.
    - intros ->. do 6 right. left. }
  assert (has_overlap (ps_partitions st) = true <->
    exists i j p q s, (i < j)%nat /\ ps_partitions st !! i = Some p /\ ps_partitions st !! j = Some q /\
     pe_allocated p = true /\ pe_allocated q = true /\
     pe_start p <= s <= pe_end p /\ pe_start q <= s <= pe_end q) as Hov.
  { rewrite has_overlap_spec, some_pair_lookup.
    - split.
      + intros (i & j & p & q & Hij & Hi & Hj & Ap & Aq & s & Sp & Sq). by exists i, j, p, q, s.
      + intros (i & j & p & q & s & Hij & Hi & Hj & Ap & Aq & Sp & Sq). exists i, j, p, q.
        do 5 (split; [done|]). by exists s.
    - eapply Forall_impl; [exact Hp|]. intros e He Ha. apply (eo_allocated _ _ He Ha). }
  split; [|split; [by rewrite Hin|]].
  - rewrite Forall_forall in Hp |- *. intros e He. split; [by apply Hp|].
    intros x Hx%(Hs e He). apply elem_of_dedup. subst ws. apply elem_of_app. by left.
  - rewrite Hin, Hov. intros Hn i j p q Hij Hi Hj Ap Aq Wp Wq. rewrite Forall_lookup in Hp.
    pose proof (Hp _ _ Hi) as Op. pose proof (Hp _ _ Hj) as Oq.
    apply (disjoint_sectors size); try done; [apply (eo_allocated _ _ Op Ap)|apply (eo_allocated _ _ Oq Aq)|].
    intros (s & Sp & Sq). destruct Hn. by exists i, j, p, q, s.
Qed.

(** ** The language of [MMLS_LINE] *)

Definition all_of (p : ascii -> bool) (l : list ascii) : Prop := Forall (fun c => p c = true) l.
Definition some_of (p : ascii -> bool) (l : list ascii) : Prop := all_of p l /\ l <> [].

(** The expression read declaratively: how a line splits into its groups [slot], [meta],
    [start], [end], [length] and [description] and the white space between them. *)
Definition mmls_line (l slot meta start end_ len description : list ascii) : Prop :=
  exists w0 w1 w2 w3 w4 w5 w6,
    l = (w0 ++ slot ++ w1 ++ meta ++ w2 ++ start ++ w3 ++ end_ ++ w4 ++ len ++ w5 ++ description ++ w6)%list /\
    all_of is_space w0 /\ all_of is_space w6 /\
    Forall (some_of is_space) [w1; w2; w3; w4; w5] /\
    (exists ds, slot = (ds ++ [":"%char])%list /\ length ds = 3%nat /\ all_of is_digit ds) /\
    (meta = chars "Meta" \/ meta = chars "-----") /\
    Forall (some_of is_digit) [start; end_; len] /\ description <> [].

(** A run ends where the next character is not of the class. *)
Definition stops (p : ascii -> bool) (l : list ascii) : Prop :=
  match l with [] => True | c :: _ => p c = false end.

Lemma span_app p a b : all_of p a -> stops p b -> span p (a ++ b)%list = (a, b).
Proof.
  induction 1 as [|c a Hc Ha IH]; intros Hb; simpl.
  - destruct b as [|c b]; [done|]. simpl in Hb |- *. by rewrite Hb.
  - by rewrite Hc, IH.
Qed.

Lemma span_spec p l a b : span p l = (a, b) -> l = (a ++ b)%list /\ all_of p a /\ stops p b.
Proof.
  revert a b. induction l as [|c l IH]; intros a b H; simpl in H.
  - injection H as <- <-. repeat constructor.
  - destruct (p c) eqn:E.
    + destruct (span p l) as [a' b']. injection H as <- <-. destruct (IH _ _ eq_refl) as (-> & ? & ?).
      split; [done|]. split; [by constructor|done].
    + injection H as <- <-. split; [done|]. split; [constructor|done].
Qed.

Lemma run1_app p a b : some_of p a -> stops p b -> run1 p (a ++ b)%list = Some (a, b).
Proof. intros [Ha Hn] Hb. unfold run1. rewrite span_app by done. by destruct a. Qed.

Lemma run1_spec p l a b : run1 p l = Some (a, b) -> l = (a ++ b)%list /\ some_of p a /\ stops p b.
Proof.
  unfold run1. destruct (span p l) as [a' b'] eqn:E. intros H.
  destruct a' as [|c a']; [done|]. injection H as <- <-. apply span_spec in E as (? & ? & ?).
  split; [done|]. by split.
Qed.

Lemma stops_app p a b : a <> [] -> stops p a -> stops p (a ++ b)%list.
Proof. by destruct a. Qed.

Lemma some_of_stops p q a b :
  (forall c, p c = true -> q c = false) -> some_of p a -> stops q (a ++ b)%list.
Proof. intros Hpq [Ha Hn]. destruct Ha as [|c a Hc _]; [done|]. simpl. auto. Qed.

Lemma digit_not_space c : is_digit c = true -> is_space c = false.
Proof. unfold is_digit, is_space. intros H. apply not_true_is_false. intros H'. lia. Qed.
Lemma space_not_digit c : is_space c = true -> is_digit c = false.
Proof. intros H. apply not_true_is_false. intros ?%digit_not_space. congruence. Qed.

Lemma drop_while_app {A} (p : A -> bool) a b :
  Forall (fun c => p c = true) a -> drop_while p (a ++ b)%list = drop_while p b.
Proof. induction 1 as [|c a Hc Ha IH]; simpl; [done|]. by rewrite Hc. Qed.

Lemma drop_while_stops p l : stops p l -> drop_while p l = l.
Proof. destruct l; simpl; [done|]. by intros ->. Qed.

Lemma stops_drop_while p l : stops p (drop_while p l).
Proof. induction l as [|c l IH]; simpl; [done|]. by destruct (p c) eqn:E. Qed.

Lemma span_drop_while p l a b : span p l = (a, b) -> b = drop_while p l.
Proof.
  intros (-> & Ha & Hb)%span_spec. rewrite drop_while_app by done. by rewrite drop_while_stops.
Qed.

Lemma rdrop_while_app {A} (p : A -> bool) a b :
  Forall (fun c => p c = true) b -> rdrop_while p (a ++ b)%list = rdrop_while p a.
Proof.
  intros H. unfold rdrop_while. rewrite reverse_app, drop_while_app; [done|].
  by rewrite <- (reverse_Permutation b) in H.
Qed.

Lemma drop_while_nil p l : drop_while p l = [] <-> all_of p l.
Proof.
  split.
  - induction l as [|c l IH]; simpl; [constructor|]. destruct (p c) eqn:E; [|done].
    intros H. constructor; [done|]. by apply IH.
  - intros H. rewrite <- (app_nil_r l). by rewrite drop_while_app.
Qed.

Lemma drop_while_app_stop {A} (p : A -> bool) a b :
  drop_while p a <> [] -> drop_while p (a ++ b)%list = (drop_while p a ++ b)%list.
Proof. induction a as [|c a IH]; simpl; [done|]. by destruct (p c). Qed.

Lemma rdrop_while_split p l :
  exists t, l = (rdrop_while p l ++ t)%list /\ all_of p t /\ rdrop_while p (rdrop_while p l) = rdrop_while p l.
Proof.
  destruct (span p (reverse l)) as [a b] eqn:E. pose proof (span_drop_while _ _ _ _ E) as Hb.
  apply span_spec in E as (He & Ha & Hs). exists (reverse a). unfold rdrop_while.
  rewrite <- Hb, reverse_involutive, (drop_while_stops _ b) by done. split; [|split; [|done]].
  - by rewrite <- reverse_app, <- He, reverse_involutive.
  - unfold all_of. by rewrite reverse_Permutation.
Qed.

Lemma rdrop_while_stops p l : stops p l -> stops p (rdrop_while p l) /\ (l <> [] -> rdrop_while p l <> []).
Proof.
  destruct (rdrop_while_split p l) as (t & He & Ht & _). intros Hs.
  destruct (rdrop_while p l) as [|c k] eqn:E; split; try done.
  - intros Hn _. simpl in He. subst t. destruct l as [|c l]; [done|]. simpl in Hs.
    inversion Ht; congruence.
  - simpl. rewrite He in Hs. done.
Qed.

Lemma strip_rdrop l : stops is_space l -> strip (of_chars (rdrop_while is_space l)) = of_chars (rdrop_while is_space l).
Proof.
  intros Hs. unfold strip. rewrite chars_of_chars.
  rewrite (drop_while_stops _ (rdrop_while _ _)) by (by apply rdrop_while_stops).
  destruct (rdrop_while_split is_space l) as (t & _ & _ & ->). done.
Qed.

Lemma match_description_app w d w' :
  some_of is_space w -> d <> [] -> all_of is_space w' ->
  exists g, match_description (w ++ d ++ w')%list = Some g /\ strip (of_chars g) = strip (of_chars d).
Proof.
  intros [Hw Hwn] Hd Hw'. unfold match_description.
  destruct (span is_space _) as [u rest] eqn:E. pose proof (span_drop_while _ _ _ _ E) as Hr.
  rewrite drop_while_app in Hr by done. apply span_spec in E as (He & Hu & Hs).
  assert (u <> []) as Hun.
  { intros ->. destruct Hw as [|c w Hc Hw]; [done|]. simpl in He. rewrite <- He in Hs. simpl in Hs. congruence. }
  destruct (decide (drop_while is_space d = [])) as [Hnil|Hnil].
  - apply drop_while_nil in Hnil as Hds. rewrite drop_while_app in Hr by done.
    apply drop_while_nil in Hw'. rewrite Hw' in Hr. subst rest. rewrite app_nil_r in He.
    destruct (reverse u) as [|c [|c' v]] eqn:Er; apply (f_equal length) in Er as Hl;
      rewrite length_reverse, <- He, !length_app in Hl; destruct w, d; simpl in Hl; try done; try lia.
    exists [c]. split; [done|]. unfold strip. rewrite !chars_of_chars, Hnil.
    assert (is_space c = true) as Hc.
    { unfold all_of in Hu. rewrite <- (reverse_Permutation u), Er in Hu. by inversion Hu. }
    simpl. by rewrite Hc.
  - rewrite drop_while_app_stop in Hr by done. exists (rdrop_while is_space rest).
    destruct rest as [|c rs] eqn:Erest.
    + symmetry in Hr. apply app_eq_nil in Hr as [? _]. done.
    + rewrite <- Erest in *. split; [by destruct u|]. rewrite strip_rdrop by done.
      rewrite Hr. unfold strip. rewrite chars_of_chars. by rewrite rdrop_while_app.
Qed.

Lemma match_description_spec l g :
  match_description l = Some g ->
  exists w w', l = (w ++ g ++ w')%list /\ some_of is_space w /\ g <> [] /\ all_of is_space w'.
Proof.
  unfold match_description. destruct (span is_space l) as [u rest] eqn:E.
  apply span_spec in E as (-> & Hu & Hs). intros H.
  destruct rest as [|c rs] eqn:Er.
  - destruct (reverse u) as [|c [|c' v]] eqn:Eu; try done. injection H as <-.
    apply (f_equal reverse) in Eu. rewrite reverse_involutive, reverse_cons in Eu. subst u.
    unfold all_of in Hu. apply Forall_app in Hu as [Hv _].
    exists (reverse (c' :: v)), []. rewrite app_nil_r. split; [done|]. split; [|by repeat constructor].
    split; [done|]. rewrite reverse_cons. by destruct (reverse v).
  - rewrite <- Er in *. destruct u as [|b us] eqn:Eu; [done|]. rewrite <- Eu in *.
    injection H as <-.
    destruct (rdrop_while_split is_space rest) as (t & He & Ht & _).
    exists u, t. rewrite <- He. split; [done|]. split; [split; [done|by subst]|].
    split; [|done]. apply rdrop_while_stops; [done|by subst].
Qed.

Lemma match_slot_app ds r :
  length ds = 3%nat -> all_of is_digit ds -> match_slot (ds ++ ":"%char :: r)%list = Some ((ds ++ [":"%char])%list, r).
Proof.
  intros Hl Hd. destruct ds as [|a [|b [|c [|? ?]]]]; try done.
  unfold all_of in Hd. rewrite !Forall_cons in Hd. destruct Hd as (Ha & Hb & Hc & _). simpl. by rewrite Ha, Hb, Hc.
Qed.

Lemma match_slot_spec l s r :
  match_slot l = Some (s, r) ->
  l = (s ++ r)%list /\ exists ds, s = (ds ++ [":"%char])%list /\ length ds = 3%nat /\ all_of is_digit ds.
Proof.
  unfold match_slot. intros H. destruct l as [|a [|b [|c [|d l]]]]; try done.
  destruct (_ && _) eqn:E; [|done]. injection H as <- <-.
  rewrite !andb_true_iff in E. destruct E as [[[Ha Hb] Hc] Hd%Ascii.eqb_eq]. subst d.
  split; [done|]. exists [a; b; c]. split; [done|]. split; [done|]. by repeat constructor.
Qed.

Lemma match_meta_app m r :
  m = chars "Meta" \/ m = chars "-----" -> match_meta (m ++ r)%list = Some (m, r).
Proof. unfold match_meta, match_word. by intros [-> | ->]. Qed.

Lemma match_word_spec w l m r : match_word w l = Some (m, r) -> l = (m ++ r)%list /\ m = w.
Proof.
  unfold match_word. intros H. case_decide as E; [|done]. injection H as <- <-.
  split; [|done]. rewrite <- E at 1. by rewrite take_drop.
Qed.

Lemma match_meta_spec l m r :
  match_meta l = Some (m, r) -> l = (m ++ r)%list /\ (m = chars "Meta" \/ m = chars "-----").
Proof.
  unfold match_meta. intros H. destruct (match_word (chars "Meta") l) as [[m' r']|] eqn:E.
  - injection H as <- <-. apply match_word_spec in E. tauto.
  - apply match_word_spec in H. tauto.
Qed.

Lemma some_of_digit_stop a b : some_of is_digit a -> stops is_space (a ++ b)%list.
Proof. apply some_of_stops. exact digit_not_space. Qed.
Lemma some_of_space_stop a b : some_of is_space a -> stops is_digit (a ++ b)%list.
Proof. apply some_of_stops. exact space_not_digit. Qed.
#[local] Hint Resolve some_of_digit_stop some_of_space_stop : core.

(** The matcher is the regular expression.  A line is matched exactly when it splits as
    [MMLS_LINE] says (a three-digit slot, [Meta] or five dashes, three runs of digits, a
    description, white space between), the groups are such a split, and they are the only ones:
    any other split has the same slot, kind and numbers, and a description that differs in the
    white space around it at most, which the entry does not keep. *)
Theorem mmls_match_language l :
  (forall g, mmls_match l = Some g ->
     mmls_line l (chars (g_slot g)) (chars (g_meta g)) (chars (g_start g)) (chars (g_end g))
       (chars (g_length g)) (chars (g_description g))) /\
  (forall slot meta start end_ len description,
     mmls_line l slot meta start end_ len description ->
     exists g, mmls_match l = Some g /\ chars (g_slot g) = slot /\ chars (g_meta g) = meta /\
       chars (g_start g) = start /\ chars (g_end g) = end_ /\ chars (g_length g) = len /\
       strip (g_description g) = strip (of_chars description)).
Proof.
  split.
  - intros g H. unfold mmls_match in H.
    destruct (span is_space l) as [w0 l0] eqn:E0. rewrite <- (span_drop_while _ _ _ _ E0) in H.
    apply span_spec in E0 as (-> & Hw0 & _).
    apply bind_Some in H as ([s l1] & (-> & Hs)%match_slot_spec & H).
    apply bind_Some in H as ([w1 l2] & (-> & H1 & _)%run1_spec & H).
    apply bind_Some in H as ([m l3] & (-> & Hm)%match_meta_spec & H).
    apply bind_Some in H as ([w2 l4] & (-> & H2 & _)%run1_spec & H).
    apply bind_Some in H as ([st l5] & (-> & Hst & _)%run1_spec & H).
    apply bind_Some in H as ([w3 l6] & (-> & H3 & _)%run1_spec & H).
    apply bind_Some in H as ([en l7] & (-> & Hen & _)%run1_spec & H).
    apply bind_Some in H as ([w4 l8] & (-> & H4 & _)%run1_spec & H).
    apply bind_Some in H as ([ln l9] & (-> & Hln & _)%run1_spec & H).
    apply bind_Some in H as (d & (w5 & w6 & -> & H5 & Hd & H6)%match_description_spec & H).
    injection H as <-. cbn [g_slot g_meta g_start g_end g_length g_description].
    rewrite !chars_of_chars. exists w0, w1, w2, w3, w4, w5, w6.
    rewrite !Forall_cons, !Forall_nil. tauto.
  - intros slot meta start end_ len d (w0 & w1 & w2 & w3 & w4 & w5 & w6 & -> & H0 & H6 & Hw & (ds & -> & Hl & Hds) & Hm & Hn & Hd).
    rewrite !Forall_cons in Hw. rewrite !Forall_cons in Hn. destruct Hw as (H1 & H2 & H3 & H4 & H5 & _), Hn as (Hs & He & Hlen & _).
    destruct (match_description_app w5 d w6 H5 Hd H6) as (g & Hg & Hstrip).
    exists (MG (of_chars (ds ++ [":"%char])) (of_chars meta) (of_chars start) (of_chars end_) (of_chars len) (of_chars g)).
    cbn [g_slot g_meta g_start g_end g_length g_description]. rewrite !chars_of_chars. split; [|done].
    unfold mmls_match. rewrite drop_while_app by done. rewrite <- (app_assoc ds). simpl app at 1.
    rewrite drop_while_stops by (destruct ds as [|c ds]; [done|]; inversion Hds; simpl; by apply digit_not_space).
    rewrite match_slot_app by done. simpl.
    rewrite run1_app by (done || (destruct Hm as [-> | ->]; done)). simpl.
    rewrite match_meta_app by done. simpl. rewrite run1_app by auto. simpl.
    rewrite run1_app by auto. simpl. rewrite run1_app by auto. simpl.
    rewrite run1_app by auto. simpl. rewrite run1_app by auto. simpl.
    rewrite run1_app by auto. simpl. by rewrite Hg.
Qed.

(** ** The command *)

(** What [_validate_safe_command] lets pass. *)
Definition safe_command (args : list string) : Prop :=
  head args = Some "mmls" /\
  forall fragment, fragment ∈ DENIED_ARGUMENT_FRAGMENTS ->
    str_contains fragment (lower (join " " args)) = false.

Lemma validate_safe_command_ok args : validate_safe_command args = Ok tt <-> safe_command args.
Proof.
  unfold safe_command. unfold validate_safe_command. destruct args as [|b args]; cbn -[DENIED_ARGUMENT_FRAGMENTS join].
  - split; [done|]. by intros [? _].
  - destruct (String.eqb_spec b "mmls") as [->|Hb]; cbn -[DENIED_ARGUMENT_FRAGMENTS join].
    + destruct (existsb _ _) eqn:E; cbn -[DENIED_ARGUMENT_FRAGMENTS join].
      * apply existsb_elem in E as (f & Hf & Hc). split; [done|]. intros [_ H]. rewrite (H f Hf) in Hc. done.
      * split; [|done]. intros _. split; [done|]. intros f Hf. apply not_true_is_false. intros Hc.
        assert (existsb (fun fragment => str_contains fragment (lower (join " " ("mmls" :: args))))
          DENIED_ARGUMENT_FRAGMENTS = true) as H by (apply existsb_elem; eauto). congruence.
    + split; [done|]. intros [[= ?] _]. done.
Qed.

(** Only safe commands run.  Two systems that answer alike to the commands that run the
    program [mmls] and contain none of the denied fragments cannot be told apart by
    [discover_partitions] with the subprocess runner, so the answer to any other command is
    never used; and the command it runs names the sector size and the source. *)
Theorem discover_runs_safe_commands run run' path id size timeout binary :
  (forall args t, safe_command args -> run args t = run' args t) ->
  discover_partitions (run_mmls run) path id size timeout binary
  = discover_partitions (run_mmls run') path id size timeout binary /\
  forall r, discover_partitions (run_mmls run) path id size timeout binary = Ok r ->
    exists z res, size = VInt z /\ 0 < z /\ binary = "mmls" /\
      safe_command ["mmls"; "-B"; "-S"; str_of_Z z; path] /\
      run ["mmls"; "-B"; "-S"; str_of_Z z; path] timeout = Some res /\
      parse_mmls_output (stdout res) (stderr res) (returncode res) id size = Ok r.
Proof.
  intros Hrun. split.
  - unfold discover_partitions, run_mmls. destruct (sector_size_of size) as [z|]; [|done]. simpl.
    destruct (bad_timeout timeout); [done|]. simpl.
    match goal with |- context [validate_safe_command ?a] =>
      destruct (validate_safe_command a) as [[]|] eqn:E end; [|done]. simpl.
    simpl. apply validate_safe_command_ok in E. by rewrite (Hrun _ _ E).
  - intros r H. unfold discover_partitions, run_mmls in H. inv_ok.
    match goal with H : validate_safe_command _ = Ok ?u |- _ => destruct u; apply validate_safe_command_ok in H as Hs end.
    match goal with H : sector_size_of _ = Ok ?x |- _ => rename x into z, H into Hz end.
    destruct size as [| |z'| | | |]; try done. simpl in Hz. destruct (z' <=? 0) eqn:Ez; [done|]. injection Hz as ->.
    pose proof (proj1 Hs) as [= ->]. exists z.
    destruct (run _ timeout) as [res|] eqn:Er; [|done]. inv_ok.
    match goal with H : run _ timeout = Some ?x |- _ => exists x end. split; [done|]. split; [lia|]. done.
Qed.

(** ** Examples *)

Definition demo_mmls : string :=
  "Partition Table: DOS Partition Table" +:+ of_chars ["010"%char] +:+
  "000:  Meta      0000000000   0000000000   0000000001   Primary Table (#0)" +:+ of_chars ["010"%char] +:+
  "001:  -----     0000000000   0000000062   0000000063   Unallocated" +:+ of_chars ["010"%char] +:+
  "002:  Meta      0000000063   0000002047   0000001985   NTFS / exFAT (0x07)" +:+ of_chars ["010"%char] +:+
  "003:  Meta      0000001024   0000003071   0000002048   HFS (0xaf)" +:+ of_chars ["010"%char].

(** The slot column of a partition in the output of mmls names the table and the entry; such a
    line is not recognised. *)
Example partition_slot_not_recognised :
  mmls_match (chars "002:  000:000   0000002048   0000206847   0000204800   NTFS / exFAT (0x07)") = None.
Proof. by vm_compute. Qed.

(** A path that contains a denied word is refused although the command only reads. *)
Example information_is_denied :
  validate_safe_command ["mmls"; "-B"; "-S"; "512"; "/cases/information/disk.img"]
  = Err (PartitionDiscoveryError "unsafe_partition_command" "repair or write command surface is prohibited").
Proof. by vm_compute. Qed.

(** A number of more than 4300 digits escapes as a plain [ValueError]. *)
Example long_number_escapes :
  parse_mmls_output ("000: Meta " +:+ of_chars (replicate 4301 "1"%char) +:+ " 1 1 x") "" 0 "s" (VInt 512)
  = Err PdValueError.
Proof. by vm_compute. Qed.

Definition demo_partitions : PartitionDiscoveryResult :=
  match parse_mmls_output demo_mmls "" 0 "source_1" (VInt 512) with
  | Ok r => r | Err _ => PDR "" None 0 [] [] end.

Lemma parsed_partitions_consistent_witness :
  pr_warnings demo_partitions = ["overlapping_partitions"] /\
  length (pr_partitions demo_partitions) = 4%nat /\
  exists i j p q s, (i < j)%nat /\ pr_partitions demo_partitions !! i = Some p /\
    pr_partitions demo_partitions !! j = Some q /\ pe_allocated p = true /\ pe_allocated q = true /\
    pe_start p <= s <= pe_end p /\ pe_start q <= s <= pe_end q.
Proof.
  split; [by vm_compute|]. split; [by vm_compute|].
  apply (parsed_partitions_consistent demo_mmls "" 0 "source_1" 512 demo_partitions); [by vm_compute|].
  assert (pr_warnings demo_partitions = ["overlapping_partitions"]) as -> by (by vm_compute). left.
Defined.

Lemma discover_runs_safe_commands_witness :
  discover_partitions (run_mmls (fun args _ => if decide (head args = Some "mmls") then Some (TSK 0 demo_mmls "") else None))
    "/dev/loop0" "source_1" (VInt 512) (VInt 30) "mmls"
  = discover_partitions (run_mmls (fun _ _ => Some (TSK 0 demo_mmls "")))
      "/dev/loop0" "source_1" (VInt 512) (VInt 30) "mmls".
Proof.
  apply discover_runs_safe_commands. intros args t [H _]. by rewrite decide_True.
Defined.

Lemma mmls_match_language_witness :
  exists g, mmls_match (chars "003:  Meta  0000001024   0000003071 0000002048   HFS (0xaf) ") = Some g /\
    g_slot g = "003:" /\ g_description g = "HFS (0xaf)" /\
    mmls_line (chars "003:  Meta  0000001024   0000003071 0000002048   HFS (0xaf) ")
      (chars "003:") (chars "Meta") (chars "0000001024") (chars "0000003071") (chars "0000002048")
      (chars "HFS (0xaf)").
Proof.
  exists (MG "003:" "Meta" "0000001024" "0000003071" "0000002048" "HFS (0xaf)").
  split; [by vm_compute|]. split; [done|]. split; [done|].
  exact (proj1 (mmls_match_language (chars "003:  Meta  0000001024   0000003071 0000002048   HFS (0xaf) "))
    (MG "003:" "Meta" "0000001024" "0000003071" "0000002048" "HFS (0xaf)") ltac:(by vm_compute)).
Defined.
