(* ===== verification/FilesystemEnumeration.v ===== *)
(** * Enumeration of a file system (src/scanner/filesystem_enumeration.py)

    Identification of a volume from the report of fsstat, the parser of the listing of fls, and
    the enumeration that runs the two tools.  The theorems: the tools are run with two fixed
    command lines only, fls only on a supported volume, and the parser keeps the order of the
    lines within the batch and gives every entry the nearest earlier entry of its parent path. *)

From Stdlib Require Import ZArith Lia String Ascii.
From stdpp Require Import base list strings gmap sorting.
From S2P Require Import Prelude PyStr Json Identifiers Messages PartitionDiscovery.

Local Open Scope string_scope.
Local Open Scope Z_scope.

(** scanner/filesystem_enumeration.py:14-14 SUPPORTED_FILESYSTEMS *)
Definition SUPPORTED_FILESYSTEMS : list string := ["ntfs"; "fat12"; "fat16"; "fat32"; "exfat"].
(** scanner/filesystem_enumeration.py:16-16 MAX_BATCH_SIZE *)
Definition MAX_BATCH_SIZE : Z := 4096.
(** scanner/filesystem_enumeration.py:17-30 DENIED_ARGUMENT_FRAGMENTS *)
Definition DENIED_FRAGMENTS : list string :=
  ["repair"; "write"; "wipe"; "format"; "init"; "mkfs"; "mount"; "fsck"; "chkdsk"; "testdisk"].

(** scanner/filesystem_enumeration.py:38-43 FilesystemEnumerationError, and the [IndexError] of an
    empty list of lines. *)
Inductive fs_error := FilesystemEnumerationError (code message : string) | FsIndexError.
Abbreviation scanned := (result fs_error).

(** scanner/filesystem_enumeration.py:46-53 FilesystemVolume *)
Record FilesystemVolume := {
  fv_volume_id : string; fv_source_id : string; fv_offset_bytes : Z; fv_filesystem : option string;
  fv_supported : bool; fv_warnings : list string }.

(** scanner/filesystem_enumeration.py:56-65 FilesystemEntry: over the type of its texts, which the
    normalisation takes to be sequences of code points. *)
Record FilesystemEntry {T : Type} := {
  fe_volume_id : string; fe_object_id : string; fe_parent_object_id : option string; fe_entry_id : string;
  fe_name : T; fe_entry_type : string; fe_allocated : bool; fe_path : T }.
Arguments FilesystemEntry : clear implicits.

(** scanner/filesystem_enumeration.py:68-72 FilesystemEnumerationResult *)
Record FilesystemEnumerationResult := {
  er_volume : FilesystemVolume; er_entries : list (FilesystemEntry string); er_warnings : list string }.

(** ** The volume *)

(** scanner/filesystem_enumeration.py:272-288 _normalize_filesystem *)
Definition normalize_filesystem (v : string) : option string :=
  let lowered := lower v in
  let has t := str_contains t lowered in
  if has "exfat" || has "ex-fat" then Some "exfat"
  else if has "fat32" || has "fat 32" then Some "fat32"
  else if has "fat16" || has "fat 16" then Some "fat16"
  else if has "fat12" || has "fat 12" then Some "fat12"
  else if has "ntfs" then Some "ntfs"
  else if has "ext4" then Some "ext4"
  else if has "hfs" then Some "hfs" else None.

(** [s.split(sub, 1)\[1\]] when [sub] occurs. *)
Fixpoint after_sub (sub l : list ascii) : option (list ascii) :=
  if bool_decide (take (length sub) l = sub) then Some (drop (length sub) l)
  else match l with [] => None | _ :: l => after_sub sub l end.

(** scanner/filesystem_enumeration.py:264-269 _detect_filesystem *)
Definition detect_filesystem (stdout : string) : scanned (option string) :=
  let text := lower stdout in
  match after_sub (chars "file system type:") (chars text) with
  | Some tail => match splitlines (of_chars tail) with
                 | [] => Err FsIndexError
                 | line :: _ => Ok (normalize_filesystem (strip (of_chars line)))
                 end
  | None => Ok (normalize_filesystem text)
  end.

(** scanner/filesystem_enumeration.py:157-186 identify_volume *)
Definition identify_volume (out err : string) (code : Z) (source_id : string) (partition : PartitionEntry) : scanned FilesystemVolume :=
  filesystem ← detect_filesystem out;
  let stderr_text := sanitize_text err in
  let supported := match filesystem with Some f => bool_decide (f ∈ SUPPORTED_FILESYSTEMS) | None => false end in
  let warnings :=
    ((if negb (code =? 0) then ["fsstat_exit:" +:+ str_of_Z code] else []) ++
     (if negb (String.eqb stderr_text "") then ["fsstat_stderr:" +:+ stderr_text] else []) ++
     match filesystem with
     | None => ["filesystem_unknown"]
     | Some f => if supported then [] else ["filesystem_unsupported:" +:+ f]
     end)%list in
  Ok {| fv_volume_id := "vol-" +:+ source_id +:+ "-" +:+ str_of_Z (pe_start partition) +:+ "-" +:+ str_of_Z (pe_count partition);
        fv_source_id := source_id; fv_offset_bytes := pe_offset_bytes partition; fv_filesystem := filesystem;
        fv_supported := supported && (code =? 0); fv_warnings := dedup warnings |}.

(** ** The listing *)

Record fls_groups := { fg_kind : ascii; fg_alloc : ascii; fg_object_id : string; fg_name : string }.

(** Runs of digits joined by single dashes. *)
Definition object_id_ok (l : list ascii) : bool :=
  forallb (fun part => negb (String.eqb part "") && forallb is_digit (chars part)) (split_on "-"%char (of_chars l)).

(** scanner/filesystem_enumeration.py:31-35 FLS_LINE: the object id is followed by white space or a
    colon, so it is the whole run of digits and dashes. *)
Definition fls_match (l : list ascii) : option fls_groups :=
  match l with
  | kind :: slash :: alloc :: rest =>
    if one_of "drlv-" kind && Ascii.eqb slash "/" && one_of "*-" alloc then
      match run1 is_space rest with
      | Some (_, rest) =>
        let '(id, rest) := span (fun c => is_digit c || Ascii.eqb c "-") rest in
        if object_id_ok id then
          match drop_while is_space rest with
          | c :: rest => if Ascii.eqb c ":"
                         then Some {| fg_kind := kind; fg_alloc := alloc; fg_object_id := of_chars id;
                                      fg_name := of_chars (drop_while is_space rest) |}
                         else None
          | [] => None
          end
        else None
      | None => None
      end
    else None
  | _ => None
  end.

(** scanner/filesystem_enumeration.py:291-293 _normalize_path *)
Definition normalize_path (v : string) : string :=
  let slash := Ascii.eqb "/" in
  let path := of_chars (rdrop_while slash (drop_while slash (chars (strip (replace_char backslash "/" v))))) in
  if String.eqb path "" then "." else path.

(** [path.rsplit("/", 1)] when there is a slash. *)
Definition rsplit_slash (path : string) : option (string * string) :=
  match split_at_char "/" (reverse (chars path)) with
  | Some (a, b) => Some (of_chars (reverse b), of_chars (reverse a))
  | None => None
  end.

(** scanner/filesystem_enumeration.py:296-303 _parent_id *)
Definition parent_id (path : string) (entries : list (FilesystemEntry string)) : option string :=
  match rsplit_slash path with
  | None => None
  | Some (parent_path, _) =>
    fe_object_id <$> head (filter_b (fun e => String.eqb (fe_path e) parent_path) (reverse entries))
  end.

(** scanner/filesystem_enumeration.py:306-313 _entry_type *)
Definition entry_type (kind : ascii) : string :=
  if Ascii.eqb kind "d" then "directory" else if Ascii.eqb kind "r" then "file" else if Ascii.eqb kind "l" then "symlink"
  else if Ascii.eqb kind "v" then "virtual" else "unknown".

(** scanner/filesystem_enumeration.py:316-317 _bounded_lines *)
Definition bounded_lines (out : string) (limit : Z) : list (list ascii) :=
  take (Z.to_nat limit) (filter_b (fun line => negb (forallb is_space line)) (splitlines out)).

Definition entry_of (volume_id : string) (before : list (FilesystemEntry string)) (g : fls_groups) : FilesystemEntry string :=
  let path := normalize_path (fg_name g) in
  {| fe_volume_id := volume_id; fe_object_id := fg_object_id g; fe_parent_object_id := parent_id path before;
     fe_entry_id := "entry-" +:+ volume_id +:+ "-" +:+ fg_object_id g;
     fe_name := match rsplit_slash path with Some (_, name) => name | None => path end;
     fe_entry_type := entry_type (fg_kind g); fe_allocated := Ascii.eqb (fg_alloc g) "-"; fe_path := path |}.

(** The body of the loop over the lines. *)
Definition fls_line (volume_id : string) (st : list (FilesystemEntry string) * list string) (raw_line : list ascii) :=
  let '(entries, warnings) := st in
  match fls_match (chars (strip (of_chars raw_line))) with
  | None => (entries, warnings ++ ["fls_unparsed_line"])%list
  | Some g => ((entries ++ [entry_of volume_id entries g])%list, warnings)
  end.

Definition batch_of (v : value) : scanned Z :=
  match v with
  | VInt z => if (0 <? z) && (z <=? MAX_BATCH_SIZE) then Ok z
              else Err (FilesystemEnumerationError "invalid_batch_size" "batch size must be positive")
  | _ => Err (FilesystemEnumerationError "invalid_batch_size" "batch size must be positive")
  end.

(** scanner/filesystem_enumeration.py:189-237 parse_fls_output *)
Definition parse_fls_output (out err : string) (code : Z) (volume_id : string) (batch_size : value)
    : scanned (list (FilesystemEntry string) * list string) :=
  batch ← batch_of batch_size;
  _ ← raise_if ((MAX_TOOL_OUTPUT_CHARS <? str_len out) || (MAX_TOOL_OUTPUT_CHARS <? str_len err))
        (FilesystemEnumerationError "filesystem_output_too_large" "filesystem tool output is too large");
  let '(entries, warnings) := foldl (fls_line volume_id) ([], []) (bounded_lines out batch) in
  let stderr_text := sanitize_text err in
  Ok (entries,
      dedup (warnings ++ (if batch <? zlen (splitlines out) then ["fls_batch_truncated"] else []) ++
             (if negb (code =? 0) then ["fls_exit:" +:+ str_of_Z code] else []) ++
             (if negb (String.eqb stderr_text "") then ["fls_stderr:" +:+ stderr_text] else []))%list).

(** ** The enumeration *)

(** scanner/filesystem_enumeration.py:324-336 _validate_safe_command *)
Definition validate_safe_tool (args : list string) (expected_binary : string) : scanned unit :=
  match args with
  | [] => Err (FilesystemEnumerationError "empty_command" "filesystem command is empty")
  | binary :: _ =>
    _ ← raise_if (negb (String.eqb binary expected_binary) || negb (String.eqb (path_name binary) expected_binary))
          (FilesystemEnumerationError "unsafe_filesystem_command" "unexpected filesystem tool requested");
    raise_if (existsb (fun fragment => str_contains fragment (lower (join " " args))) DENIED_FRAGMENTS)
      (FilesystemEnumerationError "unsafe_filesystem_command" "repair, mount, or write command surface is prohibited")
  end.

Definition bad_fs_timeout (v : value) : bool := match v with VInt z => z <=? 0 | _ => true end.

(** scanner/filesystem_enumeration.py:240-261 _run_tsk: [run] is [subprocess.run], [None] its timeout. *)
Definition run_tsk (run : list string -> value -> option TskCommandResult) (timeout_code : string) (args : list string)
    (timeout : value) : scanned TskCommandResult :=
  _ ← validate_safe_tool args (match args with a :: _ => path_name a | [] => "" end);
  _ ← raise_if (bad_fs_timeout timeout) (FilesystemEnumerationError "invalid_timeout" "filesystem timeout must be positive");
  match run args timeout with
  | Some r => Ok r
  | None => Err (FilesystemEnumerationError timeout_code "filesystem enumeration timed out")
  end.

(** scanner/filesystem_enumeration.py:82-85 FilesystemRunner *)
Record FilesystemRunner := {
  run_fsstat : list string -> value -> scanned TskCommandResult; run_fls : list string -> value -> scanned TskCommandResult }.

(** scanner/filesystem_enumeration.py:88-95 SubprocessFilesystemRunner *)
Definition subprocess_runner (run : list string -> value -> option TskCommandResult) : FilesystemRunner :=
  {| run_fsstat := run_tsk run "fsstat_timeout"; run_fls := run_tsk run "fls_timeout" |}.

Definition fsstat_args (binary offset source_path : string) : list string := [binary; "-o"; offset; source_path].
Definition fls_args (binary offset source_path : string) : list string := [binary; "-r"; "-p"; "-o"; offset; source_path].

(** scanner/filesystem_enumeration.py:98-154 enumerate_filesystem: the second result is the list of
    command lines given to the runner. *)
Definition enumerate_filesystem (source_path : string) (partition : PartitionEntry) (source_id : string)
    (runner : FilesystemRunner) (timeout batch_size : value) (fsstat_binary fls_binary : string)
    : list (list string) * scanned FilesystemEnumerationResult :=
  let offset := str_of_Z (pe_start partition) in
  let stat_line := fsstat_args fsstat_binary offset source_path in
  let list_line := fls_args fls_binary offset source_path in
  match (_ ← batch_of batch_size;
         _ ← raise_if (bad_fs_timeout timeout) (FilesystemEnumerationError "invalid_timeout" "filesystem timeout must be positive");
         _ ← validate_safe_tool stat_line "fsstat";
         validate_safe_tool list_line "fls") with
  | Err e => ([], Err e)
  | Ok _ =>
    match (r ← run_fsstat runner stat_line timeout; identify_volume (stdout r) (stderr r) (returncode r) source_id partition) with
    | Err e => ([stat_line], Err e)
    | Ok volume =>
      if negb (fv_supported volume)
      then ([stat_line], Ok {| er_volume := volume; er_entries := []; er_warnings := fv_warnings volume |})
      else
        ([stat_line; list_line],
         r ← run_fls runner list_line timeout;
         '(entries, warnings) ← parse_fls_output (stdout r) (stderr r) (returncode r) (fv_volume_id volume) batch_size;
         Ok {| er_volume := volume; er_entries := entries; er_warnings := dedup (fv_warnings volume ++ warnings)%list |})
    end
  end.

(** ** The parser *)

Lemma split_last_slash path parent name :
  rsplit_slash path = Some (parent, name) <-> path = (parent +:+ "/" +:+ name) /\ "/"%char ∉ chars name.
Proof.
  unfold rsplit_slash. split.
  - destruct (split_at_char "/" (reverse (chars path))) as [[a b]|] eqn:E; [|done]. intros [= <- <-].
    pose proof (split_at_char_notin _ _ _ _ E) as Hn. apply split_at_char_some in E.
    assert (Hp : chars path = (reverse b ++ "/"%char :: reverse a)%list).
    { rewrite <- (reverse_involutive (chars path)), E, reverse_app, reverse_cons, <- app_assoc. done. }
    split; [|by rewrite chars_of_chars, elem_of_reverse].
    apply chars_inj. by rewrite !chars_app, !chars_of_chars, Hp.
  - intros [-> Hn]. rewrite !chars_app, reverse_app, reverse_app.
    change (reverse (chars "/")) with ["/"%char]. rewrite <- app_assoc. cbn [app].
    rewrite split_at_char_app by (by rewrite elem_of_reverse). by rewrite !reverse_involutive, !of_chars_chars.
Qed.

Lemma head_filter_reverse {A} (p : A -> bool) l x :
  head (filter_b p (reverse l)) = Some x <-> exists a b, l = (a ++ x :: b)%list /\ p x = true /\ forall y, y ∈ b -> p y = false.
Proof.
  induction l as [|y l IH] using rev_ind.
  - cbn. split; [done|]. by intros ([|] & ? & ? & _).
  - rewrite reverse_snoc. cbn [filter_b List.filter]. fold (filter_b p). destruct (p y) eqn:E; cbn [head].
    + split.
      * intros [= ->]. exists l, []. split; [done|]. split; [done|]. by intros z ?%elem_of_nil.
      * intros (a & b & Hl & Hx & Hb). destruct b as [|z b _] using rev_ind.
        { apply app_inj_tail in Hl as [_ ->]. done. }
        rewrite app_comm_cons, app_assoc in Hl. apply app_inj_tail in Hl as [_ ->].
        rewrite (Hb z) in E; [done|]. rewrite elem_of_app. right. by left.
    + rewrite IH. split; intros (a & b & Hl & Hx & Hb).
      * exists a, (b ++ [y])%list. split; [by rewrite Hl, <- app_assoc|]. split; [done|].
        intros z [Hz| ->%list_elem_of_singleton]%elem_of_app; [by apply Hb|done].
      * destruct b as [|z b _] using rev_ind.
        { apply app_inj_tail in Hl as [_ ->]. congruence. }
        rewrite app_comm_cons, app_assoc in Hl. apply app_inj_tail in Hl as [-> _].
        exists a, b. split; [done|]. split; [done|]. intros w Hw. apply Hb. rewrite elem_of_app. by left.
Qed.

(** The parent of a path: the nearest earlier entry with the path before its last slash. *)
Lemma parent_id_spec path entries id :
  parent_id path entries = Some id <->
  exists parent name l e r, path = (parent +:+ "/" +:+ name) /\ "/"%char ∉ chars name /\ entries = (l ++ e :: r)%list /\
    fe_path e = parent /\ fe_object_id e = id /\ (forall x, x ∈ r -> fe_path x <> parent).
Proof.
  unfold parent_id. split.
  - destruct (rsplit_slash path) as [[parent name]|] eqn:Hs; [|done]. apply split_last_slash in Hs as [-> Hn].
    intros (e & Hh & ->)%fmap_Some. apply head_filter_reverse in Hh as (l & r & -> & Hp%String.eqb_eq & Hr).
    exists parent, name, l, e, r. split_and!; try done. intros x Hx. by apply String.eqb_neq, Hr.
  - intros (parent & name & l & e & r & Hp & Hn & -> & He & Hid & Hr).
    rewrite (proj2 (split_last_slash path parent name)) by done.
    rewrite (proj2 (head_filter_reverse _ _ e)); [cbn; by rewrite Hid|]. exists l, r. split; [done|].
    split; [by apply String.eqb_eq|]. intros y Hy. by apply String.eqb_neq, Hr.
Qed.

(** What a line says, and what an entry keeps of it. *)
Definition line_groups (raw_line : list ascii) : option fls_groups := fls_match (chars (strip (of_chars raw_line))).
Definition line_facts (g : fls_groups) : string * string * string * bool :=
  (fg_object_id g, normalize_path (fg_name g), entry_type (fg_kind g), Ascii.eqb (fg_alloc g) "-").
Definition entry_facts (e : FilesystemEntry string) : string * string * string * bool :=
  (fe_object_id e, fe_path e, fe_entry_type e, fe_allocated e).

(** Every entry refers to the entries before it. *)
Definition linked (volume_id : string) (entries : list (FilesystemEntry string)) : Prop :=
  forall i e, entries !! i = Some e ->
    fe_volume_id e = volume_id /\ fe_entry_id e = "entry-" +:+ volume_id +:+ "-" +:+ fe_object_id e /\
    fe_parent_object_id e = parent_id (fe_path e) (take i entries) /\
    fe_name e = match rsplit_slash (fe_path e) with Some (_, name) => name | None => fe_path e end.

Lemma entries_linked_snoc volume_id entries g : linked volume_id entries -> linked volume_id (entries ++ [entry_of volume_id entries g]).
Proof.
  intros Hl i e Hi. apply lookup_snoc_Some in Hi as [[Hlt Hi]|[-> <-]].
  - rewrite take_app_le by lia. by apply Hl.
  - rewrite take_app_length. done.
Qed.

Lemma fls_lines_spec volume_id lines entries warnings :
  linked volume_id entries ->
  let '(out, notes) := foldl (fls_line volume_id) (entries, warnings) lines in
  linked volume_id out /\ entry_facts <$> out = ((entry_facts <$> entries) ++ (line_facts <$> omap line_groups lines))%list /\
  (forall n, n ∈ notes <-> n ∈ warnings \/ (n = "fls_unparsed_line" /\ exists line, line ∈ lines /\ line_groups line = None)).
Proof.
  revert entries warnings. induction lines as [|line lines IH]; intros entries warnings Hl; cbn [foldl].
  { split; [done|]. split; [by rewrite app_nil_r|]. intros n. split; [by left|]. intros [?|(_ & ? & ?%elem_of_nil & _)]; done. }
  unfold fls_line at 2. fold (line_groups line). cbn [omap list_omap]. destruct (line_groups line) as [g|] eqn:Hg.
  - specialize (IH (entries ++ [entry_of volume_id entries g])%list warnings (entries_linked_snoc _ _ _ Hl)).
    destruct (foldl _ _ lines) as [out notes]. destruct IH as (H1 & H2 & H3). split; [done|]. split.
    + rewrite H2, fmap_app, fmap_cons, <- app_assoc. done.
    + intros n. rewrite H3. setoid_rewrite elem_of_cons. split; [naive_solver|]. intros [?|(-> & x & [->|Hx] & Hn)]; [by left|congruence|right; eauto].
  - specialize (IH entries (warnings ++ ["fls_unparsed_line"])%list Hl). destruct (foldl _ _ lines) as [out notes].
    destruct IH as (H1 & H2 & H3). split; [done|]. split; [done|]. intros n. rewrite H3, elem_of_app, list_elem_of_singleton.
    setoid_rewrite elem_of_cons. naive_solver.
Qed.

(** What the parser of the listing returns: the recognised lines of the batch in order, never
    more than the batch, each with the facts of its line, an identifier made of the volume and the
    object, and as parent the nearest earlier entry whose path is its own up to the last slash; a
    line is reported as unparsed exactly when one of the batch is not recognised. *)
Theorem listing_parsed out err code volume_id batch_size entries warnings :
  parse_fls_output out err code volume_id batch_size = Ok (entries, warnings) ->
  exists batch, batch_size = VInt batch /\ 0 < batch <= MAX_BATCH_SIZE /\
    entry_facts <$> entries = line_facts <$> omap line_groups (bounded_lines out batch) /\
    zlen entries <= batch /\ linked volume_id entries /\
    ("fls_unparsed_line" ∈ warnings <-> exists line, line ∈ bounded_lines out batch /\ line_groups line = None).
Proof.
  unfold parse_fls_output. intros (batch & Hb & (u & _ & Hp)%bind_ok)%bind_ok.
  assert (Hbatch : batch_size = VInt batch /\ 0 < batch <= MAX_BATCH_SIZE).
  { unfold batch_of in Hb. destruct batch_size as [| |z| | | |]; try done.
    destruct ((0 <? z) && (z <=? MAX_BATCH_SIZE)) eqn:E; [|done]. injection Hb as ->. split; [done|lia]. }
  destruct Hbatch as [-> Hbound]. exists batch. split; [done|]. split; [done|].
  pose proof (fls_lines_spec volume_id (bounded_lines out batch) [] []) as Hl.
  destruct (foldl _ _ _) as [es notes]. destruct Hl as (Hlinked & Hfacts & Hnotes); [by intros i e|].
  injection Hp as <- <-. split; [done|]. split.
  { apply (f_equal length) in Hfacts. cbn [fmap list_fmap app] in Hfacts. rewrite !length_fmap in Hfacts.
    assert (Hlen : (length (omap line_groups (bounded_lines out batch)) <= length (bounded_lines out batch))%nat).
    { generalize (bounded_lines out batch) as l. induction l as [|x l IH]; cbn; [lia|]. destruct (line_groups x); cbn; lia. }
    assert (length (bounded_lines out batch) <= Z.to_nat batch)%nat.
    { unfold bounded_lines. rewrite length_take. lia. }
    unfold zlen. lia. }
  split; [done|]. rewrite elem_of_dedup, !elem_of_app, Hnotes. split.
  - intros [[?%elem_of_nil|(_ & Hx)]|[Hx|[Hx|Hx]]]; [done|done|..]; exfalso.
    + by destruct (batch <? zlen (splitlines out)); [apply list_elem_of_singleton in Hx|apply elem_of_nil in Hx].
    + destruct (negb (code =? 0)); [apply list_elem_of_singleton in Hx|by apply elem_of_nil in Hx]. done.
    + destruct (negb (String.eqb (sanitize_text err) "")); [apply list_elem_of_singleton in Hx|by apply elem_of_nil in Hx]. done.
  - intros Hx. left. by right.
Qed.

(** ** The enumeration *)

Lemma safe_tool_spec args binary u :
  validate_safe_tool args binary = Ok u ->
  head args = Some binary /\ forall fragment, fragment ∈ DENIED_FRAGMENTS -> str_contains fragment (lower (join " " args)) = false.
Proof.
  destruct args as [|a args]; [done|]. cbn [validate_safe_tool head].
  intros (x & [Hb _]%raise_if_ok%orb_false_iff & Hf%raise_if_ok)%bind_ok. rewrite negb_false_iff, String.eqb_eq in Hb. subst a.
  split; [done|]. intros f Hin. apply not_true_is_false. intros Hc.
  rewrite <- not_true_iff_false, existsb_elem in Hf. apply Hf. by exists f.
Qed.

(** C33. The enumeration runs at most the two fixed command lines, fsstat first, with no denied
    fragment in them, and fls only after fsstat succeeded on a supported file system; entries are
    returned only then, and they are those of the listing. *)
Theorem enumeration_contained source_path partition source_id runner timeout batch_size fsstat_binary fls_binary ran res :
  enumerate_filesystem source_path partition source_id runner timeout batch_size fsstat_binary fls_binary = (ran, res) ->
  let stat_line := fsstat_args "fsstat" (str_of_Z (pe_start partition)) source_path in
  let list_line := fls_args "fls" (str_of_Z (pe_start partition)) source_path in
  (ran = [] \/ ran = [stat_line] \/ ran = [stat_line; list_line]) /\
  (forall args fragment, args ∈ ran -> fragment ∈ DENIED_FRAGMENTS -> str_contains fragment (lower (join " " args)) = false) /\
  (list_line ∈ ran -> exists r f, run_fsstat runner stat_line timeout = Ok r /\ returncode r = 0 /\
     detect_filesystem (stdout r) = Ok (Some f) /\ f ∈ SUPPORTED_FILESYSTEMS) /\
  (forall out, res = Ok out -> er_entries out <> [] -> exists r warnings, ran = [stat_line; list_line] /\
     run_fls runner list_line timeout = Ok r /\
     parse_fls_output (stdout r) (stderr r) (returncode r) (fv_volume_id (er_volume out)) batch_size = Ok (er_entries out, warnings)).
Proof.
  unfold enumerate_filesystem. set (offset := str_of_Z (pe_start partition)).
  destruct (_ ← batch_of batch_size; _) as [u|e] eqn:Hcheck.
  2: { intros [= <- <-]. cbv zeta. split; [by left|]. split; [by intros ? ? ?%elem_of_nil|]. split; [by intros ?%elem_of_nil|done]. }
  apply bind_ok in Hcheck as (? & _ & (? & _ & (? & H1%safe_tool_spec & H2%safe_tool_spec)%bind_ok)%bind_ok).
  cbn [head fsstat_args fls_args] in H1, H2. destruct H1 as [[= ->] H1], H2 as [[= ->] H2]. cbv zeta.
  set (stat_line := fsstat_args "fsstat" offset source_path) in *. set (list_line := fls_args "fls" offset source_path) in *.
  assert (Hne : list_line <> stat_line) by done.
  destruct (_ ← run_fsstat runner stat_line timeout; _) as [volume|e] eqn:Hvol.
  2: { intros [= <- <-]. split; [by right; left|]. split; [by intros ? f ->%list_elem_of_singleton; apply H1|].
       split; [by intros ?%list_elem_of_singleton|done]. }
  apply bind_ok in Hvol as (r & Hr & (filesystem & Hfs & [= <-])%bind_ok). cbn [fv_supported fv_volume_id fv_warnings].
  destruct (_ && (returncode r =? 0)) eqn:Hsup; cbn [negb].
  - intros [= <- <-]. split; [by right; right|]. split.
    { intros args f [->| ->%list_elem_of_singleton]%elem_of_cons; [apply H1|apply H2]. }
    split.
    + intros _. apply andb_true_iff in Hsup as [Hf%bool_decide_eq_true_1 Hc%Z.eqb_eq] || apply andb_true_iff in Hsup as [Hf Hc%Z.eqb_eq].
      destruct filesystem as [f|]; [|done]. exists r, f. split_and!; try done. by apply bool_decide_eq_true in Hf.
    + intros out (l & Hl & ([es ws] & Hp & [= <-])%bind_ok)%bind_ok _. cbn. by exists l, ws.
  - intros [= <- <-]. split; [by right; left|]. split; [by intros ? f ->%list_elem_of_singleton; apply H1|].
    split; [by intros ?%list_elem_of_singleton|]. by intros out [= <-].
Qed.

(** ** Examples *)

Definition newline : string := of_chars [chr 10].
Definition demo_listing : string :=
  join newline ["d/- 36: docs"; "r/- 37-128-1: docs/a.txt"; "r/* 38: docs/b.txt"; "garbage"].
Definition demo_parsed : scanned (list (FilesystemEntry string) * list string) :=
  parse_fls_output demo_listing "" 0 "vol-s-0-8" (VInt 16).
Definition demo_partition : PartitionEntry :=
  {| pe_slot := "000"; pe_offset_bytes := 1048576; pe_length_bytes := 4096; pe_start := 2048; pe_end := 2055; pe_count := 8;
     pe_description := "NTFS"; pe_type := None; pe_label := None; pe_allocated := true; pe_warnings := [] |}.
Definition demo_tools : FilesystemRunner := subprocess_runner (fun args _ => Some
  (match args with
   | "fsstat" :: _ => TSK 0 ("FILE SYSTEM INFORMATION" +:+ newline +:+ "File System Type: NTFS" +:+ newline) ""
   | _ => TSK 0 demo_listing "" end)).
Definition demo_enumeration : list (list string) * scanned FilesystemEnumerationResult :=
  enumerate_filesystem "/dev/reperio-source" demo_partition "s" demo_tools (VInt 30) (VInt 16) "fsstat" "fls".

Example demo_parents :
  match demo_parsed with
  | Ok (es, ws) => ((fun e : FilesystemEntry string => (fe_object_id e, fe_parent_object_id e, fe_name e, fe_allocated e)) <$> es, ws)
  | Err _ => ([], [])
  end = ([("36", None, "docs", true); ("37-128-1", Some "36", "a.txt", true); ("38", Some "36", "b.txt", false)],
         ["fls_unparsed_line"]).
Proof. vm_compute. reflexivity. Qed.

(** fls writes the type of the name and the type of the metadata around the slash; the pattern
    wants a star or a dash after it, so the line of an ordinary file is not recognised. *)
Example ordinary_line_not_recognised :
  line_groups (chars ("r/r 37-128-1:" +:+ of_chars [chr 9] +:+ "a.txt")) = None.
Proof. vm_compute. reflexivity. Qed.

(** A report that ends with the label of the type raises [IndexError]. *)
Example type_label_at_the_end : detect_filesystem "File System Type:" = Err FsIndexError.
Proof. vm_compute. reflexivity. Qed.

(** The path of the source takes part in the search for denied fragments. *)
Example mount_point_is_denied :
  snd (enumerate_filesystem "/mnt/unmounted/disk.img" demo_partition "s" demo_tools (VInt 30) (VInt 16) "fsstat" "fls")
  = Err (FilesystemEnumerationError "unsafe_filesystem_command" "repair, mount, or write command surface is prohibited").
Proof. vm_compute. reflexivity. Qed.

Lemma listing_parsed_witness :
  exists es ws, demo_parsed = Ok (es, ws) /\ linked "vol-s-0-8" es /\ zlen es = 3.
Proof.
  destruct demo_parsed as [[es ws]|e] eqn:Hd; [|vm_compute in Hd; discriminate].
  exists es, ws. split; [done|]. destruct (listing_parsed demo_listing "" 0 "vol-s-0-8" (VInt 16) es ws Hd) as (b & _ & _ & Hf & _ & Hl & _).
  split; [exact Hl|]. assert (Hz : match demo_parsed with Ok (es, _) => zlen es | Err _ => 0 end = 3) by (vm_compute; reflexivity).
  by rewrite Hd in Hz.
Defined.

Lemma enumeration_contained_witness :
  exists ran res, demo_enumeration = (ran, res) /\ is_ok res = true /\
    (ran = [] \/ ran = [fsstat_args "fsstat" "2048" "/dev/reperio-source"] \/
     ran = [fsstat_args "fsstat" "2048" "/dev/reperio-source"; fls_args "fls" "2048" "/dev/reperio-source"]).
Proof.
  destruct demo_enumeration as [ran res] eqn:Hd. exists ran, res. split; [done|].
  split; [change res with (snd (ran, res)); rewrite <- Hd; vm_compute; reflexivity|].
  exact (proj1 (enumeration_contained "/dev/reperio-source" demo_partition "s" demo_tools (VInt 30) (VInt 16) "fsstat" "fls" ran res Hd)).
Defined.
