(* ===== verification/MediaIdentity.v ===== *)
(** * Media identity (src/shared/media_identity.py)

    The versioned record that tells the medium in a removable reader from its replacement:
    the kinds of a device, the signals taken from its facts, the record built from them, and
    the validation of a record.  Devices and records are Python mappings, here the dicts of
    [Json]; a lookup of an unhashable value in a set is the [TypeError] of Python. *)

From Stdlib Require Import ZArith Lia String Ascii.
From stdpp Require Import base list strings gmap sorting.
From S2P Require Import Prelude PyStr Json Identifiers Messages.

Local Open Scope string_scope.
Local Open Scope Z_scope.

Abbreviation mapping := (list (string * value)).

(** ** Contract *)

(** shared/media_identity.py:17-17 MEDIA_IDENTITY_SCHEMA_VERSION *)
Definition MEDIA_IDENTITY_SCHEMA_VERSION : Z := 1.
(** shared/media_identity.py:19-28 SOURCE_KINDS *)
Definition SOURCE_KINDS : list string :=
  ["fixed_disk"; "usb_flash"; "memory_card"; "optical_disc"; "floppy_media"; "legacy_medium"].
(** shared/media_identity.py:30-32 READER_KINDS *)
Definition READER_KINDS : list string :=
  ["fixed_reader"; "card_reader"; "optical_drive"; "floppy_drive"; "legacy_reader"].
(** shared/media_identity.py:34-43 IDENTITY_STRENGTHS *)
Definition IDENTITY_STRENGTHS : list string :=
  ["by-id"; "wwn-facts"; "serial-facts"; "weak-facts"; "reader-plus-medium"; "reader-facts"].
(** shared/media_identity.py:45-53 MEDIUM_SIGNAL_FIELDS *)
Definition MEDIUM_SIGNAL_FIELDS : list string :=
  ["capacity_bytes"; "logical_block_size"; "physical_block_size"; "geometry"; "toc_sessions";
   "sampled_fingerprint_sha256"; "media_change_generation"].

(** The [TypeError] of a membership test with an unhashable value. *)
Inductive identity_error := IdentityTypeError.

(** [v in names] for a set of texts. *)
Definition in_texts (v : value) (names : list string) : result identity_error bool :=
  match member_of v names with Some b => Ok b | None => Err IdentityTypeError end.

(** ** Kinds *)

(** shared/media_identity.py:78-94 source_kind_for_device *)
Definition source_kind_for_device (device : mapping) : string :=
  let device_type := get_or_none device "device_type" in
  let removable := truthy (get_or_none device "removable") in
  if is_text device_type "optical" then "optical_disc"
  else if is_text device_type "floppy" then "floppy_media"
  else if is_text device_type "sd_card" || (removable && is_text device_type "usb_storage")
  then (if is_text device_type "sd_card" then "memory_card" else "usb_flash")
  else if removable then "legacy_medium" else "fixed_disk".

(** shared/media_identity.py:97-110 reader_kind_for_device *)
Definition reader_kind_for_device (device : mapping) : result identity_error string :=
  let device_type := get_or_none device "device_type" in
  if is_text device_type "optical" then Ok "optical_drive"
  else if is_text device_type "floppy" then Ok "floppy_drive"
  else if is_text device_type "sd_card" then Ok "card_reader"
  else if is_text device_type "usb_storage" then Ok "card_reader"
  else legacy ← in_texts device_type ["loop"; "block"];
       Ok (if legacy : bool then "legacy_reader" else "fixed_reader").

(** shared/media_identity.py:113-115 is_removable *)
Definition is_removable (device : mapping) : bool :=
  negb (String.eqb (source_kind_for_device device) "fixed_disk").

(** ** Normalisation *)

(** shared/media_identity.py:255-258 _positive_int *)
Definition positive_int (v : value) : option value :=
  match int_value v with Some z => if 0 <? z then Some v else None | None => None end.

(** shared/media_identity.py:261-264 _nonnegative_int *)
Definition nonnegative_int (v : value) (default : Z) : value :=
  match int_value v with Some z => if 0 <=? z then v else VInt default | None => VInt default end.

(** shared/media_identity.py:246-252 _normalized_fingerprint *)
Definition normalized_fingerprint (v : value) : option string :=
  match v with
  | VStr s => let stripped := strip s in
              if negb (str_len stripped =? 64) || existsb (fun c => negb (is_hex_lower c)) (chars stripped)
              then None else Some stripped
  | _ => None
  end.

Definition of_option {A} (f : A -> value) (o : option A) : value :=
  match o with Some x => f x | None => VNone end.

Definition GEOMETRY_KEYS : list string := ["cylinders"; "heads"; "sectors_per_track"; "bytes_per_sector"].

(** shared/media_identity.py:217-226 _normalized_geometry *)
Definition normalized_geometry (v : value) : value :=
  match v with
  | VDict d =>
    let cleaned := concat ((fun key => match positive_int (get_or_none d key) with
                                       | Some number => [(key, number)] | None => [] end) <$> GEOMETRY_KEYS) in
    match cleaned with [] => VNone | _ => VDict cleaned end
  | _ => VNone
  end.

(** One entry of the session table, kept or skipped. *)
Definition normalized_session (entry : value) : list value :=
  match entry with
  | VDict d =>
    let start := get_or_none d "start_sector" in
    let length := get_or_none d "length_sectors" in
    match int_value start, int_value length with
    | Some s, Some n => if (s <? 0) || (n <? 0) then []
                        else [VDict [("start_sector", start); ("length_sectors", length)]]
    | _, _ => []
    end
  | _ => []
  end.

(** shared/media_identity.py:229-243 _normalized_sessions *)
Definition normalized_sessions (v : value) : value :=
  match v with
  | VList l => match concat (normalized_session <$> l) with [] => VNone | s => VList s end
  | _ => VNone
  end.

(** shared/media_identity.py:146-160 normalize_medium_signals *)
Definition normalize_medium_signals (device : mapping) : mapping :=
  [("capacity_bytes", get_or_none device "size_bytes");
   ("logical_block_size", get_or_none device "logical_block_size");
   ("physical_block_size", get_or_none device "physical_block_size");
   ("geometry", normalized_geometry (get_or_none device "geometry"));
   ("toc_sessions", normalized_sessions (get_or_none device "toc_sessions"));
   ("sampled_fingerprint_sha256",
      of_option VStr (normalized_fingerprint (get_or_none device "sampled_fingerprint_sha256")));
   ("media_change_generation", nonnegative_int (get_or_none device "media_change_generation") 0)].

(** ** Records *)

(** shared/media_identity.py:183-195 is_plausible_medium *)
Definition is_plausible_medium (record : mapping) : bool :=
  match get_or_none record "medium_signals" with
  | VDict signals =>
    match positive_int (get_or_none signals "capacity_bytes"),
          normalized_fingerprint (get_or_none signals "sampled_fingerprint_sha256") with
    | None, None => false | _, _ => true
    end
  | _ => false
  end.

(** shared/media_identity.py:118-143 medium_identity_record *)
Definition medium_identity_record (reader_id : string) (medium_signals : mapping)
    (identity_strength : string) (warnings : list string) : mapping :=
  let record :=
    [("schema_version", VInt MEDIA_IDENTITY_SCHEMA_VERSION); ("reader_id", VStr reader_id);
     ("identity_strength", VStr identity_strength); ("warnings", VList (VStr <$> warnings));
     ("medium_signals", VDict ((fun field => (field, get_or_none medium_signals field)) <$> MEDIUM_SIGNAL_FIELDS))] in
  dict_set record "has_medium" (VBool (is_plausible_medium record)).

(** shared/media_identity.py:72-75 MediaIdentityValidationResult *)
Record MediaIdentityValidationResult := MIV { mv_valid : bool; mv_warnings : list string }.

(** shared/media_identity.py:163-180 validate_media_identity *)
Definition validate_media_identity (record : mapping) : result identity_error MediaIdentityValidationResult :=
  if negb (is_int (get_or_none record "schema_version") MEDIA_IDENTITY_SCHEMA_VERSION)
  then Ok (MIV false ["unsupported_schema_version"])
  else
    let w1 := match get_or_none record "reader_id" with
              | VStr s => if starts_with "reader_" s then [] else ["invalid_reader_id"]
              | _ => ["invalid_reader_id"]
              end in
    known ← in_texts (get_or_none record "identity_strength") IDENTITY_STRENGTHS;
    let w2 := if known : bool then [] else ["unknown_identity_strength"] in
    match get_or_none record "medium_signals" with
    | VDict signals =>
      let w3 := (fun field => "missing_signal:" +:+ field)
                <$> filter_b (fun field => bool_decide (field ∉ signals.*1)) MEDIUM_SIGNAL_FIELDS in
      let warnings := (w1 ++ w2 ++ w3)%list in
      Ok (MIV (bool_decide (warnings = [])) warnings)
    | _ => Ok (MIV false ["missing_medium_signals"])
    end.

(** shared/media_identity.py:198-214 identity_warnings_for *)
Definition identity_warnings_for (device medium_signals : mapping) : list string :=
  if negb (truthy (get_or_none device "removable")) then []
  else
    let is_none v := match v with VNone => true | _ => false end in
    let kind := source_kind_for_device device in
    dedup
      ((if negb (is_plausible_medium [("medium_signals", VDict medium_signals)]) then ["no_medium_present"] else []) ++
       (if bool_decide (normalized_fingerprint (get_or_none medium_signals "sampled_fingerprint_sha256") = None)
        then ["missing_sampled_fingerprint"] else []) ++
       (if truthy (get_or_none device "fingerprint_unreadable") then ["unreadable_fingerprint_sample"] else []) ++
       (if bool_decide (kind ∈ ["optical_disc"; "floppy_media"])
           && is_none (get_or_none medium_signals "toc_sessions") && is_none (get_or_none medium_signals "geometry")
        then ["missing_toc_or_geometry"] else []))%list.

(** ** Types of the signals *)

Definition positive_value (v : value) : Prop := exists z, int_value v = Some z /\ 0 < z.
Definition nonnegative_value (v : value) : Prop := exists z, int_value v = Some z /\ 0 <= z.

(** The versioned contract of the field [medium_signals]. *)
Record signals_typed (s : mapping) : Prop := {
  st_fields : s.*1 = MEDIUM_SIGNAL_FIELDS;
  st_geometry : get_or_none s "geometry" = VNone \/
    exists d, get_or_none s "geometry" = VDict d /\ d <> [] /\ NoDup d.*1 /\
      Forall (fun kv => kv.1 ∈ GEOMETRY_KEYS /\ positive_value kv.2) d;
  st_sessions : get_or_none s "toc_sessions" = VNone \/
    exists l, get_or_none s "toc_sessions" = VList l /\ l <> [] /\
      Forall (fun e => exists a b, e = VDict [("start_sector", a); ("length_sectors", b)] /\
                         nonnegative_value a /\ nonnegative_value b) l;
  st_fingerprint : get_or_none s "sampled_fingerprint_sha256" = VNone \/
    exists f, get_or_none s "sampled_fingerprint_sha256" = VStr f /\ str_len f = 64 /\
      forallb is_hex_lower (chars f) = true;
  st_generation : nonnegative_value (get_or_none s "media_change_generation")
}.

Lemma positive_int_spec v w : positive_int v = Some w -> w = v /\ positive_value v.
Proof.
  unfold positive_int, positive_value. destruct (int_value v) as [z|]; [|done].
  destruct (0 <? z) eqn:E; [|done]. intros [= <-]. split; [done|]. exists z. split; [done|lia].
Qed.

Lemma positive_int_positive v : positive_value v -> positive_int v = Some v.
Proof.
  intros (z & Hz & Hp). unfold positive_int. rewrite Hz. by destruct (Z.ltb_spec 0 z); [|lia].
Qed.

Lemma hex_not_space c : is_hex_lower c = true -> is_space c = false.
Proof. unfold is_hex_lower, is_digit, is_space. intros H. apply not_true_is_false. intros H'. lia. Qed.

Lemma drop_while_none {A} (p : A -> bool) l : Forall (fun c => p c = false) l -> drop_while p l = l.
Proof. intros H. destruct H as [|c l Hc _]; [done|]. simpl. by rewrite Hc. Qed.

Lemma strip_no_space s : Forall (fun c => is_space c = false) (chars s) -> strip s = s.
Proof.
  intros H. unfold strip, rdrop_while. rewrite (drop_while_none _ (chars s)) by done.
  rewrite drop_while_none by (by rewrite reverse_Permutation). by rewrite reverse_involutive, of_chars_chars.
Qed.

Lemma normalized_fingerprint_spec v f :
  normalized_fingerprint v = Some f -> str_len f = 64 /\ forallb is_hex_lower (chars f) = true /\
  normalized_fingerprint (VStr f) = Some f.
Proof.
  unfold normalized_fingerprint. destruct v; try done.
  destruct (_ || _) eqn:E; [done|]. intros [= <-]. apply orb_false_iff in E as [El Ex].
  apply negb_false_iff, Z.eqb_eq in El.
  assert (forallb is_hex_lower (chars (strip s)) = true) as Hh.
  { apply forallb_elem. intros c Hc. apply not_false_is_true. intros Hn.
    assert (existsb (fun c => negb (is_hex_lower c)) (chars (strip s)) = true) as Hx; [|congruence].
    apply existsb_elem. exists c. by rewrite Hn. }
  assert (strip (strip s) = strip s) as Hs.
  { apply strip_no_space, Forall_forall. intros c Hc. apply hex_not_space.
    by apply (proj1 (forallb_elem _ _) Hh). }
  rewrite Hs, El, Ex. done.
Qed.

Lemma fingerprint_idem v :
  normalized_fingerprint (of_option VStr (normalized_fingerprint v)) = normalized_fingerprint v.
Proof.
  destruct (normalized_fingerprint v) as [f|] eqn:E; [|done]. cbn [of_option].
  by apply normalized_fingerprint_spec in E as (_ & _ & ->).
Qed.

(** The pairs the loop over the geometry keys keeps. *)
Definition geometry_pairs (d : mapping) : mapping :=
  concat ((fun key => match positive_int (get_or_none d key) with
                      | Some number => [(key, number)] | None => [] end) <$> GEOMETRY_KEYS).

Lemma geometry_pairs_keys d : (geometry_pairs d).*1 `sublist_of` GEOMETRY_KEYS.
Proof.
  unfold geometry_pairs. generalize GEOMETRY_KEYS. intros ks. induction ks as [|k ks IH]; [done|]. simpl.
  destruct (positive_int _); simpl; [by apply sublist_skip|by apply sublist_cons].
Qed.

Lemma geometry_pairs_elem d k v :
  (k, v) ∈ geometry_pairs d <-> k ∈ GEOMETRY_KEYS /\ positive_int (get_or_none d k) = Some v.
Proof.
  unfold geometry_pairs. rewrite elem_of_concat. setoid_rewrite list_elem_of_fmap. split.
  - intros (l & Hl & key & -> & Hk). destruct (positive_int _) eqn:E; [|by apply elem_of_nil in Hl].
    apply list_elem_of_singleton in Hl as [= -> ->]. done.
  - intros [Hk Hp]. eexists. split; [|by exists k]. rewrite Hp. left.
Qed.

Lemma geometry_pairs_NoDup d : NoDup (geometry_pairs d).*1.
Proof.
  eapply sublist_NoDup; [|apply geometry_pairs_keys].
  by apply (bool_decide_unpack (NoDup GEOMETRY_KEYS)).
Qed.

Lemma geometry_pairs_idem d : geometry_pairs (geometry_pairs d) = geometry_pairs d.
Proof.
  unfold geometry_pairs at 1 3. f_equal. apply list_fmap_ext. intros i k Hk%list_elem_of_lookup_2.
  assert (positive_int (get_or_none (geometry_pairs d) k) = positive_int (get_or_none d k)) as ->; [|done].
  unfold get_or_none at 1. destruct (dict_get (geometry_pairs d) k) as [v|] eqn:E; simpl.
  - apply dict_get_elem in E; [|apply geometry_pairs_NoDup]. apply geometry_pairs_elem in E as [_ E].
    destruct (positive_int_spec _ _ E) as [-> Hv]. by rewrite positive_int_positive.
  - destruct (positive_int (get_or_none d k)) as [v|] eqn:Ep; [|done]. exfalso.
    apply dict_get_None in E. apply E. change k with (k, v).1. apply list_elem_of_fmap_2.
    by apply geometry_pairs_elem.
Qed.

Lemma normalized_geometry_dict d :
  normalized_geometry (VDict d) = match geometry_pairs d with [] => VNone | _ => VDict (geometry_pairs d) end.
Proof. reflexivity. Qed.

Lemma normalized_geometry_idem v : normalized_geometry (normalized_geometry v) = normalized_geometry v.
Proof.
  destruct v as [| | | | | |d]; try done. rewrite normalized_geometry_dict.
  destruct (geometry_pairs d) as [|p l] eqn:E; [done|]. rewrite <- E, normalized_geometry_dict, geometry_pairs_idem.
  by rewrite E.
Qed.

Definition session_typed (e : value) : Prop :=
  exists a b, e = VDict [("start_sector", a); ("length_sectors", b)] /\ nonnegative_value a /\ nonnegative_value b.

Lemma normalized_session_typed e x : x ∈ normalized_session e -> session_typed x.
Proof.
  unfold normalized_session. destruct e as [| | | | | |d]; try (by intros ?%elem_of_nil).
  destruct (int_value _) as [a|] eqn:Ea; [|by intros ?%elem_of_nil].
  destruct (int_value (get_or_none d "length_sectors")) as [b|] eqn:Eb; [|by intros ?%elem_of_nil].
  destruct (_ || _) eqn:E; [by intros ?%elem_of_nil|]. intros ->%list_elem_of_singleton.
  apply orb_false_iff in E. eexists _, _. split; [done|]. split; [exists a|exists b]; (split; [done|lia]).
Qed.

Lemma normalized_session_id e : session_typed e -> normalized_session e = [e].
Proof.
  intros (a & b & -> & (x & Hx & Px) & (y & Hy & Py)). unfold normalized_session, get_or_none. simpl.
  rewrite Hx, Hy. by destruct (Z.ltb_spec x 0), (Z.ltb_spec y 0); try lia.
Qed.

Lemma normalized_sessions_typed l : Forall session_typed (concat (normalized_session <$> l)).
Proof.
  apply Forall_forall. intros x (k & Hx & (e & -> & _)%list_elem_of_fmap)%elem_of_concat.
  by eapply normalized_session_typed.
Qed.

Lemma normalized_session_ids l : Forall session_typed l -> concat (normalized_session <$> l) = l.
Proof.
  induction 1 as [|e l He Hl IH]; [done|]. rewrite fmap_cons. cbn [concat].
  by rewrite normalized_session_id, IH.
Qed.

Lemma normalized_sessions_idem v : normalized_sessions (normalized_sessions v) = normalized_sessions v.
Proof.
  destruct v as [| | | | |l|]; try done. simpl. pose proof (normalized_sessions_typed l) as Ht.
  destruct (concat _) as [|e k] eqn:E; [done|].
  change (match concat (normalized_session <$> e :: k) with [] => VNone | s => VList s end = VList (e :: k)).
  by rewrite normalized_session_ids.
Qed.

Lemma nonnegative_int_typed v : nonnegative_value (nonnegative_int v 0).
Proof.
  unfold nonnegative_int. destruct (int_value v) as [z|] eqn:E; [|by exists 0].
  destruct (0 <=? z) eqn:Ez; [exists z; split; [done|lia]|by exists 0].
Qed.

Lemma nonnegative_int_id v : nonnegative_value v -> nonnegative_int v 0 = v.
Proof. intros (z & Hz & Hp). unfold nonnegative_int. rewrite Hz. by destruct (Z.leb_spec 0 z); [|lia]. Qed.

#[local] Arguments normalized_geometry : simpl never.
#[local] Arguments normalized_sessions : simpl never.
#[local] Arguments normalized_fingerprint : simpl never.
#[local] Arguments nonnegative_int : simpl never.

Lemma normalize_typed device : signals_typed (normalize_medium_signals device).
Proof.
  split; [done|..].
  - change (get_or_none (normalize_medium_signals device) "geometry")
      with (normalized_geometry (get_or_none device "geometry")).
    destruct (get_or_none device "geometry") as [| | | | | |d]; try by left.
    rewrite normalized_geometry_dict. destruct (geometry_pairs d) as [|p l] eqn:E; [by left|]. right.
    exists (geometry_pairs d). rewrite E. split; [done|]. split; [done|]. rewrite <- E.
    split; [apply geometry_pairs_NoDup|]. apply Forall_forall. intros [k v] [Hk Hp]%geometry_pairs_elem.
    split; [done|]. by apply positive_int_spec in Hp as [-> ?].
  - change (get_or_none (normalize_medium_signals device) "toc_sessions")
      with (normalized_sessions (get_or_none device "toc_sessions")).
    destruct (get_or_none device "toc_sessions") as [| | | | |l|]; try by left.
    unfold normalized_sessions. pose proof (normalized_sessions_typed l) as Ht.
    destruct (concat _) as [|e k]; [by left|]. right. exists (e :: k). done.
  - change (get_or_none (normalize_medium_signals device) "sampled_fingerprint_sha256")
      with (of_option VStr (normalized_fingerprint (get_or_none device "sampled_fingerprint_sha256"))).
    destruct (normalized_fingerprint _) as [f|] eqn:E; [right|by left]. exists f.
    apply normalized_fingerprint_spec in E. simpl. tauto.
  - change (get_or_none (normalize_medium_signals device) "media_change_generation")
      with (nonnegative_int (get_or_none device "media_change_generation") 0). apply nonnegative_int_typed.
Qed.

(** The signals given back as device facts. *)
Definition as_device (s : mapping) : mapping := ("size_bytes", get_or_none s "capacity_bytes") :: s.

Lemma normalize_idempotent device :
  let s := normalize_medium_signals device in normalize_medium_signals (as_device s) = s.
Proof.
  simpl. unfold normalize_medium_signals at 1, as_device. unfold get_or_none. simpl.
  unfold normalize_medium_signals, get_or_none.
  by rewrite normalized_geometry_idem, normalized_sessions_idem, fingerprint_idem,
    nonnegative_int_id by apply nonnegative_int_typed.
Qed.

(** Records are well typed.  The record built from the normalised facts of any device, a
    reader identifier and a known strength passes the validation without a warning, holds
    exactly the normalised signals, each of its documented type (positive geometry numbers,
    sessions with non-negative sector numbers, a fingerprint of 64 hexadecimal digits, a
    non-negative generation), and says there is a medium exactly when a positive capacity or a
    fingerprint is known.  Normalising the signals again changes nothing. *)
Theorem media_identity_record_typed device reader_id strength warnings :
  starts_with "reader_" reader_id = true -> strength ∈ IDENTITY_STRENGTHS ->
  let signals := normalize_medium_signals device in
  let record := medium_identity_record reader_id signals strength warnings in
  validate_media_identity record = Ok (MIV true []) /\
  dict_get record "medium_signals" = Some (VDict signals) /\ signals_typed signals /\
  (exists b, dict_get record "has_medium" = Some (VBool b) /\
     (b = true <-> positive_value (get_or_none device "size_bytes") \/
                   get_or_none signals "sampled_fingerprint_sha256" <> VNone)) /\
  normalize_medium_signals (as_device signals) = signals.
Proof.
  intros Hr Hs signals record. split; [|split; [done|split; [apply normalize_typed|split; [|apply normalize_idempotent]]]].
  - unfold record, validate_media_identity, medium_identity_record, get_or_none. simpl.
    rewrite Hr, (bool_decide_eq_true_2 _ Hs). done.
  - eexists. split; [reflexivity|]. change (is_plausible_medium _) with
      (is_plausible_medium [("medium_signals", VDict signals)]).
    unfold is_plausible_medium. change (get_or_none [("medium_signals", VDict signals)] "medium_signals") with (VDict signals).
    cbv beta iota. change (get_or_none signals "capacity_bytes") with (get_or_none device "size_bytes").
    change (get_or_none signals "sampled_fingerprint_sha256")
      with (of_option VStr (normalized_fingerprint (get_or_none device "sampled_fingerprint_sha256"))).
    destruct (positive_int (get_or_none device "size_bytes")) eqn:Ep.
    { apply positive_int_spec in Ep. tauto. }
    assert (~ positive_value (get_or_none device "size_bytes")) as Hn
      by (intros ?%positive_int_positive; congruence).
    destruct (normalized_fingerprint (get_or_none device "sampled_fingerprint_sha256")) as [f|] eqn:E; cbn [of_option].
    + apply normalized_fingerprint_spec in E as (_ & _ & ->). naive_solver.
    + simpl. naive_solver.
Qed.

(** Kinds of a device.  [source_kind_for_device] gives one of the documented kinds, and
    [fixed_disk] exactly to the devices that are neither removable nor an optical, floppy or
    card reader, so no removable reader is a fixed disk; the kind of the reader is documented
    too, unless the type is an unhashable value, which raises. *)
Theorem device_kinds device :
  let t := get_or_none device "device_type" in
  source_kind_for_device device ∈ SOURCE_KINDS /\
  (source_kind_for_device device = "fixed_disk" <->
     truthy (get_or_none device "removable") = false /\
     t <> VStr "optical" /\ t <> VStr "floppy" /\ t <> VStr "sd_card") /\
  (is_removable device = true <-> source_kind_for_device device <> "fixed_disk") /\
  match reader_kind_for_device device with
  | Ok k => k ∈ READER_KINDS
  | Err _ => (exists l, t = VList l) \/ (exists d, t = VDict d)
  end.
Proof.
  intros t. unfold is_removable, source_kind_for_device, reader_kind_for_device. subst t.
  unfold SOURCE_KINDS, READER_KINDS.
  destruct (truthy (get_or_none device "removable")),
    (get_or_none device "device_type") as [| | |s| |l|d]; simpl.
  all: repeat match goal with |- context [String.eqb ?s ?k] => destruct (String.eqb_spec s k); subst; simpl end.
  all: repeat split; try naive_solver; try (by elem_list).
  all: destruct (bool_decide (s ∈ _)); elem_list.
Qed.

(** ** Witnesses *)

Definition demo_device : mapping :=
  [("device_type", VStr "sd_card"); ("removable", VBool true); ("size_bytes", VInt 1073741824);
   ("geometry", VDict [("heads", VInt 16); ("cylinders", VInt 0); ("color", VStr "red")]);
   ("sampled_fingerprint_sha256", VStr "  e3b0c44298fc1c149afbf4c8996fb92427ae41e4649b934ca495991b7852b855 ")].

Lemma media_identity_record_typed_witness :
  validate_media_identity (medium_identity_record "reader_1" (normalize_medium_signals demo_device) "reader-facts" [])
  = Ok (MIV true []).
Proof.
  apply (media_identity_record_typed demo_device "reader_1" "reader-facts" []); [reflexivity|].
  unfold IDENTITY_STRENGTHS. elem_list.
Defined.

Example demo_signals :
  get_or_none (normalize_medium_signals demo_device) "geometry" = VDict [("heads", VInt 16)].
Proof. reflexivity. Qed.
