(* ===== verification/MediaCheckpoints.v ===== *)
(** * Checkpoints bound to a medium (src/shared/media_checkpoints.py)

    Rows of the table of [Checkpoints] whose fingerprint is the SHA-256 key of a medium
    identity and whose column [medium_identity_json] holds that identity.  A stage resumes only
    with the medium the row was saved for.  The JSON texts of cursor and counters must be
    objects or lists of pairs with text keys, as [dict] of a parsed value is modelled on those;
    floats are outside the model as in [Json]. *)

From Stdlib Require Import ZArith Lia String Ascii.
From stdpp Require Import base list strings gmap sorting.
From S2P Require Import Prelude PyStr Sql Json Sha256 Timestamp JobState Checkpoints EventOutbox Identifiers Messages MediaIdentity JsonLines.

Local Open Scope string_scope.
Local Open Scope Z_scope.

(** ** Data *)

(** shared/media_checkpoints.py:28-31 MediaCheckpointError: and the exceptions that pass through. *)
Inductive media_error :=
  | MediaCheckpointError (message : string) (offers_new_case : bool)
  | MkTypeError
  | MkAttributeError
  | MkValueError
  | MkStore (e : checkpoint_error)
  | MkEvent (e : outbox_error).

(** shared/media_checkpoints.py:23-23 MEDIUM_CHECKPOINT_VERSION *)
Definition MEDIUM_CHECKPOINT_VERSION : Z := 1.
(** shared/media_checkpoints.py:25-25 MEDIUM_EVENT_TYPES *)
Definition MEDIUM_EVENT_TYPES : list string := ["media.replaced"; "media.disconnect"; "media.reinserted"].

(** shared/media_checkpoints.py:34-39 ResumeEligibility *)
Record ResumeEligibility := RE {
  re_eligible : bool;
  re_reason : option string;
  re_offers_new_case : bool;
  re_key : string
}.

(** shared/media_checkpoints.py:42-55 MediumCheckpointRecord *)
Record MediumCheckpointRecord := MC {
  mc_id : string;
  mc_job : string;
  mc_key : string;
  mc_identity_json : option string;
  mc_stage : string;
  mc_version : Z;
  mc_tool : string;
  mc_toolv : string;
  mc_cursor : mapping;
  mc_counters : mapping;
  mc_blob : bytes;
  mc_integrity : string
}.

(** ** Keys *)

(** shared/media_checkpoints.py:340-341 _canonical_json *)
Definition mk_canonical_json (payload : value) : result media_error string :=
  match dumps payload with Some s => Ok s | None => Err MkTypeError end.
#[global] Arguments mk_canonical_json : simpl never.

(** What the key hashes. *)
Definition key_object (reader_id : value) (signals : mapping) : value :=
  VDict [("reader_id", reader_id); ("medium_signals", VDict signals)].

(** shared/media_checkpoints.py:57-71 medium_identity_key *)
Definition medium_identity_key (record : mapping) : result media_error string :=
  validation ← match validate_media_identity record with
               | Ok v => Ok v
               | Err IdentityTypeError => Err MkTypeError
               end;
  _ ← raise_if (negb (mv_valid validation))
        (MediaCheckpointError ("invalid medium identity: " +:+ join ", " (mv_warnings validation)) true);
  signals ← match get_or_none record "medium_signals" with
            | VDict s => Ok s
            | _ => Err (MediaCheckpointError "missing medium signals" true)
            end;
  _ ← raise_if (negb (is_plausible_medium [("medium_signals", VDict signals)]))
        (MediaCheckpointError "no medium present" true);
  canonical ← mk_canonical_json (key_object (get_or_none record "reader_id") signals);
  Ok (sha256_hex (utf8 canonical)).
#[global] Arguments medium_identity_key : simpl never.

(** ** Eligibility *)

(** [v == w] of Python values: booleans are integers, dicts ignore the order of their keys. *)
Fixpoint py_eq (v w : value) {struct v} : bool :=
  match v, w with
  | VNone, VNone => true
  | VStr s, VStr t => String.eqb s t
  | VBytes b, VBytes c => bool_decide (b = c)
  | VList l, VList k =>
    (fix go (l k : list value) : bool := match l, k with
      | [], [] => true
      | x :: l, y :: k => py_eq x y && go l k
      | _, _ => false
      end) l k
  | VDict d, VDict e =>
    (length d =? length e)%nat &&
    (fix go (d : mapping) : bool := match d with
      | [] => true
      | (k, x) :: d => match dict_get e k with Some y => py_eq x y | None => false end && go d
      end) d
  | (VInt _ | VBool _), _ => match int_value v, int_value w with
                             | Some a, Some b => a =? b | _, _ => false end
  | _, _ => false
  end.

Example py_eq_ex :
  py_eq (VDict [("a", VInt 1); ("b", VList [VNone])]) (VDict [("b", VList [VNone]); ("a", VBool true)]) = true.
Proof. reflexivity. Qed.

(** [value.get("x") or {}] of an identity that passed the validation. *)
Definition signals_of (record : mapping) : mapping :=
  match get_or_none record "medium_signals" with VDict d => d | _ => [] end.

(** shared/media_checkpoints.py:259-278 _difference_reason: [_fingerprint] and [_nonnegative_int] of
    the module are [normalized_fingerprint] and [nonnegative_int] with default 0. *)
Definition difference_reason (previous current : mapping) : result media_error string :=
  let differ k := negb (py_eq (get_or_none previous k) (get_or_none current k)) in
  let previous_fingerprint := normalized_fingerprint (get_or_none previous "sampled_fingerprint_sha256") in
  let current_fingerprint := normalized_fingerprint (get_or_none current "sampled_fingerprint_sha256") in
  if differ "capacity_bytes" then Ok "capacity_changed"
  else match previous_fingerprint, current_fingerprint with
       | Some p, Some c =>
         if negb (String.eqb p c) then Ok "fingerprint_changed"
         else
           a ← mk_canonical_json (get_or_none previous "toc_sessions");
           b ← mk_canonical_json (get_or_none current "toc_sessions");
           if negb (String.eqb a b) then Ok "toc_sessions_changed"
           else
             a ← mk_canonical_json (get_or_none previous "geometry");
             b ← mk_canonical_json (get_or_none current "geometry");
             if negb (String.eqb a b) then Ok "geometry_changed"
             else if negb (py_eq (nonnegative_int (get_or_none previous "media_change_generation") 0)
                             (nonnegative_int (get_or_none current "media_change_generation") 0))
             then Ok "media_replaced"
             else Ok "medium_identity_changed"
       | _, _ => Ok "unreadable_sample_identity_weak"
       end.
#[global] Arguments difference_reason : simpl never.

(** shared/media_checkpoints.py:74-96 resume_eligibility: [VNone] is the previous medium [None]. *)
Definition resume_eligibility (previous : value) (current : mapping) : result media_error ResumeEligibility :=
  match previous with
  | VNone => key ← medium_identity_key current; Ok (RE false (Some "no_previous_medium") true key)
  | VDict p =>
    match medium_identity_key p with
    | Err (MediaCheckpointError message _) =>
      key ← medium_identity_key current; Ok (RE false (Some message) true key)
    | Err e => Err e
    | Ok previous_key =>
      current_key ← medium_identity_key current;
      if String.eqb previous_key current_key then Ok (RE true None false current_key)
      else
        reason ← difference_reason (signals_of p) (signals_of current);
        Ok (RE false (Some reason) true current_key)
    end
  | _ => Err MkAttributeError
  end.

(** ** The store *)

(** shared/media_checkpoints.py:99-168 save_medium_checkpoint *)
Definition save_medium_checkpoint (jobs : list string) (c : connection (list checkpoint))
    (id job : string) (medium_identity : mapping) (stage tool toolv : string)
    (cursor counters : value) (blob : bytes) (created_at : string)
    : connection (list checkpoint) * result media_error unit :=
  match (key ← medium_identity_key medium_identity;
         medium_json ← mk_canonical_json (VDict medium_identity);
         cu ← mk_canonical_json cursor; co ← mk_canonical_json counters;
         Ok (key, medium_json, cu, co)) with
  | Err e => (c, Err e)
  | Ok (key, medium_json, cu, co) =>
    let digest := integrity_hash key stage MEDIUM_CHECKPOINT_VERSION tool toolv cu co blob in
    let '(c', r) := in_transaction c
      (save_body jobs id job key stage MEDIUM_CHECKPOINT_VERSION tool toolv cu co blob digest created_at
         (Some medium_json) false) in
    (c', match r with Ok _ => Ok tt | Err e => Err (MkStore e) end)
  end.

(** [dict(v)] of a parsed value: of an object, or of a list of pairs with text keys. *)
Definition dict_of (v : value) : result media_error mapping :=
  match v with
  | VDict d => Ok d
  | VList l =>
    (fix go (acc : mapping) (l : list value) : result media_error mapping :=
       match l with
       | [] => Ok acc
       | VList [VStr k; x] :: l => go (dict_set acc k x) l
       | VStr (String a (String b EmptyString)) :: l =>
         go (dict_set acc (of_chars [a]) (VStr (of_chars [b]))) l
       | _ => Err MkValueError
       end) [] l
  | VStr EmptyString => Ok []
  | VStr _ => Err MkValueError
  | _ => Err MkTypeError
  end.

(** [json.loads], with its [JSONDecodeError]. *)
Definition parse_json (s : string) : result media_error value :=
  match loads s with Some v => Ok v | None => Err MkValueError end.

(** shared/media_checkpoints.py:281-295 _record_from_row *)
Definition medium_record_from_row (r : checkpoint) : result media_error MediumCheckpointRecord :=
  cu ← parse_json (ck_cursor r); cursor ← dict_of cu;
  co ← parse_json (ck_counters r); counters ← dict_of co;
  Ok (MC (ck_id r) (ck_job r) (ck_fp r) (ck_medium r) (ck_stage r) (ck_version r) (ck_tool r) (ck_toolv r)
        cursor counters (ck_blob r) (ck_digest r)).
#[global] Arguments medium_record_from_row : simpl never.

(** shared/media_checkpoints.py:171-234 load_medium_checkpoint *)
Definition load_medium_checkpoint (t : list checkpoint) (job : string) (medium_identity : mapping)
    (stage tool toolv : string)
    : result media_error (option MediumCheckpointRecord * ResumeEligibility) :=
  current ← resume_eligibility VNone medium_identity;
  match latest_row t job stage with
  | None => Ok (None, RE false (Some "no_checkpoint") false (re_key current))
  | Some row =>
    record ← medium_record_from_row row;
    previous_medium ← match mc_identity_json record with
                      | None => Ok VNone
                      | Some j => match loads j with
                                  | Some v => Ok v
                                  | None => Err (MediaCheckpointError "stored medium identity is corrupt" true)
                                  end
                      end;
    eligibility ← resume_eligibility previous_medium medium_identity;
    _ ← raise_if (negb (re_eligible eligibility))
          (MediaCheckpointError ("checkpoint medium mismatch: " +:+ default "None" (re_reason eligibility)) true);
    _ ← raise_if (negb (mc_version record =? MEDIUM_CHECKPOINT_VERSION))
          (MediaCheckpointError "unsupported medium checkpoint version; restart stage" true);
    _ ← raise_if (negb (String.eqb (mc_tool record) tool) || negb (String.eqb (mc_toolv record) toolv))
          (MediaCheckpointError "checkpoint tool version mismatch; restart stage" true);
    cu ← mk_canonical_json (VDict (mc_cursor record));
    co ← mk_canonical_json (VDict (mc_counters record));
    let expected := integrity_hash (mc_key record) (mc_stage record) (mc_version record) (mc_tool record)
                      (mc_toolv record) cu co (mc_blob record) in
    _ ← raise_if (negb (String.eqb expected (mc_integrity record)))
          (MediaCheckpointError "checkpoint integrity hash mismatch; restart stage" true);
    Ok (Some record, eligibility)
  end.

(** shared/media_checkpoints.py:237-256 record_medium_event *)
Definition record_medium_event (c : catalog) (event_id case_id event_type : string) (payload : value)
    (now : string) : result media_error (catalog * event) :=
  if negb (bool_decide (event_type ∈ MEDIUM_EVENT_TYPES))
  then Err (MediaCheckpointError ("unsupported medium event type " +:+ py_repr (VStr event_type)) false)
  else match append_event c event_id case_id event_type payload now None with
       | Ok r => Ok r
       | Err e => Err (MkEvent e)
       end.

(** ** Canonical forms *)

(** The dict of a canonical value. *)
Definition canon_map (d : mapping) : mapping := sort_keys (prod_map id canon <$> d).

Lemma canon_key_object r s :
  canon (key_object r s) = VDict [("medium_signals", canon (VDict s)); ("reader_id", canon r)].
Proof. reflexivity. Qed.

Lemma wf_signals d : wf_value (VDict d) -> wf_value (VDict (signals_of d)).
Proof.
  intros H. apply (wf_get _ "medium_signals") in H. unfold signals_of.
  destruct (get_or_none d "medium_signals"); done || by apply wf_dict_Forall; split; constructor.
Qed.

Lemma wf_key_object r s : wf_value r -> wf_value (VDict s) -> wf_value (key_object r s).
Proof.
  intros Hr Hs. apply wf_dict_Forall. split; [|by rewrite !Forall_cons, Forall_nil].
  by apply (bool_decide_unpack (NoDup ["reader_id"; "medium_signals"])).
Qed.

(** ** What a key stands for *)

(** An identity with a key: valid, and with a medium. *)
Definition identified (d : mapping) : Prop :=
  validate_media_identity d = Ok (MIV true []) /\ get_or_none d "medium_signals" = VDict (signals_of d) /\
  is_plausible_medium [("medium_signals", VDict (signals_of d))] = true.

Definition key_text (d : mapping) : option string :=
  dumps (key_object (get_or_none d "reader_id") (signals_of d)).

Lemma validate_valid d v : validate_media_identity d = Ok v -> mv_valid v = true -> v = MIV true [].
Proof.
  unfold validate_media_identity. intros H Hv. destruct (negb _); [by inv_ok|]. inv_ok.
  destruct (get_or_none d "medium_signals"); inv_ok; try done. simpl in Hv.
  apply bool_decide_eq_true in Hv. by rewrite Hv.
Qed.

Lemma medium_identity_key_spec d k :
  medium_identity_key d = Ok k <-> identified d /\ exists s, key_text d = Some s /\ k = sha256_hex (utf8 s).
Proof.
  unfold medium_identity_key, identified, key_text, signals_of, mk_canonical_json. split.
  - intros H. destruct (validate_media_identity d) as [v|[]] eqn:E; [|done]. inv_ok.
    match goal with H : negb (mv_valid ?x) = false |- _ =>
      apply negb_false_iff in H; apply (validate_valid _ _ E) in H; subst x end.
    destruct (get_or_none d "medium_signals") as [| | | | | |s] eqn:Es; try done. inv_ok.
    match goal with H : negb _ = false |- _ => apply negb_false_iff in H end.
    destruct (dumps _) as [t|] eqn:Ed; [|done]. inv_ok. split; [done|]. by eexists.
  - intros [(-> & Hs & Hp) (s & Hd & ->)]. cbn [mbind]. simpl. rewrite Hs. simpl.
    destruct (get_or_none d "medium_signals"); try done.
    rewrite Hp. simpl. by rewrite Hd.
Qed.

(** The same medium in the same reader: reader and signals equal up to the order of keys. *)
Definition same_medium (p c : mapping) : Prop :=
  canon (get_or_none p "reader_id") = canon (get_or_none c "reader_id") /\
  canon (VDict (signals_of p)) = canon (VDict (signals_of c)).

Lemma same_medium_text p c :
  wf_value (VDict p) -> wf_value (VDict c) -> same_medium p c -> key_text p = key_text c.
Proof.
  intros Wp Wc [Hr Hs]. unfold key_text.
  rewrite <- (dumps_canon (key_object (get_or_none p "reader_id") _)) by (apply wf_key_object; [by apply wf_get|by apply wf_signals]).
  rewrite <- (dumps_canon (key_object (get_or_none c "reader_id") _)) by (apply wf_key_object; [by apply wf_get|by apply wf_signals]).
  by rewrite !canon_key_object, Hr, Hs.
Qed.

Lemma same_key p c k :
  wf_value (VDict p) -> wf_value (VDict c) ->
  medium_identity_key p = Ok k -> medium_identity_key c = Ok k ->
  same_medium p c \/ exists m n, collision m n.
Proof.
  intros Wp Wc (_ & s & Hs & ->)%medium_identity_key_spec (_ & t & Ht & Hk)%medium_identity_key_spec.
  destruct (decide (utf8 s = utf8 t)) as [He|He]; [left|by right; exists (utf8 s), (utf8 t)].
  apply utf8_inj in He. subst t. unfold key_text in *.
  pose proof (dumps_inj _ _ s (wf_key_object _ _ (wf_get _ _ Wp) (wf_signals _ Wp))
    (wf_key_object _ _ (wf_get _ _ Wc) (wf_signals _ Wc)) Hs Ht) as Hc.
  rewrite !canon_key_object in Hc. injection Hc as H1 H2. split; [done|]. cbn [canon]. by rewrite H1.
Qed.

(** ** Identities through their stored text *)

Lemma canon_map_dict d : canon (VDict d) = VDict (canon_map d).
Proof. apply canon_dict. Qed.

Lemma get_canon_map d k : wf_value (VDict d) -> get_or_none (canon_map d) k = canon (get_or_none d k).
Proof. intros [Hnd _]%wf_dict_Forall. by apply get_or_none_canon. Qed.

Lemma signals_of_canon d : wf_value (VDict d) -> signals_of (canon_map d) = canon_map (signals_of d).
Proof.
  intros H. unfold signals_of. rewrite get_canon_map by done.
  destruct (get_or_none d "medium_signals"); try done. by rewrite canon_map_dict.
Qed.

Lemma positive_int_canon v : positive_int (canon v) = canon <$> positive_int v.
Proof. unfold positive_int. destruct v as [| |z| | | |]; simpl; try done; destruct (_ <? _); done. Qed.

Lemma fingerprint_canon v : normalized_fingerprint (canon v) = normalized_fingerprint v.
Proof. by destruct v. Qed.

Lemma plausible_canon s :
  wf_value (VDict s) ->
  is_plausible_medium [("medium_signals", VDict (canon_map s))] = is_plausible_medium [("medium_signals", VDict s)].
Proof.
  intros H. unfold is_plausible_medium, get_or_none at 1. simpl dict_get. cbv iota beta. simpl default. cbv iota beta.
  change (get_or_none [("medium_signals", VDict s)] "medium_signals") with (VDict s). cbv iota beta.
  rewrite !get_canon_map, positive_int_canon, fingerprint_canon by done. by destruct (positive_int _).
Qed.

Lemma missing_canon s :
  filter_b (fun field => bool_decide (field ∉ (canon_map s).*1)) MEDIUM_SIGNAL_FIELDS
  = filter_b (fun field => bool_decide (field ∉ s.*1)) MEDIUM_SIGNAL_FIELDS.
Proof.
  unfold filter_b. apply List.filter_ext. intros f. apply bool_decide_ext.
  unfold canon_map. by rewrite sort_keys_perm, keys_fmap.
Qed.

Lemma validate_canon_map d :
  wf_value (VDict d) -> validate_media_identity (canon_map d) = validate_media_identity d.
Proof.
  intros H. unfold validate_media_identity. rewrite !get_canon_map by done.
  replace (is_int (canon (get_or_none d "schema_version")) MEDIA_IDENTITY_SCHEMA_VERSION)
    with (is_int (get_or_none d "schema_version") MEDIA_IDENTITY_SCHEMA_VERSION)
    by (by destruct (get_or_none d "schema_version")).
  destruct (negb _); [done|].
  replace (in_texts (canon (get_or_none d "identity_strength")) IDENTITY_STRENGTHS)
    with (in_texts (get_or_none d "identity_strength") IDENTITY_STRENGTHS)
    by (by destruct (get_or_none d "identity_strength")).
  destruct (get_or_none d "medium_signals") as [| | | | | |s] eqn:Es; try done.
  rewrite canon_map_dict, (missing_canon s). by destruct (get_or_none d "reader_id").
Qed.

Lemma same_medium_canon d : wf_value (VDict d) -> same_medium (canon_map d) d.
Proof.
  intros H. unfold same_medium. rewrite get_canon_map, signals_of_canon by done.
  rewrite <- canon_map_dict, !canon_canon; try done; [by apply wf_signals|by apply wf_get].
Qed.

Lemma wf_canon_map d : wf_value (VDict d) -> wf_value (VDict (canon_map d)).
Proof.
  rewrite !wf_dict_Forall. intros [Hnd Hd]. unfold canon_map. rewrite sort_keys_perm, keys_fmap.
  split; [done|]. rewrite Forall_fmap. eapply Forall_impl; [exact Hd|].
  intros [k v] Hv. by apply wf_canon.
Qed.

Lemma key_canon d k : wf_value (VDict d) -> medium_identity_key d = Ok k -> medium_identity_key (canon_map d) = Ok k.
Proof.
  intros H [(Hv & Hs & Hp) (s & Ht & ->)]%medium_identity_key_spec. apply medium_identity_key_spec.
  split; [split; [by rewrite validate_canon_map|split]|].
  - rewrite get_canon_map, Hs, signals_of_canon, canon_map_dict by done. done.
  - rewrite signals_of_canon, plausible_canon by (done || by apply wf_signals). done.
  - exists s. split; [|done]. rewrite <- Ht.
    apply same_medium_text; [by apply wf_canon_map|done|by apply same_medium_canon].
Qed.


(** ** Properties *)

Lemma eligibility_spec previous current e :
  wf_value previous -> wf_value (VDict current) ->
  resume_eligibility previous current = Ok e ->
  medium_identity_key current = Ok (re_key e) /\
  (re_eligible e = true ->
     exists p, previous = VDict p /\ medium_identity_key p = Ok (re_key e) /\ re_reason e = None /\
       (same_medium p current \/ exists m n, collision m n)) /\
  (re_eligible e = false -> re_offers_new_case e = true /\ re_reason e <> None) /\
  (forall p k, previous = VDict p -> medium_identity_key p = Ok k -> same_medium p current ->
     re_eligible e = true).
Proof.
  intros Wp Wc H. unfold resume_eligibility in H.
  destruct previous as [| | | | | |p]; try done.
  - inv_ok. split; [done|]. split; [done|]. split; [done|]. by intros p k [=].
  - destruct (medium_identity_key p) as [k|err] eqn:Ek.
    + inv_ok. match goal with H : medium_identity_key current = Ok ?y |- _ => rename y into k', H into Ec end.
      destruct (String.eqb_spec k k') as [->|Hne]; inv_ok; cbn [re_key re_eligible re_reason re_offers_new_case].
      * split; [done|]. split; [|split; [done|done]]. intros _. exists p.
        split; [done|]. split; [done|]. split; [done|]. by apply (same_key p current k').
      * split; [done|]. split; [done|]. split; [done|]. intros p' j [= <-] Hj Hs. exfalso.
        apply medium_identity_key_spec in Ek as (_ & s & Hts & ->).
        apply medium_identity_key_spec in Ec as (_ & t & Htt & ->).
        rewrite (same_medium_text p current Wp Wc Hs) in Hts. congruence.
    + destruct err; try done. inv_ok. cbn [re_key re_eligible re_reason re_offers_new_case].
      split; [done|]. split; [done|]. split; [done|]. intros p' j [= <-]. congruence.
Qed.

(** A stage resumes with the same medium and with no other.  For a previous and a current
    identity whose decision returns: the answer carries the key of the current medium; an
    eligible answer means that reader and signals are equal up to the order of keys (or two
    texts with one SHA-256 value exist), a refusal names a reason and offers a new case, and a
    valid previous identity of the same medium is never refused.  Without a previous identity
    the answer is always a refusal. *)
Theorem resume_only_same_medium previous current e :
  wf_value previous -> wf_value (VDict current) ->
  resume_eligibility previous current = Ok e ->
  medium_identity_key current = Ok (re_key e) /\
  (re_eligible e = true ->
     exists p, previous = VDict p /\ medium_identity_key p = Ok (re_key e) /\ re_reason e = None /\
       (same_medium p current \/ exists m n, collision m n)) /\
  (re_eligible e = false -> re_offers_new_case e = true /\ re_reason e <> None) /\
  (forall p k, previous = VDict p -> medium_identity_key p = Ok k -> same_medium p current ->
     re_eligible e = true).
Proof. exact (eligibility_spec previous current e). Qed.

(** What a successful save stores. *)
Lemma save_medium_ok jobs c id job m stage tool toolv cursor counters blob now c' :
  chains (current c) -> snapshot c = None ->
  save_medium_checkpoint jobs c id job m stage tool toolv cursor counters blob now = (c', Ok tt) ->
  exists key mj cu co p, medium_identity_key m = Ok key /\ dumps (VDict m) = Some mj /\
    dumps cursor = Some cu /\ dumps counters = Some co /\ chains (current c') /\
    latest_row (current c') job stage
    = Some (Ck id job key stage MEDIUM_CHECKPOINT_VERSION tool toolv cu co blob
              (integrity_hash key stage MEDIUM_CHECKPOINT_VERSION tool toolv cu co blob) p None now (Some mj)).
Proof.
  intros Hc Hs H. unfold save_medium_checkpoint in H.
  destruct (_ ≫= _) as [[[[key mj] cu] co]|e] eqn:Hp; [|done].
  unfold mk_canonical_json in Hp. inv_ok.
  destruct (dumps (VDict m)) as [mj'|] eqn:Em; [|done]. destruct (dumps cursor) as [cu'|] eqn:Eu; [|done].
  destruct (dumps counters) as [co'|] eqn:Eo; [|done]. inv_ok.
  rewrite (in_transaction_closed _ _ Hs) in H.
  destruct (save_body _ _ _ _ _ _ _ _ _ _ _ _ _ _ _ _) as [t|e] eqn:Hb; [|done].
  injection H as <-. destruct (save_body_chains _ _ _ _ _ _ _ _ _ _ _ _ _ _ _ _ _ Hc Hb) as [Hc' (p & _ & Hl)].
  match goal with H : medium_identity_key m = Ok ?k |- _ => exists k end. eexists _, _, _, p. by split_and!.
Qed.

(** What the row of a save parses to. *)
Lemma saved_record id job key stage tool toolv cursor counters blob digest p now mj cu co :
  wf_value (VDict cursor) -> wf_value (VDict counters) ->
  dumps (VDict cursor) = Some cu -> dumps (VDict counters) = Some co ->
  medium_record_from_row (Ck id job key stage MEDIUM_CHECKPOINT_VERSION tool toolv cu co blob digest p None now mj)
  = Ok (MC id job key mj stage MEDIUM_CHECKPOINT_VERSION tool toolv (canon_map cursor) (canon_map counters) blob digest).
Proof.
  intros Wu Wo Hu Ho. unfold medium_record_from_row, parse_json. cbn [ck_cursor ck_counters].
  by rewrite (loads_dumps _ _ Wu Hu), (loads_dumps _ _ Wo Ho), !canon_map_dict.
Qed.

(** A checkpoint comes back with its medium and with no other.  After a successful save
    for a medium, loading the stage with an identity of the same medium returns the saved
    fields (cursor and counters up to the order of keys) as eligible, and whatever identity a
    load succeeds with is one of the same medium, unless SHA-256 collides. *)
Theorem medium_checkpoint_roundtrip jobs c id job m stage tool toolv cursor counters blob now c' :
  chains (current c) -> snapshot c = None ->
  wf_value (VDict m) -> wf_value (VDict cursor) -> wf_value (VDict counters) ->
  save_medium_checkpoint jobs c id job m stage tool toolv (VDict cursor) (VDict counters) blob now = (c', Ok tt) ->
  exists key mj digest, medium_identity_key m = Ok key /\
  forall m', wf_value (VDict m') ->
    (forall k', same_medium m m' -> medium_identity_key m' = Ok k' ->
       k' = key /\
       load_medium_checkpoint (current c') job m' stage tool toolv
       = Ok (Some (MC id job key (Some mj) stage MEDIUM_CHECKPOINT_VERSION tool toolv
                     (canon_map cursor) (canon_map counters) blob digest), RE true None false key)) /\
    (forall r e, load_medium_checkpoint (current c') job m' stage tool toolv = Ok (r, e) ->
       same_medium m m' \/ exists x y, collision x y).
Proof.
  intros Hc Hs Wm Wu Wo H.
  destruct (save_medium_ok _ _ _ _ _ _ _ _ _ _ _ _ _ Hc Hs H) as (key & mj & cu & co & p & Hk & Hm & Hu & Ho & _ & Hl).
  exists key, mj, (integrity_hash key stage MEDIUM_CHECKPOINT_VERSION tool toolv cu co blob). split; [done|].
  intros m' Wm'. split.
  - intros k' Hsame Hk'. apply medium_identity_key_spec in Hk' as Hi. destruct Hi as (Hi & s & Hts & ->).
    apply medium_identity_key_spec in Hk as Hi'. destruct Hi' as (_ & s' & Hts' & ->).
    rewrite <- (same_medium_text m m' Wm Wm' Hsame), Hts' in Hts. injection Hts as <-. split; [done|].
    unfold load_medium_checkpoint. rewrite Hl, (saved_record _ _ _ _ _ _ _ _ _ _ _ _ _ _ _ Wu Wo Hu Ho).
    unfold resume_eligibility. rewrite Hk'. cbn [mbind result_bind mc_identity_json].
    rewrite (loads_dumps _ _ Wm Hm), canon_map_dict. cbn [mbind result_bind].
    rewrite (key_canon m _ Wm Hk), String.eqb_refl.
    cbn -[MEDIUM_CHECKPOINT_VERSION canon_map]. rewrite Z.eqb_refl, !String.eqb_refl.
    cbn -[MEDIUM_CHECKPOINT_VERSION canon_map]. unfold mk_canonical_json.
    rewrite <- !canon_map_dict, !dumps_canon, Hu, Ho by done.
    cbn -[MEDIUM_CHECKPOINT_VERSION canon_map]. by rewrite String.eqb_refl.
  - intros r e Hload. unfold load_medium_checkpoint in Hload.
    rewrite Hl, (saved_record _ _ _ _ _ _ _ _ _ _ _ _ _ _ _ Wu Wo Hu Ho) in Hload. inv_ok.
    cbn [mc_identity_json] in *.
    match goal with H : match loads mj with _ => _ end = Ok ?x |- _ =>
      rewrite (loads_dumps _ _ Wm Hm), canon_map_dict in H; injection H as <- end.
    match goal with H : resume_eligibility (VDict _) m' = Ok ?x |- _ =>
      destruct (eligibility_spec _ _ _ (wf_canon_map _ Wm) Wm' H) as (_ & He & _) end.
    match goal with H : negb (re_eligible _) = false |- _ => apply negb_false_iff in H; apply He in H as (q & [= <-] & _ & _ & Hq) end.
    destruct Hq as [[Qr Qs]|Hq]; [left|by right]. destruct (same_medium_canon m Wm) as [Cr Cs].
    split; congruence.
Qed.

(** The row with another text in [medium_identity_json]. *)
Definition with_medium (r : checkpoint) (j : string) : checkpoint :=
  Ck (ck_id r) (ck_job r) (ck_fp r) (ck_stage r) (ck_version r) (ck_tool r) (ck_toolv r) (ck_cursor r)
    (ck_counters r) (ck_blob r) (ck_digest r) (ck_supersedes r) (ck_superseded_by r) (ck_created r) (Some j).

(** The stored identity is not bound by the hash.  When a row loads for some medium, the
    same row with the identity of any other valid medium in [medium_identity_json], and its
    integrity hash unchanged, loads for that other medium, although the hashed key is still
    that of the first: the key of the row is never compared with the stored identity. *)
Theorem medium_identity_not_bound r job m stage tool toolv rec e m' k' j :
  load_medium_checkpoint [r] job m stage tool toolv = Ok (Some rec, e) ->
  wf_value (VDict m') -> medium_identity_key m' = Ok k' -> dumps (VDict m') = Some j ->
  load_medium_checkpoint [with_medium r j] job m' stage tool toolv
  = Ok (Some (MC (mc_id rec) (mc_job rec) (mc_key rec) (Some j) (mc_stage rec) (mc_version rec) (mc_tool rec)
                (mc_toolv rec) (mc_cursor rec) (mc_counters rec) (mc_blob rec) (mc_integrity rec)),
        RE true None false k').
Proof.
  intros H Wm' Hk' Hj. unfold load_medium_checkpoint in H.
  apply bind_ok in H as (cur & _ & H).
  assert (latest_row [with_medium r j] job stage = (fun r => with_medium r j) <$> latest_row [r] job stage) as Hl.
  { unfold latest_row, filter_b. simpl. change (live_for job stage (with_medium r j)) with (live_for job stage r).
    by destruct (live_for job stage r). }
  destruct (latest_row [r] job stage) as [r'|] eqn:E; [|by inv_ok].
  assert (r' = r) as ->.
  { apply latest_row_some in E as [->%list_elem_of_singleton _]. done. }
  unfold load_medium_checkpoint. rewrite Hl. unfold resume_eligibility at 1. rewrite Hk'. cbn [mbind result_bind fmap option_fmap option_map].
  inv_ok. unfold medium_record_from_row in *. inv_ok.
  cbn [ck_cursor ck_counters with_medium] in *.
  repeat match goal with H : parse_json _ = Ok _ |- _ => rewrite H; clear H; cbn [mbind result_bind] end.
  repeat match goal with H : dict_of _ = Ok _ |- _ => rewrite H; clear H; cbn [mbind result_bind] end.
  cbn [mc_identity_json with_medium ck_medium]. rewrite (loads_dumps _ _ Wm' Hj), canon_map_dict.
  cbn [mbind result_bind]. unfold resume_eligibility. rewrite (key_canon m' _ Wm' Hk'), Hk'. cbn [mbind result_bind].
  rewrite String.eqb_refl. cbn -[MEDIUM_CHECKPOINT_VERSION raise_if].
  cbn [mc_version mc_tool mc_toolv mc_cursor mc_counters mc_key mc_stage mc_blob mc_integrity ck_fp ck_stage
    ck_version ck_tool ck_toolv ck_blob ck_digest] in *.
  repeat match goal with
  | H : ?b = false |- context [raise_if ?b _] => rewrite H; cbn [raise_if mbind result_bind]
  | H : mk_canonical_json _ = Ok _ |- _ => rewrite H; clear H; cbn [mbind result_bind]
  end. done.
Qed.

(** A medium event is one appended row of a known type; jobs and cases are untouched. *)
Lemma record_medium_event_appends c id case_id type payload now c' e :
  record_medium_event c id case_id type payload now = Ok (c', e) ->
  type ∈ MEDIUM_EVENT_TYPES /\ cat_jobs c' = cat_jobs c /\ cat_cases c' = cat_cases c /\
  cat_events c' = (cat_events c ++ [e])%list /\ ev_type e = type /\ ev_job e = None /\
  ev_seq e = next_sequence (cat_events c) case_id.
Proof.
  unfold record_medium_event. destruct (bool_decide _) eqn:Et; [|done]. apply bool_decide_eq_true in Et.
  simpl. destruct (append_event _ _ _ _ _ _ _) as [[c1 e1]|] eqn:E; [|done]. intros [= <- <-].
  apply append_event_ok in E as (text & _ & -> & -> & _). done.
Qed.

(** ** Examples and witnesses *)

(** An identity of a card with capacity [n] in the reader [reader_1]. *)
Definition demo_medium (n : Z) : mapping :=
  medium_identity_record "reader_1" (normalize_medium_signals [("size_bytes", VInt n)]) "reader-facts" [].

Definition demo_medium_save : connection (list checkpoint) * result media_error unit :=
  save_medium_checkpoint ["job_1"] (Conn [] None) "ck_1" "job_1" (demo_medium 4096) "carve" "photorec" "7.2"
    (VDict [("offset", VInt 512)]) (VDict []) [7] "2026-01-01T00:00:00Z".

(** A checkpoint of [Checkpoints] on the same stage supersedes that of the medium, which is
    then refused: both modules share the table. *)
Example plain_checkpoint_hides_medium :
  match save_checkpoint ["job_1"] (fst demo_medium_save) "ck_2" "job_1" demo_ck_fp "carve" "photorec" "7.2"
          (VDict []) (VDict []) [] "2026-01-02T00:00:00Z" (VInt 1) false with
  | (c, Ok _) => match load_medium_checkpoint (current c) "job_1" (demo_medium 4096) "carve" "photorec" "7.2" with
                 | Err (MediaCheckpointError m _) => m = "checkpoint medium mismatch: no_previous_medium"
                 | _ => False end
  | _ => False
  end.
Proof. by vm_compute. Qed.

Lemma wf_demo_medium n : wf_value (VDict (demo_medium n)).
Proof.
  change (wf_value (VDict (demo_medium n))) with
    (wf_value (VDict [("schema_version", VInt 1); ("reader_id", VStr "reader_1"); ("identity_strength", VStr "reader-facts");
       ("warnings", VList []);
       ("medium_signals", VDict (normalize_medium_signals [("size_bytes", VInt n)]));
       ("has_medium", VBool (is_plausible_medium (removelast (demo_medium n))))])).
  apply wf_dict_Forall. split.
  - apply (bool_decide_unpack (NoDup ["schema_version"; "reader_id"; "identity_strength"; "warnings"; "medium_signals"; "has_medium"])).
    by vm_compute.
  - rewrite !Forall_cons, Forall_nil. split_and!; try done. apply wf_dict_Forall. split.
    + apply (bool_decide_unpack (NoDup MEDIUM_SIGNAL_FIELDS)). by vm_compute.
    + unfold normalize_medium_signals. rewrite !Forall_cons, Forall_nil. by split_and!.
Qed.

Definition demo_refusal : ResumeEligibility :=
  match resume_eligibility (VDict (demo_medium 4096)) (demo_medium 8192) with
  | Ok e => e | Err _ => RE true None false "" end.

Lemma resume_only_same_medium_witness :
  re_reason demo_refusal = Some "capacity_changed" /\ re_offers_new_case demo_refusal = true /\
  medium_identity_key (demo_medium 8192) = Ok (re_key demo_refusal).
Proof.
  destruct (resume_only_same_medium (VDict (demo_medium 4096)) (demo_medium 8192) demo_refusal
    (wf_demo_medium 4096) (wf_demo_medium 8192) ltac:(by vm_compute)) as (Hk & _ & Hn & _).
  split; [by vm_compute|]. split; [|exact Hk]. apply Hn. by vm_compute.
Defined.

Lemma wf_empty : wf_value (VDict []).
Proof. apply wf_dict_Forall. split; constructor. Qed.

Lemma wf_offset : wf_value (VDict [("offset", VInt 512)]).
Proof.
  apply wf_dict_Forall. split; [by apply (bool_decide_unpack (NoDup ["offset"]))|by repeat constructor].
Qed.

Lemma medium_checkpoint_roundtrip_witness :
  exists key mj digest,
    load_medium_checkpoint (current (fst demo_medium_save)) "job_1" (demo_medium 4096) "carve" "photorec" "7.2"
    = Ok (Some (MC "ck_1" "job_1" key (Some mj) "carve" 1 "photorec" "7.2" [("offset", VInt 512)] [] [7] digest),
          RE true None false key).
Proof.
  destruct (medium_checkpoint_roundtrip ["job_1"] (Conn [] None) "ck_1" "job_1" (demo_medium 4096) "carve"
    "photorec" "7.2" [("offset", VInt 512)] [] [7] "2026-01-01T00:00:00Z" (fst demo_medium_save) chains_nil eq_refl
    (wf_demo_medium 4096) wf_offset wf_empty ltac:(by vm_compute)) as (key & mj & digest & Hk & H).
  destruct (H (demo_medium 4096) (wf_demo_medium 4096)) as [Hload _].
  destruct (Hload key (conj eq_refl eq_refl) Hk) as [_ Hl].
  exact (ex_intro _ key (ex_intro _ mj (ex_intro _ digest Hl))).
Defined.

Definition demo_medium_row : checkpoint :=
  default (Ck "" "" "" "" 0 "" "" "" "" [] "" None None "" None) (head (current (fst demo_medium_save))).


Lemma ok_or_eq {E A} (r : result E A) d : is_ok r = true -> r = Ok (ok_or r d).
Proof. by destruct r. Qed.

Lemma medium_identity_not_bound_witness :
  exists rec e, load_medium_checkpoint [with_medium demo_medium_row (default "" (dumps (VDict (demo_medium 8192))))]
    "job_1" (demo_medium 8192) "carve" "photorec" "7.2" = Ok (Some rec, e) /\ re_eligible e = true /\
    Ok (mc_key rec) = medium_identity_key (demo_medium 4096).
Proof.
  destruct (load_medium_checkpoint [demo_medium_row] "job_1" (demo_medium 4096) "carve" "photorec" "7.2")
    as [[[rec|] e]|err] eqn:E; [|exfalso; by vm_compute in E..].
  assert (Ok (mc_key rec) = medium_identity_key (demo_medium 4096)) as Hkey.
  { assert (match load_medium_checkpoint [demo_medium_row] "job_1" (demo_medium 4096) "carve" "photorec" "7.2" with
            | Ok (Some r, _) => Ok (mc_key r) | _ => Err MkTypeError end = medium_identity_key (demo_medium 4096)) as H
      by (by vm_compute). by rewrite E in H. }
  eexists _, _. split; [apply (medium_identity_not_bound demo_medium_row "job_1" (demo_medium 4096) "carve" "photorec"
    "7.2" rec e (demo_medium 8192) (ok_or (medium_identity_key (demo_medium 8192)) "") _ E (wf_demo_medium 8192));
    [apply ok_or_eq; by vm_compute|by vm_compute]|]. split; [reflexivity|exact Hkey].
Defined.
