(* ===== verification/FatEntries.v ===== *)
(** * FAT32 and exFAT entries (src/scanner/fat_entries.py)

    The clean-up of a cluster chain, its byte extents, and the enrichment of a normalised entry
    with FAT facts.  The entry type is that of [entry_normalization.py]; arguments whose type
    the code tests are values of [Json], the rest has the annotated type. *)

From Stdlib Require Import ZArith Lia String Ascii.
From stdpp Require Import base list strings gmap sorting.
From S2P Require Import Prelude PyStr Json Messages Fat12.

Local Open Scope string_scope.
Local Open Scope Z_scope.

(** ** Data *)

(** The [ValueError] of the module. *)
Inductive fat_error := FatValueError (message : string).

(** scanner/entry_normalization.py:22-25 RawTimestamp *)
Record RawTimestamp := RT { rt_value : option string; rt_timezone_state : string }.

(** scanner/entry_normalization.py:36-54 NormalizedEntry *)
Record NormalizedEntry := NE {
  ne_entry_id : string;
  ne_volume_id : string;
  ne_object_id : string;
  ne_parent_object_id : option string;
  ne_parent_entry_id : option string;
  ne_raw_path_bytes : bytes;
  ne_display_path : string;
  ne_raw_name_bytes : bytes;
  ne_display_name : string;
  ne_entry_type : string;
  ne_attributes : list string;
  ne_owner_id : option string;
  ne_size_bytes : option Z;
  ne_allocated : bool;
  ne_raw_timestamps : list (string * RawTimestamp);
  ne_extents : list Extent;
  ne_alternate_stream : option string;
  ne_warnings : list string
}.

(** scanner/fat_entries.py:15-25 FatEntryDetails *)
Record FatEntryDetails := FD {
  fd_filesystem : string;
  fd_short_name : option string;
  fd_long_name : option string;
  fd_volume_label : option string;
  fd_first_cluster : option Z;
  fd_cluster_chain : list Z;
  fd_chain_status : string;
  fd_timezone_state : string;
  fd_warnings : list string
}.

(** scanner/fat_entries.py:10-10 SUPPORTED_FAT_FILESYSTEMS *)
Definition SUPPORTED_FAT_FILESYSTEMS : list string := ["fat12"; "fat32"; "exfat"].
(** scanner/fat_entries.py:11-11 END_OF_CHAIN *)
Definition END_OF_CHAIN (c : Z) : bool :=
  ((4088 <=? c) && (c <? 4096)) || ((268435448 <=? c) && (c <? 268435456)) || (c =? 4294967295).
(** scanner/fat_entries.py:12-12 BAD_CLUSTER *)
Definition BAD_CLUSTER (c : Z) : bool := (c =? 4087) || (c =? 268435447) || (c =? 4294967287).

(** ** Chains *)

(** The loop of [normalize_cluster_chain]: the clusters kept, the status and the warnings. *)
Fixpoint chain_loop (max_clusters : Z) (normalized : list Z) (chain : list value)
    : list Z * string * list string :=
  match chain with
  | [] => match normalized with
          | [] => ([], "empty", [])
          | _ => (normalized, "complete", ["fat_chain_end_unknown"])
          end
  | VInt cluster :: chain =>
    if END_OF_CHAIN cluster then (normalized, "complete", [])
    else if BAD_CLUSTER cluster || (cluster <? 2) then (normalized, "corrupt", ["fat_bad_cluster"])
    else if bool_decide (cluster ∈ normalized) then (normalized, "corrupt", ["fat_cluster_loop_bounded"])
    else if max_clusters <=? zlen normalized then (normalized, "truncated", ["fat_cluster_chain_bounded"])
    else chain_loop max_clusters (normalized ++ [cluster]) chain
  | _ :: _ => (normalized, "corrupt", ["fat_invalid_cluster"])
  end.

(** scanner/fat_entries.py:119-149 normalize_cluster_chain *)
Definition normalize_cluster_chain (chain max_clusters : value)
    : result fat_error (list Z * string * list string) :=
  limit ← match max_clusters with
          | VInt n => if n <=? 0 then Err (FatValueError "max_clusters must be positive") else Ok n
          | _ => Err (FatValueError "max_clusters must be positive")
          end;
  match chain with
  | VList l => Ok (chain_loop limit [] l)
  | _ => Ok ([], "corrupt", ["fat_malformed_cluster_chain"])
  end.

(** ** Extents *)

(** The loop of [cluster_extents]; [None] is the unknown size. *)
Fixpoint extents_loop (cluster_size data_offset : Z) (remaining : option Z) (chain : list Z)
    : result fat_error (list Extent) :=
  match chain with
  | [] => Ok []
  | cluster :: chain =>
    if cluster <? 2 then Err (FatValueError "invalid FAT cluster")
    else if bool_decide (remaining = Some 0) then Ok []
    else
      let length := match remaining with None => cluster_size | Some r => Z.min cluster_size r end in
      rest ← extents_loop cluster_size data_offset ((fun r => r - length) <$> remaining) chain;
      Ok ({| ext_offset := data_offset + (cluster - 2) * cluster_size; ext_length := length;
             ext_sparse := false |} :: rest)
  end.

(** scanner/fat_entries.py:152-183 cluster_extents: the chain holds integers, as its only caller
    passes the one [normalize_cluster_chain] returned. *)
Definition cluster_extents (chain : list Z) (cluster_size_bytes data_offset_bytes : value)
    (size_bytes : option Z) : result fat_error (list Extent) :=
  let bad := Err (FatValueError "invalid FAT cluster geometry") in
  match cluster_size_bytes, data_offset_bytes with
  | VInt cluster_size, VInt data_offset =>
    if (cluster_size <=? 0) || (data_offset <? 0)
       || match size_bytes with Some s => s <? 0 | None => false end then bad
    else extents_loop cluster_size data_offset size_bytes chain
  | _, _ => bad
  end.

(** ** Clean-up of the other facts *)

(** scanner/fat_entries.py:238-242 _clean_name *)
Definition clean_name (v : option string) : option string :=
  match v with
  | None => None
  | Some s => let cleaned := join " " (split_ws (replace_char "000"%char "" s)) in
              if String.eqb cleaned "" then None else Some (str_take 255 cleaned)
  end.

(** scanner/fat_entries.py:192-198 _clean_first_cluster: the value and the warning it appends. *)
Definition clean_first_cluster (v : value) : option Z * list string :=
  match v with
  | VNone => (None, [])
  | VInt z => if z <? 0 then (None, ["fat_invalid_first_cluster"]) else (Some z, [])
  | _ => (None, ["fat_invalid_first_cluster"])
  end.

(** scanner/fat_entries.py:201-215 _clean_timestamps *)
Definition clean_timestamps (fields : value) : list (string * string) * list string :=
  match fields with
  | VNone => ([], [])
  | VDict d =>
    let text kv := match kv with (name, VStr s) => [(name, s)] | _ => [] end in
    let bad kv := match kv with (_, VStr _) => false | (_, _) => true end in
    (concat (text <$> d), if existsb bad d then ["fat_malformed_timestamp_fields"] else [])
  | _ => ([], ["fat_malformed_timestamp_fields"])
  end.

(** scanner/fat_entries.py:186-189 _fat_timestamps *)
Definition fat_timestamps (fields : list (string * string)) : list (string * RawTimestamp) :=
  (fun '(name, v) => (name, RT (Some v) "local_ambiguous")) <$> fields.

(** scanner/fat_entries.py:218-223 _timezone_state *)
Definition timezone_state (existing : list (string * RawTimestamp)) (fields : list (string * string)) : string :=
  match fields, existing with
  | _ :: _, _ => "local_ambiguous"
  | [], (_, t) :: _ => rt_timezone_state t
  | [], [] => "missing"
  end.

(** scanner/fat_entries.py:226-227 _is_fragmented *)
Fixpoint is_fragmented (chain : list Z) : bool :=
  match chain with
  | previous :: (current :: _) as rest => negb (current =? previous + 1) || is_fragmented rest
  | _ => false
  end.

(** The text before the last separator, [path.rsplit("/", 1)\[0\]]. *)
Definition dir_of (path : string) : option string :=
  match partition_char "/"%char (of_chars (reverse (chars path))) with
  | Some (_, d) => Some (of_chars (reverse (chars d)))
  | None => None
  end.

(** scanner/fat_entries.py:230-235 _display_path_with_name *)
Definition display_path_with_name (path : string) (name : option string) : string :=
  match name with
  | None => path
  | Some n => match dir_of path with None => n | Some d => d +:+ "/" +:+ n end
  end.

(** [{**a, **b}]. *)
Definition merge_dicts {A} (a b : list (string * A)) : list (string * A) :=
  foldl (fun d '(k, v) => dict_set d k v) a b.

(** ** Enrichment *)

Definition extents_total (l : list Extent) : Z := zsum (ext_length <$> l).

(** scanner/fat_entries.py:28-116 enrich_fat_entry *)
Definition enrich_fat_entry (entry : NormalizedEntry) (filesystem : value)
    (short_name long_name volume_label : option string) (first_cluster cluster_chain : value)
    (cluster_size_bytes data_offset_bytes max_clusters timestamp_fields : value)
    : result fat_error (NormalizedEntry * FatEntryDetails) :=
  fs ← match filesystem with
       | VStr s => if bool_decide (s ∈ SUPPORTED_FAT_FILESYSTEMS) then Ok s
                   else Err (FatValueError "unsupported FAT filesystem")
       | _ => Err (FatValueError "unsupported FAT filesystem")
       end;
  '(chain, chain_status, chain_warnings) ← normalize_cluster_chain cluster_chain max_clusters;
  let clean_short_name := clean_name short_name in
  let clean_long_name := clean_name long_name in
  let clean_volume_label := clean_name volume_label in
  let '(clean_first, first_warnings) := clean_first_cluster first_cluster in
  let '(stamps, timestamp_warnings) := clean_timestamps timestamp_fields in
  let stamped := negb (bool_decide (length stamps = 0%nat)) in
  let is_some (o : option string) := match o with Some _ => true | None => false end in
  extents ← if is_some clean_volume_label then Ok []
            else cluster_extents chain cluster_size_bytes data_offset_bytes (ne_size_bytes entry);
  let attributes :=
    (ne_attributes entry ++ [fs] ++
     (if ne_allocated entry then [] else ["deleted_entry"]) ++
     (match clean_long_name with
      | Some n => if String.eqb n (ne_display_name entry) then [] else ["fat_long_name"]
      | None => [] end) ++
     (if is_some clean_short_name then ["fat_short_name"] else []) ++
     (if is_some clean_volume_label then ["volume_label"] else []) ++
     (if String.eqb chain_status "empty" then [] else ["cluster_chain:" +:+ chain_status]) ++
     (if is_fragmented chain then ["cluster_chain:fragmented"] else []))%list in
  let mismatch :=
    match chain, ne_size_bytes entry with
    | _ :: _, Some size => negb (extents_total extents =? size)
    | _, _ => false
    end in
  let warnings :=
    (ne_warnings entry ++ chain_warnings ++ first_warnings ++ timestamp_warnings ++
     (if stamped then ["fat_timestamp_timezone_ambiguous"] else []) ++
     (if is_fragmented chain then ["fat_cluster_chain_fragmented"] else []) ++
     (if mismatch then ["fat_extent_size_mismatch"] else []))%list in
  let labelled := match volume_label with Some s => negb (String.eqb s "") | None => false end in
  let enriched :=
    NE (ne_entry_id entry) (ne_volume_id entry) (ne_object_id entry) (ne_parent_object_id entry)
      (ne_parent_entry_id entry) (ne_raw_path_bytes entry)
      (display_path_with_name (ne_display_path entry) clean_long_name)
      (ne_raw_name_bytes entry) (default (ne_display_name entry) clean_long_name)
      (if labelled then "virtual" else ne_entry_type entry)
      (dedup attributes) (ne_owner_id entry) (ne_size_bytes entry) (ne_allocated entry)
      (merge_dicts (ne_raw_timestamps entry) (fat_timestamps stamps))
      extents (ne_alternate_stream entry) (dedup warnings) in
  let details :=
    FD fs clean_short_name clean_long_name clean_volume_label clean_first chain chain_status
      (timezone_state (ne_raw_timestamps entry) stamps)
      (dedup (chain_warnings ++ timestamp_warnings ++
              (if stamped then ["fat_timestamp_timezone_ambiguous"] else []))%list) in
  Ok (enriched, details).

(** ** Chains: the longest usable prefix *)

(** A cluster the loop keeps, loops and the bound aside. *)
Definition usable (c : Z) : Prop := END_OF_CHAIN c = false /\ BAD_CLUSTER c = false /\ 2 <= c.

(** Why a chain ends after the clusters [n], with the rest of the input, the status and the
    warning that say so. *)
Inductive chain_end (limit : Z) (n : list Z) : list value -> string -> list string -> Prop :=
  | end_marker c r : END_OF_CHAIN c = true -> chain_end limit n (VInt c :: r) "complete" []
  | end_unknown : n <> [] -> chain_end limit n [] "complete" ["fat_chain_end_unknown"]
  | end_empty : n = [] -> chain_end limit n [] "empty" []
  | end_bad c r : END_OF_CHAIN c = false -> BAD_CLUSTER c = true \/ c < 2 ->
      chain_end limit n (VInt c :: r) "corrupt" ["fat_bad_cluster"]
  | end_loop c r : usable c -> c ∈ n -> chain_end limit n (VInt c :: r) "corrupt" ["fat_cluster_loop_bounded"]
  | end_limit c r : usable c -> c ∉ n -> limit <= zlen n ->
      chain_end limit n (VInt c :: r) "truncated" ["fat_cluster_chain_bounded"]
  | end_type v r : (forall z, v <> VInt z) -> chain_end limit n (v :: r) "corrupt" ["fat_invalid_cluster"].

Lemma chain_loop_end limit n l st ws : chain_end limit n l st ws -> chain_loop limit n l = (n, st, ws).
Proof.
  assert (forall c, usable c -> END_OF_CHAIN c = false /\ BAD_CLUSTER c || (c <? 2) = false) as Hu.
  { intros c (He & Hb & H2). split; [done|]. rewrite Hb. by destruct (Z.ltb_spec c 2); [lia|]. }
  intros H. destruct H as [c r He|Hn|Hn|c r He Hb|c r Hc Hin|c r Hc Hin Hl|v r Hv]; simpl.
  - by rewrite He.
  - by destruct n.
  - by subst n.
  - rewrite He. assert (BAD_CLUSTER c || (c <? 2) = true) as ->; [|done].
    apply orb_true_iff. rewrite Z.ltb_lt. tauto.
  - destruct (Hu c Hc) as [-> ->]. by rewrite bool_decide_eq_true_2.
  - destruct (Hu c Hc) as [-> ->]. rewrite bool_decide_eq_false_2 by done.
    by destruct (Z.leb_spec limit (zlen n)); [|lia].
  - destruct v; try done. by destruct (Hv z).
Qed.

Lemma chain_loop_step limit n c l :
  usable c -> c ∉ n -> zlen n < limit -> chain_loop limit n (VInt c :: l) = chain_loop limit (n ++ [c]) l.
Proof.
  intros (He & Hb & H2) Hin Hl. simpl. rewrite He, Hb, bool_decide_eq_false_2 by done.
  destruct (Z.ltb_spec c 2); [lia|]. by destruct (Z.leb_spec limit (zlen n)); [lia|].
Qed.

(** A step of the loop ends the chain or keeps its next cluster. *)
Lemma chain_cases limit n l :
  (exists st ws, chain_end limit n l st ws) \/
  exists c r, l = VInt c :: r /\ usable c /\ c ∉ n /\ zlen n < limit.
Proof.
  destruct l as [|v r].
  - left. destruct n as [|x n]; eexists _, _; [by apply end_empty|by apply end_unknown].
  - destruct v as [| |c| | | |]; try (left; eexists _, _; apply end_type; congruence).
    destruct (END_OF_CHAIN c) eqn:He; [left; eexists _, _; by apply end_marker|].
    destruct (decide (BAD_CLUSTER c = true \/ c < 2)) as [Hb|Hb]; [left; eexists _, _; by apply end_bad|].
    assert (usable c) as Hu by (split; [done|]; split; [apply not_true_is_false; tauto|lia]).
    destruct (decide (c ∈ n)) as [Hin|Hin]; [left; eexists _, _; by apply end_loop|].
    destruct (decide (limit <= zlen n)) as [Hl|Hl]; [left; eexists _, _; by apply end_limit|].
    right. exists c, r. split_and!; [done..|lia].
Qed.

Lemma chain_loop_prefix limit acc k rest st ws :
  NoDup (acc ++ k) -> Forall usable (acc ++ k)%list -> zlen (acc ++ k)%list <= limit ->
  chain_end limit (acc ++ k) rest st ws ->
  chain_loop limit acc ((VInt <$> k) ++ rest)%list = ((acc ++ k)%list, st, ws).
Proof.
  revert acc. induction k as [|c k IH]; intros acc Hnd Hu Hl He.
  - rewrite app_nil_r in *. by apply chain_loop_end.
  - rewrite (cons_middle c acc k), (app_assoc acc) in Hnd, Hu, Hl, He |- *.
    rewrite fmap_cons, <- app_comm_cons. rewrite chain_loop_step; [by apply IH| | |].
    + rewrite <- app_assoc in Hu. apply Forall_app in Hu as [_ Hu]. by inversion Hu.
    + rewrite <- app_assoc in Hnd. apply NoDup_app in Hnd as (_ & Hnd & _). intros Hc. apply (Hnd c Hc). left.
    + unfold zlen in *. rewrite !length_app in Hl. simpl in Hl. lia.
Qed.

Lemma chain_loop_sound limit acc l n st ws :
  NoDup acc -> Forall usable acc -> zlen acc <= limit -> chain_loop limit acc l = (n, st, ws) ->
  exists k rest, n = (acc ++ k)%list /\ l = ((VInt <$> k) ++ rest)%list /\ Forall usable n /\ NoDup n /\
    zlen n <= limit /\ chain_end limit n rest st ws.
Proof.
  revert acc. induction l as [|v l IH]; intros acc Hnd Hu Hl H.
  - destruct (chain_cases limit acc []) as [(st' & ws' & He)|(c & r & [=] & _)].
    apply chain_loop_end in He as He'. rewrite H in He'. injection He' as -> -> ->.
    exists [], []. by rewrite app_nil_r.
  - destruct (chain_cases limit acc (v :: l)) as [(st' & ws' & He)|(c & r & [= -> ->] & Huc & Hin & Hlt)].
    + apply chain_loop_end in He as He'. rewrite H in He'. injection He' as -> -> ->.
      exists [], (v :: l). by rewrite app_nil_r.
    + rewrite chain_loop_step in H by done.
      apply IH in H as (k & rest & -> & -> & Hn).
      * exists (c :: k), rest. rewrite <- app_assoc in Hn |- *. done.
      * apply NoDup_app. split; [done|]. split; [|apply NoDup_singleton]. by intros x Hx ->%list_elem_of_singleton.
      * apply Forall_app. split; [done|]. by constructor.
      * rewrite zlen_snoc. lia.
Qed.

(** A cluster chain is cut at its first unusable element and not before.  For any chain and
    positive bound, [normalize_cluster_chain] returns clusters, status and warnings exactly
    when the clusters are a prefix of the input, all of them proper, different and at most the
    bound in number, and the element after them is what the status says: an end marker, the
    end of the input, a bad or repeated cluster, one too many, or no integer. *)
Theorem normalize_cluster_chain_prefix l limit n st ws :
  0 < limit ->
  normalize_cluster_chain (VList l) (VInt limit) = Ok (n, st, ws) <->
  exists rest, l = ((VInt <$> n) ++ rest)%list /\ Forall usable n /\ NoDup n /\ zlen n <= limit /\
    chain_end limit n rest st ws.
Proof.
  intros Hlim. unfold normalize_cluster_chain.
  destruct (Z.leb_spec limit 0); [lia|]. cbn [mbind result_bind]. split.
  - intros H'. injection H' as H'. apply chain_loop_sound in H' as (k & rest & -> & -> & ?).
    + by exists rest.
    + constructor.
    + constructor.
    + unfold zlen. simpl. lia.
  - intros (rest & -> & Hu & Hnd & Hl & He). f_equal. by apply (chain_loop_prefix limit [] n rest st ws).
Qed.

(** ** Extents *)

Lemma extents_total_cons e l : extents_total (e :: l) = ext_length e + extents_total l.
Proof. done. Qed.

(** The extents of a chain: where each starts, and how the size is spread over them. *)
Lemma extents_loop_spec cs off size chain exts :
  0 < cs -> (forall s, size = Some s -> 0 <= s) ->
  extents_loop cs off size chain = Ok exts ->
  Forall2 (fun e c => ext_offset e = off + (c - 2) * cs /\ 0 < ext_length e <= cs)
    exts (take (length exts) chain) /\
  (length exts <= length chain)%nat /\
  extents_total exts = match size with Some s => Z.min s (cs * zlen chain) | None => cs * zlen chain end.
Proof.
  intros Hcs. revert size exts. induction chain as [|c chain IH]; intros size exts Hs H; cbn [extents_loop] in H.
  - injection H as <-. split; [constructor|]. split; [done|]. unfold extents_total, zlen. simpl.
    destruct size as [s|]; [|lia]. specialize (Hs s eq_refl). lia.
  - destruct (c <? 2) eqn:E2; [done|]. destruct (bool_decide (size = Some 0)) eqn:E0.
    + apply bool_decide_eq_true in E0. subst size. injection H as <-.
      split; [constructor|]. split; [simpl; lia|]. unfold extents_total. simpl. pose proof (zlen_nonneg (c :: chain)). nia.
    + apply bool_decide_eq_false in E0. inv_ok.
      match goal with H : extents_loop _ _ _ _ = Ok ?x |- _ => rename x into rest, H into Hr end.
      apply IH in Hr as (Hf & Hl & Ht).
      2: { intros s. destruct size as [s'|]; [|done]. simpl. intros [= <-]. specialize (Hs s' eq_refl). lia. }
      split; [|split; [simpl; lia|]].
      * simpl. constructor; [|done]. cbn [ext_offset ext_length]. split; [done|].
        destruct size as [s|]; [|lia]. specialize (Hs s eq_refl). assert (s <> 0) by congruence. lia.
      * rewrite extents_total_cons, Ht, zlen_cons. cbn [ext_length].
        pose proof (zlen_nonneg chain). assert (0 <= cs * zlen chain) by nia. rewrite Z.mul_add_distr_l.
        destruct size as [s|]; simpl; [|lia]. specialize (Hs s eq_refl). lia.
Qed.

Lemma extents_loop_total cs off size chain :
  Forall (fun c => 2 <= c) chain -> exists exts, extents_loop cs off size chain = Ok exts.
Proof.
  intros H. revert size. induction H as [|c chain Hc _ IH]; intros size; cbn [extents_loop]; [by exists []|].
  destruct (Z.ltb_spec c 2); [lia|]. destruct (bool_decide _); [by exists []|].
  match goal with |- context [extents_loop cs off ?r chain] => destruct (IH r) as [exts ->] end.
  eexists. reflexivity.
Qed.

(** Two extents have no byte in common. *)
Definition extents_disjoint (a b : Extent) : Prop :=
  ext_offset a + ext_length a <= ext_offset b \/ ext_offset b + ext_length b <= ext_offset a.

(** Extents that lie in different clusters of a data area. *)
Definition laid_out (cs off : Z) (chain : list Z) (exts : list Extent) : Prop :=
  Forall (fun e => exists c, c ∈ chain /\ off <= ext_offset e /\ ext_offset e = off + (c - 2) * cs /\
                     0 < ext_length e <= cs) exts /\
  forall i j a b, i <> j -> exts !! i = Some a -> exts !! j = Some b -> extents_disjoint a b.

Lemma extents_laid_out cs off chain exts :
  0 < cs -> Forall usable chain -> NoDup chain ->
  Forall2 (fun e c => ext_offset e = off + (c - 2) * cs /\ 0 < ext_length e <= cs) exts (take (length exts) chain) ->
  laid_out cs off chain exts.
Proof.
  intros Hcs Hu Hnd Hf. split.
  - apply Forall_lookup. intros i e Hi. destruct (Forall2_lookup_l _ _ _ _ _ Hf Hi) as (c & Hc & Ho & Hl).
    apply lookup_take_Some in Hc as [Hc _]. apply list_elem_of_lookup_2 in Hc as Hin.
    exists c. split; [done|]. rewrite Forall_forall in Hu. destruct (Hu c Hin) as (_ & _ & H2).
    split; [nia|]. done.
  - intros i j a b Hij Ha Hb.
    destruct (Forall2_lookup_l _ _ _ _ _ Hf Ha) as (c & Hc & Oa & La).
    destruct (Forall2_lookup_l _ _ _ _ _ Hf Hb) as (d & Hd & Ob & Lb).
    apply lookup_take_Some in Hc as [Hc _]. apply lookup_take_Some in Hd as [Hd _].
    assert (c <> d) as Hne by (intros ->; destruct Hij; by apply (NoDup_lookup chain i j d)).
    unfold extents_disjoint. rewrite Oa, Ob. destruct (decide (c < d)); [left|right]; nia.
Qed.

Lemma chain_end_no_mismatch limit n r st ws : chain_end limit n r st ws -> "fat_extent_size_mismatch" ∉ ws.
Proof.
  intros H. destruct H; rewrite ?elem_of_cons, elem_of_nil; naive_solver.
Qed.

Lemma clean_warnings_no_mismatch first_cluster fields :
  "fat_extent_size_mismatch" ∉ (clean_first_cluster first_cluster).2 /\
  "fat_extent_size_mismatch" ∉ (clean_timestamps fields).2.
Proof.
  split.
  - destruct first_cluster as [| |z| | | |]; simpl; try destruct (z <? 0); simpl;
      rewrite ?elem_of_cons, elem_of_nil; naive_solver.
  - destruct fields as [| | | | | |d]; simpl; try destruct (existsb _ d);
      rewrite ?elem_of_cons, elem_of_nil; naive_solver.
Qed.

(** An enriched entry locates its data soundly.  The entry keeps its identity, bytes, size
    and earlier warnings; the details hold a chain of different, usable clusters.  Without a
    volume label every extent is the start of a cluster of the chain inside the data area, no
    two extents overlap, their lengths add up to the size as far as the chain reaches, and
    the warning [fat_extent_size_mismatch] is added exactly when the chain is too short for
    the size; a volume label has no extents. *)
Theorem enrich_fat_entry_sound entry fs sn ln vl first chain cs_v off_v limit fields e d :
  enrich_fat_entry entry fs sn ln vl first chain cs_v off_v limit fields = Ok (e, d) ->
  ne_entry_id e = ne_entry_id entry /\ ne_raw_path_bytes e = ne_raw_path_bytes entry /\
  ne_size_bytes e = ne_size_bytes entry /\ ne_allocated e = ne_allocated entry /\
  ne_warnings entry ⊆ ne_warnings e /\
  Forall usable (fd_cluster_chain d) /\ NoDup (fd_cluster_chain d) /\
  match fd_volume_label d with
  | Some _ => ne_extents e = []
  | None => exists cs off, cs_v = VInt cs /\ off_v = VInt off /\ 0 < cs /\
      laid_out cs off (fd_cluster_chain d) (ne_extents e) /\
      extents_total (ne_extents e) = match ne_size_bytes entry with
                                     | Some s => Z.min s (cs * zlen (fd_cluster_chain d))
                                     | None => cs * zlen (fd_cluster_chain d) end /\
      ("fat_extent_size_mismatch" ∈ ne_warnings e <->
         "fat_extent_size_mismatch" ∈ ne_warnings entry \/
         exists s, fd_cluster_chain d <> [] /\ ne_size_bytes entry = Some s /\ cs * zlen (fd_cluster_chain d) < s)
  end.
Proof.
  intros H. unfold enrich_fat_entry in H. apply bind_ok in H as (f & _ & H).
  apply bind_ok in H as ([[n st] ws] & Hn & H).
  destruct (clean_warnings_no_mismatch first fields) as [Nf Nt].
  destruct (clean_first_cluster first) as [cf fw]. destruct (clean_timestamps fields) as [stamps tw].
  apply bind_ok in H as (exts & He & H). injection H as <- <-.
  cbn [ne_entry_id ne_raw_path_bytes ne_size_bytes ne_allocated ne_warnings ne_extents fd_cluster_chain fd_volume_label].
  assert (Forall usable n /\ NoDup n /\ "fat_extent_size_mismatch" ∉ ws) as (Hu & Hnd & Nw).
  { unfold normalize_cluster_chain in Hn. apply bind_ok in Hn as (m & Hm & Hn).
    assert (0 < m) as Hm0.
    { destruct limit as [| |z| | | |]; try done. destruct (Z.leb_spec z 0); [done|]. by injection Hm as ->. }
    destruct chain as [| | | | |l|]; try (injection Hn as <- <- <-; split; [constructor|split; [constructor|]];
      rewrite elem_of_cons, elem_of_nil; naive_solver).
    injection Hn as Hn. apply chain_loop_sound in Hn as (k & rest & _ & _ & Hu & Hnd & _ & Hend).
    - split; [done|]. split; [done|]. by apply chain_end_no_mismatch in Hend.
    - constructor.
    - constructor.
    - unfold zlen. simpl. lia. }
  do 4 (split; [done|]). split; [intros x Hx; apply elem_of_dedup, elem_of_app; by left|].
  split; [done|]. split; [done|].
  destruct (clean_name vl) as [label|]; [by injection He as <-|].
  unfold cluster_extents in He. destruct cs_v as [| |cs| | | |]; try done. destruct off_v as [| |off| | | |]; try done.
  destruct ((cs <=? 0) || (off <? 0) || _) eqn:E; [done|]. rewrite !orb_false_iff in E. destruct E as [[E1 E2] E3].
  apply Z.leb_gt in E1.
  assert (forall s, ne_size_bytes entry = Some s -> 0 <= s) as Hs
    by (intros s Hs; rewrite Hs in E3; apply Z.ltb_ge in E3; lia).
  destruct (extents_loop_spec cs off _ _ _ E1 Hs He) as (Hf & Hl & Ht).
  exists cs, off. do 3 (split; [done|]). split; [by apply extents_laid_out|]. split; [done|].
  rewrite elem_of_dedup, !elem_of_app.
  match goal with |- context [if ?m then ["fat_extent_size_mismatch"] else []] =>
    assert (m = true <-> exists s, n <> [] /\ ne_size_bytes entry = Some s /\ cs * zlen n < s) as Hm end.
  { destruct n as [|c n]; [split; [done|]; naive_solver|].
    destruct (ne_size_bytes entry) as [s|]; [|split; [done|]; naive_solver].
    rewrite negb_true_iff, Z.eqb_neq, Ht. split.
    - intros Hne. exists s. split_and!; [done..|lia].
    - intros (s' & _ & [= <-] & Hlt). lia. }
  rewrite <- Hm, !elem_of_if. naive_solver.
Qed.

(** ** Examples and witnesses *)

Definition demo_entry (size : option Z) : NormalizedEntry :=
  NE "entry-1" "vol-1" "11" None None [65] "dir/RESUME~1.TXT" [65] "RESUME~1.TXT" "file" [] None size true
    [] [] None [].

Definition demo_enriched : result fat_error (NormalizedEntry * FatEntryDetails) :=
  enrich_fat_entry (demo_entry (Some 700)) (VStr "fat32") (Some "RESUME~1.TXT") (Some "Resume 2026.txt") None
    (VInt 5) (VList [VInt 5; VInt 9; VInt 268435455]) (VInt 512) (VInt 4096) (VInt 4096)
    (VDict [("modified", VStr "2026-08-14 12:00:00")]).

Example demo_enriched_ok :
  match demo_enriched with
  | Ok (e, d) => ne_display_path e = "dir/Resume 2026.txt" /\
      ((fun x => (ext_offset x, ext_length x)) <$> ne_extents e) = [(5632, 512); (7680, 188)] /\
      ne_attributes e = ["fat32"; "fat_long_name"; "fat_short_name"; "cluster_chain:complete"; "cluster_chain:fragmented"] /\
      ne_warnings e = ["fat_timestamp_timezone_ambiguous"; "fat_cluster_chain_fragmented"] /\
      fd_timezone_state d = "local_ambiguous"
  | Err _ => False
  end.
Proof. by vm_compute. Qed.

(** The end markers of FAT12 are looked for in every chain: a FAT32 file that passes through
    cluster 4088 is cut there and called complete. *)
Example fat32_chain_cut_at_fat12_marker :
  normalize_cluster_chain (VList [VInt 4086; VInt 4088; VInt 4090; VInt 268435455]) (VInt 4096)
  = Ok ([4086], "complete", []).
Proof. by vm_compute. Qed.

(** A blank volume label makes the entry virtual and still gives it extents. *)
Example blank_label_is_virtual_with_extents :
  match enrich_fat_entry (demo_entry None) (VStr "fat32") None None (Some " ") VNone (VList [VInt 5]) (VInt 512)
          (VInt 0) (VInt 8) VNone with
  | Ok (e, _) => ne_entry_type e = "virtual" /\ length (ne_extents e) = 1%nat /\
      existsb (String.eqb "volume_label") (ne_attributes e) = false
  | Err _ => False
  end.
Proof. by vm_compute. Qed.

Lemma normalize_cluster_chain_prefix_witness :
  exists rest, [VInt 5; VInt 9; VInt 5] = ((VInt <$> [5; 9]) ++ rest)%list /\ Forall usable [5; 9] /\ NoDup [5; 9] /\
    zlen [5; 9] <= 16 /\ chain_end 16 [5; 9] rest "corrupt" ["fat_cluster_loop_bounded"].
Proof. apply (proj1 (normalize_cluster_chain_prefix [VInt 5; VInt 9; VInt 5] 16 [5; 9] "corrupt" ["fat_cluster_loop_bounded"] ltac:(lia))). by vm_compute. Defined.

Lemma enrich_fat_entry_sound_witness :
  exists e d, demo_enriched = Ok (e, d) /\ extents_total (ne_extents e) = 700 /\
    laid_out 512 4096 [5; 9] (ne_extents e).
Proof.
  destruct demo_enriched as [[e d]|err] eqn:E; [|exfalso; by vm_compute in E].
  exists e, d. split; [done|].
  destruct (enrich_fat_entry_sound (demo_entry (Some 700)) (VStr "fat32") (Some "RESUME~1.TXT")
    (Some "Resume 2026.txt") None (VInt 5) (VList [VInt 5; VInt 9; VInt 268435455]) (VInt 512) (VInt 4096) (VInt 4096)
    (VDict [("modified", VStr "2026-08-14 12:00:00")]) e d E) as (_ & _ & _ & _ & _ & _ & _ & H).
  assert (match demo_enriched with Ok (_, d) => (fd_volume_label d, fd_cluster_chain d) | Err _ => (None, []) end
          = (None, [5; 9])) as Hd by (by vm_compute).
  rewrite E in Hd. injection Hd as Hl Hc. rewrite Hl, Hc in H.
  destruct H as (cs & off & [= <-] & [= <-] & _ & Hlaid & Ht & _). split; [exact Ht|exact Hlaid].
Defined.
