(* ===== verification/EntryNormalization.v ===== *)
(** * Normalised entries (src/scanner/entry_normalization.py)

    The normalisation of enumerated entries over texts of code points, with the bytes of hostile
    names kept.  The normalisation to NFC is a parameter.  The theorems: the raw bytes of an entry
    made from any bytes are those bytes, and the links and warnings of a batch are given by the
    entries before each one. *)

From Stdlib Require Import ZArith Lia String Ascii.
From stdpp Require Import base list strings gmap sorting.
From S2P Require Import Prelude PyStr Json Sha256 Unicode Fat12 FatEntries PartitionDiscovery FilesystemEnumeration.

Local Open Scope string_scope.
Local Open Scope Z_scope.

(** scanner/entry_normalization.py:11-11 VALID_ENTRY_TYPES *)
Definition VALID_ENTRY_TYPES : list string := ["file"; "directory"; "symlink"; "virtual"; "unknown"; "deleted"].

(** scanner/entry_normalization.py:14-19 EntryNormalizationError, and the error of a lone surrogate. *)
Inductive normalization_error := EntryNormalizationError (code message : string) | UnicodeEncodeError.
Abbreviation normalized := (result normalization_error).

(** scanner/entry_normalization.py:35-54 NormalizedEntry: with texts of code points where
    [FatEntries] has strings. *)
Record TextEntry := {
  te_entry_id : string; te_volume_id : string; te_object_id : string; te_parent_object_id : option string;
  te_parent_entry_id : option string; te_raw_path_bytes : bytes; te_display_path : text; te_raw_name_bytes : bytes;
  te_display_name : text; te_entry_type : string; te_attributes : list string; te_owner_id : option string;
  te_size_bytes : option Z; te_allocated : bool; te_raw_timestamps : list (string * RawTimestamp);
  te_extents : list Extent; te_alternate_stream : option text; te_warnings : list string }.

(** The optional arguments of [normalize_entry]. *)
Record entry_options := {
  op_parent_entry_id : option string; op_duplicate_name : bool; op_orphan_parent : bool;
  op_raw_timestamps : list (string * RawTimestamp); op_extents : list Extent; op_owner_id : option string;
  op_size_bytes : option Z; op_attributes : list string }.

(** [unicodedata.normalize("NFC", text)]: texts below the combining characters are normal. *)
Class Normalizer := {
  nfc : text -> text;
  nfc_latin : forall t, Forall (fun cp => cp < 768) t -> nfc t = t }.

(** ** Splitting *)

(** [b.split(sep)] of a sequence of numbers. *)
Fixpoint split_num (sep : Z) (cur l : list Z) : list (list Z) :=
  match l with
  | [] => [cur]
  | x :: l => if x =? sep then cur :: split_num sep [] l else split_num sep (cur ++ [x])%list l
  end.

(** The part after the last separator, everything without one: [rsplit(sep, 1)\[-1\]]. *)
Definition after_last (sep : Z) (l : list Z) : list Z := default l (last (split_num sep [] l)).

(** [t.split(sep, 1)]. *)
Fixpoint split_first (sep : Z) (l : list Z) : option (list Z * list Z) :=
  match l with
  | [] => None
  | x :: l => if x =? sep then Some ([], l) else (fun p => (x :: p.1, p.2)) <$> split_first sep l
  end.

Definition SLASH : Z := 47.
Definition BACKSLASH : Z := 92.
Definition COLON : Z := 58.
Definition DOT_DOT : list Z := [46; 46].

(** ** One entry *)

(** scanner/entry_normalization.py:162-163 _encode_path *)
Definition encode_path (t : text) : normalized bytes :=
  match encode_escape t with Some b => Ok b | None => Err UnicodeEncodeError end.

(** scanner/entry_normalization.py:198-202 _stable_entry_id *)
Definition stable_entry_id (volume_id object_id : string) (path_bytes : bytes) : string :=
  "entry-" +:+ str_take 32 (sha256_hex (utf8 volume_id ++ [0] ++ utf8 object_id ++ [0] ++ path_bytes)%list).

(** scanner/entry_normalization.py:177-183 _alternate_stream *)
Definition alternate_stream (display_name : text) : option text :=
  match split_first COLON display_name with
  | Some (_ :: _, x :: l) => Some (x :: l)
  | _ => None
  end.

(** scanner/entry_normalization.py:186-191 _normalized_entry_type *)
Definition normalized_entry_type (entry_type : string) (allocated : bool) : string :=
  if allocated then entry_type
  else if bool_decide (entry_type ∈ ["file"; "directory"; "symlink"; "unknown"]) then "deleted" else entry_type.

(** scanner/entry_normalization.py:194-195 _has_traversal_segment *)
Definition has_traversal_segment (path_bytes : bytes) : bool :=
  existsb (fun segment => bool_decide (segment = DOT_DOT))
    (split_num SLASH [] ((fun b => if b =? BACKSLASH then SLASH else b) <$> path_bytes)).

Section normalization.
Context `{Normalizer}.

(** scanner/entry_normalization.py:166-174 _display_path *)
Definition display_text (raw : bytes) : text * list string :=
  let decoded := nfc (decode_replace raw) in
  let w1 := if bool_decide (REPLACEMENT ∈ decoded) then ["invalid_unicode"] else [] in
  if bool_decide (0 ∈ decoded)
  then (concat ((fun cp => if cp =? 0 then [BACKSLASH; 48] else [cp]) <$> decoded), (w1 ++ ["nul_byte"])%list)
  else (decoded, w1).

(** scanner/entry_normalization.py:77-134 normalize_entry *)
Definition normalize_entry (entry : FilesystemEntry text) (op : entry_options) : normalized TextEntry :=
  _ ← raise_if (negb (bool_decide (fe_entry_type entry ∈ VALID_ENTRY_TYPES)))
        (EntryNormalizationError "invalid_entry_type" "entry type is not supported");
  _ ← raise_if (match op_size_bytes op with Some n => n <? 0 | None => false end)
        (EntryNormalizationError "invalid_size" "entry size must not be negative");
  _ ← raise_if (existsb (fun x => (ext_offset x <? 0) || (ext_length x <? 0)) (op_extents op))
        (EntryNormalizationError "invalid_extent" "extent values must not be negative");
  raw_path ← encode_path (fe_path entry);
  raw_name ← encode_path (fe_name entry);
  let '(display_path, path_warnings) := display_text raw_path in
  let '(display_name, name_warnings) := display_text raw_name in
  let stream := alternate_stream display_name in
  let warnings :=
    (path_warnings ++ name_warnings ++
     (if op_duplicate_name op then ["duplicate_sibling_name"] else []) ++
     (if op_orphan_parent op then ["orphan_parent"] else []) ++
     (if has_traversal_segment raw_path then ["path_traversal_segment"] else []) ++
     (if bool_decide (stream <> None) then ["alternate_stream"] else []))%list in
  Ok {| te_entry_id := if String.eqb (fe_entry_id entry) ""
                       then stable_entry_id (fe_volume_id entry) (fe_object_id entry) raw_path else fe_entry_id entry;
        te_volume_id := fe_volume_id entry; te_object_id := fe_object_id entry;
        te_parent_object_id := fe_parent_object_id entry; te_parent_entry_id := op_parent_entry_id op;
        te_raw_path_bytes := raw_path; te_display_path := display_path; te_raw_name_bytes := raw_name;
        te_display_name := display_name; te_entry_type := normalized_entry_type (fe_entry_type entry) (fe_allocated entry);
        te_attributes := dedup (op_attributes op); te_owner_id := op_owner_id op; te_size_bytes := op_size_bytes op;
        te_allocated := fe_allocated entry; te_raw_timestamps := op_raw_timestamps op; te_extents := op_extents op;
        te_alternate_stream := stream; te_warnings := dedup warnings |}.

(** scanner/entry_normalization.py:137-159 raw_entry *)
Definition raw_entry (volume_id object_id : string) (path_bytes : bytes) (entry_type : string)
    (parent_object_id : option string) (allocated : bool) : FilesystemEntry text :=
  let display := decode_escape path_bytes in
  {| fe_volume_id := volume_id; fe_object_id := object_id; fe_parent_object_id := parent_object_id;
     fe_entry_id := stable_entry_id volume_id object_id path_bytes; fe_name := after_last SLASH display;
     fe_entry_type := entry_type; fe_allocated := allocated; fe_path := display |}.

(** ** A batch *)

Definition sibling : Type := option string * bytes.

(** The arguments the loop of [normalize_entries] passes for one entry. *)
Definition batch_options (parent_entry_id : option string) (duplicate orphan : bool) : entry_options :=
  {| op_parent_entry_id := parent_entry_id; op_duplicate_name := duplicate; op_orphan_parent := orphan;
     op_raw_timestamps := []; op_extents := []; op_owner_id := None; op_size_bytes := None; op_attributes := [] |}.

Fixpoint normalize_from (objects : list (string * string)) (seen : list sibling) (entries : list (FilesystemEntry text))
    : normalized (list TextEntry) :=
  match entries with
  | [] => Ok []
  | entry :: rest =>
    let parent_entry_id := dict_get objects (default "" (fe_parent_object_id entry)) in
    name ← encode_path (fe_name entry);
    e ← normalize_entry entry
          (batch_options parent_entry_id (bool_decide ((fe_parent_object_id entry, name) ∈ seen))
             (bool_decide (fe_parent_object_id entry <> None) && bool_decide (parent_entry_id = None)));
    others ← normalize_from (dict_set objects (fe_object_id entry) (te_entry_id e))
               ((fe_parent_object_id entry, te_raw_name_bytes e) :: seen) rest;
    Ok (e :: others)
  end.

(** scanner/entry_normalization.py:57-74 normalize_entries *)
Definition normalize_entries (entries : list (FilesystemEntry text)) : normalized (list TextEntry) := normalize_from [] [] entries.

(** ** Segments of a path *)

(** A maximal run without the separator. *)
Definition segment_of (sep : Z) (seg l : list Z) : Prop :=
  exists a c, l = (a ++ seg ++ c)%list /\ sep ∉ seg /\ (a = [] \/ exists a', a = (a' ++ [sep])%list) /\ (c = [] \/ exists c', c = sep :: c').

Lemma app_first_sep (sep : Z) a b c d :
  sep ∉ a -> sep ∉ b -> (a ++ sep :: c = b ++ sep :: d)%list -> a = b /\ c = d.
Proof.
  revert b. induction a as [|x a IH]; intros [|y b] Ha Hb He; cbn in He.
  - by injection He as ->.
  - injection He as -> _. destruct Hb. left.
  - injection He as -> _. destruct Ha. left.
  - injection He as -> He. rewrite not_elem_of_cons in Ha, Hb. by destruct (IH b ltac:(tauto) ltac:(tauto) He) as [-> ->].
Qed.

Lemma split_num_elem sep cur l seg : sep ∉ cur -> seg ∈ split_num sep cur l <-> segment_of sep seg (cur ++ l).
Proof.
  revert cur. induction l as [|x l IH]; intros cur Hc; cbn [split_num].
  - rewrite list_elem_of_singleton, app_nil_r. split.
    + intros ->. exists [], []. rewrite app_nil_r. split_and!; [done|done|by left|by left].
    + intros (a & c & -> & Hs & Ha & Hc'). rewrite !not_elem_of_app in Hc. destruct Hc as (Hc1 & _ & Hc2).
      destruct Ha as [->|[a' ->]]; [|destruct Hc1; rewrite elem_of_app; right; by left].
      destruct Hc' as [->|[c' ->]]; [by rewrite app_nil_r|destruct Hc2; by left].
  - destruct (Z.eqb_spec x sep) as [->|Hx].
    + rewrite elem_of_cons, (IH []) by (apply not_elem_of_nil). change ([] ++ l)%list with l. split.
      * intros [->|(a & c & -> & Hs & Ha & Hc')].
        { exists [], (sep :: l). split_and!; [done|done|by left|right; by exists l]. }
        exists (cur ++ sep :: a)%list, c. split; [by rewrite <- app_assoc|]. split; [done|]. split; [|done]. right.
        destruct Ha as [->|[a' ->]]; [by exists cur|]. exists (cur ++ sep :: a')%list. by rewrite <- app_assoc.
      * intros (a & c & He & Hs & Ha & Hc'). destruct Ha as [->|[a' ->]].
        { left. destruct Hc' as [->|[c' ->]].
          - rewrite app_nil_r in He. cbn in He. destruct Hs. rewrite <- He, elem_of_app. right. by left.
          - cbn in He. by apply app_first_sep in He as [-> _]. }
        right. rewrite <- app_assoc in He. cbn in He.
        destruct (decide (sep ∈ a')) as [Hin|Hnot].
        { apply list_elem_of_split in Hin as (b1 & b2 & ->).
          assert (Hf : exists p q, (b1 ++ sep :: b2 = p ++ sep :: q)%list /\ sep ∉ p).
          { clear. remember (b1 ++ sep :: b2)%list as w eqn:Ew. assert (Hw : sep ∈ w) by (rewrite Ew, elem_of_app; right; by left).
            clear Ew b1 b2. induction w as [|y w IH]; [by apply elem_of_nil in Hw|]. destruct (decide (y = sep)) as [->|Hy].
            - exists [], w. split; [done|apply not_elem_of_nil].
            - apply elem_of_cons in Hw as [->|Hw]; [done|]. destruct (IH Hw) as (p & q & -> & Hp). exists (y :: p), q.
              split; [done|]. rewrite not_elem_of_cons. done. }
          destruct Hf as (p & q & Hpq & Hp). rewrite Hpq, <- app_assoc in He. cbn in He. apply app_first_sep in He as [-> ->]; [|done|done].
          exists (q ++ [sep])%list, c. split; [by rewrite <- app_assoc|]. split; [done|]. split; [right; by exists q|done]. }
        apply app_first_sep in He as [-> ->]; [|done|done]. exists [], c. split_and!; [done|done|by left|done].
    + rewrite IH by (rewrite elem_of_app, list_elem_of_singleton; naive_solver). by rewrite <- app_assoc.
Qed.

(** A component of the path is two dots, the separators being both slashes. *)
Definition climbs (path : bytes) : Prop :=
  segment_of SLASH DOT_DOT ((fun b => if b =? BACKSLASH then SLASH else b) <$> path).

Lemma traversal_spec path : has_traversal_segment path = true <-> climbs path.
Proof.
  unfold has_traversal_segment, climbs. rewrite existsb_elem.
  pose proof (split_num_elem SLASH [] ((fun b => if b =? BACKSLASH then SLASH else b) <$> path) DOT_DOT (not_elem_of_nil _)) as Hx.
  rewrite app_nil_l in Hx. rewrite <- Hx.
  split; [intros (s & Hs & He%bool_decide_eq_true); by subst|]. intros Hs. eexists. split; [exact Hs|by apply bool_decide_eq_true].
Qed.

(** ** Names *)

Lemma split_last_unique sep cur a s : sep ∉ s -> last (split_num sep cur (a ++ sep :: s)) = Some s.
Proof.
  intros Hs. revert cur. induction a as [|x a IH]; intros cur; cbn.
  - rewrite Z.eqb_refl. assert (Hsp : forall c, split_num sep c s = [(c ++ s)%list]).
    { clear cur. induction s as [|y s IH]; intros c; cbn; [by rewrite app_nil_r|]. rewrite not_elem_of_cons in Hs. destruct Hs as [Hy Hs].
      rewrite (proj2 (Z.eqb_neq y sep)) by done. rewrite (IH Hs). by rewrite <- app_assoc. }
    by rewrite Hsp.
  - destruct (x =? sep); [|apply IH]. specialize (IH []). destruct (split_num sep [] (a ++ sep :: s)); [done|exact IH].
Qed.

Lemma after_last_unique sep a s : sep ∉ s -> after_last sep (a ++ sep :: s) = s.
Proof. intros Hs. unfold after_last. by rewrite split_last_unique. Qed.

Lemma after_last_none sep l : sep ∉ l -> after_last sep l = l.
Proof.
  intros Hl. unfold after_last. assert (Hsp : forall c, split_num sep c l = [(c ++ l)%list]).
  { induction l as [|y s IH]; intros c; cbn; [by rewrite app_nil_r|]. rewrite not_elem_of_cons in Hl. destruct Hl as [Hy Hs].
    rewrite (proj2 (Z.eqb_neq y sep)) by done. rewrite (IH Hs). by rewrite <- app_assoc. }
  by rewrite Hsp.
Qed.

Lemma last_split (sep : Z) l : sep ∈ l -> exists a s, l = (a ++ sep :: s)%list /\ sep ∉ s.
Proof.
  induction l as [|x l IH] using rev_ind; intros Hl; [by apply elem_of_nil in Hl|].
  destruct (decide (x = sep)) as [->|Hx]; [exists l, []; split; [done|apply not_elem_of_nil]|].
  apply elem_of_app in Hl as [Hl|Hl%list_elem_of_singleton]; [|done]. destruct (IH Hl) as (a & s & -> & Hs).
  exists a, (s ++ [x])%list. split; [by rewrite <- app_assoc|]. rewrite elem_of_app, list_elem_of_singleton. naive_solver.
Qed.

Lemma encode_point_slash cp bs : encode_point cp = Some bs -> SLASH ∈ bs -> cp = SLASH.
Proof.
  unfold encode_point, SLASH, ESCAPE_BASE. destruct (Z.ltb_spec cp 128); [intros [= <-] ->%list_elem_of_singleton; done|].
  pose proof (Z.div_pos cp 64 ltac:(lia) ltac:(lia)). pose proof (Z.div_pos cp 4096 ltac:(lia) ltac:(lia)).
  pose proof (Z.div_pos cp 262144 ltac:(lia) ltac:(lia)).
  pose proof (Z.mod_pos_bound cp 64 ltac:(lia)). pose proof (Z.mod_pos_bound (cp / 64) 64 ltac:(lia)).
  pose proof (Z.mod_pos_bound (cp / 4096) 64 ltac:(lia)).
  destruct (cp <? 2048); [intros [= <-]; rewrite !elem_of_cons, elem_of_nil; lia|].
  destruct ((55296 <=? cp) && (cp <? 57344)).
  - destruct ((56448 <=? cp) && (cp <? 56576)) eqn:E; [intros [= <-]; rewrite list_elem_of_singleton; lia|done].
  - destruct (cp <? 65536); intros [= <-]; rewrite !elem_of_cons, elem_of_nil; lia.
Qed.

Lemma encode_no_slash t bs : encode_escape t = Some bs -> SLASH ∉ t -> SLASH ∉ bs.
Proof.
  revert bs. induction t as [|cp t IH]; intros bs; cbn; [intros [= <-] _; apply not_elem_of_nil|].
  destruct (encode_point cp) as [b|] eqn:Hb; [|done]. destruct (encode_escape t) as [r|]; [|done]. intros [= <-] Hs.
  rewrite not_elem_of_cons in Hs. destruct Hs as [Hcp Ht]. rewrite elem_of_app. intros [Hi|Hi].
  - by apply (encode_point_slash cp b Hb) in Hi.
  - by apply (IH r).
Qed.

(** The name of decoded bytes encodes to the bytes after the last slash. *)
Lemma name_bytes b : wf_bytes b -> encode_escape (after_last SLASH (decode_escape b)) = Some (after_last SLASH b).
Proof.
  intros Hw. pose proof (escape_roundtrip b Hw) as Hr. set (t := decode_escape b) in *.
  destruct (decide (SLASH ∈ t)) as [Hin|Hnot].
  - apply last_split in Hin as (a & s & He & Hs). rewrite He, after_last_unique by done. rewrite He, encode_app in Hr.
    destruct (encode_escape a) as [ba|]; [|done]. cbn [encode_escape] in Hr. destruct (encode_escape s) as [bs|] eqn:Es; [|done].
    cbn in Hr. injection Hr as <-. change (47 :: bs) with (SLASH :: bs). rewrite after_last_unique; [done|].
    by apply (encode_no_slash s).
  - rewrite (after_last_none SLASH t Hnot), Hr. by rewrite (after_last_none SLASH b) by (by apply (encode_no_slash t)).
Qed.

(** ** One entry made of any bytes *)

Definition options_ok (op : entry_options) : Prop :=
  (forall n, op_size_bytes op = Some n -> 0 <= n) /\ Forall (fun x => 0 <= ext_offset x /\ 0 <= ext_length x) (op_extents op).

Lemma display_text_notes raw t ws n :
  display_text raw = (t, ws) -> n ∈ ws -> n = "invalid_unicode" \/ n = "nul_byte".
Proof.
  unfold display_text. destruct (bool_decide (0 ∈ _)), (bool_decide (REPLACEMENT ∈ _)); intros [= _ <-];
    rewrite ?elem_of_app, ?elem_of_cons, ?elem_of_nil; naive_solver.
Qed.

Lemma normalize_entry_spec entry op e :
  normalize_entry entry op = Ok e ->
  fe_entry_type entry ∈ VALID_ENTRY_TYPES /\ options_ok op /\
  encode_escape (fe_path entry) = Some (te_raw_path_bytes e) /\ encode_escape (fe_name entry) = Some (te_raw_name_bytes e) /\
  te_object_id e = fe_object_id entry /\ te_parent_object_id e = fe_parent_object_id entry /\
  te_parent_entry_id e = op_parent_entry_id op /\ te_allocated e = fe_allocated entry /\
  te_entry_id e = (if String.eqb (fe_entry_id entry) ""
                   then stable_entry_id (fe_volume_id entry) (fe_object_id entry) (te_raw_path_bytes e) else fe_entry_id entry) /\
  ("path_traversal_segment" ∈ te_warnings e <-> climbs (te_raw_path_bytes e)) /\
  ("duplicate_sibling_name" ∈ te_warnings e <-> op_duplicate_name op = true) /\
  ("orphan_parent" ∈ te_warnings e <-> op_orphan_parent op = true).
Proof.
  unfold normalize_entry.
  intros (u1 & Ht%raise_if_ok & (u2 & Hs%raise_if_ok & (u3 & Hx%raise_if_ok & (rp & Hp & (rn & Hn & Hb)%bind_ok)%bind_ok)%bind_ok)%bind_ok)%bind_ok.
  destruct (display_text rp) as [dp w1] eqn:D1, (display_text rn) as [dn w2] eqn:D2. injection Hb as <-. cbn.
  apply negb_false_iff, bool_decide_eq_true in Ht. split; [done|]. split.
  { split; [intros n Hsz; rewrite Hsz in Hs; lia|]. apply Forall_forall. intros x Hxi. rewrite <- not_true_iff_false, existsb_elem in Hx.
    destruct (Z.ltb_spec (ext_offset x) 0), (Z.ltb_spec (ext_length x) 0); try lia;
      (destruct Hx; exists x; split; [done|]; apply orb_true_iff; lia). }
  unfold encode_path in Hp, Hn. destruct (encode_escape (fe_path entry)) as [bp|]; [|done]. destruct (encode_escape (fe_name entry)) as [bn|]; [|done].
  injection Hp as ->. injection Hn as ->. do 7 (split; [done|]).
  pose proof (display_text_notes rp dp w1) as N1. pose proof (display_text_notes rn dn w2) as N2.
  assert (Hin : forall n, n ≠ "invalid_unicode" -> n <> "nul_byte" -> n ∈ w1 \/ n ∈ w2 -> False).
  { intros n H1 H2 [Hi|Hi]; [destruct (N1 n D1 Hi)|destruct (N2 n D2 Hi)]; done. }
  rewrite !elem_of_dedup, !elem_of_app, !elem_of_if, traversal_spec.
  pose proof (Hin "path_traversal_segment" ltac:(done) ltac:(done)). pose proof (Hin "duplicate_sibling_name" ltac:(done) ltac:(done)).
  pose proof (Hin "orphan_parent" ltac:(done) ltac:(done)). split; [|split]; naive_solver.
Qed.

(** C32. Any bytes are a path that can be normalised: the entry keeps them, keeps as its name the
    bytes after the last slash, is identified by them, and is marked for traversal exactly when a
    component between slashes or backslashes is two dots. *)
Theorem hostile_bytes_kept volume_id object_id path_bytes entry_type parent allocated op :
  wf_bytes path_bytes -> entry_type ∈ VALID_ENTRY_TYPES -> options_ok op ->
  exists e, normalize_entry (raw_entry volume_id object_id path_bytes entry_type parent allocated) op = Ok e /\
    te_raw_path_bytes e = path_bytes /\ te_raw_name_bytes e = after_last SLASH path_bytes /\
    te_entry_id e = stable_entry_id volume_id object_id path_bytes /\
    ("path_traversal_segment" ∈ te_warnings e <-> climbs path_bytes).
Proof.
  intros Hw Ht [Hsize Hext]. set (entry := raw_entry volume_id object_id path_bytes entry_type parent allocated).
  assert (Hok : exists e, normalize_entry entry op = Ok e).
  { unfold normalize_entry. cbn [entry raw_entry fe_entry_type fe_path fe_name]. rewrite (bool_decide_eq_true_2 _ Ht). cbn [negb raise_if mbind result_bind].
    assert (H1 : match op_size_bytes op with Some n => n <? 0 | None => false end = false).
    { destruct (op_size_bytes op) as [n|]; [|done]. specialize (Hsize n eq_refl). lia. }
    assert (H2 : existsb (fun x => (ext_offset x <? 0) || (ext_length x <? 0)) (op_extents op) = false).
    { apply not_true_iff_false. rewrite existsb_elem. intros (x & Hx & Hb). rewrite Forall_forall in Hext. specialize (Hext x Hx). lia. }
    rewrite H1, H2. cbn [raise_if mbind result_bind]. unfold encode_path. rewrite escape_roundtrip, name_bytes by done. cbn [mbind result_bind].
    destruct (display_text path_bytes), (display_text (after_last SLASH path_bytes)). by eexists. }
  destruct Hok as [e He]. exists e. split; [done|].
  apply normalize_entry_spec in He as (_ & _ & Hp & Hn & _ & _ & _ & _ & Hid & Htr & _).
  cbn [entry raw_entry fe_path fe_name] in Hp, Hn. rewrite escape_roundtrip in Hp by done. rewrite name_bytes in Hn by done.
  injection Hp as Hp. injection Hn as Hn. rewrite <- Hp in *. split; [done|]. split; [done|]. split; [exact Hid|exact Htr].
Qed.

(** ** A batch *)

Definition object_is (k : string) (p : TextEntry) : bool := String.eqb (te_object_id p) k.

(** The entry [e] after the entries [before]: its parent is the last of them with the parent's
    object, and its warnings say whether its name or its parent was seen. *)
Definition linked_after (before : list TextEntry) (e : TextEntry) : Prop :=
  te_parent_entry_id e = te_entry_id <$> last (filter_b (object_is (default "" (te_parent_object_id e))) before) /\
  ("duplicate_sibling_name" ∈ te_warnings e <->
     exists p, p ∈ before /\ te_parent_object_id p = te_parent_object_id e /\ te_raw_name_bytes p = te_raw_name_bytes e) /\
  ("orphan_parent" ∈ te_warnings e <->
     exists k, te_parent_object_id e = Some k /\ forall p, p ∈ before -> te_object_id p <> k).

Lemma last_filter_none {A} (p : A -> bool) l : last (filter_b p l) = None <-> forall x, x ∈ l -> p x = false.
Proof.
  rewrite last_None. split.
  - intros Hf x Hx. apply not_true_iff_false. intros Hp. assert (Hi : x ∈ filter_b p l) by by apply elem_of_filter_b.
    rewrite Hf in Hi. by apply elem_of_nil in Hi.
  - apply filter_b_none.
Qed.

Lemma normalize_from_spec objects seen entries es before :
  (forall k, dict_get objects k = te_entry_id <$> last (filter_b (object_is k) before)) ->
  (forall par name, (par, name) ∈ seen <-> exists p, p ∈ before /\ te_parent_object_id p = par /\ te_raw_name_bytes p = name) ->
  normalize_from objects seen entries = Ok es ->
  length es = length entries /\ forall i e, es !! i = Some e -> linked_after (before ++ take i es) e /\
    exists x, entries !! i = Some x /\ te_object_id e = fe_object_id x /\ encode_escape (fe_path x) = Some (te_raw_path_bytes e).
Proof.
  revert objects seen es before. induction entries as [|x entries IH]; intros objects seen es before Hobj Hseen; cbn [normalize_from].
  { intros [= <-]. split; [done|]. by intros [|i] e ?. }
  intros (name & Hname & (e & He & (others & Ho & [= <-])%bind_ok)%bind_ok)%bind_ok.
  pose proof (normalize_entry_spec _ _ _ He) as (_ & _ & Hpath & Hn & Hoid & Hpar & Hpe & _ & _ & _ & Hdup & Horph). cbn in Hpe, Hdup, Horph.
  unfold encode_path in Hname. rewrite Hn in Hname. injection Hname as <-.
  assert (Hhead : linked_after before e).
  { split; [|split].
    - by rewrite Hpe, Hobj, Hpar.
    - rewrite Hdup, bool_decide_eq_true, Hseen, Hpar. done.
    - rewrite Horph, andb_true_iff, !bool_decide_eq_true, Hobj, fmap_None, last_filter_none, Hpar.
      destruct (fe_parent_object_id x) as [k|]; cbn; [|naive_solver]. split.
      + intros [_ Hf]. exists k. split; [done|]. intros p Hp Hk. specialize (Hf p Hp). unfold object_is in Hf. apply String.eqb_neq in Hf. done.
      + intros (k' & [= <-] & Hf). split; [done|]. intros p Hp. apply String.eqb_neq. by apply Hf. }
  apply (IH _ _ _ (before ++ [e])%list) in Ho as [Hlen Hrest].
  - split; [cbn; by rewrite Hlen|]. intros [|i] f Hf; cbn in Hf.
    + injection Hf as <-. split; [by rewrite app_nil_r|]. by exists x.
    + destruct (Hrest i f Hf) as [Hl Hx]. split; [|exact Hx]. by rewrite <- app_assoc in Hl.
  - intros k. rewrite dict_get_set, filter_b_app. cbn [filter_b List.filter]. unfold object_is at 2. rewrite Hoid, String.eqb_sym.
    destruct (String.eqb (fe_object_id x) k); [by rewrite last_snoc|by rewrite app_nil_r, Hobj].
  - intros par nm. rewrite elem_of_cons, Hseen. setoid_rewrite elem_of_app. setoid_rewrite list_elem_of_singleton. rewrite <- Hpar. naive_solver.
Qed.

(** In a batch the links and warnings of every entry are given by the entries before it: its
    parent is the last earlier entry of the parent's object, a duplicate name is reported exactly
    when an earlier sibling has the same bytes, an orphan exactly when no earlier entry is its
    parent; the entries stay in order and keep the bytes of their paths. *)
Theorem batch_linked entries es :
  normalize_entries entries = Ok es ->
  length es = length entries /\
  forall i e, es !! i = Some e -> linked_after (take i es) e /\
    exists x, entries !! i = Some x /\ te_object_id e = fe_object_id x /\ encode_escape (fe_path x) = Some (te_raw_path_bytes e).
Proof.
  intros Hn. apply (normalize_from_spec [] [] entries es []); [done| |exact Hn].
  intros par name. split; [by intros ?%elem_of_nil|]. by intros (p & ?%elem_of_nil & _).
Qed.
End normalization.

(** ** Examples *)

Definition plain_normalizer : Normalizer := {| nfc := fun t => t; nfc_latin := fun t _ => eq_refl |}.

(** A path with a climbing component, a byte that is no UTF-8, and a stream: ../x<ff>:s *)
Definition demo_bytes : bytes := [46; 46; 92; 97; 47; 120; 255; 58; 115].
Definition demo_entry (name : bytes) (parent : option string) (object : string) : FilesystemEntry text :=
  raw_entry "vol" object name "file" parent true.
Definition no_options : entry_options := batch_options None false false.

Example demo_hostile :
  match @normalize_entry plain_normalizer (demo_entry demo_bytes None "7") no_options with
  | Ok e => (te_raw_name_bytes e, te_display_name e, te_alternate_stream e, te_warnings e)
  | Err _ => ([], [], None, [])
  end = ([120; 255; 58; 115], [120; 65533; 58; 115], Some [115],
         ["invalid_unicode"; "path_traversal_segment"; "alternate_stream"]).
Proof. vm_compute. reflexivity. Qed.

(** The bytes of a surrogate are ill-formed one by one, the truncated form of the euro sign at once. *)
Example demo_replacements : (decode_replace [237; 160; 128], decode_replace [226; 130; 65]) = ([65533; 65533; 65533], [65533; 65]).
Proof. vm_compute. reflexivity. Qed.

Definition demo_batch : list (FilesystemEntry text) :=
  [demo_entry [97] None "1"; demo_entry [97; 47; 98] (Some "1") "2"; demo_entry [97; 47; 98] (Some "1") "3"; demo_entry [99] (Some "9") "4"].

(** A child listed before its parent counts as an orphan. *)
Example child_before_parent_is_an_orphan :
  match @normalize_entries plain_normalizer [demo_entry [97; 47; 98] (Some "1") "2"; demo_entry [97] None "1"] with
  | Ok es => te_warnings <$> es | Err _ => [] end = [["orphan_parent"]; []].
Proof. vm_compute. reflexivity. Qed.

Lemma hostile_bytes_kept_witness :
  exists e, @normalize_entry plain_normalizer (raw_entry "vol" "7" demo_bytes "file" None true) no_options = Ok e /\
    te_raw_path_bytes e = demo_bytes /\ te_raw_name_bytes e = after_last SLASH demo_bytes.
Proof.
  assert (Hw : wf_bytes demo_bytes) by (repeat constructor; lia).
  assert (Ht : "file" ∈ VALID_ENTRY_TYPES) by (left; reflexivity).
  assert (Ho : options_ok no_options) by (split; [intros n; discriminate|constructor]).
  destruct (@hostile_bytes_kept plain_normalizer "vol" "7" demo_bytes "file" None true no_options Hw Ht Ho) as (e & He & Hp & Hn & _).
  exists e. split; [exact He|]. split; [exact Hp|exact Hn].
Defined.

Lemma batch_linked_witness :
  exists es, @normalize_entries plain_normalizer demo_batch = Ok es /\ length es = 4%nat /\
    te_warnings <$> es = [[]; []; ["duplicate_sibling_name"]; ["orphan_parent"]].
Proof.
  destruct (@normalize_entries plain_normalizer demo_batch) as [es|e] eqn:Hn; [|vm_compute in Hn; discriminate].
  exists es. split; [done|]. split; [exact (proj1 (@batch_linked plain_normalizer demo_batch es Hn))|].
  assert (Hw : match @normalize_entries plain_normalizer demo_batch with Ok es => te_warnings <$> es | Err _ => [] end
               = [[]; []; ["duplicate_sibling_name"]; ["orphan_parent"]]) by (vm_compute; reflexivity).
  by rewrite Hn in Hw.
Defined.
