(* ===== verification/NtfsEntries.v ===== *)
(** * NTFS facts of entries (src/scanner/ntfs_entries.py)

    The enrichment of a normalised entry with NTFS metadata, malformed attributes included, and
    the resolution of alternate data streams over a batch.  Names are compared with [lower] where
    the code folds case: on texts below U+0100 the two agree for the names it compares with. *)

From Stdlib Require Import ZArith Lia String Ascii.
From stdpp Require Import base list strings gmap sorting.
From S2P Require Import Prelude PyStr Json Identifiers Messages Fat12 FatEntries PartitionDiscovery FilesystemEnumeration.

Local Open Scope string_scope.
Local Open Scope Z_scope.

Abbreviation mapping := (list (string * value)).

(** scanner/ntfs_entries.py:12-19 NTFS_FLAGS *)
Definition NTFS_FLAGS : list (string * string) :=
  [("resident", "ntfs_resident"); ("compressed", "ntfs_compressed"); ("sparse", "ntfs_sparse");
   ("reparse_point", "ntfs_reparse_point"); ("hidden", "hidden"); ("system", "system")].
(** scanner/ntfs_entries.py:20-38 MFT_METADATA_NAMES *)
Definition MFT_METADATA_NAMES : list string :=
  ["$AttrDef"; "$BadClus"; "$Bitmap"; "$Boot"; "$Extend"; "$LogFile"; "$MFT"; "$MFTMirr"; "$ObjId"; "$Quota"; "$Reparse";
   "$Secure"; "$UpCase"; "$UsnJrnl"; "$Volume"].

(** scanner/ntfs_entries.py:43-61 NtfsEntryDetails *)
Record NtfsEntryDetails := {
  nd_mft_reference : option string; nd_attribute_id : option string; nd_alternate_stream : option string;
  nd_resident : bool; nd_compressed : bool; nd_sparse : bool; nd_reparse_tag : option string; nd_hard_links : list string;
  nd_dos_name : option string; nd_recycle_bin_original_path : option string; nd_recycle_bin_deletion_time : option string;
  nd_metadata_file : bool; nd_hidden : bool; nd_system : bool; nd_reparse_point : bool;
  nd_ads_parent_entry_id : option string; nd_malformed_attributes : list string }.

(** ** Facts, with the names of the malformed ones *)

(** A value and what it adds to the list of malformed attributes. *)
Definition noted (A : Type) : Type := A * list string.

(** scanner/ntfs_entries.py:268-272 _string *)
Definition clean_text (s : string) : option string :=
  let cleaned := join " " (split_ws (replace_char "000"%char "" s)) in
  if String.eqb cleaned "" then None else Some (str_take 256 cleaned).

(** scanner/ntfs_entries.py:258-265 _optional_string *)
Definition optional_text (facts : mapping) (key : string) : noted (option string) :=
  match get_or_none facts key with
  | VNone => (None, [])
  | VStr s => (clean_text s, [])
  | _ => (None, [key])
  end.

(** scanner/ntfs_entries.py:230-237 _optional_bool *)
Definition optional_bool (facts : mapping) (key : string) : noted bool :=
  match get_or_none facts key with
  | VNone => (false, [])
  | VBool b => (b, [])
  | _ => (false, [key])
  end.

(** scanner/ntfs_entries.py:240-255 _optional_strings *)
Definition optional_texts (facts : mapping) (key : string) : noted (list string) :=
  match get_or_none facts key with
  | VNone => ([], [])
  | VList items =>
    (dedup (omap (fun item => match item with VStr s => clean_text s | _ => None end) items),
     omap (fun item => match item with VStr _ => None | _ => Some key end) items)
  | _ => ([], [key])
  end.

(** scanner/ntfs_entries.py:199-205 _object_identifiers: the pattern of line 39. *)
Definition object_identifiers (object_id : string) : option string * option string :=
  let digits l := negb (bool_decide (l = [])) && forallb is_digit l in
  match split_at_char "-" (chars object_id) with
  | None => if digits (chars object_id) then (Some object_id, None) else (None, None)
  | Some (mft, attribute) =>
    if digits mft && object_id_ok attribute then (Some (of_chars mft), Some (of_chars attribute)) else (None, None)
  end.

Definition slashed (path : string) : list string := split_on "/" (replace_char backslash "/" path).

(** scanner/ntfs_entries.py:224-227 _is_metadata_file *)
Definition is_metadata_file (display_path : string) : bool :=
  let name := default "" (last (slashed display_path)) in
  let base_name := match split_at_char ":" (chars name) with Some (a, _) => of_chars a | None => name end in
  bool_decide (lower base_name ∈ lower <$> MFT_METADATA_NAMES).

(** The path alone marks a record of the recycle bin. *)
Definition recycle_record_path (display_path : string) : bool :=
  let parts := filter_b (fun part => negb (String.eqb part "")) (slashed display_path) in
  existsb (fun part => String.eqb (lower part) "$recycle.bin") parts
  && existsb (fun part => (starts_with "$r" (lower part) || starts_with "$i" (lower part)) && (2 <? str_len part)) parts.

(** scanner/ntfs_entries.py:208-221 _recycle_original_path *)
Definition recycle_original_path (display_path : string) (facts : mapping) : noted (option string) :=
  let '(explicit, malformed) := optional_text facts "recycle_bin_original_path" in
  match explicit with
  | Some p => (Some p, malformed)
  | None => (if recycle_record_path display_path then Some "unknown_original_path" else None, malformed)
  end.

(** ** One entry *)

Definition or_else (a b : option string) : option string := match a with Some _ => a | None => b end.
Definition flag_of (d : NtfsEntryDetails) (key : string) : bool :=
  if String.eqb key "resident" then nd_resident d else if String.eqb key "compressed" then nd_compressed d
  else if String.eqb key "sparse" then nd_sparse d else if String.eqb key "reparse_point" then nd_reparse_point d
  else if String.eqb key "hidden" then nd_hidden d else if String.eqb key "system" then nd_system d else false.

(** The structured facts of [enrich_ntfs_entry], with the malformed names in order and repeated. *)
Definition ntfs_details (entry : NormalizedEntry) (facts : mapping) : NtfsEntryDetails * list string :=
  let '(parsed_mft, parsed_attribute) := object_identifiers (ne_object_id entry) in
  let m0 := ((if bool_decide (parsed_mft = None) then ["object_id"] else []) ++
             (if char_in ":" (ne_display_name entry) && bool_decide (ne_alternate_stream entry = None)
              then ["alternate_stream"] else []))%list in
  let '(mft, m1) := optional_text facts "mft_reference" in
  let '(attribute, m2) := optional_text facts "attribute_id" in
  let '(resident, m3) := optional_bool facts "resident" in
  let '(compressed, m4) := optional_bool facts "compressed" in
  let '(sparse, m5) := optional_bool facts "sparse" in
  let '(tag, m6) := optional_text facts "reparse_tag" in
  let '(reparse, m7) := optional_bool facts "reparse_point" in
  let '(hidden, m8) := optional_bool facts "hidden" in
  let '(system, m9) := optional_bool facts "system" in
  let '(links, m10) := optional_texts facts "hard_links" in
  let '(dos, m11) := optional_text facts "dos_name" in
  let '(original, m12) := recycle_original_path (ne_display_path entry) facts in
  let '(deletion, m13) := optional_text facts "recycle_bin_deletion_time" in
  let '(metadata, m14) := if is_metadata_file (ne_display_path entry) then (true, []) else optional_bool facts "metadata_file" in
  let has a := bool_decide (a ∈ ne_attributes entry) in
  let malformed := (m0 ++ m1 ++ m2 ++ m3 ++ m4 ++ m5 ++ m6 ++ m7 ++ m8 ++ m9 ++ m10 ++ m11 ++ m12 ++ m13 ++ m14)%list in
  ({| nd_mft_reference := or_else mft parsed_mft; nd_attribute_id := or_else attribute parsed_attribute;
      nd_alternate_stream := ne_alternate_stream entry; nd_resident := resident; nd_compressed := compressed;
      nd_sparse := sparse || existsb ext_sparse (ne_extents entry); nd_reparse_tag := tag; nd_hard_links := links;
      nd_dos_name := dos; nd_recycle_bin_original_path := original; nd_recycle_bin_deletion_time := deletion;
      nd_metadata_file := metadata; nd_hidden := hidden || has "hidden"; nd_system := system || has "system";
      nd_reparse_point := reparse || has "ntfs_reparse_point" || bool_decide (tag <> None);
      nd_ads_parent_entry_id := None; nd_malformed_attributes := dedup malformed |}, malformed).

Definition with_notes (entry : NormalizedEntry) (attributes warnings : list string) : NormalizedEntry :=
  {| ne_entry_id := ne_entry_id entry; ne_volume_id := ne_volume_id entry; ne_object_id := ne_object_id entry;
     ne_parent_object_id := ne_parent_object_id entry; ne_parent_entry_id := ne_parent_entry_id entry;
     ne_raw_path_bytes := ne_raw_path_bytes entry; ne_display_path := ne_display_path entry;
     ne_raw_name_bytes := ne_raw_name_bytes entry; ne_display_name := ne_display_name entry;
     ne_entry_type := ne_entry_type entry; ne_attributes := attributes; ne_owner_id := ne_owner_id entry;
     ne_size_bytes := ne_size_bytes entry; ne_allocated := ne_allocated entry; ne_raw_timestamps := ne_raw_timestamps entry;
     ne_extents := ne_extents entry; ne_alternate_stream := ne_alternate_stream entry; ne_warnings := warnings |}.

(** scanner/ntfs_entries.py:64-160 enrich_ntfs_entry *)
Definition enrich_ntfs_entry (entry : NormalizedEntry) (metadata : option mapping) : NormalizedEntry * NtfsEntryDetails :=
  let facts := default [] metadata in
  let '(details, malformed) := ntfs_details entry facts in
  let attributes :=
    (ne_attributes entry ++ omap (fun f => if flag_of details f.1 then Some f.2 else None) NTFS_FLAGS ++
     (if bool_decide (nd_alternate_stream details <> None) then ["ntfs_alternate_data_stream"] else []) ++
     (if bool_decide (nd_hard_links details <> []) then ["ntfs_hard_link"] else []) ++
     (if nd_metadata_file details then ["ntfs_metadata_file"] else []) ++
     (if bool_decide (nd_dos_name details <> None) then ["ntfs_dos_name"] else []) ++
     (if bool_decide (nd_recycle_bin_original_path details <> None) then ["ntfs_recycle_bin_record"] else []))%list in
  let warnings :=
    (ne_warnings entry ++
     (if bool_decide ((object_identifiers (ne_object_id entry)).1 = None) then ["ntfs_malformed_object_id"] else []) ++
     (if bool_decide (nd_hard_links details <> []) then ["host_link_not_followed"] else []) ++
     (if nd_reparse_point details then ["reparse_point_not_followed"] else []) ++
     ((fun name => "ntfs_malformed_attribute:" +:+ name) <$> malformed))%list in
  (with_notes entry (dedup attributes) (dedup warnings), details).

(** ** A batch *)

Definition with_parent (d : NtfsEntryDetails) (parent : string) : NtfsEntryDetails :=
  {| nd_mft_reference := nd_mft_reference d; nd_attribute_id := nd_attribute_id d;
     nd_alternate_stream := nd_alternate_stream d; nd_resident := nd_resident d; nd_compressed := nd_compressed d;
     nd_sparse := nd_sparse d; nd_reparse_tag := nd_reparse_tag d; nd_hard_links := nd_hard_links d;
     nd_dos_name := nd_dos_name d; nd_recycle_bin_original_path := nd_recycle_bin_original_path d;
     nd_recycle_bin_deletion_time := nd_recycle_bin_deletion_time d; nd_metadata_file := nd_metadata_file d;
     nd_hidden := nd_hidden d; nd_system := nd_system d; nd_reparse_point := nd_reparse_point d;
     nd_ads_parent_entry_id := Some parent; nd_malformed_attributes := nd_malformed_attributes d |}.

(** The first loop of the resolution: the first primary entry of each record. *)
Definition primary_by_mft (pairs : list (NormalizedEntry * NtfsEntryDetails)) : list (string * string) :=
  foldl (fun primary '(entry, details) =>
    match nd_alternate_stream details, nd_mft_reference details with
    | None, Some mft => dict_setdefault primary mft (ne_entry_id entry)
    | _, _ => primary
    end) [] pairs.

(** The second loop, for one entry. *)
Definition resolve_stream (primary : list (string * string)) (p : NormalizedEntry * NtfsEntryDetails)
    : NormalizedEntry * NtfsEntryDetails :=
  let '(entry, details) := p in
  match nd_alternate_stream details with
  | None => (entry, details)
  | Some _ =>
    match dict_get primary (default "" (nd_mft_reference details)) with
    | Some parent =>
      if String.eqb parent (ne_entry_id entry)
      then (with_notes entry (ne_attributes entry) (dedup (ne_warnings entry ++ ["ntfs_ads_parent_missing"])%list), details)
      else (entry, with_parent details parent)
    | None => (with_notes entry (ne_attributes entry) (dedup (ne_warnings entry ++ ["ntfs_ads_parent_missing"])%list), details)
    end
  end.

(** scanner/ntfs_entries.py:163-196 enrich_ntfs_entries *)
Definition enrich_ntfs_entries (entries : list NormalizedEntry) (metadata_by_object_id : mapping)
    : list NormalizedEntry * list NtfsEntryDetails :=
  let facts_of (e : NormalizedEntry) := match dict_get metadata_by_object_id (ne_object_id e) with Some (VDict d) => Some d | _ => None end in
  let pairs := (fun e => enrich_ntfs_entry e (facts_of e)) <$> entries in
  let resolved := resolve_stream (primary_by_mft pairs) <$> pairs in
  (fst <$> resolved, snd <$> resolved).

(** ** Streams and their primary entries *)

(** What the enrichment leaves as it was, and what it only adds to. *)
Record same_entry (x e : NormalizedEntry) : Prop := {
  se_identity : (ne_entry_id e, ne_volume_id e, ne_object_id e, ne_parent_object_id e, ne_parent_entry_id e)
              = (ne_entry_id x, ne_volume_id x, ne_object_id x, ne_parent_object_id x, ne_parent_entry_id x);
  se_bytes : (ne_raw_path_bytes e, ne_raw_name_bytes e) = (ne_raw_path_bytes x, ne_raw_name_bytes x);
  se_content : (ne_entry_type e, ne_size_bytes e, ne_allocated e, ne_extents e, ne_alternate_stream e, ne_raw_timestamps e)
             = (ne_entry_type x, ne_size_bytes x, ne_allocated x, ne_extents x, ne_alternate_stream x, ne_raw_timestamps x);
  se_attributes : forall a, a ∈ ne_attributes x -> a ∈ ne_attributes e;
  se_warnings : forall w, w ∈ ne_warnings x -> w ∈ ne_warnings e }.

Lemma same_entry_trans x y z : same_entry x y -> same_entry y z -> same_entry x z.
Proof. intros [] []. constructor; [congruence..|auto|auto]. Qed.

Lemma enrich_same entry metadata : same_entry entry (enrich_ntfs_entry entry metadata).1.
Proof.
  unfold enrich_ntfs_entry. destruct (ntfs_details entry (default [] metadata)) as [d m]. constructor; try done.
  - intros a Ha. cbn. rewrite elem_of_dedup, elem_of_app. by left.
  - intros w Hw. cbn. rewrite elem_of_dedup, elem_of_app. by left.
Qed.

Lemma resolve_same primary p : same_entry p.1 (resolve_stream primary p).1 /\
  nd_alternate_stream (resolve_stream primary p).2 = nd_alternate_stream p.2 /\
  nd_mft_reference (resolve_stream primary p).2 = nd_mft_reference p.2 /\
  nd_malformed_attributes (resolve_stream primary p).2 = nd_malformed_attributes p.2.
Proof.
  destruct p as [e d]. unfold resolve_stream. assert (Hid : same_entry e e) by by constructor.
  assert (Hadd : same_entry e (with_notes e (ne_attributes e) (dedup (ne_warnings e ++ ["ntfs_ads_parent_missing"])%list))).
  { constructor; try done. intros w Hw. cbn. rewrite elem_of_dedup, elem_of_app. by left. }
  destruct (nd_alternate_stream d); [|done]. destruct (dict_get primary _) as [q|]; [|done].
  by destruct (String.eqb q (ne_entry_id e)).
Qed.

(** The entry is the primary one of a record. *)
Definition is_primary (mft : string) (p : NormalizedEntry * NtfsEntryDetails) : bool :=
  bool_decide (nd_alternate_stream p.2 = None) && bool_decide (nd_mft_reference p.2 = Some mft).

(** The identifier of the first primary entry of a record in the batch. *)
Definition first_primary (pairs : list (NormalizedEntry * NtfsEntryDetails)) (mft : string) : option string :=
  (fun p => ne_entry_id p.1) <$> head (filter_b (is_primary mft) pairs).

Lemma dict_get_setdefault {A} (d : list (string * A)) k k' v :
  dict_get (dict_setdefault d k v) k' = match dict_get d k' with Some w => Some w | None => if String.eqb k' k then Some v else None end.
Proof.
  unfold dict_setdefault. destruct (dict_get d k) as [w|] eqn:E.
  - destruct (String.eqb_spec k' k) as [->|]; [by rewrite E|by destruct (dict_get d k')].
  - rewrite dict_get_set. destruct (String.eqb_spec k' k) as [->|]; [by rewrite E|by destruct (dict_get d k')].
Qed.

Lemma primary_spec pairs mft : dict_get (primary_by_mft pairs) mft = first_primary pairs mft.
Proof.
  unfold primary_by_mft, first_primary. enough (Hgen : forall acc,
    dict_get (foldl (fun primary '(entry, details) =>
      match nd_alternate_stream details, nd_mft_reference details with
      | None, Some m => dict_setdefault primary m (ne_entry_id entry) | _, _ => primary end) acc pairs) mft
    = match dict_get acc mft with Some w => Some w
      | None => (fun p => ne_entry_id p.1) <$> head (filter_b (is_primary mft) pairs) end) by apply (Hgen []).
  induction pairs as [|[e d] pairs IH]; intros acc; cbn [foldl]; [by destruct (dict_get acc mft)|].
  rewrite IH. cbn [filter_b List.filter]. fold (filter_b (is_primary mft)). unfold is_primary at 2. cbn [snd].
  destruct (nd_alternate_stream d) as [s|]; [done|]. destruct (nd_mft_reference d) as [m|]; [|done].
  rewrite dict_get_setdefault. destruct (dict_get acc mft); [done|]. cbn.
  destruct (String.eqb_spec mft m) as [->|Hne]; [by rewrite bool_decide_eq_true_2|].
  by rewrite bool_decide_eq_false_2 by congruence.
Qed.

Lemma enrich_stream entry metadata :
  nd_alternate_stream (enrich_ntfs_entry entry metadata).2 = ne_alternate_stream entry /\
  nd_ads_parent_entry_id (enrich_ntfs_entry entry metadata).2 = None.
Proof.
  assert (Hd : forall facts, nd_alternate_stream (ntfs_details entry facts).1 = ne_alternate_stream entry /\
    nd_ads_parent_entry_id (ntfs_details entry facts).1 = None).
  { intros facts. unfold ntfs_details. repeat match goal with |- context [let '(_, _) := ?p in _] => destruct p end. done. }
  specialize (Hd (default [] metadata)). unfold enrich_ntfs_entry. by destruct (ntfs_details entry (default [] metadata)).
Qed.

Lemma first_primary_resolved pairs primary mft :
  first_primary (resolve_stream primary <$> pairs) mft = first_primary pairs mft.
Proof.
  unfold first_primary. induction pairs as [|p pairs IH]; [done|]. rewrite fmap_cons. cbn [filter_b List.filter].
  fold (filter_b (is_primary mft)). destruct (resolve_same primary p) as (Hs & Hst & Hm & _).
  assert (He : is_primary mft (resolve_stream primary p) = is_primary mft p) by (unfold is_primary; by rewrite Hst, Hm).
  rewrite He. destruct (is_primary mft p); [|exact IH]. cbn. destruct Hs as [Hid _ _ _ _]. by injection Hid as ->.
Qed.

Lemma zip_fst_snd {A B} (l : list (A * B)) : zip (fst <$> l) (snd <$> l) = l.
Proof. induction l as [|[a b] l IH]; [done|]. cbn. by rewrite IH. Qed.

(** The batch keeps every entry: identity, bytes and content are those of the input and notes
    are only added.  An alternate data stream is linked to the first primary entry of its record in
    the batch, wherever it stands, and when there is none other than itself it has no parent and is
    marked; entries that are no stream have none. *)
Theorem streams_resolved entries metadata es ds :
  enrich_ntfs_entries entries metadata = (es, ds) ->
  length es = length entries /\ length ds = length entries /\
  forall i x, entries !! i = Some x -> exists e d, es !! i = Some e /\ ds !! i = Some d /\ same_entry x e /\
    nd_alternate_stream d = ne_alternate_stream x /\
    let parent := first_primary (zip es ds) (default "" (nd_mft_reference d)) in
    if bool_decide (ne_alternate_stream x = None) then nd_ads_parent_entry_id d = None
    else if bool_decide (parent = None \/ parent = Some (ne_entry_id x))
         then nd_ads_parent_entry_id d = None /\ "ntfs_ads_parent_missing" ∈ ne_warnings e
         else nd_ads_parent_entry_id d = parent.
Proof.
  unfold enrich_ntfs_entries. set (enriched := (fun e => enrich_ntfs_entry e _) <$> entries).
  set (primary := primary_by_mft enriched). set (resolved := resolve_stream primary <$> enriched). intros [= <- <-].
  assert (Hlen : length resolved = length entries) by (unfold resolved, enriched; by rewrite !length_fmap).
  rewrite !length_fmap, zip_fst_snd, Hlen. split; [done|]. split; [done|].
  intros i x Hx.
  set (meta := match dict_get metadata (ne_object_id x) with Some (VDict d) => Some d | _ => None end).
  assert (Hi : enriched !! i = Some (enrich_ntfs_entry x meta)) by (unfold enriched; by rewrite list_lookup_fmap, Hx).
  set (p := enrich_ntfs_entry x meta) in *.
  assert (Hr : resolved !! i = Some (resolve_stream primary p)) by (unfold resolved; by rewrite list_lookup_fmap, Hi).
  exists (resolve_stream primary p).1, (resolve_stream primary p).2. rewrite !list_lookup_fmap, Hr. split; [done|]. split; [done|].
  destruct (resolve_same primary p) as (Hs & Hst & Hm & _). destruct (enrich_stream x meta) as [E1 E2]. fold p in E1, E2.
  pose proof (same_entry_trans _ _ _ (enrich_same x meta) Hs) as Hsame. split; [done|]. split; [by rewrite Hst|].
  rewrite Hm. unfold resolved. rewrite first_primary_resolved, <- primary_spec. fold primary.
  pose proof (enrich_same x meta) as [Hid _ _ _ _]. fold p in Hid. injection Hid as Hid _ _ _ _.
  clearbody p. destruct p as [e d]. cbn [fst snd] in *. unfold resolve_stream. rewrite E1. destruct (ne_alternate_stream x) as [st|]; [|done]. cbn.
  destruct (dict_get primary (default "" (nd_mft_reference d))) as [q|] eqn:Eq.
  - destruct (String.eqb_spec q (ne_entry_id e)) as [->|Hne].
    + rewrite bool_decide_eq_true_2 by (right; by rewrite Hid). cbn. split; [done|]. rewrite elem_of_dedup, elem_of_app. right. by left.
    + rewrite bool_decide_eq_false_2; [done|]. intros [?|[= ?]]; [done|congruence].
  - rewrite bool_decide_eq_true_2 by by left. cbn. split; [done|]. rewrite elem_of_dedup, elem_of_app. right. by left.
Qed.

(** ** Examples *)

Definition ntfs_entry (identifier object path name : string) (stream : option string) : NormalizedEntry :=
  {| ne_entry_id := identifier; ne_volume_id := "vol"; ne_object_id := object; ne_parent_object_id := None;
     ne_parent_entry_id := None; ne_raw_path_bytes := utf8 path; ne_display_path := path; ne_raw_name_bytes := utf8 name;
     ne_display_name := name; ne_entry_type := "file"; ne_attributes := []; ne_owner_id := None; ne_size_bytes := Some 1;
     ne_allocated := true; ne_raw_timestamps := []; ne_extents := []; ne_alternate_stream := stream; ne_warnings := [] |}.

Definition demo_ntfs : list NormalizedEntry :=
  [ntfs_entry "e1" "40-128-4" "a.txt:s" "a.txt:s" (Some "s"); ntfs_entry "e2" "40-128-1" "a.txt" "a.txt" None;
   ntfs_entry "e3" "41" "b:s" "b:s" (Some "s")].
Definition demo_metadata : mapping := [("40-128-1", VDict [("resident", VBool true); ("hidden", VInt 1)])].

Example demo_streams :
  ((fun d => (nd_mft_reference d, nd_ads_parent_entry_id d, nd_malformed_attributes d)) <$> (enrich_ntfs_entries demo_ntfs demo_metadata).2,
   ne_warnings <$> (enrich_ntfs_entries demo_ntfs demo_metadata).1)
  = ([(Some "40", Some "e2", []); (Some "40", None, ["hidden"]); (Some "41", None, [])],
     [[]; ["ntfs_malformed_attribute:hidden"]; ["ntfs_ads_parent_missing"]]).
Proof. vm_compute. reflexivity. Qed.

(** The directory $Recycle.Bin itself begins with $r, so every file below it is a deletion record. *)
Example any_file_of_the_bin_is_a_record :
  nd_recycle_bin_original_path (enrich_ntfs_entry (ntfs_entry "e" "50" "$Recycle.Bin/desktop.ini" "desktop.ini" None) None).2
  = Some "unknown_original_path".
Proof. vm_compute. reflexivity. Qed.

Lemma streams_resolved_witness :
  exists es ds, enrich_ntfs_entries demo_ntfs demo_metadata = (es, ds) /\ length es = 3%nat /\
    exists e d, es !! 0%nat = Some e /\ ds !! 0%nat = Some d /\ nd_alternate_stream d = Some "s".
Proof.
  destruct (enrich_ntfs_entries demo_ntfs demo_metadata) as [es ds] eqn:Hd. exists es, ds. split; [done|].
  destruct (streams_resolved demo_ntfs demo_metadata es ds Hd) as (Hl & _ & Hall). split; [exact Hl|].
  destruct (Hall 0%nat _ eq_refl) as (e & d & He & Hdd & _ & Hs & _). exists e, d. split; [exact He|]. split; [exact Hdd|exact Hs].
Defined.
