(* ===== verification/HostProtocol.v ===== *)
(** * The host protocol (src/hostd/protocol.py)

    The envelopes the control plane and the privileged host daemon exchange over a local
    socket: validation of a request against a fixed list of methods and the current generations
    of the sources, and validation of a response.  Messages are parsed JSON values; the frozen
    sets of the module are lists. *)

From Stdlib Require Import ZArith Lia String Ascii.
From stdpp Require Import base list strings gmap sorting.
From S2P Require Import Prelude PyStr Json Identifiers Messages.

Local Open Scope string_scope.
Local Open Scope Z_scope.

(** ** Contract *)

(** hostd/protocol.py:117-118 ProtocolError: next to the [TypeError] of an unhashable error code. *)
Inductive protocol_error :=
  | ProtocolError (message : string)
  | ProtocolTypeError.

Abbreviation object := (list (string * value)).

(** hostd/protocol.py:14-14 PROTOCOL_SCHEMA_VERSION *)
Definition PROTOCOL_SCHEMA_VERSION : Z := 1.
(** hostd/protocol.py:15-15 AUTH_KIND *)
Definition AUTH_KIND : string := "unix_peer_credentials".
(** hostd/protocol.py:17-25 METHODS *)
Definition METHODS : list string :=
  ["list_devices"; "inspect_safety"; "prepare_read_only"; "launch_scanner"; "scanner_status";
   "stop_scanner"; "reconnect"].
(** hostd/protocol.py:27-27 REQUEST_KEYS *)
Definition REQUEST_KEYS : list string := ["schema_version"; "request_id"; "auth"; "method"; "params"].
(** hostd/protocol.py:28-28 RESPONSE_KEYS *)
Definition RESPONSE_KEYS : list string := ["schema_version"; "request_id"; "ok"; "result"; "error"].
(** hostd/protocol.py:29-29 ERROR_KEYS *)
Definition ERROR_KEYS : list string := ["code"; "message"].
(** hostd/protocol.py:30-41 ERROR_CODES *)
Definition ERROR_CODES : list string :=
  ["bad_request"; "unauthorized"; "not_found"; "stale_source"; "safety_blocked"; "read_only_failed";
   "scanner_unavailable"; "internal_error"].

(** hostd/protocol.py:73-98 METHOD_REQUIRED_KEYS: for a method of [METHODS]. *)
Definition METHOD_REQUIRED_KEYS (method : string) : list string :=
  if String.eqb method "inspect_safety" then ["source_id"; "observed_generation"]
  else if String.eqb method "prepare_read_only"
  then ["source_id"; "observed_generation"; "safety_inspection_id"; "operator_confirmation_token"]
  else if String.eqb method "launch_scanner"
  then ["source_id"; "observed_generation"; "safety_inspection_id"; "readonly_preparation_id";
        "scan_case_id"; "scratch_separation_id"; "resource_profile"]
  else if String.eqb method "scanner_status" then ["scanner_session_id"]
  else if String.eqb method "stop_scanner" then ["scanner_session_id"; "reason"]
  else if String.eqb method "reconnect" then ["scan_case_id"; "source_id"; "observed_generation"]
  else [].

(** hostd/protocol.py:46-71 METHOD_PARAM_KEYS: the same sets. *)
Definition METHOD_PARAM_KEYS (method : string) : list string := METHOD_REQUIRED_KEYS method.

(** hostd/protocol.py:100-110 OPAQUE_ID_FIELDS *)
Definition OPAQUE_ID_FIELDS : list string :=
  ["source_id"; "safety_inspection_id"; "operator_confirmation_token"; "readonly_preparation_id";
   "scan_case_id"; "scratch_separation_id"; "scanner_session_id"].

(** hostd/protocol.py:44-44 REQUEST_ID_RE: [fullmatch] of the pattern. *)
Definition REQUEST_ID_RE : string -> bool := bounded_word is_alnum (fun c => is_alnum c || one_of "._:-" c) 127.
(** hostd/protocol.py:112-112 RESOURCE_PROFILE_RE *)
Definition RESOURCE_PROFILE_RE : string -> bool :=
  bounded_word is_lower (fun c => is_lower c || is_digit c || one_of "_-" c) 63.
(** hostd/protocol.py:113-113 REASON_RE *)
Definition REASON_RE : string -> bool := bounded_word is_alnum (fun c => is_alnum c || one_of " ._:-" c) 127.

(** hostd/protocol.py:114-114 PATHLIKE_MARKERS: some marker occurs in the text. *)
Definition pathlike (s : string) : bool :=
  char_in "/"%char s || char_in "\"%char s || str_contains ".." s || char_in "000"%char s.

(** ** Validation *)

Definition text_of (v : value) (test : string -> bool) : bool := match v with VStr s => test s | _ => false end.

(** hostd/protocol.py:173-184 _require_keys *)
Definition require_keys (message : object) (required allowed : list string) (path : string)
    : result protocol_error unit :=
  let missing := sorted_strings (filter_b (fun k => negb (bool_decide (k ∈ message.*1))) required) in
  let extra := sorted_strings (filter_b (fun k => negb (bool_decide (k ∈ allowed))) message.*1) in
  _ ← raise_if (negb (bool_decide (missing = [])))
        (ProtocolError (path +:+ " missing required key(s): " +:+ join ", " missing));
  raise_if (negb (bool_decide (extra = [])))
    (ProtocolError (path +:+ " has unsupported key(s): " +:+ join ", " extra)).

(** hostd/protocol.py:187-189 _validate_schema_version *)
Definition validate_schema_version (v : value) (path : string) : result protocol_error unit :=
  raise_if (negb (is_int v PROTOCOL_SCHEMA_VERSION)) (ProtocolError (path +:+ " must be 1")).

(** hostd/protocol.py:192-194 _validate_request_id *)
Definition validate_request_id (v : value) : result protocol_error unit :=
  raise_if (negb (text_of v REQUEST_ID_RE))
    (ProtocolError "request_id must be a bounded protocol correlation id").

(** hostd/protocol.py:197-204 _validate_auth *)
Definition validate_auth (v : value) : result protocol_error object :=
  match v with
  | VDict auth =>
    _ ← require_keys auth ["kind"; "principal"] ["kind"; "principal"] "request.auth";
    _ ← raise_if (negb (is_text (get_or_none auth "kind") AUTH_KIND))
          (ProtocolError ("request.auth.kind must be " +:+ py_repr (VStr AUTH_KIND)));
    _ ← raise_if (negb (is_text (get_or_none auth "principal") "reperio-api"))
          (ProtocolError "request.auth.principal must be 'reperio-api'");
    Ok auth
  | _ => Err (ProtocolError "request.auth must be an object")
  end.

(** hostd/protocol.py:257-268 _reject_pathlike_strings *)
Fixpoint reject_pathlike_strings (v : value) (path : string) {struct v} : result protocol_error unit :=
  match v with
  | VStr s => raise_if (pathlike s) (ProtocolError (path +:+ " must not contain path-like text"))
  | VDict d =>
    (fix go (d : object) : result protocol_error unit := match d with
      | [] => Ok tt
      | (key, child) :: d => match reject_pathlike_strings child (path +:+ "." +:+ key) with
                             | Err e => Err e | Ok _ => go d end
      end) d
  | VList l =>
    (fix go (index : Z) (l : list value) : result protocol_error unit := match l with
      | [] => Ok tt
      | child :: l => match reject_pathlike_strings child (path +:+ "[" +:+ str_of_Z index +:+ "]") with
                      | Err e => Err e | Ok _ => go (index + 1) l end
      end) 0 l
  | _ => Ok tt
  end.

(** hostd/protocol.py:241-243 _validate_opaque_id *)
Definition validate_opaque_id (field : string) (v : value) : result protocol_error unit :=
  raise_if (negb (text_of v opaque_id)) (ProtocolError (field +:+ " must be an opaque Reperio identifier")).

(** One iteration of the loop over the parameters. *)
Definition validate_param (kv : string * value) : result protocol_error unit :=
  let '(field, v) := kv in
  if bool_decide (field ∈ OPAQUE_ID_FIELDS) then validate_opaque_id field v
  else if String.eqb field "observed_generation" then
    raise_if (match v with VInt z => z <? 0 | _ => true end)
      (ProtocolError "observed_generation must be a non-negative integer")
  else if String.eqb field "resource_profile" then
    raise_if (negb (text_of v RESOURCE_PROFILE_RE))
      (ProtocolError "resource_profile must name a configured resource profile")
  else if String.eqb field "reason" then
    raise_if (negb (text_of v REASON_RE)) (ProtocolError "reason must be bounded operator-visible text")
  else Ok tt.

(** The generation of a named source must be the current one. *)
Definition check_generation (params : object) (source_generations : list (string * Z)) : result protocol_error unit :=
  match get_or_none params "source_id", int_value (get_or_none params "observed_generation") with
  | VStr source_id, Some observed =>
    match dict_get source_generations source_id with
    | None => Err (ProtocolError ("source_id " +:+ py_repr (VStr source_id) +:+ " is not current"))
    | Some current =>
      raise_if (negb (observed =? current))
        (ProtocolError ("source_id " +:+ py_repr (VStr source_id) +:+ " generation is stale: observed "
           +:+ py_repr (get_or_none params "observed_generation") +:+ ", current " +:+ str_of_Z current))
    end
  | _, _ => Ok tt
  end.

(** hostd/protocol.py:207-238 _validate_params *)
Definition validate_params (method : string) (params : object) (source_generations : list (string * Z))
    : result protocol_error unit :=
  _ ← require_keys params (METHOD_REQUIRED_KEYS method) (METHOD_PARAM_KEYS method) (method +:+ ".params");
  _ ← reject_pathlike_strings (VDict params) (method +:+ ".params");
  _ ← mapM_result validate_param params;
  check_generation params source_generations.

(** hostd/protocol.py:121-150 validate_request *)
Definition validate_request (message : object) (source_generations : list (string * Z))
    : result protocol_error object :=
  _ ← require_keys message REQUEST_KEYS REQUEST_KEYS "request";
  _ ← validate_schema_version (get_or_none message "schema_version") "request.schema_version";
  _ ← validate_request_id (get_or_none message "request_id");
  auth ← validate_auth (get_or_none message "auth");
  let not_listed := ProtocolError
    ("request.method " +:+ py_repr (get_or_none message "method") +:+ " is not allowlisted") in
  method ← match get_or_none message "method" with
           | VStr m => if bool_decide (m ∈ METHODS) then Ok m else Err not_listed
           | _ => Err not_listed
           end;
  params ← match get_or_none message "params" with
           | VDict p => Ok p
           | _ => Err (ProtocolError "request.params must be an object")
           end;
  _ ← validate_params method params source_generations;
  Ok [("schema_version", VInt PROTOCOL_SCHEMA_VERSION); ("request_id", get_or_none message "request_id");
      ("auth", VDict auth); ("method", VStr method); ("params", VDict params)].

(** hostd/protocol.py:246-254 _validate_error *)
Definition validate_error (v : value) : result protocol_error unit :=
  match v with
  | VDict e =>
    _ ← require_keys e ERROR_KEYS ERROR_KEYS "response.error";
    _ ← match member_of (get_or_none e "code") ERROR_CODES with
        | None => Err ProtocolTypeError
        | Some known => raise_if (negb known) (ProtocolError "response.error.code is not supported")
        end;
    raise_if (negb (text_of (get_or_none e "message") (fun s => (1 <=? str_len s) && (str_len s <=? 512))))
      (ProtocolError "response.error.message must contain 1 to 512 characters")
  | _ => Err (ProtocolError "failed response.error must be an object")
  end.

(** hostd/protocol.py:153-170 validate_response *)
Definition validate_response (message : object) : result protocol_error object :=
  _ ← require_keys message ["schema_version"; "request_id"; "ok"] RESPONSE_KEYS "response";
  _ ← validate_schema_version (get_or_none message "schema_version") "response.schema_version";
  _ ← validate_request_id (get_or_none message "request_id");
  let has k := bool_decide (k ∈ message.*1) in
  _ ← match get_or_none message "ok" with
      | VBool true =>
        if negb (has "result") || has "error"
        then Err (ProtocolError "successful response requires result and forbids error")
        else match get_or_none message "result" with
             | VDict _ => Ok tt
             | _ => Err (ProtocolError "successful response.result must be an object")
             end
      | VBool false =>
        if negb (has "error") || has "result"
        then Err (ProtocolError "failed response requires error and forbids result")
        else validate_error (get_or_none message "error")
      | _ => Err (ProtocolError "response.ok must be boolean")
      end;
  _ ← reject_pathlike_strings (VDict message) "response";
  Ok message.

(** ** What a valid request is *)

(** Every text inside a value, keys of objects aside. *)
Fixpoint strings_in (v : value) : list string :=
  match v with
  | VStr s => [s]
  | VList l => concat (map strings_in l)
  | VDict d => concat (map (fun '(_, x) => strings_in x) d)
  | _ => []
  end.

Definition no_paths (v : value) : Prop := Forall (fun s => pathlike s = false) (strings_in v).

Definition same_keys (d : object) (keys : list string) : Prop := forall k, k ∈ d.*1 <-> k ∈ keys.

(** The type of a parameter by its name. *)
Definition param_typed (kv : string * value) : Prop :=
  let '(field, v) := kv in
  (field ∈ OPAQUE_ID_FIELDS -> exists s, v = VStr s /\ opaque_id s = true) /\
  (field = "observed_generation" -> exists z, v = VInt z /\ 0 <= z) /\
  (field = "resource_profile" -> exists s, v = VStr s /\ RESOURCE_PROFILE_RE s = true) /\
  (field = "reason" -> exists s, v = VStr s /\ REASON_RE s = true).

Record request_spec (gens : list (string * Z)) (m : object) (rid : string) (auth : object) (method : string)
    (params : object) : Prop := {
  rq_keys : same_keys m REQUEST_KEYS;
  rq_version : is_int (get_or_none m "schema_version") PROTOCOL_SCHEMA_VERSION = true;
  rq_id : get_or_none m "request_id" = VStr rid /\ REQUEST_ID_RE rid = true;
  rq_auth : get_or_none m "auth" = VDict auth /\ same_keys auth ["kind"; "principal"] /\
    get_or_none auth "kind" = VStr AUTH_KIND /\ get_or_none auth "principal" = VStr "reperio-api";
  rq_method : get_or_none m "method" = VStr method /\ method ∈ METHODS;
  rq_params : get_or_none m "params" = VDict params /\ same_keys params (METHOD_REQUIRED_KEYS method) /\
    Forall param_typed params /\ no_paths (VDict params);
  rq_source : "source_id" ∈ METHOD_REQUIRED_KEYS method ->
    exists s z, get_or_none params "source_id" = VStr s /\ get_or_none params "observed_generation" = VInt z /\
      dict_get gens s = Some z
}.

(** The normalised request. *)
Definition normal_request (rid : string) (auth : object) (method : string) (params : object) : object :=
  [("schema_version", VInt PROTOCOL_SCHEMA_VERSION); ("request_id", VStr rid); ("auth", VDict auth);
   ("method", VStr method); ("params", VDict params)].

(** ** Lemmas *)

Lemma sorted_strings_nil l : sorted_strings l = [] <-> l = [].
Proof.
  unfold sorted_strings. pose proof (merge_sort_Permutation String.le l) as H. split; intros E.
  - rewrite E in H. by apply Permutation_nil in H.
  - rewrite E in *. symmetry in H. by apply Permutation_nil in H.
Qed.

Lemma require_keys_ok m required allowed path :
  require_keys m required allowed path = Ok tt <->
  (forall k, k ∈ required -> k ∈ m.*1) /\ (forall k, k ∈ m.*1 -> k ∈ allowed).
Proof.
  unfold require_keys.
  assert (forall l k : list string, sorted_strings (filter_b (fun x => negb (bool_decide (x ∈ k))) l) = [] <->
    forall x, x ∈ l -> x ∈ k) as Hs.
  { intros l k. rewrite sorted_strings_nil. split.
    - intros H x Hx. destruct (decide (x ∈ k)) as [|Hn]; [done|]. exfalso.
      assert (x ∈ filter_b (fun x => negb (bool_decide (x ∈ k))) l) as Hin; [|rewrite H in Hin; by apply elem_of_nil in Hin].
      apply elem_of_filter_b. split; [done|]. by rewrite bool_decide_eq_false_2.
    - intros H. apply filter_b_none. intros x Hx. rewrite bool_decide_eq_true_2; [done|]. auto. }
  rewrite <- !Hs. split.
  - intros H. inv_ok. repeat match goal with H : raise_if _ _ = Ok _ |- _ => apply raise_if_ok in H end.
    repeat match goal with H : negb _ = false |- _ => apply negb_false_iff, bool_decide_eq_true in H end. done.
  - intros [-> ->]. done.
Qed.

Lemma same_keys_ok m keys path : require_keys m keys keys path = Ok tt <-> same_keys m keys.
Proof. rewrite require_keys_ok. unfold same_keys. naive_solver. Qed.

Lemma reject_pathlike_ok v path : reject_pathlike_strings v path = Ok tt <-> no_paths v.
Proof.
  unfold no_paths. revert path. induction v as [|b|z|s|b|l IH|d IH] using value_ind'; intros path;
    try (split; [constructor|done]).
  - simpl. rewrite raise_if_ok, Forall_singleton. done.
  - simpl. generalize 0. induction IH as [|x l Hx _ IHl]; intros i; simpl; [by split|].
    rewrite Forall_app, <- (Hx (path +:+ "[" +:+ str_of_Z i +:+ "]")), <- (IHl (i + 1)).
    destruct (reject_pathlike_strings x _) as [[]|]; naive_solver.
  - simpl. induction IH as [|[k x] d Hx _ IHd]; simpl; [by split|].
    rewrite Forall_app, <- (Hx (path +:+ "." +:+ k)), <- IHd. simpl.
    destruct (reject_pathlike_strings x _) as [[]|]; naive_solver.
Qed.

Lemma text_of_true v test : text_of v test = true <-> exists s, v = VStr s /\ test s = true.
Proof. destruct v; simpl; naive_solver. Qed.

Lemma validate_param_ok kv : validate_param kv = Ok tt <-> param_typed kv.
Proof.
  destruct kv as [field v]. unfold validate_param, param_typed, validate_opaque_id.
  destruct (bool_decide (field ∈ OPAQUE_ID_FIELDS)) eqn:E.
  { apply bool_decide_eq_true in E. rewrite raise_if_ok, negb_false_iff, text_of_true.
    assert (field <> "observed_generation" /\ field <> "resource_profile" /\ field <> "reason") as (? & ? & ?)
      by (unfold OPAQUE_ID_FIELDS in E; rewrite !elem_of_cons, elem_of_nil in E; naive_solver).
    naive_solver. }
  apply bool_decide_eq_false in E.
  destruct (String.eqb_spec field "observed_generation") as [->|H1].
  { rewrite raise_if_ok. split.
    - intros Hv. split; [done|]. split; [|done]. intros _. destruct v; try done. exists z. split; [done|lia].
    - intros (_ & Hv & _). destruct (Hv eq_refl) as (z & -> & Hz). lia. }
  destruct (String.eqb_spec field "resource_profile") as [->|H2].
  { rewrite raise_if_ok, negb_false_iff, text_of_true. naive_solver. }
  destruct (String.eqb_spec field "reason") as [->|H3].
  { rewrite raise_if_ok, negb_false_iff, text_of_true. naive_solver. }
  naive_solver.
Qed.

Lemma mapM_unit_ok {E A} (f : A -> result E unit) l :
  (exists ys, mapM_result f l = Ok ys) <-> Forall (fun x => f x = Ok tt) l.
Proof.
  induction l as [|x l IH]; simpl; [split; [constructor|by exists []]|].
  rewrite Forall_cons, <- IH. split.
  - intros (ys & H). inv_ok. match goal with H : f x = Ok ?u |- _ => destruct u end. eauto.
  - intros [-> [ys ->]]. by eexists.
Qed.

Lemma get_elem (d : object) k : k ∈ d.*1 -> (k, get_or_none d k) ∈ d.
Proof.
  unfold get_or_none. induction d as [|[k' v] d IH]; simpl; [by intros ?%elem_of_nil|].
  rewrite elem_of_cons. destruct (String.eqb_spec k k') as [->|Hne]; [left|].
  intros [?|Hk]; [done|]. right. by apply IH.
Qed.

#[local] Arguments reject_pathlike_strings : simpl never.
#[local] Arguments validate_param : simpl never.
#[local] Arguments check_generation : simpl never.

(** For typed parameters the generation check is that of the specification. *)
Lemma check_generation_ok params gens :
  Forall param_typed params -> ("source_id" ∈ params.*1 -> "observed_generation" ∈ params.*1) ->
  check_generation params gens = Ok tt <->
  ("source_id" ∈ params.*1 -> exists s z, get_or_none params "source_id" = VStr s /\
     get_or_none params "observed_generation" = VInt z /\ dict_get gens s = Some z).
Proof.
  intros Ht Hk. unfold check_generation. rewrite Forall_forall in Ht.
  destruct (decide ("source_id" ∈ params.*1)) as [Hin|Hin].
  - destruct (Ht _ (get_elem _ _ Hin)) as [Hs _]. destruct Hs as (s & Hs & _); [unfold OPAQUE_ID_FIELDS; left|].
    destruct (Ht _ (get_elem _ _ (Hk Hin))) as (_ & Hg & _). destruct (Hg eq_refl) as (z & Hz & _).
    rewrite Hs, Hz. cbn [int_value]. destruct (dict_get gens s) as [c|] eqn:E.
    + rewrite raise_if_ok, negb_false_iff, Z.eqb_eq. naive_solver.
    + naive_solver.
  - assert (get_or_none params "source_id" = VNone) as ->.
    { unfold get_or_none. by rewrite (proj2 (dict_get_None params "source_id") Hin). }
    naive_solver.
Qed.

Lemma source_has_generation method :
  "source_id" ∈ METHOD_REQUIRED_KEYS method -> "observed_generation" ∈ METHOD_REQUIRED_KEYS method.
Proof.
  unfold METHOD_REQUIRED_KEYS. repeat (destruct (String.eqb method _));
    rewrite ?elem_of_cons, ?elem_of_nil; naive_solver.
Qed.

Lemma validate_params_ok method params gens :
  validate_params method params gens = Ok tt <->
  same_keys params (METHOD_REQUIRED_KEYS method) /\ Forall param_typed params /\ no_paths (VDict params) /\
  ("source_id" ∈ METHOD_REQUIRED_KEYS method ->
     exists s z, get_or_none params "source_id" = VStr s /\ get_or_none params "observed_generation" = VInt z /\
       dict_get gens s = Some z).
Proof.
  unfold validate_params, METHOD_PARAM_KEYS. split.
  - intros H. inv_ok. repeat match goal with u : () |- _ => destruct u end.
    match goal with H : require_keys _ _ _ _ = _ |- _ => apply same_keys_ok in H as Hk end.
    match goal with H : reject_pathlike_strings _ _ = _ |- _ => apply reject_pathlike_ok in H as Hp end.
    match goal with H : mapM_result _ _ = Ok ?y |- _ => assert (exists ys, mapM_result validate_param params = Ok ys) as Hm by eauto end.
    apply mapM_unit_ok in Hm. assert (Forall param_typed params) as Ht
      by (eapply Forall_impl; [exact Hm|]; intros kv; apply validate_param_ok).
    do 3 (split; [done|]). intros Hs. apply (check_generation_ok params gens); [done| |done|by apply Hk].
    intros _. by apply Hk, source_has_generation.
  - intros (Hk & Ht & Hp & Hs). rewrite (proj2 (same_keys_ok _ _ _) Hk). cbn [mbind result_bind].
    rewrite (proj2 (reject_pathlike_ok _ _) Hp). cbn [mbind result_bind].
    destruct (proj2 (mapM_unit_ok validate_param params)) as [ys ->].
    { eapply Forall_impl; [exact Ht|]. intros kv. apply validate_param_ok. }
    cbn [mbind result_bind]. apply check_generation_ok; [done| |].
    + intros Hin. apply Hk, source_has_generation. by apply Hk.
    + intros Hin. apply Hs. by apply Hk.
Qed.

(** ** Properties *)

Lemma validate_auth_ok v auth :
  validate_auth v = Ok auth <->
  v = VDict auth /\ same_keys auth ["kind"; "principal"] /\ get_or_none auth "kind" = VStr AUTH_KIND /\
  get_or_none auth "principal" = VStr "reperio-api".
Proof.
  unfold validate_auth. split.
  - destruct v as [| | | | | |d]; try done. intros H. apply bind_ok in H as ([] & Hk%same_keys_ok & H).
    apply bind_ok in H as (_ & H1%raise_if_ok & H). apply bind_ok in H as (_ & H2%raise_if_ok & [= <-]).
    apply negb_false_iff, is_text_true in H1, H2. done.
  - intros (-> & Hk & H1 & H2). rewrite (proj2 (same_keys_ok _ _ _) Hk), H1, H2. done.
Qed.

Lemma validate_request_spec message gens r :
  validate_request message gens = Ok r <->
  exists rid auth method params, request_spec gens message rid auth method params /\
    r = normal_request rid auth method params.
Proof.
  unfold validate_request. split.
  - intros H. apply bind_ok in H as ([] & Hk%same_keys_ok & H).
    apply bind_ok in H as (u1 & Hv & H). unfold validate_schema_version in Hv. apply raise_if_ok, negb_false_iff in Hv.
    apply bind_ok in H as (u2 & Hi & H). unfold validate_request_id in Hi.
    apply raise_if_ok, negb_false_iff, text_of_true in Hi as (rid & Hrid & Hre).
    apply bind_ok in H as (auth & (Ha & Hak & Hkind & Hprin)%validate_auth_ok & H).
    apply bind_ok in H as (method & Hm & H).
    assert (get_or_none message "method" = VStr method /\ method ∈ METHODS) as Hmethod.
    { destruct (get_or_none message "method") as [| | |s| | |]; try done.
      destruct (bool_decide _) eqn:E; [|done]. injection Hm as <-. by apply bool_decide_eq_true in E. }
    apply bind_ok in H as (params & Hp & H).
    assert (get_or_none message "params" = VDict params) as Hparams.
    { destruct (get_or_none message "params"); try done. by injection Hp as <-. }
    apply bind_ok in H as ([] & (Hpk & Ht & Hn & Hs)%validate_params_ok & H).
    rewrite Hrid in H. injection H as <-. exists rid, auth, method, params. split; [|done]. by split.
  - intros (rid & auth & method & params & [Hk Hv [Hi Hre] Ha [Hm Hin] (Hp & Hpk & Ht & Hn) Hs] & ->).
    rewrite (proj2 (same_keys_ok _ _ _) Hk). unfold validate_schema_version, validate_request_id.
    rewrite Hv, Hi. cbn [text_of negb raise_if mbind result_bind]. rewrite Hre.
    rewrite (proj2 (validate_auth_ok _ _) Ha), Hm. cbn [negb raise_if mbind result_bind].
    rewrite bool_decide_eq_true_2 by done. cbn [mbind result_bind]. rewrite Hp. cbn [mbind result_bind].
    rewrite (proj2 (validate_params_ok method params gens)) by done. done.
Qed.

(** C38. Exactly the requests of the contract are accepted.  A request is accepted, and its
    normal form returned, if and only if it has the five keys, version 1, a bounded
    correlation identifier, the credentials of the control plane, a method of the fixed list,
    exactly the parameters of that method with their documented types, no text in the
    parameters that looks like a path, and the current generation of the source it names. *)
Theorem validate_request_exact message gens r :
  validate_request message gens = Ok r <->
  exists rid auth method params, request_spec gens message rid auth method params /\
    r = normal_request rid auth method params.
Proof. exact (validate_request_spec message gens r). Qed.

(** Accepting is stable.  The normal form of an accepted request is accepted under the same
    generations and is its own normal form, and once the generation of the source it names has
    changed it is rejected: a stale selection does not pass. *)
Theorem accepted_request_stable message gens r :
  validate_request message gens = Ok r ->
  validate_request r gens = Ok r /\
  forall s gens', (exists params, dict_get r "params" = Some (VDict params) /\
                     get_or_none params "source_id" = VStr s /\ "source_id" ∈ params.*1) ->
    dict_get gens' s <> dict_get gens s -> is_ok (validate_request r gens') = false.
Proof.
  intros (rid & auth & method & params & Hspec & ->)%validate_request_spec.
  assert (forall g, request_spec g message rid auth method params ->
    request_spec g (normal_request rid auth method params) rid auth method params) as Hnormal.
  { intros g [Hk Hv Hi (Ha & Ha') [Hm Hin] (Hp & Hp') Hs]. split; try done. destruct Hi as [_ Hi]. by split. }
  split.
  - apply validate_request_spec. exists rid, auth, method, params. split; [by apply Hnormal|done].
  - intros s gens' (params' & [= <-] & Hsrc & Hin) Hne.
    destruct (validate_request (normal_request rid auth method params) gens') as [r'|] eqn:E; [|done].
    apply validate_request_spec in E as (rid' & auth' & method' & params' & Hspec' & _).
    destruct (rq_params _ _ _ _ _ _ Hspec') as (Hp & Hpk & _). injection Hp as <-.
    destruct (rq_params _ _ _ _ _ _ Hspec) as (_ & Hpk0 & _).
    destruct (rq_source _ _ _ _ _ _ Hspec') as (s' & z' & H1 & H2 & H3); [by apply Hpk|].
    destruct (rq_source _ _ _ _ _ _ Hspec) as (s0 & z0 & H4 & H5 & H6); [by apply Hpk0|].
    congruence.
Qed.

(** The two shapes of the payload of a response. *)
Definition response_payload (m : object) : Prop :=
  (get_or_none m "ok" = VBool true /\ "error" ∉ m.*1 /\ exists d, get_or_none m "result" = VDict d) \/
  (get_or_none m "ok" = VBool false /\ "result" ∉ m.*1 /\
     exists e code text, get_or_none m "error" = VDict e /\ same_keys e ERROR_KEYS /\
       get_or_none e "code" = VStr code /\ code ∈ ERROR_CODES /\
       get_or_none e "message" = VStr text /\ 1 <= str_len text <= 512).

Lemma validate_error_ok v :
  validate_error v = Ok tt <->
  exists e code text, v = VDict e /\ same_keys e ERROR_KEYS /\ get_or_none e "code" = VStr code /\
    code ∈ ERROR_CODES /\ get_or_none e "message" = VStr text /\ 1 <= str_len text <= 512.
Proof.
  unfold validate_error. split.
  - destruct v as [| | | | | |e]; try done. intros H. apply bind_ok in H as ([] & Hk%same_keys_ok & H).
    apply bind_ok in H as (u & Hc & Hm). apply raise_if_ok, negb_false_iff, text_of_true in Hm as (text & Ht & Hl).
    destruct (member_of (get_or_none e "code") ERROR_CODES) as [known|] eqn:E; [|done].
    apply raise_if_ok, negb_false_iff in Hc. subst known.
    destruct (get_or_none e "code") as [| | |code| | |] eqn:Ec; try done. injection E as E.
    apply bool_decide_eq_true in E. exists e, code, text. split_and!; try done; lia.
  - intros (e & code & text & -> & Hk & Hc & Hin & Hm & Hl). rewrite (proj2 (same_keys_ok _ _ _) Hk), Hc, Hm.
    cbn [mbind result_bind member_of]. rewrite bool_decide_eq_true_2 by done. cbn [negb raise_if mbind result_bind text_of].
    replace ((1 <=? str_len text) && (str_len text <=? 512)) with true by lia. done.
Qed.

Lemma get_present (m : object) k v : get_or_none m k = v -> v <> VNone -> k ∈ m.*1.
Proof.
  intros <- Hv. destruct (decide (k ∈ m.*1)) as [|Hn]; [done|]. destruct Hv.
  unfold get_or_none. by rewrite (proj2 (dict_get_None m k) Hn).
Qed.

(** Exactly the responses of the contract are accepted, unchanged.  Either the response is
    successful, with a result object and no error, or it failed, with an error of a known code
    and a message of 1 to 512 characters and no result; in both cases no text in it looks
    like a path. *)
Theorem validate_response_exact message r :
  validate_response message = Ok r <->
  r = message /\ (forall k, k ∈ ["schema_version"; "request_id"; "ok"] -> k ∈ message.*1) /\
  (forall k, k ∈ message.*1 -> k ∈ RESPONSE_KEYS) /\
  is_int (get_or_none message "schema_version") PROTOCOL_SCHEMA_VERSION = true /\
  (exists rid, get_or_none message "request_id" = VStr rid /\ REQUEST_ID_RE rid = true) /\
  response_payload message /\ no_paths (VDict message).
Proof.
  unfold validate_response. split.
  - intros H. apply bind_ok in H as ([] & [Hr Ha]%require_keys_ok & H).
    apply bind_ok in H as (u1 & Hv & H). unfold validate_schema_version in Hv. apply raise_if_ok, negb_false_iff in Hv.
    apply bind_ok in H as (u2 & Hi & H). unfold validate_request_id in Hi. apply raise_if_ok, negb_false_iff, text_of_true in Hi.
    apply bind_ok in H as ([] & Hok & H). apply bind_ok in H as ([] & Hn%reject_pathlike_ok & [= <-]).
    split; [done|]. do 4 (split; [done|]). split; [|done]. unfold response_payload.
    destruct (get_or_none message "ok") as [|[]| | | | |] eqn:Eo; try done.
    + left. destruct (_ || _) eqn:E; [done|]. apply orb_false_iff in E as [_ E]. apply bool_decide_eq_false in E.
      split; [done|]. split; [done|]. destruct (get_or_none message "result"); try done. eauto.
    + right. destruct (_ || _) eqn:E; [done|]. apply orb_false_iff in E as [_ E]. apply bool_decide_eq_false in E.
      split; [done|]. split; [done|]. by apply validate_error_ok.
  - intros (-> & Hr & Ha & Hv & (rid & Hi & Hre) & Hp & Hn).
    rewrite (proj2 (require_keys_ok _ _ _ _) (conj Hr Ha)). unfold validate_schema_version, validate_request_id.
    rewrite Hv, Hi. cbn [text_of negb raise_if mbind result_bind]. rewrite Hre. cbn [negb raise_if mbind result_bind].
    rewrite (proj2 (reject_pathlike_ok _ _) Hn). destruct Hp as [(-> & He & d & Hd)|(-> & Hres & e & code & text & He & Hrest)].
    + rewrite (bool_decide_eq_true_2 ("result" ∈ message.*1)) by (by eapply get_present; [exact Hd|]).
      rewrite (bool_decide_eq_false_2 ("error" ∈ message.*1)) by done. by rewrite Hd.
    + rewrite (bool_decide_eq_true_2 ("error" ∈ message.*1)) by (by eapply get_present; [exact He|]).
      rewrite (bool_decide_eq_false_2 ("result" ∈ message.*1)) by done. cbn [negb orb].
      rewrite (proj2 (validate_error_ok _)) by (by exists e, code, text). done.
Qed.

(** ** Examples and witnesses *)

Definition demo_source : string := "src_0123456789abcdef".
Definition demo_request (rid : string) : object :=
  [("method", VStr "inspect_safety"); ("request_id", VStr rid); ("schema_version", VInt 1);
   ("params", VDict [("observed_generation", VInt 3); ("source_id", VStr demo_source)]);
   ("auth", VDict [("kind", VStr AUTH_KIND); ("principal", VStr "reperio-api")])].

(** A request whose identifier holds two dots is accepted, a response with the same identifier
    is not. *)
Example dotted_request_has_no_response :
  is_ok (validate_request (demo_request "a..b") [(demo_source, 3)]) = true /\
  is_ok (validate_response [("schema_version", VInt 1); ("request_id", VStr "a..b"); ("ok", VBool true);
                            ("result", VDict [])]) = false.
Proof. split; by vm_compute. Qed.

(** Only the values of objects are searched for path-like text. *)
Example pathlike_key_passes :
  is_ok (validate_response [("schema_version", VInt 1); ("request_id", VStr "r1"); ("ok", VBool true);
                            ("result", VDict [("/dev/sda", VInt 1)])]) = true.
Proof. by vm_compute. Qed.

Lemma accepted_request_stable_witness :
  is_ok (validate_request (demo_request "r1") [(demo_source, 4)]) = false /\
  validate_request (normal_request "r1" [("kind", VStr AUTH_KIND); ("principal", VStr "reperio-api")] "inspect_safety"
    [("observed_generation", VInt 3); ("source_id", VStr demo_source)]) [(demo_source, 3)]
  = Ok (normal_request "r1" [("kind", VStr AUTH_KIND); ("principal", VStr "reperio-api")] "inspect_safety"
    [("observed_generation", VInt 3); ("source_id", VStr demo_source)]).
Proof.
  split; [by vm_compute|].
  exact (proj1 (accepted_request_stable (demo_request "r1") [(demo_source, 3)]
    (normal_request "r1" [("kind", VStr AUTH_KIND); ("principal", VStr "reperio-api")] "inspect_safety"
      [("observed_generation", VInt 3); ("source_id", VStr demo_source)]) ltac:(by vm_compute))).
Defined.

Lemma validate_request_exact_witness :
  exists rid auth method params, request_spec [(demo_source, 3)] (demo_request "r1") rid auth method params.
Proof.
  destruct (proj1 (validate_request_exact (demo_request "r1") [(demo_source, 3)]
    (normal_request "r1" [("kind", VStr AUTH_KIND); ("principal", VStr "reperio-api")] "inspect_safety"
      [("observed_generation", VInt 3); ("source_id", VStr demo_source)])) ltac:(by vm_compute))
    as (rid & auth & method & params & H & _).
  exists rid, auth, method, params. exact H.
Defined.

Lemma validate_response_exact_witness :
  response_payload [("schema_version", VInt 1); ("request_id", VStr "r1"); ("ok", VBool true);
                    ("result", VDict [("devices", VList [])])].
Proof.
  apply (validate_response_exact
    [("schema_version", VInt 1); ("request_id", VStr "r1"); ("ok", VBool true); ("result", VDict [("devices", VList [])])]
    [("schema_version", VInt 1); ("request_id", VStr "r1"); ("ok", VBool true); ("result", VDict [("devices", VList [])])]).
  by vm_compute.
Defined.
