(* ===== verification/Migrations.v ===== *)
(** * Schema migrations (src/migrations/runner.py)

    The runner that upgrades a catalog database under a transaction, with a backup of the old
    file, and the migration that numbers the events of the outbox.  Files are a map from paths
    to file states; a database is its version history and the rest of its contents, of an
    arbitrary type.  The [apply] of a migration is a function on the rest that may raise: it
    runs inside the transaction of the runner and does not end it.  Such a migration does not touch
    the version history.  Not modelled: a backup that SQLite itself fails to finish, which would
    leave a partial file, and a failure of BEGIN IMMEDIATE or COMMIT; the side files of the
    write-ahead log count as part of the database. *)

From Stdlib Require Import ZArith Lia String Ascii.
From stdpp Require Import base list strings gmap sorting.
From S2P Require Import Prelude PyStr Sql Json Timestamp JobState EventOutbox.

Local Open Scope string_scope.
Local Open Scope Z_scope.

(** ** Data *)

(** migrations/runner.py:16-23 MigrationError: and [FutureSchemaError], next to the exceptions of
    a migration that pass through. *)
Inductive migration_error :=
  | MigrationError (message : string)
  | FutureSchemaError (message : string)
  | OtherError (message : string).

(** What a statement or a migration raises: an error of [sqlite3] or another one. *)
Inductive apply_error :=
  | SqliteError (message : string)
  | ApplyError (message : string).

(** migrations/runner.py:274-291 _ensure_version_table: one row of [schema_migrations]. *)
Record version_row := VR { vr_version : Z; vr_name : string; vr_applied_at : string }.

(** migrations/runner.py:13-13 CURRENT_SCHEMA_VERSION *)
Definition CURRENT_SCHEMA_VERSION : Z := 7.

Section runner.
Context {S : Type} (empty_rest : S).

(** migrations/runner.py:26-30 Migration *)
Record Migration := Mig { m_version : Z; m_name : string; m_apply : S -> result apply_error S }.

(** A database: its table [schema_migrations], if there is one, and everything else. *)
Record database := DB { db_history : option (list version_row); db_rest : S }.

(** A directory entry: whether it is a regular file, its number of links, and the database it
    holds, [None] for a file of length zero. *)
Record file := File { f_regular : bool; f_links : Z; f_data : option database }.

(** migrations/runner.py:33-38 MigrationResult *)
Record MigrationResult := MR {
  mr_current : Z;
  mr_applied : list Z;
  mr_backup : option string;
  mr_workers_allowed : bool
}.

(** ** Operations *)

(** The loop over the expected versions. *)
Fixpoint validate_from (expected : Z) (migrations : list Migration) : result migration_error unit :=
  match migrations with
  | [] => Ok tt
  | m :: ms => if negb (m_version m =? expected)
               then Err (MigrationError "migrations must be contiguous and start at version 1")
               else validate_from (expected + 1) ms
  end.
(** migrations/runner.py:240-245 _validate_migration_sequence *)
Definition validate_migration_sequence (migrations : list Migration) : result migration_error unit :=
  validate_from 1 migrations.

(** migrations/runner.py:335-342 _reject_unsafe_existing_path *)
Definition reject_unsafe_existing_path (files : gmap string file) (path label : string)
    : result migration_error unit :=
  match files !! path with
  | None => Ok tt
  | Some f => raise_if (negb (f_regular f) || negb (f_links f =? 1))
                (MigrationError (label +:+ " must be a single-link regular file"))
  end.

Definition versions (db : database) : list Z := vr_version <$> default [] (db_history db).

(** migrations/runner.py:77-87 current_schema_version *)
Definition current_schema_version (db : database) : Z := foldr Z.max 0 (versions db).

(** migrations/runner.py:294-300 _ensure_contiguous_history *)
Definition ensure_contiguous_history (db : database) (current : Z) : result migration_error unit :=
  if current =? 0 then Ok tt
  else raise_if (negb (bool_decide (order_by_int id (versions db) = zrange 1 (Z.to_nat current))))
         (MigrationError "schema migration history is incomplete or reordered").

(** The INSERT into [schema_migrations]: its primary key, its unique names and its checks. *)
Definition record_version (row : version_row) (history : list version_row) : result apply_error (list version_row) :=
  if (vr_version row <=? 0) || negb (timestamp_check (vr_applied_at row))
     || bool_decide (vr_version row ∈ vr_version <$> history) || bool_decide (vr_name row ∈ vr_name <$> history)
  then Err (SqliteError "constraint failed") else Ok (history ++ [row])%list.

(** The loop of [_apply_pending_migrations]; [now] is the text of [strftime]. *)
Fixpoint apply_loop (now : string) (current : Z) (migrations : list Migration) (history : list version_row) (rest : S)
    : result apply_error (list version_row * S * list Z) :=
  match migrations with
  | [] => Ok (history, rest, [])
  | m :: ms =>
    if m_version m <=? current then apply_loop now current ms history rest
    else
      rest' ← m_apply m rest;
      history' ← record_version (VR (m_version m) (m_name m) now) history;
      '(h, r, applied) ← apply_loop now current ms history' rest';
      Ok (h, r, m_version m :: applied)
  end.

(** migrations/runner.py:248-271 _apply_pending_migrations: the database after COMMIT or after
    ROLLBACK. *)
Definition apply_pending_migrations (now : string) (db : database) (current : Z) (migrations : list Migration)
    : database * result apply_error (list Z) :=
  match apply_loop now current migrations (default [] (db_history db)) (db_rest db) with
  | Ok (h, r, applied) => (DB (Some h) r, Ok applied)
  | Err e => (db, Err e)
  end.

(** The path of the backup. *)
Definition backup_path (dir name : string) (backup_dir : option string) (current target : Z) : string :=
  default (dir +:+ "/backups") backup_dir +:+ "/" +:+ name +:+ ".v" +:+ str_of_Z current +:+ "-to-v"
  +:+ str_of_Z target +:+ ".bak".

(** migrations/runner.py:316-332 _backup_database *)
Definition backup_database (files : gmap string file) (db : database) (dir name : string)
    (backup_dir : option string) (current target : Z) : result migration_error (gmap string file * string) :=
  let p := backup_path dir name backup_dir current target in
  _ ← reject_unsafe_existing_path files p "catalog backup";
  match files !! p with
  | Some _ => Err (MigrationError "catalog backup already exists")
  | None => Ok (<[p := File true 1 (Some db)]> files, p)
  end.

Definition of_apply_error (e : apply_error) : migration_error :=
  match e with SqliteError m => MigrationError m | ApplyError m => OtherError m end.

(** The database a connection to the path sees, and the files once it is open: a new or empty
    file becomes an empty database. *)
Definition open_database (files : gmap string file) (path : string) : gmap string file * database :=
  match files !! path with
  | Some (File r l (Some db)) => (files, db)
  | Some (File r l None) => (<[path := File r l (Some (DB None empty_rest))]> files, DB None empty_rest)
  | None => (<[path := File true 1 (Some (DB None empty_rest))]> files, DB None empty_rest)
  end.

Definition store (files : gmap string file) (path : string) (db : database) : gmap string file :=
  match files !! path with
  | Some f => <[path := File (f_regular f) (f_links f) (Some db)]> files
  | None => files
  end.

Definition last_version (migrations : list Migration) : Z :=
  match last migrations with Some m => m_version m | None => 0 end.

(** migrations/runner.py:41-74 migrate_catalog: the database is the file [name] in [dir], and
    [selected] the migrations given, or the default ones where none are. *)
Definition migrate_catalog (now : string) (files : gmap string file) (dir name : string)
    (backup_dir : option string) (selected : list Migration)
    : gmap string file * result migration_error MigrationResult :=
  let path := dir +:+ "/" +:+ name in
  match (_ ← validate_migration_sequence selected; reject_unsafe_existing_path files path "catalog database") with
  | Err e => (files, Err e)
  | Ok _ =>
    let existed_before := match files !! path with Some (File _ _ (Some _)) => true | _ => false end in
    let '(files1, db) := open_database files path in
    let current := current_schema_version db in
    let target := last_version selected in
    if target <? current
    then (files1, Err (FutureSchemaError ("database schema version " +:+ str_of_Z current
                         +:+ " is newer than supported " +:+ str_of_Z target)))
    else match ensure_contiguous_history db current with
         | Err e => (files1, Err e)
         | Ok _ =>
           if current =? target then (files1, Ok (MR current [] None true))
           else
             match (if existed_before then
                      '(f, p) ← backup_database files1 db dir name backup_dir current target; Ok (f, Some p)
                    else Ok (files1, None)) with
             | Err e => (files1, Err e)
             | Ok (files2, backup) =>
               match apply_pending_migrations now db current selected with
               | (db', Err e) => (store files2 path db', Err (of_apply_error e))
               | (db', Ok applied) => (store files2 path db', Ok (MR (current_schema_version db') applied backup true))
               end
             end
         end
  end.

(** migrations/runner.py:90-104 ready_for_workers *)
Definition ready_for_workers (files : gmap string file) (path : string) : bool :=
  match files !! path with
  | None => false
  | Some _ =>
    let db := (open_database files path).2 in
    let current := current_schema_version db in
    is_ok (ensure_contiguous_history db current) && (current =? CURRENT_SCHEMA_VERSION)
  end.
End runner.

(** ** Versions *)

Lemma foldr_max_perm (l k : list Z) : l ≡ₚ k -> foldr Z.max 0 l = foldr Z.max 0 k.
Proof. induction 1; simpl; lia. Qed.

Lemma foldr_max_range n : foldr Z.max 0 (zrange 1 n) = Z.of_nat n.
Proof. change (zrange 1) with (zrange (0 + 1)). rewrite foldr_max_zrange by lia. case_decide; lia. Qed.

Lemma order_zrange l n : l ≡ₚ zrange 1 n -> order_by_int id l = zrange 1 n.
Proof.
  intros Hp. transitivity (order_by_int id (zrange 1 n)).
  - apply (StronglySorted_unique (fun a b : Z => a <= b)).
    + apply (order_by_int_sorted id).
    + apply (order_by_int_sorted id).
    + by rewrite !order_by_int_perm.
  - apply order_by_int_strict. apply zrange_sorted.
Qed.

Lemma filter_gt_zrange c n : 0 <= c <= Z.of_nat n ->
  filter_b (fun v => c <? v) (zrange 1 n) = zrange (c + 1) (n - Z.to_nat c).
Proof.
  intros Hc. replace n with (Z.to_nat c + (n - Z.to_nat c))%nat at 1 by lia.
  rewrite zrange_app, filter_b_app, filter_b_none, app_nil_l.
  - rewrite filter_b_all; [f_equal; lia|]. intros x Hx%elem_of_zrange. lia.
  - intros x Hx%elem_of_zrange. lia.
Qed.

Lemma filter_b_fmap {A B} (f : A -> B) (p : B -> bool) l :
  f <$> filter_b (fun x => p (f x)) l = filter_b p (f <$> l).
Proof.
  unfold filter_b. induction l as [|x l IH]; [done|]. rewrite fmap_cons. simpl.
  destruct (p (f x)); [rewrite fmap_cons|]; by rewrite IH.
Qed.

Section runner_proofs.
Context {S : Type} (empty_rest : S).
Implicit Types (db : @database S) (ms : list (@Migration S)) (files : gmap string (@file S)).

(** The history columns satisfy the constraints of the table. *)
Definition history_checked (db : @database S) : Prop := Forall (fun v => 0 < v) (versions db).

(** The history is the versions from 1 to the current one. *)
Definition history_complete (db : @database S) (n : Z) : Prop :=
  0 <= n /\ versions db ≡ₚ zrange 1 (Z.to_nat n).

Lemma complete_current db n : history_complete db n -> current_schema_version db = n.
Proof.
  intros [Hn Hp]. unfold current_schema_version. rewrite (foldr_max_perm _ _ Hp), foldr_max_range. lia.
Qed.

Lemma complete_contiguous db n : history_complete db n -> ensure_contiguous_history db n = Ok tt.
Proof.
  intros [Hn Hp]. unfold ensure_contiguous_history. destruct (n =? 0); [done|].
  rewrite bool_decide_eq_true_2; [done|]. by apply order_zrange.
Qed.

Lemma contiguous_complete db :
  history_checked db -> ensure_contiguous_history db (current_schema_version db) = Ok tt ->
  history_complete db (current_schema_version db).
Proof.
  intros Hc. unfold ensure_contiguous_history, history_complete. pose proof (foldr_max_nonneg (versions db)) as H0.
  fold (current_schema_version db) in H0. destruct (Z.eqb_spec (current_schema_version db) 0) as [E|E].
  - intros _. split; [lia|]. rewrite E. simpl. unfold history_checked in Hc.
    destruct (versions db) as [|v l] eqn:Ev; [done|]. exfalso. inversion Hc; subst.
    unfold current_schema_version in E. rewrite Ev in E. simpl in E. lia.
  - intros H%raise_if_ok%negb_false_iff. apply bool_decide_eq_true in H.
    split; [lia|]. rewrite <- H. symmetry. apply order_by_int_perm.
Qed.

Lemma validate_from_spec e ms u :
  validate_from e ms = Ok u -> m_version <$> ms = zrange e (length ms).
Proof.
  revert e. induction ms as [|m ms IH]; intros e H; [done|]. simpl in H.
  destruct (Z.eqb_spec (m_version m) e) as [Hm|Hm]; [|done]. simpl in H. rewrite fmap_cons, (IH _ H), Hm. done.
Qed.

Lemma last_version_spec ms u :
  validate_migration_sequence ms = Ok u -> last_version ms = zlen ms.
Proof.
  intros H%validate_from_spec. unfold last_version, zlen. rewrite last_lookup.
  destruct (ms !! Nat.pred (length ms)) as [m|] eqn:E.
  - apply (f_equal (fun l => l !! Nat.pred (length ms))) in H. rewrite list_lookup_fmap, E in H.
    pose proof (lookup_lt_Some _ _ _ E). rewrite lookup_zrange in H by lia. injection H as ->. lia.
  - apply lookup_ge_None in E. destruct ms; simpl in *; lia.
Qed.

(** The migrations a run applies. *)
Definition pending (current : Z) ms : list Migration := filter_b (fun m => current <? m_version m) ms.

(** What they do to the rest of the database. *)
Fixpoint run_all ms (rest : S) : result apply_error S :=
  match ms with [] => Ok rest | m :: ms => r ← m_apply m rest; run_all ms r end.

Lemma apply_loop_spec now current ms history rest h r applied :
  apply_loop now current ms history rest = Ok (h, r, applied) ->
  run_all (pending current ms) rest = Ok r /\ applied = m_version <$> pending current ms /\
  h = (history ++ ((fun m => VR (m_version m) (m_name m) now) <$> pending current ms))%list.
Proof.
  revert history rest h r applied. induction ms as [|m ms IH]; intros history rest h r applied H; simpl in H.
  - injection H as <- <- <-. by rewrite app_nil_r.
  - unfold pending, filter_b. simpl. rewrite Z.leb_antisym in H. destruct (current <? m_version m) eqn:E; simpl in H.
    + apply bind_ok in H as (rest' & Ha & H). apply bind_ok in H as (history' & Hr & H).
      apply bind_ok in H as ([[h' r'] a'] & Hl & [= <- <- <-]).
      apply IH in Hl as (Hrun & -> & ->). unfold record_version in Hr. destruct (_ || _) in Hr; [done|].
      injection Hr as <-. simpl. rewrite Ha. split; [exact Hrun|]. split; [done|]. by rewrite <- app_assoc.
    + by apply IH.
Qed.

Lemma pending_versions current ms u :
  validate_migration_sequence ms = Ok u -> 0 <= current <= zlen ms ->
  m_version <$> pending current ms = zrange (current + 1) (length ms - Z.to_nat current).
Proof.
  intros H%validate_from_spec Hc. unfold pending.
  rewrite (filter_b_fmap m_version (fun v => current <? v)), H. by apply filter_gt_zrange.
Qed.

(** A successful run completes the history. *)
Lemma apply_pending_complete now db current ms db' applied u :
  validate_migration_sequence ms = Ok u -> history_complete db current -> current <= zlen ms ->
  apply_pending_migrations now db current ms = (db', Ok applied) ->
  history_complete db' (zlen ms) /\ run_all (pending current ms) (db_rest db) = Ok (db_rest db') /\
  applied = zrange (current + 1) (length ms - Z.to_nat current).
Proof.
  intros Hv [H0 Hp] Hle H. unfold apply_pending_migrations in H.
  destruct (apply_loop _ _ _ _ _) as [[[h r] a]|] eqn:E; [|done]. injection H as <- <-.
  apply apply_loop_spec in E as (Hrun & -> & ->). split; [|split; [done|by eapply pending_versions]].
  split; [apply zlen_nonneg|]. unfold versions. simpl. rewrite fmap_app. rewrite <- list_fmap_compose.
  fold (versions db). rewrite Hp.
  replace (Z.to_nat (zlen ms)) with (Z.to_nat current + (length ms - Z.to_nat current))%nat by (unfold zlen in *; lia).
  rewrite zrange_app. apply Permutation_app_head.
  transitivity (m_version <$> pending current ms); [done|]. rewrite (pending_versions _ _ _ Hv) by lia.
  by replace (1 + Z.of_nat (Z.to_nat current)) with (current + 1) by lia.
Qed.

(** ** Properties *)

Definition database_at files (path : string) : option database := files !! path ≫= f_data.

Definition catalog_path (dir name : string) : string := dir +:+ "/" +:+ name.

Lemma open_database_spec files path files1 db :
  open_database empty_rest files path = (files1, db) ->
  database_at files1 path = Some db /\ (forall q, q <> path -> files1 !! q = files !! q) /\
  (reject_unsafe_existing_path files path "catalog database" = Ok tt ->
     exists d, files1 !! path = Some (File true 1 d)) /\
  (match files !! path with Some (File _ _ (Some _)) => true | _ => false end = true -> files1 = files).
Proof.
  unfold open_database, database_at, reject_unsafe_existing_path.
  destruct (files !! path) as [[r l [d|]]|] eqn:E; intros [= <- <-];
    rewrite ?E, ?lookup_insert_eq; cbn [f_regular f_links f_data].
  - split; [done|]. split; [done|]. split; [|done]. intros H%raise_if_ok.
    apply orb_false_iff in H as [H1 H2]. apply negb_false_iff in H1, H2. apply Z.eqb_eq in H2. subst. eauto.
  - split; [done|]. split; [intros q Hq; by rewrite lookup_insert_ne|]. split; [|done].
    intros H%raise_if_ok. apply orb_false_iff in H as [H1 H2]. apply negb_false_iff in H1, H2.
    apply Z.eqb_eq in H2. subst. eauto.
  - split; [done|]. split; [intros q Hq; by rewrite lookup_insert_ne|]. split; [eauto|done].
Qed.

Lemma store_spec files path db q :
  store files path db !! q = if decide (q = path) then
      (fun f => File (f_regular f) (f_links f) (Some db)) <$> files !! path else files !! q.
Proof.
  unfold store. case_decide as Hq; [subst q|].
  - destruct (files !! path) eqn:E; [|done]. by rewrite lookup_insert_eq.
  - destruct (files !! path); [|done]. by rewrite lookup_insert_ne.
Qed.

Lemma backup_database_spec files db dir name bdir c t files2 p :
  backup_database files db dir name bdir c t = Ok (files2, p) ->
  files !! p = None /\ files2 = <[p := File true 1 (Some db)]> files /\ p = backup_path dir name bdir c t.
Proof.
  unfold backup_database. intros H. apply bind_ok in H as (u & _ & H).
  destruct (files !! _) eqn:E; [done|]. by injection H as <- <-.
Qed.

(** What [migrate_catalog] does once the checks of its arguments have passed. *)
Lemma migrate_catalog_cases now files dir name bdir ms files' res :
  migrate_catalog empty_rest now files dir name bdir ms = (files', res) ->
  let path := catalog_path dir name in
  let '(files1, db) := open_database empty_rest files path in
  let current := current_schema_version db in
  (files' = files /\ is_ok res = false) \/
  (validate_migration_sequence ms = Ok tt /\
   reject_unsafe_existing_path files path "catalog database" = Ok tt /\
   ((files' = files1 /\ is_ok res = false) \/
    (ensure_contiguous_history db current = Ok tt /\ current <= zlen ms /\
     ((current = zlen ms /\ files' = files1 /\ res = Ok (MR current [] None true)) \/
      (current < zlen ms /\ exists files2 backup db' r,
         apply_pending_migrations now db current ms = (db', r) /\ files' = store files2 path db' /\
         res = match r with Ok a => Ok (MR (current_schema_version db') a backup true) | Err e => Err (of_apply_error e) end /\
         match backup with
         | None => files2 = files1 /\ database_at files path = None
         | Some p => files1 = files /\ files !! p = None /\ files2 = <[p := File true 1 (Some db)]> files
         end))))).
Proof.
  unfold migrate_catalog. fold (catalog_path dir name). intros H. cbv zeta.
  set (path := catalog_path dir name) in *.
  destruct (open_database empty_rest files path) as [files1 db] eqn:Eo.
  destruct (_ ≫= _) as [u|e] eqn:Ev.
  2: { left. by injection H as <- <-. }
  apply bind_ok in Ev as ([] & Hv & Hr). destruct u. right. split; [done|]. split; [done|].
  pose proof (last_version_spec ms tt Hv) as Hlast. rewrite Hlast in H.
  destruct (Z.ltb_spec (zlen ms) (current_schema_version db)) as [Hlt|Hge].
  { left. by injection H as <- <-. }
  destruct (ensure_contiguous_history db (current_schema_version db)) as [[]|e] eqn:Ec.
  2: { left. by injection H as <- <-. }
  destruct (Z.eqb_spec (current_schema_version db) (zlen ms)) as [He|Hne].
  { right. split; [done|]. split; [lia|]. left. by injection H as <- <-. }
  destruct (open_database_spec _ _ _ _ Eo) as (_ & _ & _ & Hsame).
  destruct (match files !! path with Some (File _ _ (Some _)) => true | _ => false end) eqn:Ee.
  - specialize (Hsame eq_refl). subst files1.
    destruct (backup_database files db dir name bdir (current_schema_version db) (zlen ms)) as [[files2 p]|e] eqn:Eb;
      cbn [mbind result_bind] in H.
    2: { left. by injection H as <- <-. }
    apply backup_database_spec in Eb as (Hp & Hf & _). right. split; [done|]. split; [lia|]. right.
    split; [lia|]. destruct (apply_pending_migrations now db (current_schema_version db) ms) as [db' r] eqn:Ea.
    exists files2, (Some p), db', r. destruct r; injection H as <- <-; done.
  - assert (database_at files path = None) as Hnone.
    { unfold database_at. destruct (files !! path) as [[? ? [d|]]|]; done. }
    right. split; [done|]. split; [lia|]. right. split; [lia|].
    destruct (apply_pending_migrations now db (current_schema_version db) ms) as [db' r] eqn:Ea.
    exists files1, None, db', r. destruct r; injection H as <- <-; done.
Qed.

Lemma apply_pending_error now db current ms db' e :
  apply_pending_migrations now db current ms = (db', Err e) -> db' = db.
Proof.
  unfold apply_pending_migrations. destruct (apply_loop _ _ _ _ _) as [[[h r] a]|]; by intros [= <- _].
Qed.

Lemma store_same files path db : database_at files path = Some db -> store files path db = files.
Proof.
  unfold database_at, store. destruct (files !! path) as [[r l d]|] eqn:E; [|done]. simpl. intros ->.
  by apply insert_id.
Qed.

Lemma migrate_catalog_outcome now files dir name bdir ms files' res :
  let path := catalog_path dir name in
  let db := (open_database empty_rest files path).2 in
  history_checked db ->
  migrate_catalog empty_rest now files dir name bdir ms = (files', res) ->
  match res with
  | Ok r => exists db', database_at files' path = Some db' /\ history_complete db' (zlen ms) /\
      run_all (pending (current_schema_version db) ms) (db_rest db) = Ok (db_rest db') /\
      mr_current r = zlen ms /\
      mr_applied r = zrange (current_schema_version db + 1) (length ms - Z.to_nat (current_schema_version db)) /\
      match mr_backup r with
      | Some b => files !! b = None /\ database_at files' b = Some db
      | None => mr_applied r = [] \/ database_at files path = None
      end
  | Err _ => files' = files \/ database_at files' path = Some db
  end /\
  forall q, q <> path -> files !! q <> None -> files' !! q = files !! q.
Proof.
  cbv zeta. set (path := catalog_path dir name). intros Hch H. apply migrate_catalog_cases in H. cbv zeta in H. fold path in H.
  destruct (open_database empty_rest files path) as [files1 db] eqn:Eo. simpl in Hch |- *.
  destruct (open_database_spec _ _ _ _ Eo) as (Hdb & Hother & Hreg & _).
  destruct H as [[-> Hres]|(Hv & Hr & [[-> Hres]|(Hc & Hle & H)])].
  - destruct res; [done|]. split; [by left|done].
  - destruct res; [done|]. split; [by right|]. intros q Hq _. by apply Hother.
  - apply contiguous_complete in Hc as Hcomp; [|done].
    destruct H as [(He & -> & ->)|(Hlt & files2 & backup & db' & r & Ha & -> & -> & Hb)].
    + split; [|intros q Hq _; by apply Hother]. exists db. rewrite <- He. split; [done|]. split; [done|].
      unfold pending. cbn [mr_current mr_applied mr_backup].
      rewrite filter_b_none.
      * split; [done|]. split; [done|]. split; [|by left].
        rewrite He. replace (length ms - Z.to_nat (zlen ms))%nat with O by (unfold zlen; lia). done.
      * intros m Hm. apply Z.ltb_ge. rewrite He. apply (list_elem_of_fmap_2 m_version) in Hm.
        rewrite (validate_from_spec _ _ _ Hv) in Hm. apply elem_of_zrange in Hm. unfold zlen. lia.
    + assert (database_at files2 path = Some db /\ forall q, q <> path -> files !! q <> None -> files2 !! q = files !! q) as [Hdb2 Hother2].
      { destruct backup as [p|]; [|destruct Hb as [-> _]; split; [done|]; intros q Hq _; by apply Hother].
        destruct Hb as (-> & Hp & ->). assert (p <> path) as Hpp by (intros ->; unfold database_at in Hdb; by rewrite Hp in Hdb).
        split; [unfold database_at in *; by rewrite lookup_insert_ne|]. intros q Hq Hq'. rewrite lookup_insert_ne; [done|]. by intros ->. }
      split.
      2: { intros q Hq Hq'. rewrite store_spec. case_decide; [done|]. by apply Hother2. }
      destruct r as [a|e].
      * destruct (apply_pending_complete _ _ _ _ _ _ _ Hv Hcomp Hle Ha) as (Hcomp' & Hrun & ->).
        exists db'. split.
        { unfold database_at in *. rewrite store_spec, decide_True by done. by destruct (files2 !! path). }
        split; [done|]. split; [done|]. split; [by apply complete_current|]. split; [done|]. cbn [mr_backup].
        destruct backup as [p|]; [|right; by apply Hb]. destruct Hb as (-> & Hp & ->). split; [done|].
        assert (p <> path) as Hpp by (intros ->; unfold database_at in Hdb; by rewrite Hp in Hdb).
        unfold database_at. rewrite store_spec, decide_False, lookup_insert_eq by done. done.
      * right. apply apply_pending_error in Ha as ->. by rewrite store_same.
Qed.

(** C39. A migration completes the catalog or leaves it alone.  On success the version history
    is exactly 1 to the last version, the rest of the database is the result of the pending
    migrations run in order, their versions are the ones reported, and the reported backup
    holds the old database under a path that did not exist before; there is no backup only when
    nothing was pending or there was no database before.  On any failure, in a
    check, in a migration or in recording its version, the database is the one from before.
    No other existing file changes. *)
Theorem migrate_catalog_safe now files dir name bdir ms files' res :
  let path := catalog_path dir name in
  let db := (open_database empty_rest files path).2 in
  history_checked db ->
  migrate_catalog empty_rest now files dir name bdir ms = (files', res) ->
  match res with
  | Ok r => exists db', database_at files' path = Some db' /\ history_complete db' (zlen ms) /\
      run_all (pending (current_schema_version db) ms) (db_rest db) = Ok (db_rest db') /\
      mr_current r = zlen ms /\
      mr_applied r = zrange (current_schema_version db + 1) (length ms - Z.to_nat (current_schema_version db)) /\
      match mr_backup r with
      | Some b => files !! b = None /\ database_at files' b = Some db
      | None => mr_applied r = [] \/ database_at files path = None
      end
  | Err _ => files' = files \/ database_at files' path = Some db
  end /\
  forall q, q <> path -> files !! q <> None -> files' !! q = files !! q.
Proof. exact (migrate_catalog_outcome now files dir name bdir ms files' res). Qed.

(** Migrating is idempotent and makes the workers ready.  After a successful run a second
    one, at any time and for the same migrations, applies nothing, takes no backup and
    changes no file; and the workers may start exactly when the migrations are those of the
    supported schema version. *)
Theorem migrate_catalog_idempotent now now' files dir name bdir bdir' ms files' r :
  history_checked (open_database empty_rest files (catalog_path dir name)).2 ->
  migrate_catalog empty_rest now files dir name bdir ms = (files', Ok r) ->
  migrate_catalog empty_rest now' files' dir name bdir' ms = (files', Ok (MR (zlen ms) [] None true)) /\
  ready_for_workers empty_rest files' (catalog_path dir name) = (zlen ms =? CURRENT_SCHEMA_VERSION).
Proof.
  intros Hch H. destruct (migrate_catalog_outcome _ _ _ _ _ _ _ _ Hch H) as [(db' & Hdb & Hcomp & _) _].
  apply migrate_catalog_cases in H. cbv zeta in H. set (path := catalog_path dir name) in *.
  destruct (open_database empty_rest files path) as [files1 db] eqn:Eo.
  destruct (open_database_spec _ _ _ _ Eo) as (_ & _ & Hreg & _).
  destruct H as [[_ [=]]|(Hv & Hr & [[_ [=]]|(_ & _ & H)])].
  assert (exists d, files' !! path = Some (File true 1 d)) as [d Hf].
  { destruct (Hreg Hr) as [d Hd]. destruct H as [(_ & -> & _)|(_ & files2 & backup & db1 & r1 & _ & -> & _ & Hb)]; [eauto|].
    rewrite store_spec, decide_True by done.
    assert (files2 !! path = Some (File true 1 d)) as ->; [|by eexists].
    destruct backup as [p|]; [|by destruct Hb as [-> _]]. destruct Hb as (-> & Hp & ->). rewrite lookup_insert_ne; [done|]. congruence. }
  unfold database_at in Hdb. rewrite Hf in Hdb. simpl in Hdb. subst d.
  assert (open_database empty_rest files' path = (files', db')) as Hopen by (unfold open_database; by rewrite Hf).
  pose proof (complete_current _ _ Hcomp) as Hcur. pose proof (complete_contiguous _ _ Hcomp) as Hcont. split.
  - unfold migrate_catalog. fold (catalog_path dir name). fold path. rewrite Hv. cbn [mbind result_bind].
    unfold reject_unsafe_existing_path. rewrite Hf. cbn [f_regular f_links]. simpl raise_if. cbv iota.
    cbn [f_data]. rewrite Hopen, Hcur, (last_version_spec ms tt Hv), Z.ltb_irrefl, Hcont, Z.eqb_refl. done.
  - unfold ready_for_workers. rewrite Hf, Hopen. cbn [snd]. by rewrite Hcur, Hcont.
Qed.

(** A failed upgrade blocks the next one.  When a migration of an existing catalog fails
    after the backup was taken, the backup stays, and every later upgrade between the same
    versions is refused because of it, even with migrations that would succeed. *)
Theorem failed_migration_blocks_retry now now' files dir name bdir ms ms' db files' e :
  let path := catalog_path dir name in
  files !! path = Some (File true 1 (Some db)) -> history_checked db ->
  migrate_catalog empty_rest now files dir name bdir ms = (files', Err e) -> files' <> files ->
  validate_migration_sequence ms' = Ok tt -> length ms' = length ms ->
  migrate_catalog empty_rest now' files' dir name bdir ms' = (files', Err (MigrationError "catalog backup already exists")).
Proof.
  cbv zeta. set (path := catalog_path dir name). intros Hf Hch H Hne Hv' Hlen.
  unfold migrate_catalog in H. fold (catalog_path dir name) in H. fold path in H.
  assert (reject_unsafe_existing_path files path "catalog database" = Ok tt) as Hr
    by (unfold reject_unsafe_existing_path; by rewrite Hf).
  assert (open_database empty_rest files path = (files, db)) as Ho by (unfold open_database; by rewrite Hf).
  rewrite Hr, Ho, Hf in H.
  destruct (validate_migration_sequence ms) as [u|] eqn:Hv; cbn [mbind result_bind] in H; [|by injection H as <- _].
  destruct (Z.ltb_spec (last_version ms) (current_schema_version db)) as [|Hge]; [by injection H as <- _|].
  destruct (ensure_contiguous_history db (current_schema_version db)) as [[]|] eqn:Hc; [|by injection H as <- _].
  destruct (Z.eqb_spec (current_schema_version db) (last_version ms)) as [|Hneq]; [done|].
  unfold backup_database in H. cbv zeta in H.
  set (p := backup_path dir name bdir (current_schema_version db) (last_version ms)) in *.
  destruct (reject_unsafe_existing_path files p "catalog backup") as [[]|] eqn:Hrp; cbn [mbind result_bind] in H; [|by injection H as <- _].
  destruct (files !! p) as [f|] eqn:Hp; cbn [mbind result_bind] in H; [by injection H as <- _|].
  destruct (apply_pending_migrations now db (current_schema_version db) ms) as [db' [a|e']] eqn:Ha; [done|].
  injection H as <- <-. apply apply_pending_error in Ha as ->.
  assert (p <> path) as Hpp by congruence.
  assert (store (<[p:=File true 1 (Some db)]> files) path db = <[p:=File true 1 (Some db)]> files) as Hst.
  { apply store_same. unfold database_at. rewrite lookup_insert_ne, Hf by done. done. }
  rewrite Hst. unfold migrate_catalog. fold (catalog_path dir name). fold path. rewrite Hv'. cbn [mbind result_bind].
  assert (<[p:=File true 1 (Some db)]> files !! path = Some (File true 1 (Some db))) as Hf' by (by rewrite lookup_insert_ne).
  unfold reject_unsafe_existing_path at 1. rewrite Hf'. cbn [f_regular f_links]. simpl raise_if. cbv iota.
  unfold open_database. rewrite Hf'.
  assert (last_version ms' = last_version ms) as Hlast.
  { rewrite (last_version_spec ms' tt Hv'), (last_version_spec ms u Hv). unfold zlen. by rewrite Hlen. }
  rewrite Hlast, Hc. destruct (Z.ltb_spec (last_version ms) (current_schema_version db)); [lia|].
  destruct (Z.eqb_spec (current_schema_version db) (last_version ms)); [done|].
  unfold backup_database. cbv zeta. fold p. unfold reject_unsafe_existing_path.
  rewrite lookup_insert_eq. done.
Qed.
End runner_proofs.

(** ** The migration that numbers the events *)

(** A row of the events table before version 4. *)
Record event_v3 := E3 {
  v3_id : string;
  v3_case : option string;
  v3_job : option string;
  v3_type : string;
  v3_payload : string;
  v3_published : option string;
  v3_created : string
}.

(** The events table: missing, without and with the column [sequence]. *)
Inductive events_table :=
  | NoEvents
  | Unsequenced (rows : list event_v3)
  | Sequenced (rows : list (event_v3 * Z)).

(** [COALESCE(case_id, event_id)]. *)
Definition partition_key (e : event_v3) : string := default (v3_id e) (v3_case e).

Definition count_key (k : string) (seen : list string) : Z := zlen (filter_b (String.eqb k) seen).

(** [ROW_NUMBER() OVER (PARTITION BY ...)] along rows in the order of the window. *)
Fixpoint number_rows (seen : list string) (rows : list event_v3) : list (event_v3 * Z) :=
  match rows with
  | [] => []
  | e :: rows => (e, 1 + count_key (partition_key e) seen) :: number_rows (partition_key e :: seen) rows
  end.

(** migrations/runner.py:141-163 _add_event_sequences *)
Definition add_event_sequences (t : events_table) : events_table :=
  match t with
  | NoEvents => Sequenced []
  | Sequenced rows => Sequenced rows
  | Unsequenced rows => Sequenced (number_rows [] (order_by_cols (fun e => (v3_created e, v3_id e)) rows))
  end.

(** The rows of cases, as the outbox reads them. *)
Definition case_event (r : event_v3 * Z) : list event :=
  let '(e, n) := r in
  match v3_case e with
  | Some c => [Ev (v3_id e) c n (v3_job e) (v3_type e) (v3_payload e) (v3_published e) (v3_created e)]
  | None => []
  end.
Definition outbox_rows (rows : list (event_v3 * Z)) : list event := concat (case_event <$> rows).

Lemma number_rows_fst seen rows : (number_rows seen rows).*1 = rows.
Proof. revert seen. induction rows as [|e rows IH]; intros seen; [done|]. cbn [number_rows]. rewrite fmap_cons, IH. done. Qed.

Lemma count_key_cons k x seen : count_key k (x :: seen) = (if String.eqb k x then 1 else 0) + count_key k seen.
Proof.
  unfold count_key, filter_b. simpl. destruct (String.eqb k x); [|done]. rewrite zlen_cons. lia.
Qed.

Lemma outbox_rows_cons r rows : outbox_rows (r :: rows) = (case_event r ++ outbox_rows rows)%list.
Proof. done. Qed.

Lemma number_rows_above seen rows k :
  k ∈ outbox_rows (number_rows seen rows) -> 1 + count_key (ev_case k) seen <= ev_seq k.
Proof.
  revert seen. induction rows as [|e rows IH]; intros seen; cbn [number_rows].
  - by intros ?%elem_of_nil.
  - rewrite outbox_rows_cons, elem_of_app. intros [Hk|Hk].
    + unfold case_event in Hk. unfold partition_key in Hk. destruct (v3_case e) as [c|]; [|by apply elem_of_nil in Hk].
      apply list_elem_of_singleton in Hk as ->. simpl. lia.
    + apply IH in Hk. rewrite count_key_cons in Hk. destruct (String.eqb _ _); lia.
Qed.

Lemma outbox_ids rows :
  ev_id <$> outbox_rows rows `sublist_of` v3_id <$> rows.*1.
Proof.
  induction rows as [|[e n] rows IH]; [done|]. rewrite outbox_rows_cons, fmap_app, !fmap_cons. simpl.
  destruct (v3_case e); simpl; [by apply sublist_skip|by apply sublist_cons].
Qed.

Lemma number_rows_sorted seen rows : StronglySorted seq_before (outbox_rows (number_rows seen rows)).
Proof.
  revert seen. induction rows as [|e rows IH]; intros seen; [constructor|]. cbn [number_rows].
  rewrite outbox_rows_cons. unfold case_event at 1, partition_key at 1. destruct (v3_case e) as [c|] eqn:Ec; [|apply IH].
  simpl. constructor; [apply IH|]. apply Forall_forall. intros k Hk. unfold seq_before. simpl. intros Hc.
  apply number_rows_above in Hk. rewrite count_key_cons, <- Hc in Hk. unfold partition_key in Hk.
  rewrite Ec in Hk. simpl in Hk. rewrite String.eqb_refl in Hk. lia.
Qed.

Lemma number_rows_gapless c seen rows :
  (forall e, e ∈ rows -> v3_case e = None -> v3_id e <> c) ->
  let l := filter_b (in_case c) (outbox_rows (number_rows seen rows)) in
  ev_seq <$> l = zrange (1 + count_key c seen) (length l).
Proof.
  intros Hno. cbv zeta. revert seen Hno. induction rows as [|e rows IH]; intros seen Hno; [done|].
  cbn [number_rows]. rewrite outbox_rows_cons, filter_b_app.
  assert (forall f, f ∈ rows -> v3_case f = None -> v3_id f <> c) as Hno' by (intros f Hf; apply Hno; by right).
  specialize (IH (partition_key e :: seen) Hno'). rewrite count_key_cons in IH.
  unfold case_event, partition_key in *. destruct (v3_case e) as [k|] eqn:Ek; simpl in *.
  - unfold in_case at 1 3. cbn [ev_case]. rewrite String.eqb_sym.
    destruct (String.eqb_spec c k) as [->|Hne]; cbn [app length].
    + rewrite fmap_cons. cbn [ev_seq zrange]. f_equal. rewrite IH. f_equal. lia.
    + exact IH.
  - assert (v3_id e <> c) as Hne by (apply Hno; [left|done]).
    destruct (String.eqb_spec c (v3_id e)) as [->|_]; [done|]. rewrite IH. done.
Qed.

(** The numbering establishes the invariants of the outbox.  From a table with unique
    identifiers the migration keeps every row and numbers the events so that within each case
    the sequences increase in the stored order, which is that of time; when no event without a
    case is named like a case, the sequences of each case are 1, 2, 3 and so on, so the next
    appended event continues them.  Running it again changes nothing. *)
Theorem add_event_sequences_wf rows :
  NoDup (v3_id <$> rows) ->
  exists rows', add_event_sequences (Unsequenced rows) = Sequenced rows' /\
    add_event_sequences (Sequenced rows') = Sequenced rows' /\ rows'.*1 ≡ₚ rows /\
    StronglySorted (fun e f => cols_le (v3_created e, v3_id e) (v3_created f, v3_id f) = true) rows'.*1 /\
    events_wf (outbox_rows rows') /\
    ((forall e f, e ∈ rows -> f ∈ rows -> v3_case e = None -> v3_case f <> Some (v3_id e)) ->
       gapless (outbox_rows rows') /\
       forall c, next_sequence (outbox_rows rows') c = Z.of_nat (length (filter_b (in_case c) (outbox_rows rows'))) + 1).
Proof.
  intros Hnd. set (sorted := order_by_cols (fun e => (v3_created e, v3_id e)) rows).
  assert (sorted ≡ₚ rows) as Hp by apply order_by_cols_perm.
  exists (number_rows [] sorted). split; [done|]. split; [done|]. rewrite number_rows_fst.
  split; [done|]. split; [exact (order_by_cols_sorted (fun e => (v3_created e, v3_id e)) rows)|]. split.
  - split; [|split].
    + eapply sublist_NoDup; [|apply outbox_ids]. rewrite number_rows_fst. by rewrite Hp.
    + apply number_rows_sorted.
    + apply Forall_forall. intros k Hk%number_rows_above. change (count_key (ev_case k) []) with 0 in Hk. lia.
  - intros Hno. assert (gapless (outbox_rows (number_rows [] sorted))) as Hg.
    { intros c. cbv zeta. destruct (decide (Exists (fun e => v3_case e = Some c) rows)) as [He|He].
      - apply Exists_exists in He as (f & Hf & Hc). apply number_rows_gapless. intros e He Hn Hid.
        rewrite Hp in He. apply (Hno e f He Hf Hn). by rewrite Hid.
      - assert (filter_b (in_case c) (outbox_rows (number_rows [] sorted)) = []) as ->; [|done].
        apply filter_b_none. intros k Hk. unfold in_case. apply String.eqb_neq. intros Hc. destruct He.
        unfold outbox_rows in Hk. apply elem_of_concat in Hk as (l & Hl & ([e n] & -> & He)%list_elem_of_fmap).
        unfold case_event in Hl. destruct (v3_case e) as [c'|] eqn:Ec; [|by apply elem_of_nil in Hl].
        apply list_elem_of_singleton in Hl as ->. simpl in Hc. subst c'. apply Exists_exists. exists e. split; [|done].
        rewrite <- Hp, <- (number_rows_fst [] sorted). by apply (list_elem_of_fmap_2 fst) in He. }
    split; [done|]. intros c. by apply gapless_next.
Qed.

(** ** Witnesses *)

(** Databases whose rest is the list of tables. *)
Definition create_table (t : string) (tables : list string) : result apply_error (list string) := Ok (tables ++ [t])%list.
Definition demo_migrations : list (@Migration (list string)) :=
  [Mig 1 "initial" (create_table "jobs"); Mig 2 "checkpoints" (create_table "checkpoints");
   Mig 3 "events" (create_table "events")].
Definition failing_migrations : list (@Migration (list string)) :=
  [Mig 1 "initial" (create_table "jobs"); Mig 2 "checkpoints" (create_table "checkpoints");
   Mig 3 "events" (fun _ => Err (SqliteError "no such table: events"))].
Definition demo_now : string := "2026-01-01T00:00:00Z".

(** A catalog at version 1. *)
Definition demo_database : @database (list string) := DB (Some [VR 1 "initial" demo_now]) ["jobs"].
Definition demo_files : gmap string (@file (list string)) :=
  {["/data/catalog.db" := File true 1 (Some demo_database)]}.

Lemma demo_checked : history_checked demo_database.
Proof. repeat constructor. Qed.

Definition demo_upgrade := migrate_catalog ([] : list string) demo_now demo_files "/data" "catalog.db" None demo_migrations.
Definition demo_failure := migrate_catalog ([] : list string) demo_now demo_files "/data" "catalog.db" None failing_migrations.

Lemma migrate_catalog_safe_witness :
  exists db', database_at (fst demo_upgrade) "/data/catalog.db" = Some db' /\ history_complete db' 3 /\
    db_rest db' = ["jobs"; "checkpoints"; "events"].
Proof.
  destruct (migrate_catalog_safe ([] : list string) demo_now demo_files "/data" "catalog.db" None demo_migrations
    (fst demo_upgrade) (Ok (MR 3 [2; 3] (Some "/data/backups/catalog.db.v1-to-v3.bak") true)) demo_checked
    ltac:(by vm_compute)) as [(db' & Hd & Hh & Hr & _) _].
  exists db'. split; [exact Hd|]. split; [exact Hh|]. injection Hr as Hr. by rewrite <- Hr.
Defined.

Lemma migrate_catalog_idempotent_witness :
  migrate_catalog ([] : list string) demo_now (fst demo_upgrade) "/data" "catalog.db" None demo_migrations
  = (fst demo_upgrade, Ok (MR 3 [] None true)).
Proof.
  apply (migrate_catalog_idempotent ([] : list string) demo_now demo_now demo_files "/data" "catalog.db" None None
    demo_migrations (fst demo_upgrade) (MR 3 [2; 3] (Some "/data/backups/catalog.db.v1-to-v3.bak") true) demo_checked).
  by vm_compute.
Defined.

Lemma failed_migration_blocks_retry_witness :
  migrate_catalog ([] : list string) demo_now (fst demo_failure) "/data" "catalog.db" None demo_migrations
  = (fst demo_failure, Err (MigrationError "catalog backup already exists")).
Proof.
  apply (failed_migration_blocks_retry ([] : list string) demo_now demo_now demo_files "/data" "catalog.db" None
    failing_migrations demo_migrations demo_database (fst demo_failure) (MigrationError "no such table: events")).
  - by vm_compute.
  - exact demo_checked.
  - by vm_compute.
  - intros H. apply (f_equal (fun m => bool_decide (m !! "/data/backups/catalog.db.v1-to-v3.bak" = None))) in H.
    by vm_compute in H.
  - by vm_compute.
  - reflexivity.
Defined.

Definition demo_v3 : list event_v3 :=
  [E3 "e2" (Some "case_1") None "scan.done" "{}" None "2026-01-02T00:00:00Z";
   E3 "e1" (Some "case_1") None "scan.start" "{}" None "2026-01-01T00:00:00Z";
   E3 "e3" None None "system" "{}" None "2026-01-01T00:00:00Z"].

Lemma add_event_sequences_wf_witness :
  exists rows', add_event_sequences (Unsequenced demo_v3) = Sequenced rows' /\ gapless (outbox_rows rows') /\
    ((fun e => (ev_id e, ev_seq e)) <$> outbox_rows rows') = [("e1", 1); ("e2", 2)].
Proof.
  destruct (add_event_sequences_wf demo_v3) as (rows' & Hr & _ & _ & _ & _ & Hg).
  - by apply (bool_decide_unpack (NoDup ["e2"; "e1"; "e3"])).
  - exists rows'. split; [exact Hr|]. split.
    + apply Hg. intros e f He Hf Hn Hc. unfold demo_v3 in He, Hf. rewrite !elem_of_cons, elem_of_nil in He.
      rewrite !elem_of_cons, elem_of_nil in Hf. naive_solver.
    + assert (add_event_sequences (Unsequenced demo_v3) = Sequenced
        [(E3 "e1" (Some "case_1") None "scan.start" "{}" None "2026-01-01T00:00:00Z", 1);
         (E3 "e3" None None "system" "{}" None "2026-01-01T00:00:00Z", 1);
         (E3 "e2" (Some "case_1") None "scan.done" "{}" None "2026-01-02T00:00:00Z", 2)]) as H by (by vm_compute).
      rewrite Hr in H. injection H as ->. reflexivity.
Defined.

(** An event without a case that is named like a case shares its numbering: the sequences of
    that case then have a gap. *)
Example case_named_event_makes_gap :
  match add_event_sequences (Unsequenced [E3 "case_1" None None "system" "{}" None "2026-01-01T00:00:00Z";
      E3 "e1" (Some "case_1") None "scan.start" "{}" None "2026-01-02T00:00:00Z"]) with
  | Sequenced rows => ev_seq <$> outbox_rows rows = [2]
  | _ => False
  end.
Proof. by vm_compute. Qed.
