(* ===== verification/Paths.v ===== *)
(** * Pure paths

    The part of pathlib the sources use on texts: parsing, printing, parents and names.  Nothing
    here touches a file system. *)

From Stdlib Require Import ZArith Lia String Ascii.
From stdpp Require Import base list strings gmap sorting.
From S2P Require Import Prelude PyStr.

Local Open Scope string_scope.
Local Open Scope Z_scope.

(** A [PurePosixPath]: its root (empty, one slash, or two) and its components. *)
Record pypath := PyPath { p_root : string; p_parts : list string }.

#[global] Instance pypath_eq_dec : EqDecision pypath.
Proof. solve_decision. Defined.

Definition plain_part (s : string) : bool := negb (String.eqb s "") && negb (String.eqb s ".").

(** [Path(s)]. *)
Definition parse_path (s : string) : pypath :=
  PyPath (if negb (starts_with "/" s) then ""
          else if starts_with "//" s && negb (starts_with "///" s) then "//" else "/")
         (filter_b plain_part (split_on "/"%char s)).

(** [str(p)]. *)
Definition path_str (p : pypath) : string :=
  let s := p_root p +:+ join "/" (p_parts p) in if String.eqb s "" then "." else s.

(** [p.is_absolute()], [p.name], [p / part], [d in p.parents]. *)
Definition is_absolute (p : pypath) : bool := negb (String.eqb (p_root p) "").
Definition path_name_of (p : pypath) : string := default "" (last (p_parts p)).
Definition path_join (p : pypath) (part : string) : pypath := PyPath (p_root p) (p_parts p ++ [part])%list.
Definition path_parent (p : pypath) : pypath := PyPath (p_root p) (removelast (p_parts p)).
Definition in_parents (d p : pypath) : bool :=
  String.eqb (p_root d) (p_root p) && bool_decide (take (length (p_parts d)) (p_parts p) = p_parts d)
  && (length (p_parts d) <? length (p_parts p))%nat.

(** The components [p.parts] has below the root. *)
Definition has_part (names : list string) (p : pypath) : bool := existsb (fun n => bool_decide (n ∈ names)) (p_parts p).

Definition DEV : pypath := PyPath "/" ["dev"].

Example parse_path_examples :
  parse_path "/dev/./sda//x/" = PyPath "/" ["dev"; "sda"; "x"] /\ parse_path "//a" = PyPath "//" ["a"] /\
  parse_path "///a/.." = PyPath "/" ["a"; ".."] /\ path_str (parse_path "") = "." /\
  in_parents DEV (parse_path "/dev/sda") = true /\ in_parents DEV DEV = false.
Proof. by vm_compute. Qed.

(** ** Printing and parsing *)

(** A path as [parse_path] makes it. *)
Definition wf_part (s : string) : Prop := s <> "" /\ s <> "." /\ "/"%char ∉ chars s.
Definition wf_path (p : pypath) : Prop :=
  p_root p ∈ [""; "/"; "//"] /\ Forall wf_part (p_parts p).

Lemma split_chars_no_sep (p : ascii -> bool) cur l s :
  Forall (fun c => p c = false) cur -> s ∈ split_chars p cur l -> Forall (fun c => p c = false) (chars s).
Proof.
  revert cur. induction l as [|c l IH]; intros cur Hc; simpl.
  - rewrite list_elem_of_singleton. intros ->. rewrite chars_of_chars. by apply Forall_reverse.
  - destruct (p c) eqn:E; [|apply IH; by constructor].
    intros [->|Hs]%elem_of_cons; [rewrite chars_of_chars; by apply Forall_reverse|]. by apply (IH []).
Qed.

Lemma wf_parse_path s : wf_path (parse_path s).
Proof.
  split; unfold parse_path; simpl.
  - repeat case_match; repeat first [left|right].
  - apply Forall_forall. intros x [Hx Hp]%elem_of_filter_b. unfold plain_part in Hp.
    apply andb_true_iff in Hp as [H1%negb_true_iff%String.eqb_neq H2%negb_true_iff%String.eqb_neq].
    split_and!; [done..|]. unfold split_on in Hx. apply split_chars_no_sep in Hx; [|constructor].
    rewrite Forall_forall in Hx. intros Hin. by apply Hx in Hin.
Qed.

Lemma split_chars_app (p : ascii -> bool) cur a c b :
  Forall (fun x => p x = false) a -> p c = true ->
  split_chars p cur (a ++ c :: b) = of_chars (reverse cur ++ a) :: split_chars p [] b.
Proof.
  intros Ha Hc. revert cur. induction Ha as [|x a Hx _ IH]; intros cur; simpl.
  - by rewrite Hc, app_nil_r.
  - rewrite Hx, IH. by rewrite reverse_cons, <- app_assoc.
Qed.

Lemma split_chars_end (p : ascii -> bool) cur a :
  Forall (fun x => p x = false) a -> split_chars p cur a = [of_chars (reverse cur ++ a)].
Proof.
  intros Ha. revert cur. induction Ha as [|x a Hx _ IH]; intros cur; simpl; [by rewrite app_nil_r|].
  rewrite Hx, IH. by rewrite reverse_cons, <- app_assoc.
Qed.

Lemma no_slash s : "/"%char ∉ chars s -> Forall (fun c => Ascii.eqb "/"%char c = false) (chars s).
Proof. intros H. apply Forall_forall. intros c Hc. apply Ascii.eqb_neq. by intros <-. Qed.

(** The components of a joined text. *)
Lemma split_on_join l :
  Forall wf_part l -> filter_b plain_part (split_on "/"%char (join "/" l)) = l.
Proof.
  intros Hl. unfold split_on, join. induction Hl as [|s l Hs Hl IH]; [done|].
  assert (Hp : plain_part s = true).
  { destruct Hs as (H1 & H2 & _). unfold plain_part. apply andb_true_iff. by rewrite !negb_true_iff, !String.eqb_neq. }
  destruct l as [|t l].
  - cbn [String.concat]. rewrite split_chars_end by by apply no_slash, Hs. simpl.
    rewrite of_chars_chars. unfold filter_b. simpl. by rewrite Hp.
  - cbn [String.concat]. rewrite !chars_app. cbn [list_ascii_of_string app].
    rewrite split_chars_app by (try apply no_slash, Hs; done). simpl.
    rewrite of_chars_chars. unfold filter_b in *. simpl. rewrite Hp. f_equal. exact IH.
Qed.

Lemma starts_with_empty s : starts_with "" s = true.
Proof. by destruct s. Qed.

Lemma join_no_lead l : Forall wf_part l -> starts_with "/" (join "/" l) = false.
Proof.
  intros Hl. destruct Hl as [|s l (Hs & _ & Hn) _]; [done|].
  destruct s as [|c s]; [done|]. apply not_true_iff_false. unfold join. intros E.
  assert (exists r, String.concat "/" (String c s :: l) = String c r) as [r Er].
  { destruct l; [by exists s|]. simpl. eauto. }
  rewrite Er in E. rewrite starts_with_cons_eq in E. apply andb_true_iff in E as [<-%Ascii.eqb_eq _]. apply Hn. left.
Qed.

(** Printing a path and parsing it back. *)
Lemma parse_path_str p : wf_path p -> is_absolute p = true -> parse_path (path_str p) = p.
Proof.
  intros [Hr Hp] Ha. destruct p as [root parts]. unfold is_absolute in Ha. simpl in *.
  pose proof (split_on_join parts Hp) as Hj. pose proof (join_no_lead parts Hp) as Hl.
  assert (root = "/" \/ root = "//") as [->| ->].
  { repeat (apply elem_of_cons in Hr as [->|Hr]; [auto|]); [done|by apply elem_of_nil in Hr]. }
  - unfold path_str, parse_path. cbn [p_root p_parts].
    change ("/" +:+ join "/" parts) with (String "/" (join "/" parts)). cbn [String.eqb].
    f_equal.
    + rewrite !starts_with_cons_eq. simpl. rewrite Hl, starts_with_empty. done.
    + exact Hj.
  - unfold path_str, parse_path. cbn [p_root p_parts].
    change ("//" +:+ join "/" parts) with (String "/" (String "/" (join "/" parts))). cbn [String.eqb].
    f_equal.
    + rewrite !starts_with_cons_eq. simpl. rewrite Hl, starts_with_empty. done.
    + exact Hj.
Qed.

#[global] Instance pypath_countable : Countable pypath.
Proof.
  refine (inj_countable' (fun p => (p_root p, p_parts p)) (fun '(r, l) => PyPath r l) _). by intros [].
Defined.

(** [p.stem] and [p.with_suffix(suffix)]: the name up to its last inner dot. *)
Definition name_stem (name : string) : string :=
  match split_at_char "."%char (reverse (chars name)) with
  | Some (suffix, stem) =>
    if bool_decide (suffix = []) || bool_decide (stem = []) then name else of_chars (reverse stem)
  | None => name
  end.
Definition with_suffix (p : pypath) (suffix : string) : pypath :=
  path_join (path_parent p) (name_stem (path_name_of p) +:+ suffix).

Example name_stem_examples :
  name_stem "photorec-ab.ses" = "photorec-ab" /\ name_stem ".x" = ".x" /\ name_stem "x." = "x." /\ name_stem "x" = "x".
Proof. by vm_compute. Qed.

Lemma path_parent_join p x : path_parent (path_join p x) = p.
Proof. destruct p. unfold path_parent, path_join. simpl. by rewrite List.removelast_last. Qed.

Lemma path_name_join p x : path_name_of (path_join p x) = x.
Proof. unfold path_name_of, path_join. simpl. by rewrite last_snoc. Qed.

Lemma path_join_ne p x : path_join p x <> p.
Proof.
  destruct p as [r l]. unfold path_join. simpl. intros [= E]. apply (f_equal length) in E.
  rewrite length_app in E. simpl in E. lia.
Qed.

Lemma path_join_inj p x y : path_join p x = path_join p y -> x = y.
Proof. unfold path_join. by intros [= [= ->]%app_inv_head]. Qed.
