(* ===== verification/Devices.v ===== *)
(** * Block device facts (src/hostd)

    What the storage inspection, the separation check and the read-only preparation share: the
    device numbers the kernel writes as major:minor, the numbers of a source and its children,
    path normalisation, and the worklist that closes a set under a relation, with the theorem
    that it terminates with exactly the reachable elements.

    A device is a parsed mapping.  The iteration order of a Python set is not specified: where
    the code turns a set into a list the model applies an unknown permutation [order]. *)

From Stdlib Require Import ZArith Lia String Ascii Decimal DecimalN.
From stdpp Require Import base list strings gmap sorting relations.
From S2P Require Import Prelude PyStr Json Identifiers.

Local Open Scope string_scope.
Local Open Scope Z_scope.

(** ** Device numbers *)

(** The pattern of a decimal number without leading zeros. *)
Definition canonical_nat (l : list ascii) : bool :=
  match l with
  | [] => false
  | c :: r => if Ascii.eqb c "0"%char then bool_decide (r = []) else forallb is_digit (c :: r)
  end.

(** hostd/storage_inspection.py:377-378 _valid_major_minor: the pattern of line 14.  The modules
    destination_separation and read_only hold the same function and pattern. *)
Definition valid_major_minor (s : string) : bool :=
  match split_at_char ":"%char (chars s) with
  | Some (a, b) => canonical_nat a && canonical_nat b
  | None => false
  end.

(** hostd/storage_inspection.py:381-383 _major_minor_key: on a valid number. *)
Definition major_minor_key (s : string) : Z * Z :=
  match partition_char ":"%char s with
  | Some (a, b) => (default 0 (Z_of_digits a), default 0 (Z_of_digits b))
  | None => (0, 0)
  end.

(** The text of a device number. *)
Definition device_number (major minor : Z) : string := str_of_Z major +:+ ":" +:+ str_of_Z minor.

(** ** Mappings *)

Definition get_value (d : list (string * value)) (k : string) : value := default VNone (dict_get d k).

Definition valid_number_of (v : value) : list string :=
  match v with VStr s => if valid_major_minor s then [s] else [] | _ => [] end.

Definition children_of (d : list (string * value)) : list (list (string * value)) :=
  match get_value d "children" with
  | VList l => omap (fun v => match v with VDict c => Some c | _ => None end) l
  | _ => []
  end.

(** hostd/storage_inspection.py:181-193 _source_major_minors: the set, in order of insertion.
    destination_separation.py holds the same function. *)
Definition source_major_minors (device : list (string * value)) : list string :=
  dedup (valid_number_of (get_value device "major_minor") ++
         concat ((fun c => valid_number_of (get_value c "major_minor")) <$> children_of device))%list.

(** The order of two device numbers, as the tuples of their parts compare. *)
Definition number_le (a b : string) : Prop :=
  let (m, n) := major_minor_key a in let (p, q) := major_minor_key b in
  m < p \/ (m = p /\ n <= q).

#[global] Instance number_le_dec a b : Decision (number_le a b).
Proof. unfold number_le. destruct (major_minor_key a), (major_minor_key b). apply _. Defined.

(** [sorted(numbers, key=_major_minor_key)]. *)
Definition sort_numbers (l : list string) : list string := merge_sort number_le l.

(** ** Closing a set under a relation *)

Section worklist.
Context {A : Type} `{EqDecision A} (succ : A -> list A).

(** One element of the loop: [for child in succ(current): if child not in related: ...]. *)
Definition visit_child (st : list A * list A) (c : A) : list A * list A :=
  let (pending, related) := st in
  if decide (c ∈ related) then st else (c :: pending, c :: related).

(** hostd/storage_inspection.py:263-269 _with_descendants: the loop; the top of the stack is the
    head of [pending]. *)
Fixpoint worklist (fuel : nat) (pending related : list A) : option (list A) :=
  match pending with
  | [] => Some related
  | current :: pending =>
    match fuel with
    | O => None
    | S fuel => let (p, r) := foldl visit_child (pending, related) (succ current) in worklist fuel p r
    end
  end.

Definition edge (x y : A) : Prop := y ∈ succ x.

Definition reaches (l : list A) (y : A) : Prop := exists x, x ∈ l /\ rtc edge x y.

End worklist.

(** ** Paths *)

(** The components of [posixpath.normpath], the last one first. *)
Definition norm_step (absolute : bool) (acc : list string) (comp : string) : list string :=
  if bool_decide (comp ∈ [""; "."]) then acc
  else if negb (String.eqb comp "..") || (negb absolute && bool_decide (acc = [])) ||
          bool_decide (head acc = Some "..")
  then comp :: acc
  else tail acc.

(** [posixpath.normpath]. *)
Definition normpath (p : string) : string :=
  let slashes := if negb (starts_with "/" p) then ""
                 else if starts_with "//" p && negb (starts_with "///" p) then "//" else "/" in
  let comps := reverse (foldl (norm_step (negb (String.eqb slashes ""))) [] (split_on "/"%char p)) in
  let path := slashes +:+ join "/" comps in
  if String.eqb path "" then "." else path.

Example normpath_examples :
  normpath "/mnt//a/./b/../c/" = "/mnt/a/c" /\ normpath "//x/.." = "//" /\ normpath "/.." = "/" /\
  normpath "a/../.." = ".." /\ normpath "" = ".".
Proof. by vm_compute. Qed.

(** ** Lemmas on device numbers *)

Lemma digits_uint l : forallb is_digit l = true -> exists d, l = uint_chars d.
Proof.
  induction l as [|c l IH]; [by exists Nil|]. simpl. intros [Hc Hl]%andb_true_iff.
  destruct (IH Hl) as [d ->]. unfold is_digit in Hc. apply andb_true_iff in Hc as [H1 H2].
  apply Z.leb_le in H1, H2.
  assert (exists z, 48 <= z <= 57 /\ c = chr z) as (z & Hz & ->)
    by (exists (ord c); by rewrite chr_ord).
  assert (z ∈ zrange_to 48 58) as Hin by (apply elem_of_zrange_to; lia). vm_compute in Hin.
  repeat (apply elem_of_cons in Hin as [->|Hin];
    [first [by exists (D0 d)|by exists (D1 d)|by exists (D2 d)|by exists (D3 d)|by exists (D4 d)
           |by exists (D5 d)|by exists (D6 d)|by exists (D7 d)|by exists (D8 d)|by exists (D9 d)]|]).
  by apply elem_of_nil in Hin.
Qed.

Lemma uint_chars_digits d : forallb is_digit (uint_chars d) = true.
Proof. induction d; simpl; auto. Qed.

Lemma canonical_nat_spec l : canonical_nat l = true <-> exists n, 0 <= n /\ l = Z_chars n.
Proof.
  split.
  - destruct l as [|c r]; [done|]. unfold canonical_nat. intros H.
    destruct (Ascii.eqb_spec c "0"%char) as [->|Hc].
    { apply bool_decide_eq_true in H as ->. by exists 0. }
    destruct (digits_uint _ H) as [d Hd]. exists (uint_Z d). unfold uint_Z. split; [lia|].
    unfold Z_chars. destruct (Z.ltb_spec (Z.of_N (N.of_uint d)) 0); [lia|].
    rewrite N2Z.id, DecimalN.Unsigned.to_of, Hd. f_equal. symmetry.
    destruct d; simplify_eq/=; reflexivity.
  - intros (n & Hn & ->). unfold Z_chars. destruct (Z.ltb_spec n 0); [lia|].
    pose proof (uint_chars_digits (N.to_uint (Z.to_N n))) as Hd.
    destruct (N.to_uint (Z.to_N n)) as [|u|u|u|u|u|u|u|u|u|u] eqn:E;
      [by apply to_uint_nonnil in E|apply to_uint_D0 in E as ->; reflexivity|exact Hd..].
Qed.

Lemma Z_chars_no_colon n : 0 <= n -> ":"%char ∉ Z_chars n.
Proof.
  intros Hn Hin. unfold Z_chars in Hin. destruct (Z.ltb_spec n 0); [lia|].
  pose proof (proj1 (forallb_elem _ _) (uint_chars_digits (N.to_uint (Z.to_N n))) _ Hin). done.
Qed.

Lemma chars_device_number m n :
  chars (device_number m n) = (Z_chars m ++ ":"%char :: Z_chars n)%list.
Proof. unfold device_number, str_of_Z. by rewrite !chars_app, !chars_of_chars. Qed.

Lemma valid_major_minor_spec s :
  valid_major_minor s = true <-> exists m n, 0 <= m /\ 0 <= n /\ s = device_number m n.
Proof.
  unfold valid_major_minor. split.
  - destruct (split_at_char _ _) as [[a b]|] eqn:E; [|done].
    intros [(m & Hm & ->)%canonical_nat_spec (n & Hn & ->)%canonical_nat_spec]%andb_true_iff.
    exists m, n. split_and!; [done..|]. apply chars_inj.
    by rewrite chars_device_number, (split_at_char_some _ _ _ _ E).
  - intros (m & n & Hm & Hn & ->). rewrite chars_device_number, split_at_char_app
      by by apply Z_chars_no_colon.
    apply andb_true_iff; split; apply canonical_nat_spec; eauto.
Qed.

Lemma major_minor_key_number m n :
  0 <= m -> 0 <= n -> major_minor_key (device_number m n) = (m, n).
Proof.
  intros Hm Hn. unfold major_minor_key, partition_char.
  rewrite chars_device_number, split_at_char_app by by apply Z_chars_no_colon.
  fold (str_of_Z m) (str_of_Z n). by rewrite !Z_of_digits_str.
Qed.

Lemma major_minor_key_inj a b :
  valid_major_minor a = true -> valid_major_minor b = true ->
  major_minor_key a = major_minor_key b -> a = b.
Proof.
  intros (m & n & ? & ? & ->)%valid_major_minor_spec (p & q & ? & ? & ->)%valid_major_minor_spec.
  rewrite !major_minor_key_number by done. by intros [= -> ->].
Qed.

#[global] Instance number_le_trans : Transitive number_le.
Proof.
  intros a b c. unfold number_le.
  destruct (major_minor_key a), (major_minor_key b), (major_minor_key c). lia.
Qed.
#[global] Instance number_le_total : Total number_le.
Proof.
  intros a b. unfold number_le. destruct (major_minor_key a), (major_minor_key b). lia.
Qed.

Lemma number_le_antisym a b :
  valid_major_minor a = true -> valid_major_minor b = true ->
  number_le a b -> number_le b a -> a = b.
Proof.
  intros Ha Hb H1 H2. apply major_minor_key_inj; [done..|]. unfold number_le in *.
  destruct (major_minor_key a), (major_minor_key b). f_equal; lia.
Qed.

Lemma elem_of_sort_numbers x l : x ∈ sort_numbers l <-> x ∈ l.
Proof. unfold sort_numbers. by rewrite merge_sort_Permutation. Qed.

(** Sorting forgets the order in which a set was enumerated. *)
Lemma sort_numbers_perm l k :
  Forall (fun x => valid_major_minor x = true) l -> l ≡ₚ k -> sort_numbers l = sort_numbers k.
Proof.
  intros Hv Hp. apply (StronglySorted_unique_strong number_le).
  - rewrite Forall_forall in Hv.
    intros x y. rewrite !elem_of_sort_numbers, <- Hp. intros Hx Hy.
    apply number_le_antisym; auto.
  - apply StronglySorted_merge_sort; apply _.
  - apply StronglySorted_merge_sort; apply _.
  - unfold sort_numbers. by rewrite !merge_sort_Permutation.
Qed.

Lemma elem_of_valid_number_of s v :
  s ∈ valid_number_of v <-> v = VStr s /\ valid_major_minor s = true.
Proof.
  unfold valid_number_of. destruct v; rewrite ?elem_of_nil; try naive_solver.
  rewrite elem_of_if. naive_solver.
Qed.

Lemma elem_of_source_major_minors s d :
  s ∈ source_major_minors d <->
  valid_major_minor s = true /\
  exists c, (c = d \/ c ∈ children_of d) /\ get_value c "major_minor" = VStr s.
Proof.
  unfold source_major_minors. rewrite elem_of_dedup, elem_of_app, elem_of_concat.
  rewrite elem_of_valid_number_of. split.
  - intros [[? ?]|(l & Hs & (c & -> & Hc)%list_elem_of_fmap)]; [eauto 6|].
    apply elem_of_valid_number_of in Hs as [? ?]. eauto 6.
  - intros [Hv (c & [->|Hc] & Hg)]; [by left|]. right. eexists. split; [|by apply list_elem_of_fmap_2].
    by apply elem_of_valid_number_of.
Qed.

Lemma source_numbers_valid d : Forall (fun x => valid_major_minor x = true) (source_major_minors d).
Proof. apply Forall_forall. intros x Hx. by apply elem_of_source_major_minors in Hx as [? _]. Qed.

(** ** The worklist *)

Section worklist_lemmas.
Context {A : Type} `{EqDecision A} (succ : A -> list A).
Variable universe : list A.
Hypothesis succ_universe : forall x y, y ∈ succ x -> y ∈ universe.
Hypothesis universe_nodup : NoDup universe.

(** The elements still to be found. *)
Let fresh (related : list A) : nat :=
  length (filter_b (fun x => bool_decide (x ∉ related)) universe).

Lemma fresh_cons c related : c ∈ universe -> c ∉ related -> fresh related = S (fresh (c :: related)).
Proof.
  clear succ_universe succ. intros Hc Hr. unfold fresh.
  assert (filter_b (fun x => bool_decide (x ∉ related)) universe ≡ₚ
          c :: filter_b (fun x => bool_decide (x ∉ c :: related)) universe) as ->; [|done].
  apply NoDup_Permutation; [by apply NoDup_filter_b| |].
  - constructor; [|by apply NoDup_filter_b]. rewrite elem_of_filter_b, bool_decide_eq_true. set_solver.
  - intros x. rewrite elem_of_cons, !elem_of_filter_b, !bool_decide_eq_true, not_elem_of_cons.
    destruct (decide (x = c)); naive_solver.
Qed.

(** The inner loop adds the children that are new to both lists. *)
Lemma visit_children cs pending related p r :
  (forall c, c ∈ cs -> c ∈ universe) ->
  foldl visit_child (pending, related) cs = (p, r) ->
  (forall x, x ∈ r <-> x ∈ related \/ x ∈ cs) /\ (forall x, x ∈ p -> x ∈ pending \/ x ∈ cs) /\
  (forall x, x ∈ pending -> x ∈ p) /\ (forall x, x ∈ r -> x ∈ related \/ x ∈ p) /\
  (length p + fresh r = length pending + fresh related)%nat.
Proof.
  revert pending related. induction cs as [|c cs IH]; intros pending related Hu; simpl.
  { intros [= <- <-]. set_solver. }
  assert (Hcs : forall x, x ∈ cs -> x ∈ universe) by (intros x Hx; apply Hu; by right).
  assert (c ∈ universe) as Hcu by (apply Hu; left).
  unfold visit_child at 1. case_decide as Hc; intros E;
    apply (IH _ _ Hcs) in E as (H1 & H2 & H3 & H4 & H5).
  - setoid_rewrite elem_of_cons. split_and!; try done; naive_solver.
  - rewrite (fresh_cons c related) by done. simpl in H5. setoid_rewrite elem_of_cons in H1.
    setoid_rewrite elem_of_cons in H2. setoid_rewrite elem_of_cons in H3.
    setoid_rewrite elem_of_cons in H4. setoid_rewrite elem_of_cons.
    split_and!; [naive_solver..|lia].
Qed.

Lemma worklist_spec fuel pending related l :
  (forall x, x ∈ pending -> x ∈ related) ->
  (forall x, x ∈ related -> reaches succ l x) ->
  (forall x, x ∈ l -> x ∈ related) ->
  (forall x y, x ∈ related -> x ∉ pending -> edge succ x y -> y ∈ related) ->
  (length pending + fresh related <= fuel)%nat ->
  exists r, worklist succ fuel pending related = Some r /\ forall x, x ∈ r <-> reaches succ l x.
Proof.
  revert pending related. induction fuel as [|fuel IH]; intros pending related Hp Hr Hl Hc Hf.
  all: destruct pending as [|x pending]; simpl in Hf |- *; try lia.
  1,2: exists related; split; [done|]; intros y; split; [apply Hr|]; intros (x & Hx & Hxy);
    apply Hl in Hx; induction Hxy; [done|]; apply IHHxy; eapply Hc; eauto; apply not_elem_of_nil.
  destruct (foldl visit_child (pending, related) (succ x)) as [p r] eqn:E.
  apply visit_children in E as (H1 & H2 & H3 & H4 & H5); [|eauto].
  apply IH; [| | | |lia].
  - intros y [Hy|Hy]%H2; apply H1; [left; apply Hp; by right|by right].
  - intros y [Hy|Hy]%H1; [auto|]. destruct (Hr x) as (s & Hs & Hsx); [apply Hp; left|].
    exists s. split; [done|]. eapply rtc_r; eauto.
  - intros y Hy. apply H1. auto.
  - intros y z Hy Hn Hyz. apply H1. destruct (decide (y = x)) as [->|Hne]; [by right|].
    destruct (H4 _ Hy) as [Hy'|]; [|done]. left. apply (Hc y); [done| |done].
    apply not_elem_of_cons. split; [done|]. intros Hin. by apply Hn, H3.
Qed.

End worklist_lemmas.

(** The worklist adds an element once. *)
Lemma worklist_nodup {A} `{EqDecision A} (succ : A -> list A) fuel pending related r :
  NoDup related -> worklist succ fuel pending related = Some r -> NoDup r.
Proof.
  revert pending related. induction fuel as [|fuel IH]; intros pending related Hd.
  all: destruct pending as [|x pending]; simpl; try done.
  1,2: by intros [= <-].
  destruct (foldl visit_child (pending, related) (succ x)) as [p q] eqn:E. apply IH.
  revert pending related Hd E. induction (succ x) as [|c cs IHc]; intros pending related Hd; simpl.
  { by intros [= _ <-]. }
  unfold visit_child at 1. case_decide; intros E; eapply IHc; [|done| |done]; [done|by constructor].
Qed.

(** ** Normalised paths *)

(** The length of the pieces, a separator counted after each. *)
Definition pieces_weight (l : list string) : nat := sum_list ((fun s => S (String.length s)) <$> l).

Lemma length_of_chars l : String.length (of_chars l) = length l.
Proof. by rewrite <- length_chars, chars_of_chars. Qed.

Lemma split_chars_weight p cur l : pieces_weight (split_chars p cur l) = S (length cur + length l).
Proof.
  unfold pieces_weight. revert cur. induction l as [|c l IH]; intros cur; simpl.
  - rewrite length_of_chars, length_reverse. lia.
  - destruct (p c); simpl; rewrite IH; simpl; rewrite ?length_of_chars, ?length_reverse; lia.
Qed.

Lemma split_chars_chars p cur l s c :
  s ∈ split_chars p cur l -> c ∈ chars s -> c ∈ cur \/ c ∈ l.
Proof.
  revert cur. induction l as [|d l IH]; intros cur; simpl.
  - rewrite list_elem_of_singleton. intros ->. rewrite chars_of_chars, elem_of_reverse. auto.
  - rewrite elem_of_cons. destruct (p d).
    + intros [->|Hs]%elem_of_cons Hc; [rewrite chars_of_chars, elem_of_reverse in Hc; auto|].
      destruct (IH _ Hs Hc) as [?%elem_of_nil|]; [done|auto].
    + intros Hs Hc. destruct (IH _ Hs Hc) as [[->|?]%elem_of_cons|]; auto.
Qed.

Lemma norm_fold_weight b l acc :
  (pieces_weight (foldl (norm_step b) acc l) <= pieces_weight acc + pieces_weight l)%nat.
Proof.
  unfold pieces_weight. revert acc. induction l as [|s l IH]; intros acc; csimpl; [lia|].
  etransitivity; [apply IH|]. unfold norm_step.
  repeat case_match; csimpl; [lia..|]. destruct acc; csimpl; lia.
Qed.

Lemma norm_fold_elem b l acc s : s ∈ foldl (norm_step b) acc l -> s ∈ acc \/ s ∈ l.
Proof.
  revert acc. induction l as [|t l IH]; intros acc; simpl; [auto|]. intros [H|H]%IH; [|right; by right].
  unfold norm_step in H. repeat case_match; rewrite ?elem_of_cons in *; try tauto.
  destruct acc; simpl in H; rewrite ?elem_of_cons; auto.
Qed.

Lemma length_string_app s t : String.length (s +:+ t) = (String.length s + String.length t)%nat.
Proof. rewrite <- !length_chars, chars_app, length_app. done. Qed.

Lemma join_weight l : (String.length (join "/" l) <= pred (pieces_weight l))%nat.
Proof.
  unfold join, pieces_weight. induction l as [|s [|t l] IH]; simpl in *; [lia..|].
  rewrite !length_string_app. simpl. lia.
Qed.

Lemma join_chars l c : c ∈ chars (join "/" l) -> c = "/"%char \/ exists s, s ∈ l /\ c ∈ chars s.
Proof.
  unfold join. induction l as [|s [|t l] IH]; intros H.
  - by apply elem_of_nil in H.
  - right. exists s. split; [left|done].
  - cbn [String.concat] in H. rewrite !chars_app in H. apply elem_of_app in H as [H|[H|H]%elem_of_app].
    + right. exists s. split; [left|done].
    + apply list_elem_of_singleton in H. auto.
    + destruct (IH H) as [?|(u & ? & ?)]; [auto|]. right. exists u. split; [by right|done].
Qed.

Lemma starts_with_cons c p d s :
  starts_with (String c p) (String d s) = true -> c = d /\ starts_with p s = true.
Proof. rewrite starts_with_cons_eq, andb_true_iff. by intros [->%Ascii.eqb_eq ?]. Qed.

(** The parts of a normalised absolute path. *)
Lemma normpath_absolute v :
  starts_with "/" v = true ->
  exists pre k, normpath v = pre +:+ join "/" k /\ (pre = "/" \/ pre = "//") /\
    (String.length pre + pred (pieces_weight k) <= String.length v)%nat /\
    forall s c, s ∈ k -> c ∈ chars s -> c ∈ chars v.
Proof.
  intros Hv. unfold normpath. rewrite Hv. simpl negb. cbn match.
  set (pre := if starts_with "//" v && negb (starts_with "///" v) then "//" else "/").
  assert (Hpre : pre = "/" \/ pre = "//") by (unfold pre; case_match; auto).
  set (k := reverse _). exists pre, k.
  assert (Hk : forall s c, s ∈ k -> c ∈ chars s -> c ∈ chars v).
  { intros s c Hs Hc. unfold k in Hs. rewrite elem_of_reverse in Hs.
    apply norm_fold_elem in Hs as [?%elem_of_nil|Hs]; [done|].
    by destruct (split_chars_chars _ _ _ _ _ Hs Hc) as [?%elem_of_nil|]. }
  split_and!; [|done| |done].
  - destruct (String.eqb_spec (pre +:+ join "/" k) ""); [|done]. by destruct Hpre as [->| ->].
  - assert (pieces_weight k = pieces_weight (foldl (norm_step (negb (String.eqb pre ""))) [] (split_on "/"%char v))) as ->.
    { unfold k, pieces_weight. by rewrite reverse_Permutation. }
    unfold split_on, pre in *. destruct v as [|c v]; [done|].
    apply starts_with_cons in Hv as [<- _].
    destruct (starts_with "//" _ && _) eqn:E.
    + apply andb_true_iff in E as [[_ E]%starts_with_cons _]. destruct v as [|d v]; [done|].
      apply starts_with_cons in E as [<- _].
      pose proof (norm_fold_weight true (split_chars (Ascii.eqb "/") [] (chars v)) []) as Hw.
      rewrite split_chars_weight, length_chars in Hw. simpl in *.
      change (norm_step true (norm_step true [] "") "") with (@nil string). lia.
    + pose proof (norm_fold_weight true (split_chars (Ascii.eqb "/") [] (chars v)) []) as Hw.
      rewrite split_chars_weight, length_chars in Hw. simpl in *.
      change (norm_step true [] "") with (@nil string). lia.
Qed.

Lemma normpath_bounds v :
  starts_with "/" v = true ->
  starts_with "/" (normpath v) = true /\ (String.length (normpath v) <= String.length v)%nat /\
  forall c, c ∈ chars (normpath v) -> c ∈ chars v.
Proof.
  intros Hv. destruct (normpath_absolute v Hv) as (pre & k & -> & Hpre & Hl & Hk).
  assert ("/"%char ∈ chars v) as Hs.
  { destruct v as [|c v]; [done|]. apply starts_with_cons in Hv as [<- _]. left. }
  split_and!.
  - destruct Hpre as [->| ->]; simpl; by destruct (join "/" k).
  - rewrite length_string_app. pose proof (join_weight k). lia.
  - intros c. rewrite chars_app. intros [Hc|Hc]%elem_of_app.
    + destruct Hpre as [->| ->]; simpl in Hc; rewrite ?elem_of_cons, elem_of_nil in Hc; naive_solver.
    + apply join_chars in Hc as [->|(s & ? & ?)]; eauto.
Qed.
