(* ===== verification/StorageInspection.v ===== *)
(** * Storage inspection (src/hostd/storage_inspection.py)

    Before a source is prepared the host daemon inspects its storage: the mounts of the source
    and of every device stacked on it (device mapper, RAID, LVM), and the holders themselves.
    The source is safe when no such device is mounted for writing and every holder is of a
    known kind.  Mount facts and holder records are inputs, gathered from the mount table and
    from the directories of sysfs; the latter are parameters, the parser of the former is
    modelled.  [order] is the unspecified iteration order of a set. *)

From Stdlib Require Import ZArith Lia String Ascii.
From stdpp Require Import base list strings gmap sorting relations.
From S2P Require Import Prelude PyStr Json Identifiers Devices.

Local Open Scope string_scope.
Local Open Scope Z_scope.

(** ** Facts *)

(** hostd/storage_inspection.py:13-13 SUPPORTED_HOLDER_TYPES *)
Definition SUPPORTED_HOLDER_TYPES : list string := ["device_mapper"; "lvm"; "mdraid"].

(** The mount options of a fact: a comma separated text, a list, or none of these. *)
Inductive mount_options :=
  | OptionText (s : string)
  | OptionList (l : list string)
  | NoOptions.

(** A mount fact; a missing text is empty, a missing flag [None]. *)
Record mount_fact := MountFact {
  mf_major_minor : string;
  mf_mount_point : string;
  mf_options : mount_options;
  mf_read_only : option bool;
  mf_fstype : string }.

(** A normalised mount. *)
Record mount := Mount { mt_major_minor : string; mt_mount_point : string; mt_mode : string }.

(** A normalised holder: an edge from a device to one stacked on it. *)
Record holder := Holder {
  h_major_minor : string; h_type : string; h_name : string; h_parent : string }.

#[global] Instance holder_eq_dec : EqDecision holder.
Proof. solve_decision. Defined.
#[global] Instance mount_eq_dec : EqDecision mount.
Proof. solve_decision. Defined.

(** Holder records as given: per parent, mappings from names to texts. *)
Abbreviation record := (list (string * string)).
Abbreviation holder_facts := (list (string * list record)).
Abbreviation graph := (list (string * list holder)).

Record blocker := Blocker { bl_reason : string; bl_major_minor : string; bl_detail : string }.

Record relation_edge := RelationEdge { re_parent : string; re_child : string; re_type : string }.

Record storage_state := StorageState {
  ss_source_id : value;
  ss_kernel_name : value;
  ss_safe_for_preparation : bool;
  ss_blockers : list blocker;
  ss_mounts : list mount;
  ss_holders : list holder;
  ss_relationships : list string;
  ss_relationship_edges : list relation_edge;
  ss_inspection_complete : bool }.

(** ** Normalisation *)

(** hostd/storage_inspection.py:297-301 _safe_name *)
Definition safe_name (value : string) : string :=
  let cleaned := join " " (split_ws (replace_char "000"%char "" value)) in
  if String.eqb cleaned "" || char_in "/"%char cleaned || str_contains ".." cleaned
  then "unsupported-holder" else str_take 128 cleaned.

(** hostd/storage_inspection.py:304-305 _safe_type: the pattern of line 15. *)
Definition safe_type (value : string) : string :=
  if bounded_word is_lower id_body 63 value then value else "unsupported".

(** hostd/storage_inspection.py:308-310 _safe_fstype *)
Definition safe_fstype (value : string) : string :=
  let lowered := lower value in
  if bounded_word (fun c => is_lower c || is_digit c)
       (fun c => is_lower c || is_digit c || one_of "._-" c) 63 lowered
  then lowered else "unknown".

(** hostd/storage_inspection.py:313-321 _normalize_path *)
Definition normalize_path (value : string) : option string :=
  if negb (starts_with "/" value) || (4096 <? str_len value) || char_in "000"%char value
     || existsb (fun c => ord c <? 32) (chars value)
  then None else Some (normpath value).

(** hostd/storage_inspection.py:205-219 _mount_mode *)
Definition mount_mode (m : mount_fact) : string :=
  let option_set := match mf_options m with
                    | OptionText s => strip <$> split_on ","%char s
                    | OptionList l => strip <$> l
                    | NoOptions => []
                    end in
  let has o := bool_decide (o ∈ option_set) in
  let options_mode := if has "ro" && negb (has "rw") then "ro" else "rw" in
  if bool_decide (mf_read_only m = Some true) && negb (has "rw") then "ro"
  else if bool_decide (mf_read_only m = Some false) then "rw"
  else options_mode.

(** hostd/storage_inspection.py:196-202 _normalize_mount *)
Definition normalize_mount (m : mount_fact) : option mount :=
  match normalize_path (mf_mount_point m) with
  | Some p => if valid_major_minor (mf_major_minor m)
              then Some (Mount (mf_major_minor m) p (mount_mode m)) else None
  | None => None
  end.

Definition get_text (r : record) (k d : string) : string := default d (dict_get r k).

(** hostd/storage_inspection.py:230-240 _normalize_holders: one record of [parent]. *)
Definition normalize_record (parent : string) (r : record) : option holder :=
  let mm := get_text r "major_minor" "" in
  if valid_major_minor mm
  then Some (Holder mm (safe_type (get_text r "holder_type" "unsupported"))
               (safe_name (get_text r "holder_name" mm)) parent)
  else None.

Definition holders_of (g : graph) (x : string) : list holder := default [] (dict_get g x).

(** hostd/storage_inspection.py:241-254 _normalize_holders: a second record of the same pair of
    devices that differs makes the first one ambiguous, in place. *)
Definition add_holder (g : graph) (h : holder) : graph :=
  let l := holders_of g (h_parent h) in
  match find (fun e => String.eqb (h_major_minor e) (h_major_minor h)) l with
  | Some existing =>
    if decide (existing = h) then g
    else dict_set g (h_parent h)
           ((fun e => if decide (e = existing)
                      then Holder (h_major_minor e) "unsupported" "ambiguous-holder" (h_parent e)
                      else e) <$> l)
  | None => dict_set g (h_parent h) (l ++ [h])%list
  end.

(** hostd/storage_inspection.py:222-255 _normalize_holders *)
Definition normalize_holders (facts : holder_facts) : graph :=
  foldl (fun g '(parent, records) =>
           if valid_major_minor parent
           then foldl add_holder g (omap (normalize_record parent) records) else g) [] facts.

(** ** Traversal *)

Definition stacked (g : graph) (x : string) : list string := h_major_minor <$> holders_of g x.

Definition all_holders (g : graph) : list holder := concat g.*2.

Section inspection.
Variable order : list string -> list string.

(** hostd/storage_inspection.py:258-270 _with_descendants: the fuel is one step per device of
    the source and per edge. *)
Definition with_descendants (source : list string) (g : graph) : list string :=
  default [] (worklist (stacked g) (length source + length (all_holders g))
                (reverse (order source)) source).

Definition edge_key (h : holder) : string * string := (h_parent h, h_major_minor h).

(** hostd/storage_inspection.py:281-287 _related_holders: the inner loop. *)
Definition visit_edge (st : list string * list (string * string) * list holder) (h : holder) :=
  let '(pending, seen_edges, related) := st in
  if decide (edge_key h ∈ seen_edges) then st
  else (h_major_minor h :: pending, edge_key h :: seen_edges, (related ++ [h])%list).

Fixpoint edge_loop (fuel : nat) (g : graph) (pending : list string)
    (seen_edges : list (string * string)) (related : list holder) : option (list holder) :=
  match pending with
  | [] => Some related
  | current :: pending =>
    match fuel with
    | O => None
    | S fuel => let '(p, s, r) := foldl visit_edge (pending, seen_edges, related) (holders_of g current) in
                edge_loop fuel g p s r
    end
  end.

(** The order of the sort key of [_related_holders]: by parent, then by device. *)
Definition holder_le (a b : holder) : Prop :=
  number_le (h_parent a) (h_parent b) /\
  (number_le (h_parent b) (h_parent a) -> number_le (h_major_minor a) (h_major_minor b)).

#[global] Instance holder_le_dec a b : Decision (holder_le a b).
Proof. unfold holder_le. apply _. Defined.

(** hostd/storage_inspection.py:273-294 _related_holders *)
Definition related_holders (source : list string) (g : graph) : list holder :=
  merge_sort holder_le
    (default [] (edge_loop (length source + length (all_holders g)) g (reverse (order source)) [] [])).

(** hostd/storage_inspection.py:347-374 _relationship_edges *)
Definition relationship_edges (device : list (string * value)) (holders : list holder) : list relation_edge :=
  (match get_value device "major_minor" with
   | VStr parent =>
     if valid_major_minor parent
     then (fun c => RelationEdge parent c "partition") <$>
            concat ((fun c => valid_number_of (get_value c "major_minor")) <$> children_of device)
     else []
   | _ => []
   end ++ ((fun h => RelationEdge (h_parent h) (h_major_minor h) (h_type h)) <$> holders))%list.

(** hostd/storage_inspection.py:140-166 inspect_storage_state: the blockers. *)
Definition storage_blockers (source : list string) (mounts : list mount) (holders : list holder) : list blocker :=
  ((if bool_decide (source = [])
    then [Blocker "missing_source_topology" "unknown" "source has no valid major:minor identity"] else []) ++
   omap (fun m => if String.eqb (mt_mode m) "rw"
                  then Some (Blocker "source_mounted_read_write" (mt_major_minor m) (mt_mount_point m))
                  else None) mounts ++
   omap (fun h => if bool_decide (h_type h ∈ SUPPORTED_HOLDER_TYPES) then None
                  else Some (Blocker "unsupported_holder" (h_major_minor h) (h_name h))) holders)%list.

(** hostd/storage_inspection.py:119-178 inspect_storage_state *)
Definition inspect_storage_state (device : list (string * value)) (mounts : list mount_fact)
    (holders : holder_facts) : storage_state :=
  let source := source_major_minors device in
  let g := normalize_holders holders in
  let related := with_descendants source g in
  let related_mounts := filter_b (fun m => bool_decide (mt_major_minor m ∈ related))
                          (omap normalize_mount mounts) in
  let stacked_on := related_holders source g in
  let blockers := storage_blockers source related_mounts stacked_on in
  StorageState (get_value device "source_id") (get_value device "kernel_name")
    (bool_decide (blockers = [])) blockers related_mounts stacked_on (sort_numbers related)
    (relationship_edges device stacked_on) true.

End inspection.

(** ** Kernel facts *)

(** [s.replace(old, new)] for a text [old] that is not empty. *)
Fixpoint replace_from (old new : list ascii) (skip : nat) (l : list ascii) : list ascii :=
  match l with
  | [] => []
  | c :: r => match skip with
              | S k => replace_from old new k r
              | O => if bool_decide (take (length old) l = old)
                     then (new ++ replace_from old new (length old - 1) r)%list
                     else c :: replace_from old new 0 r
              end
  end.
Definition replace_text (old new s : string) : string :=
  of_chars (replace_from (chars old) (chars new) 0 (chars s)).

(** The pairs of [_unescape_mountinfo], in the order of the code. *)
Definition mount_escapes : list (string * ascii) :=
  [("\040", " "%char); ("\011", "009"%char); ("\012", "010"%char); ("\134", "\"%char)].

(** hostd/storage_inspection.py:324-328 _unescape_mountinfo *)
Definition unescape_mountinfo (value : string) : string :=
  foldl (fun v '(escaped, decoded) => replace_text escaped (of_chars [decoded]) v) value mount_escapes.

(** hostd/storage_inspection.py:63-84 _read_mountinfo: one line. *)
Definition mount_of_line (line : string) : option mount_fact :=
  let fields := split_ws line in
  match list_find (eq "-") fields with
  | None => None
  | Some (separator, _) =>
    if bool_decide (length fields < 6)%nat then None
    else match fields !! S separator with
         | None => None
         | Some fstype =>
           let field i := default "" (fields !! i) in
           normalized ← normalize_mount
             (MountFact (field 2%nat) (unescape_mountinfo (field 4%nat)) (OptionText (field 5%nat)) None "");
           Some (MountFact (mt_major_minor normalized) (mt_mount_point normalized) NoOptions
                   (Some (String.eqb (mt_mode normalized) "ro")) (safe_fstype fstype))
         end
  end.

(** hostd/storage_inspection.py:56-85 _read_mountinfo: [None] is a file that cannot be read. *)
Definition read_mountinfo (text : option string) : list mount_fact * bool :=
  match text with
  | None => ([], false)
  | Some s => (omap mount_of_line (of_chars <$> splitlines s), true)
  end.

(** hostd/storage_inspection.py:331-336 _holder_type *)
Definition holder_type (name : string) : string :=
  if starts_with "dm-" name then "device_mapper"
  else if starts_with "md" name then "mdraid" else "unsupported".

Section sysfs.
(** The names in the holders directory of a device ([None] when it cannot be listed), and the
    text of the dev file of such an entry. *)
Variable list_holders : string -> option (list string).
Variable dev_file : string -> string -> option string.
Variable order : list string -> list string.

(** hostd/storage_inspection.py:339-344 _read_text: on the text of the file. *)
Definition read_text (text : option string) : option string :=
  t ← text; let v := strip t in if String.eqb v "" then None else Some v.

(** hostd/storage_inspection.py:104-107 read_holder_graph: an entry with a valid number. *)
Definition holder_entry (parent name : string) : option record :=
  mm ← read_text (dev_file parent name);
  if valid_major_minor mm
  then Some [("major_minor", mm); ("holder_type", holder_type name); ("holder_name", safe_name name)]
  else None.

Definition sysfs_records (parent : string) : list record :=
  match list_holders parent with
  | None => []
  | Some names => omap (holder_entry parent) (sorted_strings names)
  end.

Definition record_numbers (rs : list record) : list string :=
  (fun r => get_text r "major_minor" "") <$> rs.

(** hostd/storage_inspection.py:95-115 read_holder_graph: the loop; the records of one
    directory are appended at once, and a device without records gets no key. *)
Fixpoint holder_loop (fuel : nat) (pending visited : list string) (g : holder_facts) : option holder_facts :=
  match pending with
  | [] => Some g
  | parent :: pending =>
    match fuel with
    | O => None
    | S fuel =>
      if decide (parent ∈ visited) then holder_loop fuel pending visited g
      else
        let rs := sysfs_records parent in
        holder_loop fuel (reverse (record_numbers rs) ++ pending)%list (parent :: visited)
          (if decide (rs = []) then g
           else dict_set g parent (default [] (dict_get g parent) ++ rs)%list)
    end
  end.

(** hostd/storage_inspection.py:88-116 read_holder_graph: [fuel] bounds the steps, for the
    directories are arbitrary here. *)
Definition read_holder_graph (fuel : nat) (source : list string) : option holder_facts :=
  holder_loop fuel (reverse (filter_b valid_major_minor (order source))) [] [].

(** hostd/storage_inspection.py:18-48 inspect_live_storage_state *)
Definition inspect_live_storage_state (fuel : nat) (device : list (string * value))
    (mountinfo : option string) (sysfs_available : bool) : option storage_state :=
  let (mounts, mountinfo_available) := read_mountinfo mountinfo in
  g ← read_holder_graph fuel (source_major_minors device);
  let result := inspect_storage_state order device mounts g in
  let missing := ((if mountinfo_available then [] else ["mountinfo"]) ++
                  (if sysfs_available then [] else ["sysfs"]))%list in
  Some (if bool_decide (missing = []) then result
        else StorageState (ss_source_id result) (ss_kernel_name result) false
               (ss_blockers result ++
                [Blocker "storage_inspection_unavailable" "unknown" (join "," missing)])%list
               (ss_mounts result) (ss_holders result) (ss_relationships result)
               (ss_relationship_edges result) false).

End sysfs.

(** ** The normalised graph *)

(** The normalised records in the order they are met. *)
Definition normal_records (facts : holder_facts) : list holder :=
  concat ((fun '(p, rs) => if valid_major_minor p then omap (normalize_record p) rs else []) <$> facts).

Lemma normalize_holders_foldl facts :
  normalize_holders facts = foldl add_holder [] (normal_records facts).
Proof.
  unfold normalize_holders, normal_records. generalize ([] : graph).
  induction facts as [|[p rs] facts IH]; intros g; simpl; [done|].
  rewrite foldl_app, IH. by destruct (valid_major_minor p).
Qed.

Lemma holders_of_set g p l x : holders_of (dict_set g p l) x = if decide (x = p) then l else holders_of g x.
Proof. unfold holders_of. rewrite dict_get_set. destruct (String.eqb_spec x p); by case_decide. Qed.

(** Every edge of the graph stands for records of one pair of devices: either they all agree,
    or the edge is unsupported. *)
Record graph_of (hs : list holder) (g : graph) : Prop := {
  go_parent : forall x h, h ∈ holders_of g x -> h_parent h = x;
  go_unique : forall x h h', h ∈ holders_of g x -> h' ∈ holders_of g x ->
    h_major_minor h = h_major_minor h' -> h = h';
  go_all : forall h, h ∈ hs -> exists h', h' ∈ holders_of g (h_parent h) /\ edge_key h' = edge_key h;
  go_agree : forall x h, h ∈ holders_of g x ->
    (h ∈ hs /\ forall k, k ∈ hs -> edge_key k = edge_key h -> k = h) \/
    (h_type h = "unsupported" /\
     exists k k', k ∈ hs /\ k' ∈ hs /\ edge_key k = edge_key h /\ edge_key k' = edge_key h /\ k <> k') }.

Lemma graph_of_nil : graph_of [] [].
Proof.
  split; unfold holders_of; simpl.
  all: intros; match goal with H : _ ∈ [] |- _ => by apply elem_of_nil in H end.
Qed.

Lemma edge_key_eq h k : edge_key h = edge_key k <-> h_parent h = h_parent k /\ h_major_minor h = h_major_minor k.
Proof. unfold edge_key. split; [by intros [= -> ->]|by intros [-> ->]]. Qed.

Lemma add_holder_new hs g h :
  graph_of hs g ->
  (forall e, e ∈ holders_of g (h_parent h) -> h_major_minor e <> h_major_minor h) ->
  graph_of (hs ++ [h])%list (dict_set g (h_parent h) (holders_of g (h_parent h) ++ [h])%list).
Proof.
  intros [Hp Hu Ha Hg] Hnew. split; setoid_rewrite holders_of_set.
  - intros x k. case_decide; [|by apply Hp]. subst. rewrite elem_of_app, list_elem_of_singleton.
    intros [Hk| ->]; [by apply Hp|done].
  - intros x k k'. case_decide; [|by apply Hu]. rewrite !elem_of_app, !list_elem_of_singleton.
    intros [Hk| ->] [Hk'| ->] E; eauto; exfalso; eapply Hnew; eauto.
  - intros k [Hk| ->%list_elem_of_singleton]%elem_of_app.
    + destruct (Ha k Hk) as (k' & Hk' & E). exists k'. case_decide as D; [|done].
      rewrite elem_of_app, <- D. eauto.
    + exists h. rewrite decide_True by done. rewrite elem_of_app, list_elem_of_singleton. auto.
  - intros x k Hk. assert (k = h /\ x = h_parent h \/ k ∈ holders_of g x) as [[-> ->]|Hk'].
    { case_decide; [|by right]. subst. apply elem_of_app in Hk as [?| ->%list_elem_of_singleton]; auto. }
    + left. split; [apply elem_of_app; right; by left|]. intros k [Hks| ->%list_elem_of_singleton]%elem_of_app; [|done].
      intros [E1 E2]%edge_key_eq. destruct (Ha k Hks) as (k' & Hk' & [F1 F2]%edge_key_eq).
      rewrite E1 in Hk'. exfalso. eapply Hnew; [done|congruence].
    + destruct (Hg x k Hk') as [[Hks Hall]|(Ht & a & b & ? & ? & ? & ? & ?)].
      * left. split; [apply elem_of_app; by left|].
        intros k' [?| ->%list_elem_of_singleton]%elem_of_app; [auto|]. intros [E1 E2]%edge_key_eq.
        exfalso. apply (Hnew k); [|done]. rewrite E1. by rewrite (Hp _ _ Hk').
      * right. split; [done|]. exists a, b. rewrite !elem_of_app. auto 10.
Qed.

Lemma add_holder_same hs g h : graph_of hs g -> h ∈ holders_of g (h_parent h) -> graph_of (hs ++ [h])%list g.
Proof.
  intros [Hp Hu Ha Hg] Hh. split; [done..| |].
  - intros k [Hk| ->%list_elem_of_singleton]%elem_of_app; eauto.
  - intros x k Hk. destruct (Hg x k Hk) as [[Hks Hall]|(Ht & a & b & ? & ? & ? & ? & ?)].
    + left. split; [apply elem_of_app; by left|].
      intros k' [?| ->%list_elem_of_singleton]%elem_of_app; [auto|]. intros [E1 E2]%edge_key_eq.
      apply (Hu x); [|done..]. rewrite <- (Hp _ _ Hk), <- E1. done.
    + right. split; [done|]. exists a, b. rewrite !elem_of_app. auto 10.
Qed.

Definition ambiguous (e : holder) : holder :=
  Holder (h_major_minor e) "unsupported" "ambiguous-holder" (h_parent e).

Lemma elem_of_replace (e : holder) (l : list holder) k :
  k ∈ (fun x => if decide (x = e) then ambiguous x else x) <$> l <->
  (k = ambiguous e /\ e ∈ l) \/ (k ∈ l /\ k <> e).
Proof.
  rewrite list_elem_of_fmap. split.
  - intros (x & -> & Hx). case_decide; subst; auto.
  - intros [[-> He]|[Hk Hne]]; [exists e|exists k]; by repeat case_decide.
Qed.

Lemma add_holder_ambiguous hs g h e :
  graph_of hs g -> e ∈ holders_of g (h_parent h) -> h_major_minor e = h_major_minor h -> e <> h ->
  graph_of (hs ++ [h])%list
    (dict_set g (h_parent h)
       ((fun x => if decide (x = e) then ambiguous x else x) <$> holders_of g (h_parent h))).
Proof.
  intros [Hp Hu Ha Hg] He Emm Hne. pose proof (Hp _ _ He) as Hpe.
  assert (Hke : edge_key e = edge_key h) by (apply edge_key_eq; auto).
  split; setoid_rewrite holders_of_set.
  - intros x k. case_decide; [|by apply Hp]. subst. rewrite elem_of_replace.
    intros [[-> _]|[Hk _]]; [done|by apply Hp].
  - intros x k k'. case_decide; [|by apply Hu]. rewrite !elem_of_replace. subst.
    intros [[-> _]|[Hk Hn]] [[-> _]|[Hk' Hn']] E; [done| | |by eapply Hu].
    + exfalso. apply Hn'. eapply Hu; eauto.
    + exfalso. apply Hn. eapply Hu; eauto.
  - intros k Hk. assert (exists k', k' ∈ holders_of g (h_parent k) /\ edge_key k' = edge_key k) as (k' & Hk' & E).
    { apply elem_of_app in Hk as [Hk| ->%list_elem_of_singleton]; eauto. }
    case_decide as D; [|eauto]. setoid_rewrite elem_of_replace. rewrite D in Hk'.
    destruct (decide (k' = e)) as [->|];
      [exists (ambiguous e); split; [by left|done]|exists k'; split; [by right|done]].
  - intros x k Hk. assert (k = ambiguous e /\ x = h_parent h \/ k ∈ holders_of g x /\ k <> e) as [[-> ->]|[Hk' Hke']].
    { case_decide; [apply elem_of_replace in Hk as [[-> _]|[? ?]]; subst; auto|]. right. split; [done|].
      intros ->. apply Hp in Hk. congruence. }
    + right. split; [done|]. change (edge_key (ambiguous e)) with (edge_key e).
      destruct (Hg _ _ He) as [[Hes _]|(_ & a & b & ? & ? & ? & ? & ?)];
        [exists e, h|exists a, b]; rewrite !elem_of_app, ?list_elem_of_singleton; auto 10.
    + destruct (Hg x k Hk') as [[Hks Hall]|(Ht & a & b & ? & ? & ? & ? & ?)].
      * left. split; [apply elem_of_app; by left|].
        intros k' [?| ->%list_elem_of_singleton]%elem_of_app; [auto|]. intros [E1 E2]%edge_key_eq.
        exfalso. apply Hke'. apply (Hu x); [done| |congruence]. by rewrite <- (Hp _ _ Hk'), <- E1.
      * right. split; [done|]. exists a, b. rewrite !elem_of_app. auto 10.
Qed.

Lemma add_holder_graph_of hs g h : graph_of hs g -> graph_of (hs ++ [h])%list (add_holder g h).
Proof.
  intros Hg. unfold add_holder.
  destruct (find _ _) as [e|] eqn:E.
  - apply List.find_some in E as [He Emm]. apply list_elem_of_In in He. apply String.eqb_eq in Emm.
    case_decide as D; [subst; by apply add_holder_same|]. by apply add_holder_ambiguous.
  - apply add_holder_new; [done|]. intros e He Emm.
    apply list_elem_of_In in He. pose proof (List.find_none _ _ E e He) as Hn. simpl in Hn.
    by rewrite Emm, String.eqb_refl in Hn.
Qed.

Lemma normalize_holders_graph_of facts : graph_of (normal_records facts) (normalize_holders facts).
Proof.
  rewrite normalize_holders_foldl. generalize (normal_records facts). intros hs.
  induction hs as [|h hs IH] using rev_ind; [apply graph_of_nil|].
  rewrite foldl_snoc. by apply add_holder_graph_of.
Qed.

(** ** Traversal *)

Lemma dict_get_in {A} (d : list (string * A)) k v : dict_get d k = Some v -> (k, v) ∈ d.
Proof.
  induction d as [|[k' v'] d IH]; simpl; [done|].
  destruct (String.eqb_spec k k') as [->|]; [intros [= ->]; left|right; auto].
Qed.

Lemma holders_of_all g x h : h ∈ holders_of g x -> h ∈ all_holders g.
Proof.
  unfold holders_of, all_holders. destruct (dict_get g x) as [l|] eqn:E; simpl; [|by rewrite elem_of_nil].
  intros Hh. apply elem_of_concat. exists l. split; [done|].
  apply list_elem_of_fmap. by exists (x, l); split; [|apply dict_get_in].
Qed.

Lemma length_dedup_le {A} `{EqDecision A} (l : list A) : (length (dedup l) <= length l)%nat.
Proof.
  unfold dedup. generalize (@nil A). induction l as [|x l IH]; intros seen; simpl; [lia|].
  case_decide; [specialize (IH seen); lia|]. simpl. specialize (IH (x :: seen)). lia.
Qed.

Lemma length_filter_b_le {A} (p : A -> bool) l : (length (filter_b p l) <= length l)%nat.
Proof. apply List.filter_length_le. Qed.

Section traversal.
Variable order : list string -> list string.
Hypothesis order_perm : forall l, order l ≡ₚ l.

Lemma elem_of_order x l : x ∈ reverse (order l) <-> x ∈ l.
Proof. by rewrite reverse_Permutation, order_perm. Qed.

Lemma length_order l : length (reverse (order l)) = length l.
Proof. by rewrite length_reverse, order_perm. Qed.

(** The descendants are the devices reachable through holders. *)
Lemma with_descendants_spec source g x :
  x ∈ with_descendants order source g <-> reaches (stacked g) source x.
Proof.
  destruct (worklist_spec (stacked g) (dedup (h_major_minor <$> all_holders g))) with
    (fuel := (length source + length (all_holders g))%nat) (pending := reverse (order source))
    (related := source) (l := source) as (r & Hr & Hspec).
  - intros y z Hz. apply elem_of_dedup. unfold stacked in Hz.
    apply list_elem_of_fmap in Hz as (h & -> & Hh). apply list_elem_of_fmap_2. by eapply holders_of_all.
  - apply NoDup_dedup.
  - intros y. by rewrite elem_of_order.
  - intros y Hy. exists y. split; [done|constructor].
  - done.
  - intros y z Hy Hn. by rewrite elem_of_order in Hn.
  - rewrite length_order. apply Nat.add_le_mono_l.
    etransitivity; [apply length_filter_b_le|]. etransitivity; [apply length_dedup_le|].
    by rewrite length_fmap.
  - unfold with_descendants. rewrite Hr. apply Hspec.
Qed.

(** The edges are found by the same worklist, run on the devices of the source and the edges:
    an edge is visited once because its pair of devices determines it. *)
Definition node_number (n : string + holder) : string :=
  match n with inl s => s | inr h => h_major_minor h end.
Definition edge_succ (g : graph) (n : string + holder) : list (string + holder) :=
  inr <$> holders_of g (node_number n).

(** An edge list against the worklist's set of nodes. *)
Record edges_of (g : graph) (seen : list (string * string)) (related : list holder)
    (nodes : list (string + holder)) : Prop := {
  eo_seen : forall k, k ∈ seen <-> exists h, h ∈ related /\ edge_key h = k;
  eo_nodes : forall h, h ∈ related <-> inr h ∈ nodes;
  eo_graph : forall h, h ∈ related -> h ∈ holders_of g (h_parent h);
  eo_nodup : NoDup related }.

Variable g : graph.
Variable hs : list holder.
Hypothesis g_ok : graph_of hs g.

Lemma edge_determines h k :
  h ∈ holders_of g (h_parent h) -> k ∈ holders_of g (h_parent k) -> edge_key h = edge_key k -> h = k.
Proof.
  intros Hh Hk [E1 E2]%edge_key_eq. eapply (go_unique _ _ g_ok); [done| |done]. by rewrite E1.
Qed.

Lemma visit_edge_sim pw seen related nodes h :
  edges_of g seen related nodes -> h ∈ holders_of g (h_parent h) ->
  exists pw' seen' related' nodes',
    visit_edge (node_number <$> pw, seen, related) h = (node_number <$> pw', seen', related') /\
    visit_child (pw, nodes) (inr h) = (pw', nodes') /\ edges_of g seen' related' nodes'.
Proof.
  intros [Hs Hn Hg Hd] Hh. unfold visit_edge, visit_child.
  destruct (decide (edge_key h ∈ seen)) as [Hin|Hin].
  - rewrite decide_True.
    { exists pw, seen, related, nodes. done. }
    apply Hn. apply Hs in Hin as (k & Hk & E). by rewrite (edge_determines h k) by auto.
  - assert (h ∉ related) as Hr by (intros Hr; apply Hin, Hs; eauto).
    rewrite decide_False by by rewrite <- Hn.
    exists (inr h :: pw), (edge_key h :: seen), (related ++ [h])%list, (inr h :: nodes).
    split_and!; [done..|]. split.
    + intros k. setoid_rewrite elem_of_app. setoid_rewrite list_elem_of_singleton.
      rewrite elem_of_cons, Hs. naive_solver.
    + intros k. rewrite elem_of_app, list_elem_of_singleton, elem_of_cons, Hn.
      split; [intros [?| ->]; auto|intros [[= ->]|?]; auto].
    + intros k [?| ->%list_elem_of_singleton]%elem_of_app; auto.
    + apply NoDup_app. split_and!; [done| |apply NoDup_singleton].
      intros k Hk ->%list_elem_of_singleton. done.
Qed.

Lemma visit_edges_sim l pw seen related nodes :
  edges_of g seen related nodes -> (forall h, h ∈ l -> h ∈ holders_of g (h_parent h)) ->
  exists pw' seen' related' nodes',
    foldl visit_edge (node_number <$> pw, seen, related) l = (node_number <$> pw', seen', related') /\
    foldl visit_child (pw, nodes) (inr <$> l) = (pw', nodes') /\ edges_of g seen' related' nodes'.
Proof.
  revert pw seen related nodes. induction l as [|h l IH]; intros pw seen related nodes He Hl.
  { by exists pw, seen, related, nodes. }
  cbn [foldl fmap list_fmap].
  destruct (visit_edge_sim pw seen related nodes h) as (pw' & seen' & related' & nodes' & E1 & E2 & He');
    [done|apply Hl; left|].
  rewrite E1, E2. apply IH; [done|]. intros k Hk. apply Hl. by right.
Qed.

Lemma edge_loop_sim fuel pw seen related nodes r :
  edges_of g seen related nodes -> worklist (edge_succ g) fuel pw nodes = Some r ->
  exists related', edge_loop fuel g (node_number <$> pw) seen related = Some related' /\
    NoDup related' /\ forall h, h ∈ related' <-> inr h ∈ r.
Proof.
  revert pw seen related nodes. induction fuel as [|fuel IH]; intros pw seen related nodes He.
  all: destruct pw as [|n pw]; rewrite ?fmap_cons; cbn [worklist edge_loop]; try done.
  1,2: intros [= <-]; exists related; split_and!; [done|apply He..].
  destruct (visit_edges_sim (holders_of g (node_number n)) pw seen related nodes) as
    (pw' & seen' & related' & nodes' & E1 & E2 & He'); [done| |].
  - intros h Hh. by rewrite (go_parent _ _ g_ok _ _ Hh).
  - unfold edge_succ at 1. rewrite E1, E2. by apply IH.
Qed.

Lemma reaches_edge source h :
  reaches (edge_succ g) (inl <$> source) (inr h) <->
  h ∈ holders_of g (h_parent h) /\ reaches (stacked g) source (h_parent h).
Proof.
  assert (forall n n', rtc (edge (edge_succ g)) n n' -> rtc (edge (stacked g)) (node_number n) (node_number n')) as Hf.
  { induction 1 as [|n n' n'' Hn _ IH]; [done|]. eapply rtc_l; [|exact IH].
    unfold edge, edge_succ in Hn. apply list_elem_of_fmap in Hn as (k & -> & Hk).
    unfold edge, stacked. apply (list_elem_of_fmap_2 h_major_minor _ _ Hk). }
  split.
  - intros (n & (s & -> & Hs)%list_elem_of_fmap & Hr). apply rtc_inv_r in Hr as [|(n' & Hn & He)]; [done|].
    unfold edge, edge_succ in He. apply list_elem_of_fmap in He as (k & [= <-] & Hh).
    pose proof (go_parent _ _ g_ok _ _ Hh) as Hp. rewrite Hp. split; [done|].
    exists s. split; [done|]. by apply Hf in Hn.
  - intros [Hh (s & Hs & Hr)]. exists (inl s). split; [by apply list_elem_of_fmap_2|].
    assert (exists n, node_number n = h_parent h /\ rtc (edge (edge_succ g)) (inl s) n) as (n & En & Hn).
    { clear Hh. revert Hr. generalize (h_parent h).
      apply (rtc_ind_r (fun y => exists n, node_number n = y /\ rtc (edge (edge_succ g)) (inl s) n)).
      - by exists (inl s).
      - intros y z _ Hyz (n & <- & Hn). unfold edge, stacked in Hyz. apply list_elem_of_fmap in Hyz as (k & -> & Hk).
        exists (inr k). split; [done|]. eapply rtc_r; [done|]. unfold edge, edge_succ. by apply list_elem_of_fmap_2. }
    eapply rtc_r; [done|]. unfold edge, edge_succ. rewrite En. by apply list_elem_of_fmap_2.
Qed.

Lemma edge_loop_spec source :
  exists r, edge_loop (length source + length (all_holders g)) g (reverse (order source)) [] [] = Some r /\
    NoDup r /\ forall h, h ∈ r <-> h ∈ holders_of g (h_parent h) /\ reaches (stacked g) source (h_parent h).
Proof.
  set (nodes := (inl <$> source) : list (string + holder)).
  destruct (worklist_spec (edge_succ g) (inr <$> dedup (all_holders g))) with
    (fuel := (length source + length (all_holders g))%nat)
    (pending := (inl <$> reverse (order source)) : list (string + holder))
    (related := nodes) (l := nodes) as (r & Hr & Hspec).
  - intros y z (h & -> & Hh)%list_elem_of_fmap. apply list_elem_of_fmap_2, elem_of_dedup. by eapply holders_of_all.
  - apply NoDup_fmap; [by intros ?? [= ->]|apply NoDup_dedup].
  - intros n (s & -> & Hs)%list_elem_of_fmap. rewrite elem_of_order in Hs.
    unfold nodes. by apply list_elem_of_fmap_2.
  - intros n Hn. exists n. split; [done|constructor].
  - done.
  - intros n n' (s & -> & Hs)%list_elem_of_fmap Hn. exfalso. apply Hn.
    apply list_elem_of_fmap_2. by apply elem_of_order.
  - rewrite length_fmap, length_order. apply Nat.add_le_mono_l.
    etransitivity; [apply length_filter_b_le|]. rewrite length_fmap. apply length_dedup_le.
  - apply edge_loop_sim with (seen := []) (related := []) in Hr.
    + destruct Hr as (related' & E & Hd & Hin). rewrite <- list_fmap_compose in E.
      erewrite (list_fmap_ext _ id) in E by done. rewrite list_fmap_id in E.
      exists related'. split_and!; [done..|]. intros h. rewrite Hin, Hspec. apply reaches_edge.
    + split; [| | |constructor].
      * intros k. rewrite elem_of_nil. split; [done|]. intros (h & Hh & _). by apply elem_of_nil in Hh.
      * intros h. rewrite elem_of_nil. split; [done|]. by intros (? & ? & ?)%list_elem_of_fmap.
      * intros h Hh. by apply elem_of_nil in Hh.
Qed.

Lemma elem_of_related_holders source h :
  h ∈ related_holders order source g <->
  h ∈ holders_of g (h_parent h) /\ reaches (stacked g) source (h_parent h).
Proof.
  unfold related_holders. rewrite merge_sort_Permutation.
  destruct (edge_loop_spec source) as (r & -> & _ & Hr). apply Hr.
Qed.

End traversal.

(** ** What a safe inspection says *)

(** The raw records of a device, and the relation they state. *)
Definition record_of (facts : holder_facts) (p : string) (r : record) : Prop :=
  exists rs, (p, rs) ∈ facts /\ valid_major_minor p = true /\ r ∈ rs.

Definition stacked_on (facts : holder_facts) (p c : string) : Prop :=
  exists r, record_of facts p r /\ valid_major_minor c = true /\ get_text r "major_minor" "" = c.

Definition depends_on (facts : holder_facts) (source : list string) (x : string) : Prop :=
  exists s, s ∈ source /\ rtc (stacked_on facts) s x.

Lemma normalize_record_some p r h :
  normalize_record p r = Some h ->
  h_parent h = p /\ h_major_minor h = get_text r "major_minor" "" /\ valid_major_minor (h_major_minor h) = true.
Proof. unfold normalize_record. destruct (valid_major_minor _) eqn:E; intros [= <-]; done. Qed.

Lemma elem_of_normal_records facts h :
  h ∈ normal_records facts <-> exists r, record_of facts (h_parent h) r /\ normalize_record (h_parent h) r = Some h.
Proof.
  unfold normal_records. rewrite elem_of_concat. split.
  - intros (l & Hh & ([p rs] & -> & Hp)%list_elem_of_fmap).
    destruct (valid_major_minor p) eqn:E; [|by apply elem_of_nil in Hh].
    apply list_elem_of_omap in Hh as (r & Hr & Hn).
    destruct (normalize_record_some _ _ _ Hn) as (Ep & _ & _). subst p.
    exists r. split; [|done]. by exists rs.
  - intros (r & (rs & Hrs & Hv & Hr) & Hn).
    exists (omap (normalize_record (h_parent h)) rs). split; [apply list_elem_of_omap; eauto|].
    apply list_elem_of_fmap. exists (h_parent h, rs). by rewrite Hv.
Qed.

Lemma edge_stacked_on facts p c : edge (stacked (normalize_holders facts)) p c <-> stacked_on facts p c.
Proof.
  pose proof (normalize_holders_graph_of facts) as Hg. unfold edge, stacked, stacked_on.
  rewrite list_elem_of_fmap. split.
  - intros (h & -> & Hh).
    assert (exists k, k ∈ normal_records facts /\ edge_key k = edge_key h) as (k & Hk & [Ep Em]%edge_key_eq).
    { destruct (go_agree _ _ Hg _ _ Hh) as [[? _]|(_ & k & _ & ? & _ & ? & _)]; eauto. }
    rewrite (go_parent _ _ Hg _ _ Hh) in Ep. apply elem_of_normal_records in Hk as (r & Hr & Hn).
    destruct (normalize_record_some _ _ _ Hn) as (_ & E & Hv). rewrite Ep in Hr.
    exists r. rewrite <- Em, <- E. done.
  - intros (r & Hr & Hv & E). assert (exists h, normalize_record p r = Some h) as [h Hn].
    { unfold normalize_record. rewrite E, Hv. eauto. }
    destruct (normalize_record_some _ _ _ Hn) as (Ep & Em & _).
    destruct (go_all _ _ Hg h) as (h' & Hh' & [_ Em']%edge_key_eq).
    { apply elem_of_normal_records. exists r. by rewrite Ep. }
    exists h'. rewrite Ep in Hh'. split; [congruence|done].
Qed.

Lemma reaches_depends_on facts source x :
  reaches (stacked (normalize_holders facts)) source x <-> depends_on facts source x.
Proof.
  unfold reaches, depends_on. split; intros (s & Hs & Hr); exists s; (split; [done|]).
  - eapply (rtc_congruence id); [|done]. intros y z. apply edge_stacked_on.
  - eapply (rtc_congruence id); [|done]. intros y z. apply edge_stacked_on.
Qed.

Lemma mount_mode_ro m : mount_mode m <> "rw" <-> mount_mode m = "ro".
Proof. unfold mount_mode. repeat case_match; split; done. Qed.

Lemma normalize_mount_mode m n : normalize_mount m = Some n -> mt_mode n = "rw" \/ mt_mode n = "ro".
Proof.
  unfold normalize_mount. repeat case_match; intros; simplify_eq/=.
  destruct (decide (mount_mode m = "rw")); [by left|]. right. by apply mount_mode_ro.
Qed.

(** A mount the inspection can read: the mount point is an absolute path of at most 4096 characters
    without control characters, and the device number is well formed.  It drops every other entry. *)
Definition readable_mount (m : mount_fact) : Prop :=
  starts_with "/" (mf_mount_point m) = true /\ str_len (mf_mount_point m) <= 4096 /\
  (forall c, c ∈ chars (mf_mount_point m) -> 32 <= ord c) /\ valid_major_minor (mf_major_minor m) = true.

(** The options of a mount, without surrounding white space. *)
Definition option_texts (m : mount_fact) : list string :=
  strip <$> match mf_options m with OptionText s => split_on ","%char s | OptionList l => l | NoOptions => [] end.

(** A mount that is known to be read-only: never with the option rw, and by the flag of its entry, or
    by the option ro where the flag is missing. *)
Definition mounted_read_only (m : mount_fact) : Prop :=
  "rw" ∉ option_texts m /\ (mf_read_only m = Some true \/ mf_read_only m = None /\ "ro" ∈ option_texts m).

Lemma normalize_readable m : readable_mount m ->
  exists n, normalize_mount m = Some n /\ mt_major_minor n = mf_major_minor m /\ mt_mode n = mount_mode m.
Proof.
  intros (Hs & Hl & Hc & Hv). unfold normalize_mount, normalize_path. rewrite Hs, Hv.
  assert (4096 <? str_len (mf_mount_point m) = false) as -> by lia.
  assert (char_in "000"%char (mf_mount_point m) = false) as ->.
  { apply not_true_iff_false. unfold char_in. rewrite existsb_elem. intros (c & Hin & Heq%Ascii.eqb_eq). subst c. by apply Hc in Hin. }
  assert (existsb (fun c => ord c <? 32) (chars (mf_mount_point m)) = false) as ->.
  { apply not_true_iff_false. rewrite existsb_elem. intros (c & Hin & Hlt). apply Hc in Hin. lia. }
  by eexists.
Qed.

Lemma mount_mode_exact m : mount_mode m = "ro" <-> mounted_read_only m.
Proof.
  unfold mount_mode, mounted_read_only, option_texts.
  destruct (mf_options m) as [s|l|]; cbn [fmap list_fmap];
    repeat case_bool_decide; cbn [andb negb]; destruct (mf_read_only m) as [[]|]; naive_solver.
Qed.

Lemma omap_nil {A B} (f : A -> option B) l : omap f l = [] <-> forall x, x ∈ l -> f x = None.
Proof.
  split.
  - intros E x Hx. destruct (f x) as [y|] eqn:Ex; [|done].
    assert (y ∈ omap f l) as Hy by (apply list_elem_of_omap; eauto). rewrite E in Hy. by apply elem_of_nil in Hy.
  - intros H. destruct (omap f l) as [|y k] eqn:E; [done|].
    assert (y ∈ omap f l) as (x & Hx & Ex)%list_elem_of_omap by (rewrite E; left). by rewrite H in Ex.
Qed.

Lemma storage_blockers_nil source mounts holders :
  storage_blockers source mounts holders = [] <->
  source <> [] /\ (forall m, m ∈ mounts -> mt_mode m <> "rw") /\
  (forall h, h ∈ holders -> h_type h ∈ SUPPORTED_HOLDER_TYPES).
Proof.
  unfold storage_blockers. split.
  - intros [H1 [H2 H3]%app_nil]%app_nil. rewrite omap_nil in H2. rewrite omap_nil in H3. split_and!.
    + by case_bool_decide.
    + intros m Hm E. specialize (H2 m Hm). by rewrite E in H2.
    + intros h Hh. specialize (H3 h Hh). by case_bool_decide.
  - intros (H1 & H2 & H3). rewrite bool_decide_false by done. simpl. apply app_nil. split; apply omap_nil.
    + intros m Hm. destruct (String.eqb_spec (mt_mode m) "rw"); [by apply H2 in Hm|done].
    + intros h Hh. by rewrite bool_decide_true by auto.
Qed.

Lemma unsupported_holder_type : "unsupported" ∉ SUPPORTED_HOLDER_TYPES.
Proof. apply (bool_decide_unpack _). by vm_compute. Qed.

Section safety.
Variable order : list string -> list string.
Hypothesis order_perm : forall l, order l ≡ₚ l.

Lemma inspect_safe_spec device mounts facts :
  let depends := depends_on facts (source_major_minors device) in
  ss_safe_for_preparation (inspect_storage_state order device mounts facts) = true <->
  source_major_minors device <> [] /\
  (forall m n, m ∈ mounts -> normalize_mount m = Some n -> depends (mt_major_minor n) -> mt_mode n = "ro") /\
  (forall p r h, record_of facts p r -> normalize_record p r = Some h -> depends p ->
     h_type h ∈ SUPPORTED_HOLDER_TYPES /\
     forall r', record_of facts p r' -> get_text r' "major_minor" "" = h_major_minor h ->
       normalize_record p r' = Some h).
Proof.
  intros depends. unfold inspect_storage_state. cbn [ss_safe_for_preparation].
  pose proof (normalize_holders_graph_of facts) as Hg.
  assert (Hd : forall x, x ∈ with_descendants order (source_major_minors device) (normalize_holders facts) <-> depends x).
  { intros x. by rewrite with_descendants_spec, reaches_depends_on. }
  assert (Hr : forall h, h ∈ related_holders order (source_major_minors device) (normalize_holders facts) <->
                 h ∈ holders_of (normalize_holders facts) (h_parent h) /\ depends (h_parent h)).
  { intros h. by rewrite (elem_of_related_holders order order_perm _ _ Hg), reaches_depends_on. }
  rewrite bool_decide_eq_true, storage_blockers_nil. f_equiv. f_equiv.
  - split.
    + intros H m n Hm Hn Hdep. destruct (normalize_mount_mode _ _ Hn) as [E|E]; [|done].
      exfalso. apply (H n); [|done]. apply elem_of_filter_b. rewrite list_elem_of_omap, bool_decide_eq_true, Hd. eauto.
    + intros H n [(m & Hm & Hn)%list_elem_of_omap Hb%bool_decide_eq_true]%elem_of_filter_b.
      rewrite (H m n Hm Hn) by by apply Hd. done.
  - setoid_rewrite Hr. split.
    + intros H p r h Hrec Hn Hdep. destruct (normalize_record_some _ _ _ Hn) as (<- & Em & Hv).
      assert (h ∈ normal_records facts) as Hin by (apply elem_of_normal_records; eauto).
      destruct (go_all _ _ Hg _ Hin) as (h' & Hh' & E). pose proof (go_parent _ _ Hg _ _ Hh') as Ep.
      destruct (go_agree _ _ Hg _ _ Hh') as [[_ Hall]|(Ht & _)].
      * assert (h' = h) as -> by (symmetry; by apply Hall).
        split; [by apply H|]. intros r' Hr' Em'.
        assert (exists k, normalize_record (h_parent h) r' = Some k) as [k Hk].
        { unfold normalize_record. rewrite Em', Hv. eauto. }
        destruct (normalize_record_some _ _ _ Hk) as (Ek & Emk & _). rewrite Hk. f_equal. apply Hall.
        -- apply elem_of_normal_records. exists r'. by rewrite Ek.
        -- apply edge_key_eq. split; congruence.
      * exfalso. specialize (H h'). rewrite Ep, Ht in H.
        by apply unsupported_holder_type, H.
    + intros H h [Hh Hdep]. destruct (go_agree _ _ Hg _ _ Hh) as [[Hin _]|(_ & a & b & Ha & Hb & Ea & Eb & Hne)].
      * apply elem_of_normal_records in Hin as (r & Hrec & Hn). by apply (H (h_parent h) r h).
      * exfalso. apply Hne. apply edge_key_eq in Ea as [Pa Ma], Eb as [Pb Mb].
        apply elem_of_normal_records in Ha as (ra & Hra & Hna), Hb as (rb & Hrb & Hnb).
        rewrite Pa in Hra, Hna. rewrite Pb in Hrb, Hnb.
        destruct (H _ ra a Hra Hna Hdep) as [_ Hall]. rewrite Hall in Hnb; [by simplify_eq|done|].
        destruct (normalize_record_some _ _ _ Hnb) as (_ & <- & _). congruence.
Qed.

(** The verdict of the inspection is exact: a source is safe for preparation if and only if
    it has a valid device number, every mount of the source or of a device stacked on it,
    through any number of holders, is read-only, and every record of a holder on the way has a
    supported type and agrees with the other records of the same pair of devices. *)
Theorem inspect_safe_iff device mounts facts :
  let depends := depends_on facts (source_major_minors device) in
  ss_safe_for_preparation (inspect_storage_state order device mounts facts) = true <->
  source_major_minors device <> [] /\
  (forall m n, m ∈ mounts -> normalize_mount m = Some n -> depends (mt_major_minor n) -> mt_mode n = "ro") /\
  (forall p r h, record_of facts p r -> normalize_record p r = Some h -> depends p ->
     h_type h ∈ SUPPORTED_HOLDER_TYPES /\
     forall r', record_of facts p r' -> get_text r' "major_minor" "" = h_major_minor h ->
       normalize_record p r' = Some h).
Proof. exact (inspect_safe_spec device mounts facts). Qed.

End safety.

(** ** The iteration order of sets *)

Lemma holder_le_trans : Transitive holder_le.
Proof.
  intros a b c [H1 H2] [H3 H4]. split; [by etransitivity|]. intros Hca.
  assert (number_le (h_parent b) (h_parent a)) by by etransitivity.
  assert (number_le (h_parent c) (h_parent b)) by by etransitivity.
  etransitivity; eauto.
Qed.

Lemma holder_le_total : Total holder_le.
Proof.
  intros a b. unfold holder_le.
  destruct (total number_le (h_parent a) (h_parent b)), (total number_le (h_major_minor a) (h_major_minor b)),
    (decide (number_le (h_parent b) (h_parent a))), (decide (number_le (h_parent a) (h_parent b))); tauto.
Qed.

#[export] Existing Instance holder_le_trans.
#[export] Existing Instance holder_le_total.

Lemma holder_numbers_valid facts x h :
  h ∈ holders_of (normalize_holders facts) x ->
  valid_major_minor (h_parent h) = true /\ valid_major_minor (h_major_minor h) = true.
Proof.
  pose proof (normalize_holders_graph_of facts) as Hg. intros Hh.
  assert (exists k, k ∈ normal_records facts /\ edge_key k = edge_key h) as (k & Hk & [<- <-]%edge_key_eq).
  { destruct (go_agree _ _ Hg _ _ Hh) as [[? _]|(_ & k & _ & ? & _ & ? & _)]; eauto. }
  apply elem_of_normal_records in Hk as (r & (rs & _ & Hv & _) & Hn).
  split; [done|]. by apply normalize_record_some in Hn as (_ & _ & ?).
Qed.

Lemma depends_valid facts device x :
  depends_on facts (source_major_minors device) x -> valid_major_minor x = true.
Proof.
  intros (s & Hs & Hr). apply rtc_inv_r in Hr as [->|(y & _ & (r & _ & ? & _))]; [|done].
  by apply elem_of_source_major_minors in Hs as [? _].
Qed.

Section two_orders.
Variables order order' : list string -> list string.
Hypothesis order_perm : forall l, order l ≡ₚ l.
Hypothesis order_perm' : forall l, order' l ≡ₚ l.

Lemma descendants_perm source g :
  NoDup source -> with_descendants order source g ≡ₚ with_descendants order' source g.
Proof.
  intros Hs. assert (forall o, NoDup (with_descendants o source g)) as Hd.
  { intros o. unfold with_descendants. destruct (worklist _ _ _ _) eqn:E; simpl; [|constructor].
    by eapply worklist_nodup. }
  apply NoDup_Permutation; [done..|]. intros x. by rewrite !with_descendants_spec.
Qed.

Lemma related_holders_same source facts :
  related_holders order source (normalize_holders facts) = related_holders order' source (normalize_holders facts).
Proof.
  pose proof (normalize_holders_graph_of facts) as Hg.
  apply (StronglySorted_unique_strong holder_le); [| | |].
  - intros a b. rewrite !elem_of_related_holders by done. intros [Ha _] [Hb _] [H1 H2] [H3 H4].
    destruct (holder_numbers_valid _ _ _ Ha), (holder_numbers_valid _ _ _ Hb).
    apply (edge_determines _ _ Hg); [done..|]. apply edge_key_eq.
    split; apply number_le_antisym; auto.
  - apply StronglySorted_merge_sort; apply _.
  - apply StronglySorted_merge_sort; apply _.
  - unfold related_holders. rewrite !merge_sort_Permutation.
    destruct (edge_loop_spec order order_perm _ _ Hg source) as (r & -> & Hd & Hr).
    destruct (edge_loop_spec order' order_perm' _ _ Hg source) as (r' & -> & Hd' & Hr').
    apply NoDup_Permutation; [done..|]. intros h. simpl. by rewrite Hr, Hr'.
Qed.

(** The inspection does not depend on the order in which Python iterates its sets: every
    field of the result, blockers included, is the same for any two orders. *)
Theorem inspect_order_irrelevant device mounts facts :
  inspect_storage_state order device mounts facts = inspect_storage_state order' device mounts facts.
Proof.
  unfold inspect_storage_state. rewrite related_holders_same.
  assert (Hp : with_descendants order (source_major_minors device) (normalize_holders facts) ≡ₚ
               with_descendants order' (source_major_minors device) (normalize_holders facts)).
  { apply descendants_perm, NoDup_dedup. }
  assert (Hf : forall l, filter_b (fun m => bool_decide (mt_major_minor m ∈
                 with_descendants order (source_major_minors device) (normalize_holders facts))) l =
               filter_b (fun m => bool_decide (mt_major_minor m ∈
                 with_descendants order' (source_major_minors device) (normalize_holders facts))) l).
  { intros l. apply List.filter_ext. intros m. apply bool_decide_ext. by rewrite Hp. }
  rewrite Hf. f_equal. apply sort_numbers_perm; [|done].
  apply Forall_forall. intros x Hx. rewrite with_descendants_spec, reaches_depends_on in Hx by done.
  by eapply depends_valid.
Qed.

End two_orders.

(** ** The live inspection *)

Section live.
Variable list_holders : string -> option (list string).
Variable dev_file : string -> string -> option string.
Variable order : list string -> list string.
Hypothesis order_perm : forall l, order l ≡ₚ l.
Abbreviation records := (sysfs_records list_holders dev_file).

(** The devices sysfs shows on top of a device. *)
Definition sysfs_edge (p c : string) : Prop := c ∈ record_numbers (records p).

Definition sysfs_depends (source : list string) (x : string) : Prop :=
  exists s, s ∈ source /\ rtc sysfs_edge s x.

Lemma sysfs_record_valid p r :
  r ∈ records p -> valid_major_minor (get_text r "major_minor" "") = true.
Proof.
  unfold sysfs_records. destruct (list_holders p) as [names|]; [|by intros ?%elem_of_nil].
  intros (n & _ & Hn)%list_elem_of_omap. unfold holder_entry in Hn.
  destruct (read_text _) as [mm|]; simpl in Hn; [|done].
  destruct (valid_major_minor mm) eqn:E; [|done]. by injection Hn as <-.
Qed.

(** The loop's bookkeeping: [visited] is closed up to [pending], and the graph holds the
    records of exactly the visited devices. *)
Record loop_state (source pending visited : list string) (g : holder_facts) : Prop := {
  ls_pending : forall x, x ∈ pending -> sysfs_depends source x;
  ls_visited : forall x, x ∈ visited -> sysfs_depends source x;
  ls_source : forall x, x ∈ source -> x ∈ visited \/ x ∈ pending;
  ls_closed : forall x y, x ∈ visited -> sysfs_edge x y -> y ∈ visited \/ y ∈ pending;
  ls_graph : forall p rs, (p, rs) ∈ g <-> p ∈ visited /\ rs = records p /\ rs <> [] }.

Lemma loop_state_skip source p pending visited g :
  loop_state source (p :: pending) visited g -> p ∈ visited -> loop_state source pending visited g.
Proof.
  intros [H1 H2 H3 H4 H5] Hp. split; [|done| | |done].
  - intros x Hx. apply H1. by right.
  - intros x Hx. destruct (H3 x Hx) as [?|[->|?]%elem_of_cons]; auto.
  - intros x y Hx Hy. destruct (H4 x y Hx Hy) as [?|[->|?]%elem_of_cons]; auto.
Qed.

Lemma loop_state_visit source p pending visited g :
  loop_state source (p :: pending) visited g -> p ∉ visited ->
  loop_state source (reverse (record_numbers (records p)) ++ pending)%list (p :: visited)
    (if decide (records p = []) then g else dict_set g p (default [] (dict_get g p) ++ records p)%list).
Proof.
  intros [H1 H2 H3 H4 H5] Hp. assert (sysfs_depends source p) as Hdp by (apply H1; left).
  assert (Hnew : forall rs, (p, rs) ∉ g) by (intros rs [? _]%H5; done).
  assert (Hk : p ∉ g.*1).
  { intros ([k rs] & -> & Hin)%list_elem_of_fmap. by apply Hnew in Hin. }
  split.
  - intros x [Hx|Hx]%elem_of_app; [|apply H1; by right].
    rewrite elem_of_reverse in Hx. destruct Hdp as (s & Hs & Hr). exists s. split; [done|]. eapply rtc_r; eauto.
  - intros x [->|Hx]%elem_of_cons; auto.
  - intros x Hx. rewrite elem_of_cons, elem_of_app.
    destruct (H3 x Hx) as [?|[->|?]%elem_of_cons]; auto.
  - intros x y Hx Hy. rewrite elem_of_cons, elem_of_app, elem_of_reverse.
    apply elem_of_cons in Hx as [->|Hx]; [auto|]. destruct (H4 x y Hx Hy) as [?|[->|?]%elem_of_cons]; auto.
  - intros q rs. rewrite elem_of_cons. case_decide as E.
    + rewrite H5. split; [tauto|]. intros ([->|?] & -> & Hne); [done|tauto].
    + rewrite (proj2 (dict_get_None g p) Hk), dict_set_fresh by done. simpl.
      rewrite elem_of_app, list_elem_of_singleton, H5. split.
      * intros [(? & ? & ?)|[= -> ->]]; auto.
      * intros ([->|?] & -> & ?); auto.
Qed.

(** The directories still to be read. *)
Definition unread (universe visited : list string) : nat :=
  sum_list ((fun u => length (records u)) <$> filter_b (fun u => bool_decide (u ∉ visited)) universe).

Lemma unread_visit universe p visited :
  NoDup universe -> p ∈ universe -> p ∉ visited ->
  (unread universe visited = length (records p) + unread universe (p :: visited))%nat.
Proof.
  intros Hd Hp Hv. unfold unread.
  assert (filter_b (fun u => bool_decide (u ∉ visited)) universe ≡ₚ
          p :: filter_b (fun u => bool_decide (u ∉ p :: visited)) universe) as ->; [|done].
  apply NoDup_Permutation; [by apply NoDup_filter_b| |].
  - constructor; [|by apply NoDup_filter_b].
    rewrite elem_of_filter_b, bool_decide_eq_true, not_elem_of_cons. tauto.
  - intros x. rewrite elem_of_cons, !elem_of_filter_b, !bool_decide_eq_true, not_elem_of_cons.
    destruct (decide (x = p)) as [->|]; tauto.
Qed.

Variable universe : list string.
Hypothesis universe_nodup : NoDup universe.
Hypothesis universe_closed : forall p c, p ∈ universe -> sysfs_edge p c -> c ∈ universe.

Lemma holder_loop_spec source fuel pending visited g :
  loop_state source pending visited g ->
  (forall x, x ∈ pending -> x ∈ universe) ->
  (length pending + unread universe visited <= fuel)%nat ->
  exists g', holder_loop list_holders dev_file fuel pending visited g = Some g' /\
    forall p rs, (p, rs) ∈ g' <-> sysfs_depends source p /\ rs = records p /\ rs <> [].
Proof.
  revert pending visited g. induction fuel as [|fuel IH]; intros pending visited g Hst Hu Hf.
  all: destruct pending as [|p pending]; simpl in Hf |- *; try lia.
  1,2: exists g; split; [done|]; intros q rs; rewrite (ls_graph _ _ _ _ Hst); f_equiv; split;
    [apply (ls_visited _ _ _ _ Hst)|]; intros (s & Hs & Hr).
  1,2: apply (ls_source _ _ _ _ Hst) in Hs as [Hs|?%elem_of_nil]; [|done];
    induction Hr as [|x y z Hxy _ IHr]; [done|]; apply IHr;
    by destruct (ls_closed _ _ _ _ Hst _ _ Hs Hxy) as [|?%elem_of_nil].
  assert (p ∈ universe) as Hpu by (apply Hu; left).
  assert (forall x, x ∈ pending -> x ∈ universe) by (intros x Hx; apply Hu; by right).
  case_decide as Hp.
  - apply IH; [by eapply loop_state_skip|done|lia].
  - apply IH; [by apply loop_state_visit| |].
    + intros x [Hx|?]%elem_of_app; [|auto]. rewrite elem_of_reverse in Hx. by apply (universe_closed p).
    + rewrite length_app, length_reverse. unfold record_numbers. rewrite length_fmap.
      rewrite (unread_visit _ p) in Hf by done. lia.
Qed.

(** Steps that suffice: one per device of the source and per holder. *)
Definition holder_fuel (source : list string) : nat := length source + unread universe [].

Lemma read_holder_graph_spec source :
  Forall (fun x => valid_major_minor x = true) source -> (forall x, x ∈ source -> x ∈ universe) ->
  exists g, read_holder_graph list_holders dev_file order (holder_fuel source) source = Some g /\
    forall p rs, (p, rs) ∈ g <-> sysfs_depends source p /\ rs = records p /\ rs <> [].
Proof.
  intros Hv Hu. unfold read_holder_graph. rewrite filter_b_all.
  2: { intros x Hx. rewrite order_perm in Hx. rewrite Forall_forall in Hv. auto. }
  apply holder_loop_spec.
  - split.
    + intros x Hx. rewrite elem_of_order in Hx by done. exists x. split; [done|constructor].
    + intros x Hx. by apply elem_of_nil in Hx.
    + intros x Hx. right. by rewrite elem_of_order.
    + intros x y Hx. by apply elem_of_nil in Hx.
    + intros p rs. rewrite !elem_of_nil. tauto.
  - intros x. rewrite elem_of_order by done. auto.
  - unfold holder_fuel. by rewrite length_order.
Qed.

(** A normalised mount of the table is accepted when it is normalised again. *)
Lemma normalize_path_again v q : normalize_path v = Some q -> normalize_path q = Some (normpath q).
Proof.
  unfold normalize_path. destruct (negb (starts_with "/" v) || _ || _ || _) eqn:E; [done|]. intros [= <-].
  apply orb_false_iff in E as [[[E1 E2]%orb_false_iff E3]%orb_false_iff E4].
  apply negb_false_iff in E1. apply Z.ltb_ge in E2.
  destruct (normpath_bounds v E1) as (H1 & H2 & H3). rewrite H1. cbn [negb orb].
  assert ((4096 <? str_len (normpath v)) = false) as ->.
  { apply Z.ltb_ge. unfold str_len in *. lia. }
  assert (char_in "000"%char (normpath v) = false) as ->.
  { unfold char_in. destruct (existsb _ (chars (normpath v))) eqn:E; [|done].
    apply existsb_elem in E as (c & Hc & Ec). rewrite <- E3. symmetry. apply existsb_elem. eauto. }
  destruct (existsb _ (chars (normpath v))) eqn:E; [|done].
  apply existsb_elem in E as (c & Hc & Ec). exfalso. rewrite <- not_true_iff_false in E4.
  apply E4, existsb_elem. eauto.
Qed.

Lemma mount_of_line_normal line m :
  mount_of_line line = Some m ->
  exists n b, normalize_mount m = Some n /\ mt_major_minor n = mf_major_minor m /\
    mf_read_only m = Some b /\ mt_mode n = (if b then "ro" else "rw").
Proof.
  unfold mount_of_line. destruct (list_find _ _) as [[i x]|]; [|done].
  case_bool_decide; [done|]. destruct (_ !! S i) as [fs|]; [|done].
  destruct (normalize_mount _) as [k|] eqn:E; [|done]. cbn. intros [= <-].
  unfold normalize_mount in E. cbn [mf_mount_point mf_major_minor] in E.
  destruct (normalize_path _) as [q|] eqn:Eq; [|done].
  destruct (valid_major_minor _) eqn:Ev; [|done]. injection E as <-.
  eexists _, _. unfold normalize_mount. cbn [mf_mount_point mf_major_minor mt_mount_point mt_major_minor].
  rewrite (normalize_path_again _ _ Eq), Ev. split_and!; [done..|].
  cbn [mt_mode]. unfold mount_mode at 1. cbn [mf_read_only mf_options].
  by destruct (String.eqb (mount_mode _) "ro").
Qed.

Lemma stacked_on_sysfs source g p c :
  (forall p rs, (p, rs) ∈ g <-> sysfs_depends source p /\ rs = records p /\ rs <> []) ->
  valid_major_minor p = true ->
  stacked_on g p c <-> sysfs_depends source p /\ sysfs_edge p c.
Proof.
  intros Hg Hp. unfold stacked_on, record_of, sysfs_edge, record_numbers. split.
  - intros (r & (rs & (Hd & -> & _)%Hg & _ & Hr) & _ & <-). split; [done|].
    apply list_elem_of_fmap. eauto.
  - intros [Hd (r & -> & Hr)%list_elem_of_fmap]. exists r. split_and!; [|by eapply sysfs_record_valid|done].
    exists (records p). split_and!; [|done..]. apply Hg. split_and!; [done..|].
    intros E. rewrite E in Hr. by apply elem_of_nil in Hr.
Qed.

Lemma depends_on_sysfs source g x :
  Forall (fun x => valid_major_minor x = true) source ->
  (forall p rs, (p, rs) ∈ g <-> sysfs_depends source p /\ rs = records p /\ rs <> []) ->
  depends_on g source x <-> sysfs_depends source x.
Proof.
  intros Hv Hg. rewrite Forall_forall in Hv. split; intros (s & Hs & Hr); exists s; (split; [done|]).
  - eapply (rtc_congruence id); [|done]. intros y z (r & (rs & (Hd & -> & _)%Hg & _ & Hr') & _ & <-).
    unfold sysfs_edge, record_numbers. apply list_elem_of_fmap. eauto.
  - assert (Hp : sysfs_depends source s /\ valid_major_minor s = true).
    { split; [exists s; split; [done|constructor]|auto]. }
    clear Hs. induction Hr as [|y z w Hyz _ IH]; [constructor|]. destruct Hp as [(s & Hs & Hsy) Hy].
    eapply rtc_l.
    + apply (stacked_on_sysfs source g); [done..|]. split; [by exists s|done].
    + apply IH. split; [exists s; split; [done|]; by eapply rtc_r|].
      unfold sysfs_edge, record_numbers in Hyz. apply list_elem_of_fmap in Hyz as (r & -> & Hr).
      by eapply sysfs_record_valid.
Qed.

(** The live inspection ends, for any finite device tree, within one step per device and
    holder; and when it finds a source safe, both kernel tables could be read, every line of the
    mount table that shows the source or a device sysfs stacks on it is a read-only mount, and
    every holder on the way is of a supported kind. *)
Theorem live_inspection_safe device mountinfo sysfs_available :
  (forall x, x ∈ source_major_minors device -> x ∈ universe) ->
  let source := source_major_minors device in
  exists st, inspect_live_storage_state list_holders dev_file order (holder_fuel source) device mountinfo
               sysfs_available = Some st /\
    (ss_safe_for_preparation st = true ->
       sysfs_available = true /\ source <> [] /\ exists text, mountinfo = Some text /\
       (forall line m, line ∈ of_chars <$> splitlines text -> mount_of_line line = Some m ->
          sysfs_depends source (mf_major_minor m) -> mf_read_only m = Some true) /\
       (forall p r, sysfs_depends source p -> r ∈ records p ->
          safe_type (get_text r "holder_type" "unsupported") ∈ SUPPORTED_HOLDER_TYPES)).
Proof.
  intros Hu source. pose proof (source_numbers_valid device) as Hv.
  destruct (read_holder_graph_spec source Hv Hu) as (g & Eg & Hg).
  unfold inspect_live_storage_state. destruct (read_mountinfo mountinfo) as [mounts avail] eqn:Em.
  fold source. rewrite Eg. cbn [mbind option_bind]. eexists. split; [done|]. intros Hsafe.
  case_bool_decide as Hmiss; [|done]. apply app_nil in Hmiss as [Ha Hs].
  destruct avail; [|done]. destruct sysfs_available; [|done]. split; [done|].
  destruct mountinfo as [text|]; [|done]. simpl in Em. injection Em as <-.
  apply (inspect_safe_spec order order_perm) in Hsafe as (Hne & Hmt & Hh). split; [done|].
  exists text. split_and!; [done| |].
  - intros line m Hl Hm Hd. destruct (mount_of_line_normal _ _ Hm) as (n & b & Hn & En & Er & Eb).
    assert (mt_mode n = "ro") as Ero.
    { apply (Hmt m n); [apply list_elem_of_omap; eauto|done|]. rewrite En.
      by apply (depends_on_sysfs source). }
    rewrite Er. destruct b; [done|]. by rewrite Ero in Eb.
  - intros p r Hd Hr. pose proof (sysfs_record_valid _ _ Hr) as Hrv.
    assert (Hpv : valid_major_minor p = true).
    { apply (depends_valid g device). by apply (depends_on_sysfs source). }
    destruct (Hh p r (Holder (get_text r "major_minor" "") (safe_type (get_text r "holder_type" "unsupported"))
                   (safe_name (get_text r "holder_name" (get_text r "major_minor" ""))) p)) as [Ht _].
    + exists (records p). split_and!; [|done..]. apply Hg. split_and!; [done..|].
      intros E. rewrite E in Hr. by apply elem_of_nil in Hr.
    + unfold normalize_record. by rewrite Hrv.
    + by apply (depends_on_sysfs source).
    + done.
Qed.

End live.

(** ** The escapes of the mount table *)

(** What the kernel writes for a character of a path in its mount table. *)
Definition escape_char (c : ascii) : list ascii :=
  match list_find (fun p => p.2 = c) mount_escapes with
  | Some (_, (escaped, _)) => chars escaped
  | None => [c]
  end.
Definition escape_mount_path (s : string) : string := of_chars (concat (escape_char <$> chars s)).

(** A piece of an escaped text: a character that is no backslash, or an escape. *)
Definition piece (l : list ascii) : Prop :=
  match l with
  | [c] => c <> "\"%char
  | [a; b; c; d] => a = "\"%char /\ b <> "\"%char /\ c <> "\"%char /\ d <> "\"%char
  | _ => False
  end.

Definition replace_piece (old new l : list ascii) : list ascii := if decide (l = old) then new else l.

Lemma replace_piece_single old new c : length old = 4%nat -> replace_piece old new [c] = [c].
Proof. intros Hl. unfold replace_piece. rewrite decide_False; [done|]. by intros <-. Qed.

Lemma replace_pieces old new ps :
  piece old -> length old = 4%nat -> Forall piece ps ->
  replace_from old new 0 (concat ps) = concat (replace_piece old new <$> ps).
Proof.
  intros Ho Hl. destruct old as [|o1 [|o2 [|o3 [|o4 [|]]]]]; try done.
  simpl in Ho. destruct Ho as (-> & Ho2 & Ho3 & Ho4).
  induction 1 as [|p ps Hp _ IH]; [done|]. rewrite fmap_cons. cbn [concat].
  assert (Hskip : forall c l, take 4 (c :: l) <> ["\"; o2; o3; o4]%char ->
    replace_from ["\"; o2; o3; o4]%char new 0 (c :: l) = c :: replace_from ["\"; o2; o3; o4]%char new 0 l).
  { intros c l Hc. cbn [replace_from length]. by rewrite bool_decide_false. }
  unfold replace_piece at 1. destruct p as [|a [|b [|c [|d [|]]]]]; try done; simpl in Hp.
  - rewrite decide_False by done. cbn [app]. rewrite Hskip, IH; [done|]. intros [= -> _]. done.
  - destruct Hp as (-> & Hb & Hc & Hd). case_decide as E.
    + simplify_eq. cbn [app replace_from length take]. rewrite take_0, bool_decide_true by done. cbn. by rewrite IH.
    + cbn [app]. rewrite !Hskip, IH; [done|..]; cbn [take]; rewrite ?take_0; congruence.
Qed.

Lemma piece_escape c : piece (escape_char c).
Proof.
  unfold escape_char, mount_escapes. simpl. repeat (case_decide; [by vm_compute|]). simpl. congruence.
Qed.

(** Reading a path of the mount table gives back the path the kernel wrote: the code undoes
    the octal escapes of blanks, tabs, line feeds and backslashes, whatever text surrounds
    them, because the backslash is decoded last. *)
Theorem unescape_escape s : unescape_mountinfo (escape_mount_path s) = s.
Proof.
  apply chars_inj. unfold unescape_mountinfo, escape_mount_path, mount_escapes, replace_text. cbn [foldl].
  rewrite !chars_of_chars.
  assert (Hp : Forall piece (escape_char <$> chars s)).
  { apply Forall_fmap, Forall_true. apply piece_escape. }
  assert (Hs : forall e d ps, piece (chars e) -> piece [d] -> Forall piece ps ->
            Forall piece (replace_piece (chars e) [d] <$> ps)).
  { intros e d ps He Hd Hps. apply Forall_fmap. eapply Forall_impl; [done|]. intros l Hl.
    unfold compose, replace_piece. by case_decide. }
  rewrite replace_pieces by done. rewrite replace_pieces by (done || by apply Hs).
  rewrite replace_pieces by (done || by repeat apply Hs).
  rewrite replace_pieces by (done || by repeat apply Hs). clear Hp Hs.
  induction (chars s) as [|c l IH]; [done|]. rewrite !fmap_cons. cbn [concat]. rewrite IH.
  change (c :: l) with ([c] ++ l)%list. f_equal. unfold escape_char, mount_escapes. simpl.
  repeat (case_decide; [by subst; vm_compute|]). simpl.
  by rewrite !replace_piece_single.
Qed.

(** ** Where the inspection falls short *)

(** A source that is mounted for writing at a path with a tab is found safe: the escape of the
    table is decoded first, and the path with a control character is then dropped. *)
Example control_character_hides_mount :
  let device := [("major_minor", VStr "8:0")] in
  let line point := "36 35 8:0 / " +:+ point +:+ " rw,noatime - ext4 /dev/sda rw" in
  let verdict point := ss_safe_for_preparation
    (inspect_storage_state id device (read_mountinfo (Some (line point))).1 []) in
  verdict "/mnt/a" = false /\ verdict "/mnt/\011" = true.
Proof. by vm_compute. Qed.

(** ** Witnesses *)

(** A disk with a mapped device on top, mounted read-only, and a foreign disk mounted for writing. *)
Definition sample_device : list (string * value) :=
  [("source_id", VStr "src"); ("kernel_name", VStr "sda"); ("major_minor", VStr "8:0");
   ("children", VList [VDict [("major_minor", VStr "8:1")]])].
Definition sample_table : string :=
  "36 35 253:0 / /mnt/\040old ro,noatime shared:1 - ext4 /dev/dm-0 ro" +:+ of_chars ["010"%char] +:+
  "38 35 8:16 / /home rw - ext4 /dev/sdb rw".
Definition sample_list (p : string) : option (list string) :=
  if String.eqb p "8:1" then Some ["dm-0"] else if String.eqb p "253:0" then Some [] else None.
Definition sample_dev (p name : string) : option string := Some ("253:0" +:+ of_chars ["010"%char]).
Definition sample_mount : mount_fact := MountFact "253:0" "/mnt/src" (OptionText "ro,noatime") None "ext4".
Definition sample_facts : holder_facts :=
  [("8:1", [[("major_minor", "253:0"); ("holder_type", "lvm"); ("holder_name", "vg-root")]])].

Lemma inspect_safe_iff_witness :
  ss_safe_for_preparation (inspect_storage_state reverse sample_device [sample_mount] sample_facts) = true /\
  mt_mode (Mount "253:0" "/mnt/src" "ro") = "ro".
Proof.
  assert (ss_safe_for_preparation (inspect_storage_state reverse sample_device [sample_mount] sample_facts) = true)
    as H by by vm_compute.
  split; [exact H|].
  apply (inspect_safe_iff reverse reverse_Permutation) in H as (_ & Hm & _).
  apply (Hm sample_mount (Mount "253:0" "/mnt/src" "ro")); [left|by vm_compute|].
  exists "8:1". split; [apply elem_of_source_major_minors; split; [by vm_compute|];
    exists [("major_minor", VStr "8:1")]; split; [right; left|done]|].
  apply rtc_once. exists [("major_minor", "253:0"); ("holder_type", "lvm"); ("holder_name", "vg-root")].
  split; [exists [[("major_minor", "253:0"); ("holder_type", "lvm"); ("holder_name", "vg-root")]];
    split; [left|split; [by vm_compute|left]]|by vm_compute].
Defined.

Lemma inspect_order_irrelevant_witness :
  inspect_storage_state id sample_device [sample_mount] sample_facts =
  inspect_storage_state reverse sample_device [sample_mount] sample_facts.
Proof. apply (inspect_order_irrelevant id reverse); [done|apply reverse_Permutation]. Defined.

Definition sample_tree : list string := ["8:0"; "8:1"; "253:0"].

Lemma sample_closed p c : p ∈ sample_tree -> sysfs_edge sample_list sample_dev p c -> c ∈ sample_tree.
Proof.
  intros Hp Hc. repeat (apply elem_of_cons in Hp as [->|Hp]; [
    vm_compute in Hc; repeat (apply elem_of_cons in Hc as [->|Hc]; [apply (bool_decide_unpack _); by vm_compute|]);
    by apply elem_of_nil in Hc|]). by apply elem_of_nil in Hp.
Qed.

Lemma live_inspection_safe_witness :
  exists st, inspect_live_storage_state sample_list sample_dev id
    (holder_fuel sample_list sample_dev sample_tree (source_major_minors sample_device))
    sample_device (Some sample_table) true = Some st /\
    ss_safe_for_preparation st = true /\ source_major_minors sample_device <> [].
Proof.
  destruct (live_inspection_safe sample_list sample_dev id (fun l => reflexivity l) sample_tree)
    with (device := sample_device) (mountinfo := Some sample_table) (sysfs_available := true) as (st & H & Hs).
  - apply (bool_decide_unpack _). by vm_compute.
  - exact sample_closed.
  - apply Forall_forall, (bool_decide_unpack _). by vm_compute.
  - assert (ss_safe_for_preparation <$>
      inspect_live_storage_state sample_list sample_dev id
        (holder_fuel sample_list sample_dev sample_tree (source_major_minors sample_device))
        sample_device (Some sample_table) true = Some true) as E by by vm_compute.
    rewrite H in E. injection E as E. exists st. split; [exact H|]. split; [exact E|]. exact (proj1 (proj2 (Hs E))).
Defined.
