(* ===== verification/DestinationSeparation.v ===== *)
(** * Destination separation (src/hostd/destination_separation.py)

    Recovered data must never be written to the medium it comes from.  The check finds the
    mount that backs a destination, walks from the source and from the backing device to the
    devices they are stacked on, and accepts when the two sets are disjoint.  The theorems:
    the walk computes exactly the ancestors of a device, whatever cycles the facts contain;
    the verdict is exact; and with the live facts of the kernel an accepted destination is
    neither on a device of the source nor on one stacked on it.

    Path resolution and existence are those of the file system and are a parameter; a resolved
    path is the list of its components below the root. *)

From Stdlib Require Import ZArith Lia String Ascii.
From stdpp Require Import base list strings gmap sorting relations.
From S2P Require Import Prelude PyStr Json Identifiers Devices StorageInspection.

Local Open Scope string_scope.
Local Open Scope Z_scope.

Abbreviation path := (list string).

(** What the check asks of the file system: [Path.resolve(strict=False)] ([None] when it
    raises), [Path.absolute()] and [Path.exists()]. *)
Class PathOps := {
  path_resolve : string -> option path;
  path_absolute : string -> path;
  path_exists : string -> bool }.

Definition path_text (p : path) : string := "/" +:+ join "/" p.

(** hostd/destination_separation.py:12-12 NETWORK_FILESYSTEMS *)
Definition NETWORK_FILESYSTEMS : list string := ["nfs"; "nfs4"; "cifs"; "smb3"; "sshfs"; "fuse.sshfs"].

Record backing := Backing { bk_mount_point : path; bk_major_minor : string; bk_fstype : string }.

Record separation := Separation {
  sp_requested_path : string;
  sp_resolved_path : path;
  sp_blockers : list (string * string);
  sp_warnings : list string;
  sp_mount : option backing;
  sp_destination_ancestry : list string;
  sp_source_ancestry : list string;
  sp_separate : bool;
  sp_inspection_complete : bool }.

(** hostd/destination_separation.py:111-131 _result *)
Definition separation_result (requested : string) (resolved : path) (m : option backing)
    (blockers : list (string * string)) (warnings destination_ancestry source_ancestry : list string) :=
  Separation requested resolved blockers warnings m destination_ancestry source_ancestry
    (bool_decide (blockers = [])) true.

Section check.
Context `{PathOps}.

(** hostd/destination_separation.py:148-170 _normalize_mount *)
Definition normalize_backing (m : mount_fact) : option backing :=
  let mount_point := mf_mount_point m in
  if negb (starts_with "/" mount_point) || (4096 <? str_len mount_point)
     || char_in "000"%char mount_point || existsb (fun c => ord c <? 32) (chars mount_point)
     || negb (valid_major_minor (mf_major_minor m))
  then None
  else p ← path_resolve mount_point;
       Some (Backing p (mf_major_minor m) (safe_fstype (mf_fstype m))).

(** [path == mount_point or mount_point in path.parents]. *)
Definition below (mount_point p : path) : bool := bool_decide (take (length mount_point) p = mount_point).

(** [max(candidates, key=...)]: the first of the largest. *)
Fixpoint deepest (best : backing) (l : list backing) : backing :=
  match l with
  | [] => best
  | m :: l => deepest (if (length (bk_mount_point best) <? length (bk_mount_point m))%nat then m else best) l
  end.

(** hostd/destination_separation.py:134-145 _find_mount *)
Definition find_mount (p : path) (mounts : list mount_fact) : option backing :=
  match filter_b (fun m => below (bk_mount_point m) p) (omap normalize_backing mounts) with
  | [] => None
  | m :: l => Some (deepest m l)
  end.

Abbreviation parents_map := (list (string * list string)).

Definition add_parent (parent : string) (g : parents_map) (r : record) : parents_map :=
  let child := get_text r "major_minor" "" in
  if valid_major_minor child
  then dict_set g child (default [] (dict_get g child) ++ [parent])%list else g.

(** hostd/destination_separation.py:188-199 _normalize_holders *)
Definition parents_by_child (holders : holder_facts) : parents_map :=
  foldl (fun g '(parent, records) =>
           if valid_major_minor parent then foldl (add_parent parent) g records else g) [] holders.

Definition parents_of (g : parents_map) (x : string) : list string := default [] (dict_get g x).

(** hostd/destination_separation.py:205-212 _expand_ancestry: the recursion of visit.  A set is
    a list here; [fuel] bounds the depth. *)
Fixpoint visit (fuel : nat) (g : parents_map) (node : string) (seen : list string) : list string :=
  match fuel with
  | O => []
  | S fuel =>
    if decide (node ∈ seen) then []
    else let parents := dedup (parents_of g node) in
         (parents ++ concat ((fun parent => visit fuel g parent (node :: seen)) <$> parents))%list
  end.

(** hostd/destination_separation.py:202-216 _expand_ancestry: looked up at one device; a device
    on a chain of distinct children has at most as many predecessors as there are children. *)
Definition ancestry (g : parents_map) (x : string) : list string :=
  match dict_get g x with
  | Some _ => dedup (visit (S (length g)) g x [])
  | None => []
  end.

(** hostd/destination_separation.py:45-108 evaluate_destination_separation *)
Definition evaluate_destination_separation (source : list (string * value)) (destination : string)
    (mounts : list mount_fact) (holders : holder_facts) : separation :=
  let resolved := path_resolve destination in
  let resolved_path := default (path_absolute destination) resolved in
  let source_numbers := source_major_minors source in
  let blockers :=
    ((match resolved with Some _ => [] | None => [("destination_path_unresolvable", "OSError")] end) ++
     (if path_exists destination then [] else [("destination_path_missing", destination)]) ++
     (if bool_decide (source_numbers = []) then [("missing_source_topology", "no valid major:minor")] else []))%list in
  match find_mount resolved_path mounts with
  | None => separation_result destination resolved_path None
              (blockers ++ [("destination_not_mounted", path_text resolved_path)])%list [] [] []
  | Some m =>
    if bool_decide (bk_fstype m ∈ NETWORK_FILESYSTEMS)
    then separation_result destination resolved_path (Some m) blockers
           ["network_filesystem_physical_separation_not_locally_provable"] [bk_major_minor m] []
    else
      let g := parents_by_child holders in
      let source_ancestry := dedup (source_numbers ++ concat (ancestry g <$> source_numbers))%list in
      let destination_ancestry := dedup (bk_major_minor m :: ancestry g (bk_major_minor m)) in
      let overlap := sort_numbers (filter_b (fun x => bool_decide (x ∈ destination_ancestry)) source_ancestry) in
      separation_result destination resolved_path (Some m)
        (blockers ++ (if bool_decide (overlap = []) then []
                      else [("destination_shares_source_physical_disk", join "," overlap)]))%list
        [] (sort_numbers destination_ancestry) (sort_numbers source_ancestry)
  end.

(** hostd/destination_separation.py:17-42 evaluate_live_destination_separation: [mountinfo_file]
    and [sysfs_available] say whether the two kernel tables exist. *)
Definition evaluate_live_destination_separation (list_holders : string -> option (list string))
    (dev_file : string -> string -> option string) (order : list string -> list string) (fuel : nat)
    (source : list (string * value)) (destination : string)
    (mountinfo : option string) (mountinfo_file sysfs_available : bool) : option separation :=
  let mounts := (read_mountinfo mountinfo).1 in
  holders ← read_holder_graph list_holders dev_file order fuel (source_major_minors source);
  let result := evaluate_destination_separation source destination mounts holders in
  let missing := ((if mountinfo_file then [] else ["mountinfo"]) ++
                  (if sysfs_available then [] else ["sysfs"]))%list in
  Some (if bool_decide (missing = []) then result
        else Separation (sp_requested_path result) (sp_resolved_path result)
               (sp_blockers result ++ [("separation_inspection_unavailable", join "," missing)])%list
               (sp_warnings result) (sp_mount result) (sp_destination_ancestry result)
               (sp_source_ancestry result) false false).

End check.

(** ** Ancestors *)

Section ancestors.
Variable g : list (string * list string).

(** [parent] is one of the devices [child] is stacked on. *)
Definition parent_edge (child parent : string) : Prop := parent ∈ parents_of g child.

(** A chain of parents whose devices, the last apart, are distinct and not in [seen]. *)
Inductive chain : list string -> string -> string -> Prop :=
  | chain_one seen x y : x ∉ seen -> parent_edge x y -> chain seen x y
  | chain_cons seen x y z : x ∉ seen -> parent_edge x y -> chain (x :: seen) y z -> chain seen x z.

Lemma chain_weaken seen seen' x y : chain seen x y -> (forall z, z ∈ seen' -> z ∈ seen) -> chain seen' x y.
Proof.
  intros Hc. revert seen'. induction Hc as [seen x y Hn He|seen x y z Hn He _ IH]; intros seen' Hs.
  - apply chain_one; auto.
  - apply (chain_cons _ _ y); [auto..|]. apply IH. intros w [->|Hw]%elem_of_cons; [left|right; auto].
Qed.

(** A chain avoids a device, or passes it and then a shorter chain starts there. *)
Lemma chain_avoid z seen x y : chain seen x y -> chain (z :: seen) x y \/ chain seen z y.
Proof.
  induction 1 as [seen x y Hn He|seen x y w Hn He Hc IH].
  - destruct (decide (x = z)) as [->|]; [right; by apply chain_one|].
    left. apply chain_one; [|done]. by apply not_elem_of_cons.
  - destruct (decide (x = z)) as [->|]; [right; by eapply chain_cons|].
    destruct IH as [IH|IH].
    + left. apply (chain_cons _ _ y); [by apply not_elem_of_cons|done|].
      eapply chain_weaken; [done|]. intros v. rewrite !elem_of_cons. tauto.
    + right. eapply chain_weaken; [done|]. intros v Hv. by right.
Qed.

Lemma chain_tc x y : chain [] x y <-> tc parent_edge x y.
Proof.
  split.
  - generalize (@nil string). induction 1 as [|seen x y z _ He _ IH]; [by apply tc_once|by eapply tc_l].
  - induction 1 as [x y He|x y z He _ IH]; [apply chain_one; [apply not_elem_of_nil|done]|].
    destruct (chain_avoid x _ _ _ IH); [|done]. eapply chain_cons; [apply not_elem_of_nil|done|done].
Qed.

(** The children that are not on the chain. *)
Let rest (seen : list string) : nat := length (filter_b (fun x => bool_decide (x ∉ seen)) (dedup g.*1)).

Lemma parents_key x y : parent_edge x y -> x ∈ g.*1.
Proof.
  unfold parent_edge, parents_of. destruct (dict_get g x) eqn:E; simpl; [|by intros ?%elem_of_nil].
  intros _. destruct (decide (x ∈ g.*1)); [done|]. by rewrite (proj2 (dict_get_None g x)) in E.
Qed.

Lemma rest_cons x seen : x ∈ g.*1 -> x ∉ seen -> rest seen = S (rest (x :: seen)).
Proof. intros Hx Hs. apply fresh_cons; [apply NoDup_dedup|by apply elem_of_dedup|done]. Qed.

Lemma visit_chain fuel x seen y : (rest seen < fuel)%nat -> y ∈ visit fuel g x seen <-> chain seen x y.
Proof.
  revert x seen. induction fuel as [|fuel IH]; intros x seen Hf; [lia|]. simpl.
  case_decide as Hs.
  { rewrite elem_of_nil. split; [done|]. by inversion 1. }
  rewrite elem_of_app, elem_of_dedup, elem_of_concat. split.
  - intros [Hy|(l & Hy & (z & -> & Hz)%list_elem_of_fmap)]; [by apply chain_one|].
    rewrite elem_of_dedup in Hz. apply (chain_cons _ _ z); [done..|].
    apply IH; [|done]. rewrite (rest_cons x) in Hf by (done || by eapply parents_key). lia.
  - inversion 1 as [? ? ? _ He|? ? z ? _ He Hc]; subst; [by left|]. right.
    exists (visit fuel g z (x :: seen)). split.
    + apply IH; [|done]. rewrite (rest_cons x) in Hf by (done || by eapply parents_key). lia.
    + apply list_elem_of_fmap. exists z. by rewrite elem_of_dedup.
Qed.

(** The ancestry of a device is the set of the devices it is stacked on through any number
    of holders: the recursion, which only remembers the devices on its current path, misses no
    ancestor and invents none, also on cyclic facts, and it ends within one call per child. *)
Theorem ancestry_exact x y : y ∈ ancestry g x <-> tc parent_edge x y.
Proof.
  rewrite <- chain_tc. unfold ancestry. destruct (dict_get g x) as [l|] eqn:E.
  - rewrite elem_of_dedup. apply visit_chain. unfold rest.
    pose proof (length_filter_b_le (fun x => bool_decide (x ∉ [])) (dedup g.*1)).
    pose proof (length_dedup_le g.*1). rewrite length_fmap in *. lia.
  - rewrite elem_of_nil. split; [done|]. intros Hc.
    assert (exists z, parent_edge x z) as [z Hz] by (inversion Hc; subst; eauto).
    unfold parent_edge, parents_of in Hz. rewrite E in Hz. by apply elem_of_nil in Hz.
Qed.

End ancestors.

(** ** The verdict *)

Lemma parents_of_set g k l x : parents_of (dict_set g k l) x = if decide (x = k) then l else parents_of g x.
Proof. unfold parents_of. rewrite dict_get_set. destruct (String.eqb_spec x k); by case_decide. Qed.

Lemma add_parent_edge parent g r x y :
  parent_edge (add_parent parent g r) x y <->
  parent_edge g x y \/ (y = parent /\ valid_major_minor x = true /\ get_text r "major_minor" "" = x).
Proof.
  unfold parent_edge, add_parent. destruct (valid_major_minor _) eqn:E.
  - rewrite parents_of_set. case_decide as D.
    + subst x. rewrite elem_of_app, list_elem_of_singleton. unfold parents_of. tauto.
    + split; [tauto|]. intros [?|(_ & _ & ?)]; congruence.
  - split; [tauto|]. intros [?|(_ & ? & <-)]; [done|congruence].
Qed.

Lemma add_parents_edge parent g rs x y :
  parent_edge (foldl (add_parent parent) g rs) x y <->
  parent_edge g x y \/
  (y = parent /\ valid_major_minor x = true /\ exists r, r ∈ rs /\ get_text r "major_minor" "" = x).
Proof.
  revert g. induction rs as [|r rs IH]; intros g; simpl.
  - setoid_rewrite elem_of_nil. split; [tauto|]. by intros [?|(_ & _ & ? & ? & _)].
  - rewrite IH, add_parent_edge. setoid_rewrite elem_of_cons. split.
    + intros [[?|(? & ? & ?)]|(? & ? & r' & ? & ?)]; [by left|right..]; (split_and!; [done..|]);
        [exists r|exists r']; auto.
    + intros [?|(? & ? & r' & [->|?] & ?)]; [by left; left|left; by right|right].
      split_and!; [done..|]. by exists r'.
Qed.

(** The map of parents is the relation the records state, read upwards. *)
Lemma parents_by_child_edge holders x y :
  parent_edge (parents_by_child holders) x y <-> stacked_on holders y x.
Proof.
  assert (forall g, parent_edge (foldl (fun g '(parent, records) =>
      if valid_major_minor parent then foldl (add_parent parent) g records else g) g holders) x y <->
      parent_edge g x y \/ stacked_on holders y x) as Hg.
  { unfold stacked_on, record_of. induction holders as [|[p rs] holders IH]; intros g; simpl.
    - setoid_rewrite elem_of_nil. split; [tauto|]. by intros [?|(? & (? & ? & _) & _)].
    - rewrite IH. setoid_rewrite elem_of_cons. destruct (valid_major_minor p) eqn:E.
      + rewrite add_parents_edge. split.
        * intros [[?|(-> & ? & r & ? & ?)]|(r & (rs' & ? & ? & ?) & ? & ?)]; [by left| |].
          -- right. exists r. split_and!; [exists rs; split_and!; [by left|done..]|done..].
          -- right. exists r. split_and!; [exists rs'; split_and!; [by right|done..]|done..].
        * intros [?|(r & (rs' & [[= -> ->]|?] & ? & ?) & ? & ?)]; [by left; left| |].
          -- left. right. split_and!; [done..|]. by exists r.
          -- right. exists r. split_and!; [by exists rs'|done..].
      + split.
        * intros [?|(r & (rs' & ? & ? & ?) & ? & ?)]; [by left|].
          right. exists r. split_and!; [exists rs'; split_and!; [by right|done..]|done..].
        * intros [?|(r & (rs' & [[= -> ->]|?] & ? & ?) & ? & ?)]; [by left|congruence|].
          right. exists r. split_and!; [by exists rs'|done..]. }
  unfold parents_by_child. rewrite Hg. split; [|auto]. intros [?|?]; [|done].
  by match goal with H : parent_edge [] _ _ |- _ => apply elem_of_nil in H end.
Qed.

Lemma ancestry_stacked_on holders x y :
  x = y \/ y ∈ ancestry (parents_by_child holders) x <-> rtc (stacked_on holders) y x.
Proof.
  assert (forall x y, tc (parent_edge (parents_by_child holders)) x y -> rtc (stacked_on holders) y x) as H1.
  { induction 1 as [a b He|a b c He _ IH]; apply parents_by_child_edge in He; [by apply rtc_once|by eapply rtc_r]. }
  assert (forall y x, rtc (stacked_on holders) y x -> x = y \/ tc (parent_edge (parents_by_child holders)) x y) as H2.
  { induction 1 as [a|a b c He _ [->|IH]]; [by left| |]; right; apply parents_by_child_edge in He;
      [by apply tc_once|by eapply tc_r]. }
  rewrite ancestry_exact. split; [|apply H2]. intros [->|?]; [constructor|auto].
Qed.

Lemma sort_numbers_nil l : sort_numbers l = [] <-> l = [].
Proof.
  split; [|by intros ->]. intros E. apply Permutation_nil_r. rewrite <- E. unfold sort_numbers.
  by rewrite merge_sort_Permutation.
Qed.

Section verdict.
Context `{PathOps}.

Lemma deepest_spec m l :
  exists pre post, m :: l = (pre ++ deepest m l :: post)%list /\
    (forall k, k ∈ pre -> (length (bk_mount_point k) < length (bk_mount_point (deepest m l)))%nat) /\
    (forall k, k ∈ post -> (length (bk_mount_point k) <= length (bk_mount_point (deepest m l)))%nat).
Proof.
  revert m. induction l as [|k l IH]; intros m; simpl.
  { exists [], []. split_and!; [done|..]; intros ? Hk; by apply elem_of_nil in Hk. }
  destruct (Nat.ltb_spec (length (bk_mount_point m)) (length (bk_mount_point k))) as [Hlt|Hge].
  - destruct (IH k) as (pre & post & E & H1 & H2). exists (m :: pre), post. rewrite E. split_and!; [done| |done].
    intros x [->|Hx]%elem_of_cons; [|auto]. destruct pre as [|y pre].
    + injection E as <- _. done.
    + injection E as -> _. assert (y ∈ y :: pre) by left. specialize (H1 _ H0). lia.
  - destruct (IH m) as (pre & post & E & H1 & H2). destruct pre as [|y pre].
    + injection E as Em El. exists [], (k :: post). split_and!.
      * by rewrite <- Em, <- El.
      * by intros ? Hx%elem_of_nil.
      * intros x [->|Hx]%elem_of_cons; [by rewrite <- Em|auto].
    + injection E as Em El. exists (m :: k :: pre), post. split_and!; [by rewrite El at 1| |done].
      assert (length (bk_mount_point m) < length (bk_mount_point (deepest m l)))%nat
        by (apply H1; rewrite Em; left).
      intros x [->|[->|Hx]%elem_of_cons]%elem_of_cons; [done|lia|apply H1; by right].
Qed.

(** The entry covers the path, and no entry that covers it is deeper. *)
Definition deepest_cover (p : path) (entries : list backing) (m : backing) : Prop :=
  m ∈ entries /\ below (bk_mount_point m) p = true /\
  forall k, k ∈ entries -> below (bk_mount_point k) p = true -> (length (bk_mount_point k) <= length (bk_mount_point m))%nat.

(** Two deepest covers are mounted at the same point. *)
Lemma same_cover p entries m k :
  deepest_cover p entries m -> deepest_cover p entries k ->
  (forall k', k' ∈ entries -> bk_mount_point k' = bk_mount_point k -> k' = k) -> m = k.
Proof.
  intros (Hm & Bm & Dm) (Hk & Bk & Dk) Huniq. apply Huniq; [done|].
  pose proof (Dm k Hk Bk). pose proof (Dk m Hm Bm). unfold below in *. apply bool_decide_eq_true in Bm, Bk.
  rewrite <- Bm, <- Bk. f_equal. lia.
Qed.

Lemma found_mount_spec p mounts m :
  find_mount p mounts = Some m ->
  exists pre post, omap normalize_backing mounts = (pre ++ m :: post)%list /\
    below (bk_mount_point m) p = true /\
    (forall k, k ∈ pre -> below (bk_mount_point k) p = true ->
       (length (bk_mount_point k) < length (bk_mount_point m))%nat) /\
    (forall k, k ∈ post -> below (bk_mount_point k) p = true ->
       (length (bk_mount_point k) <= length (bk_mount_point m))%nat).
Proof.
  unfold find_mount. destruct (filter_b _ _) as [|c cs] eqn:E; [done|]. intros [= Hm].
  destruct (deepest_spec c cs) as (pre & post & Ed & H1 & H2). rewrite Hm in *.
  rewrite <- E in Ed. clear E c cs Hm.
  assert (forall q l, filter_b q l = (pre ++ m :: post)%list ->
    exists pre' post', l = (pre' ++ m :: post')%list /\ q m = true /\ filter_b q pre' = pre /\ filter_b q post' = post)
    as Hsplit.
  { clear. intros q l. revert pre. unfold filter_b. induction l as [|x l IH]; intros pre; simpl; [by destruct pre|].
    destruct (q x) eqn:Eq.
    - destruct pre as [|y pre]; simpl; intros [= -> E].
      + exists [], l. done.
      + destruct (IH _ E) as (a & b & -> & ? & <- & <-). exists (y :: a), b. simpl. by rewrite Eq.
    - intros E. destruct (IH _ E) as (a & b & -> & ? & <- & <-). exists (x :: a), b. simpl. by rewrite Eq. }
  destruct (Hsplit _ _ Ed) as (a & b & -> & Hb & <- & <-). exists a, b. split_and!; [done..| |];
    intros k Hk Hkb; [apply H1|apply H2]; by apply elem_of_filter_b.
Qed.

(** The mount the check takes is the first of the deepest covers. *)
Lemma found_mount_cover p mounts m :
  find_mount p mounts = Some m ->
  let entries := omap normalize_backing mounts in
  exists pre post, entries = (pre ++ m :: post)%list /\ deepest_cover p entries m /\
    forall k, k ∈ pre -> ~ deepest_cover p entries k.
Proof.
  intros Hm entries. apply found_mount_spec in Hm as (pre & post & Hsplit & Hb & Hpre & Hpost). fold entries in Hsplit.
  assert (Hin : m ∈ entries) by (rewrite Hsplit, elem_of_app; right; by left).
  exists pre, post. split; [done|]. split.
  - split; [done|]. split; [done|]. intros k. rewrite Hsplit, elem_of_app, elem_of_cons. intros [Hk|[->|Hk]] Hkb; [|lia|by apply Hpost].
    by apply Nat.lt_le_incl, Hpre.
  - intros k Hk (_ & Bk & Dk). pose proof (Hpre k Hk Bk). pose proof (Dk m Hin Hb). lia.
Qed.

(** The mount that backs a path covers it, and is the first of the deepest: no mount of the
    table that covers the path is deeper, and none before it is as deep. *)
Theorem find_mount_deepest p mounts m :
  find_mount p mounts = Some m ->
  exists pre post, omap normalize_backing mounts = (pre ++ m :: post)%list /\
    below (bk_mount_point m) p = true /\
    (forall k, k ∈ pre -> below (bk_mount_point k) p = true ->
       (length (bk_mount_point k) < length (bk_mount_point m))%nat) /\
    (forall k, k ∈ post -> below (bk_mount_point k) p = true ->
       (length (bk_mount_point k) <= length (bk_mount_point m))%nat).
Proof. exact (found_mount_spec p mounts m). Qed.

Lemma separated_iff source destination mounts holders :
  sp_separate (evaluate_destination_separation source destination mounts holders) = true <->
  exists p m, path_resolve destination = Some p /\ path_exists destination = true /\
    source_major_minors source <> [] /\ find_mount p mounts = Some m /\
    (bk_fstype m ∈ NETWORK_FILESYSTEMS \/
     forall s a, s ∈ source_major_minors source -> rtc (stacked_on holders) a s ->
       rtc (stacked_on holders) a (bk_major_minor m) -> False).
Proof.
  unfold evaluate_destination_separation.
  set (ns := source_major_minors source). set (g := parents_by_child holders).
  assert (Hov : forall m, sort_numbers (filter_b (fun x => bool_decide (x ∈ dedup (bk_major_minor m :: ancestry g (bk_major_minor m))))
      (dedup (ns ++ concat (ancestry g <$> ns)))) = [] <->
      (forall s a, s ∈ ns -> rtc (stacked_on holders) a s -> rtc (stacked_on holders) a (bk_major_minor m) -> False)).
  { intros m. rewrite sort_numbers_nil. split.
    - intros E s a Hs Has Ham. apply ancestry_stacked_on in Has. apply ancestry_stacked_on in Ham.
      assert (a ∈ @nil string) as Hn%elem_of_nil; [|done]. rewrite <- E. apply elem_of_filter_b.
      rewrite bool_decide_eq_true, !elem_of_dedup, elem_of_cons, elem_of_app, elem_of_concat. split.
      + destruct Has as [->|Has]; [by left|]. right. exists (ancestry g s). split; [done|]. by apply list_elem_of_fmap_2.
      + destruct Ham as [->|Ham]; [by left|by right].
    - intros Hd. apply filter_b_none. intros x. rewrite elem_of_dedup, elem_of_app, elem_of_concat. intros Hx.
      apply bool_decide_eq_false. rewrite elem_of_dedup, elem_of_cons. intros Hm.
      assert (exists s, s ∈ ns /\ rtc (stacked_on holders) x s) as (s & Hs & Hxs).
      { destruct Hx as [Hx|(l & Hx & (s & -> & Hs)%list_elem_of_fmap)]; [exists x|exists s]; (split; [done|]);
          apply ancestry_stacked_on; auto. }
      apply (Hd s x Hs Hxs), ancestry_stacked_on. destruct Hm as [->|Hm]; auto. }
  destruct (path_resolve destination) as [p|] eqn:Er.
  2: { split; [|by intros (? & ? & ? & _)]. by repeat case_match. }
  cbn [default]. unfold id. destruct (find_mount p mounts) as [m|] eqn:Em.
  2: { split; [|by intros (? & ? & [= <-] & _ & _ & ? & _); simplify_eq].
       unfold separation_result; cbn [sp_separate]. rewrite bool_decide_eq_true. by intros [_ ?]%app_nil. }
  case_bool_decide as Hn; unfold separation_result; cbn [sp_separate]; rewrite bool_decide_eq_true.
  - cbn [app]. rewrite app_nil. split.
    + intros [H1 H2]. case_bool_decide; [done|]. destruct (path_exists destination); [|done]. exists p, m. auto 10.
    + intros (? & ? & [= <-] & -> & Hne & _). by rewrite bool_decide_false.
  - cbn [app]. rewrite !app_nil. split.
    + intros [[H1 H2] H3]. destruct (path_exists destination); [|done].
      destruct (decide (ns = [])) as [Hs|Hs]; [by rewrite bool_decide_true in H2|].
      exists p, m. split_and!; [done..|]. right. apply Hov. by case_bool_decide.
    + intros (? & k & [= <-] & -> & Hne & Hk & Hd). rewrite Em in Hk. injection Hk as <-.
      destruct Hd as [?|Hd]; [done|]. rewrite bool_decide_false by done. by rewrite bool_decide_true by by apply Hov.
Qed.

(** C10. The verdict of the separation check is exact: a destination is separate if and only if
    its path resolves and exists, the source has a device number, and some mount backs the path
    whose filesystem is one of the network kinds, or whose device shares no device at all with
    the source: none that both are, or both are stacked on through any number of holders. *)
Theorem separation_exact source destination mounts holders :
  sp_separate (evaluate_destination_separation source destination mounts holders) = true <->
  exists p m, path_resolve destination = Some p /\ path_exists destination = true /\
    source_major_minors source <> [] /\ find_mount p mounts = Some m /\
    (bk_fstype m ∈ NETWORK_FILESYSTEMS \/
     forall s a, s ∈ source_major_minors source -> rtc (stacked_on holders) a s ->
       rtc (stacked_on holders) a (bk_major_minor m) -> False).
Proof. exact (separated_iff source destination mounts holders). Qed.

End verdict.

(** ** The live check *)

Section live_check.
Context `{PathOps}.
Variable list_holders : string -> option (list string).
Variable dev_file : string -> string -> option string.
Variable order : list string -> list string.
Hypothesis order_perm : forall l, order l ≡ₚ l.
Variable universe : list string.
Hypothesis universe_nodup : NoDup universe.
Hypothesis universe_closed : forall p c, p ∈ universe -> sysfs_edge list_holders dev_file p c -> c ∈ universe.

(** C9. The live check ends, for any finite device tree, within one step per device and holder.  A
    destination it accepts resolves to a path that exists, and the entry of the mount table that
    covers this path most deeply, unless a second entry has the same mount point, is a network
    filesystem or lies on a device that is neither a device of the source nor stacked on one in
    sysfs, through device mapper, RAID or LVM.  Where several entries share the mount point the
    promise is for the first of them only, although the last one is what a write would reach; and
    entries the check cannot read do not count. *)
Theorem live_separation_safe source destination mountinfo mountinfo_file sysfs_available :
  (forall x, x ∈ source_major_minors source -> x ∈ universe) ->
  let numbers := source_major_minors source in
  exists r, evaluate_live_destination_separation list_holders dev_file order
              (holder_fuel list_holders dev_file universe numbers) source destination mountinfo
              mountinfo_file sysfs_available = Some r /\
    (sp_separate r = true ->
     mountinfo_file = true /\ sysfs_available = true /\
     let separate m := bk_fstype m ∈ NETWORK_FILESYSTEMS \/ ~ sysfs_depends list_holders dev_file numbers (bk_major_minor m) in
     let entries := omap normalize_backing (read_mountinfo mountinfo).1 in
     exists p, path_resolve destination = Some p /\ path_exists destination = true /\
       (exists pre m post, entries = (pre ++ m :: post)%list /\ deepest_cover p entries m /\
          (forall k, k ∈ pre -> ~ deepest_cover p entries k) /\ separate m) /\
       forall m, deepest_cover p entries m -> (forall k, k ∈ entries -> bk_mount_point k = bk_mount_point m -> k = m) ->
         separate m).
Proof.
  intros Hu numbers. pose proof (source_numbers_valid source) as Hv.
  destruct (read_holder_graph_spec list_holders dev_file order order_perm universe universe_nodup
              universe_closed numbers Hv Hu) as (g & Eg & Hg).
  unfold evaluate_live_destination_separation. fold numbers. rewrite Eg. cbn [mbind option_bind].
  eexists. split; [done|]. intros Hsep. case_bool_decide as Hmiss; [|done].
  apply app_nil in Hmiss as [H1 H2]. destruct mountinfo_file; [|done]. destruct sysfs_available; [|done].
  split; [done|]. split; [done|]. apply separated_iff in Hsep as (p & m & Hp & He & _ & Hm & Hd).
  set (entries := omap normalize_backing (read_mountinfo mountinfo).1).
  set (separate (m : backing) := bk_fstype m ∈ NETWORK_FILESYSTEMS \/ ~ sysfs_depends list_holders dev_file numbers (bk_major_minor m)).
  assert (Hsep : separate m).
  { destruct Hd as [?|Hd]; [by left|]. right. intros Hs.
    apply (depends_on_sysfs list_holders dev_file numbers g _ Hv Hg) in Hs as (s & Hs & Hr).
    apply (Hd s s Hs); [constructor|done]. }
  apply found_mount_cover in Hm as (pre & post & Hsplit & Hc & Hfirst). fold entries in Hsplit, Hc, Hfirst.
  exists p. split; [done|]. split; [done|]. split; [by exists pre, m, post|].
  intros k Hk Huniq. by rewrite <- (same_cover p entries m k Hc Hk Huniq).
Qed.
End live_check.

(** ** Where the check falls short, and witnesses *)

Definition path_of_text (s : string) : path := filter_b (fun c => negb (String.eqb c "")) (split_on "/"%char s).

(** A file system without links in which every path exists. *)
#[local] Instance plain_paths : PathOps :=
  { path_resolve s := Some (path_of_text s); path_absolute := path_of_text; path_exists _ := true }.

Definition disk (n : string) : list (string * value) := [("major_minor", VStr n)].
Definition table_entry (number point : string) : mount_fact := MountFact number point NoOptions (Some false) "ext4".

(** The mount made last at a directory hides the earlier ones, but the check takes the first:
    a destination on the source is accepted when the source is mounted over another disk. *)
Example overmounted_source_accepted :
  sp_separate (evaluate_destination_separation (disk "8:0") "/mnt/out"
    [table_entry "8:16" "/mnt"; table_entry "8:0" "/mnt"] []) = true.
Proof. by vm_compute. Qed.

Definition two_mounts : list mount_fact := [table_entry "8:2" "/"; table_entry "8:16" "/mnt"].

Lemma find_mount_deepest_witness :
  exists pre post, omap normalize_backing two_mounts =
    (pre ++ Backing ["mnt"] "8:16" "ext4" :: post)%list /\ below ["mnt"] ["mnt"; "out"] = true.
Proof.
  destruct (find_mount_deepest ["mnt"; "out"] two_mounts (Backing ["mnt"] "8:16" "ext4"))
    as (pre & post & H1 & H2 & _); [by vm_compute|]. exists pre, post. split; [exact H1|exact H2].
Defined.

Definition raid_facts : holder_facts :=
  [("8:0", [[("major_minor", "9:0")]]); ("9:0", [[("major_minor", "253:0")]; [("major_minor", "8:0")]])].

Lemma separation_exact_witness :
  sp_separate (evaluate_destination_separation (disk "8:0") "/mnt/out" two_mounts raid_facts) = true /\
  ~ rtc (stacked_on raid_facts) "8:0" "8:16".
Proof.
  assert (sp_separate (evaluate_destination_separation (disk "8:0") "/mnt/out" two_mounts raid_facts) = true)
    as E by by vm_compute.
  split; [exact E|]. intros Hr. apply separation_exact in E as (p & m & Hp & _ & _ & Hm & Hd).
  injection Hp as <-. vm_compute in Hm. injection Hm as <-.
  destruct Hd as [Hn|Hd]; [revert Hn; apply (bool_decide_unpack _); by vm_compute|].
  apply (Hd "8:0" "8:0"); [left|constructor|exact Hr].
Defined.

Example stacked_destination_refused :
  let r := evaluate_destination_separation (disk "8:0") "/mnt/out" [table_entry "253:0" "/mnt"] raid_facts in
  sp_separate r = false /\
  sp_blockers r = [("destination_shares_source_physical_disk", "8:0,9:0")] /\
  sp_destination_ancestry r = ["8:0"; "9:0"; "253:0"].
Proof. by vm_compute. Qed.

Lemma live_separation_safe_witness :
  exists r, evaluate_live_destination_separation sample_list sample_dev id
      (holder_fuel sample_list sample_dev sample_tree (source_major_minors sample_device))
      sample_device "/home/user" (Some sample_table) true true = Some r /\ sp_separate r = true /\
    ~ sysfs_depends sample_list sample_dev (source_major_minors sample_device) "8:16".
Proof.
  destruct (live_separation_safe sample_list sample_dev id (fun l => reflexivity l) sample_tree)
    with (source := sample_device) (destination := "/home/user") (mountinfo := Some sample_table)
      (mountinfo_file := true) (sysfs_available := true) as (r & E & Hr).
  - apply (bool_decide_unpack _). by vm_compute.
  - exact sample_closed.
  - apply Forall_forall, (bool_decide_unpack _). by vm_compute.
  - assert (sp_separate <$> evaluate_live_destination_separation sample_list sample_dev id
      (holder_fuel sample_list sample_dev sample_tree (source_major_minors sample_device))
      sample_device "/home/user" (Some sample_table) true true = Some true) as Es by by vm_compute.
    rewrite E in Es. injection Es as Es. exists r. split; [exact E|]. split; [exact Es|].
    destruct (Hr Es) as (_ & _ & p & Hp & _ & _ & Hd). injection Hp as <-.
    assert (Hentries : omap normalize_backing (read_mountinfo (Some sample_table)).1 =
              [Backing ["mnt"; " old"] "253:0" "ext4"; Backing ["home"] "8:16" "ext4"]) by by vm_compute.
    rewrite Hentries in Hd. destruct (Hd (Backing ["home"] "8:16" "ext4")) as [Hn|Hn].
    + split; [right; by left|]. split; [by vm_compute|]. intros k [->|[->|[]%elem_of_nil]%elem_of_cons]%elem_of_cons; [done|by intros].
    + intros k [->|[->|[]%elem_of_nil]%elem_of_cons]%elem_of_cons; done.
    + exfalso; revert Hn; apply (bool_decide_unpack _); by vm_compute.
    + exact Hn.
Defined.
