(* ===== verification/DestinationContract.v ===== *)
(** * Destination and export contracts (src/shared/destination_contract.py)

    Profiles of destinations, immutable snapshots of a selection, status records, their
    validation, and the recheck of the separation from the source at the time of an export.  The
    theorems: a profile the module builds validates exactly when its parts are in order, a status
    it builds validates, and a destination passes the recheck exactly when [DestinationSeparation]
    finds it separate. *)

From Stdlib Require Import ZArith Lia String Ascii.
From stdpp Require Import base list strings gmap sorting relations.
From S2P Require Import Prelude PyStr Json Identifiers Messages Paths Devices StorageInspection DestinationSeparation.

Local Open Scope string_scope.
Local Open Scope Z_scope.

Abbreviation mapping := (list (string * value)).

Definition DESTINATION_CONTRACT_VERSION : Z := 1.
(** shared/destination_contract.py:19-19 DESTINATION_KINDS *)
Definition DESTINATION_KINDS : list string := ["local"; "nas"; "sftp"; "webdav"; "s3"; "cloud"; "rclone"].
(** shared/destination_contract.py:20-22 EXPORT_STATES *)
Definition EXPORT_STATES : list string := ["pending"; "running"; "completed"; "completed-warning"; "failed"; "cancelled"].
(** shared/destination_contract.py:24-32 CAPABILITY_NAMES *)
Definition CAPABILITY_NAMES : list string :=
  ["checksum"; "resume"; "atomic_finalize"; "streaming"; "source_separation_provable"].
Definition VAULT_PREFIX : string := "vault:".

(** shared/destination_contract.py:38-41 DestinationValidationResult *)
Record DestinationValidationResult := DVR { dv_valid : bool; dv_warnings : list string }.

(** The exceptions of the module are the interpreter's [TypeError]s: an unhashable value in a set
    test, a pattern on something that is no text. *)
Inductive contract_error := ContractTypeError.

Abbreviation checked := (result contract_error).

Definition in_set (v : value) (names : list string) : checked bool :=
  match member_of v names with Some b => Ok b | None => Err ContractTypeError end.

(** shared/destination_contract.py:293-296 _matches, for the pattern of opaque identifiers. *)
Definition matches_opaque (v : value) : checked bool :=
  match v with VStr s => Ok (opaque_id s) | _ => Err ContractTypeError end.

(** [d.get(k, default)]. *)
Definition get_default (d : mapping) (k : string) (v : value) : value := default v (dict_get d k).

(** ** Building *)

(** shared/destination_contract.py:253-272 _default_capabilities *)
Definition default_capabilities (kind : string) : list value :=
  (fun name => VDict [("name", VStr name);
     ("supported", VBool (String.eqb kind "local" || negb (String.eqb name "atomic_finalize"))); ("detail", VStr "default")])
  <$> CAPABILITY_NAMES.

(** shared/destination_contract.py:275-278 _default_verification_flags *)
Definition default_verification_flags (kind : string) : mapping :=
  [("can_verify_checksum", VBool true); ("can_atomic_rename", VBool (String.eqb kind "local"))].

(** shared/destination_contract.py:281-290 _normalize_capability *)
Definition normalize_capability (item : value) : checked value :=
  let capability name supported detail :=
    VDict [("name", name); ("supported", VBool supported); ("detail", VStr detail)] in
  match item with
  | VDict d =>
    known ← in_set (get_or_none d "name") CAPABILITY_NAMES;
    Ok (if known : bool
        then capability (get_or_none d "name") (truthy (get_default d "supported" (VBool false))) (py_str (get_default d "detail" (VStr "")))
        else capability (VStr "") false "")
  | VStr s => Ok (capability (VStr s) true "")
  | _ => Ok (capability (VStr "") false "")
  end.

(** shared/destination_contract.py:44-71 destination_profile *)
Definition destination_profile (destination_id kind label : string) (capabilities : option (list value))
    (verification_flags : option mapping) (secret_ref : option string) (created_at : string) : checked mapping :=
  let selected := default (default_capabilities kind) capabilities in
  let flags := match verification_flags with Some ((_ :: _) as f) => f | _ => default_verification_flags kind end in
  capabilities ← mapM_result normalize_capability selected;
  Ok [("schema_version", VInt DESTINATION_CONTRACT_VERSION); ("destination_id", VStr destination_id); ("kind", VStr kind);
      ("label", VStr label); ("capabilities", VList capabilities); ("verification_flags", VDict flags);
      ("secret_ref", match secret_ref with Some s => VStr s | None => VNone end); ("created_at", VStr created_at)].

(** shared/destination_contract.py:74-96 export_snapshot *)
Definition export_snapshot (snapshot_id case_id : string) (filter_snapshot : mapping) (item_ids : list string)
    (manifest_sha256 created_at : string) : mapping :=
  [("schema_version", VInt DESTINATION_CONTRACT_VERSION); ("snapshot_id", VStr snapshot_id); ("case_id", VStr case_id);
   ("filter_snapshot", VDict filter_snapshot); ("item_ids", VList (VStr <$> item_ids));
   ("manifest_sha256", VStr manifest_sha256); ("created_at", VStr created_at)].

Definition COUNT_NAMES : list string := ["ready"; "exported"; "waiting"; "failed"].

(** shared/destination_contract.py:99-130 export_status *)
Definition export_status (export_id snapshot_id state : string) (counts : list (string * Z)) (items : list mapping)
    (created_at updated_at : string) (errors : option (list mapping)) : mapping :=
  [("schema_version", VInt DESTINATION_CONTRACT_VERSION); ("export_id", VStr export_id); ("snapshot_id", VStr snapshot_id);
   ("state", VStr state);
   ("counts", VDict ((fun name => (name, VInt (default 0 (dict_get counts name)))) <$> COUNT_NAMES));
   ("items", VList (VDict <$> items)); ("errors", VList (VDict <$> default [] errors));
   ("created_at", VStr created_at); ("updated_at", VStr updated_at)].

(** ** Validation *)

Definition warn_if (b : bool) (w : string) : list string := if b then [w] else [].

(** shared/destination_contract.py:147-163 validate_destination_profile: the capabilities. *)
Definition capability_warnings (capabilities : value) : list string :=
  match capabilities with
  | VList ((_ :: _) as items) =>
    let records := omap (fun v => match v with VDict d => Some d | _ => None end) items in
    let names := dedup (omap (fun d => match get_or_none d "name" with VStr s => Some s | _ => None end) records) in
    let unknown := sorted_strings (filter_b (fun n => negb (bool_decide (n ∈ CAPABILITY_NAMES))) names) in
    ((if bool_decide (unknown = []) then [] else ["unknown_capability:" +:+ join "," unknown]) ++
     concat ((fun d => match get_or_none d "supported" with VBool _ => [] | _ => ["capability_must_be_boolean"] end) <$> records))%list
  | _ => ["missing_capabilities"]
  end.

(** shared/destination_contract.py:165-169 validate_destination_profile: the flags. *)
Definition flag_warnings (flags : value) : list string :=
  match flags with
  | VDict d => concat ((fun '(name, v) => match v with VBool _ => []
                                     | _ => ["verification_flag_must_be_boolean:" +:+ name] end) <$> d)
  | _ => []
  end.

(** shared/destination_contract.py:171-178 validate_destination_profile: the secret. *)
Definition secret_warnings (secret_ref kind : value) : checked (list string) :=
  match secret_ref with
  | VNone =>
    remote ← in_set kind ["nas"; "sftp"; "webdav"; "s3"; "cloud"; "rclone"];
    Ok (warn_if remote "missing_secret_for_remote_destination")
  | VStr s =>
    Ok (if negb (starts_with VAULT_PREFIX s) then ["secret_ref_must_be_opaque_vault_reference"]
        else warn_if (is_text kind "local") "local_destination_cannot_have_secret")
  | _ => Ok ["secret_ref_must_be_opaque_vault_reference"]
  end.

(** shared/destination_contract.py:133-181 validate_destination_profile *)
Definition validate_destination_profile (profile : mapping) : checked DestinationValidationResult :=
  if negb (is_int (get_or_none profile "schema_version") DESTINATION_CONTRACT_VERSION)
  then Ok (DVR false ["unsupported_schema_version"])
  else
    id_ok ← matches_opaque (get_default profile "destination_id" (VStr ""));
    let kind := get_or_none profile "kind" in
    kind_ok ← in_set kind DESTINATION_KINDS;
    let label_ok := match get_or_none profile "label" with VStr s => negb (String.eqb (strip s) "") | _ => false end in
    secrets ← secret_warnings (get_or_none profile "secret_ref") kind;
    let warnings := (warn_if (negb id_ok) "invalid_destination_id" ++ warn_if (negb kind_ok) "unknown_destination_kind" ++
                     warn_if (negb label_ok) "missing_label" ++ capability_warnings (get_or_none profile "capabilities") ++
                     flag_warnings (get_or_none profile "verification_flags") ++ secrets)%list in
    Ok (DVR (bool_decide (warnings = [])) warnings).

(** shared/destination_contract.py:184-200 validate_export_snapshot *)
Definition validate_export_snapshot (snapshot : mapping) : checked DestinationValidationResult :=
  if negb (is_int (get_or_none snapshot "schema_version") DESTINATION_CONTRACT_VERSION)
  then Ok (DVR false ["unsupported_schema_version"])
  else
    id_ok ← matches_opaque (get_default snapshot "snapshot_id" (VStr ""));
    let items_ok := match get_or_none snapshot "item_ids" with VList _ => true | _ => false end in
    let manifest_ok := match get_or_none snapshot "manifest_sha256" with
                       | VStr s => (str_len s =? 64) && forallb is_hex_lower (chars s)
                       | _ => false
                       end in
    let warnings := (warn_if (negb id_ok) "invalid_snapshot_id" ++ warn_if (negb items_ok) "missing_item_ids" ++
                     warn_if (negb manifest_ok) "invalid_manifest_sha256")%list in
    Ok (DVR (bool_decide (warnings = [])) warnings).

(** shared/destination_contract.py:203-219 validate_export_status *)
Definition validate_export_status (status : mapping) : checked DestinationValidationResult :=
  if negb (is_int (get_or_none status "schema_version") DESTINATION_CONTRACT_VERSION)
  then Ok (DVR false ["unsupported_schema_version"])
  else
    id_ok ← matches_opaque (get_default status "export_id" (VStr ""));
    state_ok ← in_set (get_or_none status "state") EXPORT_STATES;
    let counts := match get_or_none status "counts" with
                  | VDict counts => concat ((fun name =>
                      match int_value (get_or_none counts name) with
                      | Some z => warn_if (z <? 0) ("invalid_count:" +:+ name)
                      | None => ["invalid_count:" +:+ name]
                      end) <$> COUNT_NAMES)
                  | _ => ["missing_counts"]
                  end in
    let warnings := (warn_if (negb id_ok) "invalid_export_id" ++ warn_if (negb state_ok) "unknown_export_state" ++ counts)%list in
    Ok (DVR (bool_decide (warnings = [])) warnings).

(** ** The recheck *)

(** The record [recheck_source_separation] returns. *)
Record recheck := Recheck {
  rc_destination_path : path; rc_separate : bool; rc_blockers : list (string * string); rc_warnings : list string;
  rc_destination_ancestry : list string }.

(** shared/destination_contract.py:222-250 recheck_source_separation *)
Definition recheck_source_separation `{PathOps} (destination_path : string) (source : mapping) (mounts : list mount_fact)
    (holders : holder_facts) : recheck :=
  let r := evaluate_destination_separation source (path_str (parse_path destination_path)) mounts holders in
  Recheck (sp_resolved_path r) (sp_separate r) (sp_blockers r) (sp_warnings r) (sp_destination_ancestry r).

(** ** Profiles *)

Lemma warn_if_nil b w : warn_if b w = [] <-> b = false.
Proof. by destruct b. Qed.

(** A capability in order: one of the known names, as a text or as the name of a record. *)
Definition named (c : value) : Prop :=
  exists s, s ∈ CAPABILITY_NAMES /\ (c = VStr s \/ exists d, c = VDict d /\ get_or_none d "name" = VStr s).

Lemma normalize_named c c' :
  normalize_capability c = Ok c' ->
  exists d s b, c' = VDict d /\ get_or_none d "name" = VStr s /\ get_or_none d "supported" = VBool b /\
    (named c <-> s ∈ CAPABILITY_NAMES).
Proof.
  set (none := [("name", VStr ""); ("supported", VBool false); ("detail", VStr "")]).
  assert (Hno : ~ named c -> c' = VDict none -> exists d s b, c' = VDict d /\ get_or_none d "name" = VStr s /\
            get_or_none d "supported" = VBool b /\ (named c <-> s ∈ CAPABILITY_NAMES)).
  { intros Hn ->. exists none, "", false. split_and!; [done..|]. split; [done|]. intros Hs. exfalso. revert Hs.
    apply (bool_decide_unpack _). by vm_compute. }
  assert (Hother : (forall s, c <> VStr s) -> (forall d, c <> VDict d) -> ~ named c).
  { intros H1 H2 (s & _ & [->|(d & -> & _)]); [by eapply H1|by eapply H2]. }
  destruct c as [| | |s| | |d]; try (intros [= <-]; apply Hno; [by apply Hother|done]).
  - intros [= <-]. eexists _, s, true. split_and!; [done..|]. split.
    + by intros (t & Ht & [[= ->]|(? & [=] & _)]).
    + intros Hs. exists s. auto.
  - assert (Hd : forall s, get_or_none d "name" = VStr s -> named (VDict d) <-> s ∈ CAPABILITY_NAMES).
    { intros s E. split.
      - intros (t & Ht & [[=]|(e & [= <-] & He)]). rewrite E in He. by injection He as <-.
      - intros Hs. exists s. split; [done|]. right. by exists d. }
    unfold normalize_capability, in_set, member_of. destruct (get_or_none d "name") as [| | |s| | |] eqn:En;
      try (intros [= <-]; apply Hno; [|done]; intros (t & _ & [[=]|(e & [= <-] & He)]); congruence); try done.
    cbn [mbind result_bind]. case_bool_decide as Hs; intros [= <-].
    + eexists _, s, _. split_and!; [done..|]. by apply Hd.
    + apply Hno; [|done]. by rewrite (Hd s).
Qed.

Lemma capability_warnings_nil items caps :
  mapM_result normalize_capability items = Ok caps ->
  (capability_warnings (VList caps) = [] <-> items <> [] /\ Forall named items).
Proof.
  intros Hm. assert (Forall2 (fun c c' => normalize_capability c = Ok c') items caps) as Hf.
  { revert caps Hm. induction items as [|c items IH]; intros caps; cbn [mapM_result]; [intros [= <-]; constructor|].
    intros (c' & Hc & (rest & Hr & [= <-])%bind_ok)%bind_ok. constructor; [done|by apply IH]. }
  unfold capability_warnings. destruct caps as [|c0 caps0] eqn:Ecaps; [inversion Hf; subst; split; [done|by intros [? _]]|].
  assert (Hcne : caps <> []) by by rewrite Ecaps. rewrite <- Ecaps in *. clear c0 caps0 Ecaps.
  set (records := omap (fun v => match v with VDict d => Some d | _ => None end) caps).
  assert (Hb : concat ((fun d => match get_or_none d "supported" with VBool _ => [] | _ => ["capability_must_be_boolean"] end) <$> records) = []).
  { unfold records. clear Hm Hcne. induction Hf as [|c c' items caps Hc _ IH]; [done|].
    apply normalize_named in Hc as (d & s & b & -> & _ & Hs & _). csimpl. rewrite Hs. exact IH. }
  rewrite Hb, app_nil_r.
  set (names := dedup (omap (fun d => match get_or_none d "name" with VStr s => Some s | _ => None end) records)).
  assert (Hn : Forall named items <-> forall s, s ∈ names -> s ∈ CAPABILITY_NAMES).
  { unfold names, records. setoid_rewrite elem_of_dedup. clear Hm Hb Hcne names records.
    induction Hf as [|c c' items caps Hc _ IH]; [split; [by intros _ s ?%elem_of_nil|done]|].
    apply normalize_named in Hc as (d & s & b & -> & Hs & _ & Hn). csimpl. rewrite Hs. csimpl.
    rewrite Forall_cons, IH, Hn. setoid_rewrite elem_of_cons. split; [intros [H1 H2] t [->|Ht]; auto|].
    intros H. split; auto. }
  assert (Hne : items <> []) by (intros ->; inversion Hf; subst; done).
  rewrite Hn. case_bool_decide as E.
  - split; [|done]. intros _. split; [done|]. intros s Hs. destruct (decide (s ∈ CAPABILITY_NAMES)) as [|Hx]; [done|]. exfalso.
    assert (s ∈ ([] : list string)) as Hnil; [|by apply elem_of_nil in Hnil]. rewrite <- E. unfold sorted_strings.
    rewrite merge_sort_Permutation. apply elem_of_filter_b. split; [done|]. by rewrite bool_decide_false.
  - split; [done|]. intros [_ Hall]. exfalso. apply E. rewrite filter_b_none; [done|]. intros s Hs. by rewrite bool_decide_true by auto.
Qed.

Lemma flag_warnings_nil flags :
  flag_warnings (VDict flags) = [] <-> Forall (fun kv => exists b, kv.2 = VBool b) flags.
Proof.
  cbn [flag_warnings]. induction flags as [|[k v] flags IH]; [done|]. csimpl. rewrite app_nil, Forall_cons, IH. apply and_iff_compat_r.
  cbn. destruct v; split; try done; (by intros [? [=]]) || by eexists.
Qed.

(** A profile in order. *)
Definition profile_ok (destination_id kind label : string) (capabilities : option (list value))
    (verification_flags : option mapping) (secret_ref : option string) : Prop :=
  opaque_id destination_id = true /\ kind ∈ DESTINATION_KINDS /\ strip label <> "" /\
  (capabilities <> Some [] /\ Forall named (default [] capabilities)) /\
  Forall (fun kv => exists b, kv.2 = VBool b) (default [] verification_flags) /\
  match secret_ref with
  | None => kind = "local"
  | Some s => starts_with VAULT_PREFIX s = true /\ kind <> "local"
  end.

Lemma default_named kind : Forall named (default_capabilities kind).
Proof.
  unfold default_capabilities. apply Forall_fmap, Forall_forall. intros name Hn. exists name. split; [done|]. right. by eexists.
Qed.

(** A destination profile validates exactly when it is in order.  Whatever the module builds a
    profile from, its validation returns a verdict and the verdict is positive if and only if the
    identifier is opaque, the kind is known, the label is not blank, there are capabilities and all
    of them are known, every flag is a boolean, and credentials are a reference into the vault
    that a remote destination has and a local one has not. *)
Theorem profile_valid_iff destination_id kind label capabilities verification_flags secret_ref created_at p :
  destination_profile destination_id kind label capabilities verification_flags secret_ref created_at = Ok p ->
  exists r, validate_destination_profile p = Ok r /\
    (dv_valid r = true <-> profile_ok destination_id kind label capabilities verification_flags secret_ref).
Proof.
  unfold destination_profile. set (flags := match verification_flags with Some ((_ :: _) as f) => f | _ => _ end).
  intros (caps & Hcaps & [= <-])%bind_ok. unfold validate_destination_profile.
  cbn [get_or_none get_default dict_get String.eqb Ascii.eqb Bool.eqb default from_option id is_int Z.eqb negb matches_opaque mbind result_bind in_set member_of].
  set (sec := match secret_ref with Some s => VStr s | None => VNone end).
  assert (exists ws, secret_warnings sec (VStr kind) = Ok ws /\
            (kind ∈ DESTINATION_KINDS -> ws = [] <-> match secret_ref with None => kind = "local"
              | Some s => starts_with VAULT_PREFIX s = true /\ kind <> "local" end)) as (ws & -> & Hws).
  { unfold sec, secret_warnings. destruct secret_ref as [s|].
    - eexists. split; [reflexivity|]. intros _. destruct (starts_with VAULT_PREFIX s); cbn [negb]; [|split; [done|by intros [? _]]].
      cbn [is_text]. rewrite warn_if_nil, String.eqb_neq. tauto.
    - cbn [in_set member_of mbind result_bind]. eexists. split; [reflexivity|]. intros Hk. rewrite warn_if_nil, bool_decide_eq_false.
      unfold DESTINATION_KINDS in Hk. apply elem_of_cons in Hk as [->|Hk].
      + split; [done|]. intros _. apply (bool_decide_unpack _). by vm_compute.
      + split; [by intros ?|]. intros ->. exfalso. revert Hk. apply (bool_decide_unpack _). by vm_compute. }
  cbn [mbind result_bind]. eexists. split; [reflexivity|]. cbn [dv_valid]. rewrite bool_decide_eq_true.
  rewrite !app_nil, !warn_if_nil, !negb_false_iff, bool_decide_eq_true, negb_true_iff, String.eqb_neq.
  assert (Hc : capability_warnings (VList caps) = [] <-> capabilities <> Some [] /\ Forall named (default [] capabilities)).
  { rewrite (capability_warnings_nil _ _ Hcaps). destruct capabilities as [l|]; cbn [default from_option id].
    - apply and_iff_compat_r. split; congruence.
    - split; [done|]. intros _. split; [done|apply default_named]. }
  assert (Hf : flag_warnings (VDict flags) = [] <-> Forall (fun kv => exists b, kv.2 = VBool b) (default [] verification_flags)).
  { rewrite flag_warnings_nil. unfold flags. destruct verification_flags as [[|f fs]|]; cbn [default from_option id]; [|done|];
      (split; [done|]; intros _; repeat constructor; by eexists). }
  unfold profile_ok. rewrite Hc, Hf. split.
  - intros (H1 & H2 & H3 & H4 & H5 & H6). refine (conj H1 (conj H2 (conj H3 (conj H4 (conj H5 _))))). by apply Hws.
  - intros (H1 & H2 & H3 & H4 & H5 & H6). refine (conj H1 (conj H2 (conj H3 (conj H4 (conj H5 _))))). by apply Hws.
Qed.

Lemma profile_valid_iff_witness :
  exists p r, destination_profile "dest_0123456789abcdef" "s3" "Bucket" None None (Some "vault:1") "t" = Ok p /\
    validate_destination_profile p = Ok r /\ dv_valid r = true.
Proof.
  destruct (destination_profile "dest_0123456789abcdef" "s3" "Bucket" None None (Some "vault:1") "t") as [p|] eqn:E; [|by vm_compute in E].
  destruct (profile_valid_iff _ _ _ _ _ _ _ _ E) as (r & Hr & Hok). exists p, r. split; [reflexivity|]. split; [exact Hr|].
  apply Hok. split_and!; try done. apply (bool_decide_unpack _). by vm_compute.
Defined.

(** ** Snapshots, statuses, separation *)

(** A status the module builds from counts validates exactly when its identifier and state are in
    order and no count is negative. *)
Lemma status_valid_iff export_id snapshot_id state counts items created_at updated_at errors :
  exists r, validate_export_status (export_status export_id snapshot_id state counts items created_at updated_at errors) = Ok r /\
    (dv_valid r = true <-> opaque_id export_id = true /\ state ∈ EXPORT_STATES /\
       forall name, name ∈ COUNT_NAMES -> 0 <= default 0 (dict_get counts name)).
Proof.
  unfold validate_export_status, export_status.
  cbn [get_or_none get_default dict_get String.eqb Ascii.eqb Bool.eqb default from_option id is_int Z.eqb negb matches_opaque mbind result_bind in_set member_of].
  eexists. split; [reflexivity|]. cbn [dv_valid]. rewrite bool_decide_eq_true.
  rewrite !app_nil, !warn_if_nil, !negb_false_iff, bool_decide_eq_true. do 2 apply and_iff_compat_l.
  assert (Hc : forall name, get_or_none ((fun name => (name, VInt (default 0 (dict_get counts name)))) <$> COUNT_NAMES) name =
            if bool_decide (name ∈ COUNT_NAMES) then VInt (default 0 (dict_get counts name)) else VNone).
  { intros name. unfold COUNT_NAMES, get_or_none. csimpl.
    repeat match goal with |- context [String.eqb name ?k] => destruct (String.eqb_spec name k) as [->|]; [done|] end.
    rewrite bool_decide_false; [done|]. rewrite !not_elem_of_cons. split_and!; try done. apply not_elem_of_nil. }
  assert (Hk : forall k, concat ((fun name => match int_value (get_or_none ((fun name => (name, VInt (default 0 (dict_get counts name)))) <$> COUNT_NAMES) name) with
                      | Some z => warn_if (z <? 0) ("invalid_count:" +:+ name)
                      | None => ["invalid_count:" +:+ name] end) <$> k) = [] <->
             Forall (fun name => name ∈ COUNT_NAMES /\ 0 <= default 0 (dict_get counts name)) k).
  { induction k as [|name k IH]; [done|]. csimpl. rewrite app_nil, IH, Forall_cons. apply and_iff_compat_r. assert (Hx : match int_value (get_or_none ((fun name => (name, VInt (default 0 (dict_get counts name)))) <$> COUNT_NAMES) name) with
                      | Some z => warn_if (z <? 0) ("invalid_count:" +:+ name)
                      | None => ["invalid_count:" +:+ name] end = [] <-> name ∈ COUNT_NAMES /\ 0 <= default 0 (dict_get counts name)).
    { rewrite Hc. case_bool_decide; cbn [int_value]; [rewrite warn_if_nil, Z.ltb_ge; tauto|split; [done|by intros [? _]]]. }
    exact Hx. }
  rewrite Hk, Forall_forall. split; intros H name Hn; [by destruct (H name Hn)|]. split; [done|by apply H].
Qed.

Lemma recheck_separate `{PathOps} destination source mounts holders :
  rc_separate (recheck_source_separation destination source mounts holders) = true <->
  exists p m, path_resolve (path_str (parse_path destination)) = Some p /\ path_exists (path_str (parse_path destination)) = true /\
    source_major_minors source <> [] /\ find_mount p mounts = Some m /\
    (bk_fstype m ∈ NETWORK_FILESYSTEMS \/
     forall s a, s ∈ source_major_minors source -> rtc (stacked_on holders) a s ->
       rtc (stacked_on holders) a (bk_major_minor m) -> False).
Proof. apply separated_iff. Qed.
