(* ===== verification/LocalExport.v ===== *)
(** * Verified local export (src/worker/local_export.py)

    One item is copied in chunks to a partial file, verified against the recorded size and digest,
    synced, and renamed to its final name.  The file system is a map from paths to contents; every
    system call of the run may fail, as a record of faults decides.  The theorems: a completed
    item is the recorded content under its final name; a failure leaves the earlier copy and every
    other file alone; without faults a non-empty item completes; and an empty file is never
    exported.

    Directories are a predicate, and the resolution of a path is an interface.  The bytes a read
    returns are those of the file when it was opened; a read that fails in mid-copy ends the export
    like a failed write at the same place, and is not a fault of its own. *)

From Stdlib Require Import ZArith Lia String Ascii.
From stdpp Require Import base list strings gmap sorting.
From S2P Require Import Prelude PyStr Json Sha256 Paths StorageInspection DestinationSeparation DestinationContract.

Local Open Scope string_scope.
Local Open Scope Z_scope.

Definition COPY_CHUNK_BYTES : Z := 1048576.
Definition PARTIAL_SUFFIX : string := ".partial".
Definition FINAL_SUFFIX : string := ".final".

(** worker/local_export.py:28-33 ExportError, and the [OSError] of a system call. *)
Inductive export_failure := ExportError (code : string) | ExportOSError (errno : Z).

Abbreviation step := (result export_failure).

(** worker/local_export.py:36-41 ExportItem *)
Record ExportItem := {
  ei_export_item_id : string; ei_source_path : string; ei_expected_size : Z; ei_expected_sha256 : string }.

(** worker/local_export.py:44-50 ExportProgress *)
Record ExportProgress := {
  ep_item_id : string; ep_copied_bytes : Z; ep_total_bytes : Z; ep_phase : string; ep_updated_at : string }.

(** worker/local_export.py:53-75 ExportResult *)
Record ExportResult := {
  er_item_id : string; er_state : string; er_destination_path : option string; er_size : Z; er_sha256 : option string;
  er_verified : bool; er_error : option string; er_updated_at : string }.

(** worker/local_export.py:64-75 failed *)
Definition failed (item_id error now : string) : ExportResult :=
  {| er_item_id := item_id; er_state := "failed"; er_destination_path := None; er_size := 0; er_sha256 := None;
     er_verified := false; er_error := Some error; er_updated_at := now |}.

(** ** The file system *)

Abbreviation files := (gmap pypath bytes).

(** [Path(s).resolve()] and [Path.is_dir()]. *)
Class ExportFs := {
  fs_resolve : string -> pypath;
  fs_is_dir : pypath -> bool }.

(** Which system calls fail, with their error numbers: opening the source, the write of the n-th
    chunk after some bytes, reading the copy back, the sync of the file, the rename, the sync of
    the directory; and whether the removal of the partial file fails. *)
Record faults := {
  ft_open : option Z; ft_write : nat -> option (nat * Z); ft_read_back : option Z; ft_sync : option Z;
  ft_replace : option Z; ft_sync_dir : option Z; ft_unlink : bool }.

Definition no_faults : faults :=
  {| ft_open := None; ft_write := fun _ => None; ft_read_back := None; ft_sync := None; ft_replace := None;
     ft_sync_dir := None; ft_unlink := false |}.

(** The number of [ENOENT]. *)
Definition ENOENT : Z := 2.

(** [root / name]. *)
Definition path_div (root : pypath) (name : string) : pypath :=
  let q := parse_path name in if is_absolute q then q else PyPath (p_root root) (p_parts root ++ p_parts q)%list.

(** [handle.read(n)] of what is left. *)
Definition read_some (n : Z) (l : bytes) : bytes := if (n <? 0) || (zlen l <=? n) then l else take (Z.to_nat n) l.

(** worker/local_export.py:257-259 _default_writer: append to the file, which the open creates. *)
Definition default_writer (d : files) (p : pypath) (chunk : bytes) (fault : option (nat * Z)) : files * step unit :=
  let old := default [] (d !! p) in
  match fault with
  | None => (<[p := (old ++ chunk)%list]> d, Ok tt)
  | Some (n, errno) => (<[p := (old ++ take n chunk)%list]> d, Err (ExportOSError errno))
  end.

Section export.
Context `{ExportFs}.

(** worker/local_export.py:82-90 ensure_under_root *)
Definition ensure_under_root (path root : string) : step pypath :=
  let resolved_path := fs_resolve path in
  let resolved_root := fs_resolve root in
  _ ← raise_if (negb (bool_decide (resolved_root = resolved_path)) && negb (in_parents resolved_root resolved_path))
        (ExportError "source_outside_scratch");
  Ok resolved_path.

(** worker/local_export.py:93-114 prove_destination_separation *)
Definition prove_destination_separation `{PathOps} (destination_path : string) (source : mapping) (mounts : option (list mount_fact))
    (holders : option holder_facts) : step string :=
  let r := recheck_source_separation destination_path source (default [] mounts) (default [] holders) in
  _ ← raise_if (negb (rc_separate r)) (ExportError "destination_not_separate_from_source");
  Ok (path_text (rc_destination_path r)).

(** worker/local_export.py:117-133 prepare_copy: [token] is [secrets.token_hex(8)]. *)
Definition prepare_copy (d : files) (item_id destination_dir token : string) (replace : bool) : step (pypath * pypath) :=
  let root := fs_resolve destination_dir in
  _ ← raise_if (negb (fs_is_dir root)) (ExportError "destination_missing");
  let final := path_div root (item_id +:+ FINAL_SUFFIX) in
  _ ← raise_if ((bool_decide (is_Some (d !! final)) || fs_is_dir final) && negb replace) (ExportError "destination_exists");
  Ok (path_div root ("." +:+ item_id +:+ "." +:+ token +:+ PARTIAL_SUFFIX), final).

(** worker/local_export.py:151-171 copy_stream: the loop over the chunks, with the bytes copied so far, the
    bytes hashed so far and the progress reports; [n] counts the chunks. *)
Fixpoint copy_loop (fuel : nat) (ft : faults) (item : ExportItem) (partial : pypath) (now : string) (chunk_size : Z)
    (rest : bytes) (n : nat) (hashed : bytes) (reports : list ExportProgress) (d : files)
    : files * list ExportProgress * step bytes :=
  match fuel with
  | O => (d, reports, Ok hashed)
  | S fuel =>
    let chunk := read_some chunk_size rest in
    if bool_decide (chunk = []) then (d, reports, Ok hashed)
    else if ei_expected_size item <? zlen hashed + zlen chunk then (d, reports, Err (ExportError "source_changed"))
    else
      let (d, r) := default_writer d partial chunk (ft_write ft n) in
      match r with
      | Err _ => (d, reports, Err (ExportError "copy_io_failed"))
      | Ok _ =>
        let hashed := (hashed ++ chunk)%list in
        let report := {| ep_item_id := ei_export_item_id item; ep_copied_bytes := zlen hashed;
                         ep_total_bytes := ei_expected_size item; ep_phase := "copying"; ep_updated_at := now |} in
        copy_loop fuel ft item partial now chunk_size (drop (length chunk) rest) (S n) hashed (reports ++ [report])%list d
      end
  end.

(** [os.path.dirname(path)]. *)
Definition dirname (path : string) : string :=
  let head := rev (drop_while (fun c => negb (Ascii.eqb c "/"%char)) (rev (chars path))) in
  if forallb (fun c => Ascii.eqb c "/"%char) head then of_chars head
  else of_chars (rdrop_while (fun c => Ascii.eqb c "/"%char) head).

(** worker/local_export.py:136-175 copy_stream *)
Definition copy_stream (ft : faults) (item : ExportItem) (partial : pypath) (now : string) (chunk_size : Z) (d : files)
    : files * list ExportProgress * step (Z * string) :=
  match ensure_under_root (ei_source_path item) (dirname (ei_source_path item)) with
  | Err e => (d, [], Err e)
  | Ok source =>
    match ft_open ft, d !! source with
    | None, Some content =>
      let '(d, reports, r) := copy_loop (S (length content)) ft item partial now chunk_size content 0 [] [] d in
      (d, reports,
       hashed ← r;
       _ ← raise_if (negb (zlen hashed =? ei_expected_size item)) (ExportError "source_changed");
       Ok (zlen hashed, sha256_hex hashed))
    | _, _ => (d, [], Err (ExportError "copy_io_failed"))
    end
  end.

(** worker/local_export.py:178-189 verify_copy *)
Definition verify_copy (ft : faults) (partial : pypath) (expected_size : Z) (expected_sha256 : string) (d : files) : step unit :=
  match d !! partial with
  | None => Err (ExportOSError ENOENT)
  | Some content =>
    _ ← raise_if (negb (zlen content =? expected_size)) (ExportError "verification_failed");
    match ft_read_back ft with
    | Some errno => Err (ExportOSError errno)
    | None => raise_if (negb (String.eqb (sha256_hex content) expected_sha256)) (ExportError "verification_failed")
    end
  end.

(** worker/local_export.py:192-203 finalize_copy *)
Definition finalize_copy (ft : faults) (partial final : pypath) (d : files) : files * step unit :=
  match ft_sync ft, d !! partial with
  | Some errno, _ => (d, Err (ExportOSError errno))
  | None, None => (d, Err (ExportOSError ENOENT))
  | None, Some content =>
    match ft_replace ft, fs_is_dir final with
    | None, false =>
      let d := <[final := content]> (delete partial d) in
      (d, match ft_sync_dir ft with Some errno => Err (ExportOSError errno) | None => Ok tt end)
    | _, _ => (d, Err (ExportError "finalize_failed"))
    end
  end.

(** worker/local_export.py:206-213 cleanup_partial *)
Definition cleanup_partial (ft : faults) (partial : pypath) (d : files) : files * bool :=
  if ft_unlink ft then (d, false) else (delete partial d, bool_decide (is_Some (d !! partial))).

(** worker/local_export.py:236-239 export_local_item: from the copy to the rename. *)
Definition copy_verify_finalize (ft : faults) (item : ExportItem) (partial final : pypath) (now : string) (d : files)
    : files * list ExportProgress * step (Z * string) :=
  let '(d, reports, r) := copy_stream ft item partial now COPY_CHUNK_BYTES d in
  match (_ ← r; verify_copy ft partial (ei_expected_size item) (ei_expected_sha256 item) d) with
  | Err e => (d, reports, Err e)
  | Ok _ => let (d, f) := finalize_copy ft partial final d in (d, reports, _ ← f; r)
  end.

Definition error_code (e : export_failure) : string :=
  match e with ExportError code => code | ExportOSError errno => "unexpected_" +:+ str_of_Z errno end.

(** worker/local_export.py:216-254 export_local_item *)
Definition export_local_item (ft : faults) (item : ExportItem) (destination_dir token now : string) (replace : bool) (d : files)
    : files * list ExportProgress * ExportResult :=
  match prepare_copy d (ei_export_item_id item) destination_dir token replace with
  | Err e => (d, [], failed (ei_export_item_id item) (error_code e) now)
  | Ok (partial, final) =>
    let '(d, reports, r) := copy_verify_finalize ft item partial final now d in
    match r with
    | Err e => ((cleanup_partial ft partial d).1, reports, failed (ei_export_item_id item) (error_code e) now)
    | Ok (copied, sha256) =>
      (d, reports,
       {| er_item_id := ei_export_item_id item; er_state := "completed"; er_destination_path := Some (path_str final);
          er_size := copied; er_sha256 := Some sha256; er_verified := String.eqb sha256 (ei_expected_sha256 item);
          er_error := None; er_updated_at := now |})
    end
  end.

(** A name the glob [.*.partial] matches. *)
Definition partial_name (name : string) : bool :=
  starts_with "." name && bool_decide (drop (length (chars name) - 8) (chars name) = chars PARTIAL_SUFFIX)
  && (9 <=? str_len name).

(** The entries of a directory whose names the glob matches. *)
Definition partials_in (root : pypath) (d : files) : list pypath :=
  filter_b (fun p => bool_decide (path_parent p = root) && partial_name (path_name_of p)) ((map_to_list d).*1).

(** worker/local_export.py:278-283 list_partials *)
Definition list_partials (destination_dir : string) (d : files) : list string :=
  let root := parse_path destination_dir in
  if fs_is_dir root then sorted_strings (path_name_of <$> partials_in root d) else [].

(** worker/local_export.py:286-295 prune_partials: [stuck] are the files whose removal fails. *)
Definition prune_partials (stuck : pypath -> bool) (destination_dir : string) (d : files) : files * Z :=
  let removable := filter_b (fun p => negb (stuck p)) (partials_in (parse_path destination_dir) d) in
  (foldr delete d removable, zlen removable).

End export.

(** ** Names *)

Definition slash_free (s : string) : Prop := "/"%char ∉ chars s.

Lemma parse_plain_name s : slash_free s -> s <> "" -> s <> "." -> parse_path s = PyPath "" [s].
Proof.
  intros Hs He Hd. unfold parse_path.
  assert (starts_with "/" s = false) as ->.
  { destruct s as [|c s]; [done|]. rewrite starts_with_cons_eq. destruct (Ascii.eqb_spec "/"%char c) as [<-|]; [|done].
    exfalso. apply Hs. cbn. left. }
  cbn [negb]. f_equal. unfold split_on. rewrite split_chars_end by by apply no_slash.
  change (reverse []) with (@nil ascii). cbn [app]. rewrite of_chars_chars.
  unfold filter_b, plain_part. cbn. destruct (String.eqb_spec s ""), (String.eqb_spec s "."); done.
Qed.

Lemma slash_free_app s t : slash_free (s +:+ t) <-> slash_free s /\ slash_free t.
Proof. unfold slash_free. rewrite chars_app, not_elem_of_app. done. Qed.

Definition partial_of (root : pypath) (item_id token : string) : pypath :=
  path_div root ("." +:+ item_id +:+ "." +:+ token +:+ PARTIAL_SUFFIX).
Definition final_of (root : pypath) (item_id : string) : pypath := path_div root (item_id +:+ FINAL_SUFFIX).

Lemma append_not_empty s t : t <> "" -> s +:+ t <> "".
Proof. by destruct s, t. Qed.

Lemma partial_is_not_final root item_id token :
  slash_free item_id -> slash_free token -> partial_of root item_id token <> final_of root item_id.
Proof.
  intros Hi Ht. unfold partial_of, final_of, path_div.
  assert (Hsl : forall s, bool_decide (slash_free s) = true -> slash_free s) by (intros s; apply bool_decide_eq_true).
  assert (Hlong : forall s c, take 3 (rev (chars (s +:+ c))) = take 3 (rev (chars c) ++ rev (chars s))).
  { intros s c. by rewrite chars_app, rev_app_distr. }
  assert (Hf : item_id +:+ FINAL_SUFFIX <> "" /\ item_id +:+ FINAL_SUFFIX <> ".").
  { split; intros E; apply (f_equal (fun s => take 3 (rev (chars s)))) in E; by rewrite Hlong in E. }
  assert (Hp : "." +:+ item_id +:+ "." +:+ token +:+ PARTIAL_SUFFIX <> ".").
  { intros E. apply (f_equal String.length) in E. rewrite <- !length_chars, !chars_app, !length_app in E. cbn in E. lia. }
  rewrite (parse_plain_name (item_id +:+ FINAL_SUFFIX)); [|by apply slash_free_app; split; [|apply Hsl]|apply Hf..].
  rewrite (parse_plain_name ("." +:+ item_id +:+ "." +:+ token +:+ PARTIAL_SUFFIX)); [|rewrite !slash_free_app; split_and!; try done; by apply Hsl|done|exact Hp].
  cbn [is_absolute p_root negb String.eqb p_parts]. intros [= E]. apply app_inj_tail in E as [_ E].
  apply (f_equal (fun s => take 3 (rev (chars s)))) in E.
  change ("." +:+ item_id +:+ "." +:+ token +:+ PARTIAL_SUFFIX) with (String "." (item_id +:+ String "." (token +:+ PARTIAL_SUFFIX))) in E.
  rewrite Hlong in E. cbn [chars rev] in E. rewrite !chars_app in E. cbn [chars] in E. rewrite chars_app in E.
  rewrite !rev_app_distr in E. cbn in E. rewrite !rev_app_distr in E. done.
Qed.

(** ** The copy *)

Lemma read_some_split n l : 0 < n -> l <> [] ->
  exists c r, read_some n l = c /\ c <> [] /\ l = (c ++ r)%list /\ drop (length c) l = r.
Proof.
  intros Hn Hl. unfold read_some. destruct (_ || _) eqn:E.
  - exists l, []. split_and!; [done..|by rewrite app_nil_r|apply drop_ge; lia].
  - apply orb_false_iff in E as [_ E%Z.leb_gt]. exists (take (Z.to_nat n) l), (drop (Z.to_nat n) l).
    split_and!; [done| |by rewrite take_drop|].
    + intros Hx. apply (f_equal length) in Hx. rewrite length_take in Hx. cbn in Hx. unfold zlen in E. lia.
    + f_equal. rewrite length_take. unfold zlen in E. lia.
Qed.

Section spec.
Context `{ExportFs}.

Definition unchanged_but (ps : list pypath) (d d' : files) : Prop := forall q, q ∉ ps -> d' !! q = d !! q.

Lemma default_writer_but d p chunk fault d' r : default_writer d p chunk fault = (d', r) -> unchanged_but [p] d d'.
Proof.
  intros Hw q Hq. apply not_elem_of_cons in Hq as [Hq _]. unfold default_writer in Hw.
  destruct fault as [[n errno]|]; injection Hw as <- <-; by rewrite lookup_insert_ne.
Qed.

Lemma copy_loop_spec fuel ft item partial now chunk_size rest n hashed reports d d' reports' r :
  0 < chunk_size -> (length rest < fuel)%nat ->
  copy_loop fuel ft item partial now chunk_size rest n hashed reports d = (d', reports', r) ->
  unchanged_but [partial] d d' /\
  (forall h, r = Ok h -> h = (hashed ++ rest)%list /\
     d' = if bool_decide (rest = []) then d else <[partial := (default [] (d !! partial) ++ rest)%list]> d) /\
  ((forall k, ft_write ft k = None) -> zlen hashed + zlen rest <= ei_expected_size item -> is_ok r = true).
Proof.
  intros Hc. revert rest n hashed reports d. induction fuel as [|fuel IH]; intros rest n hashed reports d Hf; [lia|]. cbn [copy_loop].
  destruct (decide (rest = [])) as [->|Hr].
  { unfold read_some. assert ((chunk_size <? 0) || (zlen (@nil Z) <=? chunk_size) = true) as ->
      by (apply orb_true_iff; right; apply Z.leb_le; unfold zlen; cbn; lia).
    cbn. intros [= <- <- <-]. split; [done|]. split; [|done]. intros h [= <-]. by rewrite app_nil_r. }
  destruct (read_some_split chunk_size rest Hc Hr) as (c & rest' & -> & Hcn & -> & Hd).
  rewrite (bool_decide_false (c = [])) by done. rewrite Hd.
  assert (Hz : zlen (c ++ rest')%list = zlen c + zlen rest') by (unfold zlen; rewrite length_app; lia).
  assert (0 < zlen c) by (destruct c; [done|unfold zlen; cbn; lia]). pose proof (zlen_nonneg rest').
  destruct (Z.ltb_spec (ei_expected_size item) (zlen hashed + zlen c)) as [Hlt|Hge].
  { intros [= <- <- <-]. split; [done|]. split; [done|]. intros _ Hle. lia. }
  destruct (default_writer d partial c (ft_write ft n)) as [d1 r1] eqn:Ew. pose proof (default_writer_but _ _ _ _ _ _ Ew) as Hb.
  destruct r1 as [u|e].
  2: { intros [= <- <- <-]. split; [done|]. split; [done|]. intros Hno _. unfold default_writer in Ew. by rewrite Hno in Ew. }
  assert (d1 = <[partial := (default [] (d !! partial) ++ c)%list]> d) as ->.
  { unfold default_writer in Ew. destruct (ft_write ft n) as [[k errno]|]; [done|]. by injection Ew as <-. }
  intros Hloop. apply IH in Hloop as (Hb' & Hok & Hlive); [|rewrite length_app in Hf; unfold zlen in *; lia].
  split; [|split].
  - intros q Hq. by rewrite Hb', Hb.
  - intros h Hh. destruct (Hok h Hh) as [-> ->]. split; [by rewrite app_assoc|]. rewrite (bool_decide_false ((c ++ rest')%list = [])) by done.
    rewrite lookup_insert_eq. cbn [default from_option id]. destruct (decide (rest' = [])) as [->|Hne].
    + rewrite bool_decide_true by done. by rewrite app_nil_r.
    + rewrite bool_decide_false by done. by rewrite insert_insert_eq, app_assoc.
  - intros Hno Hle. apply Hlive; [done|]. unfold zlen in *. rewrite length_app. lia.
Qed.

Definition source_of (item : ExportItem) : pypath := fs_resolve (ei_source_path item).

(** The directory check of the copy. *)
Definition source_in_place (item : ExportItem) : Prop :=
  is_ok (ensure_under_root (ei_source_path item) (dirname (ei_source_path item))) = true.

Lemma copy_stream_spec ft item partial now chunk_size d d' reports r :
  0 < chunk_size -> copy_stream ft item partial now chunk_size d = (d', reports, r) ->
  unchanged_but [partial] d d' /\
  (forall size sha, r = Ok (size, sha) ->
     source_in_place item /\ exists content, d !! source_of item = Some content /\ size = zlen content /\ size = ei_expected_size item /\
       sha = sha256_hex content /\
       d' = if bool_decide (content = []) then d else <[partial := (default [] (d !! partial) ++ content)%list]> d) /\
  ((forall k, ft_write ft k = None) -> ft_open ft = None -> source_in_place item ->
   forall content, d !! source_of item = Some content -> zlen content = ei_expected_size item -> is_ok r = true).
Proof.
  intros Hc. unfold copy_stream, source_in_place, source_of, ensure_under_root.
  destruct (negb _ && negb _); cbn [raise_if mbind result_bind]; [by intros [= <- <- <-]|].
  destruct (ft_open ft).
  { intros [= <- <- <-]. split; [done|]. split; [done|]. by intros _ ?. }
  destruct (d !! fs_resolve (ei_source_path item)) as [content|] eqn:Es.
  2: { intros [= <- <- <-]. split; [done|]. split; [done|]. by intros _ _ _ c [= ]. }
  destruct (copy_loop _ _ _ _ _ _ _ _ _ _ _) as [[d1 rep] r1] eqn:El. intros [= <- <- <-].
  apply copy_loop_spec in El as (Hb & Hok & Hlive); [|done|lia]. split; [done|]. split.
  - intros size sha (h & -> & (u & Hu%raise_if_ok & [= <- <-])%bind_ok)%bind_ok. split; [done|]. exists content.
    destruct (Hok h eq_refl) as [-> ->]. cbn [app] in *. apply negb_false_iff, Z.eqb_eq in Hu. done.
  - intros Hno _ _ c [= <-] Hz. destruct r1 as [h|e]; [|by apply Hlive; [|change (zlen (@nil Z)) with 0; lia]].
    cbn [mbind result_bind]. destruct (Hok h eq_refl) as [-> _]. cbn [app]. by rewrite Hz, Z.eqb_refl.
Qed.

Lemma verify_copy_ok ft partial size sha d u :
  verify_copy ft partial size sha d = Ok u <->
  exists content, d !! partial = Some content /\ zlen content = size /\ sha256_hex content = sha /\ ft_read_back ft = None.
Proof.
  unfold verify_copy. destruct (d !! partial) as [content|]; [|split; [done|by intros (? & ? & _)]]. split.
  - intros (? & Hs%raise_if_ok & Hr)%bind_ok. destruct (ft_read_back ft); [done|]. apply raise_if_ok in Hr.
    apply negb_false_iff, Z.eqb_eq in Hs. apply negb_false_iff, String.eqb_eq in Hr. by exists content.
  - intros (? & [= <-] & Hs & Hr & ->). rewrite Hs, Hr, Z.eqb_refl, String.eqb_refl. by destruct u.
Qed.

Lemma finalize_copy_spec ft partial final d d' r :
  partial <> final -> finalize_copy ft partial final d = (d', r) ->
  (d' = d /\ is_ok r = false /\ (ft_sync ft <> None \/ d !! partial = None \/ ft_replace ft <> None \/ fs_is_dir final = true)) \/
  exists content, d !! partial = Some content /\ fs_is_dir final = false /\ d' = <[final := content]> (delete partial d) /\
    (r = Ok tt <-> ft_sync_dir ft = None).
Proof.
  intros Hne. unfold finalize_copy. destruct (ft_sync ft) as [e|]; [intros [= <- <-]; left; auto|].
  destruct (d !! partial) as [content|]; [|intros [= <- <-]; left; auto].
  destruct (ft_replace ft) as [e|]; [intros [= <- <-]; left; split_and!; auto|].
  destruct (fs_is_dir final); intros [= <- <-]; [left; split_and!; auto|]. right. exists content. split_and!; [done..|].
  by destruct (ft_sync_dir ft).
Qed.

(** What a completed copy proves about the disk. *)
Definition completed_copy (item : ExportItem) (final : pypath) (d d' : files) : Prop :=
  exists content, d !! source_of item = Some content /\ d' !! final = Some content /\
    zlen content = ei_expected_size item /\ sha256_hex content = ei_expected_sha256 item.

Lemma copy_verify_finalize_spec ft item partial final now d d' reports r :
  partial <> final -> source_of item <> partial -> source_of item <> final ->
  copy_verify_finalize ft item partial final now d = (d', reports, r) ->
  unchanged_but [partial; final] d d' /\
  (forall size sha, r = Ok (size, sha) ->
     completed_copy item final d d' /\ size = ei_expected_size item /\ sha = ei_expected_sha256 item /\ d' !! partial = None /\
     source_in_place item /\ fs_is_dir final = false /\ (d !! partial = None -> size <> 0)) /\
  (is_ok r = false -> d' !! final = d !! final \/ (ft_sync_dir ft <> None /\ completed_copy item final d d' /\ d' !! partial = None)).
Proof.
  intros Hpf Hsp Hsf. unfold copy_verify_finalize.
  destruct (copy_stream ft item partial now COPY_CHUNK_BYTES d) as [[d1 rep] r1] eqn:Ec.
  apply copy_stream_spec in Ec as (Hb & Hok & _); [|done].
  assert (Hb2 : unchanged_but [partial; final] d d1) by (intros q Hq; apply Hb; set_solver).
  assert (Hf1 : d1 !! final = d !! final) by (apply Hb; set_solver).
  destruct r1 as [[size sha]|e]; cbn [mbind result_bind].
  2: { intros [= <- <- <-]. split; [done|]. split; [done|]. intros _. by left. }
  destruct (Hok _ _ eq_refl) as (Hplace & content & Hs & -> & Hsize & -> & Hd1).
  destruct (verify_copy _ _ _ _ d1) as [u|e] eqn:Ev.
  2: { intros [= <- <- <-]. split; [done|]. split; [done|]. intros _. by left. }
  apply verify_copy_ok in Ev as (copied & Hcopied & Hcs & Hch & _).
  assert (copied = content /\ (d !! partial = None -> content <> [])) as [-> Hfresh].
  { case_bool_decide as Hnil; subst d1.
    - subst content. split; [|by intros Hn; rewrite Hn in Hcopied]. change (zlen (@nil Z)) with 0 in Hsize. rewrite <- Hsize in Hcs.
      apply nil_length_inv. clear -Hcs. unfold zlen in Hcs. lia.
    - rewrite lookup_insert_eq in Hcopied. injection Hcopied as <-. split; [|done].
      assert (default [] (d !! partial) = []) as ->; [|done]. unfold zlen in *. rewrite length_app in Hcs.
      apply nil_length_inv. lia. }
  destruct (finalize_copy ft partial final d1) as [d2 f] eqn:Ef. intros [= <- <- <-].
  apply finalize_copy_spec in Ef as [(-> & Hno & _)|(c & Hc & Hdir & -> & Hsync)]; [|rewrite Hcopied in Hc; injection Hc as <-|done].
  { split; [done|]. destruct f; [done|]. split; [done|]. intros _. by left. }
  assert (Hdone : completed_copy item final d (<[final := content]> (delete partial d1))).
  { exists content. rewrite lookup_insert_eq. split_and!; [done|done|congruence|done]. }
  assert (Hpart : <[final := content]> (delete partial d1) !! partial = None).
  { rewrite lookup_insert_ne by done. by rewrite lookup_delete_eq. }
  split; [|split].
  - intros q Hq. rewrite lookup_insert_ne, lookup_delete_ne by set_solver. by apply Hb2.
  - intros size sha Hr. destruct f as [u'|]; [|done]. cbn [mbind result_bind] in Hr. injection Hr as <- <-.
    split_and!; try done. intros Hn Hz. apply (Hfresh Hn), nil_length_inv. clear -Hz. unfold zlen in Hz. lia.
  - intros Hr. right. split; [|done]. destruct f as [[]|]; [done|]. intros Hn. by apply Hsync in Hn.
Qed.

(** C24. The outcome of an export.  A completed item is on the disk under its final name with
    exactly the recorded size and digest, which is the content of its source; nothing partial is
    left, and without [replace] no earlier copy was there.  A failed item leaves the final name as
    it was, unless only the sync of the directory failed after the verified copy was already in
    place, and removes its partial file unless the removal itself fails.  In both cases no other
    file changes, the source among them. *)
Theorem export_outcome ft item dir token now replace d d' reports r :
  let partial := partial_of (fs_resolve dir) (ei_export_item_id item) token in
  let final := final_of (fs_resolve dir) (ei_export_item_id item) in
  slash_free (ei_export_item_id item) -> slash_free token ->
  source_of item <> partial -> source_of item <> final ->
  export_local_item ft item dir token now replace d = (d', reports, r) ->
  unchanged_but [partial; final] d d' /\
  (er_state r = "completed" ->
   completed_copy item final d d' /\ d' !! partial = None /\ er_verified r = true /\
   er_destination_path r = Some (path_str final) /\ (replace = false -> d !! final = None)) /\
  (er_state r <> "completed" ->
   er_state r = "failed" /\
   (d' !! final = d !! final \/ (ft_sync_dir ft <> None /\ completed_copy item final d d')) /\
   (d' = d \/ d' !! partial = None \/ ft_unlink ft = true)).
Proof.
  intros partial final Hi Ht Hsp Hsf. unfold export_local_item, prepare_copy.
  change (path_div (fs_resolve dir) ("." +:+ ei_export_item_id item +:+ "." +:+ token +:+ PARTIAL_SUFFIX)) with partial.
  change (path_div (fs_resolve dir) (ei_export_item_id item +:+ FINAL_SUFFIX)) with final.
  destruct (negb (fs_is_dir _)); cbn [raise_if mbind result_bind]; [intros [= <- <- <-]; split; [done|]; split; [done|]; auto|].
  destruct (_ && negb replace) eqn:Ex; cbn [raise_if mbind result_bind]; [intros [= <- <- <-]; split; [done|]; split; [done|]; auto|].
  destruct (copy_verify_finalize _ _ _ _ _ _) as [[d1 rep] r1] eqn:Ec.
  apply copy_verify_finalize_spec in Ec as (Hb & Hok & Hfail); [|by apply partial_is_not_final|done|done].
  destruct r1 as [[size sha]|e]; intros [= <- <- <-]; cbn [er_state er_verified er_destination_path failed].
  - split; [done|]. split; [|done]. intros _. destruct (Hok _ _ eq_refl) as (Hdone & -> & -> & Hpart & _ & Hdir & _).
    split; [done|]. split; [done|]. split; [apply String.eqb_refl|]. split; [done|]. intros ->. rewrite andb_true_r in Ex.
    apply orb_false_iff in Ex as [Ex%bool_decide_eq_false _]. by apply eq_None_not_Some.
  - assert (Hpf : partial <> final) by by apply partial_is_not_final.
    assert (Hclean : forall q, q <> partial -> (cleanup_partial ft partial d1).1 !! q = d1 !! q).
    { intros q Hq. unfold cleanup_partial. destruct (ft_unlink ft); [done|]. by apply lookup_delete_ne. }
    split; [|split; [done|]].
    + intros q Hq. rewrite Hclean by set_solver. by apply Hb.
    + intros _. split; [done|]. split.
      * rewrite Hclean by done. destruct (Hfail eq_refl) as [Hf|(Hs & (content & H1 & H2 & H3 & H4) & _)]; [by left|].
        right. split; [done|]. exists content. by rewrite Hclean.
      * right. unfold cleanup_partial. destruct (ft_unlink ft); [by right|]. left. apply lookup_delete_eq.
Qed.

(** C25. When an export completes.  With working system calls and a fresh token an item completes
    if and only if the destination is a directory, the final name is free (or may be replaced, and
    is no directory), the source resolves into its own directory, and its content has the recorded
    size and digest and is not empty: an empty file, which writes no chunk, never completes. *)
Theorem export_completes_iff item dir token now replace d d' reports r :
  let partial := partial_of (fs_resolve dir) (ei_export_item_id item) token in
  let final := final_of (fs_resolve dir) (ei_export_item_id item) in
  slash_free (ei_export_item_id item) -> slash_free token ->
  source_of item <> partial -> source_of item <> final -> d !! partial = None ->
  export_local_item no_faults item dir token now replace d = (d', reports, r) ->
  (er_state r = "completed" <->
   fs_is_dir (fs_resolve dir) = true /\ (replace = true \/ d !! final = None) /\ fs_is_dir final = false /\
   source_in_place item /\
   exists content, d !! source_of item = Some content /\ content <> [] /\
     zlen content = ei_expected_size item /\ sha256_hex content = ei_expected_sha256 item).
Proof.
  intros partial final Hi Ht Hsp Hsf Hfresh. assert (Hpf : partial <> final) by by apply partial_is_not_final.
  unfold export_local_item, prepare_copy.
  change (path_div (fs_resolve dir) ("." +:+ ei_export_item_id item +:+ "." +:+ token +:+ PARTIAL_SUFFIX)) with partial.
  change (path_div (fs_resolve dir) (ei_export_item_id item +:+ FINAL_SUFFIX)) with final.
  destruct (fs_is_dir (fs_resolve dir)); cbn [negb raise_if mbind result_bind]; [|intros [= <- <- <-]; split; [done|by intros [? _]]].
  destruct (_ && negb replace) eqn:Ex; cbn [raise_if mbind result_bind].
  { intros [= <- <- <-]. split; [done|]. intros (_ & [->|Hn] & Hdir & _); [by rewrite andb_false_r in Ex|].
    by rewrite Hn, Hdir, bool_decide_false in Ex by by intros [? ?]. }
  assert (Hfree : fs_is_dir final = false -> replace = true \/ d !! final = None).
  { intros Hdir. destruct replace; [by left|]. right. rewrite andb_true_r, Hdir, orb_false_r in Ex.
    apply bool_decide_eq_false in Ex. by apply eq_None_not_Some. }
  destruct (copy_verify_finalize _ _ _ _ _ _) as [[d1 rep] r1] eqn:Ec.
  pose proof (copy_verify_finalize_spec _ _ _ _ _ _ _ _ _ Hpf Hsp Hsf Ec) as (_ & Hok & _).
  destruct r1 as [[size sha]|e]; intros [= <- <- <-]; cbn [er_state failed].
  - split; [|done]. intros _. destruct (Hok _ _ eq_refl) as ((content & H1 & _ & H3 & H4) & -> & -> & _ & Hplace & Hdir & Hne).
    split; [done|]. split; [by apply Hfree|]. split; [done|]. split; [done|]. exists content. split; [done|]. split; [|done].
    intros ->. by apply (Hne Hfresh).
  - split; [done|]. intros (_ & _ & Hdir & Hplace & content & Hs & Hne & Hsize & Hsha). exfalso. revert Ec. unfold copy_verify_finalize.
    destruct (copy_stream _ _ _ _ _ d) as [[d2 rep2] r2] eqn:Es. apply copy_stream_spec in Es as (_ & Hcopy & Hlive); [|done].
    specialize (Hlive (fun _ => eq_refl) eq_refl Hplace content Hs Hsize). destruct r2 as [[size sha]|]; [|done].
    destruct (Hcopy _ _ eq_refl) as (_ & c & Hc & _ & _ & -> & ->). rewrite Hs in Hc. injection Hc as <-.
    rewrite bool_decide_false by done. rewrite Hfresh. cbn [default from_option id app mbind result_bind].
    destruct (verify_copy no_faults partial (ei_expected_size item) (ei_expected_sha256 item) (<[partial := content]> d)) as [u|] eqn:Ev.
    + unfold finalize_copy. cbn [no_faults ft_sync ft_replace ft_sync_dir]. by rewrite lookup_insert_eq, Hdir.
    + assert (verify_copy no_faults partial (ei_expected_size item) (ei_expected_sha256 item) (<[partial := content]> d) = Ok tt) as Hv.
      { apply verify_copy_ok. exists content. by rewrite lookup_insert_eq. }
      congruence.
Qed.

(** The directory check of the copy compares a path with its own directory: without links it
    holds of every path, whatever the scratch store is. *)
Lemma scratch_check_vacuous item :
  fs_resolve (dirname (ei_source_path item)) = path_parent (source_of item) -> p_parts (source_of item) <> [] -> source_in_place item.
Proof.
  unfold source_in_place, ensure_under_root, source_of. intros Hd Hne. rewrite Hd.
  assert (in_parents (path_parent (fs_resolve (ei_source_path item))) (fs_resolve (ei_source_path item)) = true) as ->.
  { destruct (fs_resolve (ei_source_path item)) as [root parts]. cbn in Hne |- *. unfold in_parents. cbn [p_root p_parts path_parent].
    rewrite String.eqb_refl. cbn [andb]. destruct (exists_last Hne) as (l & x & ->). rewrite List.removelast_last, length_app. cbn.
    rewrite take_app_length, bool_decide_true by done. cbn. apply Nat.ltb_lt. lia. }
  by rewrite andb_false_r.
Qed.

(** Removing the partial files keeps every finished copy. *)
Lemma prune_keeps stuck dir d q :
  partial_name (path_name_of q) = false -> (prune_partials stuck dir d).1 !! q = d !! q.
Proof.
  intros Hq. unfold prune_partials. cbn [fst]. set (l := filter_b _ _).
  assert (q ∉ l) as Hl.
  { unfold l, partials_in. rewrite !elem_of_filter_b. intros [[_ [_ Hn]%andb_true_iff] _]. congruence. }
  clearbody l. induction l as [|p l IH]; [done|]. apply not_elem_of_cons in Hl as [Hne Hl]. cbn [foldr].
  rewrite lookup_delete_ne by done. by apply IH.
Qed.

End spec.

(** ** A file system without links *)

#[local] Instance plain_fs : ExportFs :=
  {| fs_resolve s := parse_path s; fs_is_dir p := bool_decide (p = parse_path "/out") |}.

Definition sample_content : bytes := [82; 80; 82].
Definition sample_item : ExportItem :=
  {| ei_export_item_id := "item_1"; ei_source_path := "/scratch/objects/ab"; ei_expected_size := 3;
     ei_expected_sha256 := sha256_hex sample_content |}.
Definition empty_item : ExportItem :=
  {| ei_export_item_id := "item_2"; ei_source_path := "/scratch/objects/cd"; ei_expected_size := 0; ei_expected_sha256 := sha256_hex [] |}.
Definition sample_files : files :=
  <[parse_path "/scratch/objects/ab" := sample_content]> {[ parse_path "/scratch/objects/cd" := [] ]}.

Definition sample_export (ft : faults) (item : ExportItem) :=
  export_local_item ft item "/out" "t" "now" false sample_files.

(** The second of the two syncs fails: the item is reported as failed although it is in place. *)
Definition late_fault : faults :=
  {| ft_open := None; ft_write := fun _ => None; ft_read_back := None; ft_sync := None; ft_replace := None;
     ft_sync_dir := Some 5; ft_unlink := false |}.

Example empty_file_not_exported :
  er_state (sample_export no_faults empty_item).2 = "failed" /\ er_error (sample_export no_faults empty_item).2 = Some "unexpected_2".
Proof. by vm_compute. Qed.

Example reported_failed_but_in_place :
  er_state (sample_export late_fault sample_item).2 = "failed" /\
  (sample_export late_fault sample_item).1.1 !! parse_path "/out/item_1.final" = Some sample_content.
Proof. by vm_compute. Qed.

Lemma slash_free_ids : slash_free "item_1" /\ slash_free "t".
Proof. split; apply (bool_decide_unpack _); by vm_compute. Qed.

Lemma export_outcome_witness :
  er_state (sample_export no_faults sample_item).2 = "completed" /\
  completed_copy sample_item (parse_path "/out/item_1.final") sample_files (sample_export no_faults sample_item).1.1.
Proof.
  destruct slash_free_ids as [H1 H2]. assert (er_state (sample_export no_faults sample_item).2 = "completed") as Hs by by vm_compute.
  split; [exact Hs|].
  destruct (sample_export no_faults sample_item) as [[d' reports] r] eqn:E.
  refine (proj1 (proj1 (proj2 (export_outcome no_faults sample_item "/out" "t" "now" false sample_files d' reports r H1 H2 _ _ E)) Hs));
    apply (bool_decide_unpack _); by vm_compute.
Defined.

Lemma export_completes_iff_witness : er_state (sample_export no_faults empty_item).2 <> "completed".
Proof.
  destruct slash_free_ids as [_ H2]. destruct (sample_export no_faults empty_item) as [[d' reports] r] eqn:E.
  rewrite (export_completes_iff empty_item "/out" "t" "now" false sample_files d' reports r); [|try (apply (bool_decide_unpack _); by vm_compute)..|exact E].
  intros (_ & _ & _ & _ & content & Hc & Hne & _). apply Hne. vm_compute in Hc. by injection Hc as <-.
Defined.
