(* ===== verification/ReadOnly.v ===== *)
(** * Read-only preparation (src/hostd/read_only.py)

    Before a scanner opens a source, the kernel's read-only flag is set and read back on the
    source and on each of its children.  The kernel operations are an interface over a state of
    the machine ([ReadOnlyOps]); its Linux implementation is an instance over the calls it makes.
    The theorems compose with [StorageInspection]: no kernel operation runs before the storage
    inspection is safe, and a prepared source is read-only on every device that carries one of
    its numbers. *)

From Stdlib Require Import ZArith Lia String Ascii.
From stdpp Require Import base list strings gmap sorting.
From S2P Require Import Prelude PyStr Json Identifiers Devices StorageInspection.

Local Open Scope string_scope.
Local Open Scope Z_scope.

Record target := Target { t_kernel_name : string; t_major_minor : string }.

#[global] Instance target_eq_dec : EqDecision target.
Proof. solve_decision. Defined.

(** hostd/read_only.py:24-29 ReadOnlyOps: each operation yields the state of the machine after
    it; an [OSError] is the name of its class. *)
Class ReadOnlyOps (W : Type) := {
  set_read_only : target -> W -> W * result string unit;
  verify_read_only : target -> W -> W * result string bool }.

(** hostd/read_only.py:227-228 _valid_kernel_name: with the pattern of line 16. *)
Definition valid_kernel_name (s : string) : bool :=
  bounded_word is_alnum (fun c => is_alnum c || one_of "._+-" c) 127 s && negb (str_contains ".." s).

(** ** Targets *)

(** hostd/read_only.py:187-192 _append_target: the target of one mapping, if it is complete. *)
Definition target_of (item : list (string * value)) : list target :=
  match get_value item "kernel_name", get_value item "major_minor" with
  | VStr k, VStr m => if valid_kernel_name k && valid_major_minor m then [Target k m] else []
  | _, _ => []
  end.

(** hostd/read_only.py:176-184 _targets *)
Definition targets_of (device : list (string * value)) : list target :=
  (target_of device ++ concat (target_of <$> children_of device))%list.

(** What keeps a source from being prepared.  The code stores the text of a storage blocker;
    the blocker itself stands for it here. *)
Inductive prep_blocker :=
  | StateBlocked (b : blocker)
  | StorageBlocked (reason : string)
  | TargetBlocked (reason detail : string)
  | OperationFailed (reason major_minor detail : string).

(** hostd/read_only.py:195-208 _target_blockers *)
Definition target_blockers (device : list (string * value)) (targets : list target) : list prep_blocker :=
  match get_value device "children" with
  | VList children =>
    if negb (zlen targets =? 1 + zlen children)
    then [TargetBlocked "invalid_source_target" "target facts are incomplete"]
    else if negb (zlen (dedup (t_kernel_name <$> targets)) =? zlen targets)
            || negb (zlen (dedup (t_major_minor <$> targets)) =? zlen targets)
    then [TargetBlocked "duplicate_source_target" "target facts are ambiguous"]
    else []
  | _ => [TargetBlocked "invalid_source_topology" "children must be a list"]
  end.

(** hostd/read_only.py:88-94 prepare_read_only: the storage blockers. *)
Definition state_blockers (st : option storage_state) : list prep_blocker :=
  match st with
  | None => [StorageBlocked "storage_inspection_required"]
  | Some st => ((StateBlocked <$> ss_blockers st) ++
      (if negb (ss_inspection_complete st) then [StorageBlocked "storage_inspection_incomplete"]
       else if negb (ss_safe_for_preparation st) then [StorageBlocked "storage_state_not_safe"]
       else []))%list
  end.

(** ** Preparation *)

Record target_result := TargetResult {
  r_target : target; r_set : bool; r_verified : bool }.

Record audit := Audit {
  au_source_id : value; au_prepared : bool; au_target_count : Z; au_verified : list string }.

Record preparation := Preparation {
  p_source_id : value; p_prepared : bool; p_targets : list target_result;
  p_blockers : list prep_blocker; p_audit : audit }.

(** hostd/read_only.py:211-224 _audit *)
Definition make_audit (device : list (string * value)) (results : list target_result) (prepared : bool) : audit :=
  Audit (get_value device "source_id") prepared (zlen results)
    (t_major_minor <$> (r_target <$> filter_b r_verified results)).

Section prepare.
Context {W : Type} `{ReadOnlyOps W}.

(** hostd/read_only.py:118-160 prepare_read_only: the body of the loop. *)
Definition prepare_target (t : target) (w : W) : W * target_result * list prep_blocker :=
  match set_read_only t w with
  | (w, Err e) => (w, TargetResult t false false,
                   [OperationFailed "read_only_set_failed" (t_major_minor t) e])
  | (w, Ok _) =>
    match verify_read_only t w with
    | (w, Err e) => (w, TargetResult t true false,
                     [OperationFailed "read_only_verify_failed" (t_major_minor t) e])
    | (w, Ok verified) =>
      (w, TargetResult t true verified,
       if verified then []
       else [OperationFailed "read_only_verify_false" (t_major_minor t) (t_kernel_name t)])
    end
  end.

Fixpoint prepare_targets (ts : list target) (w : W) : W * list target_result * list prep_blocker :=
  match ts with
  | [] => (w, [], [])
  | t :: ts => let '(w, r, b) := prepare_target t w in
               let '(w, rs, bs) := prepare_targets ts w in (w, r :: rs, (b ++ bs)%list)
  end.

(** hostd/read_only.py:81-173 prepare_read_only *)
Definition prepare_read_only (device : list (string * value)) (storage : option storage_state) (w : W)
    : W * preparation :=
  let source_id := get_value device "source_id" in
  match state_blockers storage with
  | (_ :: _) as blockers => (w, Preparation source_id false [] blockers (make_audit device [] false))
  | [] =>
    let targets := targets_of device in
    match target_blockers device targets with
    | (_ :: _) as blockers => (w, Preparation source_id false [] blockers (make_audit device [] false))
    | [] =>
      let '(w, results, blockers) := prepare_targets targets w in
      let prepared := negb (bool_decide (targets = [])) && bool_decide (blockers = []) &&
                      forallb r_verified results in
      (w, Preparation source_id prepared results blockers (make_audit device results prepared))
    end
  end.

End prepare.
#[global] Instance prep_blocker_eq_dec : EqDecision prep_blocker.
Proof. intros x y. unfold Decision. repeat decide equality. Defined.

(** ** The Linux implementation *)

(** What opening a device file shows: whether it is a block device, and its number. *)
Record opened := Opened { o_block : bool; o_major : Z; o_minor : Z }.

(** The calls of the implementation: [os.open] with [os.fstat], by kernel name, and the two
    ioctls on an open file.  An error is the name of its class. *)
Class Kernel (W : Type) := {
  k_open : string -> W -> result string opened;
  k_set_ro : opened -> W -> W * result string unit;
  k_get_ro : opened -> W -> result string Z }.

Section linux.
Context {W : Type} `{Kernel W}.

(** hostd/read_only.py:55-78 _open: every refusal is a ReadOnlyOperationError. *)
Definition open_target (t : target) (w : W) : result string opened :=
  if negb (valid_kernel_name (t_kernel_name t)) then Err "ReadOnlyOperationError"
  else match k_open (t_kernel_name t) w with
       | Err _ => Err "ReadOnlyOperationError"
       | Ok o =>
         if negb (valid_major_minor (t_major_minor t)) then Err "ReadOnlyOperationError"
         else if negb (o_block o) then Err "ReadOnlyOperationError"
         else if negb (bool_decide ((o_major o, o_minor o) = major_minor_key (t_major_minor t)))
         then Err "ReadOnlyOperationError"
         else Ok o
       end.

(** hostd/read_only.py:38-44 set_read_only: of LinuxIoctlReadOnlyOps. *)
Definition linux_set_read_only (t : target) (w : W) : W * result string unit :=
  match open_target t w with Err e => (w, Err e) | Ok fd => k_set_ro fd w end.

(** hostd/read_only.py:46-53 verify_read_only: of LinuxIoctlReadOnlyOps. *)
Definition linux_verify_read_only (t : target) (w : W) : W * result string bool :=
  (w, fd ← open_target t w; value ← k_get_ro fd w; Ok (value =? 1)).

#[global] Instance linux_ops : ReadOnlyOps W :=
  { set_read_only := linux_set_read_only; verify_read_only := linux_verify_read_only }.

Lemma open_target_identity t w o :
  open_target t w = Ok o ->
  o_block o = true /\ 0 <= o_major o /\ 0 <= o_minor o /\
  t_major_minor t = device_number (o_major o) (o_minor o).
Proof.
  unfold open_target. destruct (valid_kernel_name _); [|done]. destruct (k_open _ w) as [x|]; [|done].
  cbn [negb]. destruct (valid_major_minor _) eqn:Ev; [|done]. destruct (o_block x) eqn:Eb; [|done].
  cbn [negb]. case_bool_decide as E; [|done]. cbn [negb]. intros [= <-].
  apply valid_major_minor_spec in Ev as (m & n & Hm & Hn & Et). rewrite Et in E |- *.
  rewrite major_minor_key_number in E by done. injection E as -> ->. done.
Qed.
End linux.

(** ** What the operations promise *)

(** The contract of the operations towards the flag of each device: reading answers what the
    flag says and changes nothing, setting raises one flag and clears none. *)
Class ReadOnlyContract (W : Type) `{ReadOnlyOps W} := {
  flag : W -> string -> bool;
  set_raises t w w' : set_read_only t w = (w', Ok tt) -> flag w' (t_major_minor t) = true;
  set_keeps t w w' r n : set_read_only t w = (w', r) -> flag w n = true -> flag w' n = true;
  verify_keeps t w w' r : verify_read_only t w = (w', r) -> w' = w;
  verify_answers t w w' b : verify_read_only t w = (w', Ok b) -> flag w (t_major_minor t) = b }.

(** The documented behaviour of the two ioctls on the flags of the machine. *)
Class KernelContract (W : Type) `{Kernel W} := {
  k_flag : W -> string -> bool;
  k_set_raises o w w' : k_set_ro o w = (w', Ok tt) -> k_flag w' (device_number (o_major o) (o_minor o)) = true;
  k_set_keeps o w w' r n : k_set_ro o w = (w', r) -> k_flag w n = true -> k_flag w' n = true;
  k_get_answers o w z : k_get_ro o w = Ok z ->
    (z =? 1) = k_flag w (device_number (o_major o) (o_minor o)) }.

(** The implementation keeps the contract: the identity check after opening is what makes the
    flag it touches that of the target. *)
#[global] Instance linux_contract {W} `{KernelContract W} : ReadOnlyContract W.
Proof.
  refine {| flag := k_flag |}; cbn.
  - intros t w w' Hs. unfold linux_set_read_only in Hs. destruct (open_target t w) as [o|] eqn:E; [|done].
    apply open_target_identity in E as (_ & _ & _ & ->). by eapply k_set_raises.
  - intros t w w' r n Hs Hf. unfold linux_set_read_only in Hs.
    destruct (open_target t w) as [o|] eqn:E; [by eapply k_set_keeps|]. by injection Hs as <- _.
  - intros t w w' r Hv. unfold linux_verify_read_only in Hv. by injection Hv as <- _.
  - intros t w w' b Hv. unfold linux_verify_read_only in Hv. injection Hv as _ Hv.
    destruct (open_target t w) as [o|] eqn:E; [|done]. cbn in Hv.
    destruct (k_get_ro o w) as [z|] eqn:Eg; [|done]. cbn in Hv. injection Hv as <-.
    apply open_target_identity in E as (_ & _ & _ & ->). symmetry. by apply k_get_answers.
Defined.

(** ** Preparation is sound *)

Lemma target_of_le item : (length (target_of item) <= 1)%nat.
Proof. unfold target_of. repeat case_match; simpl; lia. Qed.

Lemma target_of_number item t :
  t ∈ target_of item -> get_value item "major_minor" = VStr (t_major_minor t) /\ valid_major_minor (t_major_minor t) = true.
Proof.
  unfold target_of. destruct (get_value item "kernel_name"), (get_value item "major_minor"); try by intros ?%elem_of_nil.
  rewrite elem_of_if, andb_true_iff. by intros [[_ ?] ->].
Qed.

Lemma concat_full (items : list (list (string * value))) :
  (length items <= length (concat (target_of <$> items)))%nat ->
  forall c, c ∈ items -> exists t, t ∈ target_of c.
Proof.
  assert (forall l, (length (concat (target_of <$> l)) <= length l)%nat) as Hle.
  { induction l as [|c l IH]; csimpl; [lia|]. rewrite length_app. pose proof (target_of_le c). lia. }
  induction items as [|c items IH]; csimpl; [by intros _ c ?%elem_of_nil|]. rewrite length_app. intros H d Hd.
  pose proof (target_of_le c). pose proof (Hle items).
  apply elem_of_cons in Hd as [->|Hd]; [|apply IH; [lia|done]].
  destruct (target_of c) as [|t]; simpl in *; [lia|]. exists t. left.
Qed.

Lemma children_of_le device children :
  get_value device "children" = VList children -> (length (children_of device) <= length children)%nat.
Proof.
  unfold children_of. intros ->. induction children as [|v l IH]; [done|].
  destruct v; csimpl; lia.
Qed.

(** Without target blockers every device number of the source has its target. *)
Lemma target_blockers_nil device :
  target_blockers device (targets_of device) = [] ->
  targets_of device <> [] /\ forall n, n ∈ source_major_minors device -> exists t, t ∈ targets_of device /\ t_major_minor t = n.
Proof.
  unfold target_blockers. destruct (get_value device "children") as [| | | | |children|] eqn:Ec; try done.
  destruct (Z.eqb_spec (zlen (targets_of device)) (1 + zlen children)) as [Hl|]; [|done]. intros _.
  pose proof (children_of_le _ _ Ec). unfold zlen in Hl.
  split; [intros E; rewrite E in Hl; simpl in Hl; lia|].
  assert (Hall : forall c, c ∈ device :: children_of device -> exists t, t ∈ target_of c).
  { apply concat_full. rewrite fmap_cons. cbn [concat]. fold (targets_of device). simpl length. lia. }
  intros n (_ & c & Hc & Hn)%elem_of_source_major_minors.
  destruct (Hall c) as [t Ht]; [by rewrite elem_of_cons|].
  destruct (target_of_number _ _ Ht) as [E _]. exists t. split; [|congruence].
  unfold targets_of. rewrite elem_of_app, elem_of_concat. destruct Hc as [->|Hc]; [by left|].
  right. exists (target_of c). split; [done|]. by apply list_elem_of_fmap_2.
Qed.

Lemma state_blockers_nil order device mounts facts :
  state_blockers (Some (inspect_storage_state order device mounts facts)) = [] <->
  ss_safe_for_preparation (inspect_storage_state order device mounts facts) = true.
Proof.
  unfold state_blockers, inspect_storage_state. cbn [ss_blockers ss_inspection_complete ss_safe_for_preparation negb].
  case_bool_decide as E; simpl.
  - rewrite E. done.
  - rewrite app_nil. split; [|done]. by intros [_ ?].
Qed.

Section sound.
Context {W : Type} `{ReadOnlyOps W}.

(** The results follow the targets, and a run without blockers verified each of them. *)
Lemma prepare_targets_results ts w w' rs bs :
  prepare_targets ts w = (w', rs, bs) ->
  r_target <$> rs = ts /\ (bs = [] <-> forallb r_verified rs = true).
Proof.
  revert w rs bs. induction ts as [|t ts IH]; intros w rs bs; simpl; [by intros [= <- <- <-]|].
  destruct (prepare_target t w) as [[w1 r] b] eqn:Et. destruct (prepare_targets ts w1) as [[w2 rs'] bs'] eqn:E.
  intros [= <- <- <-]. destruct (IH _ _ _ E) as [IH1 IH2]. rewrite fmap_cons, IH1. cbn [forallb].
  assert (r_target r = t /\ (b = [] <-> r_verified r = true)) as [-> Hb].
  { unfold prepare_target in Et. destruct (set_read_only t w) as [w3 [|]]; [|by simplify_eq].
    destruct (verify_read_only t w3) as [w4 [[]|]]; by simplify_eq/=. }
  split; [done|]. rewrite app_nil, andb_true_iff, Hb, IH2. done.
Qed.

(** A refusal has a reason and a reason is a refusal: a source is prepared if and only if the
    result lists no blocker; its audit record repeats the verdict and, when the source is
    prepared, names the device number of every target, in order. *)
Theorem prepared_iff_no_blocker device storage w w' p :
  prepare_read_only device storage w = (w', p) ->
  (p_prepared p = true <-> p_blockers p = []) /\ au_prepared (p_audit p) = p_prepared p /\
  (p_prepared p = true -> au_verified (p_audit p) = t_major_minor <$> targets_of device).
Proof.
  unfold prepare_read_only.
  destruct (state_blockers storage) as [|b bs];
    [|by intros [= <- <-]; split; [split; discriminate|]].
  destruct (target_blockers device (targets_of device)) as [|b bs] eqn:Et;
    [|by intros [= <- <-]; split; [split; discriminate|]].
  apply target_blockers_nil in Et as [Hne _].
  destruct (prepare_targets (targets_of device) w) as [[w1 rs] bs] eqn:E. intros [= <- <-]. cbn.
  apply prepare_targets_results in E as [Hr Hb]. rewrite bool_decide_false by done. cbn [negb andb].
  rewrite andb_true_iff, bool_decide_eq_true. split_and!; [tauto|done|].
  intros [_ Hv]. rewrite forallb_elem in Hv. rewrite (filter_b_all r_verified rs) by done. by rewrite Hr.
Qed.

Context `{!ReadOnlyContract W}.

Lemma prepare_targets_keeps ts w w' rs bs n :
  prepare_targets ts w = (w', rs, bs) -> flag w n = true -> flag w' n = true.
Proof.
  revert w rs bs. induction ts as [|t ts IH]; intros w rs bs; simpl; [by intros [= <- <- <-]|].
  destruct (prepare_target t w) as [[w1 r] b] eqn:Et. destruct (prepare_targets ts w1) as [[w2 rs'] bs'] eqn:E.
  intros [= <- <- <-] Hf. eapply IH; [done|]. unfold prepare_target in Et.
  destruct (set_read_only t w) as [w3 s] eqn:Es. apply (set_keeps _ _ _ _ n) in Es; [|done].
  destruct s; [|by simplify_eq]. destruct (verify_read_only t w3) as [w4 v] eqn:Ev.
  apply verify_keeps in Ev as ->. by destruct v; simplify_eq.
Qed.

Lemma prepare_targets_flags ts w w' rs :
  prepare_targets ts w = (w', rs, []) -> forall t, t ∈ ts -> flag w' (t_major_minor t) = true.
Proof.
  revert w rs. induction ts as [|t ts IH]; intros w rs; simpl; [by intros _ t ?%elem_of_nil|].
  destruct (prepare_target t w) as [[w1 r] b] eqn:Et. destruct (prepare_targets ts w1) as [[w2 rs'] bs'] eqn:E.
  intros [= <- <- Hb] u Hu. apply app_nil in Hb as [-> ->].
  apply elem_of_cons in Hu as [->|Hu]; [|by eapply IH].
  eapply prepare_targets_keeps; [done|]. unfold prepare_target in Et.
  destruct (set_read_only t w) as [w3 [|]] eqn:Es; [|done].
  destruct (verify_read_only t w3) as [w4 [[]|]] eqn:Ev; simplify_eq.
  pose proof Ev as Ev'. apply verify_answers in Ev. by apply verify_keeps in Ev' as ->.
Qed.

Variable order : list string -> list string.
Hypothesis order_perm : forall l, order l ≡ₚ l.

Lemma preparation_facts device mounts facts w w' p :
  let st := inspect_storage_state order device mounts facts in
  prepare_read_only device (Some st) w = (w', p) ->
  (ss_safe_for_preparation st = false -> w' = w /\ p_prepared p = false /\ p_targets p = []) /\
  (p_prepared p = true ->
   source_major_minors device <> [] /\
   (forall m, m ∈ mounts -> readable_mount m ->
      depends_on facts (source_major_minors device) (mf_major_minor m) -> mounted_read_only m) /\
   forall n, n ∈ source_major_minors device -> flag w' n = true).
Proof.
  intros st. unfold prepare_read_only. pose proof (state_blockers_nil order device mounts facts) as Hs.
  fold st in Hs. destruct (state_blockers (Some st)) as [|b bs] eqn:Eb.
  2: { intros [= <- <-]. split; [done|]. done. }
  assert (Hsafe : ss_safe_for_preparation st = true) by by apply Hs. rewrite Hsafe.
  destruct (target_blockers device (targets_of device)) as [|b bs] eqn:Et; [|intros [= <- <-]; split; done].
  destruct (prepare_targets (targets_of device) w) as [[w1 rs] bs] eqn:E. intros [= <- <-]. split; [done|]. cbn.
  intros [[_ Hb%bool_decide_eq_true]%andb_true_iff _]%andb_true_iff. subst bs.
  apply (inspect_safe_spec order order_perm) in Hsafe as (Hne & Hmt & _). split; [done|]. split.
  { intros m Hm Hread Hdep. destruct (normalize_readable m Hread) as (n & Hn & En & Emode).
    apply mount_mode_exact. rewrite <- Emode. apply (Hmt m n Hm Hn). by rewrite En. }
  intros n Hn. apply target_blockers_nil in Et as [_ Ht]. destruct (Ht n Hn) as (t & Hin & <-).
  by eapply prepare_targets_flags.
Qed.

(** C8. From inspection to preparation: an unsafe storage state stops the preparation before any
    kernel operation, so the machine is untouched; and when the preparation succeeds, the read-only
    flag is up on every device number of the source, its children included, and every entry of
    the mount table for a device that depends on the source is read-only, provided that its mount
    point is an absolute path of at most 4096 characters without control characters.  Entries
    with another mount point are not inspected, so a mount for writing may hide behind one. *)
Theorem preparation_safe device mounts facts w w' p :
  let st := inspect_storage_state order device mounts facts in
  prepare_read_only device (Some st) w = (w', p) ->
  (ss_safe_for_preparation st = false -> w' = w /\ p_prepared p = false /\ p_targets p = []) /\
  (p_prepared p = true ->
   source_major_minors device <> [] /\
   (forall m, m ∈ mounts -> readable_mount m ->
      depends_on facts (source_major_minors device) (mf_major_minor m) -> mounted_read_only m) /\
   forall n, n ∈ source_major_minors device -> flag w' n = true).
Proof. exact (preparation_facts device mounts facts w w' p). Qed.

End sound.

(** ** A small machine *)

(** A machine with a disk and a partition; its state is the list of the numbers whose flag is up. *)
Definition machine : Type := list string.

#[global] Instance machine_kernel : Kernel machine := {
  k_open name _ := if String.eqb name "sda" then Ok (Opened true 8 0)
                   else if String.eqb name "sda1" then Ok (Opened true 8 1) else Err "FileNotFoundError";
  k_set_ro o w := (device_number (o_major o) (o_minor o) :: w, Ok tt);
  k_get_ro o w := Ok (if bool_decide (device_number (o_major o) (o_minor o) ∈ w) then 1 else 0) }.

#[global] Instance machine_contract : KernelContract machine.
Proof.
  refine {| k_flag (w : machine) n := bool_decide (n ∈ w) |}; cbn.
  - intros o w w' [= <-]. apply bool_decide_eq_true. left.
  - intros o w w' r n [= <- _]. rewrite !bool_decide_eq_true. by right.
  - intros o w z [= <-]. by case_bool_decide.
Defined.

Definition disk_device : list (string * value) :=
  [("source_id", VStr "src"); ("kernel_name", VStr "sda"); ("major_minor", VStr "8:0");
   ("children", VList [VDict [("kernel_name", VStr "sda1"); ("major_minor", VStr "8:1")]])].

Definition disk_state : storage_state := inspect_storage_state id disk_device [sample_mount] sample_facts.

Lemma prepared_iff_no_blocker_witness :
  let r := prepare_read_only disk_device (Some disk_state) ([] : machine) in
  p_prepared r.2 = true /\ au_verified (p_audit r.2) = ["8:0"; "8:1"].
Proof.
  intros r. assert (p_prepared r.2 = true) as Hp by by vm_compute. split; [exact Hp|].
  destruct (prepared_iff_no_blocker disk_device (Some disk_state) ([] : machine) r.1 r.2)
    as (_ & _ & Ha); [by rewrite <- surjective_pairing|].
  rewrite (Ha Hp). by vm_compute.
Defined.

Lemma preparation_safe_witness :
  let r := prepare_read_only disk_device (Some disk_state) ([] : machine) in
  p_prepared r.2 = true /\ flag (W := machine) r.1 "8:1" = true.
Proof.
  intros r. assert (p_prepared r.2 = true) as Hp by by vm_compute. split; [exact Hp|].
  destruct (preparation_safe (W := machine) id (fun l => reflexivity l) disk_device [sample_mount] sample_facts []
              r.1 r.2) as [_ Hs]; [by rewrite <- surjective_pairing|].
  destruct (Hs Hp) as (_ & _ & Hf). apply Hf. apply (bool_decide_unpack _). by vm_compute.
Defined.

(** A device name that now belongs to another device is refused, not set. *)
Example changed_identity_refused :
  let r := prepare_read_only
    [("kernel_name", VStr "sda"); ("major_minor", VStr "8:16"); ("children", VList [])]
    (Some (StorageState VNone VNone true [] [] [] [] [] true)) ([] : machine) in
  r.1 = [] /\ p_blockers r.2 = [OperationFailed "read_only_set_failed" "8:16" "ReadOnlyOperationError"].
Proof. by vm_compute. Qed.
