(* ===== verification/RemovableSources.v ===== *)
(** * Removable sources (src/hostd/removable_sources.py)

    A card, stick, disc or floppy is scanned only when two proofs are there: the identity of the
    medium ([MediaIdentity]) and the read-only flag of the kernel ([ReadOnly], after
    [StorageInspection]).  The theorems compose the three: what a launch approval implies, that
    it agrees with the readiness shown to the operator, what a hotplug report says, and that the
    automount report of this module never sees a mount.

    Messages that list reasons are the lists. *)

From Stdlib Require Import ZArith Lia String Ascii.
From stdpp Require Import base list strings gmap sorting.
From S2P Require Import Prelude PyStr Json Identifiers Messages MediaIdentity Devices StorageInspection ReadOnly.

Local Open Scope string_scope.
Local Open Scope Z_scope.

(** hostd/removable_sources.py:21-21 SOURCE_KINDS *)
Definition REMOVABLE_KINDS : list string := ["usb_flash"; "memory_card"; "optical_disc"; "floppy_media"].
(** hostd/removable_sources.py:22-22 ALLOWED_READ_ONLY_OPS *)
Definition ALLOWED_READ_ONLY_OPS : list string := ["capacity"; "geometry"; "optical_toc"; "identity_fingerprint"].
(** hostd/removable_sources.py:23-35 FORBIDDEN_OP_NAMES *)
Definition FORBIDDEN_OP_NAMES : list string :=
  ["write"; "eject"; "burn"; "blank"; "format"; "packet_write"; "repair"; "remount_write"; "ioctl"].
(** hostd/removable_sources.py:39-39 WRITE_ONCE_OPTICAL_MEDIA *)
Definition WRITE_ONCE_OPTICAL_MEDIA : list string := ["cdr"; "cdrw"; "dvdr"; "dvdplusr"; "bdr"; "bdrw"].

(** hostd/removable_sources.py:42-45 RemovableSourceError: with its two subclasses, and the
    interpreter's error for an unhashable value. *)
Inductive source_error :=
  | ForbiddenOperationError (code : string)
  | ScanLaunchDenied (code : string) (reasons : list string)
  | SourceTypeError.

Abbreviation outcome := (result source_error).

(** [a or b]. *)
Definition py_or (a b : value) : value := if truthy a then a else b.
(** hostd/removable_sources.py:345-346 _string *)
Definition string_of_value (v : value) : string := match v with VStr s => s | _ => "" end.

(** ** Physical locks *)

(** hostd/removable_sources.py:56-61 PhysicalLockReport *)
Record PhysicalLockReport := {
  pl_write_protected : bool; pl_write_once : bool; pl_source : string; pl_informational_only : bool }.

(** [re.search(r"\btoken\b", text)] for a token of word characters: [previous] is the character
    before. *)
Fixpoint word_occurs (token : list ascii) (previous : option ascii) (l : list ascii) : bool :=
  let boundary o := match o with Some c => negb (word_char c) | None => true end in
  (boundary previous && bool_decide (take (length token) l = token) && boundary (head (drop (length token) l)))
  || match l with [] => false | c :: r => word_occurs token (Some c) r end.

(** hostd/removable_sources.py:322-328 _is_write_once *)
Definition is_write_once (device : mapping) : bool :=
  let model := lower (py_str (py_or (get_or_none device "model") (VStr ""))) in
  let media_type := lower (py_str (py_or (get_or_none device "media_type") (VStr ""))) in
  let combined := model +:+ " " +:+ media_type in
  existsb (fun token => word_occurs (chars token) None (chars combined)) WRITE_ONCE_OPTICAL_MEDIA
  || truthy (get_or_none device "write_once").

(** hostd/removable_sources.py:257-273 physical_lock_report *)
Definition physical_lock_report (device : mapping) : outcome PhysicalLockReport :=
  match member_of (get_or_none device "device_type") ["optical"; "optical_drive"] with
  | None => Err SourceTypeError
  | Some true =>
    let write_once := is_write_once device in
    Ok {| pl_write_protected := write_once; pl_write_once := write_once; pl_source := "optical-write-once";
          pl_informational_only := true |}
  | Some false =>
    Ok (if truthy (get_or_none device "write_protected") || truthy (get_or_none device "sd_lock")
        then {| pl_write_protected := true; pl_write_once := false; pl_source := "sd-write-protect-switch";
                pl_informational_only := true |}
        else if truthy (get_or_none device "read_only")
        then {| pl_write_protected := true; pl_write_once := false; pl_source := "sysfs-ro"; pl_informational_only := true |}
        else {| pl_write_protected := false; pl_write_once := false; pl_source := "none"; pl_informational_only := true |})
  end.

(** ** Preparation *)

(** hostd/removable_sources.py:72-92 PreparedSource *)
Record PreparedSource := {
  ps_source_id : string; ps_reader_id : string; ps_source_kind : string; ps_medium_present : bool;
  ps_medium_identity_proven : bool; ps_read_only_verified : bool; ps_physical_lock : PhysicalLockReport;
  ps_automount_blockers : list string; ps_blockers : list string; ps_warnings : list string }.

(** hostd/removable_sources.py:85-92 ready_for_scan *)
Definition ready_for_scan (p : PreparedSource) : bool :=
  ps_medium_identity_proven p && ps_read_only_verified p && bool_decide (ps_blockers p = [])
  && bool_decide (ps_automount_blockers p = []).

(** hostd/removable_sources.py:276-292 _prove_medium_identity *)
Definition prove_medium_identity (device : mapping) : outcome (bool * list string * bool) :=
  match get_or_none device "medium_identity" with
  | VDict record =>
    match validate_media_identity record with
    | Err _ => Err SourceTypeError
    | Ok validation =>
      let medium_present := truthy (get_or_none record "has_medium") in
      if negb (mv_valid validation) then Ok (false, ["medium_identity_invalid"], medium_present)
      else if negb medium_present then Ok (false, ["no_medium_present"], false)
      else
        let fingerprint := match get_or_none record "medium_signals" with
                           | VDict signals => get_or_none signals "sampled_fingerprint_sha256"
                           | _ => VNone
                           end in
        match fingerprint with
        | VStr s => if negb (str_len s =? 64) then Ok (false, ["medium_identity_weak_no_fingerprint"], true)
                    else Ok (true, [], true)
        | _ => Ok (false, ["medium_identity_weak_no_fingerprint"], true)
        end
    end
  | _ => Ok (false, ["missing_medium_identity_record"], truthy (get_or_none device "has_media"))
  end.

(** hostd/removable_sources.py:304-319 _automount_notes *)
Definition automount_notes (st : option storage_state) : list string * list string :=
  match st with
  | None => ([], [])
  | Some st => (bl_reason <$> ss_blockers st,
                omap (fun m => if String.eqb (mt_mode m) "ro" then Some "source_mounted_read_only" else None) (ss_mounts st))
  end.

(** hostd/removable_sources.py:331-342 _not_removable *)
Definition not_removable (source_id reader_id source_kind : string) : PreparedSource :=
  {| ps_source_id := source_id; ps_reader_id := reader_id; ps_source_kind := source_kind;
     ps_medium_present := false; ps_medium_identity_proven := false; ps_read_only_verified := false;
     ps_physical_lock := {| pl_write_protected := false; pl_write_once := false; pl_source := "none";
                            pl_informational_only := true |};
     ps_automount_blockers := []; ps_blockers := ["not_a_removable_source"]; ps_warnings := [] |}.

(** The reason of a blocker of the read-only preparation. *)
Definition prep_reason (b : prep_blocker) : string :=
  match b with
  | StateBlocked _ | StorageBlocked _ => "storage_state_blocked"
  | TargetBlocked reason _ | OperationFailed reason _ _ => reason
  end.

Section prepare.
Context {W : Type} `{ReadOnlyOps W}.

(** hostd/removable_sources.py:103-141 prepare_removable_source *)
Definition prepare_removable_source (device : mapping) (storage : option storage_state) (w : W)
    : W * outcome PreparedSource :=
  let source_id := string_of_value (get_or_none device "source_id") in
  let reader_id := string_of_value (py_or (get_or_none device "reader_id") (get_or_none device "source_id")) in
  let source_kind := source_kind_for_device device in
  if negb (bool_decide (source_kind ∈ REMOVABLE_KINDS)) then (w, Ok (not_removable source_id reader_id source_kind))
  else match prove_medium_identity device with
       | Err e => (w, Err e)
       | Ok (identity_proven, identity_blockers, medium_present) =>
         let (w, ro_result) := prepare_read_only device storage w in
         let (automount_blockers, warnings) := automount_notes storage in
         match physical_lock_report device with
         | Err e => (w, Err e)
         | Ok physical_lock =>
           (w, Ok {| ps_source_id := source_id; ps_reader_id := reader_id; ps_source_kind := source_kind;
                     ps_medium_present := medium_present; ps_medium_identity_proven := identity_proven;
                     ps_read_only_verified := p_prepared ro_result; ps_physical_lock := physical_lock;
                     ps_automount_blockers := automount_blockers;
                     ps_blockers := dedup (identity_blockers ++ (prep_reason <$> p_blockers ro_result))%list;
                     ps_warnings := dedup warnings |})
         end
       end.
End prepare.

(** hostd/removable_sources.py:144-156 require_scan_launch_approval *)
Definition require_scan_launch_approval (p : PreparedSource) : outcome unit :=
  if ps_medium_identity_proven p && ps_read_only_verified p && bool_decide (ps_blockers p = []) then Ok tt
  else Err (ScanLaunchDenied "scan_launch_denied"
         ((if ps_read_only_verified p then [] else ["read_only_not_verified"]) ++
          (if ps_medium_identity_proven p then [] else ["medium_identity_not_proven"]) ++ ps_blockers p)%list).

(** ** Hotplug *)

(** hostd/removable_sources.py:64-69 HotplugEvent *)
Record HotplugEvent := {
  he_reader_id : string; he_kind : string; he_media_change_generation : Z; he_changed : bool }.

(** hostd/removable_sources.py:295-301 _signals *)
Definition signals_of (device : mapping) : mapping :=
  match get_or_none device "medium_identity" with
  | VDict record =>
    match get_or_none record "medium_signals" with VDict signals => signals | _ => normalize_medium_signals device end
  | _ => normalize_medium_signals device
  end.

(** hostd/removable_sources.py:349-352 _nonnegative_int *)
Definition generation_of (v : value) : Z :=
  match int_value v with Some z => if 0 <=? z then z else 0 | None => 0 end.

Definition medium_in (device : mapping) : bool := is_plausible_medium [("medium_signals", VDict (signals_of device))].

(** hostd/removable_sources.py:159-193 report_hotplug_change *)
Definition report_hotplug_change (previous : option mapping) (current : mapping) : HotplugEvent :=
  let prior key := match previous with Some p => get_or_none p key | None => VNone end in
  let reader_id := string_of_value
    (py_or (get_or_none current "reader_id") (py_or (get_or_none current "source_id")
       (py_or (prior "reader_id") (prior "source_id")))) in
  let previous_generation := match previous with
                             | Some ((_ :: _) as p) => generation_of (get_or_none p "media_change_generation")
                             | _ => 0
                             end in
  let current_generation := generation_of (get_or_none current "media_change_generation") in
  let kind := match previous with
              | None => "unchanged"
              | Some p =>
                if negb (medium_in p) && medium_in current then "populated"
                else if medium_in p && negb (medium_in current) then "emptied"
                else if medium_in p && medium_in current && (previous_generation <? current_generation) then "swapped"
                else "unchanged"
              end in
  {| he_reader_id := reader_id; he_kind := kind; he_media_change_generation := current_generation;
     he_changed := bool_decide (kind ∈ ["populated"; "emptied"; "swapped"]) |}.

(** ** Automount, operations and read-only facts *)

(** What is known about mounts of a source. *)
Record AutomountReport := {
  am_source_id : string; am_mounts : list mount; am_holders : list holder; am_mounted_read_write : bool;
  am_automount_blockers : list string }.

(** hostd/removable_sources.py:196-221 detect_automount *)
Definition detect_automount (order : list string -> list string) (source_id : string) (mounts : list mount_fact)
    (holders : holder_facts) : AutomountReport :=
  let inspection := inspect_storage_state order
    [("source_id", VStr source_id); ("kernel_name", VNone); ("children", VList [])] mounts holders in
  {| am_source_id := source_id; am_mounts := ss_mounts inspection; am_holders := ss_holders inspection;
     am_mounted_read_write := existsb (fun m => String.eqb (mt_mode m) "rw") (ss_mounts inspection);
     am_automount_blockers := dedup (bl_reason <$> ss_blockers inspection) |}.

(** hostd/removable_sources.py:224-227 assert_allowed_read_only_op *)
Definition assert_allowed_read_only_op (op : string) : outcome unit :=
  raise_if (negb (bool_decide (op ∈ ALLOWED_READ_ONLY_OPS)) || existsb (fun f => str_contains f op) FORBIDDEN_OP_NAMES)
    (ForbiddenOperationError "forbidden_operation").

(** hostd/removable_sources.py:230-238 read_geometry *)
Definition read_geometry (device : mapping) : outcome (bool * option mapping) :=
  _ ← assert_allowed_read_only_op "geometry";
  match get_or_none device "geometry" with
  | VDict geometry =>
    let cleaned := omap (fun key => match int_value (get_or_none geometry key) with
                                    | Some _ => Some (key, get_or_none geometry key) | None => None end) GEOMETRY_KEYS in
    Ok (negb (bool_decide (length cleaned = 0%nat)), match cleaned with [] => None | _ => Some cleaned end)
  | _ => Ok (false, None)
  end.

(** hostd/removable_sources.py:241-254 read_optical_toc *)
Definition read_optical_toc (device : mapping) : outcome (bool * option (list mapping)) :=
  _ ← assert_allowed_read_only_op "optical_toc";
  match get_or_none device "toc_sessions" with
  | VList sessions =>
    let normalized := omap (fun s =>
      match s with
      | VDict d =>
        match int_value (get_or_none d "start_sector"), int_value (get_or_none d "length_sectors") with
        | Some _, Some _ => Some [("start_sector", get_or_none d "start_sector"); ("length_sectors", get_or_none d "length_sectors")]
        | _, _ => None
        end
      | _ => None
      end) sessions in
    Ok (negb (bool_decide (length normalized = 0%nat)), match normalized with [] => None | _ => Some normalized end)
  | _ => Ok (false, None)
  end.

(** ** Launch approval *)

Definition has_fingerprint (record : mapping) : Prop :=
  exists signals f, get_or_none record "medium_signals" = VDict signals /\
    get_or_none signals "sampled_fingerprint_sha256" = VStr f /\ str_len f = 64.

(** A device whose medium is identified: a valid record, a medium, a fingerprint. *)
Definition identified (device : mapping) : Prop :=
  exists record, get_or_none device "medium_identity" = VDict record /\
    (exists v, validate_media_identity record = Ok v /\ mv_valid v = true) /\
    truthy (get_or_none record "has_medium") = true /\ has_fingerprint record.

Lemma prove_medium_identity_ok device proven blockers present :
  prove_medium_identity device = Ok (proven, blockers, present) ->
  (proven = true <-> identified device) /\ (proven = true <-> blockers = []).
Proof.
  unfold prove_medium_identity, identified, has_fingerprint.
  destruct (get_or_none device "medium_identity") as [| | | | | |record];
    try (intros [= <- <- <-]; split; split; [done|by intros (? & ? & _)|done|done]).
  destruct (validate_media_identity record) as [v|e] eqn:Ev; [|done].
  destruct (mv_valid v) eqn:Em; cbn [negb].
  2: { intros [= <- <- <-]. split; split; try done. intros (r & [= <-] & (v' & Hv' & Hm) & _). rewrite Ev in Hv'. congruence. }
  destruct (truthy (get_or_none record "has_medium")) eqn:Eh; cbn [negb].
  2: { intros [= <- <- <-]. split; split; try done. intros (r & [= <-] & _ & Hh & _). congruence. }
  assert (Hweak : forall P : Prop, P -> ~ has_fingerprint record ->
    (false = true <-> exists r, VDict record = VDict r /\ (exists v0, validate_media_identity r = Ok v0 /\ mv_valid v0 = true) /\
       truthy (get_or_none r "has_medium") = true /\ has_fingerprint r) /\
    (false = true <-> ["medium_identity_weak_no_fingerprint"] = [])).
  { intros P _ Hn. split; split; try done. by intros (r & [= <-] & _ & _ & Hf). }
  destruct (get_or_none record "medium_signals") as [| | | | | |sg] eqn:Es;
    try (intros [= <- <- <-]; apply (Hweak True I); intros (? & ? & ? & _); congruence).
  destruct (get_or_none sg "sampled_fingerprint_sha256") as [| | |f| | |] eqn:Ef;
    try (intros [= <- <- <-]; apply (Hweak True I); intros (? & ? & ? & ? & _); congruence).
  destruct (Z.eqb_spec (str_len f) 64) as [Hl|Hl]; cbn [negb]; intros [= <- <- <-].
  - split; split; try done. intros _. exists record. split_and!; eauto.
  - apply (Hweak True I). intros (s & f' & E & E' & Hl'). congruence.
Qed.

Section launch.
Context {W : Type} `{ReadOnlyOps W}.

Lemma prepare_removable_ok device storage w w' p :
  prepare_removable_source device storage w = (w', Ok p) ->
  (w' = w /\ source_kind_for_device device ∉ REMOVABLE_KINDS /\ ps_medium_identity_proven p = false /\
   ps_read_only_verified p = false /\ ps_blockers p <> []) \/
  exists ro ib, source_kind_for_device device ∈ REMOVABLE_KINDS /\ prepare_read_only device storage w = (w', ro) /\
    (ps_medium_identity_proven p = true <-> identified device) /\ (ps_medium_identity_proven p = true <-> ib = []) /\
    ps_read_only_verified p = p_prepared ro /\ ps_automount_blockers p = (automount_notes storage).1 /\
    ps_blockers p = dedup (ib ++ (prep_reason <$> p_blockers ro)).
Proof.
  unfold prepare_removable_source. destruct (bool_decide_reflect (source_kind_for_device device ∈ REMOVABLE_KINDS)) as [Hk|Hk];
    cbn [negb]; [|intros [= <- <-]; by left].
  destruct (prove_medium_identity device) as [[[proven ib] present]|] eqn:Ei; [|done].
  destruct (prepare_read_only device storage w) as [w1 ro] eqn:Er. destruct (automount_notes storage) as [ab ws] eqn:Ea.
  destruct (physical_lock_report device); [|done]. intros [= <- <-]. right. exists ro, ib.
  apply prove_medium_identity_ok in Ei as [H1 H2]. cbn. split_and!; done.
Qed.

Lemma dedup_nil {A} `{EqDecision A} (l : list A) : dedup l = [] <-> l = [].
Proof.
  split; [|by intros ->]. intros E. destruct l as [|x l]; [done|]. exfalso.
  assert (x ∈ dedup (x :: l)) as Hx by (apply elem_of_dedup; left). rewrite E in Hx. by apply elem_of_nil in Hx.
Qed.

(** A storage state with blockers is never prepared. *)
Lemma blocked_not_prepared device storage w w' ro :
  prepare_read_only device storage w = (w', ro) -> p_prepared ro = true -> (automount_notes storage).1 = [].
Proof.
  unfold prepare_read_only. destruct (state_blockers storage) as [|b bs] eqn:E; [|by intros [= <- <-]].
  intros _ _. destruct storage as [st|]; [|done]. cbn [state_blockers] in E. apply app_nil in E as [E _].
  apply fmap_nil_inv in E. cbn [automount_notes fst]. by rewrite E.
Qed.

Context `{!ReadOnlyContract W}.
Variable order : list string -> list string.
Hypothesis order_perm : forall l, order l ≡ₚ l.

(** C14. A removable source is launched only on proof.  The approval for a launch agrees with the
    readiness shown to the operator; and it implies that the device is of a removable kind, that
    its medium has a valid identity record with a fingerprint of 64 characters, that the kernel's
    read-only flag is up on every device number of the source, and that every entry of the mount
    table for a device that depends on the source is read-only, provided that its mount point is
    an absolute path of at most 4096 characters without control characters: the inspection drops
    the entries with another mount point. *)
Theorem launch_needs_proof device mounts facts w w' p :
  prepare_removable_source device (Some (inspect_storage_state order device mounts facts)) w = (w', Ok p) ->
  (require_scan_launch_approval p = Ok tt <-> ready_for_scan p = true) /\
  (require_scan_launch_approval p = Ok tt ->
   source_kind_for_device device ∈ REMOVABLE_KINDS /\ identified device /\
   (forall m, m ∈ mounts -> readable_mount m ->
      depends_on facts (source_major_minors device) (mf_major_minor m) -> mounted_read_only m) /\
   source_major_minors device <> [] /\ forall n, n ∈ source_major_minors device -> flag w' n = true).
Proof.
  intros Hp. assert (Happ : require_scan_launch_approval p = Ok tt <->
    ps_medium_identity_proven p = true /\ ps_read_only_verified p = true /\ ps_blockers p = []).
  { unfold require_scan_launch_approval. destruct (_ && _) eqn:E.
    - apply andb_true_iff in E as [[? ?]%andb_true_iff ?%bool_decide_eq_true]. done.
    - split; [done|]. intros (E1 & E2 & E3). by rewrite E1, E2, bool_decide_true in E. }
  rewrite Happ. unfold ready_for_scan. rewrite !andb_true_iff, !bool_decide_eq_true.
  apply prepare_removable_ok in Hp as [(_ & _ & -> & _)|(ro & ib & Hk & Hro & Hi & _ & Hv & Ha & Hb)].
  { split; [|by intros [? _]]. split; [by intros [? _]|by intros [[[? _] _] _]]. }
  rewrite Hv, Ha. split.
  - split; [|tauto]. intros (H1 & H2 & H3). split_and!; [done..|]. by eapply blocked_not_prepared.
  - intros (H1 & H2 & _). destruct (preparation_facts order order_perm _ _ _ _ _ _ Hro) as [_ Hsafe].
    destruct (Hsafe H2) as (Hne & Hm & Hf).
    split; [done|]. split; [by apply Hi|]. split_and!; done.
Qed.

End launch.

(** A card reader on the small machine, its medium identified. *)
Definition card_device : mapping :=
  (disk_device ++
   [("device_type", VStr "sd_card"); ("removable", VBool true);
    ("medium_identity", VDict (medium_identity_record "reader_1"
       [("capacity_bytes", VInt 64000); ("logical_block_size", VInt 512); ("physical_block_size", VInt 512);
        ("geometry", VNone); ("toc_sessions", VNone);
        ("sampled_fingerprint_sha256", VStr "0123456789abcdef0123456789abcdef0123456789abcdef0123456789abcdef");
        ("media_change_generation", VInt 1)] "reader-plus-medium" []))])%list.

Definition card_run : machine * outcome PreparedSource :=
  prepare_removable_source card_device (Some (inspect_storage_state id card_device [sample_mount] sample_facts)) [].

Lemma launch_needs_proof_witness :
  exists p, card_run.2 = Ok p /\ require_scan_launch_approval p = Ok tt /\ identified card_device /\
    flag (W := machine) card_run.1 "8:1" = true.
Proof.
  destruct (card_run.2) as [p|] eqn:E; [|exfalso; by vm_compute in E].
  destruct (launch_needs_proof (W := machine) id (fun l => reflexivity l) card_device [sample_mount] sample_facts []
              card_run.1 p) as [_ H]; [by rewrite <- E, <- surjective_pairing|].
  assert (require_scan_launch_approval p = Ok tt) as Ha by (vm_compute in E; injection E as <-; reflexivity).
  exists p. destruct (H Ha) as (_ & Hi & _ & _ & Hf). split; [done|]. split; [exact Ha|]. split; [exact Hi|].
  apply Hf. apply (bool_decide_unpack _). by vm_compute.
Defined.

(** ** Hotplug reports *)

(** A report says [changed] exactly when a medium came, went, or was swapped while the counter of
    the reader rose; a first report never does. *)
Lemma hotplug_change_exact previous current :
  he_changed (report_hotplug_change previous current) = true <->
  exists p, previous = Some p /\
    (medium_in p <> medium_in current \/
     (medium_in p = true /\ medium_in current = true /\
      generation_of (get_or_none p "media_change_generation") <
      generation_of (get_or_none current "media_change_generation"))).
Proof.
  unfold report_hotplug_change. cbn [he_changed]. rewrite bool_decide_eq_true. destruct previous as [p|].
  2: { split; [|by intros (? & ? & _)]. intros Hx. by repeat (apply elem_of_cons in Hx as [Hx|Hx]; [done|]); apply elem_of_nil in Hx. }
  assert (Hg : match p with _ :: _ => generation_of (get_or_none p "media_change_generation") | [] => 0 end =
               generation_of (get_or_none p "media_change_generation")) by by destruct p.
  assert (match Some p with Some ((_ :: _) as q) => generation_of (get_or_none q "media_change_generation") | _ => 0 end =
          generation_of (get_or_none p "media_change_generation")) as -> by by destruct p.
  assert (Hun : "unchanged" ∈ ["populated"; "emptied"; "swapped"] <-> False).
  { split; [|done]. intros Hx. by repeat (apply elem_of_cons in Hx as [Hx|Hx]; [done|]); apply elem_of_nil in Hx. }
  destruct (medium_in p) eqn:E1, (medium_in current) eqn:E2; cbn [negb andb].
  - destruct (Z.ltb_spec (generation_of (get_or_none p "media_change_generation"))
                         (generation_of (get_or_none current "media_change_generation"))) as [Hlt|Hlt].
    + split; [|intros _; by do 2 right; left]. intros _. exists p. split; [done|]. right. by rewrite E1.
    + rewrite Hun. split; [done|]. intros (q & [= <-] & [Hd|(_ & _ & Hl)]); [congruence|lia].
  - split; [|intros _; by right; left]. intros _. exists p. split; [done|]. left. by rewrite E1.
  - split; [|intros _; by left]. intros _. exists p. split; [done|]. left. by rewrite E1.
  - rewrite Hun. split; [done|]. intros (q & [= <-] & [Hd|(Hd & _)]); congruence.
Qed.

(** The automount report is blind: it asks for a device without a number, so it finds no mount
    and no holder, whatever is mounted. *)
Theorem detect_automount_blind order source_id mounts holders :
  (forall l, order l ≡ₚ l) ->
  let r := detect_automount order source_id mounts holders in
  am_mounts r = [] /\ am_holders r = [] /\ am_mounted_read_write r = false /\
  am_automount_blockers r = ["missing_source_topology"].
Proof.
  intros Ho. assert (order [] = []) as E by (apply Permutation_nil_r, Ho).
  unfold detect_automount, inspect_storage_state. cbv zeta.
  change (source_major_minors _) with (@nil string). unfold with_descendants, related_holders. rewrite E.
  cbn [reverse rev_append]. change (reverse []) with (@nil string).
  assert (worklist (stacked (normalize_holders holders)) (length (@nil string) + length (all_holders (normalize_holders holders))) [] [] = Some []) as ->
    by by destruct (length (@nil string) + length (all_holders (normalize_holders holders)))%nat.
  assert (edge_loop (length (@nil string) + length (all_holders (normalize_holders holders))) (normalize_holders holders) [] [] [] = Some []) as ->
    by by destruct (length (@nil string) + length (all_holders (normalize_holders holders)))%nat.
  cbn [default]. change (merge_sort holder_le []) with (@nil holder).
  rewrite filter_b_none by (intros x _; apply bool_decide_false, not_elem_of_nil). done.
Qed.

Definition card_mount : mount_fact := MountFact "8:0" "/media/card" (OptionText "rw") None "vfat".

Lemma detect_automount_blind_witness :
  mt_mode <$> normalize_mount card_mount = Some "rw" /\
  am_mounted_read_write (detect_automount id "src" [card_mount] []) = false.
Proof.
  split; [by vm_compute|].
  by destruct (detect_automount_blind id "src" [card_mount] [] (fun l => reflexivity l)) as (_ & _ & H & _).
Defined.
