(* ===== verification/Identity.v ===== *)
(** * Stable source identities (src/hostd/identity.py)

    Every device gets an opaque identifier, a hash of facts that do not change when the kernel
    renames it; a removable device gets a second one that is bound to the medium in it.  The
    directory /dev/disk/by-id enters as its links with the paths they resolve to.  The theorems: identifiers of one enumeration
    are distinct and resolving one is exact; the kernel's name of a device is no part of its
    identity; and the record of a medium that this module attaches is refused by the validation
    of [MediaIdentity], so that no removable source prepared from it is ever ready.

    Devices are parsed mappings as in [MediaIdentity]; the children of a device are mappings. *)

From Stdlib Require Import ZArith Lia String Ascii.
From stdpp Require Import base list strings gmap sorting.
From S2P Require Import Prelude PyStr Json Identifiers Sha256 Messages MediaIdentity Paths Devices StorageInspection ReadOnly RemovableSources.

Local Open Scope string_scope.
Local Open Scope Z_scope.

(** hostd/identity.py:26-27 IdentityCollisionError: the errors of the module, and the interpreter's
    for operations on values of the wrong type. *)
Inductive identity_failure :=
  | IdentityCollisionError (source_id existing kernel_name : string)
  | IdentityNotFoundError (source_id : string)
  | IdentityOtherError.

Abbreviation answer := (result identity_failure).

(** ** Links *)

(** An entry of the directory: its name, whether it is a link, and what it resolves to, [None]
    where the resolution fails. *)
Record by_id_entry := ByIdEntry { bi_name : string; bi_symlink : bool; bi_target : option string }.

(** hostd/identity.py:240-243 _safe_by_id_name *)
Definition safe_by_id_name (name : string) : option string :=
  if String.eqb name "" || str_contains "/" name || char_in "000"%char name || str_contains ".." name
  then None else Some (str_take 192 name).

(** hostd/identity.py:222-236 _by_id_names_by_kernel: one entry. *)
Definition link_of (e : by_id_entry) : option (string * string) :=
  if negb (bi_symlink e) then None
  else name ← safe_by_id_name (bi_name e);
       target ← bi_target e;
       let kernel_name := path_name_of (parse_path target) in
       if String.eqb kernel_name "" || str_contains ".." kernel_name || str_contains "/" kernel_name
       then None else Some (kernel_name, name).

(** hostd/identity.py:216-237 _by_id_names_by_kernel, with the lookup of a name: the entries in the
    order of their names, [None] where the directory cannot be read. *)
Definition by_id_names_by_kernel (entries : option (list by_id_entry)) (kernel_name : string) : list string :=
  match entries with
  | None => []
  | Some entries =>
    let entries := merge_sort (fun a b => String.leb (bi_name a) (bi_name b)) entries in
    snd <$> filter_b (fun '(k, _) => String.eqb k kernel_name) (omap link_of entries)
  end.

(** ** Digests *)

(** hostd/identity.py:268-273 _normalize *)
Fixpoint normalize_value (v : value) : value :=
  match v with
  | VDict d => VDict (sort_keys (map (fun '(k, x) => (k, normalize_value x)) d))
  | VList l => VList (map normalize_value l)
  | v => v
  end.

(** hostd/identity.py:263-265 _digest *)
Definition digest (v : value) : string := str_take 32 (sha256_hex (utf8 (py_repr (normalize_value v)))).

(** ** Facts *)

(** hostd/identity.py:246-260 _topology: one child. *)
Definition child_topology (child : mapping) : mapping :=
  [("start_sector", get_or_none child "start_sector"); ("size_bytes", get_or_none child "size_bytes")].

(** The sort key of a child, [None] where the comparison of two keys raises. *)
Definition sort_number (v : value) : option Z := if truthy v then int_value v else Some 0.
Definition topology_key (t : mapping) : option (Z * Z) :=
  a ← sort_number (get_or_none t "start_sector"); b ← sort_number (get_or_none t "size_bytes"); Some (a, b).

Definition topology_le (s t : mapping) : Prop :=
  match topology_key s, topology_key t with
  | Some (a, b), Some (c, d) => a < c \/ (a = c /\ b <= d)
  | _, _ => True
  end.

#[global] Instance topology_le_dec s t : Decision (topology_le s t).
Proof. unfold topology_le. destruct (topology_key s) as [[? ?]|], (topology_key t) as [[? ?]|]; apply _. Defined.

(** hostd/identity.py:246-260 _topology: the sort raises when one of several keys is not a number. *)
Definition topology (device : mapping) : answer value :=
  let children := child_topology <$> children_of device in
  if (1 <? zlen children) && existsb (fun t => bool_decide (topology_key t = None)) children
  then Err IdentityOtherError
  else Ok (VList (VDict <$> merge_sort topology_le children)).

(** hostd/identity.py:186-192 _medium_dependent_facts *)
Definition medium_dependent_facts (device : mapping) : answer mapping :=
  t ← topology device;
  Ok [("size_bytes", get_or_none device "size_bytes");
      ("logical_block_size", get_or_none device "logical_block_size");
      ("physical_block_size", get_or_none device "physical_block_size"); ("topology", t)].

(** [copy.update(pairs)]. *)
Definition dict_update (d pairs : mapping) : mapping := foldl (fun d '(k, v) => dict_set d k v) d pairs.

(** hostd/identity.py:195-205 _with_child_identity *)
Definition with_child_identity (child parent : mapping) : mapping :=
  let parent_id := get_or_none parent "source_id" in
  let basis := VDict [("parent_source_id", parent_id); ("start_sector", get_or_none child "start_sector");
                      ("size_bytes", get_or_none child "size_bytes")] in
  dict_update child [("source_id", VStr ("source_" +:+ digest basis)); ("parent_source_id", parent_id);
                     ("identity_strength", VStr "parent-topology")].

(** [copy\["children"\] = \[_with_child_identity(child, copy) for child in ...\]]: a missing list is
    empty, and every child has to be a mapping. *)
Definition with_children (copy : mapping) : answer mapping :=
  match dict_get copy "children" with
  | None => Ok (dict_set copy "children" (VList []))
  | Some (VList children) =>
    identified ← mapM_result (fun c => match c with VDict child => Ok (VDict (with_child_identity child copy))
                                       | _ => Err IdentityOtherError end) children;
    Ok (dict_set copy "children" (VList identified))
  | Some _ => Err IdentityOtherError
  end.

(** [list(copy.get(key, \[\]))] of a list of texts. *)
Definition texts_of (copy : mapping) (key : string) : answer (list value) :=
  match dict_get copy key with
  | None => Ok []
  | Some (VList l) => Ok l
  | Some _ => Err IdentityOtherError
  end.

(** hostd/identity.py:133-170 _with_identity: the basis of an identifier and how strong it is. *)
Definition identity_basis (device : mapping) (by_id : list string) : mapping * string :=
  let text key := string_of_value (get_or_none device key) in
  let vendor_model := [("vendor", get_or_none device "vendor"); ("model", get_or_none device "model")] in
  if negb (String.eqb (text "wwn") "") then ((vendor_model ++ [("wwn", VStr (text "wwn"))])%list, "wwn-facts")
  else if negb (String.eqb (text "serial") "") then ((vendor_model ++ [("serial", VStr (text "serial"))])%list, "serial-facts")
  else match by_id with
       | name :: _ => ([("by_id", VStr name)], "by-id")
       | [] => ((vendor_model ++ [("device_type", get_or_none device "device_type");
                                  ("transport", get_or_none device "transport");
                                  ("removable", VBool (truthy (get_or_none device "removable")))])%list, "weak-facts")
       end.

(** The identifier of a device and its strength. *)
Definition source_id_of (device : mapping) (by_id : list string) : answer (string * string) :=
  let (basis, strength) := identity_basis device by_id in
  facts ← (if truthy (get_or_none device "removable") then Ok [] else medium_dependent_facts device);
  Ok ("source_" +:+ digest (VDict (basis ++ facts)%list), strength).

(** hostd/identity.py:127-183 _with_identity *)
Definition with_identity (by_id_names : string -> list string) (device : mapping) : answer mapping :=
  warnings ← texts_of device "warnings";
  let matched := by_id_names (string_of_value (get_or_none device "kernel_name")) in
  '(source_id, strength) ← source_id_of device matched;
  let warnings := if String.eqb strength "weak-facts"
                  then (warnings ++ [VStr "missing_stable_serial_or_by_id"])%list else warnings in
  with_children (dict_update device
    [("source_id", VStr source_id); ("identity_strength", VStr strength); ("identity_warnings", VList warnings);
     ("by_id_name", match matched with name :: _ => VStr name | [] => VNone end)]).

(** hostd/identity.py:113-115 _medium_source_id *)
Definition medium_source_id (reader_id : string) (signals : mapping) : string :=
  "medium_" +:+ digest (VDict [("reader_id", VStr reader_id); ("medium_signals", VDict signals)]).

(** hostd/identity.py:118-124 strength_warning_needed *)
Definition strength_warning_needed (device : mapping) : bool :=
  is_plausible_medium [("medium_signals", VDict (normalize_medium_signals device))].

(** Warnings that are texts; [dict.fromkeys] of anything else is left out of the model. *)
Definition warning_texts (l : list value) : answer (list string) :=
  mapM_result (fun v => match v with VStr s => Ok s | _ => Err IdentityOtherError end) l.

(** hostd/identity.py:77-110 _with_media_identity *)
Definition with_media_identity (device : mapping) : answer mapping :=
  let reader_id := string_of_value (get_or_none device "source_id") in
  let reader_strength := string_of_value (get_or_none device "identity_strength") in
  reader_warnings ← (l ← texts_of device "identity_warnings"; warning_texts l);
  let signals := normalize_medium_signals device in
  let has_fingerprint :=
    negb (bool_decide (normalized_fingerprint (get_or_none signals "sampled_fingerprint_sha256") = None)) in
  let strength := if has_fingerprint then "reader-plus-medium" else "reader-facts" in
  let warnings := (identity_warnings_for device signals ++
    (if negb has_fingerprint && strength_warning_needed device then ["missing_sampled_fingerprint"] else []))%list in
  with_children (dict_update device
    [("reader_id", VStr reader_id); ("reader_identity_strength", VStr reader_strength);
     ("source_id", VStr (medium_source_id reader_id signals)); ("identity_strength", VStr strength);
     ("identity_warnings", VList (VStr <$> dedup (reader_warnings ++ warnings)%list));
     ("medium_identity", VDict (medium_identity_record reader_id signals strength warnings))]).

(** ** Enumeration *)

(** hostd/identity.py:208-213 _identity_tree *)
Definition identity_tree (device : mapping) : list mapping := device :: children_of device.

(** Identifiers in use, with the kernel name of their device. *)
Abbreviation seen_ids := (list (string * string)).

(** hostd/identity.py:48-56 attach_stable_identities: one candidate. *)
Definition claim_identity (seen : seen_ids) (candidate : mapping) : answer seen_ids :=
  let source_id := string_of_value (get_or_none candidate "source_id") in
  let kernel_name := string_of_value (get_or_none candidate "kernel_name") in
  match dict_get seen source_id with
  | Some existing => Err (IdentityCollisionError source_id existing kernel_name)
  | None => Ok (dict_set seen source_id kernel_name)
  end.

Fixpoint claim_all (seen : seen_ids) (candidates : list mapping) : answer seen_ids :=
  match candidates with
  | [] => Ok seen
  | c :: rest => seen ← claim_identity seen c; claim_all seen rest
  end.

(** One device with its identities. *)
Definition identify (by_id_names : string -> list string) (device : mapping) : answer mapping :=
  identified ← with_identity by_id_names device;
  if is_removable device then with_media_identity identified else Ok identified.

Fixpoint attach_from (by_id_names : string -> list string) (seen : seen_ids) (devices : list mapping) : answer (list mapping) :=
  match devices with
  | [] => Ok []
  | device :: rest =>
    identified ← identify by_id_names device;
    seen ← claim_all seen (identity_tree identified);
    resolved ← attach_from by_id_names seen rest;
    Ok (identified :: resolved)
  end.

(** hostd/identity.py:34-61 attach_stable_identities *)
Definition attach_stable_identities (entries : option (list by_id_entry)) (devices : list mapping) : answer (list mapping) :=
  attach_from (by_id_names_by_kernel entries) [] devices.

(** hostd/identity.py:64-74 resolve_stable_identity *)
Definition resolve_stable_identity (entries : option (list by_id_entry)) (source_id : string) (devices : list mapping)
    : answer mapping :=
  resolved ← attach_stable_identities entries devices;
  match filter_b (fun c => is_text (get_or_none c "source_id") source_id) (concat (identity_tree <$> resolved)) with
  | candidate :: _ => Ok candidate
  | [] => Err (IdentityNotFoundError source_id)
  end.

(** ** Looking into identified devices *)

Lemma dict_get_update d pairs key :
  NoDup (pairs.*1) -> dict_get (dict_update d pairs) key = match dict_get pairs key with Some v => Some v | None => dict_get d key end.
Proof.
  unfold dict_update. revert d. induction pairs as [|[k v] pairs IH]; intros d; [done|].
  rewrite fmap_cons, NoDup_cons. intros [Hk Hn]. cbn [foldl dict_get]. rewrite (IH _ Hn). cbn in Hk.
  destruct (String.eqb_spec key k) as [->|Hne].
  - apply dict_get_None in Hk. by rewrite Hk, dict_get_set, String.eqb_refl.
  - destruct (dict_get pairs key); [done|]. rewrite dict_get_set. destruct (String.eqb_spec key k); congruence.
Qed.

(** The children of a device as the module sees them, before and after. *)
Definition child_pair (copy : mapping) (c c' : value) : Prop :=
  exists m, c = VDict m /\ c' = VDict (with_child_identity m copy).

Lemma with_children_ok copy r :
  with_children copy = Ok r ->
  (forall key, key <> "children" -> dict_get r key = dict_get copy key) /\
  exists l l', dict_get r "children" = Some (VList l') /\ Forall2 (child_pair copy) l l' /\
    (dict_get copy "children" = Some (VList l) \/ (dict_get copy "children" = None /\ l = [])).
Proof.
  assert (Hget : forall v key, key <> "children" -> dict_get (dict_set copy "children" v) key = dict_get copy key).
  { intros v key Hk. rewrite dict_get_set. destruct (String.eqb_spec key "children"); congruence. }
  unfold with_children. destruct (dict_get copy "children") as [[| | | | |l|]|] eqn:Ec; try done.
  - intros (l' & Hl & [= <-])%bind_ok. split; [by apply Hget|]. exists l, l'.
    rewrite dict_get_set, String.eqb_refl. split_and!; [done| |by left]. revert l' Hl.
    clear Ec. induction l as [|c l IH]; intros l'; cbn [mapM_result].
    + intros [= <-]. constructor.
    + intros (c' & Hc & (r & Hr & [= <-])%bind_ok)%bind_ok. constructor; [|by apply IH].
      destruct c as [| | | | | |m]; try done. injection Hc as <-. by exists m.
  - intros [= <-]. split; [by apply Hget|]. exists [], []. rewrite dict_get_set, String.eqb_refl.
    split_and!; [done|constructor|by right].
Qed.

Lemma with_children_total copy l :
  dict_get copy "children" = Some (VList l) -> Forall (fun c => exists m, c = VDict m) l ->
  exists r, with_children copy = Ok r.
Proof.
  intros E Hl. unfold with_children. rewrite E.
  assert (exists l', mapM_result (fun c => match c with VDict child => Ok (VDict (with_child_identity child copy))
            | _ => Err IdentityOtherError end) l = Ok l') as [l' ->]; [|by eexists].
  clear E. induction Hl as [|c l [m ->] _ [l' IH]]; cbn [mapM_result]; [by eexists|]. rewrite IH. by eexists.
Qed.

(** What the reader identity of a device consists of. *)
Lemma with_identity_ok by_id device r :
  with_identity by_id device = Ok r ->
  exists id strength warnings copy,
    source_id_of device (by_id (string_of_value (get_or_none device "kernel_name"))) = Ok (id, strength) /\
    (exists digest, id = "source_" +:+ digest) /\
    copy = dict_update device
      [("source_id", VStr id); ("identity_strength", VStr strength); ("identity_warnings", VList warnings);
       ("by_id_name", match by_id (string_of_value (get_or_none device "kernel_name")) with
                      | name :: _ => VStr name | [] => VNone end)] /\
    with_children copy = Ok r.
Proof.
  unfold with_identity. intros (ws & _ & ([id strength] & Hid & Hr)%bind_ok)%bind_ok.
  exists id, strength. eexists _, _. split_and!; [exact Hid| |reflexivity|exact Hr].
  unfold source_id_of in Hid. destruct (identity_basis _ _) as [basis s].
  apply bind_ok in Hid as (facts & _ & [= <- _]). by eexists.
Qed.

Lemma get_or_none_dict d e key : dict_get d key = dict_get e key -> get_or_none d key = get_or_none e key.
Proof. unfold get_or_none. by intros ->. Qed.

(** ** Enumeration: distinct identifiers, exact resolution *)

Definition sid (c : mapping) : string := string_of_value (get_or_none c "source_id").

Lemma claim_all_ok seen cs seen' :
  claim_all seen cs = Ok seen' ->
  NoDup (sid <$> cs) /\
  (forall k, dict_get seen' k = None <-> dict_get seen k = None /\ k ∉ sid <$> cs) /\
  (forall k, k ∈ sid <$> cs -> dict_get seen k = None).
Proof.
  revert seen. induction cs as [|c cs IH]; intros seen; cbn [claim_all].
  - intros [= <-]. split; [constructor|]. split; [|by intros k Hk%elem_of_nil].
    intros k. split; [intros ?; split; [done|apply not_elem_of_nil]|by intros [? _]].
  - intros (s1 & Hc & (Hn & Hk & Hin)%IH)%bind_ok. unfold claim_identity in Hc. fold (sid c) in Hc.
    destruct (dict_get seen (sid c)) eqn:E; [done|]. injection Hc as <-.
    assert (Hset : forall k v, dict_get (dict_set seen (sid c) v) k = None <-> k <> sid c /\ dict_get seen k = None).
    { intros k v. rewrite dict_get_set. destruct (String.eqb_spec k (sid c)) as [->|]; [|tauto]. split; [done|by intros [? _]]. }
    rewrite fmap_cons, NoDup_cons. split_and!; [|done| |].
    + intros Hc%Hin. by apply Hset in Hc as [? _].
    + intros k. rewrite Hk, Hset, not_elem_of_cons. tauto.
    + intros k [->|Hk']%elem_of_cons; [done|]. by apply Hin, Hset in Hk' as [_ ?].
Qed.

Lemma attach_from_ok by_id seen devices resolved :
  attach_from by_id seen devices = Ok resolved ->
  Forall2 (fun d r => identify by_id d = Ok r) devices resolved /\
  NoDup (sid <$> concat (identity_tree <$> resolved)) /\
  forall k, k ∈ sid <$> concat (identity_tree <$> resolved) -> dict_get seen k = None.
Proof.
  revert seen resolved. induction devices as [|d ds IH]; intros seen resolved; cbn [attach_from].
  - intros [= <-]. split; [constructor|]. split; [constructor|by intros k Hk%elem_of_nil].
  - intros (r & Hr & (s1 & (Hn & Hk & Hin)%claim_all_ok & (rs & (Hf & Hns & Hs)%IH & [= <-])%bind_ok)%bind_ok)%bind_ok.
    split; [by constructor|]. rewrite fmap_cons. cbn [concat]. rewrite fmap_app. split.
    + apply NoDup_app. split_and!; [done| |done]. intros k Hk1 Hk2%Hs. apply Hk in Hk2 as [_ Hk2]. by apply Hk2.
    + intros k [Hk1|Hk2]%elem_of_app; [by apply Hin|]. apply Hs in Hk2. by apply Hk in Hk2 as [? _].
Qed.

Lemma nodup_fmap_eq {A B} (f : A -> B) l x y : NoDup (f <$> l) -> x ∈ l -> y ∈ l -> f x = f y -> x = y.
Proof.
  induction l as [|z l IH]; [by intros _ ?%elem_of_nil|]. rewrite fmap_cons, NoDup_cons.
  intros [Hz Hn] [->|Hx]%elem_of_cons [->|Hy]%elem_of_cons E; [done| | |by apply IH].
  - destruct Hz. rewrite E. by apply list_elem_of_fmap_2.
  - destruct Hz. rewrite <- E. by apply list_elem_of_fmap_2.
Qed.

(** C15. Identifiers of one enumeration identify: every device and every child of it has another
    source identifier, each device is in the answer once and in order; and resolving an
    identifier yields a device exactly when it is in the enumeration with that identifier, so
    an identifier that is not current is reported as not found and never as another device. *)
Theorem identities_resolve_exactly entries devices resolved :
  attach_stable_identities entries devices = Ok resolved ->
  Forall2 (fun d r => identify (by_id_names_by_kernel entries) d = Ok r) devices resolved /\
  NoDup (sid <$> concat (identity_tree <$> resolved)) /\
  forall id,
    (forall c, resolve_stable_identity entries id devices = Ok c <->
       c ∈ concat (identity_tree <$> resolved) /\ get_or_none c "source_id" = VStr id) /\
    (resolve_stable_identity entries id devices = Err (IdentityNotFoundError id) <->
       forall c, c ∈ concat (identity_tree <$> resolved) -> get_or_none c "source_id" <> VStr id).
Proof.
  intros H. unfold resolve_stable_identity. rewrite H. cbn [mbind result_bind].
  apply attach_from_ok in H as (Hf & Hn & _). split_and!; [done..|]. intros id.
  set (all := concat (identity_tree <$> resolved)) in *.
  assert (Hx : forall c, c ∈ filter_b (fun c => is_text (get_or_none c "source_id") id) all <->
             c ∈ all /\ get_or_none c "source_id" = VStr id).
  { intros c. rewrite elem_of_filter_b. split; intros [Hc Ht]; (split; [done|]).
    - destruct (get_or_none c "source_id"); try done. cbn in Ht. by apply String.eqb_eq in Ht as ->.
    - rewrite Ht. cbn. apply String.eqb_refl. }
  destruct (filter_b _ all) as [|c0 rest] eqn:E.
  - split; [intros c; rewrite <- Hx; split; [done|by intros ?%elem_of_nil]|].
    split; [|done]. intros _ c Hc Hid. assert (c ∈ ([] : list mapping)) as Hc' by by apply Hx. by apply elem_of_nil in Hc'.
  - assert (c0 ∈ all /\ get_or_none c0 "source_id" = VStr id) as [H0 Hid0] by (apply Hx; left). split.
    + intros c. split; [intros [= <-]; done|]. intros [Hc Hid]. f_equal.
      apply (nodup_fmap_eq sid all); [done..|]. unfold sid. by rewrite Hid, Hid0.
    + split; [done|]. intros Hno. by destruct (Hno c0 H0).
Qed.

(** ** The medium of an attached device *)

Lemma identify_removable by_id device r :
  identify by_id device = Ok r -> is_removable device = true ->
  exists id digest signals strength warnings,
    get_or_none r "reader_id" = VStr id /\ id = "source_" +:+ digest /\
    get_or_none r "source_id" = VStr (medium_source_id id signals) /\
    get_or_none r "medium_identity" = VDict (medium_identity_record id signals strength warnings) /\
    signals = normalize_medium_signals device.
Proof.
  unfold identify. intros (d1 & Hd1 & Hr)%bind_ok Hrem. rewrite Hrem in Hr.
  apply with_identity_ok in Hd1 as (id & strength & ws & copy & _ & [digest ->] & -> & [Hget _]%with_children_ok).
  assert (Hsig : normalize_medium_signals d1 = normalize_medium_signals device).
  { unfold normalize_medium_signals.
    assert (Hd : forall key, key <> "children" -> ~ key ∈ ["source_id"; "identity_strength"; "identity_warnings"; "by_id_name"] ->
        get_or_none d1 key = get_or_none device key).
    { intros key Hc Hk. apply get_or_none_dict. rewrite Hget by done. rewrite dict_get_update.
      - rewrite (proj2 (dict_get_None _ _)); [done|]. exact Hk.
      - apply (bool_decide_unpack _). by vm_compute. }
    by rewrite !Hd by (try done; apply (bool_decide_unpack _); by vm_compute). }
  unfold with_media_identity in Hr. apply bind_ok in Hr as (rw & _ & Hr).
  assert (get_or_none d1 "source_id" = VStr ("source_" +:+ digest)) as Hid.
  { unfold get_or_none. rewrite Hget, dict_get_update by (try done; apply (bool_decide_unpack _); by vm_compute). done. }
  rewrite Hid, Hsig in Hr. cbn [string_of_value] in Hr. cbv zeta in Hr.
  apply with_children_ok in Hr as [Hr _].
  exists ("source_" +:+ digest), digest, (normalize_medium_signals device). eexists _, _.
  assert (Hu : forall d pairs key, key <> "children" -> NoDup (pairs.*1) -> forall v,
             (forall k, k <> "children" -> dict_get r k = dict_get (dict_update d pairs) k) ->
             dict_get pairs key = Some v -> get_or_none r key = v).
  { intros d pairs key Hk Hn v Hr' Hv. unfold get_or_none. rewrite Hr' by done. by rewrite dict_get_update, Hv. }
  split_and!; [|reflexivity| | |reflexivity];
    (eapply Hu; [done| |exact Hr|reflexivity]; apply (bool_decide_unpack _); by vm_compute).
Qed.

(** The record of an attached medium names its reader by the identifier of a source, which the
    validation of a medium identity does not accept. *)
Lemma attached_medium_invalid by_id device r :
  identify by_id device = Ok r -> is_removable device = true -> ~ identified r.
Proof.
  intros H Hrem. destruct (identify_removable _ _ _ H Hrem) as (id & dg & signals & st & ws & _ & -> & _ & Hm & _).
  intros (record & Hrec & (v & Hv & Hval) & _). rewrite Hm in Hrec. injection Hrec as <-.
  unfold validate_media_identity, medium_identity_record in Hv.
  cbn [dict_set String.eqb Ascii.eqb Bool.eqb get_or_none dict_get default from_option] in Hv.
  revert Hv. cbv zeta. destruct (in_texts _ IDENTITY_STRENGTHS) as [known|]; [|done].
  cbn. intros [= <-]. done.
Qed.

(** A removable source that was enumerated is never launched: whatever its medium, the storage
    state and the machine, the preparation of a removable device as [attach_stable_identities]
    returns it is refused, because the medium record it carries names the reader [source_...]
    where the contract of the record requires [reader_...]. *)
Theorem attached_source_never_launched {W} `{ReadOnlyOps W} entries devices resolved device r storage w w' p :
  attach_stable_identities entries devices = Ok resolved ->
  (device, r) ∈ zip devices resolved -> is_removable device = true ->
  prepare_removable_source r storage w = (w', Ok p) ->
  ready_for_scan p = false /\ exists reasons, require_scan_launch_approval p = Err (ScanLaunchDenied "scan_launch_denied" reasons).
Proof.
  intros (Hf & _)%attach_from_ok Hz Hrem Hp.
  assert (identify (by_id_names_by_kernel entries) device = Ok r) as Hi.
  { clear -Hf Hz. induction Hf as [|d x ds rs Hd _ IH]; [by apply elem_of_nil in Hz|].
    cbn [zip zip_with] in Hz. apply elem_of_cons in Hz as [[= -> ->]|Hz]; [done|by apply IH]. }
  assert (ps_medium_identity_proven p = false) as E.
  { apply prepare_removable_ok in Hp as [(_ & _ & E & _)|(ro & ib & _ & _ & E & _)]; [done|].
    apply not_true_is_false. intros Ht%E. by eapply attached_medium_invalid. }
  unfold ready_for_scan, require_scan_launch_approval. rewrite E. cbn [andb]. split; [done|]. by eexists.
Qed.

(** ** Renaming *)

(** What the kernel may change between two enumerations: its names for a device and for the
    children, and everything else about the children but start and size. *)
Record renamed (device device' : mapping) : Prop := {
  rn_facts : forall key, key <> "kernel_name" -> key <> "children" -> dict_get device' key = dict_get device key;
  rn_children : exists l l', get_or_none device "children" = VList l /\ get_or_none device' "children" = VList l' /\
    Forall2 (fun c c' => exists m m', c = VDict m /\ c' = VDict m' /\
      get_or_none m' "start_sector" = get_or_none m "start_sector" /\
      get_or_none m' "size_bytes" = get_or_none m "size_bytes") l l' }.

Lemma renamed_get device device' key :
  renamed device device' -> key <> "kernel_name" -> key <> "children" -> get_or_none device' key = get_or_none device key.
Proof. intros H ? ?. apply get_or_none_dict. by apply H. Qed.

Lemma renamed_topology device device' : renamed device device' -> topology device' = topology device.
Proof.
  intros H. unfold topology. assert (child_topology <$> children_of device' = child_topology <$> children_of device) as ->; [|].
  { destruct (rn_children _ _ H) as (l & l' & E & E' & Hl). unfold children_of, get_value.
    change (default VNone (dict_get ?d "children")) with (get_or_none d "children"). rewrite E, E'.
    clear E E'. induction Hl as [|c c' l l' (m & m' & -> & -> & Hs & Hz) _ IH]; [done|].
    cbn [omap list_omap]. rewrite !fmap_cons. f_equal; [|exact IH]. unfold child_topology. by rewrite Hs, Hz. }
  unfold zlen. done.
Qed.

(** Two devices that agree on everything but the kernel's names, the by-id alias, and those
    facts of their children that [same_child] does not ask for. *)
Definition same_place (m m' : mapping) : Prop :=
  get_or_none m' "start_sector" = get_or_none m "start_sector" /\ get_or_none m' "size_bytes" = get_or_none m "size_bytes".

Definition same_but_names (same_child : mapping -> mapping -> Prop) (d d' : mapping) : Prop :=
  (forall key, key ∉ ["kernel_name"; "children"; "by_id_name"] -> dict_get d' key = dict_get d key) /\
  exists l l', dict_get d "children" = Some (VList l) /\ dict_get d' "children" = Some (VList l') /\
    Forall2 (fun c c' => exists m m', c = VDict m /\ c' = VDict m' /\ same_child m m') l l'.

Lemma same_but_names_update same_child d d' pairs pairs' :
  same_but_names same_child d d' -> NoDup (pairs.*1) -> NoDup (pairs'.*1) ->
  (forall key, key ∉ ["kernel_name"; "children"; "by_id_name"] -> dict_get pairs' key = dict_get pairs key) ->
  "children" ∉ pairs.*1 -> "children" ∉ pairs'.*1 ->
  same_but_names same_child (dict_update d pairs) (dict_update d' pairs').
Proof.
  intros [Hf (l & l' & E & E' & Hl)] Hn Hn' Hp Hc%dict_get_None Hc'%dict_get_None. split.
  - intros key Hk. by rewrite !dict_get_update, Hp, Hf.
  - exists l, l'. by rewrite !dict_get_update, Hc, Hc'.
Qed.

Lemma same_but_names_children d d' r :
  same_but_names same_place d d' -> with_children d = Ok r ->
  exists r', with_children d' = Ok r' /\ same_but_names (fun m m' => same_place m m' /\ sid m' = sid m) r r'.
Proof.
  intros [Hf (l & l' & E & E' & Hl)] Hr.
  destruct (with_children_total d' l' E') as [r' Hr'].
  { clear -Hl. induction Hl as [|c c' l l' (m & m' & _ & -> & _) _ IH]; constructor; [by eexists|done]. }
  exists r'. split; [done|].
  apply with_children_ok in Hr as (Hg & k & k' & Hrc & Hk & Hdc), Hr' as (Hg' & q & q' & Hrc' & Hq & Hdc').
  split.
  { intros key Hkey. assert (key <> "children") by (intros ->; apply Hkey; right; left). rewrite Hg, Hg' by done. by apply Hf. }
  exists k', q'. split_and!; [done..|].
  assert (k = l) as -> by (destruct Hdc as [Hdc|[Hdc _]]; congruence).
  assert (q = l') as -> by (destruct Hdc' as [Hdc'|[Hdc' _]]; congruence).
  assert (Hp : get_or_none d' "source_id" = get_or_none d "source_id").
  { apply get_or_none_dict, Hf. apply (bool_decide_unpack _). by vm_compute. }
  clear -Hl Hk Hq Hp. revert k' q' Hk Hq.
  induction Hl as [|c c' l l' (m & m' & -> & -> & [Hs Hz]) _ IH]; intros k' q' Hk Hq.
  { inversion Hk. inversion Hq. constructor. }
  apply Forall2_cons_inv_l in Hk as (? & ? & (x & [= <-] & ->) & Hk' & ->).
  apply Forall2_cons_inv_l in Hq as (? & ? & (y & [= <-] & ->) & Hq' & ->).
  constructor; [|by apply IH]. eexists _, _. split; [reflexivity|]. split; [reflexivity|].
  assert (Hc : forall c p key, key ∉ ["source_id"; "parent_source_id"; "identity_strength"] ->
              get_or_none (with_child_identity c p) key = get_or_none c key).
  { intros c p key Hkey. apply get_or_none_dict. unfold with_child_identity.
    rewrite dict_get_update by (apply (bool_decide_unpack _); by vm_compute). by rewrite (proj2 (dict_get_None _ key)). }
  assert (Hid : forall c p, sid (with_child_identity c p) = "source_" +:+ digest (VDict
              [("parent_source_id", get_or_none p "source_id"); ("start_sector", get_or_none c "start_sector");
               ("size_bytes", get_or_none c "size_bytes")])).
  { intros c p. unfold sid, get_or_none at 1, with_child_identity.
    by rewrite dict_get_update by (apply (bool_decide_unpack _); by vm_compute). }
  unfold same_place. rewrite !Hc by (apply (bool_decide_unpack _); by vm_compute). rewrite !Hid, Hs, Hz, Hp. done.
Qed.

Lemma renamed_source_id by_id by_id' device device' :
  renamed device device' ->
  string_of_value (get_or_none device "wwn") <> "" \/ string_of_value (get_or_none device "serial") <> "" ->
  source_id_of device' by_id' = source_id_of device by_id /\
  (identity_basis device' by_id').2 <> "weak-facts" /\ (identity_basis device by_id).2 <> "weak-facts".
Proof.
  intros H Hhw. unfold source_id_of.
  assert (Ht : medium_dependent_facts device' = medium_dependent_facts device).
  { unfold medium_dependent_facts. rewrite (renamed_topology device device') by done.
    by rewrite !(renamed_get device device') by done. }
  assert (identity_basis device' by_id' = identity_basis device by_id /\ (identity_basis device by_id).2 <> "weak-facts") as [-> Hw].
  { unfold identity_basis. rewrite !(renamed_get device device') by done.
    destruct (String.eqb_spec (string_of_value (get_or_none device "wwn")) ""); cbn [negb]; [|done].
    destruct (String.eqb_spec (string_of_value (get_or_none device "serial")) ""); cbn [negb]; [|done]. by destruct Hhw. }
  rewrite Ht, (renamed_get device device') by done. done.
Qed.

Lemma same_get P d d' key :
  same_but_names P d d' -> key ∉ ["kernel_name"; "children"; "by_id_name"] -> get_or_none d' key = get_or_none d key.
Proof. intros H Hk. by apply get_or_none_dict, H. Qed.

(** Equal facts under [same_but_names], for keys that are not names. *)
Ltac same_facts H := rewrite ?(same_get _ _ _ _ H) by (apply (bool_decide_unpack _); vm_compute; reflexivity).

Lemma same_signals P d d' : same_but_names P d d' -> normalize_medium_signals d' = normalize_medium_signals d.
Proof. intros H. unfold normalize_medium_signals. by same_facts H. Qed.

Lemma same_warnings P d d' s : same_but_names P d d' -> identity_warnings_for d' s = identity_warnings_for d s.
Proof. intros H. unfold identity_warnings_for, source_kind_for_device. by same_facts H. Qed.

Lemma same_but_names_mono (P Q : mapping -> mapping -> Prop) d d' :
  (forall m m', P m m' -> Q m m') -> same_but_names P d d' -> same_but_names Q d d'.
Proof.
  intros HPQ [Hf (l & l' & E & E' & Hl)]. split; [done|]. exists l, l'. split_and!; [done..|].
  eapply Forall2_impl; [exact Hl|]. cbn. intros c c' (m & m' & -> & -> & Hm). exists m, m'. auto.
Qed.

Abbreviation same_identity := (same_but_names (fun m m' => same_place m m' /\ sid m' = sid m)).

Lemma renamed_with_identity by_id by_id' device device' r :
  renamed device device' ->
  string_of_value (get_or_none device "wwn") <> "" \/ string_of_value (get_or_none device "serial") <> "" ->
  with_identity by_id device = Ok r ->
  exists r', with_identity by_id' device' = Ok r' /\ same_identity r r'.
Proof.
  intros H Hhw. unfold with_identity, texts_of. rewrite (rn_facts _ _ H "warnings") by done.
  intros (ws & Hws & ([id strength] & Hid & Hr)%bind_ok)%bind_ok. rewrite Hws. cbn [mbind result_bind].
  destruct (renamed_source_id (by_id (string_of_value (get_or_none device "kernel_name")))
    (by_id' (string_of_value (get_or_none device' "kernel_name"))) device device' H Hhw) as (E & _ & Hw).
  rewrite E, Hid. cbn [mbind result_bind].
  assert (String.eqb strength "weak-facts" = false) as Es.
  { unfold source_id_of in Hid. destruct (identity_basis device _) as [b s].
    apply bind_ok in Hid as (f & _ & [= _ <-]). by apply String.eqb_neq. }
  rewrite Es in Hr |- *. eapply same_but_names_children; [|exact Hr].
  assert (Hn : NoDup ["source_id"; "identity_strength"; "identity_warnings"; "by_id_name"])
    by (apply (bool_decide_unpack _); by vm_compute).
  apply same_but_names_update; [|exact Hn|exact Hn| |apply (bool_decide_unpack _); by vm_compute..].
  - split.
    + intros key Hk. apply H; intros ->; apply Hk; [left|right; left].
    + destruct (rn_children _ _ H) as (l & l' & El & El' & Hl). exists l, l'. split; [|split; [|exact Hl]].
      * unfold get_or_none in El. by destruct (dict_get device "children"); cbn in El; subst.
      * unfold get_or_none in El'. by destruct (dict_get device' "children"); cbn in El'; subst.
  - intros key Hk. cbn [dict_get]. destruct (String.eqb_spec key "by_id_name") as [->|]; [|done].
    exfalso. apply Hk. by do 2 right; left.
Qed.

Lemma renamed_with_media d d' r :
  same_identity d d' -> with_media_identity d = Ok r -> exists r', with_media_identity d' = Ok r' /\ same_identity r r'.
Proof.
  intros H. unfold with_media_identity, texts_of, strength_warning_needed.
  rewrite (proj1 H "identity_warnings") by (apply (bool_decide_unpack _); by vm_compute).
  rewrite (same_signals _ _ _ H), (same_warnings _ _ _ _ H). same_facts H.
  intros (ws & Hws & Hr)%bind_ok. rewrite Hws. cbn [mbind result_bind].
  eapply same_but_names_children; [|exact Hr].
  apply same_but_names_update; [by eapply same_but_names_mono; [|exact H]; intros m m' [? _]|..|done| |];
    apply (bool_decide_unpack _); by vm_compute.
Qed.

(** The kernel's names are no part of an identity: when a device with a hardware number
    comes back under another kernel name, with other by-id links and renamed partitions, its
    enumeration succeeds again and yields the same source identifier, the same reader, and the
    same identifier for each partition. *)
Theorem rename_keeps_identity by_id by_id' device device' r :
  renamed device device' ->
  string_of_value (get_or_none device "wwn") <> "" \/ string_of_value (get_or_none device "serial") <> "" ->
  identify by_id device = Ok r ->
  exists r', identify by_id' device' = Ok r' /\ sid r' = sid r /\
    get_or_none r' "reader_id" = get_or_none r "reader_id" /\ (sid <$> children_of r') = (sid <$> children_of r).
Proof.
  intros H Hhw. unfold identify. intros (d & Hd & Hr)%bind_ok.
  destruct (renamed_with_identity by_id by_id' _ _ _ H Hhw Hd) as (d' & -> & Hs). cbn [mbind result_bind].
  assert (is_removable device' = is_removable device) as ->.
  { unfold is_removable, source_kind_for_device. by rewrite !(renamed_get device device') by done. }
  assert (exists r', (if is_removable device then with_media_identity d' else Ok d') = Ok r' /\ same_identity r r')
    as (r' & -> & Hsame).
  { destruct (is_removable device); [by apply (renamed_with_media d)|]. injection Hr as <-. by exists d'. }
  exists r'. unfold sid at 1 2. same_facts Hsame. split_and!; [done..|].
  destruct (proj2 Hsame) as (l & l' & El & El' & Hl). unfold children_of, get_value. rewrite El, El'. cbn [default from_option id].
  clear -Hl. induction Hl as [|c c' l l' (m & m' & -> & -> & [_ Hm]) _ IH]; [done|].
  change (sid m' :: (sid <$> omap (fun v => match v with VDict c => Some c | _ => None end) l') =
          sid m :: (sid <$> omap (fun v => match v with VDict c => Some c | _ => None end) l)).
  rewrite Hm. f_equal. exact IH.
Qed.

(** ** Examples *)

(** A card reader with a card, before and after a reboot that renamed it. *)
Definition reader_device (name part : string) : mapping :=
  [("kernel_name", VStr name); ("device_type", VStr "sd_card"); ("removable", VBool true);
   ("vendor", VStr "Acme"); ("model", VStr "Reader"); ("wwn", VNone); ("serial", VStr "R-17");
   ("size_bytes", VInt 64000); ("logical_block_size", VInt 512); ("physical_block_size", VInt 512);
   ("sampled_fingerprint_sha256", VStr "0123456789abcdef0123456789abcdef0123456789abcdef0123456789abcdef");
   ("media_change_generation", VInt 1); ("warnings", VList []);
   ("children", VList [VDict [("kernel_name", VStr part); ("start_sector", VInt 2048); ("size_bytes", VInt 32000)]])].

(** The directory with a link to each partition and one that is no name. *)
Definition sample_links : option (list by_id_entry) :=
  Some [ByIdEntry "usb-Acme-part1" true (Some "/dev/sdb1"); ByIdEntry "usb-Acme" true (Some "/dev/sdb");
        ByIdEntry "usb..x" true (Some "/dev/sdb"); ByIdEntry "file" false (Some "/dev/sdb")].

Definition no_links : string -> list string := by_id_names_by_kernel None.
Definition links : string -> list string := by_id_names_by_kernel sample_links.

Example links_of_sdb : links "sdb" = ["usb-Acme"] /\ links "sdb1" = ["usb-Acme-part1"].
Proof. by vm_compute. Qed.

Definition reader_before : mapping := reader_device "sdb" "sdb1".
Definition reader_after : mapping := reader_device "sdc" "sdc1".

Lemma renamed_reader : renamed reader_before reader_after.
Proof.
  split.
  - intros key Hk Hc. unfold reader_after, reader_before, reader_device. cbn [dict_get].
    destruct (String.eqb_spec key "kernel_name"); [done|].
    repeat match goal with |- context [if String.eqb key ?k then _ else _] => destruct (String.eqb_spec key k); [done|] end. done.
  - eexists _, _. split; [reflexivity|]. split; [reflexivity|]. repeat constructor. eexists _, _. done.
Qed.

Lemma rename_keeps_identity_witness :
  exists r r', identify links reader_before = Ok r /\ identify no_links reader_after = Ok r' /\ sid r' = sid r.
Proof.
  destruct (identify links reader_before) as [r|] eqn:E; [|exfalso; by vm_compute in E].
  destruct (rename_keeps_identity links no_links reader_before reader_after r renamed_reader) as (r' & E' & Hs & _);
    [by right|exact E|]. exists r, r'. done.
Defined.

Lemma identities_resolve_exactly_witness :
  exists resolved, attach_stable_identities sample_links [reader_before; disk_device] = Ok resolved /\
    NoDup (sid <$> concat (identity_tree <$> resolved)).
Proof.
  destruct (attach_stable_identities sample_links [reader_before; disk_device]) as [resolved|] eqn:E; [|exfalso; by vm_compute in E].
  exists resolved. split; [reflexivity|]. by apply identities_resolve_exactly in E as (_ & Hn & _).
Defined.

(** Two devices with the same facts collide. *)
Example same_facts_collide :
  attach_stable_identities sample_links [reader_before; reader_after] =
  Err (IdentityCollisionError (sid (default [] (match identify links reader_before with Ok r => Some r | Err _ => None end))) "sdb" "sdc").
Proof. by vm_compute. Qed.

Definition attached_reader : mapping := match identify links reader_before with Ok r => r | Err _ => [] end.

Definition attached_run : machine * outcome PreparedSource :=
  prepare_removable_source attached_reader (Some (inspect_storage_state id attached_reader [] [])) [].

Lemma attached_source_never_launched_witness : exists p, attached_run.2 = Ok p /\ ready_for_scan p = false.
Proof.
  destruct (attached_run.2) as [p|] eqn:E; [|exfalso; by vm_compute in E]. exists p. split; [reflexivity|].
  assert (attach_stable_identities sample_links [reader_before] = Ok [attached_reader]) as Ha by by vm_compute.
  refine (proj1 (attached_source_never_launched (W := machine) sample_links _ _ reader_before attached_reader
    (Some (inspect_storage_state id attached_reader [] [])) [] attached_run.1 p Ha _ _ _)); [left|reflexivity|].
  by rewrite <- E, <- surjective_pairing.
Defined.
