(* ===== verification/SystemDisks.v ===== *)
(** * Denial of the running system's disks (src/hostd/system_disks.py)

    A source that holds the root, the boot partition, the state of Reperio, the storage of a
    container engine or the swap space of the running host may not be scanned unless the policy
    overrides it in full.  The ancestry of a device is the recursion of [DestinationSeparation],
    over the parents with valid numbers.  The theorems: when a source is denied, and what an
    override needs. *)

From Stdlib Require Import ZArith Lia String Ascii.
From stdpp Require Import base list strings gmap relations.
From S2P Require Import Prelude PyStr Json Identifiers Devices StorageInspection DestinationSeparation.

Local Open Scope string_scope.
Local Open Scope Z_scope.

(** hostd/system_disks.py:15-18 SYSTEM_DISK_OVERRIDE_WARNING *)
Definition SYSTEM_DISK_OVERRIDE_WARNING : string :=
  "This source backs the running system. Scanning it can produce inconsistent recovery " +:+
  "results or destabilize the host; keep this warning visible for the entire scan.".
(** hostd/system_disks.py:20-20 CRITICAL_MOUNTS *)
Definition CRITICAL_MOUNTS : list string := ["/"; "/boot"; "/boot/efi"; "/usr"; "/var"].
(** hostd/system_disks.py:21-21 CONTAINER_STORAGE_PREFIXES *)
Definition CONTAINER_STORAGE_PREFIXES : list string :=
  ["/var/lib/docker"; "/var/lib/containers"; "/var/lib/kubelet"].

(** hostd/system_disks.py:25-26 SystemDiskOverrideError *)
Inductive override_error := SystemDiskOverrideError (message : string).

(** A use of a device that protects it. *)
Record protected_use := ProtectedUse {
  pu_major_minor : string; pu_reason : string; pu_mount_point : option string }.

(** hostd/system_disks.py:175-178 _normalize_path *)
Definition normalize_mount_path (path : string) : option string :=
  if negb (starts_with "/" path) || char_in "000"%char path then None else Some (normpath path).

(** hostd/system_disks.py:171-172 _paths_overlap *)
Definition paths_overlap (first second : string) : bool :=
  String.eqb first second || starts_with (second +:+ "/") first || starts_with (first +:+ "/") second.

(** hostd/system_disks.py:161-168 _mount_reason *)
Definition mount_reason (mount_point : string) (state_paths : list string) : option string :=
  if bool_decide (mount_point ∈ CRITICAL_MOUNTS) then Some ("critical_mount:" +:+ mount_point)
  else if existsb (paths_overlap mount_point) state_paths then Some "reperio_state"
  else if existsb (paths_overlap mount_point) CONTAINER_STORAGE_PREFIXES then Some "container_storage"
  else None.

(** hostd/system_disks.py:29-52 protected_uses_from_mounts: one mount. *)
Definition mount_use (state_paths : list string) (m : mount_fact) : option protected_use :=
  p ← normalize_mount_path (mf_mount_point m);
  if negb (valid_major_minor (mf_major_minor m)) then None
  else reason ← mount_reason p state_paths; Some (ProtectedUse (mf_major_minor m) reason (Some p)).

(** hostd/system_disks.py:29-52 protected_uses_from_mounts *)
Definition protected_uses_from_mounts (mounts : list mount_fact) (state_paths : list string) : list protected_use :=
  omap (mount_use (omap normalize_mount_path state_paths)) mounts.

(** hostd/system_disks.py:55-62 protected_uses_from_swaps: a swap area by its device number. *)
Definition protected_uses_from_swaps (swaps : list string) : list protected_use :=
  omap (fun n => if valid_major_minor n then Some (ProtectedUse n "active_swap" None) else None) swaps.

(** The parents with a valid number. *)
Definition valid_parents (ancestry : list (string * list string)) : list (string * list string) :=
  prod_map id (filter_b valid_major_minor) <$> ancestry.

(** hostd/system_disks.py:143-158 _expand_ancestry: looked up at one device. *)
Definition expanded_ancestry (ancestry : list (string * list string)) (x : string) : list string :=
  DestinationSeparation.ancestry (valid_parents ancestry) x.

(** hostd/system_disks.py:134-140 _matches_source *)
Definition matches_source (source : list string) (protected : string) (graph : list (string * list string)) : bool :=
  bool_decide (protected ∈ source) || existsb (fun a => bool_decide (a ∈ source)) (expanded_ancestry graph protected).

Record denial_reason := DenialReason { dr_reason : string; dr_major_minor : string; dr_detail : string }.

Record evaluation := Evaluation {
  ev_source_id : value; ev_kernel_name : value; ev_denied_by_default : bool; ev_override_required : bool;
  ev_denial_reasons : list denial_reason }.

(** hostd/system_disks.py:65-96 evaluate_system_disk_denial *)
Definition evaluate_system_disk_denial (device : list (string * value)) (uses : list protected_use)
    (graph : list (string * list string)) : evaluation :=
  let source := source_major_minors device in
  let reasons := omap (fun u =>
    if valid_major_minor (pu_major_minor u) && matches_source source (pu_major_minor u) graph
    then Some (DenialReason (pu_reason u) (pu_major_minor u) (default (pu_reason u) (pu_mount_point u)))
    else None) uses in
  Evaluation (get_value device "source_id") (get_value device "kernel_name")
    (negb (bool_decide (reasons = []))) (negb (bool_decide (reasons = []))) reasons.

#[global] Instance denial_reason_eq_dec : EqDecision denial_reason.
Proof. solve_decision. Defined.

(** The evidence that is kept with a launch. *)
Record evidence := Evidence {
  od_override_used : bool; od_source_id : value; od_persistent_warnings : list string;
  od_denial_reasons : list denial_reason }.

(** [policy.get(k) is True]. *)
Definition is_true (policy : list (string * value)) (k : string) : bool :=
  match get_value policy k with VBool true => true | _ => false end.

(** hostd/system_disks.py:99-116 require_system_disk_override *)
Definition require_system_disk_override (e : evaluation) (policy : list (string * value))
    : result override_error evidence :=
  if negb (ev_denied_by_default e) then Ok (Evidence false VNone [] [])
  else
    _ ← raise_if (negb (is_true policy "allow_system_disk")) (SystemDiskOverrideError "system-disk source is denied by default");
    _ ← raise_if (negb (is_text (get_value policy "persistent_warning") SYSTEM_DISK_OVERRIDE_WARNING))
          (SystemDiskOverrideError "system-disk override requires the persistent warning text");
    _ ← raise_if (negb (is_true policy "operator_acknowledged"))
          (SystemDiskOverrideError "system-disk override requires operator acknowledgment");
    Ok (Evidence true (ev_source_id e) [SYSTEM_DISK_OVERRIDE_WARNING] (ev_denial_reasons e)).

(** ** When a source is denied *)

(** [x] stands on [y] through any number of valid parents, or is [y]. *)
Definition stands_on (graph : list (string * list string)) : string -> string -> Prop :=
  rtc (parent_edge (valid_parents graph)).

Lemma matches_source_exact source protected graph :
  matches_source source protected graph = true <-> exists s, s ∈ source /\ stands_on graph protected s.
Proof.
  unfold matches_source, expanded_ancestry, stands_on. rewrite orb_true_iff, bool_decide_eq_true, existsb_elem.
  setoid_rewrite ancestry_exact. setoid_rewrite bool_decide_eq_true. split.
  - intros [Hp|(a & Ha & Hs)]; [by exists protected|]. exists a. split; [done|by apply tc_rtc].
  - intros (s & Hs & [->|Ht]%rtc_tc); [by left|right; by exists s].
Qed.

Lemma omap_nonempty {A B} (f : A -> option B) l : omap f l <> [] <-> exists a b, a ∈ l /\ f a = Some b.
Proof.
  split.
  - destruct (omap f l) as [|b k] eqn:E; [done|]. intros _.
    assert (b ∈ omap f l) as (a & Ha & Hb)%list_elem_of_omap by (rewrite E; left). by exists a, b.
  - intros (a & b & Ha & Hb) E. assert (b ∈ omap f l) as Hin by (apply list_elem_of_omap; eauto).
    rewrite E in Hin. by apply elem_of_nil in Hin.
Qed.

Lemma denied_exact device uses graph :
  ev_denied_by_default (evaluate_system_disk_denial device uses graph) = true <->
  exists u s, u ∈ uses /\ valid_major_minor (pu_major_minor u) = true /\
    s ∈ source_major_minors device /\ stands_on graph (pu_major_minor u) s.
Proof.
  unfold evaluate_system_disk_denial. cbn [ev_denied_by_default]. rewrite negb_true_iff, bool_decide_eq_false, omap_nonempty.
  split.
  - intros (u & r & Hu & Hr). destruct (_ && _) eqn:E; [|done]. apply andb_true_iff in E as [Hv (s & Hs & Hst)%matches_source_exact].
    by exists u, s.
  - intros (u & s & Hu & Hv & Hs & Hst). eexists u, _. split; [done|].
    rewrite Hv, (proj2 (matches_source_exact _ _ _)); [done|eauto].
Qed.

(** A mount point the running system needs: critical, or inside or around a state path or a
    container store. *)
Definition needed_path (state_paths : list string) (p : string) : Prop :=
  p ∈ CRITICAL_MOUNTS \/
  exists q, (q ∈ CONTAINER_STORAGE_PREFIXES \/ exists s, s ∈ state_paths /\ normalize_mount_path s = Some q) /\
    paths_overlap p q = true.

Lemma mount_reason_exact p state_paths :
  (exists r, mount_reason p (omap normalize_mount_path state_paths) = Some r) <-> needed_path state_paths p.
Proof.
  unfold mount_reason, needed_path. destruct (bool_decide_reflect (p ∈ CRITICAL_MOUNTS)); [naive_solver|].
  destruct (existsb (paths_overlap p) (omap normalize_mount_path state_paths)) eqn:E.
  - apply existsb_elem in E as (q & (s & Hs & Hq)%list_elem_of_omap & Ho). split; [|eauto]. intros _. right.
    exists q. split; [|done]. right. by exists s.
  - rewrite <- not_true_iff_false, existsb_elem in E.
    destruct (existsb (paths_overlap p) CONTAINER_STORAGE_PREFIXES) eqn:E'.
    + apply existsb_elem in E' as (q & Hq & Ho). split; [|eauto]. intros _. right. exists q. by split; [left|].
    + rewrite <- not_true_iff_false, existsb_elem in E'. split; [by intros [? ?]|].
      intros [?|(q & [Hq|(s & Hs & Hq)] & Ho)]; [done| |]; exfalso; [apply E'; eauto|apply E].
      exists q. split; [|done]. apply list_elem_of_omap. eauto.
Qed.

(** C16. A disk of the running system is never launched by default.  The source is denied if and
    only if some mount of a path the system needs, or some swap area, with a valid device number,
    stands on a device of the source, directly or through any number of stacked devices; and a
    denied source passes only with all three parts of the override, whose warning and reasons are
    then kept, while an open one needs none. *)
Theorem system_disk_denied_exact device mounts swaps state_paths graph policy :
  let e := evaluate_system_disk_denial device
             (protected_uses_from_mounts mounts state_paths ++ protected_uses_from_swaps swaps) graph in
  let below number := valid_major_minor number = true /\
    exists s, s ∈ source_major_minors device /\ stands_on graph number s in
  (ev_denied_by_default e = true <->
   (exists m p, m ∈ mounts /\ normalize_mount_path (mf_mount_point m) = Some p /\ needed_path state_paths p /\
      below (mf_major_minor m)) \/
   (exists n, n ∈ swaps /\ below n)) /\
  (ev_denied_by_default e = false -> require_system_disk_override e policy = Ok (Evidence false VNone [] [])) /\
  (ev_denied_by_default e = true ->
   forall evidence, require_system_disk_override e policy = Ok evidence <->
     get_value policy "allow_system_disk" = VBool true /\
     get_value policy "persistent_warning" = VStr SYSTEM_DISK_OVERRIDE_WARNING /\
     get_value policy "operator_acknowledged" = VBool true /\
     evidence = Evidence true (ev_source_id e) [SYSTEM_DISK_OVERRIDE_WARNING] (ev_denial_reasons e)).
Proof.
  intros e below. split; [|split].
  - subst e. rewrite denied_exact. split.
    + intros (u & s & [Hu|Hu]%elem_of_app & Hv & Hs & Hst).
      * apply list_elem_of_omap in Hu as (m & Hm & Hu). unfold mount_use in Hu.
        destruct (normalize_mount_path (mf_mount_point m)) as [p|] eqn:Ep; [|done]. cbn [mbind option_bind] in Hu.
        destruct (valid_major_minor (mf_major_minor m)) eqn:Evm; [|done]. cbn [negb] in Hu.
        destruct (mount_reason _ _) as [r|] eqn:Er; [|done]. injection Hu as <-. left. exists m, p.
        split_and!; [done..| |split; [done|eauto]]. apply mount_reason_exact. eauto.
      * apply list_elem_of_omap in Hu as (n & Hn & Hu). destruct (valid_major_minor n) eqn:En; [|done]. injection Hu as <-.
        right. exists n. split; [done|]. split; [done|eauto].
    + intros [(m & p & Hm & Hp & [r Hr]%mount_reason_exact & Hv & s & Hs & Hst)|(n & Hn & Hv & s & Hs & Hst)].
      * exists (ProtectedUse (mf_major_minor m) r (Some p)), s. split_and!; [|done..].
        apply elem_of_app. left. apply list_elem_of_omap. exists m. split; [done|]. unfold mount_use.
        rewrite Hp. cbn [mbind option_bind]. by rewrite Hv, Hr.
      * exists (ProtectedUse n "active_swap" None), s. split_and!; [|done..].
        apply elem_of_app. right. apply list_elem_of_omap. exists n. by rewrite Hv.
  - intros Hd. unfold require_system_disk_override. by rewrite Hd.
  - intros Hd evidence. unfold require_system_disk_override, is_true. rewrite Hd. cbn [negb].
    destruct (get_value policy "allow_system_disk") as [|[]| | | | |]; cbn [negb raise_if mbind result_bind]; try naive_solver.
    destruct (is_text (get_value policy "persistent_warning") SYSTEM_DISK_OVERRIDE_WARNING) eqn:Ew;
      cbn [negb raise_if mbind result_bind].
    + apply is_text_true in Ew as ->.
      destruct (get_value policy "operator_acknowledged") as [|[]| | | | |]; cbn [negb raise_if mbind result_bind]; naive_solver.
    + split; [done|]. intros (_ & Hw & _). by rewrite (proj2 (is_text_true _ _) Hw) in Ew.
Qed.

Lemma system_disk_denied_exact_witness :
  let e := evaluate_system_disk_denial [("major_minor", VStr "8:0")]
             (protected_uses_from_mounts [MountFact "253:0" "/boot/" NoOptions None "ext4"] []) [("253:0", ["8:1"]); ("8:1", ["8:0"])] in
  ev_denied_by_default e = true /\ is_ok (require_system_disk_override e []) = false.
Proof.
  intros e. assert (ev_denied_by_default e = true) as Hd by by vm_compute. split; [exact Hd|].
  destruct (system_disk_denied_exact [("major_minor", VStr "8:0")] [MountFact "253:0" "/boot/" NoOptions None "ext4"] [] []
              [("253:0", ["8:1"]); ("8:1", ["8:0"])] []) as (_ & _ & H).
  specialize (H Hd). destruct (require_system_disk_override e []) as [ev|] eqn:E; [|reflexivity].
  apply H in E as (Hw & _). discriminate Hw.
Defined.
