(* ===== verification/SafetyAudit.v ===== *)
(** * The host's safety audit log (src/hostd/safety_audit.py)

    Every safety decision of the host daemon is appended to a file of JSON lines in which each
    record carries a sequence number and the hash of the record before it.  The model keeps the
    audit directory as a map from names to files; a write may stop after any number of bytes.  The
    theorems: what was appended and rotated verifies as one chain; two logs with the same last
    hash hold the same records unless SHA-256 collides; an append that fails leaves the log as it
    was, extended, or visibly torn; and redaction leaves no secret in the values, while it keeps the keys.

    Payloads hold no floating-point numbers.  Texts that only name the offending value are shortened
    in the messages. *)

From Stdlib Require Import ZArith Lia String Ascii.
From stdpp Require Import base list strings gmap sorting.
From S2P Require Import Prelude PyStr Json Identifiers Sha256 Messages JsonLines.

Local Open Scope string_scope.
Local Open Scope Z_scope.

(** ** Constants and errors *)

(** hostd/safety_audit.py:17-17 AUDIT_SCHEMA_VERSION *)
Definition AUDIT_SCHEMA_VERSION : Z := 1.
(** hostd/safety_audit.py:18-18 GENESIS_HASH *)
Definition GENESIS_HASH : string := of_chars (replicate 64 "0"%char).
(** hostd/safety_audit.py:19-19 REDACTED *)
Definition REDACTED : string := "[REDACTED]".
(** hostd/safety_audit.py:20-20 DEVICE_PATH_REDACTED *)
Definition DEVICE_PATH_REDACTED : string := "[DEVICE_PATH_REDACTED]".
(** hostd/safety_audit.py:21-21 MAX_AUDIT_RECORD_BYTES *)
Definition MAX_AUDIT_RECORD_BYTES : Z := 64 * 1024.
(** hostd/safety_audit.py:22-22 MAX_AUDIT_FILE_BYTES *)
Definition MAX_AUDIT_FILE_BYTES : Z := 64 * 1024 * 1024.
(** hostd/safety_audit.py:23-33 AUDIT_EVENTS *)
Definition AUDIT_EVENTS : list string :=
  ["device_resolution"; "system_disk_decision"; "mount_holder_check"; "destination_separation";
   "read_only_verification"; "scanner_sandbox_profile"; "audit_rotation_continuation"].
(** hostd/safety_audit.py:34-44 RECORD_KEYS *)
Definition RECORD_KEYS : list string :=
  ["schema_version"; "sequence"; "timestamp_utc"; "event"; "payload"; "previous_hash"; "record_hash"].
(** hostd/safety_audit.py:45-59 SENSITIVE_KEY_PARTS *)
Definition SENSITIVE_KEY_PARTS : list string :=
  ["credential"; "password"; "secret"; "token"; "sample_bytes"; "private_key"; "seed"; "authorization";
   "cookie"; "api_key"; "mnemonic"; "keystore"; "wallet"].

(** hostd/safety_audit.py:62-63 AuditVerificationError, AuditWriteError: the errors of the module, and those of the
    interpreter and the system that pass through it. *)
Inductive audit_error :=
  | AuditVerificationError (message : string)
  | AuditWriteError (message : string)
  | AuditTypeError
  | AuditOSError.

#[global] Instance audit_error_eq_dec : EqDecision audit_error.
Proof. solve_decision. Defined.

Abbreviation outcome := (result audit_error).
Abbreviation audit_record := (list (string * value)).

(** ** Redaction *)

(** hostd/safety_audit.py:251-253 _is_sensitive_key *)
Definition is_sensitive_key (key : string) : bool :=
  existsb (fun part => str_contains part (lower key)) SENSITIVE_KEY_PARTS.

(** Text without its NUL characters. *)
Definition drop_nul (s : string) : string := of_chars (filter_b (fun c => negb (ord c =? 0)) (chars s)).

(** hostd/safety_audit.py:246-248 _safe_string *)
Definition safe_string (s : string) : string :=
  let cleaned := str_take 512 (drop_nul s) in
  if starts_with "/dev/" cleaned then DEVICE_PATH_REDACTED else cleaned.

(** hostd/safety_audit.py:206-227 redact: on the values of the model, which have no floats and no
    objects outside JSON but bytes. *)
Fixpoint redact (v : value) : value :=
  match v with
  | VDict d => VDict (map (fun '(k, x) => (k, if is_sensitive_key k then VStr REDACTED else redact x)) d)
  | VBytes _ => VStr REDACTED
  | VList l => VList (map redact l)
  | VStr s => VStr (safe_string s)
  | VInt _ | VBool _ | VNone => v
  end.

(** hostd/safety_audit.py:241-243 _safe_event *)
Definition safe_event (event : string) : string :=
  let cleaned := join "_" (split_ws (drop_nul event)) in
  if String.eqb cleaned "" then "unknown_event" else str_take 128 cleaned.

(** ** Records *)

(** hostd/safety_audit.py:230-234 _record_hash *)
Definition record_hash (record : audit_record) : outcome string :=
  match dumps (VDict (dict_remove record "record_hash")) with
  | Some text => Ok (sha256_hex (utf8 text))
  | None => Err AuditTypeError
  end.

(** hostd/safety_audit.py:274-275 _encoded_record *)
Definition encoded_record (record : audit_record) : outcome bytes :=
  match dumps (VDict record) with Some text => Ok (utf8 text ++ [10])%list | None => Err AuditTypeError end.

(** hostd/safety_audit.py:256-271 _new_record: [clock] is the time as text. *)
Definition new_record (clock event : string) (payload : value) (sequence : Z) (previous_hash : string)
    : outcome audit_record :=
  let record := [("schema_version", VInt AUDIT_SCHEMA_VERSION); ("sequence", VInt sequence);
                 ("timestamp_utc", VStr clock); ("event", VStr event); ("payload", redact payload);
                 ("previous_hash", VStr previous_hash)] in
  hash ← record_hash record;
  let record := (record ++ [("record_hash", VStr hash)])%list in
  encoded ← encoded_record record;
  _ ← raise_if (MAX_AUDIT_RECORD_BYTES <? zlen encoded) (AuditWriteError "audit record exceeds the supported bound");
  Ok record.

(** ** Verification *)

(** The state a verification returns. *)
Record chain_state := { cs_next_sequence : Z; cs_last_hash : string; cs_records : list audit_record }.

(** hostd/safety_audit.py:237-238 _empty_state *)
Definition empty_state : chain_state :=
  {| cs_next_sequence := 1; cs_last_hash := GENESIS_HASH; cs_records := [] |}.

Definition line_error (n : Z) (what : string) : audit_error :=
  AuditVerificationError ("line " +:+ str_of_Z n +:+ ": " +:+ what).

(** [line.strip()] is empty. *)
Definition blank_line (line : list ascii) : bool := forallb is_space line.

(** hostd/safety_audit.py:334-341 _parse_record *)
Definition parse_record (line : list ascii) (n : Z) : outcome audit_record :=
  match loads_chars line with
  | None => Err (line_error n "invalid JSON")
  | Some (VDict record) => Ok record
  | Some _ => Err (line_error n "record is not an object")
  end.

(** [event in AUDIT_EVENTS], where the event has to be hashable. *)
Definition event_listed (v : value) : outcome bool :=
  match member_of v AUDIT_EVENTS with Some b => Ok b | None => Err AuditTypeError end.

(** hostd/safety_audit.py:179-198 _verify_lines: the checks on one line. *)
Definition verify_line (n : Z) (line : list ascii) (expected_sequence : Z) (last_hash : string)
    : outcome (audit_record * string) :=
  _ ← raise_if (blank_line line) (line_error n "blank/truncated record");
  record ← parse_record line n;
  _ ← raise_if (negb (same_keys record RECORD_KEYS)) (line_error n "record keys mismatch");
  _ ← raise_if (negb (is_int (get_or_none record "schema_version") AUDIT_SCHEMA_VERSION))
        (line_error n "incompatible schema version");
  listed ← event_listed (get_or_none record "event");
  _ ← raise_if (negb listed) (line_error n "event is not allowlisted");
  _ ← raise_if (negb (match get_or_none record "timestamp_utc" with VStr _ => true | _ => false end))
        (line_error n "timestamp is invalid");
  _ ← raise_if (negb (match get_or_none record "payload" with VDict _ => true | _ => false end))
        (line_error n "payload is invalid");
  _ ← raise_if (negb (is_int (get_or_none record "sequence") expected_sequence))
        (line_error n "sequence gap or reorder");
  _ ← raise_if (negb (is_text (get_or_none record "previous_hash") last_hash))
        (line_error n "previous hash mismatch");
  match get_or_none record "record_hash" with
  | VStr observed =>
    hash ← record_hash record;
    _ ← raise_if (negb (String.eqb observed hash)) (line_error n "record hash mismatch");
    Ok (record, observed)
  | _ => Err (line_error n "record hash mismatch")
  end.

(** hostd/safety_audit.py:171-203 _verify_lines: the loop. *)
Fixpoint verify_from (n : Z) (raw_lines : list (list ascii)) (st : chain_state) : outcome chain_state :=
  match raw_lines with
  | [] => Ok st
  | line :: rest =>
    '(record, observed) ← verify_line n line (cs_next_sequence st) (cs_last_hash st);
    verify_from (n + 1) rest {| cs_next_sequence := cs_next_sequence st + 1; cs_last_hash := observed;
                                cs_records := (cs_records st ++ [record])%list |}
  end.

Definition verify_lines (raw_lines : list (list ascii)) (sequence : Z) (hash : string) : outcome chain_state :=
  verify_from 1 raw_lines {| cs_next_sequence := sequence; cs_last_hash := hash; cs_records := [] |}.

(** hostd/safety_audit.py:344-350 _decode_lines *)
Definition decode_lines (raw : bytes) : outcome (list (list ascii)) :=
  _ ← raise_if (negb (bool_decide (raw = [])) && negb (bool_decide (last raw = Some 10)))
        (AuditVerificationError "final record is truncated");
  match utf8_decode raw with
  | None => Err (AuditVerificationError "audit log is not valid UTF-8")
  | Some text => Ok (split_lines [] text)
  end.

(** hostd/safety_audit.py:139-151 verify_audit_log: where the chain of a file starts. *)
Definition initial_of (raw_lines : list (list ascii)) : outcome (Z * string) :=
  match raw_lines with
  | [] => Ok (1, GENESIS_HASH)
  | line :: _ =>
    first ← parse_record line 1;
    if is_text (get_or_none first "event") "audit_rotation_continuation" then
      match int_value (get_or_none first "sequence"), get_or_none first "previous_hash" with
      | Some sequence, VStr hash => Ok (sequence, hash)
      | _, _ => Err (AuditVerificationError "line 1: invalid rotation continuation")
      end
    else Ok (1, GENESIS_HASH)
  end.

Definition verify_raw (raw : bytes) : outcome chain_state :=
  raw_lines ← decode_lines raw;
  '(sequence, hash) ← initial_of raw_lines;
  verify_lines raw_lines sequence hash.

(** ** The audit directory *)

(** What a name of the directory stands for: a regular file with its number of links, a symbolic
    link, which is never followed, or a directory. *)
Inductive entry :=
  | File (data : bytes) (links : Z)
  | Symlink
  | Directory.

Abbreviation directory := (gmap string entry).

(** hostd/safety_audit.py:312-331 _read_audit_file: [None] when the file is missing. *)
Definition read_audit_file (d : directory) (name : string) : outcome (option bytes) :=
  match d !! name with
  | None => Ok None
  | Some Symlink => Err AuditOSError
  | Some Directory => Err (AuditVerificationError "audit log is not a private regular file")
  | Some (File data links) =>
    _ ← raise_if (negb (links =? 1)) (AuditVerificationError "audit log is not a private regular file");
    _ ← raise_if (MAX_AUDIT_FILE_BYTES <? zlen data)
          (AuditVerificationError "audit log exceeds the supported segment bound");
    Ok (Some data)
  end.

(** hostd/safety_audit.py:133-151 verify_audit_log *)
Definition verify_audit_log (d : directory) (name : string) : outcome chain_state :=
  raw ← read_audit_file d name;
  match raw with None => Ok empty_state | Some raw => verify_raw raw end.

(** hostd/safety_audit.py:154-168 verify_audit_segments: the loop. *)
Fixpoint segments_from (d : directory) (names : list string) (st : chain_state) : outcome chain_state :=
  match names with
  | [] => Ok st
  | name :: rest =>
    raw ← read_audit_file d name;
    match raw with
    | None => Err (AuditVerificationError ("missing audit segment: " +:+ name))
    | Some raw =>
      raw_lines ← decode_lines raw;
      next ← verify_lines raw_lines (cs_next_sequence st) (cs_last_hash st);
      segments_from d rest {| cs_next_sequence := cs_next_sequence next; cs_last_hash := cs_last_hash next;
                              cs_records := (cs_records st ++ cs_records next)%list |}
    end
  end.

(** hostd/safety_audit.py:154-168 verify_audit_segments *)
Definition verify_audit_segments (d : directory) (names : list string) : outcome chain_state :=
  segments_from d names empty_state.

(** How the system takes a write: it may refuse to open the file, stop after some bytes, or fail
    to reach the disk after all of them. *)
Inductive write_fault := NoFault | OpenFails | WriteStops (n : nat) | SyncFails.

(** hostd/safety_audit.py:278-309 _append_record *)
Definition append_record (d : directory) (name : string) (record : audit_record) (fault : write_fault)
    : directory * outcome unit :=
  match encoded_record record with
  | Err e => (d, Err e)
  | Ok data =>
    let write (old : bytes) :=
      if MAX_AUDIT_FILE_BYTES <? zlen old + zlen data
      then (<[name := File old 1]> d, Err (AuditWriteError "audit log requires rotation before another append"))
      else match fault with
           | WriteStops n => (<[name := File (old ++ take (Nat.min n (length data - 1)) data) 1]> d, Err AuditOSError)
           | SyncFails => (<[name := File (old ++ data) 1]> d, Err AuditOSError)
           | _ => (<[name := File (old ++ data) 1]> d, Ok tt)
           end in
    match fault, d !! name with
    | OpenFails, _ | _, Some Symlink | _, Some Directory =>
      (d, Err (AuditWriteError "audit log could not be opened safely"))
    | _, None => write []
    | _, Some (File old links) =>
      if negb (links =? 1) then (d, Err (AuditWriteError "audit log is not a private regular file")) else write old
    end
  end.

(** hostd/safety_audit.py:73-75 __init__: the name of the lock. *)
Definition lock_name (name : string) : string := "." +:+ name +:+ ".lock".

(** hostd/safety_audit.py:113-130 _exclusive_lock: the lock file stays in the directory. *)
Definition exclusive_lock (d : directory) (name : string) : directory * outcome unit :=
  match d !! lock_name name with
  | None => (<[lock_name name := File [] 1]> d, Ok tt)
  | Some (File _ links) =>
    (d, raise_if (negb (links =? 1)) (AuditWriteError "audit lock is not a private regular file"))
  | Some _ => (d, Err (AuditWriteError "audit lock could not be opened safely"))
  end.

Definition is_symlink (d : directory) (name : string) : bool :=
  match d !! name with Some Symlink => true | _ => false end.

(** hostd/safety_audit.py:77-88 append *)
Definition append (d : directory) (name clock event : string) (payload : value) (fault : write_fault)
    : directory * outcome audit_record :=
  let event := safe_event event in
  if negb (bool_decide (event ∈ AUDIT_EVENTS)) then (d, Err (AuditWriteError "audit event is not allowlisted"))
  else match exclusive_lock d name with
       | (d, Err e) => (d, Err e)
       | (d, Ok _) =>
         match (_ ← raise_if (is_symlink d name) (AuditWriteError "audit log path must not be a symlink");
                st ← verify_audit_log d name;
                new_record clock event payload (cs_next_sequence st) (cs_last_hash st)) with
         | Err e => (d, Err e)
         | Ok record =>
           match append_record d name record fault with
           | (d, Err e) => (d, Err e)
           | (d, Ok _) => (d, Ok record)
           end
         end
       end.

(** How the system takes the renaming of a segment: it may fail before or after the fact. *)
Inductive rename_fault := Renamed | NotRenamed | RenamedUnsynced.

(** hostd/safety_audit.py:90-111 rotate: the file becomes the segment [rotated] and a new file starts
    with a continuation.  Both names are in one directory, unless [elsewhere] says otherwise. *)
Definition rotate (d : directory) (name rotated clock : string) (elsewhere : bool)
    (rename : rename_fault) (fault : write_fault) : directory * outcome audit_record :=
  if elsewhere then (d, Err (AuditWriteError "rotated audit segment must remain in the audit directory"))
  else if String.eqb rotated name then (d, Err (AuditWriteError "rotated audit segment already exists or is invalid"))
  else match exclusive_lock d name with
       | (d, Err e) => (d, Err e)
       | (d, Ok _) =>
         match (_ ← raise_if (match d !! rotated with Some _ => true | None => false end)
                      (AuditWriteError "rotated audit segment already exists or is invalid");
                st ← verify_audit_log d name;
                _ ← raise_if (bool_decide (cs_records st = [])) (AuditWriteError "empty audit log cannot be rotated");
                Ok st) with
         | Err e => (d, Err e)
         | Ok st =>
           match rename, d !! name with
           | NotRenamed, _ | _, None => (d, Err AuditOSError)
           | _, Some file =>
             let d := delete name (<[rotated := file]> d) in
             match rename with
             | RenamedUnsynced => (d, Err AuditOSError)
             | _ =>
               match new_record clock "audit_rotation_continuation" (VDict [("previous_segment", VStr rotated)])
                       (cs_next_sequence st) (cs_last_hash st) with
               | Err e => (d, Err e)
               | Ok record =>
                 match append_record d name record fault with
                 | (d, Err e) => (d, Err e)
                 | (d, Ok _) => (d, Ok record)
                 end
               end
             end
           end
         end
       end.

(** ** Redaction leaves nothing behind *)

Lemma starts_with_iff p s : starts_with p s = true <-> exists t, s = p +:+ t.
Proof.
  revert s. induction p as [|c p IH]; intros s.
  - split; [by exists s|]. intros _. by destruct s.
  - destruct s as [|d s]; [split; [done|by intros [? ?]]|]. rewrite starts_with_cons_eq, andb_true_iff, Ascii.eqb_eq, IH. split.
    + intros [-> [t ->]]. by exists t.
    + intros [t [= -> ->]]. split; [done|by exists t].
Qed.

Lemma str_contains_iff p s : str_contains p s = true <-> exists a b, s = a +:+ p +:+ b.
Proof.
  induction s as [|c s IH]; cbn [str_contains]; rewrite orb_true_iff, starts_with_iff.
  - split; [intros [[t ->]|]; [by exists "", t|done]|]. intros (a & b & E). left. exists b. by destruct a.
  - rewrite IH. split.
    + intros [[t ->]|(a & b & ->)]; [by exists "", t|by exists (String c a), b].
    + intros (a & b & E). destruct a as [|d a]; [left; by exists b|]. right. injection E as -> ->. by exists a, b.
Qed.

(** ** What redaction promises *)

(** A key that names a secret: one of thirteen words occurs in it, in any case. *)
Definition names_secret (key : string) : Prop :=
  exists before word after, lower key = before +:+ word +:+ after /\
    word ∈ ["credential"; "password"; "secret"; "token"; "sample_bytes"; "private_key"; "seed"; "authorization";
            "cookie"; "api_key"; "mnemonic"; "keystore"; "wallet"].

(** Text that may stay: no device path, no NUL, at most 512 characters. *)
Definition harmless_text (s : string) : Prop :=
  (forall rest, s <> "/dev/" +:+ rest) /\ "000"%char ∉ chars s /\ str_len s <= 512.

(** A value with nothing left to redact.  Keys are not constrained: redaction keeps them. *)
Inductive harmless : value -> Prop :=
  | harmless_none : harmless VNone
  | harmless_bool b : harmless (VBool b)
  | harmless_int z : harmless (VInt z)
  | harmless_str s : harmless_text s -> harmless (VStr s)
  | harmless_list l : (forall x, x ∈ l -> harmless x) -> harmless (VList l)
  | harmless_dict d :
      (forall k x, (k, x) ∈ d -> names_secret k -> x = VStr "[REDACTED]") ->
      (forall k x, (k, x) ∈ d -> ~ names_secret k -> harmless x) -> harmless (VDict d).

Lemma is_sensitive_key_iff k : is_sensitive_key k = true <-> names_secret k.
Proof.
  unfold is_sensitive_key, names_secret. rewrite existsb_elem. split.
  - intros (word & Hw & (a & b & E)%str_contains_iff). by exists a, word, b.
  - intros (a & word & b & E & Hw). exists word. split; [exact Hw|]. apply str_contains_iff. by exists a, b.
Qed.

Lemma is_sensitive_key_false k : is_sensitive_key k = false <-> ~ names_secret k.
Proof. by rewrite <- is_sensitive_key_iff, not_true_iff_false. Qed.

Lemma drop_nul_chars s : "000"%char ∉ chars (drop_nul s).
Proof. unfold drop_nul. rewrite chars_of_chars. by intros [_ Hc]%elem_of_filter_b. Qed.

Lemma safe_string_harmless s : harmless_text (safe_string s).
Proof.
  unfold safe_string. destruct (starts_with "/dev/" _) eqn:E.
  { split; [by intros rest|]. split; [apply (bool_decide_unpack _); by vm_compute|done]. }
  split; [|split].
  - intros rest Hr. apply not_true_iff_false in E. apply E. apply starts_with_iff. by exists rest.
  - unfold str_take. rewrite chars_of_chars. intros Hin. apply (drop_nul_chars s).
    rewrite <- (take_drop (Z.to_nat 512) (chars (drop_nul s))), elem_of_app. by left.
  - unfold str_len, str_take. rewrite <- length_chars, chars_of_chars, length_take. lia.
Qed.

Lemma safe_string_same s : harmless_text s -> safe_string s = s.
Proof.
  intros (Hd & Hn & Hl). assert (drop_nul s = s) as Es.
  { unfold drop_nul. rewrite filter_b_all; [apply of_chars_chars|]. intros c Hc. apply negb_true_iff, Z.eqb_neq. intros E.
    apply Hn. assert (c = "000"%char) as <-; [|done]. by apply (ord_inj c "000"%char). }
  unfold safe_string. rewrite Es. assert (str_take 512 s = s) as ->.
  { unfold str_take. rewrite take_ge; [apply of_chars_chars|]. rewrite length_chars. unfold str_len in Hl. lia. }
  destruct (starts_with "/dev/" s) eqn:E; [|done]. apply starts_with_iff in E as [t ->]. by destruct (Hd t).
Qed.

Lemma redact_dict d : exists e, redact (VDict d) = VDict e /\ e.*1 = d.*1 /\
  forall k x, (k, x) ∈ d -> (names_secret k /\ (k, VStr "[REDACTED]") ∈ e) \/ (~ names_secret k /\ (k, redact x) ∈ e).
Proof.
  eexists. split; [reflexivity|]. split.
  - induction d as [|[k x] d IH]; csimpl; [done|]. by rewrite IH.
  - intros k x Hx. assert (Hin : (k, if is_sensitive_key k then VStr REDACTED else redact x) ∈
      map (fun '(k, x) => (k, if is_sensitive_key k then VStr REDACTED else redact x)) d).
    { apply list_elem_of_fmap. by exists (k, x). }
    destruct (is_sensitive_key k) eqn:E; [left; split; [by apply is_sensitive_key_iff|done]|].
    right. split; [by apply is_sensitive_key_false|done].
Qed.

Lemma redact_harmless v : harmless (redact v).
Proof.
  induction v as [|b|z|s|b|l IH|d IH] using value_ind'; try constructor.
  - apply safe_string_harmless.
  - exact (safe_string_harmless REDACTED).
  - rewrite Forall_forall in IH. intros x (y & -> & Hy)%list_elem_of_fmap. by apply IH.
  - intros k x ([k' y] & [= -> ->] & Hy)%list_elem_of_fmap Hk. by apply is_sensitive_key_iff in Hk as ->.
  - rewrite Forall_forall in IH. intros k x ([k' y] & [= -> ->] & Hy)%list_elem_of_fmap Hk.
    apply is_sensitive_key_false in Hk as ->. by apply (IH (k', y)).
Qed.

Lemma harmless_same v : harmless v -> redact v = v.
Proof.
  induction v as [|b|z|s|b|l IH|d IH] using value_ind'; intros Hv; inversion Hv as [| | |s' Hs|l' Hl|d' Hsec Hd]; subst; try done; cbn [redact]; f_equal.
  - by apply safe_string_same.
  - rewrite Forall_forall in IH. transitivity (id <$> l); [|apply list_fmap_id]. apply list_fmap_ext. intros i x Hx%list_elem_of_lookup_2.
    apply IH; auto.
  - rewrite Forall_forall in IH. transitivity (id <$> d); [|apply list_fmap_id]. apply list_fmap_ext. intros i [k x] Hx%list_elem_of_lookup_2.
    unfold id. f_equal. destruct (is_sensitive_key k) eqn:E.
    + symmetry. apply (Hsec k); [done|by apply is_sensitive_key_iff].
    + apply (IH (k, x)); [done|]. apply (Hd k); [done|by apply is_sensitive_key_false].
Qed.

(** C20. What redaction leaves in the values, and what it keeps.  In a redacted value, at any depth, the
    value under a key that names a secret is the placeholder, there are no bytes, and no text is a
    device path, holds a NUL or is longer than 512 characters.  A value is left as it is exactly
    when all of this holds already, so redacting twice is redacting once; and a dictionary keeps
    its keys, in order, with the redaction of the value under every key that names no secret.
    Keys themselves are not redacted. *)
Theorem redact_exact v :
  harmless (redact v) /\ (harmless v <-> redact v = v) /\
  forall d, v = VDict d -> exists e, redact v = VDict e /\ e.*1 = d.*1 /\
    forall k x, (k, x) ∈ d -> (names_secret k /\ (k, VStr "[REDACTED]") ∈ e) \/ (~ names_secret k /\ (k, redact x) ∈ e).
Proof.
  split; [apply redact_harmless|]. split; [|intros d ->; apply redact_dict].
  split; [apply harmless_same|]. intros <-. apply redact_harmless.
Qed.

(** A device path that is the key of a dictionary stays. *)
Example key_with_a_device_path_stays : redact (VDict [("/dev/sda", VInt 1)]) = VDict [("/dev/sda", VInt 1)].
Proof. by vm_compute. Qed.

(** ** A record that was written is the record that is read *)

Definition canon_map (d : audit_record) : audit_record := sort_keys (prod_map id canon <$> d).

Lemma wf_redact v : wf_value v -> wf_value (redact v).
Proof.
  induction v as [|b|z|s|b|l IH|d IH] using value_ind'; try done.
  - rewrite wf_list_Forall. intros Hl. apply (wf_list_Forall (map redact l)). apply Forall_fmap.
    rewrite Forall_forall in *. intros x Hx. apply IH; auto.
  - rewrite wf_dict_Forall. intros [Hn Hd]. apply (wf_dict_Forall (map _ d)). split.
    + enough ((map (fun '(k, x) => (k, if is_sensitive_key k then VStr REDACTED else redact x)) d).*1 = d.*1) as E
        by (rewrite <- E in Hn; exact Hn).
      clear. induction d as [|[k x] d IH]; csimpl; [done|]. by rewrite IH.
    + apply Forall_fmap. rewrite Forall_forall in *. intros [k x] Hx. simpl.
      destruct (is_sensitive_key k); [done|]. by apply (IH (k, x)), (Hd (k, x)).
Qed.

(** The fields of a record before its hash is added. *)
Definition unhashed (clock event : string) (payload : value) (sequence : Z) (hash : string) : audit_record :=
  [("schema_version", VInt AUDIT_SCHEMA_VERSION); ("sequence", VInt sequence);
   ("timestamp_utc", VStr clock); ("event", VStr event); ("payload", redact payload); ("previous_hash", VStr hash)].

Lemma new_record_ok clock event payload sequence previous r :
  new_record clock event payload sequence previous = Ok r ->
  exists hash text, record_hash r = Ok hash /\
    r = (unhashed clock event payload sequence previous ++ [("record_hash", VStr hash)])%list /\
    dumps (VDict r) = Some text /\ encoded_record r = Ok (utf8 text ++ [10])%list.
Proof.
  unfold new_record. fold (unhashed clock event payload sequence previous). intros E.
  apply bind_ok in E as (hash & Hh & E). apply bind_ok in E as (data & Hd & E). apply bind_ok in E as ([] & _ & [= <-]).
  unfold encoded_record in Hd. destruct (dumps _) as [text|] eqn:Et; [|done]. injection Hd as <-.
  exists hash, text. split_and!; [by rewrite <- Hh|done..|].
  unfold encoded_record. cbn [unhashed app] in Et. by rewrite Et.
Qed.

Lemma wf_new_record clock event payload sequence previous hash :
  wf_value payload -> wf_value (VDict (unhashed clock event payload sequence previous ++ [("record_hash", VStr hash)])).
Proof.
  intros Hp. apply wf_dict_Forall. split; [apply (bool_decide_unpack _); by vm_compute|].
  repeat apply Forall_cons_2; try done. by apply wf_redact.
Qed.

Lemma blank_dumps d text : dumps (VDict d) = Some text -> blank_line (chars text) = false.
Proof.
  unfold dumps. destruct (dump (VDict d)) as [c|] eqn:E; [|done]. intros [= <-].
  rewrite chars_of_chars. simpl in E. destruct (sequence _); [|done]. by injection E as <-.
Qed.

(** The line of a new record passes the checks at its place in the chain. *)
Lemma verify_new_line n clock event d sequence previous r :
  event ∈ AUDIT_EVENTS -> wf_value (VDict d) ->
  new_record clock event (VDict d) sequence previous = Ok r ->
  exists text hash, encoded_record r = Ok (utf8 text ++ [10])%list /\ all_printable (chars text) /\
    get_or_none r "record_hash" = VStr hash /\
    verify_line n (chars text) sequence previous = Ok (canon_map r, hash) /\
    parse_record (chars text) n = Ok (canon_map r).
Proof.
  intros He Hd Hr. apply new_record_ok in Hr as (hash & text & Hh & Er & Ht & Henc).
  assert (Hwf : wf_value (VDict r)) by (rewrite Er; by apply wf_new_record).
  pose proof Hwf as [Hn _]%wf_dict_Forall.
  exists text, hash. split; [done|]. split; [by eapply dumps_printable|]. split; [by rewrite Er|].
  assert (Hp : parse_record (chars text) n = Ok (canon_map r)).
  { unfold parse_record. pose proof (loads_dumps _ _ Hwf Ht) as Hl. unfold loads in Hl. by rewrite Hl, canon_dict. }
  split; [|done]. unfold verify_line. rewrite (blank_dumps _ _ Ht), Hp. unfold canon_map.
  cbn [raise_if mbind result_bind]. rewrite same_keys_canon, !get_or_none_canon by done.
  assert (Hh' : record_hash (canon_map r) = Ok hash).
  { unfold record_hash, canon_map. by rewrite dumps_remove_canon. }
  unfold canon_map in Hh'. rewrite Hh'. rewrite Er at 1.
  change (same_keys (unhashed clock event (VDict d) sequence previous ++ [("record_hash", VStr hash)]) RECORD_KEYS) with true.
  cbn [negb raise_if mbind result_bind].
  change (get_or_none r "schema_version") with (get_or_none r "schema_version").
  assert (get_or_none r "schema_version" = VInt 1) as -> by by rewrite Er.
  assert (get_or_none r "event" = VStr event) as -> by by rewrite Er.
  assert (get_or_none r "timestamp_utc" = VStr clock) as -> by by rewrite Er.
  assert (get_or_none r "payload" = redact (VDict d)) as -> by by rewrite Er.
  assert (get_or_none r "sequence" = VInt sequence) as -> by by rewrite Er.
  assert (get_or_none r "previous_hash" = VStr previous) as -> by by rewrite Er.
  assert (get_or_none r "record_hash" = VStr hash) as -> by by rewrite Er.
  unfold event_listed. cbn [canon redact member_of is_int]. rewrite bool_decide_true, !Z.eqb_refl by done.
  cbn [negb raise_if mbind result_bind]. rewrite (proj2 (is_text_true (VStr previous) previous)) by done.
  cbn [negb raise_if mbind result_bind]. by rewrite String.eqb_refl.
Qed.

(** ** Files that grow *)

Lemma utf8_decode_feed a t : utf8_decode (a ++ [10]) = Some t -> exists t', t = (t' ++ [chr 10])%list.
Proof.
  revert t. induction a as [a IH] using (induction_ltof1 _ (@length Z)). unfold ltof in IH. intros t.
  destruct a as [|x a]; cbn [app utf8_decode].
  - cbn. intros [= <-]. by exists [].
  - destruct (x <? 128).
    + destruct (utf8_decode (a ++ [10])) as [u|] eqn:E; [|done]. intros [= <-].
      apply IH in E as [t' ->]; [|simpl; lia]. by exists (chr x :: t').
    + destruct a as [|y a]; cbn [app].
      * change (128 <=? 10) with false. by rewrite andb_false_r.
      * destruct (_ && _); [|done]. destruct (utf8_decode (a ++ [10])) as [u|] eqn:E; [|done]. intros [= <-].
        apply IH in E as [t' ->]; [|simpl; lia]. by exists (chr ((x - 192) * 64 + (y - 128)) :: t').
Qed.

Lemma decode_lines_ok raw lines :
  decode_lines raw = Ok lines <-> (raw = [] /\ lines = []) \/
    exists a t, raw = (a ++ [10])%list /\ utf8_decode raw = Some (t ++ [chr 10])%list /\
      lines = split_lines [] (t ++ [chr 10]).
Proof.
  unfold decode_lines. split.
  - intros E. apply bind_ok in E as ([] & Hl%raise_if_ok & E). destruct (utf8_decode raw) as [t|] eqn:Et; [|done].
    injection E as <-. apply andb_false_iff in Hl as [Hl|Hl]; apply negb_false_iff in Hl; apply bool_decide_eq_true_1 in Hl.
    + subst. injection Et as <-. by left.
    + right. apply last_Some in Hl as [a ->]. pose proof Et as [t' ->]%utf8_decode_feed. by exists a, t'.
  - intros [[-> ->]|(a & t & -> & Ht & ->)]; [done|]. rewrite Ht, last_snoc, andb_comm, bool_decide_true; done.
Qed.

(** A line of printable text at the end of a file is one more line. *)
Lemma decode_lines_append raw lines text :
  decode_lines raw = Ok lines -> all_printable (chars text) ->
  decode_lines (raw ++ utf8 text ++ [10]) = Ok (lines ++ [chars text])%list.
Proof.
  intros Hl Hp. pose proof (split_lines_one [] _ (printable_no_break _ Hp)) as Hone. cbn [reverse app] in Hone.
  assert (Hd : utf8_decode (utf8 text ++ [10]) = Some (chars text ++ [chr 10])%list).
  { unfold utf8. by rewrite utf8_decode_printable. }
  apply decode_lines_ok. right. apply decode_lines_ok in Hl as [[-> ->]|(a & t & -> & Ht & ->)].
  - exists (utf8 text), (chars text). cbn [app]. by rewrite Hone.
  - exists ((a ++ [10]) ++ utf8 text)%list, ((t ++ [chr 10]) ++ chars text)%list. split; [by rewrite !app_assoc|].
    rewrite (utf8_decode_app _ _ _ Ht), Hd. split; [cbn; by rewrite app_assoc|].
    rewrite <- !app_assoc. cbn [app]. by rewrite (split_lines_feed [] t (chars text ++ [chr 10])), Hone.
Qed.

(** Text that was cut before its line feed is seen to be cut. *)
Lemma decode_lines_torn raw lines text n :
  decode_lines raw = Ok lines -> all_printable (chars text) -> (0 < n <= length (utf8 text))%nat ->
  decode_lines (raw ++ take n (utf8 text)) = Err (AuditVerificationError "final record is truncated").
Proof.
  intros _ Hp Hn. unfold decode_lines.
  assert (exists l x, take n (utf8 text) = (l ++ [x])%list /\ x <> 10) as (l & x & -> & Hx).
  { destruct (take n (utf8 text)) as [|y l _] eqn:E using rev_ind.
    { apply (f_equal length) in E. rewrite length_take in E. simpl in E. lia. }
    exists l, y. split; [done|]. intros ->. assert (10 ∈ utf8 text) as Hin.
    { rewrite <- (take_drop n (utf8 text)), E, !elem_of_app. left. right. left. }
    clear -Hin Hp. unfold utf8 in Hin. induction Hp as [|c k Hc _ IH]; csimpl in *; [by apply elem_of_nil in Hin|].
    apply elem_of_app in Hin as [Hin|Hin]; [|auto]. unfold printable in Hc. apply andb_true_iff in Hc as [H1%Z.leb_le H2%Z.leb_le].
    unfold utf8_char in Hin. replace (ord c <? 128) with true in Hin by lia. apply list_elem_of_singleton in Hin. lia. }
  rewrite app_assoc, last_snoc. rewrite (bool_decide_false (_ = [])) by (by intros [_ ?]%app_nil).
  rewrite bool_decide_false by congruence. done.
Qed.

Lemma verify_from_app n a b st :
  verify_from n (a ++ b) st = (st' ← verify_from n a st; verify_from (n + zlen a) b st').
Proof.
  revert n st. induction a as [|x a IH]; intros n st; cbn [app verify_from].
  - cbn [mbind result_bind]. unfold zlen. simpl. by rewrite Z.add_0_r.
  - destruct (verify_line _ _ _ _) as [[r h]|]; [|done]. cbn [mbind result_bind]. rewrite IH.
    replace (n + zlen (x :: a)) with (n + 1 + zlen a) by (unfold zlen; simpl; lia). done.
Qed.

(** The chain after one more record. *)
Definition extend (st : chain_state) (r : audit_record) (hash : string) : chain_state :=
  {| cs_next_sequence := cs_next_sequence st + 1; cs_last_hash := hash; cs_records := (cs_records st ++ [canon_map r])%list |}.

Definition hash_of (r : audit_record) : string :=
  match get_or_none r "record_hash" with VStr h => h | _ => "" end.

(** Where a chain starts does not change when a record is added to it. *)
Lemma initial_of_append lines sequence hash line r :
  initial_of lines = Ok (sequence, hash) -> parse_record line 1 = Ok r ->
  (lines = [] -> is_text (get_or_none r "event") "audit_rotation_continuation" = true ->
     get_or_none r "sequence" = VInt sequence /\ get_or_none r "previous_hash" = VStr hash) ->
  initial_of (lines ++ [line]) = Ok (sequence, hash).
Proof.
  destruct lines as [|l lines]; [|done]. cbn [app initial_of]. intros [= <- <-] -> Hr. cbn [mbind result_bind].
  destruct (is_text _ _) eqn:E; [|done]. destruct (Hr eq_refl eq_refl) as [-> ->]. done.
Qed.

(** One record more on the contents of a file, in the chain it is part of. *)
Lemma chain_append raw lines sequence hash st clock event d r :
  decode_lines raw = Ok lines -> initial_of lines = Ok (sequence, hash) -> verify_lines lines sequence hash = Ok st ->
  event ∈ AUDIT_EVENTS -> wf_value (VDict d) ->
  new_record clock event (VDict d) (cs_next_sequence st) (cs_last_hash st) = Ok r ->
  exists text lines',
    encoded_record r = Ok (utf8 text ++ [10])%list /\ all_printable (chars text) /\
    decode_lines (raw ++ utf8 text ++ [10]) = Ok lines' /\ initial_of lines' = Ok (sequence, hash) /\
    verify_lines lines' sequence hash = Ok (extend st r (hash_of r)).
Proof.
  intros Hl Hi Hv He Hd Hr.
  destruct (verify_new_line (1 + zlen lines) _ _ _ _ _ _ He Hd Hr) as (text & h & Henc & Hp & Hh & Hline & _).
  destruct (verify_new_line 1 _ _ _ _ _ _ He Hd Hr) as (text' & h' & Henc' & _ & _ & _ & Hparse).
  assert (text' = text) as -> by (rewrite Henc in Henc'; injection Henc' as E; by apply app_inv_tail, utf8_inj in E).
  exists text, (lines ++ [chars text])%list. split; [done|]. split; [done|].
  split; [by apply decode_lines_append|]. split.
  - eapply initial_of_append; [done..|]. intros -> _.
    apply new_record_ok in Hr as (h2 & t2 & _ & Er & _). injection Hi as <- <-. injection Hv as <-.
    assert (Hn : NoDup r.*1) by (rewrite Er; apply (bool_decide_unpack _); by vm_compute).
    unfold canon_map. rewrite !get_or_none_canon by done. by rewrite Er.
  - unfold verify_lines. rewrite verify_from_app. unfold verify_lines in Hv. rewrite Hv.
    cbn [mbind result_bind verify_from]. rewrite Hline. cbn [mbind result_bind]. unfold extend, hash_of. by rewrite Hh.
Qed.

(** ** The log file *)

(** What the log holds; a missing log holds nothing. *)
Definition contents (d : directory) (name : string) (raw : bytes) : Prop :=
  (d !! name = None /\ raw = []) \/ d !! name = Some (File raw 1).

(** Equal but for the lock of a log. *)
Definition same_but_lock (name : string) (d d' : directory) : Prop :=
  forall n, n <> lock_name name -> d' !! n = d !! n.

Lemma lock_name_ne name : name <> lock_name name.
Proof.
  intros E. apply (f_equal (fun s => length (chars s))) in E. unfold lock_name in E.
  rewrite !chars_app, !length_app in E. simpl in E. lia.
Qed.

Lemma exclusive_lock_same d name d' u : exclusive_lock d name = (d', u) -> same_but_lock name d d'.
Proof.
  unfold exclusive_lock. intros E n Hn. destruct (d !! lock_name name) as [[]|]; injection E as <- _; try done.
  by rewrite lookup_insert_ne.
Qed.

Lemma contents_same name d d' raw : same_but_lock name d d' -> contents d name raw -> contents d' name raw.
Proof. intros Hs. unfold contents. by rewrite (Hs name (lock_name_ne name)). Qed.

Lemma verify_log_ok d name st :
  verify_audit_log d name = Ok st <->
  exists raw lines sequence hash, contents d name raw /\ zlen raw <= MAX_AUDIT_FILE_BYTES /\
    decode_lines raw = Ok lines /\ initial_of lines = Ok (sequence, hash) /\ verify_lines lines sequence hash = Ok st.
Proof.
  unfold verify_audit_log, contents. split.
  - intros E. apply bind_ok in E as (raw & Hr & E). unfold read_audit_file in Hr.
    destruct (d !! name) as [[data links| |]|] eqn:Hd; try done.
    + apply bind_ok in Hr as ([] & H1%raise_if_ok & Hr). apply bind_ok in Hr as ([] & H2%raise_if_ok & [= <-]).
      apply negb_false_iff, Z.eqb_eq in H1 as ->. apply Z.ltb_ge in H2. unfold verify_raw in E.
      apply bind_ok in E as (lines & Hl & E). apply bind_ok in E as ([s h] & Hi & E). exists data, lines, s, h. auto.
    + injection Hr as <-. injection E as <-. exists [], [], 1, GENESIS_HASH. split_and!; [auto|done..].
  - intros (raw & lines & s & h & [[Hd ->]|Hd] & Hm & Hl & Hi & Hv); unfold read_audit_file; rewrite Hd.
    + cbn. injection Hl as <-. injection Hi as <- <-. injection Hv as <-. done.
    + rewrite Z.eqb_refl, (proj2 (Z.ltb_ge _ _)) by done. cbn [negb raise_if mbind result_bind].
      unfold verify_raw. rewrite Hl. cbn [mbind result_bind]. by rewrite Hi.
Qed.

Lemma verify_log_same name d d' : same_but_lock name d d' -> verify_audit_log d' name = verify_audit_log d name.
Proof. intros Hs. unfold verify_audit_log, read_audit_file. by rewrite (Hs name (lock_name_ne name)). Qed.

(** The bytes an append with a fault leaves. *)
Definition faulty_append (fault : write_fault) (old data new : bytes) : Prop :=
  match fault with
  | NoFault | SyncFails => new = (old ++ data)%list
  | WriteStops n => new = (old ++ take (Nat.min n (length data - 1)) data)%list
  | OpenFails => False
  end.

Lemma append_record_cases d name r fault d' u old data :
  contents d name old -> encoded_record r = Ok data -> append_record d name r fault = (d', u) ->
  (d' = d /\ is_ok u = false) \/ (old = [] /\ d' = <[name := File [] 1]> d /\ is_ok u = false) \/
  exists new, faulty_append fault old data new /\ d' = <[name := File new 1]> d /\
    zlen old + zlen data <= MAX_AUDIT_FILE_BYTES /\ (is_ok u = true <-> fault = NoFault).
Proof.
  intros Hc He. unfold append_record. rewrite He.
  assert (Hw : forall x, 
    (if MAX_AUDIT_FILE_BYTES <? zlen old + zlen data
     then (<[name := File old 1]> d, Err (AuditWriteError "audit log requires rotation before another append"))
     else match fault with
          | WriteStops n => (<[name := File (old ++ take (Nat.min n (length data - 1)) data) 1]> d, Err AuditOSError)
          | SyncFails => (<[name := File (old ++ data) 1]> d, Err AuditOSError)
          | _ => (<[name := File (old ++ data) 1]> d, Ok tt)
          end) = x -> fault <> OpenFails -> x = (d', u) ->
    (d' = d /\ is_ok u = false) \/ (old = [] /\ d' = <[name := File [] 1]> d /\ is_ok u = false) \/
    exists new, faulty_append fault old data new /\ d' = <[name := File new 1]> d /\
      zlen old + zlen data <= MAX_AUDIT_FILE_BYTES /\ (is_ok u = true <-> fault = NoFault)).
  { intros x <- Hf. destruct (Z.ltb_spec MAX_AUDIT_FILE_BYTES (zlen old + zlen data)) as [Hm|Hm].
    - intros [= <- <-]. destruct Hc as [[Hd ->]|Hd]; [by right; left|]. left. split; [|done]. by apply insert_id.
    - destruct fault; try done; intros [= <- <-]; right; right; eexists;
        (split; [reflexivity|split; [reflexivity|split; [done|split; done]]]). }
  destruct Hc as [[Hd ->]|Hd]; rewrite Hd.
  - destruct fault; [eapply Hw; done| |eapply Hw; done|eapply Hw; done]. intros [= <- <-]. by left.
  - rewrite Z.eqb_refl. destruct fault; [eapply Hw; done| |eapply Hw; done|eapply Hw; done]. intros [= <- <-]. by left.
Qed.

Lemma symlink_contents d name raw : contents d name raw -> is_symlink d name = false.
Proof. unfold contents, is_symlink. by intros [[-> _]| ->]. Qed.

(** What an append does before it writes. *)
Lemma append_steps d name clock event p fault d' u :
  wf_value (VDict p) -> append d name clock event (VDict p) fault = (d', u) ->
  (same_but_lock name d d' /\ is_ok u = false) \/
  exists d1 st raw lines sequence hash r text lines' v,
    same_but_lock name d d1 /\ verify_audit_log d name = Ok st /\ contents d name raw /\
    decode_lines raw = Ok lines /\ initial_of lines = Ok (sequence, hash) /\ verify_lines lines sequence hash = Ok st /\
    safe_event event ∈ AUDIT_EVENTS /\
    new_record clock (safe_event event) (VDict p) (cs_next_sequence st) (cs_last_hash st) = Ok r /\
    encoded_record r = Ok (utf8 text ++ [10])%list /\ all_printable (chars text) /\
    decode_lines (raw ++ utf8 text ++ [10]) = Ok lines' /\ initial_of lines' = Ok (sequence, hash) /\
    verify_lines lines' sequence hash = Ok (extend st r (hash_of r)) /\
    append_record d1 name r fault = (d', v) /\ u = (_ ← v; Ok r).
Proof.
  intros Hp. unfold append. destruct (bool_decide_reflect (safe_event event ∈ AUDIT_EVENTS)) as [He|]; cbn [negb];
    [|intros [= <- <-]; by left].
  destruct (exclusive_lock d name) as [d1 [[]|e]] eqn:El; pose proof (exclusive_lock_same _ _ _ _ El) as Hs;
    [|intros [= <- <-]; by left].
  destruct (raise_if _ _ ≫= _) as [r|e] eqn:Er; [|intros [= <- <-]; by left].
  apply bind_ok in Er as ([] & _ & Er). apply bind_ok in Er as (st & Hst & Er).
  rewrite (verify_log_same _ _ _ Hs) in Hst. intros Ha. right.
  pose proof Hst as Hst'. apply verify_log_ok in Hst' as (raw & lines & s & h & Hc & _ & Hl & Hi & Hv).
  destruct (chain_append _ _ _ _ _ _ _ _ _ Hl Hi Hv He Hp Er) as (text & lines' & Henc & Hpr & Hl' & Hi' & Hv').
  destruct (append_record d1 name r fault) as [d2 v] eqn:Ea.
  assert (d2 = d' /\ u = (_ ← v; Ok r)) as [-> Hu] by (destruct v; injection Ha as <- <-; done).
  exists d1, st, raw, lines, s, h, r, text, lines', v. split_and!; done.
Qed.

(** A successful append extends the verified log by its record. *)
Lemma append_ok d name clock event p fault d' r :
  wf_value (VDict p) -> append d name clock event (VDict p) fault = (d', Ok r) ->
  exists st raw raw' lines lines' sequence hash,
    verify_audit_log d name = Ok st /\ contents d name raw /\
    decode_lines raw = Ok lines /\ initial_of lines = Ok (sequence, hash) /\ verify_lines lines sequence hash = Ok st /\
    decode_lines raw' = Ok lines' /\ initial_of lines' = Ok (sequence, hash) /\
    verify_lines lines' sequence hash = Ok (extend st r (hash_of r)) /\
    zlen raw' <= MAX_AUDIT_FILE_BYTES /\ d' !! name = Some (File raw' 1) /\
    (forall n, n <> name -> n <> lock_name name -> d' !! n = d !! n).
Proof.
  intros Hp [[_ ?]|(d1 & st & raw & lines & s & h & r' & text & lines' & v & Hs & Hst & Hc & Hl & Hi & Hv & _ & _ & Henc & _ &
    Hl' & Hi' & Hv' & Ha & Hu)]%append_steps; [done| |done].
  destruct v as [[]|]; [|done]. injection Hu as <-.
  destruct (append_record_cases _ _ _ _ _ _ raw _ (contents_same _ _ _ _ Hs Hc) Henc Ha)
    as [[_ ?]|[(_ & _ & ?)|(new & Hn & -> & Hm & Hf)]]; [done..|].
  rewrite (proj1 Hf eq_refl) in Hn. cbn [faulty_append] in Hn. subst new.
  exists st, raw, (raw ++ utf8 text ++ [10])%list, lines, lines', s, h. split_and!; try done.
  - unfold zlen in *. rewrite length_app. lia.
  - by rewrite lookup_insert_eq.
  - intros n Hn Hn'. by rewrite lookup_insert_ne, Hs.
Qed.

Lemma append_torn d name clock event p fault e :
  verify_audit_log d name = Err e ->
  is_ok (append d name clock event p fault).2 = false /\ (append d name clock event p fault).1 !! name = d !! name.
Proof.
  intros Hv. unfold append. destruct (negb _); [done|].
  destruct (exclusive_lock d name) as [d1 u] eqn:El. pose proof (exclusive_lock_same _ _ _ _ El) as Hs.
  pose proof (Hs name (lock_name_ne name)) as Hn. destruct u as [[]|]; [|done].
  rewrite (verify_log_same _ _ _ Hs), Hv. by destruct (raise_if _ _) as [[]|].
Qed.

(** C19. An append that fails does no silent harm.  The log still verifies to the same state; or
    the record is whole on the disk, where only the final synchronisation failed, and the log
    verifies with it; or the record was cut, and then the log is reported as truncated, no later
    append succeeds and none changes the file. *)
Theorem failed_append_contained d name clock event p fault d' e st :
  wf_value (VDict p) -> verify_audit_log d name = Ok st ->
  append d name clock event (VDict p) fault = (d', Err e) ->
  verify_audit_log d' name = Ok st \/
  (fault = SyncFails /\ exists r,
     new_record clock (safe_event event) (VDict p) (cs_next_sequence st) (cs_last_hash st) = Ok r /\
     verify_audit_log d' name = Ok (extend st r (hash_of r))) \/
  (verify_audit_log d' name = Err (AuditVerificationError "final record is truncated") /\
   forall clock' event' p' fault',
     is_ok (append d' name clock' event' p' fault').2 = false /\
     (append d' name clock' event' p' fault').1 !! name = d' !! name).
Proof.
  intros Hp Hst [[Hs _]|(d1 & st' & raw & lines & s & h & r & text & lines' & v & Hs & Hst' & Hc & Hl & Hi & Hv & _ & Hr &
    Henc & Hpr & Hl' & Hi' & Hv' & Ha & Hu)]%append_steps; [left; by rewrite (verify_log_same _ _ _ Hs)| |done].
  rewrite Hst in Hst'. injection Hst' as <-.
  assert (Hmax : zlen raw <= MAX_AUDIT_FILE_BYTES).
  { apply verify_log_ok in Hst as (raw2 & ? & ? & ? & Hc2 & Hm & _).
    destruct Hc as [[Hd ->]|Hd], Hc2 as [[Hd2 ->]|Hd2]; [done|congruence|congruence|].
    assert (raw2 = raw) as -> by congruence. done. }
  assert (Hsame : forall d2, contents d2 name raw -> verify_audit_log d2 name = Ok st).
  { intros d2 Hc2. apply verify_log_ok. exists raw, lines, s, h. done. }
  destruct (append_record_cases _ _ _ _ _ _ raw _ (contents_same _ _ _ _ Hs Hc) Henc Ha)
    as [[-> _]|[(-> & -> & _)|(new & Hn & -> & Hm & Hf)]].
  - left. apply Hsame, (contents_same _ _ _ _ Hs Hc).
  - left. apply Hsame. right. by rewrite lookup_insert_eq.
  - destruct fault as [| |n|]; cbn [faulty_append] in Hn; [|done| |].
    + exfalso. pose proof (proj2 Hf eq_refl) as Hok. by destruct v as [[]|].
    + rewrite length_app, Nat.add_sub, take_app_le in Hn by lia.
      destruct (decide (Nat.min n (length (utf8 text)) = 0)%nat) as [E|E].
      * left. rewrite E, take_0, app_nil_r in Hn. subst new. apply Hsame. right. by rewrite lookup_insert_eq.
      * right; right. assert (verify_audit_log (<[name:=File new 1]> d1) name =
          Err (AuditVerificationError "final record is truncated")) as Ht; [|split; [done|intros; by apply append_torn with (1 := Ht)]].
        unfold verify_audit_log, read_audit_file. rewrite lookup_insert_eq, Z.eqb_refl.
        assert (zlen new <= MAX_AUDIT_FILE_BYTES).
        { subst new. unfold zlen in *. rewrite length_app, length_take. rewrite length_app in Hm. simpl in Hm. lia. }
        rewrite (proj2 (Z.ltb_ge _ _)) by done. cbn [negb raise_if mbind result_bind]. unfold verify_raw.
        subst new. rewrite (decode_lines_torn _ _ _ _ Hl Hpr) by lia. done.
    + right; left. split; [done|]. exists r. split; [done|]. apply verify_log_ok. subst new.
      exists (raw ++ utf8 text ++ [10])%list, lines', s, h. split_and!; try done.
      * right. by rewrite lookup_insert_eq.
      * unfold zlen in *. rewrite length_app. lia.
Qed.

(** ** Chains *)

(** The declarative reading of a verified log: each record has the next sequence number, the hash
    of the record before it and its own hash. *)
Fixpoint chained (sequence : Z) (previous : string) (rs : list audit_record) : Prop :=
  match rs with
  | [] => True
  | r :: rest =>
    wf_value (VDict r) /\ is_int (get_or_none r "sequence") sequence = true /\
    get_or_none r "previous_hash" = VStr previous /\
    (exists hash, get_or_none r "record_hash" = VStr hash /\ record_hash r = Ok hash) /\
    chained (sequence + 1) (hash_of r) rest
  end.

Definition last_hash (start : string) (rs : list audit_record) : string :=
  match last rs with Some r => hash_of r | None => start end.

Lemma chained_snoc sequence previous rs r :
  chained sequence previous (rs ++ [r]) <->
  chained sequence previous rs /\ chained (sequence + zlen rs) (last_hash previous rs) [r].
Proof.
  revert sequence previous. induction rs as [|x rs IH]; intros sequence previous; cbn [app chained].
  - unfold zlen, last_hash. simpl. rewrite Z.add_0_r. naive_solver.
  - rewrite IH. cbn [chained]. replace (sequence + zlen (x :: rs)) with (sequence + 1 + zlen rs) by (unfold zlen; simpl; lia).
    assert (last_hash (hash_of x) rs = last_hash previous (x :: rs)) as ->; [|tauto].
    unfold last_hash. rewrite last_cons. by destruct (last rs).
Qed.

Lemma verify_line_chained n line sequence previous r hash :
  verify_line n line sequence previous = Ok (r, hash) -> chained sequence previous [r] /\ hash_of r = hash.
Proof.
  unfold verify_line. intros E. apply bind_ok in E as ([] & _ & E). apply bind_ok in E as (r' & Hp & E).
  apply bind_ok in E as ([] & _ & E). apply bind_ok in E as ([] & _ & E). apply bind_ok in E as (l & _ & E).
  apply bind_ok in E as ([] & _ & E). apply bind_ok in E as ([] & _ & E). apply bind_ok in E as ([] & _ & E).
  apply bind_ok in E as ([] & Hs%raise_if_ok & E). apply bind_ok in E as ([] & Hv%raise_if_ok & E).
  destruct (get_or_none r' "record_hash") as [| | |h| | |] eqn:Hh; try done.
  apply bind_ok in E as (h' & Hr & E). apply bind_ok in E as ([] & He%raise_if_ok & [= -> ->]).
  apply negb_false_iff in Hs, Hv. apply negb_false_iff, String.eqb_eq in He as <-.
  apply is_text_true in Hv. split; [|unfold hash_of; by rewrite Hh].
  cbn [chained]. split_and!; [|done..|eauto|done].
  unfold parse_record in Hp. destruct (loads_chars line) as [v|] eqn:El; [|done]. apply loads_wf in El.
  destruct v; try done. by injection Hp as <-.
Qed.

(** Verifying lines extends a chain. *)
Lemma verify_from_chained n lines st st' sequence previous rs0 :
  verify_from n lines st = Ok st' -> cs_records st = rs0 ->
  chained sequence previous rs0 -> cs_next_sequence st = sequence + zlen rs0 -> cs_last_hash st = last_hash previous rs0 ->
  chained sequence previous (cs_records st') /\ cs_next_sequence st' = sequence + zlen (cs_records st') /\
  cs_last_hash st' = last_hash previous (cs_records st').
Proof.
  revert n st rs0. induction lines as [|line lines IH]; intros n st rs0; cbn [verify_from].
  - intros [= <-] -> Hc Hn Hl. done.
  - intros E <- Hc Hn Hl. apply bind_ok in E as ([r h] & Hv & E). apply verify_line_chained in Hv as [Hr <-].
    eapply IH; [exact E|done|..]; cbn [cs_records cs_next_sequence cs_last_hash].
    + apply chained_snoc. by rewrite <- Hn, <- Hl.
    + rewrite Hn. unfold zlen. rewrite length_app. simpl. lia.
    + unfold last_hash. by rewrite last_snoc.
Qed.

Lemma zlen_nil {A} : zlen (@nil A) = 0.
Proof. done. Qed.

Lemma verify_lines_chained lines sequence previous st :
  verify_lines lines sequence previous = Ok st ->
  chained sequence previous (cs_records st) /\ cs_next_sequence st = sequence + zlen (cs_records st) /\
  cs_last_hash st = last_hash previous (cs_records st).
Proof.
  intros H. eapply verify_from_chained; [exact H|done|done| |done]. cbn. by rewrite zlen_nil, Z.add_0_r.
Qed.

Lemma chained_app sequence previous rs rs' :
  chained sequence previous (rs ++ rs') <->
  chained sequence previous rs /\ chained (sequence + zlen rs) (last_hash previous rs) rs'.
Proof.
  revert rs. induction rs' as [|r rs' IH]; intros rs.
  - rewrite app_nil_r. cbn [chained]. tauto.
  - replace (rs ++ r :: rs')%list with ((rs ++ [r]) ++ rs')%list by by rewrite <- app_assoc.
    rewrite IH, chained_snoc. cbn [chained].
    replace (sequence + zlen (rs ++ [r])) with (sequence + zlen rs + 1) by (unfold zlen; rewrite length_app; simpl; lia).
    assert (last_hash previous (rs ++ [r]) = hash_of r) as -> by (unfold last_hash; by rewrite last_snoc). tauto.
Qed.

Lemma last_hash_app previous rs rs' : last_hash previous (rs ++ rs') = last_hash (last_hash previous rs) rs'.
Proof.
  unfold last_hash. destruct rs' as [|r rs' _] using rev_ind; [by rewrite app_nil_r|].
  by rewrite app_assoc, !last_snoc.
Qed.

(** The state of a chain that starts at the beginning. *)
Definition whole_chain (st : chain_state) : Prop :=
  chained 1 GENESIS_HASH (cs_records st) /\ cs_next_sequence st = 1 + zlen (cs_records st) /\
  cs_last_hash st = last_hash GENESIS_HASH (cs_records st).

Lemma segments_chained d names st st' :
  whole_chain st -> segments_from d names st = Ok st' -> whole_chain st'.
Proof.
  revert st. induction names as [|name names IH]; intros st Hst; cbn [segments_from]; [by intros [= <-]|].
  intros E. apply bind_ok in E as (raw & _ & E). destruct raw as [raw|]; [|done].
  apply bind_ok in E as (lines & _ & E). apply bind_ok in E as (next & Hv & E). eapply IH; [|exact E].
  destruct Hst as (Hc & Hn & Hl). apply verify_lines_chained in Hv as (Hc' & Hn' & Hl').
  unfold whole_chain. cbn [cs_records cs_next_sequence cs_last_hash]. split_and!.
  - apply chained_app. by rewrite <- Hn, <- Hl.
  - rewrite Hn', Hn. unfold zlen. rewrite length_app. lia.
  - by rewrite Hl', Hl, last_hash_app.
Qed.

(** ** Tampering shows *)

(** Two records with the same fields, up to the order of keys inside them. *)
Definition same_record (r r' : audit_record) : Prop :=
  forall k, canon (get_or_none r k) = canon (get_or_none r' k).

Lemma get_or_none_remove r k k' : get_or_none (dict_remove r k) k' = if String.eqb k' k then VNone else get_or_none r k'.
Proof.
  unfold get_or_none. induction r as [|[x v] r IH]; [by destruct (String.eqb k' k)|].
  unfold dict_remove, filter_b in *. csimpl. destruct (String.eqb_spec x k) as [->|Hx]; csimpl.
  - rewrite IH. by destruct (String.eqb k' k).
  - destruct (String.eqb_spec k' x) as [->|]; [|done]. by rewrite (proj2 (String.eqb_neq _ _) Hx).
Qed.

(** The bytes [record_hash] hashes. *)
Definition record_message (r : audit_record) : bytes := utf8 (default "" (dumps (VDict (dict_remove r "record_hash")))).

(** Two records hash different bytes to the same value. *)
Definition records_collide (r r' : audit_record) : Prop := collision (record_message r) (record_message r').

(** Records with the same hash are the same, unless their messages collide. *)
Lemma same_hash_same_record r r' hash :
  wf_value (VDict r) -> wf_value (VDict r') -> record_hash r = Ok hash -> record_hash r' = Ok hash ->
  get_or_none r "record_hash" = VStr hash -> get_or_none r' "record_hash" = VStr hash ->
  same_record r r' \/ records_collide r r'.
Proof.
  unfold record_hash, records_collide, record_message. intros Hw Hw'. destruct (dumps _) as [t|] eqn:E; [|done]. destruct (dumps (VDict (dict_remove r' _))) as [t'|] eqn:E'; [|done].
  intros [= Ht] [= Ht'] Hh Hh'. destruct (decide (t = t')) as [<-|Hne].
  - left. pose proof (dumps_inj _ _ _ (wf_remove _ _ Hw) (wf_remove _ _ Hw') E E') as Hc. rewrite !canon_dict in Hc.
    injection Hc as Hc. intros k. destruct (String.eqb_spec k "record_hash") as [->|Hk]; [by rewrite Hh, Hh'|].
    pose proof (wf_remove _ "record_hash" Hw) as [Hn _]%wf_dict_Forall.
    pose proof (wf_remove _ "record_hash" Hw') as [Hn' _]%wf_dict_Forall.
    pose proof (get_or_none_canon _ k Hn) as G. rewrite Hc, (get_or_none_canon _ k Hn') in G.
    rewrite !get_or_none_remove, (proj2 (String.eqb_neq _ _) Hk) in G. by symmetry.
  - right. cbn [from_option id]. split; [by intros ?%utf8_inj|congruence].
Qed.

Lemma same_record_int r r' k z z' :
  same_record r r' -> is_int (get_or_none r k) z = true -> is_int (get_or_none r' k) z' = true -> z = z'.
Proof.
  intros Hs. specialize (Hs k). unfold is_int.
  destruct (get_or_none r k), (get_or_none r' k); cbn in *; intros; simplify_eq; by rewrite ?Z.eqb_eq in *; subst.
Qed.

(** The hash of a record determines the chain that ends in it. *)
Lemma chain_determined rs rs' :
  chained 1 GENESIS_HASH rs -> chained 1 GENESIS_HASH rs' -> rs <> [] -> rs' <> [] ->
  last_hash GENESIS_HASH rs = last_hash GENESIS_HASH rs' ->
  Forall2 same_record rs rs' \/ exists r r', r ∈ rs /\ r' ∈ rs' /\ records_collide r r'.
Proof.
  revert rs'. induction rs as [|r rs IH] using rev_ind; [done|]. intros rs' Hc Hc' _.
  destruct rs' as [|r' rs' _] using rev_ind; [done|]. intros _ Hl.
  apply chained_snoc in Hc as [Hc (Hw & Hs & Hp & (h & Hh & Hr) & _)].
  apply chained_snoc in Hc' as [Hc' (Hw' & Hs' & Hp' & (h' & Hh' & Hr') & _)].
  unfold last_hash in Hl. rewrite !last_snoc in Hl. unfold hash_of in Hl. rewrite Hh, Hh' in Hl. subst h'.
  assert (r ∈ (rs ++ [r])%list /\ r' ∈ (rs' ++ [r'])%list) as [Hin Hin'] by (rewrite !elem_of_app; split; right; by left).
  destruct (same_hash_same_record _ _ _ Hw Hw' Hr Hr' Hh Hh') as [Hsame|?]; [|right; by exists r, r'].
  pose proof (same_record_int _ _ _ _ _ Hsame Hs Hs') as Hlen.
  pose proof (Hsame "previous_hash") as Hprev. rewrite Hp, Hp' in Hprev. cbn [canon] in Hprev. injection Hprev as Hprev.
  assert (length rs = length rs') as El by (unfold zlen in Hlen; lia).
  destruct (decide (rs = [])) as [->|Hne].
  - symmetry in El. apply nil_length_inv in El as ->. left. by repeat constructor.
  - assert (rs' <> []) as Hne' by (intros ->; by destruct rs).
    destruct (IH rs' Hc Hc' Hne Hne' Hprev) as [Hf|(q & q' & Hq & Hq' & Hqq)];
      [|right; exists q, q'; rewrite !elem_of_app; split; [by left|]; split; [by left|done]]. left. apply Forall2_app; [done|by repeat constructor].
Qed.

Lemma whole_empty : whole_chain empty_state.
Proof. done. Qed.

(** C18. The last hash of a verified log vouches for all of it.  Two sequences of segments that verify
    and end in the same hash hold the same records, one by one and field by field: nothing was
    changed, inserted, dropped or put in another order.  The exception is a record of the first log
    and one of the second whose hashed bytes differ and have the same SHA-256 value. *)
Theorem audit_log_tamper_evident d names d' names' st st' :
  verify_audit_segments d names = Ok st -> verify_audit_segments d' names' = Ok st' ->
  cs_records st <> [] -> cs_records st' <> [] -> cs_last_hash st = cs_last_hash st' ->
  Forall2 same_record (cs_records st) (cs_records st') \/
  exists r r', r ∈ cs_records st /\ r' ∈ cs_records st' /\ records_collide r r'.
Proof.
  intros H H' Hn Hn' E. destruct (segments_chained _ _ _ _ whole_empty H) as (Hc & _ & Hl).
  destruct (segments_chained _ _ _ _ whole_empty H') as (Hc' & _ & Hl').
  apply chain_determined; congruence.
Qed.

(** ** Rotation *)

Lemma rotate_ok d name rotated clock elsewhere rename fault d' r :
  rotate d name rotated clock elsewhere rename fault = (d', Ok r) ->
  rotated <> name /\ rotated <> lock_name name /\ d !! rotated = None /\
  exists raw st raw' lines',
    d !! name = Some (File raw 1) /\ zlen raw <= MAX_AUDIT_FILE_BYTES /\ verify_audit_log d name = Ok st /\
    d' !! rotated = Some (File raw 1) /\ d' !! name = Some (File raw' 1) /\ zlen raw' <= MAX_AUDIT_FILE_BYTES /\
    decode_lines raw' = Ok lines' /\ initial_of lines' = Ok (cs_next_sequence st, cs_last_hash st) /\
    verify_lines lines' (cs_next_sequence st) (cs_last_hash st) =
      Ok {| cs_next_sequence := cs_next_sequence st + 1; cs_last_hash := hash_of r; cs_records := [canon_map r] |} /\
    forall n, n <> name -> n <> rotated -> n <> lock_name name -> d' !! n = d !! n.
Proof.
  unfold rotate. destruct elsewhere; [done|]. destruct (String.eqb_spec rotated name) as [|Hne]; [done|].
  destruct (exclusive_lock d name) as [d1 [[]|e]] eqn:El; [|done]. pose proof (exclusive_lock_same _ _ _ _ El) as Hs.
  assert (Hlock : d1 !! lock_name name <> None).
  { unfold exclusive_lock in El. destruct (d !! lock_name name) as [[]|] eqn:E; simplify_eq; [congruence|].
    by rewrite lookup_insert_eq. }
  destruct (raise_if _ _ ≫= _) as [st|] eqn:E; [|done]. apply bind_ok in E as ([] & Hr%raise_if_ok & E).
  apply bind_ok in E as (st' & Hst & E). apply bind_ok in E as ([] & _ & [= <-]).
  destruct (d1 !! rotated) eqn:Hrot; [done|].
  assert (rotated <> lock_name name) as Hnl by (intros ->; done).
  rewrite (verify_log_same _ _ _ Hs) in Hst.
  destruct (d1 !! name) as [file|] eqn:Hf; [|by destruct rename]. destruct rename; [|done..].
  destruct (new_record _ _ _ _ _) as [rec|] eqn:Hrec; [|done].
  set (d2 := delete name (<[rotated:=file]> d1)). destruct (append_record d2 name rec fault) as [d3 [[]|]] eqn:Ha; [|done].
  intros [= <- <-].
  pose proof Hst as Hst'. apply verify_log_ok in Hst' as (raw & lines & s & h & Hc & Hm & Hl & Hi & Hv).
  apply (contents_same _ _ _ _ Hs) in Hc. destruct Hc as [[Hc _]|Hc]; [congruence|]. rewrite Hf in Hc. injection Hc as ->.
  set (st0 := {| cs_next_sequence := cs_next_sequence st'; cs_last_hash := cs_last_hash st'; cs_records := [] |}).
  assert (wf_value (VDict [("previous_segment", VStr rotated)])) as Hwf
    by (apply wf_dict_Forall; split; [by apply NoDup_singleton|by repeat constructor]).
  assert ("audit_rotation_continuation" ∈ AUDIT_EVENTS) as Hev by (apply (bool_decide_unpack _); by vm_compute).
  destruct (verify_new_line 1 _ _ _ _ _ _ Hev Hwf Hrec)
    as (text & hash & Henc & Hp & Hh & Hline & Hparse).
  assert (contents d2 name []) as Hc2 by (left; split; [apply lookup_delete_eq|reflexivity]).
  destruct (append_record_cases d2 name rec fault d3 (Ok tt) [] _ Hc2 Henc Ha)
    as [[_ ?]|[(_ & _ & ?)|(new & Hn & -> & Hm' & Hf')]]; [done..|].
  rewrite (proj1 Hf' eq_refl) in Hn. cbn [faulty_append app] in Hn. subst new.
  assert (d !! rotated = None) as Hrd by (by rewrite <- (Hs rotated Hnl)).
  assert (d !! name = Some (File raw 1)) as Hnd by (by rewrite <- (Hs name (lock_name_ne name))).
  split; [done|]. split; [done|]. split; [done|]. exists raw, st', (utf8 text ++ [10])%list, [chars text].
  assert (NoDup rec.*1) as Hnr.
  { apply new_record_ok in Hrec as (? & ? & _ & -> & _). apply (bool_decide_unpack _). by vm_compute. }
  split_and!; try done.
  - subst d2. by rewrite lookup_insert_ne, lookup_delete_ne, lookup_insert_eq.
  - by rewrite lookup_insert_eq.
  - apply (decode_lines_append [] [] text); [done|done].
  - cbn [initial_of]. rewrite Hparse. cbn [mbind result_bind]. unfold canon_map. rewrite !get_or_none_canon by done.
    apply new_record_ok in Hrec as (? & ? & _ & -> & _). done.
  - unfold verify_lines. cbn [verify_from cs_next_sequence cs_last_hash]. rewrite Hline. cbn [mbind result_bind verify_from].
    unfold hash_of. by rewrite Hh.
  - intros n H1 H2 H3. subst d2. rewrite lookup_insert_ne, lookup_delete_ne, lookup_insert_ne by done. by apply Hs.
Qed.

(** ** The history of a log *)

(** What happens in the audit directory: appends and rotations that succeed, and anything that
    leaves the files of the log alone, refused operations among them. *)
Inductive history (name : string) : directory -> list string -> list audit_record -> Prop :=
  | history_start d : d !! name = None -> history name d [] []
  | history_append d segments records clock event p fault d' r :
      history name d segments records -> wf_value (VDict p) ->
      append d name clock event (VDict p) fault = (d', Ok r) ->
      history name d' segments (records ++ [canon_map r])
  | history_rotate d segments records rotated clock elsewhere rename fault d' r :
      history name d segments records -> rotate d name rotated clock elsewhere rename fault = (d', Ok r) ->
      history name d' (segments ++ [rotated]) (records ++ [canon_map r])
  | history_other d segments records d' :
      history name d segments records -> (forall n, n ∈ name :: segments -> d' !! n = d !! n) ->
      history name d' segments records.

Lemma segments_from_app d a b st :
  segments_from d (a ++ b) st = (st' ← segments_from d a st; segments_from d b st').
Proof.
  revert st. induction a as [|n a IH]; intros st; cbn [app segments_from]; [done|].
  destruct (read_audit_file d n) as [[raw|]|]; cbn [mbind result_bind]; try done.
  destruct (decode_lines raw) as [lines|]; cbn [mbind result_bind]; [|done].
  destruct (verify_lines _ _ _) as [next|]; cbn [mbind result_bind]; [|done]. apply IH.
Qed.

Lemma segments_from_ext d d' names st :
  (forall n, n ∈ names -> d' !! n = d !! n) -> segments_from d' names st = segments_from d names st.
Proof.
  revert st. induction names as [|n names IH]; intros st Hn; cbn [segments_from]; [done|].
  unfold read_audit_file at 1. rewrite (Hn n) by left. fold (read_audit_file d n).
  destruct (read_audit_file d n) as [[raw|]|]; cbn [mbind result_bind]; try done.
  destruct (decode_lines raw) as [lines|]; cbn [mbind result_bind]; [|done].
  destruct (verify_lines _ _ _) as [next|]; cbn [mbind result_bind]; [|done].
  apply IH. intros m Hm. apply Hn. by right.
Qed.

(** The segments verify, and the log continues them. *)
Definition log_intact (name : string) (d : directory) (segments : list string) (records : list audit_record) : Prop :=
  name ∉ segments /\ lock_name name ∉ segments /\
  exists st1, segments_from d segments empty_state = Ok st1 /\
    ((d !! name = None /\ segments = [] /\ records = []) \/
     exists raw lines st2,
       d !! name = Some (File raw 1) /\ zlen raw <= MAX_AUDIT_FILE_BYTES /\ decode_lines raw = Ok lines /\
       initial_of lines = Ok (cs_next_sequence st1, cs_last_hash st1) /\
       verify_lines lines (cs_next_sequence st1) (cs_last_hash st1) = Ok st2 /\
       records = (cs_records st1 ++ cs_records st2)%list).

Lemma read_intact d name raw :
  d !! name = Some (File raw 1) -> zlen raw <= MAX_AUDIT_FILE_BYTES -> read_audit_file d name = Ok (Some raw).
Proof. intros Hd Hm. unfold read_audit_file. by rewrite Hd, Z.eqb_refl, (proj2 (Z.ltb_ge _ _)). Qed.

(** The log as the last segment. *)
Lemma segments_with_log d segments name st1 raw lines st2 :
  segments_from d segments empty_state = Ok st1 -> d !! name = Some (File raw 1) ->
  zlen raw <= MAX_AUDIT_FILE_BYTES -> decode_lines raw = Ok lines ->
  verify_lines lines (cs_next_sequence st1) (cs_last_hash st1) = Ok st2 ->
  segments_from d (segments ++ [name]) empty_state =
    Ok {| cs_next_sequence := cs_next_sequence st2; cs_last_hash := cs_last_hash st2;
          cs_records := (cs_records st1 ++ cs_records st2)%list |}.
Proof.
  intros Hs Hd Hm Hl Hv. rewrite segments_from_app, Hs. cbn [mbind result_bind segments_from].
  rewrite (read_intact _ _ _ Hd Hm). cbn [mbind result_bind]. rewrite Hl. cbn [mbind result_bind]. by rewrite Hv.
Qed.

(** The state a verification of the log itself returns is that of the last segment. *)
Lemma verify_of_intact d name st1 raw lines st2 st :
  d !! name = Some (File raw 1) -> zlen raw <= MAX_AUDIT_FILE_BYTES -> decode_lines raw = Ok lines ->
  initial_of lines = Ok (cs_next_sequence st1, cs_last_hash st1) ->
  verify_lines lines (cs_next_sequence st1) (cs_last_hash st1) = Ok st2 ->
  verify_audit_log d name = Ok st -> st = st2.
Proof.
  intros Hd Hm Hl Hi Hv H. assert (verify_audit_log d name = Ok st2) as E; [|congruence].
  apply verify_log_ok. exists raw, lines, (cs_next_sequence st1), (cs_last_hash st1). split_and!; try done. by right.
Qed.

Lemma append_keeps_intact name d segments records clock event p fault d' r :
  log_intact name d segments records -> wf_value (VDict p) -> append d name clock event (VDict p) fault = (d', Ok r) ->
  log_intact name d' segments (records ++ [canon_map r]).
Proof.
  intros (Hn & Hk & st1 & Hseg & Hlog) Hp Ha.
  destruct (append_ok _ _ _ _ _ _ _ _ Hp Ha) as (st & raw & raw' & lines & lines' & s & h & Hst & Hc & Hl & Hi & Hv &
    Hl' & Hi' & Hv' & Hm' & Hd' & Hother).
  split; [done|]. split; [done|]. exists st1. split.
  { rewrite <- Hseg. apply segments_from_ext. intros n Hin. apply Hother; intros ->; contradiction. }
  right. destruct Hlog as [(Hd & -> & ->)|(raw0 & lines0 & st2 & Hd & Hm & Hl0 & Hi0 & Hv0 & ->)].
  - injection Hseg as <-. destruct Hc as [[_ ->]|Hc]; [|congruence]. injection Hl as <-. injection Hi as <- <-.
    injection Hv as <-. eexists raw', lines', _. split_and!; [done..|]. done.
  - destruct Hc as [[Hc _]|Hc]; [congruence|]. assert (raw0 = raw) as -> by congruence.
    rewrite Hl in Hl0. injection Hl0 as <-. rewrite Hi in Hi0. injection Hi0 as -> ->. rewrite Hv in Hv0. injection Hv0 as <-.
    eexists raw', lines', _. split_and!; [done..|]. by rewrite <- app_assoc.
Qed.

Lemma rotate_keeps_intact name d segments records rotated clock elsewhere rename fault d' r :
  log_intact name d segments records -> rotate d name rotated clock elsewhere rename fault = (d', Ok r) ->
  log_intact name d' (segments ++ [rotated]) (records ++ [canon_map r]).
Proof.
  intros (Hn & Hk & st1 & Hseg & Hlog) Hr.
  apply rotate_ok in Hr as (Hne & Hnl & Hrot & raw & st & raw' & lines' & Hd & Hm & Hst & Hd1 & Hd2 & Hm' & Hl' & Hi' & Hv' & Hother).
  destruct Hlog as [(Hd0 & _ & _)|(raw0 & lines0 & st2 & Hd0 & _ & Hl0 & Hi0 & Hv0 & ->)]; [congruence|].
  assert (raw0 = raw) as -> by congruence.
  pose proof (verify_of_intact _ _ _ _ _ _ _ Hd Hm Hl0 Hi0 Hv0 Hst) as ->.
  assert (Hnr : rotated ∉ segments).
  { intros Hin. clear -Hseg Hin Hrot. revert Hseg. generalize empty_state. intros st0.
    apply list_elem_of_split in Hin as (a & b & ->). rewrite segments_from_app. intros E. apply bind_ok in E as (x & _ & E).
    cbn [segments_from] in E. unfold read_audit_file in E. by rewrite Hrot in E. }
  split; [rewrite elem_of_app, list_elem_of_singleton; by intros [?| ->]|].
  split; [rewrite elem_of_app, list_elem_of_singleton; intros [?|E]; [done|by apply Hnl]|].
  exists {| cs_next_sequence := cs_next_sequence st2; cs_last_hash := cs_last_hash st2;
            cs_records := (cs_records st1 ++ cs_records st2)%list |}. split.
  - eapply (segments_with_log d' segments rotated st1 raw lines0 st2); try done.
    rewrite <- Hseg. apply segments_from_ext. intros n Hin. apply Hother; intros ->; contradiction.
  - right. eexists raw', lines', _. cbn [cs_next_sequence cs_last_hash cs_records]. split_and!; [done..|]. done.
Qed.

Lemma history_intact name d segments records : history name d segments records -> log_intact name d segments records.
Proof.
  induction 1 as [d Hd|d segs recs clock event p fault d' r _ IH Hp Ha|d segs recs rotated clock el rn fault d' r _ IH Hr
    |d segs recs d' _ IH Hd].
  - split; [apply not_elem_of_nil|]. split; [apply not_elem_of_nil|]. exists empty_state. split; [done|by left].
  - by eapply append_keeps_intact.
  - by eapply rotate_keeps_intact.
  - destruct IH as (Hn & Hk & st1 & Hseg & Hlog). split; [done|]. split; [done|]. exists st1. split.
    + rewrite <- Hseg. apply segments_from_ext. intros n Hin. apply Hd. by right.
    + by rewrite (Hd name) by left.
Qed.

(** C17. Nothing that was recorded is lost.  After any history of appends and rotations, with any
    other activity that leaves the files of the log alone, the rotated segments and the log
    verify as one chain from the genesis hash; the chain holds exactly the records of the
    history in their order, numbered from 1; and the log alone verifies too, to the same end. *)
Theorem audit_history_verifies name d segments records :
  history name d segments records -> records <> [] ->
  exists st st', verify_audit_segments d (segments ++ [name]) = Ok st /\
    cs_records st = records /\ cs_next_sequence st = 1 + zlen records /\ chained 1 GENESIS_HASH records /\
    verify_audit_log d name = Ok st' /\ cs_next_sequence st' = cs_next_sequence st /\ cs_last_hash st' = cs_last_hash st.
Proof.
  intros (Hn & Hk & st1 & Hseg & [(_ & _ & ->)|(raw & lines & st2 & Hd & Hm & Hl & Hi & Hv & ->)])%history_intact Hne; [done|].
  pose proof (segments_with_log _ _ _ _ _ _ _ Hseg Hd Hm Hl Hv) as Hall.
  destruct (segments_chained _ _ _ _ whole_empty Hall) as (Hc & Hnext & _).
  eexists _, st2. split; [exact Hall|]. split_and!; [done|exact Hnext|exact Hc| |done..].
  apply verify_log_ok. exists raw, lines, (cs_next_sequence st1), (cs_last_hash st1). split_and!; try done. by right.
Qed.

(** ** Witnesses and examples *)

Definition sample_fields : audit_record :=
  [("source", VStr "/dev/sda"); ("api_token", VStr "abc"); ("ready", VBool true)].
Definition sample_event : value := VDict sample_fields.
Definition first_append : directory * outcome audit_record :=
  append ∅ "audit.jsonl" "2024-01-01T00:00:00.000000+00:00" "device_resolution" sample_event NoFault.
Definition then_rotate : directory * outcome audit_record :=
  rotate first_append.1 "audit.jsonl" "audit.1.jsonl" "2024-01-02T00:00:00.000000+00:00" false Renamed NoFault.

Example redacted_event :
  redact sample_event =
  VDict [("source", VStr "[DEVICE_PATH_REDACTED]"); ("api_token", VStr "[REDACTED]"); ("ready", VBool true)].
Proof. by vm_compute. Qed.

(** The file after a whole record still verifies when the record is dropped. *)
Example dropped_record_verifies :
  verify_audit_log (<["audit.jsonl" := File [] 1]> first_append.1) "audit.jsonl" = Ok empty_state.
Proof. by vm_compute. Qed.

(** A rotation that is interrupted between the renaming and the continuation: the next append
    finds no log and starts a new chain, and the segments no longer verify. *)
Example interrupted_rotation_breaks_chain :
  let d1 := (rotate first_append.1 "audit.jsonl" "audit.1.jsonl" "t" false RenamedUnsynced NoFault).1 in
  let '(d2, u) := append d1 "audit.jsonl" "t" "device_resolution" sample_event NoFault in
  is_ok u = true /\ is_ok (verify_audit_log d2 "audit.jsonl") = true /\
  verify_audit_segments d2 ["audit.1.jsonl"; "audit.jsonl"] =
    Err (AuditVerificationError "line 1: sequence gap or reorder").
Proof. by vm_compute. Qed.

Definition recorded (x : directory * outcome audit_record) : audit_record := ok_or x.2 [].

Lemma sample_wf : wf_value sample_event.
Proof. apply wf_dict_Forall. split; [apply (bool_decide_unpack _); by vm_compute|by repeat constructor]. Qed.

Lemma first_append_ok : first_append = (first_append.1, Ok (recorded first_append)).
Proof.
  assert (is_ok first_append.2 = true) as H by by vm_compute. unfold recorded. revert H. generalize first_append. by intros [d [r|e]].
Qed.

Lemma then_rotate_ok : then_rotate = (then_rotate.1, Ok (recorded then_rotate)).
Proof.
  assert (is_ok then_rotate.2 = true) as H by by vm_compute. unfold recorded. revert H. generalize then_rotate. by intros [d [r|e]].
Qed.

Lemma audit_history_verifies_witness :
  exists st, verify_audit_segments then_rotate.1 ["audit.1.jsonl"; "audit.jsonl"] = Ok st /\
    cs_records st = [canon_map (recorded first_append); canon_map (recorded then_rotate)] /\
    cs_next_sequence st = 3.
Proof.
  assert (Hh : history "audit.jsonl" then_rotate.1 ["audit.1.jsonl"]
                 [canon_map (recorded first_append); canon_map (recorded then_rotate)]).
  { apply (history_rotate _ first_append.1 [] [canon_map (recorded first_append)] "audit.1.jsonl"
             "2024-01-02T00:00:00.000000+00:00" false Renamed NoFault); [|exact then_rotate_ok].
    apply (history_append _ ∅ [] [] "2024-01-01T00:00:00.000000+00:00" "device_resolution" sample_fields NoFault);
      [by apply history_start|exact sample_wf|exact first_append_ok]. }
  destruct (audit_history_verifies _ _ _ _ Hh) as (st & _ & Hv & Hr & Hn & _); [discriminate|].
  exists st. split; [exact Hv|]. split; [exact Hr|exact Hn].
Defined.

(** The same records in one file. *)
Definition joined : directory :=
  match then_rotate.1 !! "audit.1.jsonl", then_rotate.1 !! "audit.jsonl" with
  | Some (File a _), Some (File b _) => <["all.jsonl" := File (a ++ b) 1]> ∅
  | _, _ => ∅
  end.

Lemma audit_log_tamper_evident_witness :
  exists st st', verify_audit_segments then_rotate.1 ["audit.1.jsonl"; "audit.jsonl"] = Ok st /\
    verify_audit_segments joined ["all.jsonl"] = Ok st' /\
    (Forall2 same_record (cs_records st) (cs_records st') \/
     exists r r', r ∈ cs_records st /\ r' ∈ cs_records st' /\ records_collide r r').
Proof.
  assert (match verify_audit_segments then_rotate.1 ["audit.1.jsonl"; "audit.jsonl"], verify_audit_segments joined ["all.jsonl"] with
          | Ok st, Ok st' => cs_records st <> [] /\ cs_records st' <> [] /\ cs_last_hash st = cs_last_hash st'
          | _, _ => False end) as H by (vm_compute; by split_and!).
  destruct (verify_audit_segments then_rotate.1 ["audit.1.jsonl"; "audit.jsonl"]) as [st|] eqn:E; [|destruct H].
  destruct (verify_audit_segments joined ["all.jsonl"]) as [st'|] eqn:E'; [|destruct H].
  destruct H as (H1 & H2 & H3). exists st, st'. split; [reflexivity|]. split; [reflexivity|].
  exact (audit_log_tamper_evident _ _ _ _ _ _ E E' H1 H2 H3).
Defined.

Lemma failed_append_contained_witness :
  let x := append first_append.1 "audit.jsonl" "t" "device_resolution" sample_event (WriteStops 5) in
  x.2 = Err AuditOSError /\ is_ok (verify_audit_log x.1 "audit.jsonl") = false /\
  is_ok (append x.1 "audit.jsonl" "t" "device_resolution" sample_event NoFault).2 = false.
Proof.
  intros x. assert (x.2 = Err AuditOSError) as Hx by by vm_compute.
  assert (is_ok (verify_audit_log x.1 "audit.jsonl") = false) as Hv by by vm_compute.
  assert (is_ok (verify_audit_log first_append.1 "audit.jsonl") = true) as Hs by by vm_compute.
  destruct (verify_audit_log first_append.1 "audit.jsonl") as [st|] eqn:Est; [|discriminate Hs].
  assert (x = (x.1, Err AuditOSError)) as Ex by by rewrite <- Hx, <- surjective_pairing.
  split; [exact Hx|]. split; [exact Hv|].
  destruct (failed_append_contained _ _ _ _ _ _ _ _ _ sample_wf Est Ex) as [H|[[? _]|[_ H]]].
  - rewrite H in Hv. discriminate Hv.
  - discriminate.
  - apply H.
Defined.

Lemma redact_exact_witness :
  harmless (redact sample_event) /\ redact (redact sample_event) = redact sample_event.
Proof.
  pose proof (proj1 (redact_exact sample_event)) as H. split; [exact H|].
  exact (proj1 (proj1 (proj2 (redact_exact (redact sample_event)))) H).
Defined.
