(* ===== verification/ScannerSandbox.v ===== *)
(** * The sandbox of the scanner (src/hostd/scanner_sandbox.py)

    The fixed launch specification, its validation, the check of the read-only preparation, and
    the launch itself with its audit record.  The main theorems: the builder produces a
    specification exactly for a prepared source and bounded resources, and the specification is
    then a function of them; whatever a launch runs is that one confined command, on a source
    whose every target was verified read-only, after its profile was recorded. *)

From Stdlib Require Import ZArith Lia String Ascii.
From stdpp Require Import base list strings gmap sorting.
From S2P Require Import Prelude PyStr Json Identifiers Messages Devices StorageInspection ReadOnly MediaCheckpoints SafetyAudit.

Local Open Scope string_scope.
Local Open Scope Z_scope.

Abbreviation mapping := (list (string * value)).

(** hostd/scanner_sandbox.py:15-17 SCANNER_IMAGE *)
Definition SCANNER_IMAGE : string :=
  "reperio/scanner@sha256:1111111111111111111111111111111111111111111111111111111111111111".
(** hostd/scanner_sandbox.py:18-18 SCANNER_ENTRYPOINT *)
Definition SCANNER_ENTRYPOINT : string := "/usr/local/bin/python".
(** hostd/scanner_sandbox.py:19-19 SCANNER_ARGS *)
Definition SCANNER_ARGS : list string := ["-m"; "scanner"].
(** hostd/scanner_sandbox.py:20-20 CONTAINER_SOURCE_PATH *)
Definition CONTAINER_SOURCE_PATH : string := "/dev/reperio-source".
(** hostd/scanner_sandbox.py:21-21 SCRATCH_TMPFS_PATH *)
Definition SCRATCH_TMPFS_PATH : string := "/run/reperio-scratch".
(** hostd/scanner_sandbox.py:22-22 NON_ROOT_USER *)
Definition NON_ROOT_USER : string := "65532:6".
(** hostd/scanner_sandbox.py:23-23 ALLOWED_RUNTIMES *)
Definition ALLOWED_RUNTIMES : list string := ["docker"; "podman"].
(** hostd/scanner_sandbox.py:27-45 SPEC_KEYS *)
Definition SPEC_KEYS : list string :=
  ["runtime"; "image"; "entrypoint"; "args"; "network"; "capabilities"; "security_options"; "read_only_rootfs"; "user";
   "source_identity"; "devices"; "mounts"; "tmpfs"; "resources"; "command"].
(** hostd/scanner_sandbox.py:46-54 RESOURCE_KEYS *)
Definition RESOURCE_KEYS : list string :=
  ["memory_limit_mib"; "pids_limit"; "scratch_limit_mib"; "cpu_quota_percent"; "cpus"].
(** hostd/scanner_sandbox.py:55-60 RESOURCE_MAXIMUMS *)
Definition RESOURCE_MAXIMUMS : list (string * Z) :=
  [("memory_limit_mib", 1024 * 1024); ("pids_limit", 4096); ("scratch_limit_mib", 1024 * 1024);
   ("cpu_quota_percent", 100 * 1024)].

(** hostd/scanner_sandbox.py:73-74 ScannerSandboxError, and the [TypeError] of a value of the wrong
    type in a set test or an iteration. *)
Inductive sandbox_error := ScannerSandboxError (message : string) | SandboxTypeError.
Abbreviation sandbox := (result sandbox_error).

Definition refuse_if (b : bool) (message : string) : sandbox unit := raise_if b (ScannerSandboxError message).

(** The set of the keys of [d] is [names]. *)
Definition keys_are (d : mapping) (names : list string) : bool :=
  forallb (fun k => bool_decide (k ∈ names)) d.*1 && forallb (fun k => bool_decide (k ∈ d.*1)) names.

Definition is_true_value (v : value) : bool := match v with VBool b => b | _ => false end.
Definition is_empty_list (v : value) : bool := match v with VList [] => true | _ => false end.
(** [str(d.get(k, ""))]. *)
Definition text_field (d : mapping) (k : string) : string := py_str (default (VStr "") (dict_get d k)).

(** ** The source and its preparation *)

(** hostd/scanner_sandbox.py:233-240 _source_identity *)
Definition source_identity (source : mapping) : sandbox (string * string) :=
  let kernel_name := text_field source "kernel_name" in
  let major_minor := text_field source "major_minor" in
  _ ← refuse_if (negb (valid_kernel_name kernel_name)) "source kernel name is invalid";
  _ ← refuse_if (negb (valid_major_minor major_minor)) "source major:minor is invalid";
  Ok (kernel_name, major_minor).

(** The loop over the children: the set so far, in order of insertion. *)
Fixpoint add_children (children : list value) (targets : list (string * string)) : sandbox (list (string * string)) :=
  match children with
  | [] => Ok targets
  | VDict child :: rest =>
    identity ← source_identity child;
    _ ← refuse_if (bool_decide (identity ∈ targets)) "source target identities must be unique";
    add_children rest (targets ++ [identity])%list
  | _ :: _ => Err (ScannerSandboxError "source child identity is invalid")
  end.

(** hostd/scanner_sandbox.py:217-230 _source_targets *)
Definition source_targets (source : mapping) : sandbox (list (string * string)) :=
  root ← source_identity source;
  match default (VList []) (dict_get source "children") with
  | VList children => add_children children [root]
  | _ => Err (ScannerSandboxError "source children must be a list")
  end.

(** The loop over the prepared targets: their identities in order. *)
Fixpoint observed_targets (targets : list value) : sandbox (list (string * string)) :=
  match targets with
  | [] => Ok []
  | VDict target :: rest =>
    let identity := (text_field target "kernel_name", text_field target "major_minor") in
    _ ← refuse_if (negb (is_true_value (get_or_none target "set_read_only"))
                   || negb (is_true_value (get_or_none target "verified_read_only")))
          "read-only preparation target is not verified";
    others ← observed_targets rest;
    Ok (identity :: others)
  | _ :: _ => Err (ScannerSandboxError "read-only preparation target is invalid")
  end.

Definition same_set (a b : list (string * string)) : bool :=
  forallb (fun x => bool_decide (x ∈ b)) a && forallb (fun x => bool_decide (x ∈ a)) b.

(** hostd/scanner_sandbox.py:190-214 _validate_read_only_preparation *)
Definition validate_read_only_preparation (source preparation : mapping) : sandbox unit :=
  _ ← refuse_if (negb (is_true_value (get_or_none preparation "prepared")))
        "source must be read-only prepared before scanner launch";
  _ ← refuse_if (match get_or_none source "source_id" with
                 | VStr s => String.eqb s "" || negb (is_text (get_or_none preparation "source_id") s)
                 | _ => true end) "read-only preparation does not match the selected source";
  _ ← refuse_if (negb (is_empty_list (get_or_none preparation "blockers"))) "read-only preparation contains blockers";
  expected ← source_targets source;
  match get_or_none preparation "targets" with
  | VList targets =>
    _ ← refuse_if (negb (zlen targets =? zlen expected)) "read-only preparation target set is incomplete";
    observed ← observed_targets targets;
    refuse_if (negb (same_set observed expected) || negb (zlen (dedup observed) =? zlen targets))
      "read-only preparation does not match current source targets"
  | _ => Err (ScannerSandboxError "read-only preparation target set is incomplete")
  end.

(** ** Resources *)

Record resources := { r_memory : Z; r_pids : Z; r_scratch : Z; r_cpu_percent : Z }.

(** hostd/scanner_sandbox.py:297-300 _bounded_positive_int *)
Definition bounded_positive_int (v : value) (label : string) (maximum : Z) : sandbox Z :=
  match v with
  | VInt z => if (z <=? 0) || (maximum <? z) then Err (ScannerSandboxError (label +:+ " must be a bounded positive integer")) else Ok z
  | _ => Err (ScannerSandboxError (label +:+ " must be a bounded positive integer"))
  end.

Definition maximum_of (key : string) : Z := default 0 (dict_get RESOURCE_MAXIMUMS key).

(** hostd/scanner_sandbox.py:243-248 _resources: the text of the quota is [format_cpus] of the record. *)
Definition resources_of (profile : mapping) : sandbox resources :=
  let bounded key := bounded_positive_int (get_or_none profile key) key (maximum_of key) in
  memory ← bounded "memory_limit_mib";
  pids ← bounded "pids_limit";
  scratch ← bounded "scratch_limit_mib";
  percent ← bounded "cpu_quota_percent";
  Ok {| r_memory := memory; r_pids := pids; r_scratch := scratch; r_cpu_percent := percent |}.

(** hostd/scanner_sandbox.py:292-294 _format_cpus: for a positive percentage the two decimals of the
    quotient are exact, being the digits of the percentage. *)
Definition format_cpus (percent : Z) : string :=
  let digits := (chars (str_of_Z (percent / 100)) ++ "."%char :: [chr (48 + percent / 10 mod 10); chr (48 + percent mod 10)])%list in
  of_chars (rdrop_while (Ascii.eqb "."%char) (rdrop_while (Ascii.eqb "0"%char) digits)).

Definition resources_value (r : resources) : value :=
  VDict [("memory_limit_mib", VInt (r_memory r)); ("pids_limit", VInt (r_pids r)); ("scratch_limit_mib", VInt (r_scratch r));
         ("cpu_quota_percent", VInt (r_cpu_percent r)); ("cpus", VStr (format_cpus (r_cpu_percent r)))].

(** hostd/scanner_sandbox.py:251-258 _validated_resources *)
Definition validated_resources (v : value) : sandbox resources :=
  match v with
  | VDict d =>
    _ ← refuse_if (negb (keys_are d RESOURCE_KEYS)) "scanner resource keys do not match the fixed profile";
    r ← resources_of d;
    _ ← refuse_if (negb (is_text (get_or_none d "cpus") (format_cpus (r_cpu_percent r)))) "scanner CPU quota is inconsistent";
    Ok r
  | _ => Err (ScannerSandboxError "scanner resources is missing")
  end.

(** ** The specification *)

(** hostd/scanner_sandbox.py:288-289 _tmpfs_options *)
Definition tmpfs_options (r : resources) : string :=
  "rw,noexec,nosuid,nodev,size=" +:+ str_of_Z (r_scratch r) +:+ "m".

(** hostd/scanner_sandbox.py:261-285 _command *)
Definition command (runtime kernel_name : string) (r : resources) : list string :=
  [runtime; "run"; "--rm"; "--pull=never"; "--network=none"; "--cap-drop=ALL"; "--security-opt=no-new-privileges:true";
   "--read-only"; "--log-driver=none"; "--user=" +:+ NON_ROOT_USER;
   "--device=" +:+ "/dev/" +:+ kernel_name +:+ ":" +:+ CONTAINER_SOURCE_PATH +:+ ":r";
   "--tmpfs=" +:+ SCRATCH_TMPFS_PATH +:+ ":" +:+ tmpfs_options r; "--workdir=" +:+ SCRATCH_TMPFS_PATH;
   "--pids-limit=" +:+ str_of_Z (r_pids r); "--memory=" +:+ str_of_Z (r_memory r) +:+ "m";
   "--cpus=" +:+ format_cpus (r_cpu_percent r); "--entrypoint"; SCANNER_ENTRYPOINT; SCANNER_IMAGE; "-m"; "scanner"].

Definition texts (l : list string) : value := VList (VStr <$> l).
Definition capabilities_value : value := VDict [("drop", texts ["ALL"]); ("add", VList [])].
Definition devices_value (kernel_name : string) : value :=
  VList [VDict [("host", VStr ("/dev/" +:+ kernel_name)); ("container", VStr CONTAINER_SOURCE_PATH); ("mode", VStr "r")]].
Definition tmpfs_value (r : resources) : value :=
  VList [VDict [("path", VStr SCRATCH_TMPFS_PATH); ("options", VStr (tmpfs_options r))]].

(** The specification as a function of what it depends on. *)
Definition launch_spec (runtime kernel_name major_minor : string) (r : resources) : mapping :=
  [("runtime", VStr runtime); ("image", VStr SCANNER_IMAGE); ("entrypoint", VStr SCANNER_ENTRYPOINT);
   ("args", texts SCANNER_ARGS); ("network", VStr "none"); ("capabilities", capabilities_value);
   ("security_options", texts ["no-new-privileges:true"]); ("read_only_rootfs", VBool true); ("user", VStr NON_ROOT_USER);
   ("source_identity", VDict [("kernel_name", VStr kernel_name); ("major_minor", VStr major_minor)]);
   ("devices", devices_value kernel_name); ("mounts", VList []); ("tmpfs", tmpfs_value r);
   ("resources", resources_value r); ("command", texts (command runtime kernel_name r))].

(** hostd/scanner_sandbox.py:24-24 IMAGE_DIGEST_RE: the at sign is outside the class of the name. *)
Definition image_digest (s : string) : bool :=
  match split_at_char "@"%char (chars s) with
  | Some (name, rest) =>
    negb (bool_decide (name = [])) && forallb (fun c => is_lower c || is_digit c || one_of "./_-" c) name
    && bool_decide (take 7 rest = chars "sha256:") && forallb is_hex_lower (drop 7 rest) && (zlen (drop 7 rest) =? 64)
  | None => false
  end.

(** [tuple(v) == names]. *)
Definition tuple_is (v : value) (names : list string) : sandbox bool :=
  match v with
  | VList l => Ok (py_eq v (texts names))
  | VDict d => Ok (bool_decide (d.*1 = names))
  | VStr s => Ok (bool_decide ((fun c => of_chars [c]) <$> chars s = names))
  | VBytes b => Ok (bool_decide (b = []) && bool_decide (names = []))
  | _ => Err SandboxTypeError
  end.

(** hostd/scanner_sandbox.py:141-187 validate_scanner_spec *)
Definition validate_scanner_spec (spec : mapping) : sandbox unit :=
  let get k := get_or_none spec k in
  _ ← refuse_if (negb (keys_are spec SPEC_KEYS)) "scanner specification keys do not match the fixed profile";
  allowed ← match member_of (get "runtime") ALLOWED_RUNTIMES with Some b => Ok b | None => Err SandboxTypeError end;
  _ ← refuse_if (negb allowed) "runtime must be docker or podman";
  _ ← refuse_if (negb (is_text (get "image") SCANNER_IMAGE) || negb (image_digest (py_str (get "image"))))
        "scanner image must be the fixed immutable digest";
  _ ← refuse_if (negb (is_text (get "entrypoint") SCANNER_ENTRYPOINT)) "scanner entrypoint and arguments are fixed";
  fixed ← tuple_is (default (VList []) (dict_get spec "args")) SCANNER_ARGS;
  _ ← refuse_if (negb fixed) "scanner entrypoint and arguments are fixed";
  _ ← refuse_if (negb (is_text (get "network") "none")) "scanner network must be disabled";
  _ ← refuse_if (negb (py_eq (get "capabilities") capabilities_value)) "all capabilities must be dropped and none added";
  _ ← refuse_if (negb (py_eq (get "security_options") (texts ["no-new-privileges:true"]))) "scanner security options are fixed";
  _ ← refuse_if (negb (is_true_value (get "read_only_rootfs"))) "root filesystem must be read-only";
  _ ← refuse_if (negb (is_text (get "user") NON_ROOT_USER)) "scanner must use the fixed non-root read identity";
  identity ← match get "source_identity" with
             | VDict d => Ok d | _ => Err (ScannerSandboxError "scanner source identity is missing") end;
  _ ← refuse_if (negb (keys_are identity ["kernel_name"; "major_minor"])) "source identity keys are invalid";
  let kernel_name := text_field identity "kernel_name" in
  let major_minor := text_field identity "major_minor" in
  _ ← refuse_if (negb (valid_kernel_name kernel_name) || negb (valid_major_minor major_minor)) "source identity is invalid";
  _ ← refuse_if (negb (py_eq (get "devices") (devices_value kernel_name)))
        "scanner must receive exactly the prepared read-only source";
  _ ← refuse_if (negb (is_empty_list (get "mounts"))) "scanner receives no host mounts";
  r ← validated_resources (get "resources");
  _ ← refuse_if (negb (py_eq (get "tmpfs") (tmpfs_value r))) "scanner scratch must be one fixed bounded tmpfs";
  refuse_if (negb (py_eq (get "command") (texts (command (py_str (get "runtime")) kernel_name r))))
    "scanner command does not match the fixed profile".

(** hostd/scanner_sandbox.py:77-112 build_scanner_launch *)
Definition build_scanner_launch (source preparation profile : mapping) (runtime : string) : sandbox mapping :=
  _ ← refuse_if (negb (bool_decide (runtime ∈ ALLOWED_RUNTIMES))) "runtime must be docker or podman";
  '(kernel_name, major_minor) ← source_identity source;
  _ ← validate_read_only_preparation source preparation;
  r ← resources_of profile;
  let spec := launch_spec runtime kernel_name major_minor r in
  _ ← validate_scanner_spec spec;
  Ok spec.

(** hostd/scanner_sandbox.py:309-326 _audit_profile: of a specification that passed the validation. *)
Definition audit_profile (spec identity : mapping) : value :=
  VDict ([("runtime", get_or_none spec "runtime"); ("image", get_or_none spec "image");
          ("entrypoint", get_or_none spec "entrypoint"); ("args", get_or_none spec "args");
          ("network", get_or_none spec "network"); ("capabilities", get_or_none spec "capabilities");
          ("security_options", get_or_none spec "security_options");
          ("read_only_rootfs", get_or_none spec "read_only_rootfs"); ("user", get_or_none spec "user");
          ("source_major_minor", get_or_none identity "major_minor"); ("source_permissions", VStr "read_only");
          ("host_mount_count", VInt 0); ("tmpfs", get_or_none spec "tmpfs"); ("resources", get_or_none spec "resources")]).

(** ** Launching *)

(** What opening a device gives: nothing, or whether it is a block device and its numbers. *)
Record device_stat := { ds_block : bool; ds_major : Z; ds_minor : Z }.

(** hostd/scanner_sandbox.py:342-356 _verify_device_identity: [open_device] is [os.open] and [os.fstat]. *)
Definition verify_device_identity (open_device : string -> option device_stat) (kernel_name major_minor : string) : bool :=
  match open_device ("/dev/" +:+ kernel_name) with
  | None => false
  | Some st => ds_block st && bool_decide ((ds_major st, ds_minor st) = major_minor_key major_minor)
  end.

(** How a runner fails: with an [OSError] or a [SubprocessError], which the launch converts, or
    with another exception. *)
Inductive runner_error := LaunchFails | OtherException (name : string).

Inductive launch_error :=
  | Refused (e : sandbox_error)
  | AuditFailed (e : audit_error)
  | RunnerRaised (name : string).

Section launch.
Context {Process : Type}.

(** The audit log of the launch: its directory, file name, clock and the fault of this append. *)
Record audit_log := { al_directory : directory; al_name : string; al_clock : string; al_fault : write_fault }.

(** hostd/scanner_sandbox.py:115-138 launch_scanner: the result, the audit directory after it and the
    commands that were given to the runner. *)
Definition launch_scanner (source preparation profile : mapping) (log : audit_log) (runtime : string)
    (runner : list string -> result runner_error Process) (verifier : string -> string -> bool)
    : directory * list (list string) * result launch_error Process :=
  let d := al_directory log in
  match build_scanner_launch source preparation profile runtime with
  | Err e => (d, [], Err (Refused e))
  | Ok spec =>
    match get_or_none spec "source_identity" with
    | VDict identity =>
      let kernel_name := py_str (get_or_none identity "kernel_name") in
      let major_minor := py_str (get_or_none identity "major_minor") in
      if negb (verifier kernel_name major_minor)
      then (d, [], Err (Refused (ScannerSandboxError "source identity changed before scanner launch")))
      else
        match append d (al_name log) (al_clock log) "scanner_sandbox_profile" (audit_profile spec identity) (al_fault log) with
        | (d, Err e) => (d, [], Err (AuditFailed e))
        | (d, Ok _) =>
          let argv := match get_or_none spec "command" with VList l => py_str <$> l | _ => [] end in
          (d, [argv], match runner argv with
                      | Ok p => Ok p
                      | Err LaunchFails => Err (Refused (ScannerSandboxError "scanner runtime launch failed"))
                      | Err (OtherException name) => Err (RunnerRaised name)
                      end)
        end
    | _ => (d, [], Err (Refused (ScannerSandboxError "scanner source identity is missing")))
    end
  end.
End launch.

(** ** The preparation, declaratively *)

Definition identity_pair (d : mapping) : string * string := (text_field d "kernel_name", text_field d "major_minor").
Definition valid_identity (p : string * string) : Prop := valid_kernel_name p.1 = true /\ valid_major_minor p.2 = true.

(** The source and its children have distinct valid identities, and every one of them is a target
    the preparation has set and verified read-only; it has no other target. *)
Record prepared (source preparation : mapping) : Prop := {
  pr_flag : get_or_none preparation "prepared" = VBool true;
  pr_source : exists s, get_or_none source "source_id" = VStr s /\ s <> "" /\ get_or_none preparation "source_id" = VStr s;
  pr_blockers : get_or_none preparation "blockers" = VList [];
  pr_targets : exists children targets,
    default (VList []) (dict_get source "children") = VList (VDict <$> children) /\
    get_or_none preparation "targets" = VList (VDict <$> targets) /\
    Forall valid_identity (identity_pair <$> source :: children) /\
    NoDup (identity_pair <$> source :: children) /\
    identity_pair <$> targets ≡ₚ identity_pair <$> source :: children /\
    Forall (fun t => get_or_none t "set_read_only" = VBool true /\ get_or_none t "verified_read_only" = VBool true) targets }.

Lemma refuse_if_ok b m u : refuse_if b m = Ok u <-> b = false.
Proof. apply raise_if_ok. Qed.

Lemma is_true_value_spec v : is_true_value v = true <-> v = VBool true.
Proof. by destruct v as [|[]| | | | |]. Qed.

Lemma is_empty_list_spec v : is_empty_list v = true <-> v = VList [].
Proof. by destruct v as [| | | | |[]|]. Qed.

Lemma bind_refuse {A} b m (k : unit -> sandbox A) a :
  (u ← refuse_if b m; k u) = Ok a <-> b = false /\ k tt = Ok a.
Proof. unfold refuse_if, raise_if. destruct b; cbn; naive_solver. Qed.

Lemma source_identity_spec source p :
  source_identity source = Ok p <-> p = identity_pair source /\ valid_identity p.
Proof.
  unfold source_identity, identity_pair, valid_identity. rewrite !bind_refuse, !negb_false_iff.
  split; [intros (? & ? & [= <-]); done|intros (-> & ? & ?); done].
Qed.

Lemma add_children_spec children targets out :
  add_children children targets = Ok out <->
  exists cs, children = VDict <$> cs /\ out = (targets ++ (identity_pair <$> cs))%list /\
    Forall valid_identity (identity_pair <$> cs) /\ NoDup (identity_pair <$> cs) /\
    (forall x, x ∈ targets -> x ∉ identity_pair <$> cs).
Proof.
  revert targets. induction children as [|v children IH]; intros targets; cbn.
  { split; [intros [= <-]; exists []; rewrite app_nil_r|intros ([|] & [=] & -> & _); by rewrite app_nil_r].
    split_and!; try done; [by constructor|by intros x _ ?%elem_of_nil]. }
  destruct v as [| | | | | |child]; try by (split; [done|intros ([|? ?] & [=] & _)]).
  split.
  - intros (p & (-> & Hp)%source_identity_spec & Hb)%bind_ok. apply bind_refuse in Hb as [Hn%bool_decide_eq_false Hb].
    apply IH in Hb as (cs & -> & -> & Hf & Hnc & Hd). exists (child :: cs).
    split; [done|]. split; [by rewrite <- app_assoc|]. rewrite !fmap_cons.
    assert (Hi : identity_pair child ∉ identity_pair <$> cs).
    { apply Hd. rewrite elem_of_app. right. by left. }
    split_and!; [by constructor|by constructor|].
    intros x Hx [->|Hc]%elem_of_cons; [done|]. apply (Hd x); [|done]. rewrite elem_of_app. by left.
  - intros ([|c cs] & [=] & -> & Hf & Hnd & Hd). subst. rewrite fmap_cons in *.
    apply NoDup_cons in Hnd as [Hi Hnd]. inversion Hf as [|? ? Hp Hf']; subst.
    apply bind_ok. exists (identity_pair c). split; [by apply source_identity_spec|]. apply bind_refuse.
    split.
    + apply bool_decide_eq_false. intros Ht. apply (Hd _ Ht). left.
    + apply IH. exists cs. split; [done|]. split; [by rewrite <- app_assoc|]. split; [done|]. split; [done|].
      intros x [Hx| ->%list_elem_of_singleton]%elem_of_app; [|done]. intros Hc. apply (Hd x Hx). by right.
Qed.

Lemma source_targets_spec source ids :
  source_targets source = Ok ids <->
  exists children, default (VList []) (dict_get source "children") = VList (VDict <$> children) /\
    ids = identity_pair <$> source :: children /\
    Forall valid_identity (identity_pair <$> source :: children) /\ NoDup (identity_pair <$> source :: children).
Proof.
  unfold source_targets. split.
  - intros (root & (-> & Hr)%source_identity_spec & Hb)%bind_ok.
    destruct (default (VList []) (dict_get source "children")) as [| | | | |l|]; try done.
    apply add_children_spec in Hb as (cs & -> & -> & Hf & Hn & Hd). exists cs. split; [done|]. split; [done|].
    rewrite fmap_cons. split; [by constructor|]. constructor; [|done]. apply Hd. left.
  - intros (cs & Hc & -> & Hf & Hn). rewrite fmap_cons in *. inversion Hf as [|? ? Hr Hf']; subst.
    apply NoDup_cons in Hn as [Hi Hn]. apply bind_ok. exists (identity_pair source).
    split; [by apply source_identity_spec|]. rewrite Hc. apply add_children_spec. exists cs. split_and!; try done.
    by intros x ->%list_elem_of_singleton.
Qed.

Lemma observed_targets_spec targets ids :
  observed_targets targets = Ok ids <->
  exists ts, targets = VDict <$> ts /\ ids = identity_pair <$> ts /\
    Forall (fun t => get_or_none t "set_read_only" = VBool true /\ get_or_none t "verified_read_only" = VBool true) ts.
Proof.
  revert ids. induction targets as [|v targets IH]; intros ids; cbn.
  { split; [intros [= <-]; by exists []|by intros ([|] & [=] & -> & _)]. }
  destruct v as [| | | | | |t]; try by (split; [done|intros ([|? ?] & [=] & _)]).
  rewrite bind_refuse, orb_false_iff, !negb_false_iff, !is_true_value_spec. split.
  - intros (Ht & (others & (ts & -> & -> & Hf)%IH & [= <-])%bind_ok). exists (t :: ts). split; [done|]. split; [done|]. by constructor.
  - intros ([|t' ts] & [=] & -> & Hf). subst. inversion Hf as [|? ? Ht Hf']; subst. split; [done|].
    apply bind_ok. exists (identity_pair <$> ts). split; [|done]. apply IH. by exists ts.
Qed.

Lemma same_set_spec a b : same_set a b = true <-> forall x, x ∈ a <-> x ∈ b.
Proof.
  unfold same_set. rewrite andb_true_iff, !forallb_elem. split.
  - intros [Ha Hb] x. split; intros Hx; [specialize (Ha x Hx); by apply bool_decide_eq_true in Ha|].
    specialize (Hb x Hx). by apply bool_decide_eq_true in Hb.
  - intros Hx. split; intros x ?; apply bool_decide_eq_true; by apply Hx.
Qed.

Lemma dedup_from_nodup {A} `{EqDecision A} (seen l : list A) :
  NoDup l -> (forall x, x ∈ l -> x ∉ seen) -> dedup_from seen l = l.
Proof.
  revert seen. induction l as [|x l IH]; intros seen Hn Hs; [done|]. apply NoDup_cons in Hn as [Hx Hn]. cbn.
  rewrite decide_False by (apply Hs; left). f_equal. apply IH; [done|].
  intros y Hy [->|Hz]%elem_of_cons; [done|]. by apply (Hs y); [right|].
Qed.

Lemma dedup_nodup {A} `{EqDecision A} (l : list A) : NoDup l -> dedup l = l.
Proof. intros Hn. apply dedup_from_nodup; [done|]. by intros x _ ?%elem_of_nil. Qed.

Lemma dedup_from_length {A} `{EqDecision A} (seen l : list A) : (length (dedup_from seen l) <= length l)%nat.
Proof. revert seen. induction l as [|x l IH]; intros seen; cbn; [lia|]. case_decide; cbn; [specialize (IH seen)|specialize (IH (x :: seen))]; lia. Qed.

Lemma dedup_from_full {A} `{EqDecision A} (seen l : list A) : length (dedup_from seen l) = length l -> dedup_from seen l = l.
Proof.
  revert seen. induction l as [|x l IH]; intros seen; cbn; [done|]. case_decide; cbn.
  - pose proof (dedup_from_length seen l). lia.
  - intros [= Hl]. f_equal. by apply IH.
Qed.

Lemma dedup_length_nodup {A} `{EqDecision A} (l : list A) : zlen (dedup l) = zlen l <-> NoDup l.
Proof.
  split; [|intros Hn; by rewrite dedup_nodup].
  intros Hl. rewrite <- (dedup_from_full [] l); [apply NoDup_dedup|]. unfold dedup, zlen in Hl. lia.
Qed.

Lemma preparation_spec source preparation u :
  validate_read_only_preparation source preparation = Ok u <-> prepared source preparation.
Proof.
  destruct u. unfold validate_read_only_preparation. rewrite !bind_refuse, !negb_false_iff, is_true_value_spec, is_empty_list_spec.
  transitivity (get_or_none preparation "prepared" = VBool true /\
    (exists s, get_or_none source "source_id" = VStr s /\ s <> "" /\ get_or_none preparation "source_id" = VStr s) /\
    get_or_none preparation "blockers" = VList [] /\
    exists children targets,
    default (VList []) (dict_get source "children") = VList (VDict <$> children) /\
    get_or_none preparation "targets" = VList (VDict <$> targets) /\
    Forall valid_identity (identity_pair <$> source :: children) /\
    NoDup (identity_pair <$> source :: children) /\
    identity_pair <$> targets ≡ₚ identity_pair <$> source :: children /\
    Forall (fun t => get_or_none t "set_read_only" = VBool true /\ get_or_none t "verified_read_only" = VBool true) targets).
  2: { split; [intros (? & ? & ? & ?); by constructor|intros []; done]. }
  apply and_iff_compat_l. f_equiv; [|f_equiv].
  - destruct (get_or_none source "source_id") as [| | |s| | |]; try naive_solver.
    rewrite orb_false_iff, String.eqb_neq, negb_false_iff, is_text_true. naive_solver.
  - split.
    + intros (ids & (cs & Hc & -> & Hf & Hn)%source_targets_spec & Hb)%bind_ok.
      destruct (get_or_none preparation "targets") as [| | | | |ts|]; try done.
      apply bind_refuse in Hb as [_ (obs & (tl & -> & -> & Ht)%observed_targets_spec & Hs)%bind_ok].
      apply refuse_if_ok in Hs. rewrite orb_false_iff, !negb_false_iff, same_set_spec, Z.eqb_eq in Hs. destruct Hs as [Hs Hd].
      exists cs, tl. split_and!; try done. apply NoDup_Permutation; [|done|done].
      apply dedup_length_nodup. unfold zlen in *. by rewrite Hd, !length_fmap.
    + intros (cs & ts & Hc & Ht & Hf & Hn & Hp & Hall). apply bind_ok. exists (identity_pair <$> source :: cs).
      split; [apply source_targets_spec; by exists cs|]. rewrite Ht. apply bind_refuse. split.
      { rewrite negb_false_iff, Z.eqb_eq. apply Permutation_length in Hp. rewrite !length_fmap in Hp.
        unfold zlen. rewrite !length_fmap. lia. }
      apply bind_ok. exists (identity_pair <$> ts). split; [apply observed_targets_spec; by exists ts|].
      apply refuse_if_ok. rewrite orb_false_iff, !negb_false_iff, same_set_spec, Z.eqb_eq. split.
      * intros x. by rewrite Hp.
      * rewrite dedup_nodup by (by rewrite Hp). unfold zlen. by rewrite !length_fmap.
Qed.

(** ** The specification, declaratively *)

Record bounded (r : resources) : Prop := {
  bd_memory : 0 < r_memory r <= 1024 * 1024; bd_pids : 0 < r_pids r <= 4096;
  bd_scratch : 0 < r_scratch r <= 1024 * 1024; bd_cpu : 0 < r_cpu_percent r <= 100 * 1024 }.

Definition profile_of (profile : mapping) (r : resources) : Prop :=
  get_or_none profile "memory_limit_mib" = VInt (r_memory r) /\ get_or_none profile "pids_limit" = VInt (r_pids r) /\
  get_or_none profile "scratch_limit_mib" = VInt (r_scratch r) /\ get_or_none profile "cpu_quota_percent" = VInt (r_cpu_percent r).

Lemma bounded_int_spec v label maximum z :
  bounded_positive_int v label maximum = Ok z <-> v = VInt z /\ 0 < z <= maximum.
Proof.
  unfold bounded_positive_int. destruct v as [| |n| | | |]; try by (split; [done|intros [[=] _]]).
  destruct (Z.leb_spec n 0), (Z.ltb_spec maximum n); cbn; split; intros Hz; try done; destruct_and?; simplify_eq; lia || done.
Qed.

Lemma resources_spec profile r : resources_of profile = Ok r <-> profile_of profile r /\ bounded r.
Proof.
  unfold resources_of, profile_of. split.
  - intros (m & (Hm & ?)%bounded_int_spec & (p & (Hp & ?)%bounded_int_spec & Hb)%bind_ok)%bind_ok.
    apply bind_ok in Hb as (s & (Hs & ?)%bounded_int_spec & (c & (Hc & ?)%bounded_int_spec & [= <-])%bind_ok).
    split; [done|]. by constructor.
  - intros [(Hm & Hp & Hs & Hc) [Bm Bp Bs Bc]]. repeat (apply bind_ok; eexists; split; [by apply bounded_int_spec|]).
    by destruct r.
Qed.

Lemma py_eq_list l k : py_eq (VList l) (VList k) = true <-> Forall2 (fun x y => py_eq x y = true) l k.
Proof.
  revert k. induction l as [|x l IH]; intros [|y k]; cbn; try by (split; [done|inversion 1]).
  rewrite andb_true_iff. cbn in IH. rewrite IH. split; [intros []; by constructor|by inversion 1].
Qed.

Lemma py_eq_refl v : wf_value v -> py_eq v v = true.
Proof.
  induction v as [| | | | |l IH|d IH] using value_ind'; intros Hwf; cbn; try done; try apply Z.eqb_refl; try apply String.eqb_refl.
  - by apply bool_decide_eq_true.
  - apply (py_eq_list l l). apply wf_list_Forall in Hwf. rewrite Forall_lookup in *. apply Forall2_same_length_lookup.
    split; [done|]. intros i x y Hx Hy. simplify_eq. eauto.
  - rewrite Nat.eqb_refl. cbn. apply wf_dict_Forall in Hwf as [Hn Hwf].
    assert (Hsub : forall kv, kv ∈ d -> kv ∈ d) by done. revert Hsub IH Hwf. generalize d at 1 3 4 6 as e.
    induction e as [|[k x] e IHe]; intros Hsub IH Hwf; [done|]. inversion IH as [|? ? Hx IH']; inversion Hwf as [|? ? Wx Wf']; subst.
    apply (dict_get_elem d k x) in Hn as Hg. rewrite (proj2 Hg) by (apply Hsub; left). cbn in Hx. rewrite (Hx Wx). cbn.
    apply IHe; [|done|done]. intros kv Hkv. apply Hsub. by right.
Qed.

Lemma wf_texts l : wf_value (texts l).
Proof. apply wf_list_Forall. rewrite Forall_fmap. by apply Forall_true. Qed.

Lemma py_eq_texts v l : py_eq v (texts l) = true <-> v = texts l.
Proof.
  split; [|intros ->; apply py_eq_refl, wf_texts]. destruct v as [| | | | |k|]; try done.
  unfold texts. rewrite py_eq_list. revert k. induction l as [|s l IH]; intros k Hk; inversion Hk as [|x y k' l' Hx Hr]; subst; [done|].
  apply IH in Hr as [= ->]. destruct x; try done. cbn in Hx. apply String.eqb_eq in Hx as ->. done.
Qed.

Lemma validated_resources_ok r : bounded r -> validated_resources (resources_value r) = Ok r.
Proof.
  intros Hb. unfold validated_resources, resources_value. apply bind_refuse. split; [done|].
  apply bind_ok. exists r. split; [by apply resources_spec|]. apply bind_refuse. split; [|done].
  apply negb_false_iff, is_text_true. done.
Qed.

Lemma launch_spec_valid runtime kernel_name major_minor r :
  runtime ∈ ALLOWED_RUNTIMES -> valid_identity (kernel_name, major_minor) -> bounded r ->
  validate_scanner_spec (launch_spec runtime kernel_name major_minor r) = Ok tt.
Proof.
  intros Hr [Hk Hm] Hb. unfold validate_scanner_spec. apply bind_refuse. split; [done|].
  apply bind_ok. exists true. split; [cbn [get_or_none]; unfold get_or_none; cbn -[ALLOWED_RUNTIMES]; by rewrite bool_decide_eq_true_2|].
  apply bind_refuse. split; [done|]. apply bind_refuse. split; [by vm_compute|]. apply bind_refuse. split; [done|].
  apply bind_ok. exists true. split; [done|].
  do 6 (apply bind_refuse; split; [done|]). apply bind_ok. eexists. split; [reflexivity|].
  apply bind_refuse. split; [done|]. apply bind_refuse. split.
  { apply orb_false_iff. rewrite !negb_false_iff. done. }
  apply bind_refuse. split.
  { apply negb_false_iff. unfold get_or_none. cbn -[py_eq devices_value]. apply py_eq_refl. apply wf_list_Forall. constructor; [|done].
    apply wf_dict_Forall. split; [apply (bool_decide_unpack _); by vm_compute|]. by repeat constructor. }
  apply bind_refuse. split; [done|]. apply bind_ok. exists r. split; [by apply validated_resources_ok|].
  apply bind_refuse. split.
  { apply negb_false_iff. unfold get_or_none. cbn -[py_eq tmpfs_value]. apply py_eq_refl. apply wf_list_Forall. constructor; [|done].
    apply wf_dict_Forall. split; [apply (bool_decide_unpack _); by vm_compute|]. by repeat constructor. }
  apply refuse_if_ok. apply negb_false_iff. unfold get_or_none. cbn -[py_eq texts command]. by apply py_eq_texts.
Qed.

Lemma build_launch_spec source preparation profile runtime spec :
  build_scanner_launch source preparation profile runtime = Ok spec <->
  runtime ∈ ALLOWED_RUNTIMES /\ prepared source preparation /\
  exists r, profile_of profile r /\ bounded r /\
    spec = launch_spec runtime (text_field source "kernel_name") (text_field source "major_minor") r.
Proof.
  unfold build_scanner_launch. rewrite bind_refuse, negb_false_iff, bool_decide_eq_true. split.
  - intros [Hr Hb]. split; [done|]. revert Hb. intros ([k m] & ([= -> ->] & Hv)%source_identity_spec & (u & Hp%preparation_spec & Hb)%bind_ok)%bind_ok.
    apply bind_ok in Hb as (r & [Hpr Hbd]%resources_spec & (u' & _ & [= <-])%bind_ok). split; [done|]. by exists r.
  - intros (Hrt & Hp & r & Hpr & Hbd & ->).
    split; [done|].
    assert (Hv : valid_identity (identity_pair source)).
    { destruct Hp as [_ _ _ (cs & ts & _ & _ & Hf & _)]. rewrite fmap_cons in Hf. by inversion Hf. }
    apply bind_ok. exists (identity_pair source). split; [by apply source_identity_spec|]. unfold identity_pair.
    apply bind_ok. exists tt. split; [by apply preparation_spec|]. apply bind_ok. exists r. split; [by apply resources_spec|].
    apply bind_ok. exists tt. split; [by apply launch_spec_valid|done].
Qed.

(** ** What a launch runs *)

Lemma launch_steps {P} source preparation profile log runtime (runner : list string -> result runner_error P) verifier d ran res :
  launch_scanner source preparation profile log runtime runner verifier = (d, ran, res) ->
  (ran = [] /\ is_ok res = false) \/
  exists r record, runtime ∈ ALLOWED_RUNTIMES /\ prepared source preparation /\ profile_of profile r /\ bounded r /\
    let kernel_name := text_field source "kernel_name" in
    let major_minor := text_field source "major_minor" in
    let spec := launch_spec runtime kernel_name major_minor r in
    verifier kernel_name major_minor = true /\
    append (al_directory log) (al_name log) (al_clock log) "scanner_sandbox_profile"
      (audit_profile spec [("kernel_name", VStr kernel_name); ("major_minor", VStr major_minor)]) (al_fault log) = (d, Ok record) /\
    ran = [command runtime kernel_name r] /\
    (forall p, res = Ok p <-> runner (command runtime kernel_name r) = Ok p).
Proof.
  unfold launch_scanner. destruct (build_scanner_launch source preparation profile runtime) as [spec|e] eqn:Hb.
  2: { intros [= <- <- <-]. by left. }
  apply build_launch_spec in Hb as (Hr & Hp & r & Hpr & Hbd & ->).
  set (k := text_field source "kernel_name"). set (m := text_field source "major_minor").
  change (get_or_none (launch_spec runtime k m r) "source_identity") with (VDict [("kernel_name", VStr k); ("major_minor", VStr m)]).
  change (get_or_none (launch_spec runtime k m r) "command") with (texts (command runtime k r)).
  cbv beta iota zeta. change (py_str (get_or_none [("kernel_name", VStr k); ("major_minor", VStr m)] "kernel_name")) with k.
  change (py_str (get_or_none [("kernel_name", VStr k); ("major_minor", VStr m)] "major_minor")) with m.
  destruct (verifier k m) eqn:Hv; cbn [negb]; [|intros [= <- <- <-]; by left].
  destruct (append _ _ _ _ _ _) as [d' [record|e]] eqn:Ha; [|intros [= <- <- <-]; by left].
  assert (Hargv : py_str <$> (VStr <$> command runtime k r) = command runtime k r).
  { rewrite <- list_fmap_compose. apply list_fmap_id. }
  unfold texts. rewrite Hargv. intros [= <- <- <-]. right. exists r, record. split_and!; try done.
  intros p. destruct (runner (command runtime k r)) as [q|[|n]]; naive_solver.
Qed.

(** Options that would widen what the container reaches. *)
Definition WIDENING_OPTIONS : list string :=
  ["--privileged"; "--volume"; "-v"; "--mount"; "--cap-add"; "--publish"; "-p"; "--env"; "-e"; "--ipc"; "--pid="; "--uts";
   "--userns"; "--group-add"; "--device-cgroup-rule"; "--gpus"; "--add-host"; "--network=h"].

(** A command line that confines the scanner to one device, opened for reading. *)
Record confined (kernel_name : string) (argv : list string) : Prop := {
  cf_device : exists mapping, filter_b (starts_with "--device") argv = ["--device=" +:+ mapping] /\
    partition_char ":" mapping = Some ("/dev/" +:+ kernel_name, "/dev/reperio-source:r");
  cf_one_device : char_in "/" kernel_name = false;
  cf_isolation : forall option, option ∈ ["--network=none"; "--cap-drop=ALL"; "--security-opt=no-new-privileges:true";
                                          "--read-only"; "--user=65532:6"] -> option ∈ argv;
  cf_not_widened : forall option argument, option ∈ WIDENING_OPTIONS -> argument ∈ argv -> starts_with option argument = false;
  cf_program : exists options, argv = (options ++ [SCANNER_IMAGE; "-m"; "scanner"])%list }.

Lemma kernel_name_chars k c : valid_kernel_name k = true -> c ∈ chars k -> is_alnum c || one_of "._+-" c = true.
Proof.
  unfold valid_kernel_name, bounded_word. intros [Hb _]%andb_true_iff Hc. destruct (chars k) as [|x l]; [done|].
  rewrite !andb_true_iff in Hb. destruct Hb as [[Hx Hl] _]. apply elem_of_cons in Hc as [->|Hc]; [by rewrite Hx|].
  rewrite forallb_elem in Hl. by apply Hl.
Qed.

Lemma kernel_name_without k c : valid_kernel_name k = true -> is_alnum c || one_of "._+-" c = false -> c ∉ chars k.
Proof. intros Hk Hc Hi. rewrite (kernel_name_chars k c Hk Hi) in Hc. done. Qed.

Lemma command_confined runtime kernel_name r :
  runtime ∈ ALLOWED_RUNTIMES -> valid_kernel_name kernel_name = true -> confined kernel_name (command runtime kernel_name r).
Proof.
  intros Hr Hk. assert (Hrt : runtime = "docker" \/ runtime = "podman") by (unfold ALLOWED_RUNTIMES in Hr; set_solver).
  constructor.
  - exists ("/dev/" +:+ kernel_name +:+ ":" +:+ CONTAINER_SOURCE_PATH +:+ ":r"). split.
    + destruct Hrt as [-> | ->]; reflexivity.
    + unfold partition_char. rewrite !chars_app.
      change (chars ":" ++ chars CONTAINER_SOURCE_PATH ++ chars ":r")%list with (":"%char :: chars "/dev/reperio-source:r").
      rewrite app_assoc, split_at_char_app.
      * by rewrite of_chars_app, !of_chars_chars.
      * rewrite elem_of_app. intros [Hd|Hd]; [|by apply (kernel_name_without kernel_name ":"%char) in Hd].
        revert Hd. apply (bool_decide_unpack _). by vm_compute.
  - apply not_true_is_false. unfold char_in. rewrite existsb_elem. intros (c & Hc & <-%Ascii.eqb_eq).
    by apply (kernel_name_without kernel_name "/"%char) in Hc.
  - intros option Ho. unfold command. rewrite !elem_of_cons, elem_of_nil in *. change ("--user=" +:+ NON_ROOT_USER) with "--user=65532:6".
    tauto.
  - assert (Hall : forallb (fun o => forallb (fun a => negb (starts_with o a)) (command runtime kernel_name r)) WIDENING_OPTIONS = true)
      by (destruct Hrt as [-> | ->]; reflexivity).
    intros option argument Ho Ha. rewrite forallb_elem in Hall. specialize (Hall option Ho). cbv beta in Hall.
    rewrite forallb_elem in Hall. by apply negb_true_iff, (Hall argument Ha).
  - unfold command. by exists [runtime; "run"; "--rm"; "--pull=never"; "--network=none"; "--cap-drop=ALL"; "--security-opt=no-new-privileges:true";
   "--read-only"; "--log-driver=none"; "--user=" +:+ NON_ROOT_USER;
   "--device=" +:+ "/dev/" +:+ kernel_name +:+ ":" +:+ CONTAINER_SOURCE_PATH +:+ ":r";
   "--tmpfs=" +:+ SCRATCH_TMPFS_PATH +:+ ":" +:+ tmpfs_options r; "--workdir=" +:+ SCRATCH_TMPFS_PATH;
   "--pids-limit=" +:+ str_of_Z (r_pids r); "--memory=" +:+ str_of_Z (r_memory r) +:+ "m";
   "--cpus=" +:+ format_cpus (r_cpu_percent r); "--entrypoint"; SCANNER_ENTRYPOINT].
Qed.

(** C13. Whatever a launch gives to the runner is one command that confines the scanner: a single
    device opened for reading, no network, no capability, a read-only root and no widening option.
    By then every target of the source had been verified read-only, the resources are bounded, the
    device was found to be the prepared one and the profile was appended to the audit log; the
    launch succeeds exactly with what the runner returns for that command. *)
Theorem launch_confined {P} source preparation profile log runtime (runner : list string -> result runner_error P) verifier d ran res :
  launch_scanner source preparation profile log runtime runner verifier = (d, ran, res) ->
  is_ok res = true \/ ran <> [] ->
  exists r record,
    let kernel_name := text_field source "kernel_name" in
    let major_minor := text_field source "major_minor" in
    let argv := command runtime kernel_name r in
    ran = [argv] /\ confined kernel_name argv /\ (forall p, res = Ok p <-> runner argv = Ok p) /\
    prepared source preparation /\ bounded r /\ verifier kernel_name major_minor = true /\
    append (al_directory log) (al_name log) (al_clock log) "scanner_sandbox_profile"
      (audit_profile (launch_spec runtime kernel_name major_minor r)
         [("kernel_name", VStr kernel_name); ("major_minor", VStr major_minor)]) (al_fault log) = (d, Ok record).
Proof.
  intros [[-> Hf]|(r & record & Hr & Hp & _ & Hb & Hv & Ha & -> & Hres)]%launch_steps Hran.
  { destruct Hran as [Ho|Hn]; [congruence|done]. }
  exists r, record. cbv zeta. split_and!; try done. apply command_confined; [done|].
  destruct Hp as [_ _ _ (cs & ts & _ & _ & Hid & _)]. rewrite fmap_cons in Hid. inversion Hid as [|? ? [Hk _] _]; subst. exact Hk.
Qed.

(** The builder accepts exactly a runtime that is allowed, a source prepared read-only with all
    its children, and a bounded resource profile, and the specification is then a fixed function of
    them: the validation at its end never refuses what was built. *)
Theorem build_launch_exact source preparation profile runtime spec :
  build_scanner_launch source preparation profile runtime = Ok spec <->
  runtime ∈ ALLOWED_RUNTIMES /\ prepared source preparation /\
  exists r, profile_of profile r /\ bounded r /\
    spec = launch_spec runtime (text_field source "kernel_name") (text_field source "major_minor") r.
Proof. apply build_launch_spec. Qed.

(** The validation by itself confines: a specification from elsewhere that passes holds the fixed
    command for the device it names, with bounded resources. *)
Lemma validated_spec_confined spec u :
  validate_scanner_spec spec = Ok u ->
  exists runtime kernel_name r, get_or_none spec "runtime" = VStr runtime /\ runtime ∈ ALLOWED_RUNTIMES /\ bounded r /\
    get_or_none spec "command" = texts (command runtime kernel_name r) /\ confined kernel_name (command runtime kernel_name r) /\
    get_or_none spec "network" = VStr "none" /\ get_or_none spec "mounts" = VList [] /\
    get_or_none spec "read_only_rootfs" = VBool true /\ get_or_none spec "user" = VStr NON_ROOT_USER.
Proof.
  unfold validate_scanner_spec. rewrite bind_refuse. intros [_ (allowed & Ha & Hb)%bind_ok].
  rewrite !bind_refuse in Hb. destruct Hb as (Hal%negb_false_iff & _ & _ & Hb).
  apply bind_ok in Hb as (fixed & _ & Hb). rewrite !bind_refuse in Hb.
  destruct Hb as (_ & Hnet & _ & _ & Hro & Hu & Hb). apply bind_ok in Hb as (identity & _ & Hb). rewrite !bind_refuse in Hb.
  destruct Hb as (_ & Hid & _ & Hm & Hb). apply bind_ok in Hb as (r & Hr & Hb). rewrite bind_refuse in Hb.
  destruct Hb as [_ Hc%refuse_if_ok].
  rewrite negb_false_iff in *. rewrite orb_false_iff, !negb_false_iff in Hid. destruct Hid as [Hk _].
  rewrite is_text_true in *. apply is_true_value_spec in Hro. apply is_empty_list_spec in Hm. apply py_eq_texts in Hc.
  assert (Hrt : exists s, get_or_none spec "runtime" = VStr s /\ s ∈ ALLOWED_RUNTIMES).
  { rewrite Hal in Ha. destruct (get_or_none spec "runtime") as [| | |s| | |]; try done. cbn -[ALLOWED_RUNTIMES] in Ha.
    injection Ha as Ha. apply bool_decide_eq_true in Ha. by exists s. }
  destruct Hrt as (s & Hs & Hin). rewrite Hs in Hc. cbn [py_str] in Hc. exists s, (text_field identity "kernel_name"), r.
  split_and!; try done; [|by apply command_confined].
  unfold validated_resources in Hr. destruct (get_or_none spec "resources"); try done.
  apply bind_refuse in Hr as [_ (r' & [_ Hbd]%resources_spec & Hr)%bind_ok]. apply bind_refuse in Hr as [_ [= <-]]. done.
Qed.

(** ** Examples *)

Definition demo_target (kernel_name major_minor : string) : mapping :=
  [("kernel_name", VStr kernel_name); ("major_minor", VStr major_minor); ("set_read_only", VBool true); ("verified_read_only", VBool true)].
Definition demo_source : mapping :=
  [("source_id", VStr "source_1"); ("kernel_name", VStr "sdb"); ("major_minor", VStr "8:16");
   ("children", VList [VDict [("kernel_name", VStr "sdb1"); ("major_minor", VStr "8:17")]])].
Definition demo_preparation : mapping :=
  [("prepared", VBool true); ("source_id", VStr "source_1"); ("blockers", VList []);
   ("targets", VList [VDict (demo_target "sdb1" "8:17"); VDict (demo_target "sdb" "8:16")])].
Definition demo_profile : mapping :=
  [("memory_limit_mib", VInt 512); ("pids_limit", VInt 64); ("scratch_limit_mib", VInt 1024); ("cpu_quota_percent", VInt 150)].
Definition demo_log : audit_log := {| al_directory := ∅; al_name := "audit.jsonl"; al_clock := "2026-01-01T00:00:00Z"; al_fault := NoFault |}.
Definition demo_runner (argv : list string) : result runner_error Z := Ok (zlen argv).
Definition demo_launch : directory * list (list string) * result launch_error Z :=
  launch_scanner demo_source demo_preparation demo_profile demo_log "podman" demo_runner (fun _ _ => true).

Example demo_cpus : format_cpus <$> [1; 50; 100; 150; 125; 1000; 102400] = ["0.01"; "0.5"; "1"; "1.5"; "1.25"; "10"; "1024"].
Proof. vm_compute. reflexivity. Qed.

Example demo_launched : snd demo_launch = Ok 21.
Proof. vm_compute. reflexivity. Qed.

(** A kernel name that is null passes as the text None. *)
Example null_kernel_name_accepted : source_identity [("kernel_name", VNone); ("major_minor", VStr "8:16")] = Ok ("None", "8:16").
Proof. vm_compute. reflexivity. Qed.

Lemma launch_confined_witness :
  exists d ran, demo_launch = (d, ran, Ok 21) /\ exists r,
    ran = [command "podman" "sdb" r] /\ confined "sdb" (command "podman" "sdb" r) /\ d !! "audit.jsonl" <> None.
Proof.
  destruct demo_launch as [[d ran] res] eqn:Hl.
  assert (Hres : res = Ok 21) by (change res with (snd (d, ran, res)); rewrite <- Hl; vm_compute; reflexivity).
  subst res. exists d, ran. split; [done|].
  destruct (launch_confined demo_source demo_preparation demo_profile demo_log "podman" demo_runner (fun _ _ => true) d ran (Ok 21) Hl
              (or_introl eq_refl)) as (r & record & Hran & Hc & _).
  exists r. split; [exact Hran|]. split; [exact Hc|].
  assert (Hd : d = fst (fst demo_launch)) by (by rewrite Hl). rewrite Hd. vm_compute. done.
Defined.
