(* ===== verification/Fingerprint.v ===== *)
(** * Sampled fingerprints of a source (src/hostd/fingerprint.py)

    The plan of the samples, the reading of a sample with its statuses, and the fingerprint over
    the facts and the digests.  The theorems: the plan stays inside the source, its ranges are
    disjoint and never cover the whole of it, and equal fingerprints of two sources mean equal
    facts and equal sampled bytes, or two of the very messages that were hashed collide. *)

From Stdlib Require Import ZArith Lia String Ascii Sorted.
From stdpp Require Import base list strings gmap sorting.
From S2P Require Import Prelude PyStr Json Identifiers Messages Sha256.

Local Open Scope string_scope.
Local Open Scope Z_scope.

Abbreviation mapping := (list (string * value)).

(** hostd/fingerprint.py:16-16 FINGERPRINT_SCHEMA_VERSION *)
Definition FINGERPRINT_SCHEMA_VERSION : Z := 2.
(** hostd/fingerprint.py:17-17 FINGERPRINT_ALGORITHM *)
Definition FINGERPRINT_ALGORITHM : string := "reperio-sampled-sector-sha256-v2".
(** hostd/fingerprint.py:18-18 DEFAULT_SECTOR_SIZE *)
Definition DEFAULT_SECTOR_SIZE : Z := 512.
(** hostd/fingerprint.py:19-19 MAX_SAMPLES *)
Definition MAX_SAMPLES : nat := 3.
(** hostd/fingerprint.py:20-20 MAX_SECTOR_SIZE *)
Definition MAX_SECTOR_SIZE : Z := 16 * 1024 * 1024.

(** A [ValueError] of the module, the [OSError] of opening the path, or the [TypeError] of a fact
    that JSON does not represent. *)
Inductive fingerprint_error := FingerprintValueError (message : string) | OpenError (name : string) | FingerprintTypeError.
Abbreviation printed := (result fingerprint_error).

(** What a read gives: bytes, an [OSError] with the name of its class, or something else. *)
Inductive read_outcome := ReadBytes (data : bytes) | ReadOSError (name : string) | ReadOther.

(** ** The plan *)

(** hostd/fingerprint.py:172-178 _validate_dimensions *)
Definition validate_dimensions (size_bytes sector_size : value) : printed (Z * Z) :=
  match size_bytes with
  | VInt size =>
    _ ← raise_if (size <? 0) (FingerprintValueError "size_bytes must be a non-negative integer");
    match sector_size with
    | VInt sector =>
      _ ← raise_if (sector <=? 0) (FingerprintValueError "sector_size must be a positive integer");
      _ ← raise_if (MAX_SECTOR_SIZE <? sector) (FingerprintValueError "sector_size exceeds the supported bound");
      Ok (size, sector)
    | _ => Err (FingerprintValueError "sector_size must be a positive integer")
    end
  | _ => Err (FingerprintValueError "size_bytes must be a non-negative integer")
  end.

(** [sorted({...})\[:MAX_SAMPLES\]]. *)
Definition sector_indexes (sector_count : Z) : list Z :=
  take MAX_SAMPLES (merge_sort Z.le (dedup [0; sector_count / 2; sector_count - 1])).

(** The loop over the sectors. *)
Fixpoint plan_from (size sector : Z) (indexes : list Z) (sampled : Z) : list (Z * Z) :=
  match indexes with
  | [] => []
  | index :: rest =>
    let offset := index * sector in
    let length := Z.min sector (Z.max 0 (size - offset)) in
    if (0 <? length) && (sampled + length <? size)
    then (offset, length) :: plan_from size sector rest (sampled + length)
    else plan_from size sector rest sampled
  end.

(** hostd/fingerprint.py:88-103 sample_plan: the ranges for valid dimensions. *)
Definition plan_of (size sector : Z) : list (Z * Z) :=
  if size =? 0 then [] else plan_from size sector (sector_indexes ((size + sector - 1) / sector)) 0.

(** hostd/fingerprint.py:88-103 sample_plan *)
Definition sample_plan (size_bytes sector_size : value) : printed (list (Z * Z)) :=
  '(size, sector) ← validate_dimensions size_bytes sector_size; Ok (plan_of size sector).

(** ** Samples *)

(** hostd/fingerprint.py:106-138 _read_sample *)
Definition read_sample (read_at : Z -> Z -> read_outcome) (offset length : Z) : mapping :=
  let base status := [("offset", VInt offset); ("length", VInt length); ("status", VStr status)] in
  match read_at offset length with
  | ReadOSError name => (base "unreadable" ++ [("error", VStr name)])%list
  | ReadOther => base "invalid_read_result"
  | ReadBytes data =>
    if length <? zlen data then (base "overlong" ++ [("read_length", VInt (zlen data))])%list
    else if negb (zlen data =? length)
    then (base "truncated" ++ [("read_length", VInt (zlen data)); ("sha256", VStr (sha256_hex data))])%list
    else (base "ok" ++ [("sha256", VStr (sha256_hex data))])%list
  end.

Definition FACT_KEYS : list string :=
  ["source_id"; "identity_strength"; "by_id_name"; "vendor"; "model"; "serial"; "wwn"; "transport"; "device_type";
   "physical_block_size"; "removable"].

(** hostd/fingerprint.py:141-163 _immutable_facts: [canon] of [Json] is [_normalize], which sorts the
    keys of every dictionary. *)
Definition immutable_facts (identity_facts : mapping) (size sector : Z) : value :=
  let facts := omap (fun key => (fun v => (key, v)) <$> dict_get identity_facts key) FACT_KEYS in
  canon (VDict (facts ++ [("size_bytes", VInt size); ("logical_block_size", VInt sector)])%list).

(** hostd/fingerprint.py:181-185 _digest *)
Definition digest_of (v : value) : printed string :=
  match dumps (canon v) with Some text => Ok (sha256_hex (utf8 text)) | None => Err FingerprintTypeError end.

(** The dictionary of the result; its constant fields are left out. *)
Record fingerprint := {
  fp_size_bytes : Z; fp_sector_size : Z; fp_complete : bool; fp_samples : list mapping; fp_facts : value;
  fp_hash : option string }.

Definition sample_ok (sample : mapping) : bool := is_text (get_or_none sample "status") "ok".

(** What is hashed. *)
Definition hashed (facts : value) (samples : list mapping) : value :=
  VDict [("algorithm", VStr FINGERPRINT_ALGORITHM); ("facts", facts); ("samples", VList (VDict <$> samples))].

(** hostd/fingerprint.py:47-85 fingerprint_from_reader *)
Definition fingerprint_from_reader (read_at : Z -> Z -> read_outcome) (size_bytes sector_size : value) (identity_facts : mapping)
    : printed fingerprint :=
  '(size, sector) ← validate_dimensions size_bytes sector_size;
  plan ← sample_plan size_bytes sector_size;
  let samples := (fun '(offset, length) => read_sample read_at offset length) <$> plan in
  let facts := immutable_facts identity_facts size sector in
  let complete := negb (bool_decide (samples = [])) && forallb sample_ok samples in
  hash ← (if complete then h ← digest_of (hashed facts samples); Ok (Some h) else Ok None);
  Ok {| fp_size_bytes := size; fp_sector_size := sector; fp_complete := complete; fp_samples := samples;
        fp_facts := facts; fp_hash := hash |}.

(** hostd/fingerprint.py:166-169 _positive_int *)
Definition positive_number (v : value) (label : string) : printed Z :=
  match v with
  | VInt z => if z <=? 0 then Err (FingerprintValueError (label +:+ " must be a positive integer")) else Ok z
  | _ => Err (FingerprintValueError (label +:+ " must be a positive integer"))
  end.

(** hostd/fingerprint.py:25-44 fingerprint_path: [opened] is the outcome of [os.open], and then the
    reads of [os.pread]. *)
Definition fingerprint_path (opened : result string (Z -> Z -> read_outcome)) (identity_facts : mapping) : printed fingerprint :=
  size ← positive_number (get_or_none identity_facts "size_bytes") "size_bytes";
  sector ← positive_number (default (VInt DEFAULT_SECTOR_SIZE) (dict_get identity_facts "logical_block_size")) "logical_block_size";
  match opened with
  | Err name => Err (OpenError name)
  | Ok read_at => fingerprint_from_reader read_at (VInt size) (VInt sector) identity_facts
  end.

(** ** The plan stays inside the source *)

Lemma indexes_cases n :
  1 <= n -> sector_indexes n = if n =? 1 then [0] else if n =? 2 then [0; 1] else [0; n / 2; n - 1].
Proof.
  intros Hn. unfold sector_indexes. destruct (Z.eqb_spec n 1) as [->|H1]; [by vm_compute|].
  destruct (Z.eqb_spec n 2) as [->|H2]; [by vm_compute|].
  assert (0 < n / 2 < n - 1).
  { pose proof (Z.div_mod n 2 ltac:(lia)). pose proof (Z.mod_pos_bound n 2 ltac:(lia)). lia. }
  assert (Hd : dedup [0; n / 2; n - 1] = [0; n / 2; n - 1]).
  { unfold dedup. cbn. rewrite !decide_False; [done|..]; rewrite ?elem_of_cons, elem_of_nil; lia. }
  rewrite Hd. change MAX_SAMPLES with (length [0; n / 2; n - 1]).
  assert (Hs : merge_sort Z.le [0; n / 2; n - 1] = [0; n / 2; n - 1]).
  { apply (StronglySorted_unique Z.le); [apply StronglySorted_merge_sort; apply _|..|apply merge_sort_Permutation].
    repeat constructor; lia. }
  rewrite Hs. by rewrite take_ge.
Qed.

(** The ranges are in order, inside the source, and leave some of it unread. *)
Lemma plan_from_inside size sector indexes sampled low :
  0 < sector -> StronglySorted Z.lt indexes -> Forall (fun i => low <= i * sector) indexes -> 0 <= low -> sampled <= size ->
  let plan := plan_from size sector indexes sampled in
  Forall (fun '(o, n) => low <= o /\ 0 < n <= sector /\ o + n <= size /\ o mod sector = 0) plan /\
  StronglySorted (fun '(o, n) '(o', _) => o + n <= o') plan /\
  (plan <> [] -> sampled + zsum (snd <$> plan) < size).
Proof.
  intros Hs. revert sampled low. induction indexes as [|i rest IH]; intros sampled low Hsort Hlow Hl Hsam; cbn.
  { split; [constructor|]. split; [constructor|done]. }
  apply StronglySorted_inv in Hsort as [Hsort Hi]. inversion Hlow as [|? ? Hli Hlow']; subst.
  set (n := Z.min sector (Z.max 0 (size - i * sector))).
  destruct ((0 <? n) && (sampled + n <? size)) eqn:E.
  - apply andb_true_iff in E as [E1%Z.ltb_lt E2%Z.ltb_lt].
    destruct (IH (sampled + n) (i * sector + n)) as (Hf & Hss & Hz); try lia; [done|..].
    { apply Forall_forall. intros j Hj. rewrite Forall_forall in Hi. specialize (Hi j Hj). nia. }
    split; [|split].
    + constructor; [split; [done|]; split; [lia|]; split; [lia|by apply Z.mod_mul; lia]|].
      eapply Forall_impl; [exact Hf|]. intros [o m]. lia.
    + constructor; [done|]. eapply Forall_impl; [exact Hf|]. intros [o m]. lia.
    + intros _. rewrite fmap_cons. cbn. destruct (plan_from size sector rest (sampled + n)) as [|p l] eqn:Ep; cbn in *; [lia|].
      assert (Hne : p :: l <> []) by done. specialize (Hz Hne). lia.
  - by apply IH.
Qed.

Lemma indexes_sorted n : 1 <= n -> StronglySorted Z.lt (sector_indexes n) /\ Forall (fun i => 0 <= i) (sector_indexes n).
Proof.
  intros Hn. rewrite indexes_cases by done. destruct (Z.eqb_spec n 1); [by repeat constructor|]. destruct (Z.eqb_spec n 2); [repeat constructor; lia|].
  assert (0 < n / 2 < n - 1).
  { pose proof (Z.div_mod n 2 ltac:(lia)). pose proof (Z.mod_pos_bound n 2 ltac:(lia)). lia. }
  repeat constructor; lia.
Qed.

Lemma sector_count_pos size sector : 0 < size -> 0 < sector -> 1 <= (size + sector - 1) / sector.
Proof. intros. apply Z.div_le_lower_bound; lia. Qed.

Lemma plan_inside size sector :
  0 <= size -> 0 < sector ->
  Forall (fun '(o, n) => 0 <= o /\ 0 < n <= sector /\ o + n <= size /\ o mod sector = 0) (plan_of size sector) /\
  StronglySorted (fun '(o, n) '(o', _) => o + n <= o') (plan_of size sector) /\
  (plan_of size sector <> [] -> zsum (snd <$> plan_of size sector) < size).
Proof.
  intros Hs Hc. unfold plan_of. destruct (Z.eqb_spec size 0); [by repeat constructor|].
  destruct (indexes_sorted ((size + sector - 1) / sector)) as [Hi Hf]; [apply sector_count_pos; lia|].
  pose proof (plan_from_inside size sector (sector_indexes ((size + sector - 1) / sector)) 0 0) as Hp. cbn zeta in Hp.
  apply Hp; try lia; [done|]. eapply Forall_impl; [exact Hf|]. intros i Hi'. cbv beta in *. nia.
Qed.

(** A source of more than three sectors is sampled at its first, middle and last sector. *)
Lemma plan_of_large size sector :
  0 < sector -> 3 * sector < size ->
  let n := (size + sector - 1) / sector in
  plan_of size sector = [(0, sector); (n / 2 * sector, sector); ((n - 1) * sector, size - (n - 1) * sector)].
Proof.
  intros Hs Hl n. unfold plan_of. rewrite (proj2 (Z.eqb_neq size 0)) by lia. fold n.
  pose proof (Z.div_mod (size + sector - 1) sector ltac:(lia)). pose proof (Z.mod_pos_bound (size + sector - 1) sector ltac:(lia)).
  fold n in H. assert (4 <= n) by nia. pose proof (Z.div_mod n 2 ltac:(lia)). pose proof (Z.mod_pos_bound n 2 ltac:(lia)).
  rewrite indexes_cases by lia. rewrite !(proj2 (Z.eqb_neq n _)) by lia. cbn [plan_from].
  assert (Hm : n / 2 * sector + sector <= size) by nia. assert (Hr : 0 < size - (n - 1) * sector <= sector) by nia.
  rewrite !Z.mul_0_l, Z.sub_0_r. rewrite !(Z.max_r 0) by nia. rewrite (Z.min_l sector size) by lia.
  rewrite (Z.min_l sector (size - n / 2 * sector)) by nia. rewrite (Z.min_r sector (size - (n - 1) * sector)) by lia.
  repeat (match goal with |- context [(?a <? ?b)] => rewrite (proj2 (Z.ltb_lt a b)) by lia end; cbn [andb]).
  done.
Qed.

(** A source of at most one sector has no sample, so its fingerprint is never complete. *)
Lemma plan_of_small size sector : 0 <= size <= sector -> 0 < sector -> plan_of size sector = [].
Proof.
  intros Hs Hc. destruct (Z.eqb_spec size 0) as [->|Hn]; [done|].
  destruct (plan_of size sector) as [|[o n] l] eqn:E; [done|]. exfalso.
  unfold plan_of in E. rewrite (proj2 (Z.eqb_neq size 0)) in E by lia.
  assert (H1 : (size + sector - 1) / sector = 1).
  { symmetry. apply (Z.div_unique _ _ _ (size - 1)); lia. }
  rewrite H1, indexes_cases in E by lia. cbn in E. rewrite Z.sub_0_r, Z.max_r, Z.min_r in E by lia.
  rewrite Z.ltb_irrefl, andb_false_r in E. done.
Qed.

(** ** Equal fingerprints *)

(** The bytes [digest_of] hashes. *)
Definition digest_message (v : value) : bytes := utf8 (default "" (dumps (canon v))).

Lemma digest_of_inj v w h :
  wf_value v -> wf_value w -> digest_of v = Ok h -> digest_of w = Ok h ->
  canon v = canon w \/ collision (digest_message v) (digest_message w).
Proof.
  unfold digest_of, digest_message. intros Hv Hw H1 H2. destruct (dumps (canon v)) as [t|] eqn:E1; [|done]. destruct (dumps (canon w)) as [u|] eqn:E2; [|done].
  destruct (decide (t = u)) as [->|Hne].
  - left. pose proof (dumps_inj _ _ _ (wf_canon _ Hv) (wf_canon _ Hw) E1 E2) as He. by rewrite !canon_canon in He.
  - right. cbn [from_option id]. split; [by intros ?%utf8_inj|congruence].
Qed.

Definition facts_dict (identity_facts : mapping) (size sector : Z) : mapping :=
  (omap (fun key => (fun v => (key, v)) <$> dict_get identity_facts key) FACT_KEYS
   ++ [("size_bytes", VInt size); ("logical_block_size", VInt sector)])%list.

Lemma picked_keys (d : mapping) keys :
  (omap (fun key => (fun v => (key, v)) <$> dict_get d key) keys).*1 `sublist_of` keys.
Proof. induction keys as [|k keys IH]; cbn; [done|]. destruct (dict_get d k); cbn; by constructor. Qed.

Lemma facts_wf facts size sector : wf_value (VDict facts) -> wf_value (VDict (facts_dict facts size sector)).
Proof.
  intros [Hn Hf]%wf_dict_Forall. apply wf_dict_Forall. unfold facts_dict. split.
  - rewrite fmap_app. apply (sublist_NoDup _ (FACT_KEYS ++ ["size_bytes"; "logical_block_size"])).
    + apply (bool_decide_unpack _). by vm_compute.
    + apply sublist_app; [apply picked_keys|done].
  - apply Forall_app. split; [|by repeat constructor]. apply Forall_forall. intros [k v] (key & Hk & Hv)%list_elem_of_omap.
    destruct (dict_get facts key) as [w|] eqn:E; [|done]. injection Hv as <- <-. apply dict_get_elem in E; [|done].
    rewrite Forall_forall in Hf. apply (Hf _ E).
Qed.

Lemma facts_number facts size sector key z :
  (key, z) ∈ [("size_bytes", size); ("logical_block_size", sector)] ->
  get_or_none (facts_dict facts size sector) key = VInt z.
Proof.
  intros Hk. unfold get_or_none, facts_dict.
  assert (Hd : forall l : mapping, key ∉ l.*1 -> dict_get (l ++ [("size_bytes", VInt size); ("logical_block_size", VInt sector)])%list key = Some (VInt z)).
  { intros l Hl. induction l as [|[k v] l IH]; cbn.
    - rewrite !elem_of_cons, elem_of_nil in Hk. destruct Hk as [[= -> ->]|[[= -> ->]|[]]]; done.
    - cbn in Hl. rewrite not_elem_of_cons in Hl. destruct Hl as [Hne Hl].
      destruct (String.eqb_spec key k) as [->|]; [done|]. by apply IH. }
  rewrite Hd; [done|]. intros Hi. pose proof (sublist_subseteq _ _ (picked_keys facts FACT_KEYS) _ Hi) as Hi'. clear Hi.
  rewrite !elem_of_cons, elem_of_nil in Hk. revert Hi'. destruct Hk as [[= -> _]|[[= -> _]|[]]]; apply (bool_decide_unpack _); by vm_compute.
Qed.

Lemma picked_get (d : mapping) keys rest key :
  key ∈ keys -> key ∉ rest.*1 ->
  dict_get (omap (fun key => (fun v => (key, v)) <$> dict_get d key) keys ++ rest)%list key = dict_get d key.
Proof.
  intros Hk Hr. induction keys as [|k keys IH]; [by apply elem_of_nil in Hk|]. cbn.
  destruct (decide (key ∈ keys)) as [Hin|Hni].
  - destruct (dict_get d k) as [v|] eqn:E; cbn; [|by apply IH].
    destruct (String.eqb_spec key k) as [->|]; [done|by apply IH].
  - apply elem_of_cons in Hk as [->|]; [|done]. destruct (dict_get d k) as [v|] eqn:E; cbn; [by rewrite String.eqb_refl|].
    destruct (dict_get (_ ++ rest)%list k) as [w|] eqn:Ew; [|done]. exfalso.
    assert (Hd : k ∈ (omap (fun key => (fun v => (key, v)) <$> dict_get d key) keys ++ rest)%list.*1).
    { revert Ew. generalize (omap (fun key => (fun v => (key, v)) <$> dict_get d key) keys ++ rest)%list. clear.
      intros l. induction l as [|[x y] l IH]; cbn; [done|]. destruct (String.eqb_spec k x) as [->|]; [by left|]. intros ?. right. by apply IH. }
    rewrite fmap_app, elem_of_app in Hd. destruct Hd as [Hd|Hd]; [|done].
    by apply (sublist_subseteq _ _ (picked_keys d keys)) in Hd.
Qed.

Lemma facts_field facts size sector key :
  key ∈ FACT_KEYS -> get_or_none (facts_dict facts size sector) key = get_or_none facts key.
Proof.
  intros Hk. unfold get_or_none, facts_dict. rewrite picked_get; [done|done|]. revert key Hk.
  change (forall key, key ∈ FACT_KEYS -> key ∉ ["size_bytes"; "logical_block_size"]). apply Forall_forall.
  apply (bool_decide_unpack _). by vm_compute.
Qed.

Lemma sample_ok_inv read_at o n :
  sample_ok (read_sample read_at o n) = true ->
  exists data, read_at o n = ReadBytes data /\ zlen data = n /\
    read_sample read_at o n = [("offset", VInt o); ("length", VInt n); ("status", VStr "ok"); ("sha256", VStr (sha256_hex data))].
Proof.
  unfold read_sample. destruct (read_at o n) as [data|name|]; [|done..].
  destruct (Z.ltb_spec n (zlen data)); [done|]. destruct (Z.eqb_spec (zlen data) n); [|done]. intros _. by exists data.
Qed.

Lemma wf_ok_sample o n s : wf_value (VDict [("offset", VInt o); ("length", VInt n); ("status", VStr "ok"); ("sha256", VStr s)]).
Proof. apply wf_dict_Forall. split; [apply (bool_decide_unpack _); by vm_compute|by repeat constructor]. Qed.

Lemma canon_field d e k : wf_value (VDict d) -> wf_value (VDict e) -> canon (VDict d) = canon (VDict e) ->
  canon (get_or_none d k) = canon (get_or_none e k).
Proof.
  intros [Hd _]%wf_dict_Forall [He _]%wf_dict_Forall. rewrite !canon_dict. intros [= Hc].
  rewrite <- (get_or_none_canon d k Hd), <- (get_or_none_canon e k He). by rewrite Hc.
Qed.

(** The fingerprint of a read source, taken apart. *)
Lemma fingerprint_spec read_at size_bytes sector_size facts f h :
  fingerprint_from_reader read_at size_bytes sector_size facts = Ok f -> fp_hash f = Some h ->
  let size := fp_size_bytes f in let sector := fp_sector_size f in
  0 <= size /\ 0 < sector /\ fp_facts f = canon (VDict (facts_dict facts size sector)) /\
  fp_samples f = (fun '(o, n) => read_sample read_at o n) <$> plan_of size sector /\
  (forall o n, (o, n) ∈ plan_of size sector -> sample_ok (read_sample read_at o n) = true) /\
  plan_of size sector <> [] /\ digest_of (hashed (fp_facts f) (fp_samples f)) = Ok h.
Proof.
  unfold fingerprint_from_reader, sample_plan. intros ([size sector] & Hv & (plan & Hp & Hb)%bind_ok)%bind_ok Hh.
  rewrite Hv in Hp. cbn in Hp. injection Hp as <-. apply bind_ok in Hb as (hash & Hhash & [= <-]). cbn in *. subst hash.
  unfold validate_dimensions in Hv. destruct size_bytes as [| |z| | | |]; try done.
  apply bind_ok in Hv as (? & Hz%raise_if_ok & Hv). destruct sector_size as [| |c| | | |]; try done.
  apply bind_ok in Hv as (? & Hc%raise_if_ok & (? & _ & [= -> ->])%bind_ok). split; [lia|]. split; [lia|]. split; [done|]. split; [done|].
  set (samples := (fun '(o, n) => read_sample read_at o n) <$> plan_of size sector) in *.
  destruct (bool_decide_reflect (samples = [])) as [He|He]; [done|]. cbn [negb andb] in Hhash.
  destruct (forallb sample_ok samples) eqn:Hall; [|done]. apply bind_ok in Hhash as (h' & Hd & [= <-]).
  split; [|split; [by intros Hn; apply He; unfold samples; rewrite Hn|done]].
  intros o n Hon. rewrite forallb_elem in Hall. apply Hall. unfold samples. apply list_elem_of_fmap. by exists (o, n).
Qed.

Lemma wf_hashed facts samples : wf_value facts -> Forall (fun s => wf_value (VDict s)) samples -> wf_value (hashed facts samples).
Proof.
  intros Hf Hs. apply wf_dict_Forall. split; [apply (bool_decide_unpack _); by vm_compute|].
  repeat constructor; [done|]. apply wf_list_Forall. by rewrite Forall_fmap.
Qed.

Lemma canon_texts_list (l k : list mapping) :
  canon (VList (VDict <$> l)) = canon (VList (VDict <$> k)) -> Forall2 (fun d e => canon (VDict d) = canon (VDict e)) l k.
Proof.
  intros [= Hc]. revert k Hc. induction l as [|d l IH]; intros [|e k] Hc; try done.
  rewrite !fmap_cons in Hc. cbn [map] in Hc. injection Hc as Hd Hc. constructor; [|by apply IH]. cbn. by rewrite Hd.
Qed.

(** Two sources answer one range with different bytes of the same SHA-256 value. *)
Definition samples_collide (read1 read2 : Z -> Z -> read_outcome) (plan : list (Z * Z)) : Prop :=
  exists o n d1 d2, (o, n) ∈ plan /\ read1 o n = ReadBytes d1 /\ read2 o n = ReadBytes d2 /\ collision d1 d2.

Lemma samples_determine read1 read2 plan :
  (forall o n, (o, n) ∈ plan -> sample_ok (read_sample read1 o n) = true /\ sample_ok (read_sample read2 o n) = true) ->
  Forall2 (fun d e => canon (VDict d) = canon (VDict e))
    ((fun '(o, n) => read_sample read1 o n) <$> plan) ((fun '(o, n) => read_sample read2 o n) <$> plan) ->
  (forall o n, (o, n) ∈ plan -> exists data, zlen data = n /\ read1 o n = ReadBytes data /\ read2 o n = ReadBytes data)
  \/ samples_collide read1 read2 plan.
Proof.
  induction plan as [|[o n] plan IH]; intros Hok Hall; [left; by intros o n ?%elem_of_nil|].
  rewrite !fmap_cons in Hall. inversion Hall as [|? ? ? ? Hc Hr]; subst.
  destruct (Hok o n) as [H1 H2]; [left|]. apply sample_ok_inv in H1 as (d1 & R1 & L1 & E1), H2 as (d2 & R2 & L2 & E2).
  rewrite E1, E2 in Hc. pose proof (canon_field _ _ "sha256" (wf_ok_sample _ _ _) (wf_ok_sample _ _ _) Hc) as Hs.
  cbn in Hs. injection Hs as Hs. destruct (decide (d1 = d2)) as [<-|Hne]; [|right; exists o, n, d1, d2; split; [by left|done]].
  destruct IH as [Hrest|(o' & n' & e1 & e2 & Hin & He)];
    [intros o' n' Hon; apply Hok; by right|exact Hr| |right; exists o', n', e1, e2; split; [by right|done]].
  left. intros o' n' [[= -> ->]|Hon]%elem_of_cons; [by exists d1|by apply Hrest].
Qed.

(** C22. Two sources with the same fingerprint were given the same immutable facts, up to the order
    of keys inside them, have the same size and sector size, and gave the same bytes at every sampled range; unless the two messages the
    fingerprints are the hashes of, or the two answers to one sampled range, are different bytes
    with the same SHA-256 value. *)
Theorem fingerprint_determines read1 read2 size1 size2 sector1 sector2 facts1 facts2 f1 f2 h :
  wf_value (VDict facts1) -> wf_value (VDict facts2) ->
  fingerprint_from_reader read1 size1 sector1 facts1 = Ok f1 -> fingerprint_from_reader read2 size2 sector2 facts2 = Ok f2 ->
  fp_hash f1 = Some h -> fp_hash f2 = Some h ->
  ((forall key, key ∈ FACT_KEYS -> canon (get_or_none facts1 key) = canon (get_or_none facts2 key)) /\
   fp_facts f1 = fp_facts f2 /\ fp_size_bytes f1 = fp_size_bytes f2 /\ fp_sector_size f1 = fp_sector_size f2 /\
   forall o n, (o, n) ∈ plan_of (fp_size_bytes f1) (fp_sector_size f1) ->
     exists data, zlen data = n /\ read1 o n = ReadBytes data /\ read2 o n = ReadBytes data)
  \/ collision (digest_message (hashed (fp_facts f1) (fp_samples f1))) (digest_message (hashed (fp_facts f2) (fp_samples f2)))
  \/ samples_collide read1 read2 (plan_of (fp_size_bytes f1) (fp_sector_size f1)).
Proof.
  intros Hw1 Hw2 H1 H2 Hh1 Hh2.
  apply fingerprint_spec with (h := h) in H1 as (_ & _ & F1 & S1 & K1 & _ & D1); [|done].
  apply fingerprint_spec with (h := h) in H2 as (_ & _ & F2 & S2 & K2 & _ & D2); [|done].
  set (n1 := fp_size_bytes f1) in *. set (n2 := fp_size_bytes f2) in *.
  set (c1 := fp_sector_size f1) in *. set (c2 := fp_sector_size f2) in *.
  assert (Hs : forall read n c, (forall o m, (o, m) ∈ plan_of n c -> sample_ok (read_sample read o m) = true) ->
      Forall (fun s => wf_value (VDict s)) ((fun '(o, m) => read_sample read o m) <$> plan_of n c)).
  { intros read n c Hok. rewrite Forall_fmap. apply Forall_forall. intros [o m] Hom. cbn.
    destruct (sample_ok_inv read o m (Hok o m Hom)) as (data & _ & _ & ->). apply wf_ok_sample. }
  pose proof (facts_wf facts1 n1 c1 Hw1) as W1. pose proof (facts_wf facts2 n2 c2 Hw2) as W2.
  rewrite S1, F1 in D1. rewrite S2, F2 in D2.
  set (s1 := (fun '(o, m) => read_sample read1 o m) <$> plan_of n1 c1) in *.
  set (s2 := (fun '(o, m) => read_sample read2 o m) <$> plan_of n2 c2) in *.
  assert (X1 : wf_value (hashed (canon (VDict (facts_dict facts1 n1 c1))) s1)) by (apply wf_hashed; [by apply wf_canon|by apply Hs]).
  assert (X2 : wf_value (hashed (canon (VDict (facts_dict facts2 n2 c2))) s2)) by (apply wf_hashed; [by apply wf_canon|by apply Hs]).
  destruct (digest_of_inj _ _ h X1 X2 D1 D2) as [Hc|?]; [|right; left; by rewrite S1, S2, F1, F2].
  pose proof (canon_field _ _ "facts" X1 X2 Hc) as Hf. cbn -[canon facts_dict] in Hf. rewrite !canon_canon in Hf by done.
  assert (Hn : n1 = n2 /\ c1 = c2).
  { pose proof (canon_field _ _ "size_bytes" W1 W2 Hf) as G1. pose proof (canon_field _ _ "logical_block_size" W1 W2 Hf) as G2.
    rewrite (facts_number _ n1 c1 _ n1), (facts_number _ n2 c2 _ n2) in G1 by left.
    rewrite (facts_number _ n1 c1 _ c1), (facts_number _ n2 c2 _ c2) in G2 by (right; left).
    cbn in G1, G2. by injection G1 as ->; injection G2 as ->. }
  destruct Hn as [Hn Hcc]. clearbody n1 n2 c1 c2. subst n2 c2.
  pose proof (canon_field _ _ "samples" X1 X2 Hc) as Hl. cbn -[canon facts_dict] in Hl. apply canon_texts_list in Hl.
  destruct (samples_determine read1 read2 (plan_of n1 c1)) as [Hd|?]; [by intros o n Hon; split; [apply K1|apply K2]|exact Hl| |by right; right].
  left. split; [|split; [by rewrite F1, F2|done]].
  intros key Hk. rewrite <- (facts_field facts1 n1 c1), <- (facts_field facts2 n1 c1) by done. by apply canon_field.
Qed.

(** ** Examples *)

Definition demo_read (offset length : Z) : read_outcome :=
  ReadBytes ((fun z => z mod 256) <$> zrange offset (Z.to_nat length)).
Definition demo_facts : mapping := [("serial", VStr "A1"); ("ignored", VInt 7); ("removable", VBool true)].
Definition demo_print : printed fingerprint := fingerprint_from_reader demo_read (VInt 20) (VInt 4) demo_facts.

(** The last of three sectors is left out, because with it the whole source would be read. *)
Example three_sectors_lose_the_last : plan_of 1536 512 = [(0, 512); (512, 512)].
Proof. vm_compute. reflexivity. Qed.

Example short_read_is_incomplete :
  (f ← fingerprint_from_reader (fun o n => ReadBytes []) (VInt 20) (VInt 4) demo_facts; Ok (fp_complete f, fp_hash f)) = Ok (false, None).
Proof. vm_compute. reflexivity. Qed.

Lemma fingerprint_determines_witness :
  exists f h, demo_print = Ok f /\ fp_hash f = Some h /\
    ((forall o n, (o, n) ∈ plan_of (fp_size_bytes f) (fp_sector_size f) ->
        exists data, zlen data = n /\ demo_read o n = ReadBytes data)
     \/ collision (digest_message (hashed (fp_facts f) (fp_samples f))) (digest_message (hashed (fp_facts f) (fp_samples f)))
     \/ samples_collide demo_read demo_read (plan_of (fp_size_bytes f) (fp_sector_size f))).
Proof.
  destruct demo_print as [f|e] eqn:Hf; [|vm_compute in Hf; discriminate].
  destruct (fp_hash f) as [h|] eqn:Hh.
  2: { assert (Hn : fp_hash <$> (match demo_print with Ok f => Some f | Err _ => None end) = Some None) by (rewrite Hf; cbn; by rewrite Hh).
       vm_compute in Hn. discriminate. }
  exists f, h. split; [done|]. split; [done|].
  assert (Hw : wf_value (VDict demo_facts)).
  { apply wf_dict_Forall. split; [apply (bool_decide_unpack _); by vm_compute|by repeat constructor]. }
  destruct (fingerprint_determines demo_read demo_read (VInt 20) (VInt 20) (VInt 4) (VInt 4) demo_facts demo_facts f f h
              Hw Hw Hf Hf Hh Hh) as [(_ & _ & _ & _ & Hd)|?]; [left|by right].
  intros o n Hon. destruct (Hd o n Hon) as (data & Hl & Hr & _). by exists data.
Defined.
