(* ===== verification/DiskHealth.v ===== *)
(** * Disk health (src/hostd/disk_health.py)

    The fixed smartctl command, the inspection with the failures of its tool, and the
    classification of a report.  The theorems: the inspection runs nothing but the read-only
    command on a device that is the expected one before and after, and the status is given in
    closed form by the facts of the report.  A report with a floating-point number is malformed JSON
    here, since [Json] has integers only. *)

From Stdlib Require Import ZArith Lia String Ascii.
From stdpp Require Import base list strings gmap sorting.
From S2P Require Import Prelude PyStr Json Identifiers Messages Devices StorageInspection ReadOnly.

Local Open Scope string_scope.
Local Open Scope Z_scope.

Abbreviation mapping := (list (string * value)).

(** hostd/disk_health.py:15-15 SMARTCTL_VERSION *)
Definition SMARTCTL_VERSION : string := "7.4".
(** hostd/disk_health.py:16-16 SMARTCTL_COMMAND *)
Definition SMARTCTL_COMMAND : string := "smartctl".
(** hostd/disk_health.py:19-19 MAX_SMARTCTL_OUTPUT_BYTES *)
Definition MAX_SMARTCTL_OUTPUT_BYTES : Z := 1024 * 1024.
(** hostd/disk_health.py:20-20 MAX_HEALTH_COUNTER *)
Definition MAX_HEALTH_COUNTER : Z := 2 ^ 63 - 1.
(** hostd/disk_health.py:24-28 HEALTH_FAILURE_ATTRIBUTES *)
Definition HEALTH_FAILURE_ATTRIBUTES : list (string * string) :=
  [("Reallocated_Sector_Ct", "reallocated_sectors"); ("Current_Pending_Sector", "pending_sectors");
   ("Offline_Uncorrectable", "uncorrectable_sectors")].

(** hostd/disk_health.py:31-32 DiskHealthError *)
Inductive health_error := DiskHealthError (message : string).
Abbreviation health := (result health_error).

(** hostd/disk_health.py:35-41 SmartctlRun; its standard error is never read. *)
Record SmartctlRun := { sr_returncode : Z; sr_stdout : string }.

(** How an invocation of the tool ends. *)
Inductive tool_outcome := Completed (run : SmartctlRun) | ToolMissing | ToolTimeout | ToolOSError | InvalidResult.

(** hostd/disk_health.py:105-117 build_smartctl_command *)
Definition build_smartctl_command (kernel_name : string) : health (list string) :=
  _ ← raise_if (negb (valid_kernel_name kernel_name)) (DiskHealthError "kernel_name is invalid");
  Ok [SMARTCTL_COMMAND; "--json=c"; "--health"; "--attributes"; "--info"; "--nocheck=standby"; "/dev/" +:+ kernel_name].

(** ** Reading a report *)

(** hostd/disk_health.py:276-277 _mapping *)
Definition as_mapping (v : value) : mapping := match v with VDict d => d | _ => [] end.

(** hostd/disk_health.py:220-229 _raw_int *)
Definition raw_int (row : mapping) : Z :=
  match get_or_none (as_mapping (get_or_none row "raw")) "value" with
  | VInt z => Z.min (Z.max z 0) MAX_HEALTH_COUNTER
  | VStr s =>
    let digits := (fix lead (l : list ascii) := match l with
                   | c :: l => if is_digit c then c :: lead l else [] | [] => [] end) (drop_while is_space (chars s)) in
    match digits with
    | [] => 0
    | _ => Z.min (default 0 (Z_of_digits (of_chars (take 19 digits)))) MAX_HEALTH_COUNTER
    end
  | _ => 0
  end.

(** hostd/disk_health.py:204-217 _ata_failure_attributes *)
Definition ata_failure_attributes (payload : mapping) : list (string * Z) :=
  let initial := (fun p => (p.2, 0)) <$> HEALTH_FAILURE_ATTRIBUTES in
  match get_or_none (as_mapping (get_or_none payload "ata_smart_attributes")) "table" with
  | VList table =>
    foldl (fun attributes row => match row with
           | VDict row => match dict_get HEALTH_FAILURE_ATTRIBUTES (py_str (get_or_none row "name")) with
                          | Some normalized => dict_set attributes normalized (raw_int row)
                          | None => attributes
                          end
           | _ => attributes end) initial table
  | _ => initial
  end.

Definition nvme_log (payload : mapping) : mapping :=
  as_mapping (get_or_none payload "nvme_smart_health_information_log").

(** hostd/disk_health.py:232-237 _nvme_warnings *)
Definition nvme_warnings (payload : mapping) : list string :=
  match get_or_none (nvme_log payload) "critical_warning" with
  | VInt w => if (0 <? w) && (w <=? 255) then ["critical_warning_" +:+ str_of_Z w] else []
  | _ => []
  end.

Definition plausible_temperature (v : value) : option Z :=
  match v with VInt t => if (-100 <=? t) && (t <=? 1000) then Some t else None | _ => None end.

(** hostd/disk_health.py:240-249 _temperature *)
Definition temperature (payload : mapping) : option Z :=
  match plausible_temperature (get_or_none (as_mapping (get_or_none payload "temperature")) "current") with
  | Some t => Some t
  | None => plausible_temperature (get_or_none (nvme_log payload) "temperature")
  end.

(** hostd/disk_health.py:280-282 _safe_reason *)
Definition safe_reason (s : string) : string :=
  let cleaned := join "_" (split_ws (replace_char "000"%char "" s)) in
  if String.eqb cleaned "" then "unsupported" else str_take 128 cleaned.

(** hostd/disk_health.py:252-262 _bridge_limitations *)
Definition bridge_limitations (payload : mapping) : list string :=
  match get_or_none (as_mapping (get_or_none payload "smartctl")) "messages" with
  | VList messages =>
    omap (fun message => match message with
          | VDict m =>
            let text := lower (py_str (default (VStr "") (dict_get m "string"))) in
            if existsb (fun token => str_contains token text) ["unsupported"; "unknown usb bridge"; "unavailable"]
            then Some (safe_reason text) else None
          | _ => None end) messages
  | _ => []
  end.

(** hostd/disk_health.py:305-315 _exit_status_reasons *)
Definition exit_status_reasons (returncode : Z) : list string :=
  if returncode <? 0 then ["smartctl_command_failed"]
  else ((if negb (Z.land returncode 7 =? 0) then ["smartctl_command_failed"] else []) ++
        (if negb (Z.land returncode 8 =? 0) then ["smartctl_health_failed"] else []) ++
        (if negb (Z.land returncode 240 =? 0) then ["smartctl_health_warning_log"] else []))%list.

(** hostd/disk_health.py:265-273 _command_profile *)
Definition command_profile (command : list string) : mapping :=
  [("executable", VStr SMARTCTL_COMMAND); ("version", VStr SMARTCTL_VERSION);
   ("read_only_flags", VList (VStr <$> removelast (tail command)));
   ("prohibited_flags_absent", VBool (negb (existsb (fun flag =>
      existsb (fun p => starts_with p flag) ["--test"; "-t"; "--smart="; "-s"]) command)))].

(** The dictionary of an inspection; the source and kernel name are copied from the device. *)
Record report := {
  rp_exit_code : option Z; rp_profile : mapping; rp_status : string; rp_acknowledgment_required : bool;
  rp_reasons : list string; rp_temperature : option Z; rp_ata : list (string * Z); rp_nvme : list string;
  rp_limitations : list string }.

(** hostd/disk_health.py:187-201 _unavailable *)
Definition unavailable (reason : string) (command : list string) : report :=
  {| rp_exit_code := None; rp_profile := command_profile command; rp_status := "unavailable";
     rp_acknowledgment_required := false; rp_reasons := [reason]; rp_temperature := None; rp_ata := []; rp_nvme := [];
     rp_limitations := [] |}.

Definition with_exit_code (r : report) (returncode : Z) : report :=
  {| rp_exit_code := Some returncode; rp_profile := rp_profile r; rp_status := rp_status r;
     rp_acknowledgment_required := rp_acknowledgment_required r; rp_reasons := rp_reasons r;
     rp_temperature := rp_temperature r; rp_ata := rp_ata r; rp_nvme := rp_nvme r; rp_limitations := rp_limitations r |}.

(** hostd/disk_health.py:135-184 _normalize_health *)
Definition normalize_health (payload : mapping) (returncode : Z) (command : list string) : report :=
  let passed := get_or_none (as_mapping (get_or_none payload "smart_status")) "passed" in
  let attributes := ata_failure_attributes payload in
  let nvme := nvme_warnings payload in
  let limitations := bridge_limitations payload in
  let exit_reasons := exit_status_reasons returncode in
  let '(status, reasons) := match passed with
                            | VBool true => ("passed", [])
                            | VBool false => ("failed", ["smart_health_failed"])
                            | _ => ("unknown", []) end in
  let '(status, reasons) := if existsb (fun p => 0 <? p.2) attributes && negb (String.eqb status "failed")
                            then ("warning", reasons ++ ["ata_attribute_warning"])%list else (status, reasons) in
  let '(status, reasons) := if negb (bool_decide (nvme = [])) && negb (String.eqb status "failed")
                            then ("warning", reasons ++ ["nvme_critical_warning"])%list else (status, reasons) in
  let '(status, reasons) := if String.eqb status "unknown" && negb (bool_decide (limitations = []))
                            then ("unavailable", reasons ++ ["bridge_or_device_limitation"])%list else (status, reasons) in
  let status := if bool_decide ("smartctl_health_failed" ∈ exit_reasons) then "failed"
                else if existsb (starts_with "smartctl_health_warning") exit_reasons
                then (if String.eqb status "failed" then status else "warning")
                else if bool_decide ("smartctl_command_failed" ∈ exit_reasons) then "unavailable" else status in
  let reasons := (reasons ++ filter_b (fun r => negb (bool_decide (r ∈ reasons))) exit_reasons)%list in
  {| rp_exit_code := Some returncode; rp_profile := command_profile command; rp_status := status;
     rp_acknowledgment_required := bool_decide (status ∈ ["failed"; "warning"]); rp_reasons := reasons;
     rp_temperature := temperature payload; rp_ata := attributes; rp_nvme := nvme; rp_limitations := limitations |}.

(** ** The inspection *)

(** The timeout as a number of milliseconds, or [None] for what is not a finite number. *)
Definition timeout_allowed (timeout_ms : option Z) : bool :=
  match timeout_ms with Some t => (0 <? t) && (t <=? 30000) | None => false end.

(** hostd/disk_health.py:48-102 inspect_disk_health: the verifier is asked before and after the run;
    the second result is the list of commands that were run. *)
Definition inspect_disk_health (device : mapping) (timeout_ms : option Z) (runner : list string -> tool_outcome)
    (before after : string -> string -> bool) : health (report * list (list string)) :=
  let kernel_name := py_str (default (VStr "") (dict_get device "kernel_name")) in
  _ ← raise_if (negb (valid_kernel_name kernel_name)) (DiskHealthError "kernel_name is invalid");
  let major_minor := py_str (default (VStr "") (dict_get device "major_minor")) in
  _ ← raise_if (negb (valid_major_minor major_minor)) (DiskHealthError "major_minor is invalid");
  _ ← raise_if (negb (timeout_allowed timeout_ms)) (DiskHealthError "timeout_seconds is outside the supported bound");
  command ← build_smartctl_command kernel_name;
  if negb (before kernel_name major_minor) then Ok (unavailable "device_identity_changed" command, [])
  else
    let r := match runner command with
             | ToolMissing => unavailable "missing_tool" command
             | ToolTimeout => unavailable "timeout" command
             | ToolOSError => unavailable "tool_execution_failed" command
             | InvalidResult => unavailable "invalid_tool_result" command
             | Completed run =>
               if negb (after kernel_name major_minor) then unavailable "device_identity_changed_during_inspection" command
               else if MAX_SMARTCTL_OUTPUT_BYTES <? zlen (utf8 (sr_stdout run)) then unavailable "tool_output_too_large" command
               else match loads (sr_stdout run) with
                    | Some (VDict payload) => normalize_health payload (sr_returncode run) command
                    | _ => with_exit_code (unavailable "malformed_json" command) (sr_returncode run)
                    end
             end in
    Ok (r, [command]).

(** ** The status in closed form *)

Definition smart_passed (payload : mapping) : value := get_or_none (as_mapping (get_or_none payload "smart_status")) "passed".
Definition says (v : value) (b : bool) : bool := match v with VBool c => Bool.eqb c b | _ => false end.
Definition attribute_trouble (payload : mapping) : bool := existsb (fun p => 0 <? p.2) (ata_failure_attributes payload).
Definition command_bits (returncode : Z) : bool := (returncode <? 0) || negb (Z.land returncode 7 =? 0).
Definition failed_bit (returncode : Z) : bool := negb (returncode <? 0) && negb (Z.land returncode 8 =? 0).
Definition warning_bits (returncode : Z) : bool := negb (returncode <? 0) && negb (Z.land returncode 240 =? 0).

(** The rule the branches amount to. *)
Definition health_status (payload : mapping) (returncode : Z) : string :=
  let failed := says (smart_passed payload) false in
  if failed_bit returncode then "failed"
  else if warning_bits returncode then (if failed then "failed" else "warning")
  else if command_bits returncode then "unavailable"
  else if failed then "failed"
  else if attribute_trouble payload || negb (bool_decide (nvme_warnings payload = [])) then "warning"
  else if says (smart_passed payload) true then "passed"
  else if bool_decide (bridge_limitations payload = []) then "unknown" else "unavailable".

Lemma exit_reasons_tests returncode :
  bool_decide ("smartctl_health_failed" ∈ exit_status_reasons returncode) = failed_bit returncode /\
  existsb (starts_with "smartctl_health_warning") (exit_status_reasons returncode) = warning_bits returncode /\
  bool_decide ("smartctl_command_failed" ∈ exit_status_reasons returncode) = command_bits returncode.
Proof.
  unfold exit_status_reasons, failed_bit, warning_bits, command_bits. destruct (returncode <? 0); [by split_and!|].
  destruct (Z.land returncode 7 =? 0), (Z.land returncode 8 =? 0), (Z.land returncode 240 =? 0); by split_and!.
Qed.

Lemma normalize_status payload returncode command :
  rp_status (normalize_health payload returncode command) = health_status payload returncode.
Proof.
  destruct (exit_reasons_tests returncode) as (E1 & E2 & E3).
  unfold normalize_health, health_status. fold (attribute_trouble payload). fold (smart_passed payload).
  destruct (smart_passed payload) as [|[]| | | | |], (attribute_trouble payload), (bool_decide_reflect (nvme_warnings payload = [])),
    (bool_decide_reflect (bridge_limitations payload = [])); cbn -[exit_status_reasons failed_bit warning_bits command_bits bool_decide];
    rewrite ?E1, ?E2, ?E3; destruct (failed_bit returncode), (warning_bits returncode), (command_bits returncode); done.
Qed.

Lemma normalize_acknowledgment payload returncode command :
  rp_acknowledgment_required (normalize_health payload returncode command) =
  bool_decide (rp_status (normalize_health payload returncode command) ∈ ["failed"; "warning"]).
Proof.
  unfold normalize_health. repeat match goal with |- context [let '(_, _) := ?p in _] => destruct p end. reflexivity.
Qed.

Lemma zero_bits returncode :
  0 <= returncode -> failed_bit returncode = false -> warning_bits returncode = false -> command_bits returncode = false ->
  Z.land returncode 255 = 0.
Proof.
  unfold failed_bit, warning_bits, command_bits. intros Hr. rewrite (proj2 (Z.ltb_ge returncode 0)) by done. cbn [negb andb orb].
  rewrite !negb_false_iff, !Z.eqb_eq. intros H8 H240 H7.
  change 255 with (Z.lor (Z.lor 7 8) 240). by rewrite !Z.land_lor_distr_r, H7, H8, H240.
Qed.

(** ** The inspection *)

(** C23. The inspection runs at most one command, the read-only report of the device whose kernel
    name and number the description has under these keys, and only when that pair had been found to
    be the expected one; a verdict is given only when the device was the
    expected one afterwards too and the output is a JSON object within the bound, and it is the
    closed form of the facts in it.  Passed in particular means that SMART says so, no failure
    counter and no NVMe warning is set, and no bit of the exit status is. *)
Theorem inspection_contained device timeout_ms runner before after r ran :
  inspect_disk_health device timeout_ms runner before after = Ok (r, ran) ->
  let kernel_name := py_str (default (VStr "") (dict_get device "kernel_name")) in
  let major_minor := py_str (default (VStr "") (dict_get device "major_minor")) in
    let command := ["smartctl"; "--json=c"; "--health"; "--attributes"; "--info"; "--nocheck=standby"; "/dev/" +:+ kernel_name] in
    valid_kernel_name kernel_name = true /\ valid_major_minor major_minor = true /\ timeout_allowed timeout_ms = true /\
    (ran = [] \/ ran = [command] /\ before kernel_name major_minor = true) /\
    (rp_status r <> "unavailable" ->
     exists run payload, ran = [command] /\ runner command = Completed run /\ after kernel_name major_minor = true /\
       zlen (utf8 (sr_stdout run)) <= MAX_SMARTCTL_OUTPUT_BYTES /\ loads (sr_stdout run) = Some (VDict payload) /\
       rp_status r = health_status payload (sr_returncode run) /\
       (rp_status r = "passed" ->
        smart_passed payload = VBool true /\ attribute_trouble payload = false /\ nvme_warnings payload = [] /\
        Z.land (sr_returncode run) 255 = 0 /\ 0 <= sr_returncode run)) /\
    rp_acknowledgment_required r = bool_decide (rp_status r ∈ ["failed"; "warning"]).
Proof.
  unfold inspect_disk_health, build_smartctl_command. cbv zeta. set (k := py_str (default (VStr "") (dict_get device "kernel_name"))).
  set (m := py_str (default (VStr "") (dict_get device "major_minor"))).
  intros (? & Hk%raise_if_ok & (? & Hm%raise_if_ok & (? & Ht%raise_if_ok & (command & Hc & Hb)%bind_ok)%bind_ok)%bind_ok)%bind_ok.
  rewrite negb_false_iff in Hk, Hm, Ht. rewrite Hk in Hc. cbn in Hc. injection Hc as <-.
  split; [done|]. split; [done|]. split; [done|]. destruct (before k m) eqn:Hbefore; cbn [negb] in Hb.
  2: { injection Hb as <- <-. split; [by left|]. split; [done|done]. }
  set (command := [_; _; _; _; _; _; _]) in *. injection Hb as Hr <-. split; [by right|].
  destruct (runner command) as [run| | | |] eqn:Hrun; try by (subst r; split; done).
  destruct (after k m) eqn:Hafter; cbn [negb] in Hr; [|by subst r; split].
  destruct (Z.ltb_spec MAX_SMARTCTL_OUTPUT_BYTES (zlen (utf8 (sr_stdout run)))) as [Hlen|Hlen]; [by subst r; split|].
  destruct (loads (sr_stdout run)) as [[| | | | | |payload]|] eqn:Hl; try by (subst r; split; done).
  subst r. pose proof (normalize_status payload (sr_returncode run) command) as Hs. split; [|apply normalize_acknowledgment].
  intros _. exists run, payload. split_and!; try done. rewrite Hs. unfold health_status. intros Hp.
  destruct (failed_bit (sr_returncode run)) eqn:Hf; [done|]. destruct (warning_bits (sr_returncode run)) eqn:Hw; [by destruct (says (smart_passed payload) false)|].
  destruct (command_bits (sr_returncode run)) eqn:Hcb; [done|]. destruct (says (smart_passed payload) false); [done|].
  destruct (attribute_trouble payload); [done|]. destruct (bool_decide_reflect (nvme_warnings payload = [])) as [Hn|]; [|done]. cbn in Hp.
  destruct (says (smart_passed payload) true) eqn:Hpass; [|by destruct (bool_decide (bridge_limitations payload = []))].
  assert (Hsp : smart_passed payload = VBool true) by (by destruct (smart_passed payload) as [|[]| | | | |]).
  assert (Hnn : 0 <= sr_returncode run).
  { unfold command_bits in Hcb. apply orb_false_iff in Hcb as [Hcb _]. by apply Z.ltb_ge in Hcb. }
  split_and!; try done. by apply zero_bits.
Qed.

(** ** Examples *)

Definition demo_device : mapping := [("kernel_name", VStr "sdb"); ("major_minor", VStr "8:16")].
Definition demo_text (passed : string) : string :=
  sq ("{'smart_status':{'passed':" +:+ passed +:+ "},'temperature':{'current':31}}").
Definition demo_tool (passed : string) (returncode : Z) (command : list string) : tool_outcome :=
  Completed {| sr_returncode := returncode; sr_stdout := demo_text passed |}.
Definition demo_inspection (passed : string) (returncode : Z) : health (report * list (list string)) :=
  inspect_disk_health demo_device (Some 10000) (demo_tool passed returncode) (fun _ _ => true) (fun _ _ => true).

(** SMART says the disk fails, but a bit of the command status hides it and no acknowledgement is asked. *)
Example failure_hidden_by_command_bit :
  (x ← demo_inspection "false" 4; Ok (rp_status x.1, rp_acknowledgment_required x.1)) = Ok ("unavailable", false).
Proof. vm_compute. reflexivity. Qed.

Lemma inspection_contained_witness :
  exists x, demo_inspection "true" 0 = Ok x /\ rp_status x.1 = "passed" /\
    x.2 = [["smartctl"; "--json=c"; "--health"; "--attributes"; "--info"; "--nocheck=standby"; "/dev/sdb"]].
Proof.
  destruct (demo_inspection "true" 0) as [[r ran]|e] eqn:Hx; [|vm_compute in Hx; discriminate].
  assert (Hs : rp_status r = "passed").
  { assert (Hs : (x ← demo_inspection "true" 0; Ok (rp_status x.1)) = Ok "passed") by (vm_compute; reflexivity).
    rewrite Hx in Hs. cbn in Hs. by injection Hs. }
  exists (r, ran). split; [done|]. split; [exact Hs|].
  destruct (inspection_contained demo_device (Some 10000) (demo_tool "true" 0) (fun _ _ => true) (fun _ _ => true) r ran Hx)
    as (_ & _ & _ & _ & Hv & _).
  destruct Hv as (run & payload & Hran & _); [by rewrite Hs|exact Hran].
Defined.
