(* ===== verification/BlockDevices.v ===== *)
(** * Enumeration of block devices (src/hostd/block_devices.py)

    The facts of whole disks and partitions read from a tree in the shape of /sys/block.  The tree
    is a parameter: what each file, directory and link gives.  The theorems: the listing names
    exactly the entries with a valid name and device number, in order, and the sizes in it are
    well formed. *)

From Stdlib Require Import ZArith Lia String Ascii Sorted.
From stdpp Require Import base list strings gmap sorting.
From S2P Require Import Prelude PyStr Json Identifiers Messages Sha256 Paths Devices StorageInspection ReadOnly.

Local Open Scope string_scope.
Local Open Scope Z_scope.

Abbreviation mapping := (list (string * value)).

(** hostd/block_devices.py:16-16 SECTOR_BYTES *)
Definition SECTOR_BYTES : Z := 512.
(** hostd/block_devices.py:19-19 KNOWN_TRANSPORTS *)
Definition KNOWN_TRANSPORTS : list string := ["usb"; "ata"; "sata"; "nvme"; "mmc"; "scsi"; "virtio"; "loop"].
(** hostd/block_devices.py:22-22 MAX_BLOCK_SIZE *)
Definition MAX_BLOCK_SIZE : Z := 16 * 1024 * 1024.

(** A file that holds no UTF-8 raises [UnicodeDecodeError], which is no [OSError]. *)
Inductive file := Missing | NotUtf8 | Text (s : string).
Inductive listing_error := UnicodeDecodeError.
Abbreviation listed := (result listing_error).

(** The tree below /sys/block: paths are lists of names. *)
Class Sysfs := {
  read_file : list string -> file;
  list_names : list string -> option (list string);
  resolve_link : list string -> option string }.

Section sysfs.
Context `{Sysfs}.

(** hostd/block_devices.py:174-181 _read_text *)
Definition read_text (path : list string) : listed (option string) :=
  match read_file path with
  | Missing => Ok None
  | NotUtf8 => Err UnicodeDecodeError
  | Text s => let text := strip s in Ok (if String.eqb text "" then None else Some text)
  end.

(** hostd/block_devices.py:184-192 _read_int *)
Definition read_int (path : list string) (default : Z) : listed Z :=
  text ← read_text path;
  Ok (match text with
      | None => default
      | Some t => match int_of_text t with Some z => if 0 <=? z then z else default | None => default end
      end).

(** hostd/block_devices.py:195-196 _read_bool *)
Definition read_bool (path : list string) : listed bool := z ← read_int path 0; Ok (z =? 1).

(** hostd/block_devices.py:199-203 _sanitize *)
Definition sanitize (v : option string) : value :=
  match v with
  | None => VNone
  | Some s => let cleaned := join " " (split_ws (replace_char "000"%char "" s)) in
              if String.eqb cleaned "" then VNone else VStr (str_take 128 cleaned)
  end.

(** hostd/block_devices.py:210-211 _valid_block_size *)
Definition valid_block_size (z : Z) : bool := (0 <? z) && (z <=? MAX_BLOCK_SIZE) && (Z.land z (z - 1) =? 0).

(** hostd/block_devices.py:214-216 _candidate_id *)
Definition candidate_id (kind major_minor name : string) : string :=
  kind +:+ "_" +:+ str_take 24 (sha256_hex (utf8 (kind +:+ ":" +:+ major_minor +:+ ":" +:+ name))).

(** hostd/block_devices.py:219-223 _resolved_text *)
Definition resolved_text (path : list string) : string := default "" (resolve_link path).
(** hostd/block_devices.py:226-230 _resolved_name *)
Definition resolved_name (path : list string) : option string :=
  let text := resolved_text path in if String.eqb text "" then None else Some (path_name_of (parse_path text)).

(** hostd/block_devices.py:159-171 _transport *)
Definition transport (name : string) : listed string :=
  if starts_with "loop" name then Ok "loop"
  else if starts_with "nvme" name then Ok "nvme"
  else if starts_with "mmcblk" name then Ok "mmc"
  else
    declared ← read_text [name; "device"; "transport"];
    let combined := lower (resolved_text [name; "device"] +:+ " " +:+ default "" declared) in
    Ok (match filter_b (fun t => str_contains t combined) KNOWN_TRANSPORTS with
        | [] => "unknown"
        | t :: _ => if String.eqb t "ata" then "sata" else t
        end).

(** hostd/block_devices.py:138-156 _classify_device *)
Definition classify_device (name : string) : listed string :=
  let subsystem := resolved_name [name; "device"; "subsystem"] in
  if starts_with "loop" name then Ok "loop"
  else if starts_with "nvme" name then Ok "nvme"
  else if starts_with "mmcblk" name then Ok "sd_card"
  else if starts_with "sr" name || bool_decide (subsystem = Some "scsi_generic") then Ok "optical"
  else if starts_with "fd" name then Ok "floppy"
  else if starts_with "dm-" name then Ok "device_mapper"
  else
    t ← transport name;
    Ok (if String.eqb t "usb" then "usb_storage"
        else if bool_decide (t ∈ ["ata"; "sata"]) || starts_with "sd" name || starts_with "hd" name then "disk" else "block").

(** The device number in a [dev] file, when it has the right form. *)
Definition device_number_at (path : list string) : listed (option string) :=
  text ← read_text path;
  Ok (match text with Some t => if valid_major_minor t then Some t else None | None => None end).

(** hostd/block_devices.py:109-135 _read_partition *)
Definition read_partition (entry name : string) (parent : mapping) : listed (option mapping) :=
  if negb (valid_kernel_name name) then Ok None
  else
    marker ← read_text [entry; name; "partition"];
    match marker with
    | None => Ok None
    | Some _ =>
      number ← device_number_at [entry; name; "dev"];
      match number with
      | None => Ok None
      | Some major_minor =>
        size ← read_int [entry; name; "size"] 0;
        start ← read_int [entry; name; "start"] 0;
        let inherited k := get_or_none parent k in
        Ok (Some [("candidate_id", VStr (candidate_id "part" major_minor name)); ("kind", VStr "partition");
                  ("kernel_name", VStr name); ("major_minor", VStr major_minor);
                  ("parent_candidate_id", inherited "candidate_id"); ("parent_kernel_name", inherited "kernel_name");
                  ("device_type", VStr "partition"); ("transport", inherited "transport");
                  ("removable", inherited "removable"); ("read_only", inherited "read_only");
                  ("start_sector", VInt start); ("size_bytes", VInt (size * SECTOR_BYTES));
                  ("logical_block_size", inherited "logical_block_size");
                  ("physical_block_size", inherited "physical_block_size"); ("has_media", inherited "has_media");
                  ("warnings", VList [])])
      end
    end.

(** [sorted(path.iterdir(), key=name)], empty when the directory cannot be read. *)
Definition sorted_entries (path : list string) : list string := sorted_strings (default [] (list_names path)).

(** What the loop over a directory keeps. *)
Definition present {A} (l : list (option A)) : list A := omap id l.

(** hostd/block_devices.py:47-106 _read_device *)
Definition read_device (name : string) : listed (option mapping) :=
  if negb (valid_kernel_name name) then Ok None
  else
    number ← device_number_at [name; "dev"];
    match number with
    | None => Ok None
    | Some major_minor =>
      size ← read_int [name; "size"] 0;
      logical ← read_int [name; "queue"; "logical_block_size"] SECTOR_BYTES;
      let logical := if valid_block_size logical then logical else SECTOR_BYTES in
      physical ← read_int [name; "queue"; "physical_block_size"] logical;
      let physical := if valid_block_size physical then physical else logical in
      removable ← read_bool [name; "removable"];
      read_only ← read_bool [name; "ro"];
      device_type ← classify_device name;
      t ← transport name;
      model ← read_text [name; "device"; "model"];
      vendor ← read_text [name; "device"; "vendor"];
      serial ← read_text [name; "device"; "serial"];
      wwid ← read_text [name; "wwid"];
      wwn ← (match wwid with Some w => Ok (Some w) | None => read_text [name; "device"; "wwid"] end);
      let device :=
        [("candidate_id", VStr (candidate_id "dev" major_minor name)); ("kind", VStr "whole_disk");
         ("kernel_name", VStr name); ("major_minor", VStr major_minor); ("device_type", VStr device_type);
         ("transport", VStr t); ("removable", VBool removable); ("read_only", VBool read_only);
         ("size_bytes", VInt (size * SECTOR_BYTES)); ("logical_block_size", VInt logical);
         ("physical_block_size", VInt physical); ("model", sanitize model); ("vendor", sanitize vendor);
         ("serial", sanitize serial); ("wwn", sanitize wwn); ("has_media", VBool (0 <? size));
         ("warnings", VList (if removable && (size =? 0) then [VStr "empty_or_unreadable_removable_reader"] else []))] in
      children ← mapM_result (fun child => read_partition name child device) (sorted_entries [name]);
      Ok (Some (device ++ [("children", VList (VDict <$> present children))])%list)
    end.

(** hostd/block_devices.py:25-44 list_block_devices *)
Definition list_block_devices : listed (list mapping) :=
  devices ← mapM_result read_device (sorted_entries []);
  Ok (present devices).

(** ** What is listed *)

(** The device number of an entry that is a device. *)
Definition number_of (name : string) : option string :=
  match read_file [name; "dev"] with
  | Text s => let t := strip s in if negb (String.eqb t "") && valid_major_minor t then Some t else None
  | _ => None
  end.

Definition is_device (name : string) : bool := valid_kernel_name name && bool_decide (number_of name <> None).

Lemma device_number_spec name o : device_number_at [name; "dev"] = Ok o -> o = number_of name.
Proof.
  unfold device_number_at, read_text, number_of. destruct (read_file [name; "dev"]) as [| |s]; cbn; [by intros [= <-]|done|].
  destruct (String.eqb (strip s) ""); cbn; intros [= <-]; [done|]. by destruct (valid_major_minor (strip s)).
Qed.

Lemma read_int_nonneg path d z : 0 <= d -> read_int path d = Ok z -> 0 <= z.
Proof.
  unfold read_int. intros Hd (t & _ & [= <-])%bind_ok. destruct t as [t|]; [|done]. destruct (int_of_text t) as [n|]; [|done].
  by destruct (Z.leb_spec 0 n).
Qed.

(** The facts of one device the rest of the daemon relies on. *)
Record device_facts (name : string) (d : mapping) : Prop := {
  df_name : get_or_none d "kernel_name" = VStr name;
  df_number : exists m, number_of name = Some m /\ get_or_none d "major_minor" = VStr m;
  df_size : exists n, get_or_none d "size_bytes" = VInt (n * 512) /\ 0 <= n /\ get_or_none d "has_media" = VBool (0 <? n);
  df_blocks : exists l p, get_or_none d "logical_block_size" = VInt l /\ get_or_none d "physical_block_size" = VInt p /\
    valid_block_size l = true /\ valid_block_size p = true;
  df_children : exists cs, get_or_none d "children" = VList (VDict <$> cs) /\
    Forall (fun c => exists k m, get_or_none c "kernel_name" = VStr k /\ valid_kernel_name k = true /\
      get_or_none c "major_minor" = VStr m /\ valid_major_minor m = true /\
      get_or_none c "parent_kernel_name" = VStr name /\ get_or_none c "read_only" = get_or_none d "read_only") cs }.

Lemma partition_facts entry name parent c :
  read_partition entry name parent = Ok (Some c) ->
  exists m, get_or_none c "kernel_name" = VStr name /\ valid_kernel_name name = true /\
    get_or_none c "major_minor" = VStr m /\ valid_major_minor m = true /\
    get_or_none c "parent_kernel_name" = get_or_none parent "kernel_name" /\ get_or_none c "read_only" = get_or_none parent "read_only".
Proof.
  unfold read_partition. destruct (valid_kernel_name name) eqn:Hk; [|done]. cbn [negb].
  intros ([marker|] & _ & Hb)%bind_ok; [|done]. apply bind_ok in Hb as ([m|] & Hm & Hb); [|done].
  apply bind_ok in Hb as (size & _ & (start & _ & [= <-])%bind_ok). exists m. split_and!; try done.
  unfold device_number_at in Hm. apply bind_ok in Hm as ([t|] & _ & [= Hm]). destruct (valid_major_minor t) eqn:E; by simplify_eq.
Qed.

Lemma elem_of_present {A} (x : A) l : x ∈ present l <-> Some x ∈ l.
Proof. unfold present. rewrite list_elem_of_omap. split; [intros (y & Hy & E); cbn in E; by subst|intros Hx; by exists (Some x)]. Qed.

Lemma mapM_result_forall2 {E A B} (f : A -> result E B) l k : mapM_result f l = Ok k -> Forall2 (fun x y => f x = Ok y) l k.
Proof.
  revert k. induction l as [|x l IH]; intros k; cbn; [intros [= <-]; constructor|].
  intros (y & Hy & (k' & Hk & [= <-])%bind_ok)%bind_ok. constructor; [done|by apply IH].
Qed.

(** The fields of a device dictionary that holds [children] last. *)
Lemma device_children_forall name device cs :
  Forall2 (fun child o => read_partition name child device = Ok o) (sorted_entries [name]) cs ->
  Forall (fun c => exists k m, get_or_none c "kernel_name" = VStr k /\ valid_kernel_name k = true /\
      get_or_none c "major_minor" = VStr m /\ valid_major_minor m = true /\
      get_or_none c "parent_kernel_name" = get_or_none device "kernel_name" /\
      get_or_none c "read_only" = get_or_none device "read_only") (present cs).
Proof.
  intros Hall. apply Forall_forall. intros c Hc. rewrite elem_of_present in Hc.
  apply list_elem_of_lookup in Hc as [i Hi]. eapply Forall2_lookup_r in Hi as (child & _ & Hp); [|exact Hall].
  apply partition_facts in Hp as (m & ? & ? & ? & ? & ? & ?). by exists child, m.
Qed.

Lemma read_device_spec name o :
  read_device name = Ok o ->
  (is_device name = false /\ o = None) \/ (is_device name = true /\ exists d, o = Some d /\ device_facts name d).
Proof.
  unfold read_device, is_device. destruct (valid_kernel_name name) eqn:Hk; cbn [negb andb]; [|intros [= <-]; by left].
  intros (number & Hnum%device_number_spec & Hb)%bind_ok. rewrite <- Hnum. destruct number as [m|].
  2: { injection Hb as <-. by left. }
  right. split; [by rewrite bool_decide_eq_true_2|].
  apply bind_ok in Hb as (size & Hsize & (logical & _ & (physical & _ & Hb)%bind_ok)%bind_ok).
  apply bind_ok in Hb as (rem & _ & (ro & _ & (ty & _ & (t & _ & Hb)%bind_ok)%bind_ok)%bind_ok).
  apply bind_ok in Hb as (model & _ & (vendor & _ & (serial & _ & (wwid & _ & (wwn & _ & Hb)%bind_ok)%bind_ok)%bind_ok)%bind_ok).
  apply bind_ok in Hb as (cs & Hcs%mapM_result_forall2 & [= <-]). eexists. split; [done|].
  apply read_int_nonneg in Hsize; [|done]. apply device_children_forall in Hcs.
  set (log := if valid_block_size logical then logical else SECTOR_BYTES) in *.
  set (phy := if valid_block_size physical then physical else log) in *.
  assert (Hlog : valid_block_size log = true) by (unfold log; destruct (valid_block_size logical) eqn:E; done).
  assert (Hphy : valid_block_size phy = true) by (unfold phy; destruct (valid_block_size physical) eqn:E; done).
  constructor.
  - done.
  - by exists m.
  - exists size. done.
  - exists log, phy. done.
  - exists (present cs). split; [done|exact Hcs].
Qed.

(** The listing holds exactly the entries of the tree with a valid kernel name and device
    number, in the order of their names, each with a size of whole sectors, block sizes that are
    powers of two within the bound, and partitions that name it as their parent and share its
    read-only flag; only a file that is no UTF-8 text makes it fail. *)
Theorem listing_exact devices :
  list_block_devices = Ok devices ->
  Forall2 device_facts (filter_b is_device (sorted_entries [])) devices /\
  Sorted String.le (sorted_entries []) /\ sorted_entries [] ≡ₚ default [] (list_names []).
Proof.
  unfold list_block_devices. intros (os & Hall%mapM_result_forall2 & [= <-])%bind_ok. split.
  - induction Hall as [|name o names os Ho Hall IH]; [constructor|]. cbn [filter_b List.filter].
    fold (filter_b is_device names). apply read_device_spec in Ho as [[-> ->]|[-> (d & -> & Hd)]]; [exact IH|].
    change (present (Some d :: os)) with (d :: present os). by constructor.
  - split; [apply (Sorted_merge_sort String.le)|apply merge_sort_Permutation].
Qed.

(** A power of two is what the bit test accepts. *)
Lemma block_size_power z : 0 <= z -> valid_block_size (2 ^ z) = (2 ^ z <=? MAX_BLOCK_SIZE).
Proof.
  intros Hz. unfold valid_block_size. pose proof (Z.pow_pos_nonneg 2 z ltac:(lia) Hz).
  rewrite (proj2 (Z.ltb_lt 0 _)) by lia. replace (2 ^ z - 1) with (Z.ones z) by (rewrite Z.ones_equiv; lia). rewrite Z.land_ones by done. by rewrite Z.mod_same, andb_true_r by lia.
Qed.
End sysfs.

(** ** Examples *)

(** A tree given by its files, with one directory per device. *)
Definition tree (files : list (list string * file)) (dirs : list (list string * list string)) (links : list (list string * string)) : Sysfs :=
  let find {A} (l : list (list string * A)) (p : list string) : option A := snd <$> head (filter_b (fun x => bool_decide (x.1 = p)) l) in
  {| read_file p := default Missing (find files p); list_names := find dirs; resolve_link := find links |}.

Definition demo_files : list (list string * file) :=
  [(["sdb"; "dev"], Text "8:16"); (["sdb"; "size"], Text "2048"); (["sdb"; "removable"], Text "1");
   (["sdb"; "queue"; "logical_block_size"], Text "4096"); (["sdb"; "sdb1"; "partition"], Text "1");
   (["sdb"; "sdb1"; "dev"], Text "8:17"); (["sdb"; "sdb1"; "size"], Text "1024"); (["sr0"; "dev"], Text "bad")].
Definition demo_dirs : list (list string * list string) := [([], ["sr0"; "sdb"; "..."]); (["sdb"], ["sdb1"; "queue"])].
Definition demo_links : list (list string * string) := [(["sdb"; "device"], "/sys/devices/pci0000/usb1/1-1")].
Definition demo_tree (more : list (list string * file)) : Sysfs := tree (more ++ demo_files)%list demo_dirs demo_links.

Definition brief (r : listed (list mapping)) : listed (list (value * value * value)) :=
  match r with
  | Ok ds => Ok ((fun d : mapping => (get_or_none d "kernel_name", get_or_none d "device_type", get_or_none d "size_bytes")) <$> ds)
  | Err e => Err e
  end.

Example demo_listing :
  brief (@list_block_devices (demo_tree [])) = Ok [(VStr "sdb", VStr "usb_storage", VInt 1048576)].
Proof. vm_compute. reflexivity. Qed.

(** One model name that is no UTF-8 text ends the whole enumeration. *)
Example foreign_bytes_end_the_listing :
  @list_block_devices (demo_tree [(["sdb"; "device"; "model"], NotUtf8)]) = Err UnicodeDecodeError.
Proof. vm_compute. reflexivity. Qed.

(** The transport is searched as a fragment of the resolved path: a virtual device under a
    directory whose name contains ata is a SATA disk. *)
Example fragment_of_a_path_is_a_transport :
  @transport (tree [] [] [(["vda"; "device"], "/sys/devices/platform/metadata0")]) "vda" = Ok "sata".
Proof. vm_compute. reflexivity. Qed.

Lemma listing_exact_witness :
  exists ds, @list_block_devices (demo_tree []) = Ok ds /\
    Forall2 (@device_facts (demo_tree [])) (filter_b (@is_device (demo_tree [])) (@sorted_entries (demo_tree []) [])) ds.
Proof.
  destruct (@list_block_devices (demo_tree [])) as [ds|e] eqn:Hd; [|vm_compute in Hd; discriminate].
  exists ds. split; [done|]. exact (proj1 (@listing_exact (demo_tree []) ds Hd)).
Defined.
