(* ===== verification/PhotoRec.v ===== *)
(** * The carving adapter (src/scanner/photorec_carving.py)

    The command line PhotoRec is started with, its validation, and the reading of its log.  The
    theorems: a command line is accepted exactly when it is the fixed form with allowlisted
    signatures and bounded ranges; the command the adapter builds is such a line, and its
    ranges and signatures are read back from it; the recovered count of a log is the largest
    count it names, bounded.

    An error is its code; its message is a fixed text per code and place and is not modelled.
    The checks of a value's type are the types of the model.  Questions to the file system are
    a class; running the tool is a parameter. *)

From Stdlib Require Import ZArith Lia String Ascii.
From stdpp Require Import base list strings gmap sorting.
From S2P Require Import Prelude PyStr Json Paths Fat12 PartitionDiscovery.

Local Open Scope string_scope.
Local Open Scope Z_scope.

(** ** Constants and errors *)

(** scanner/photorec_carving.py:30-35 PhotoRecCarvingError: its code. *)
Inductive carving_error := PhotoRecCarvingError (code : string).

#[global] Instance carving_error_eq_dec : EqDecision carving_error.
Proof. solve_decision. Defined.

Abbreviation outcome := (result carving_error).
Definition refuse {A} (code : string) : outcome A := Err (PhotoRecCarvingError code).
Definition guard_ (b : bool) (code : string) : outcome unit := raise_if b (PhotoRecCarvingError code).

(** scanner/photorec_carving.py:12-12 PHOTOREC_BINARY *)
Definition PHOTOREC_BINARY : string := "photorec".
(** scanner/photorec_carving.py:14-14 ALLOWED_SIGNATURES *)
Definition ALLOWED_SIGNATURES : list string := ["jpg"; "pdf"; "zip"].
(** scanner/photorec_carving.py:15-15 MAX_TIMEOUT_SECONDS *)
Definition MAX_TIMEOUT_SECONDS : Z := 24 * 60 * 60.
(** scanner/photorec_carving.py:17-17 MAX_RECOVERED_COUNT *)
Definition MAX_RECOVERED_COUNT : Z := 2 ^ 63 - 1.
(** scanner/photorec_carving.py:18-18 MAX_RANGES *)
Definition MAX_RANGES : Z := 4096.
(** scanner/photorec_carving.py:19-19 MAX_RANGE_VALUE *)
Definition MAX_RANGE_VALUE : Z := 2 ^ 63 - 1.
(** scanner/photorec_carving.py:20-20 MAX_PATH_CHARS *)
Definition MAX_PATH_CHARS : Z := 4096.
(** scanner/photorec_carving.py:16-16 MAX_TOOL_OUTPUT_CHARS *)
Definition MAX_LOG_CHARS : Z := 1048576.

(** ** Ranges and signatures *)

(** scanner/photorec_carving.py:357-369 _validate_range_values *)
Definition bad_range_values (offset length : Z) : bool :=
  (offset <? 0) || (length <=? 0) || (MAX_RANGE_VALUE <? offset) || (MAX_RANGE_VALUE <? length)
  || (MAX_RANGE_VALUE <? offset + length).

(** scanner/photorec_carving.py:43-44 __post_init__: building a CarveRange. *)
Definition carve_range (offset length : Z) : outcome CarveRange :=
  _ ← guard_ (bad_range_values offset length) "invalid_range";
  Ok {| cr_offset := offset; cr_length := length |}.

(** scanner/photorec_carving.py:222-232 _validate_ranges *)
Definition validate_ranges (ranges : list CarveRange) : outcome unit :=
  _ ← guard_ (bool_decide (length ranges = 0%nat)) "empty_range_set";
  _ ← guard_ (MAX_RANGES <? zlen ranges) "too_many_ranges";
  guard_ (existsb (fun r => bad_range_values (cr_offset r) (cr_length r)) ranges) "invalid_range".

(** scanner/photorec_carving.py:338-353 _normalize_signatures: one signature. *)
Definition normalize_signature (signature : string) : outcome string :=
  _ ← guard_ (String.eqb signature "" || (32 <? str_len signature)
              || any_char_in ["000"; "010"; "013"; ","; " "]%char signature) "signature_not_allowed";
  let lowered := lower signature in
  _ ← guard_ (negb (bool_decide (lowered ∈ ALLOWED_SIGNATURES))) "signature_not_allowed";
  Ok lowered.

(** scanner/photorec_carving.py:334-354 _normalize_signatures *)
Definition normalize_signatures (signatures : list string) : outcome (list string) :=
  _ ← guard_ (bool_decide (length signatures = 0%nat)) "empty_signature_set";
  normalized ← mapM_result normalize_signature signatures;
  Ok (sorted_strings (dedup normalized)).

(** scanner/photorec_carving.py:372-374 _validate_timeout *)
Definition validate_timeout (timeout_seconds : Z) : outcome unit :=
  guard_ (negb ((0 <? timeout_seconds) && (timeout_seconds <=? MAX_TIMEOUT_SECONDS))) "invalid_timeout".

(** ** Paths *)

(** What the adapter asks of the file system; [None] is an [OSError]. *)
Class PathFs := {
  fs_is_symlink : pypath -> bool;
  fs_exists : pypath -> bool;
  fs_is_block : pypath -> option bool;
  fs_is_dir : pypath -> bool;
  fs_mode : pypath -> option Z;
  fs_resolve : pypath -> option pypath }.

Definition FORBIDDEN_PATH_PARTS : list string := ["."; ".."].

(** A path whose text is too long or holds a control character, or with a dot component. *)
Definition unsafe_path_text (p : pypath) : bool :=
  (MAX_PATH_CHARS <? str_len (path_str p)) || any_char_in ["000"; "010"; "013"]%char (path_str p)
  || has_part FORBIDDEN_PATH_PARTS p.

Section adapter.
Context `{PathFs}.

(** scanner/photorec_carving.py:299-324 _validate_source_path *)
Definition validate_source_path (p : pypath) : outcome unit :=
  _ ← guard_ (negb (is_absolute p) || unsafe_path_text p || negb (in_parents DEV p)
              || bool_decide (p = DEV)) "unsafe_source_path";
  _ ← guard_ (fs_is_symlink p) "unsafe_source_path";
  if fs_exists p then
    match fs_is_block p with
    | None => refuse "unsafe_source_path"
    | Some block => guard_ (negb block) "unsafe_source_path"
    end
  else Ok tt.

(** scanner/photorec_carving.py:327-331 _validate_binary *)
Definition validate_binary (binary : string) : outcome unit :=
  guard_ (negb (String.eqb binary PHOTOREC_BINARY)) "unsafe_photorec_command".

Definition QUARANTINE : string := "photorec-quarantine".
Definition ROOT : pypath := PyPath "/" [].

(** scanner/photorec_carving.py:377-408 _validate_scratch_root *)
Definition validate_scratch_root (scratch_root : pypath) : outcome (pypath * pypath) :=
  _ ← guard_ (negb (is_absolute scratch_root) || unsafe_path_text scratch_root
              || bool_decide (scratch_root = ROOT) || fs_is_symlink scratch_root) "invalid_scratch_root";
  match fs_resolve scratch_root with
  | None => refuse "invalid_scratch_root"
  | Some resolved =>
    _ ← guard_ (bool_decide (resolved = ROOT) || bool_decide (resolved = DEV) || in_parents DEV resolved)
          "invalid_scratch_root";
    _ ← guard_ (fs_is_symlink (path_join scratch_root QUARANTINE)) "destination_escape";
    let destination := path_join resolved QUARANTINE in
    _ ← guard_ (fs_is_symlink destination) "destination_escape";
    Ok (resolved, destination)
  end.

(** ** The command *)

(** scanner/photorec_carving.py:47-51 PhotoRecCommand *)
Record PhotoRecCommand := {
  pc_args : list string; pc_destination : pypath; pc_signatures : list string }.

Definition all_digits (s : string) : bool := negb (String.eqb s "") && forallb is_digit (chars s).

(** scanner/photorec_carving.py:275-288 _validate_command: one range option. *)
Definition parse_range_option (value : string) : outcome CarveRange :=
  match partition_char ":"%char value with
  | None => refuse "unsafe_photorec_command"
  | Some (offset_text, length_text) =>
    _ ← guard_ (negb (all_digits offset_text) || negb (all_digits length_text)) "unsafe_photorec_command";
    match Z_of_digits offset_text, Z_of_digits length_text with
    | Some offset, Some len =>
      match carve_range offset len with Ok r => Ok r | Err _ => refuse "unsafe_photorec_command" end
    | _, _ => refuse "unsafe_photorec_command"
    end
  end.

(** scanner/photorec_carving.py:265-272 _validate_command: one file option. *)
Definition parse_signature_option (value : string) : outcome (list string) :=
  match partition_char ","%char value with
  | Some (signature, "enable") => normalize_signatures [signature]
  | _ => refuse "unsafe_photorec_command"
  end.

(** scanner/photorec_carving.py:260-292 _validate_command: the options between the source and
    the verb, two arguments each. *)
Fixpoint parse_options (signatures : list string) (ranges : list CarveRange) (options : list string)
    : outcome (list string * list CarveRange) :=
  match options with
  | [] => Ok (signatures, ranges)
  | option :: value :: rest =>
    if String.eqb option "fileopt" then
      s ← parse_signature_option value; parse_options (signatures ++ s)%list ranges rest
    else if String.eqb option "range" then
      r ← parse_range_option value; parse_options signatures (ranges ++ [r])%list rest
    else refuse "unsafe_photorec_command"
  | [_] => refuse "unsafe_photorec_command"
  end.

(** The destination checks of a command line. *)
Definition bad_destination (destination : pypath) : bool :=
  negb (is_absolute destination) || unsafe_path_text destination
  || negb (String.eqb (path_name_of destination) QUARANTINE).

(** The arguments between the source and the verb: [args\[6:-1\]]. *)
Definition option_args (args : list string) : list string := removelast (drop 6 args).

(** scanner/photorec_carving.py:235-296 _validate_command *)
Definition validate_command (args : list string) : outcome unit :=
  let arg i := nth i args "" in
  _ ← guard_ ((zlen args <? 9) || negb (String.eqb (arg 0%nat) PHOTOREC_BINARY)
              || negb (String.eqb (arg 1%nat) "/log") || negb (String.eqb (arg 2%nat) "/d")
              || negb (String.eqb (arg 4%nat) "/cmd")
              || negb (bool_decide (List.last args "" ∈ ["search"; "resume"]))) "unsafe_photorec_command";
  _ ← validate_source_path (parse_path (arg 5%nat));
  _ ← guard_ (bad_destination (parse_path (arg 3%nat))) "destination_escape";
  '(signatures, ranges) ← parse_options [] [] (option_args args);
  _ ← guard_ (bool_decide (length signatures = 0%nat) || bool_decide (length ranges = 0%nat))
        "unsafe_photorec_command";
  validate_ranges ranges.

Definition range_text (r : CarveRange) : string := str_of_Z (cr_offset r) +:+ ":" +:+ str_of_Z (cr_length r).

(** scanner/photorec_carving.py:128-133 build_photorec_command: the options. *)
Definition command_args (binary : string) (destination source_path : pypath) (signatures : list string)
    (ranges : list CarveRange) : list string :=
  ([binary; "/log"; "/d"; path_str destination; "/cmd"; path_str source_path] ++
   concat ((fun s => ["fileopt"; s +:+ ",enable"]) <$> signatures) ++
   concat ((fun r => ["range"; range_text r]) <$> ranges) ++ ["search"])%list.

(** scanner/photorec_carving.py:111-136 build_photorec_command *)
Definition build_photorec_command (source_path scratch_root : pypath) (signatures : list string)
    (ranges : list CarveRange) (binary : string) : outcome PhotoRecCommand :=
  _ ← validate_source_path source_path;
  _ ← validate_binary binary;
  '(scratch_root_resolved, destination) ← validate_scratch_root scratch_root;
  normalized ← normalize_signatures signatures;
  _ ← validate_ranges ranges;
  _ ← guard_ (negb (bool_decide (path_parent destination = scratch_root_resolved))) "destination_escape";
  let args := command_args binary destination source_path normalized ranges in
  _ ← validate_command args;
  Ok {| pc_args := args; pc_destination := destination; pc_signatures := normalized |}.

(** scanner/photorec_carving.py:411-421 _validate_private_directory *)
Definition validate_private_directory (p : pypath) : outcome unit :=
  _ ← guard_ (fs_is_symlink p || negb (fs_is_dir p)) "invalid_scratch_root";
  match fs_mode p with
  | None => refuse "invalid_scratch_root"
  | Some mode => guard_ (negb (Z.land mode 63 =? 0)) "invalid_scratch_root"
  end.

End adapter.

(** ** The log *)

(** scanner/photorec_carving.py:54-59 PhotoRecRunResult *)
Record PhotoRecRunResult := {
  rr_returncode : Z; rr_stdout : string; rr_stderr : string; rr_timed_out : bool }.

(** scanner/photorec_carving.py:62-68 PhotoRecSummary *)
Record PhotoRecSummary := {
  ps_status : string; ps_recovered_count : Z; ps_destination : pypath;
  ps_warnings_ : list string; ps_command : PhotoRecCommand }.

(** A word at the front of a text, whatever its case. *)
Fixpoint match_word (w : list ascii) (l : list ascii) : option (list ascii) :=
  match w, l with
  | [], _ => Some l
  | c :: w, d :: l => if Ascii.eqb c (lower_char d) then match_word w l else None
  | _ :: _, [] => None
  end.

(** At least one blank. *)
Definition match_spaces (l : list ascii) : option (list ascii) :=
  match l with c :: _ => if is_space c then Some (drop_while is_space l) else None | [] => None end.

Fixpoint span_digits (l : list ascii) : list ascii * list ascii :=
  match l with
  | c :: r => if is_digit c then let (a, b) := span_digits r in (c :: a, b) else ([], l)
  | [] => ([], [])
  end.

(** The pattern of line 27 at one position: digits, blanks, the word file or files, blanks, the
    word saved, the case of letters aside. *)
Definition match_recovered (l : list ascii) : option (list ascii) :=
  let (digits, rest) := span_digits l in
  match digits with
  | [] => None
  | _ => rest ← match_spaces rest;
         rest ← match_word (chars "file") rest;
         let rest := default rest (match_word (chars "s") rest) in
         rest ← match_spaces rest;
         _ ← match_word (chars "saved") rest;
         Some digits
  end.

(** [RECOVERED_LINE.search(line)]: the digits of the first position that matches. *)
Fixpoint search_recovered (l : list ascii) : option (list ascii) :=
  match match_recovered l with
  | Some d => Some d
  | None => match l with [] => None | _ :: r => search_recovered r end
  end.

(** [int(text)] of decimal digits: Python refuses more than 4300 of them. *)
Definition int_of_log_digits (digits : list ascii) : option Z :=
  if 4300 <? zlen digits then None else Z_of_digits (of_chars digits).

(** scanner/photorec_carving.py:196-207 parse_photorec_log: one line. *)
Definition log_line (st : Z * list string) (line : list ascii) : Z * list string :=
  let (recovered, warnings) := st in
  match search_recovered line with
  | None => st
  | Some digits =>
    match int_of_log_digits digits with
    | None => (recovered, warnings ++ ["photorec_count_invalid"])%list
    | Some count =>
      if MAX_RECOVERED_COUNT <? count
      then (MAX_RECOVERED_COUNT, warnings ++ ["photorec_count_capped"])%list
      else (Z.max recovered count, warnings)
    end
  end.

(** scanner/photorec_carving.py:435-441 _validate_log_text *)
Definition validate_log_text (value : string) : outcome unit :=
  guard_ (MAX_LOG_CHARS <? str_len value) "photorec_output_too_large".

(** scanner/photorec_carving.py:184-219 parse_photorec_log *)
Definition parse_photorec_log (stdout stderr : string) (returncode : Z) (timed_out : bool)
    : outcome (Z * list string) :=
  _ ← validate_log_text stdout;
  _ ← validate_log_text stderr;
  let (recovered, warnings) := foldl log_line (0, []) (splitlines stdout) in
  let stderr_text := sanitize_text stderr in
  let said w := str_contains w (lower stdout) in
  let warnings :=
    (warnings ++
     (if timed_out then ["photorec_timeout"] else []) ++
     (if bool_decide (returncode ∈ [0; 1; 124]) then [] else ["photorec_exit:" +:+ str_of_Z returncode]) ++
     (if String.eqb stderr_text "" then [] else ["photorec_stderr:" +:+ stderr_text]) ++
     (if said "not a disk image" || said "unknown filesystem" then ["photorec_input_unknown"] else []) ++
     (if str_contains "no space" (lower stderr) || said "no space" then ["photorec_no_space"] else []))%list in
  Ok (recovered, dedup warnings).

(** scanner/photorec_carving.py:424-432 _validate_run_result *)
Definition validate_run_result (r : PhotoRecRunResult) : outcome unit :=
  _ ← validate_log_text (rr_stdout r); validate_log_text (rr_stderr r).

(** scanner/photorec_carving.py:139-181 run_photorec_carve: [make_directories] creates the two
    private directories, or fails; [runner] is the tool; the checks after it see the file system
    the creation leaves. *)
Definition run_photorec_carve (before after : PathFs) (make_directories : pypath -> pypath -> bool)
    (runner : list string -> Z -> outcome PhotoRecRunResult)
    (source_path scratch_root : pypath) (signatures : list string) (ranges : list CarveRange)
    (timeout_seconds : Z) (binary : string) : outcome PhotoRecSummary :=
  _ ← validate_timeout timeout_seconds;
  command ← @build_photorec_command before source_path scratch_root signatures ranges binary;
  let destination := pc_destination command in
  _ ← guard_ (negb (make_directories (path_parent destination) destination)) "destination_unavailable";
  _ ← @validate_private_directory after (path_parent destination);
  _ ← @validate_private_directory after destination;
  result ← runner (pc_args command) timeout_seconds;
  _ ← validate_run_result result;
  '(recovered_count, warnings) ← parse_photorec_log (rr_stdout result) (rr_stderr result)
                                   (rr_returncode result) (rr_timed_out result);
  let status := if rr_timed_out result || negb (bool_decide (rr_returncode result ∈ [0; 1])) then "partial"
                else if rr_returncode result =? 1 then "completed-warning" else "complete" in
  Ok {| ps_status := status; ps_recovered_count := recovered_count; ps_destination := destination;
        ps_warnings_ := warnings; ps_command := command |}.

Example log_example :
  parse_photorec_log ("PhotoRec 7.2" +:+ of_chars ["010"%char] +:+ "12 Files  saved in /x" +:+ of_chars ["010"%char]
                      +:+ "3 file saved, 99999999999999999999 files saved") "" 3 false =
  Ok (12, ["photorec_exit:3"]).
Proof. by vm_compute. Qed.

(** ** Which command lines are accepted *)

Inductive carve_option :=
  | SignatureOpt (signature : string)
  | RangeOpt (offset length : string).

Definition render_option (o : carve_option) : list string :=
  match o with
  | SignatureOpt s => ["fileopt"; s +:+ ",enable"]
  | RangeOpt a b => ["range"; a +:+ ":" +:+ b]
  end.

(** The range of an option with decimal digits. *)
Definition option_range (o : carve_option) : option CarveRange :=
  match o with
  | RangeOpt a b =>
    offset ← Z_of_digits a; len ← Z_of_digits b; Some {| cr_offset := offset; cr_length := len |}
  | SignatureOpt _ => None
  end.

Definition option_signatures (o : carve_option) : list string :=
  match o with SignatureOpt s => [lower s] | RangeOpt _ _ => [] end.

Definition option_ok (o : carve_option) : Prop :=
  match o with
  | SignatureOpt s => normalize_signature s = Ok (lower s)
  | RangeOpt a b => all_digits a = true /\ all_digits b = true /\
      exists r, option_range (RangeOpt a b) = Some r /\ bad_range_values (cr_offset r) (cr_length r) = false
  end.

Lemma normalize_signature_lower s t : normalize_signature s = Ok t -> t = lower s.
Proof. unfold normalize_signature. intros H. by inv_ok. Qed.

Lemma normalize_signature_no_comma s t : normalize_signature s = Ok t -> ","%char ∉ chars s.
Proof.
  unfold normalize_signature, guard_. intros H. inv_ok.
  match goal with H : _ || _ || any_char_in _ _ = false |- _ => apply orb_false_iff in H as [_ H]; rename H into Ha end.
  intros Hin. rewrite <- not_true_iff_false in Ha. apply Ha. unfold any_char_in. apply existsb_elem.
  exists ","%char. split; [elem_list|]. unfold char_in. apply existsb_elem. exists ","%char.
  split; [done|]. apply Ascii.eqb_refl.
Qed.

Lemma normalize_one s : normalize_signatures [s] = (t ← normalize_signature s; Ok [t]).
Proof.
  unfold normalize_signatures, guard_. cbn [length]. rewrite bool_decide_false by done.
  cbn [mapM_result]. by destruct (normalize_signature s).
Qed.

Lemma parse_signature_option_spec value l :
  parse_signature_option value = Ok l <->
  exists s, value = s +:+ ",enable" /\ option_ok (SignatureOpt s) /\ l = option_signatures (SignatureOpt s).
Proof.
  unfold parse_signature_option. split.
  - destruct (partition_char ","%char value) as [[s e]|] eqn:E; [|done].
    destruct (String.eqb_spec e "enable") as [->|Hne].
    + apply partition_char_spec in E as [-> _]. rewrite normalize_one.
      destruct (normalize_signature s) as [t|] eqn:Et; [|done]. intros [= <-].
      exists s. simpl. by rewrite <- (normalize_signature_lower _ _ Et).
    + intros H. exfalso. revert H. repeat (case_match; try done).
  - intros (s & -> & Hok & ->). simpl in Hok.
    assert (partition_char "," (s +:+ ",enable") = Some (s, "enable")) as ->.
    { apply partition_char_spec. split; [done|]. by eapply normalize_signature_no_comma. }
    rewrite normalize_one, Hok. done.
Qed.

Lemma all_digits_no_colon s : all_digits s = true -> ":"%char ∉ chars s.
Proof.
  unfold all_digits. intros [_ H]%andb_true_iff Hin. rewrite forallb_elem in H. by apply H in Hin.
Qed.

Lemma parse_range_option_spec value r :
  parse_range_option value = Ok r <->
  exists a b, value = a +:+ ":" +:+ b /\ option_ok (RangeOpt a b) /\ option_range (RangeOpt a b) = Some r.
Proof.
  unfold parse_range_option, option_ok, option_range. split.
  - destruct (partition_char ":"%char value) as [[a b]|] eqn:E; [|done].
    apply partition_char_spec in E as [-> _]. intros H. apply bind_ok in H as ([] & Hd & H).
    apply raise_if_ok in Hd. apply orb_false_iff in Hd as [Ha Hb].
    apply negb_false_iff in Ha, Hb. exists a, b.
    destruct (Z_of_digits a) as [o|]; [|done]. destruct (Z_of_digits b) as [n|]; [|done].
    unfold carve_range, guard_, raise_if in H. destruct (bad_range_values o n) eqn:Eb; [done|].
    injection H as <-. cbn. split_and!; [done..|eauto|done].
  - intros (a & b & -> & (Ha & Hb & r' & Hr' & Hbad) & Hr).
    assert (partition_char ":" (a +:+ ":" +:+ b) = Some (a, b)) as ->.
    { apply partition_char_spec. split; [done|]. by apply all_digits_no_colon. }
    rewrite Ha, Hb. cbn. destruct (Z_of_digits a) as [o|]; [|done]. destruct (Z_of_digits b) as [n|]; [|done].
    cbn in Hr, Hr'. simplify_eq. cbn in Hbad. unfold carve_range, guard_, raise_if. by rewrite Hbad.
Qed.

(** The options parse exactly when they are rendered ones. *)
Lemma parse_options_spec options ss rs ss' rs' :
  parse_options ss rs options = Ok (ss', rs') <->
  exists opts, options = concat (render_option <$> opts) /\ Forall option_ok opts /\
    ss' = (ss ++ concat (option_signatures <$> opts))%list /\ rs' = (rs ++ omap option_range opts)%list.
Proof.
  split.
  - revert ss rs. induction options as [options IH] using (induction_ltof1 _ (@length string)). unfold ltof in IH.
    intros ss rs. destruct options as [|o [|v rest]]; [|done|].
    { intros [= <- <-]. exists []. cbn. by rewrite !app_nil_r. }
    cbn [parse_options]. destruct (String.eqb_spec o "fileopt") as [->|Ho];
      [|destruct (String.eqb_spec o "range") as [->|Ho']; [|done]].
    + intros H. apply bind_ok in H as (l & Hl & H).
      apply parse_signature_option_spec in Hl as (s & -> & Hok & ->).
      apply IH in H as (opts & -> & Hall & -> & ->); [|simpl; lia].
      exists (SignatureOpt s :: opts). split_and!; [done|by constructor| |done].
      rewrite fmap_cons. cbn [concat]. by rewrite <- app_assoc.
    + intros H. apply bind_ok in H as (r & Hr & H).
      apply parse_range_option_spec in Hr as (a & b & -> & Hok & Hr).
      apply IH in H as (opts & -> & Hall & -> & ->); [|simpl; lia].
      exists (RangeOpt a b :: opts). split_and!; [done|by constructor|done|].
      cbn [omap list_omap]. rewrite Hr. by rewrite <- app_assoc.
  - intros (opts & -> & Hall & -> & ->). revert ss rs.
    induction Hall as [|o opts Hok _ IH]; intros ss rs; [cbn; by rewrite !app_nil_r|].
    rewrite !fmap_cons. cbn [concat]. destruct o as [s|a b]; cbn [render_option app parse_options].
    + rewrite (proj2 (parse_signature_option_spec _ (option_signatures (SignatureOpt s)))) by eauto.
      cbn [mbind result_bind]. rewrite IH. by rewrite <- app_assoc.
    + destruct Hok as (Ha & Hb & r & Hr & Hbad).
      rewrite (proj2 (parse_range_option_spec _ r)) by (exists a, b; split_and!; [done| |done]; split_and!; eauto).
      cbn [mbind result_bind]. rewrite IH. cbn [omap list_omap]. rewrite Hr. by rewrite <- app_assoc.
Qed.

Lemma render_option_two o : exists a b, render_option o = [a; b].
Proof. destruct o; simpl; eauto. Qed.

Lemma length_rendered opts : length (concat (render_option <$> opts)) = (2 * length opts)%nat.
Proof.
  induction opts as [|o opts IH]; [done|]. rewrite fmap_cons. cbn [concat]. rewrite length_app, IH.
  destruct (render_option_two o) as (a & b & ->). simpl. lia.
Qed.

Lemma omap_range_nil opts :
  Forall option_ok opts -> omap option_range opts = [] <-> forall o, o ∈ opts -> exists s, o = SignatureOpt s.
Proof.
  intros Hall. rewrite Forall_forall in Hall. split.
  - intros E o Ho. destruct o as [s|a b]; [eauto|]. exfalso.
    destruct (Hall _ Ho) as (_ & _ & r & Hr & _).
    assert (r ∈ omap option_range opts) as Hin by (apply list_elem_of_omap; eauto).
    rewrite E in Hin. by apply elem_of_nil in Hin.
  - intros Hs. destruct (omap option_range opts) as [|r l] eqn:E; [done|].
    assert (r ∈ omap option_range opts) as (o & Ho & Hr)%list_elem_of_omap by (rewrite E; left).
    destruct (Hs o Ho) as [s ->]. done.
Qed.

Lemma valid_ranges_ok opts :
  Forall option_ok opts ->
  existsb (fun r => bad_range_values (cr_offset r) (cr_length r)) (omap option_range opts) = false.
Proof.
  intros Hall. rewrite <- not_true_iff_false, existsb_elem.
  intros (r & (o & Ho & Hr)%list_elem_of_omap & Hb). rewrite Forall_forall in Hall.
  destruct o as [s|a b]; [done|]. destruct (Hall _ Ho) as (_ & _ & r' & Hr' & Hb'). simplify_eq. congruence.
Qed.

Section accepted.
Context `{PathFs}.

(** The fixed form of a command line. *)
Definition command_line (dest src : string) (opts : list carve_option) (verb : string) : list string :=
  ([PHOTOREC_BINARY; "/log"; "/d"; dest; "/cmd"; src] ++ concat (render_option <$> opts) ++ [verb])%list.

Lemma option_args_line dest src opts verb :
  option_args (command_line dest src opts verb) = concat (render_option <$> opts).
Proof.
  change (removelast (concat (render_option <$> opts) ++ [verb])%list = concat (render_option <$> opts)).
  apply List.removelast_last.
Qed.

Lemma args_shape args :
  9 <= zlen args -> nth 0 args "" = PHOTOREC_BINARY -> nth 1 args "" = "/log" -> nth 2 args "" = "/d" ->
  nth 4 args "" = "/cmd" ->
  args = ([PHOTOREC_BINARY; "/log"; "/d"; nth 3 args ""; "/cmd"; nth 5 args ""] ++ option_args args ++
          [List.last args ""])%list.
Proof.
  unfold zlen. intros Hl. do 6 (destruct args as [|? args]; [simpl in Hl; lia|]).
  destruct args as [|a args]; [simpl in Hl; lia|]. cbn [nth]. intros -> -> -> ->.
  unfold option_args. cbn [drop app]. repeat f_equal.
  rewrite (app_removelast_last (l := a :: args) "") at 1 by done. done.
Qed.

Lemma validate_command_ok args :
  validate_command args = Ok tt <->
  exists dest src opts verb, args = command_line dest src opts verb /\
    (verb = "search" \/ verb = "resume") /\ validate_source_path (parse_path src) = Ok tt /\
    bad_destination (parse_path dest) = false /\ Forall option_ok opts /\
    (exists s, SignatureOpt s ∈ opts) /\ (exists a b, RangeOpt a b ∈ opts) /\
    zlen (omap option_range opts) <= MAX_RANGES.
Proof.
  unfold validate_command. split.
  - intros Hv. apply bind_ok in Hv as ([] & Hg%raise_if_ok & Hv).
    repeat (apply orb_false_iff in Hg as [Hg ?]).
    repeat match goal with H : negb (_ =? _)%string = false |- _ => apply negb_false_iff, String.eqb_eq in H end.
    match goal with H : negb (bool_decide _) = false |- _ => apply negb_false_iff, bool_decide_eq_true in H; rename H into Hverb end.
    apply Z.ltb_ge in Hg. apply bind_ok in Hv as ([] & Hs & Hv). apply bind_ok in Hv as ([] & Hd%raise_if_ok & Hv).
    apply bind_ok in Hv as ([ss rs] & Ho & Hv). apply bind_ok in Hv as ([] & Hn%raise_if_ok & Hv).
    apply orb_false_iff in Hn as [Hn1%bool_decide_eq_false Hn2%bool_decide_eq_false].
    apply parse_options_spec in Ho as (opts & Eo & Hall & -> & ->).
    exists (nth 3 args ""), (nth 5 args ""), opts, (List.last args ""). split_and!; [|..|done|done|done| | |].
    + unfold command_line. rewrite <- Eo. by apply args_shape.
    + apply elem_of_cons in Hverb as [->|[->|?%elem_of_nil]%elem_of_cons]; auto. done.
    + clear -Hn1. induction opts as [|[s|a b] opts IH]; [done|exists s; left|].
      destruct IH as [s Hs]; [done|]. exists s. by right.
    + clear -Hn2. induction opts as [|[s|a b] opts IH]; [done| |exists a, b; left].
      destruct IH as (a & b & Hs); [done|]. exists a, b. by right.
    + unfold validate_ranges in Hv. apply bind_ok in Hv as ([] & _ & Hv).
      apply bind_ok in Hv as ([] & Hm%raise_if_ok & _). by apply Z.ltb_ge.
  - intros (dest & src & opts & verb & -> & Hverb & Hs & Hd & Hall & (s & Hsin) & (a & b & Hrin) & Hmax).
    rewrite option_args_line. unfold guard_.
    assert (List.last (command_line dest src opts verb) "" = verb) as ->.
    { unfold command_line. by rewrite app_assoc, List.last_last. }
    assert ((zlen (command_line dest src opts verb) <? 9) = false) as ->.
    { apply Z.ltb_ge. unfold zlen, command_line. rewrite !length_app, length_rendered. simpl.
      assert (2 <= length opts)%nat; [|lia].
      destruct opts as [|o1 [|o2 opts]]; simpl; try lia; [by apply elem_of_nil in Hsin|].
      apply list_elem_of_singleton in Hsin, Hrin. congruence. }
    assert (bool_decide (verb ∈ ["search"; "resume"]) = true) as ->.
    { apply bool_decide_eq_true. destruct Hverb as [->| ->]; elem_list. }
    cbn [command_line app nth orb negb String.eqb Ascii.eqb Bool.eqb PHOTOREC_BINARY raise_if mbind result_bind].
    rewrite Hs. cbn [mbind result_bind]. rewrite Hd. cbn [raise_if].
    rewrite (proj2 (parse_options_spec _ [] [] _ _)) by (exists opts; split_and!; done).
    cbn [mbind result_bind app].
    assert (concat (option_signatures <$> opts) <> []) as Hne.
    { intros E. assert (lower s ∈ concat (option_signatures <$> opts)) as Hin.
      { apply elem_of_concat. exists [lower s]. split; [left|]. apply list_elem_of_fmap. by exists (SignatureOpt s). }
      rewrite E in Hin. by apply elem_of_nil in Hin. }
    assert (omap option_range opts <> []) as Hne'.
    { rewrite (omap_range_nil opts Hall). intros Hc. by destruct (Hc _ Hrin). }
    rewrite bool_decide_false by by intros ?%nil_length_inv.
    rewrite bool_decide_false by by intros ?%nil_length_inv.
    cbn [orb raise_if mbind result_bind]. unfold validate_ranges, guard_.
    rewrite bool_decide_false by by intros ?%nil_length_inv.
    rewrite valid_ranges_ok by done. by rewrite (proj2 (Z.ltb_ge _ _)) by done.
Qed.

(** The command lines that may run are exactly these: the pinned tool with its log and
    destination options, a destination path of the quarantine's name, a device path that
    passes the source checks, then file options with allowlisted signatures and range options
    with decimal numbers whose range lies below 2^63, at least one of each and at most 4096
    ranges, and the verb. *)
Theorem valid_command_exact args :
  validate_command args = Ok tt <->
  exists dest src opts verb, args = command_line dest src opts verb /\
    (verb = "search" \/ verb = "resume") /\ validate_source_path (parse_path src) = Ok tt /\
    bad_destination (parse_path dest) = false /\ Forall option_ok opts /\
    (exists s, SignatureOpt s ∈ opts) /\ (exists a b, RangeOpt a b ∈ opts) /\
    zlen (omap option_range opts) <= MAX_RANGES.
Proof. exact (validate_command_ok args). Qed.
End accepted.

(** ** The command that is built *)

Lemma allowed_normal s : s ∈ ALLOWED_SIGNATURES -> normalize_signature s = Ok s /\ lower s = s.
Proof.
  intros Hs. repeat (apply elem_of_cons in Hs as [->|Hs]; [by vm_compute|]). by apply elem_of_nil in Hs.
Qed.

Lemma normalize_signature_ok s t : normalize_signature s = Ok t -> t = lower s /\ t ∈ ALLOWED_SIGNATURES.
Proof.
  unfold normalize_signature. intros H. apply bind_ok in H as ([] & _ & H). cbn zeta in H.
  apply bind_ok in H as ([] & Hb%raise_if_ok & H). injection H as <-.
  split; [done|]. by apply negb_false_iff, bool_decide_eq_true in Hb.
Qed.

Lemma mapM_result_elem {E A B} (f : A -> result E B) l k :
  mapM_result f l = Ok k -> forall b, b ∈ k <-> exists a, a ∈ l /\ f a = Ok b.
Proof.
  revert k. induction l as [|a l IH]; intros k; simpl.
  - intros [= <-] b. rewrite elem_of_nil. split; [done|]. by intros (? & ?%elem_of_nil & _).
  - intros H. apply bind_ok in H as (b & Hb & H). apply bind_ok in H as (bs & Hbs & H). injection H as <-.
    intros c. rewrite elem_of_cons, (IH _ Hbs). setoid_rewrite elem_of_cons. split.
    + intros [->|(x & ? & ?)]; eauto.
    + intros (x & [->|?] & ?); [left; congruence|eauto].
Qed.

(** The normal form of a set of signatures: sorted, without duplicates, lower case, allowed. *)
Lemma normalize_signatures_ok l k :
  normalize_signatures l = Ok k ->
  k <> [] /\ Sorted String.le k /\ NoDup k /\
  forall t, t ∈ k <-> t ∈ ALLOWED_SIGNATURES /\ exists s, s ∈ l /\ normalize_signature s = Ok t.
Proof.
  unfold normalize_signatures. intros H. apply bind_ok in H as ([] & Hn%raise_if_ok & H).
  apply bool_decide_eq_false in Hn. apply bind_ok in H as (ts & Hts & H). injection H as <-.
  pose proof (mapM_result_elem _ _ _ Hts) as Hin.
  assert (Hiff : forall t, t ∈ sorted_strings (dedup ts) <-> t ∈ ALLOWED_SIGNATURES /\ exists s, s ∈ l /\ normalize_signature s = Ok t).
  { intros t. unfold sorted_strings. rewrite merge_sort_Permutation, elem_of_dedup, Hin. split.
    - intros (s & Hs & Ht). split; [by eapply normalize_signature_ok|eauto].
    - intros [_ ?]. done. }
  split_and!; [|apply Sorted_merge_sort; apply _| |done].
  - intros E. destruct l as [|s l]; [done|]. simpl in Hts. apply bind_ok in Hts as (t & Ht & _).
    assert (t ∈ sorted_strings (dedup ts)) as Hc.
    { apply Hiff. split; [by eapply normalize_signature_ok|]. exists s. split; [left|done]. }
    rewrite E in Hc. by apply elem_of_nil in Hc.
  - unfold sorted_strings. rewrite merge_sort_Permutation. apply NoDup_dedup.
Qed.

Lemma all_digits_str z : 0 <= z -> all_digits (str_of_Z z) = true.
Proof.
  intros Hz. unfold all_digits, str_of_Z, Z_chars. destruct (Z.ltb_spec z 0); [lia|].
  rewrite chars_of_chars. apply andb_true_iff. split.
  - apply negb_true_iff, String.eqb_neq. intros E.
    apply (f_equal (fun s => chars s)) in E. rewrite chars_of_chars in E.
    destruct (N.to_uint (Z.to_N z)) eqn:Eu; try done. by apply to_uint_nonnil in Eu.
  - induction (N.to_uint (Z.to_N z)); simpl; auto.
Qed.

Definition built_options (signatures : list string) (ranges : list CarveRange) : list carve_option :=
  ((SignatureOpt <$> signatures) ++
   ((fun r => RangeOpt (str_of_Z (cr_offset r)) (str_of_Z (cr_length r))) <$> ranges))%list.

Lemma built_option_range r :
  bad_range_values (cr_offset r) (cr_length r) = false ->
  option_ok (RangeOpt (str_of_Z (cr_offset r)) (str_of_Z (cr_length r))) /\
  option_range (RangeOpt (str_of_Z (cr_offset r)) (str_of_Z (cr_length r))) = Some r.
Proof.
  intros Hb. pose proof Hb as Hb'. unfold bad_range_values in Hb'.
  repeat (apply orb_false_iff in Hb' as [Hb' ?]). apply Z.ltb_ge in Hb'.
  assert (0 < cr_length r) by (by apply Z.leb_gt).
  assert (option_range (RangeOpt (str_of_Z (cr_offset r)) (str_of_Z (cr_length r))) = Some r) as Hr.
  { cbn. rewrite !Z_of_digits_str by lia. by destruct r. }
  split; [|done]. split_and!; [apply all_digits_str; lia..|]. by exists r.
Qed.

Lemma validate_ranges_ok ranges :
  validate_ranges ranges = Ok tt ->
  ranges <> [] /\ zlen ranges <= MAX_RANGES /\
  forall r, r ∈ ranges -> bad_range_values (cr_offset r) (cr_length r) = false.
Proof.
  unfold validate_ranges. intros H. apply bind_ok in H as ([] & Hn%raise_if_ok & H).
  apply bind_ok in H as ([] & Hm%raise_if_ok & H). apply raise_if_ok in H.
  apply bool_decide_eq_false in Hn. apply Z.ltb_ge in Hm. split_and!; [|done|].
  - by intros ->.
  - intros r Hr. apply not_true_iff_false. intros Hb. rewrite <- not_true_iff_false in H. apply H.
    apply existsb_elem. eauto.
Qed.

Lemma built_options_facts signatures ranges :
  (forall s, s ∈ signatures -> s ∈ ALLOWED_SIGNATURES) ->
  (forall r, r ∈ ranges -> bad_range_values (cr_offset r) (cr_length r) = false) ->
  Forall option_ok (built_options signatures ranges) /\
  concat (option_signatures <$> built_options signatures ranges) = signatures /\
  omap option_range (built_options signatures ranges) = ranges.
Proof.
  intros Hs Hr. unfold built_options. split_and!.
  - apply Forall_app. split; apply Forall_fmap, Forall_forall.
    + intros s Hin. simpl. destruct (allowed_normal s (Hs s Hin)) as [E1 E2]. unfold compose. simpl. by rewrite E1, E2.
    + intros r Hin. by apply built_option_range, Hr.
  - rewrite fmap_app, concat_app. rewrite <- !list_fmap_compose.
    assert (concat ((option_signatures ∘ (fun r => RangeOpt (str_of_Z (cr_offset r)) (str_of_Z (cr_length r)))) <$> ranges) = []) as ->.
    { clear. induction ranges; simpl; done. }
    rewrite app_nil_r. clear Hr. induction signatures as [|s l IH]; [done|]. rewrite fmap_cons. cbn [concat].
    rewrite IH by (intros; apply Hs; by right). unfold compose. simpl.
    by destruct (allowed_normal s) as [_ ->]; [apply Hs; left|].
  - rewrite omap_app. assert (omap option_range (SignatureOpt <$> signatures) = []) as ->.
    { clear. induction signatures; simpl; done. }
    simpl. clear Hs. induction ranges as [|r l IH]; [done|]. cbn [fmap list_fmap omap list_omap].
    rewrite (proj2 (built_option_range r (Hr r (list_elem_of_here _ _)))). f_equal.
    apply IH. intros x Hx. apply Hr. by right.
Qed.

Section built.
Context `{PathFs}.

Lemma command_args_line binary destination source_path signatures ranges :
  binary = PHOTOREC_BINARY ->
  command_args binary destination source_path signatures ranges =
  command_line (path_str destination) (path_str source_path) (built_options signatures ranges) "search".
Proof.
  intros ->. unfold command_args, command_line, built_options.
  rewrite fmap_app, concat_app, <- !list_fmap_compose, <- app_assoc. done.
Qed.

(** When source, scratch root, signatures and ranges pass their own checks, a command is
    built: the final validation of the arguments never refuses what the checks accepted.  Its
    arguments are the fixed form, and parsing the options gives back the sorted set of
    signatures and the ranges, in order and exactly. *)
Theorem build_command_roundtrip source_path scratch_root signatures ranges resolved destination normalized :
  wf_path source_path -> wf_path resolved -> is_absolute resolved = true ->
  validate_source_path source_path = Ok tt ->
  validate_scratch_root scratch_root = Ok (resolved, destination) ->
  unsafe_path_text destination = false ->
  normalize_signatures signatures = Ok normalized ->
  validate_ranges ranges = Ok tt ->
  exists cmd,
    build_photorec_command source_path scratch_root signatures ranges PHOTOREC_BINARY = Ok cmd /\
    pc_destination cmd = destination /\ pc_signatures cmd = normalized /\
    path_parent destination = resolved /\ in_parents DEV resolved = false /\
    validate_command (pc_args cmd) = Ok tt /\
    parse_options [] [] (option_args (pc_args cmd)) = Ok (normalized, ranges).
Proof.
  intros Hsrc Hres Habs Hvs Hvr Hun Hns Hrg.
  assert (destination = path_join resolved QUARANTINE /\ in_parents DEV resolved = false) as [-> Hdev].
  { clear -Hvr. unfold validate_scratch_root in Hvr. apply bind_ok in Hvr as ([] & _ & Hvr).
    destruct (fs_resolve scratch_root) as [r|]; [|done]. apply bind_ok in Hvr as ([] & Hd%raise_if_ok & Hvr).
    apply bind_ok in Hvr as ([] & _ & Hvr). apply bind_ok in Hvr as ([] & _ & Hvr). injection Hvr as -> <-.
    split; [done|]. by apply orb_false_iff in Hd as [_ ?]. }
  destruct (normalize_signatures_ok _ _ Hns) as (Hne & _ & _ & Hin).
  destruct (validate_ranges_ok _ Hrg) as (Hrne & Hmax & Hbad).
  destruct (built_options_facts normalized ranges) as (Hok & Hsig & Hran);
    [intros s Hs; by apply Hin in Hs as [? _]|done|].
  assert (Hpp : path_parent (path_join resolved QUARANTINE) = resolved).
  { destruct resolved. unfold path_parent, path_join. simpl. by rewrite List.removelast_last. }
  assert (Habss : is_absolute source_path = true).
  { clear -Hvs. unfold validate_source_path in Hvs. apply bind_ok in Hvs as ([] & Hg%raise_if_ok & _).
    repeat apply orb_false_iff in Hg as [Hg _]. by apply negb_false_iff. }
  assert (Hwf : wf_path (path_join resolved QUARANTINE)).
  { destruct Hres as [Hr Hp]. split; [done|]. simpl. apply Forall_app. split; [done|].
    apply Forall_singleton. split_and!; [done..|]. apply (bool_decide_unpack _). by vm_compute. }
  assert (Hvalid : validate_command (command_args PHOTOREC_BINARY (path_join resolved QUARANTINE) source_path normalized ranges) = Ok tt).
  { rewrite command_args_line by done. apply validate_command_ok.
    exists (path_str (path_join resolved QUARANTINE)), (path_str source_path), (built_options normalized ranges), "search".
    rewrite !parse_path_str by done. split_and!; [done|by left|done| |done| | |by rewrite Hran].
    - unfold bad_destination. rewrite Hun. unfold is_absolute in *. simpl. rewrite Habs. simpl.
      unfold path_name_of. simpl. by rewrite last_snoc.
    - destruct normalized as [|s l]; [done|]. exists s. left.
    - destruct ranges as [|r l]; [done|]. eexists _, _. apply elem_of_app. right. left. }
  eexists. split.
  { unfold build_photorec_command. rewrite Hvs, Hvr, Hns, Hrg. cbn [mbind result_bind validate_binary].
    unfold validate_binary, guard_. rewrite String.eqb_refl. cbn [negb raise_if mbind result_bind].
    rewrite Hpp, bool_decide_true by done. cbn [negb raise_if mbind result_bind]. rewrite Hvalid.
    cbn [mbind result_bind]. reflexivity. }
  cbn [pc_args pc_destination pc_signatures]. split_and!; try done.
  rewrite command_args_line by done. rewrite option_args_line. apply parse_options_spec.
  exists (built_options normalized ranges). by rewrite Hsig, Hran.
Qed.
End built.

(** ** The recovered count *)

(** The counts the lines of a log name. *)
Definition log_counts (stdout : string) : list Z :=
  omap (fun line => d ← search_recovered line; int_of_log_digits d) (splitlines stdout).

(** The largest of some counts, each capped. *)
Fixpoint capped_max (cap : Z) (l : list Z) : Z :=
  match l with [] => 0 | x :: l => Z.max (Z.min cap x) (capped_max cap l) end.
Definition counted (l : list Z) : Z := capped_max MAX_RECOVERED_COUNT l.

Section capped.
Variable cap : Z.
Hypothesis cap_nonneg : 0 <= cap.

Lemma capped_bounds l : 0 <= capped_max cap l <= cap.
Proof. induction l as [|x l IH]; simpl; lia. Qed.

Lemma capped_snoc l x : 0 <= x -> capped_max cap (l ++ [x])%list = Z.max (capped_max cap l) (Z.min cap x).
Proof. intros Hx. induction l as [|y l IH]; simpl; lia. Qed.

Lemma capped_upper l c : c ∈ l -> Z.min cap c <= capped_max cap l.
Proof.
  induction l as [|x l IH]; [by intros ?%elem_of_nil|]. simpl.
  intros [->|Hc]%elem_of_cons; [lia|]. specialize (IH Hc). lia.
Qed.

Lemma capped_attained l : capped_max cap l <> 0 -> exists c, c ∈ l /\ capped_max cap l = Z.min cap c.
Proof.
  induction l as [|x l IH]; simpl; [done|]. intros Hn.
  destruct (Z.le_gt_cases (capped_max cap l) (Z.min cap x)).
  - exists x. split; [left|lia].
  - destruct IH as (c & Hc & E); [lia|]. exists c. split; [by right|lia].
Qed.

(** One step of the code's loop. *)
Lemma capped_step l c : 0 <= c -> (if cap <? c then cap else Z.max (capped_max cap l) c) = capped_max cap (l ++ [c])%list.
Proof. intros Hc. rewrite capped_snoc by done. pose proof (capped_bounds l). destruct (Z.ltb_spec cap c); lia. Qed.
End capped.

Lemma max_count_nonneg : 0 <= MAX_RECOVERED_COUNT.
Proof. by vm_compute. Qed.

Lemma int_of_log_digits_nonneg d n : int_of_log_digits d = Some n -> 0 <= n.
Proof.
  unfold int_of_log_digits. case_match; [done|]. unfold Z_of_digits.
  destruct (chars _) as [|c l]; [done|]. destruct (take_digits _) as [u [|]]; [|done].
  intros [= <-]. unfold uint_Z. lia.
Qed.

Lemma log_lines_counted lines :
  (foldl log_line (0, []) lines).1 =
  counted (omap (fun line => d ← search_recovered line; int_of_log_digits d) lines).
Proof.
  induction lines as [|line lines IH] using rev_ind; [done|]. rewrite foldl_snoc, omap_app. cbn [omap list_omap].
  destruct (foldl log_line (0, []) lines) as [n ws]. cbn [fst] in IH. subst n. unfold log_line.
  destruct (search_recovered line) as [d|]; cbn [mbind option_bind]; [|by rewrite app_nil_r].
  destruct (int_of_log_digits d) as [c|] eqn:E; [|by rewrite app_nil_r].
  apply int_of_log_digits_nonneg in E. unfold counted. rewrite <- capped_step by (done || apply max_count_nonneg).
  by destruct (MAX_RECOVERED_COUNT <? c).
Qed.

(** The recovered count of a log is the largest number of saved files any of its lines names,
    capped at 2^63 - 1: a later smaller count does not lower it, a capped one is never lowered
    either, and without such a line it is zero. *)
Theorem recovered_count_max stdout stderr returncode timed_out n warnings :
  parse_photorec_log stdout stderr returncode timed_out = Ok (n, warnings) ->
  n = counted (log_counts stdout) /\ 0 <= n <= MAX_RECOVERED_COUNT /\
  (forall c, c ∈ log_counts stdout -> Z.min MAX_RECOVERED_COUNT c <= n) /\
  (n <> 0 -> exists c, c ∈ log_counts stdout /\ n = Z.min MAX_RECOVERED_COUNT c).
Proof.
  unfold parse_photorec_log. intros H. apply bind_ok in H as ([] & _ & H). apply bind_ok in H as ([] & _ & H).
  pose proof (log_lines_counted (splitlines stdout)) as Hl.
  destruct (foldl log_line (0, []) (splitlines stdout)) as [m ws]. injection H as <- _.
  cbn [fst] in Hl. fold (log_counts stdout) in Hl. subst m.
  pose proof max_count_nonneg. split_and!; [done|by apply capped_bounds..| |].
  - intros c. by apply capped_upper.
  - by apply capped_attained.
Qed.

(** ** Witnesses *)

(** A file system without links whose paths are resolved already. *)
Definition flat_fs : PathFs :=
  {| fs_is_symlink _ := false; fs_exists _ := true; fs_is_block _ := Some true; fs_is_dir _ := true;
     fs_mode _ := Some 448; fs_resolve p := Some p |}.

Definition sample_ranges : list CarveRange :=
  [{| cr_offset := 0; cr_length := 512 |}; {| cr_offset := 4096; cr_length := 1048576 |}].

Lemma build_command_roundtrip_witness :
  exists cmd, @build_photorec_command flat_fs (parse_path "/dev/sdb") (parse_path "/var/scratch")
      ["ZIP"; "jpg"; "zip"] sample_ranges PHOTOREC_BINARY = Ok cmd /\
    pc_args cmd = ["photorec"; "/log"; "/d"; "/var/scratch/photorec-quarantine"; "/cmd"; "/dev/sdb";
                   "fileopt"; "jpg,enable"; "fileopt"; "zip,enable"; "range"; "0:512";
                   "range"; "4096:1048576"; "search"] /\
    parse_options [] [] (option_args (pc_args cmd)) = Ok (["jpg"; "zip"], sample_ranges).
Proof.
  destruct (@build_command_roundtrip flat_fs (parse_path "/dev/sdb") (parse_path "/var/scratch")
              ["ZIP"; "jpg"; "zip"] sample_ranges (parse_path "/var/scratch")
              (parse_path "/var/scratch/photorec-quarantine") ["jpg"; "zip"])
    as (cmd & Hb & _ & _ & _ & _ & _ & Hp);
    [apply wf_parse_path..|by vm_compute|by vm_compute|by vm_compute|by vm_compute|by vm_compute|by vm_compute|].
  exists cmd. split; [exact Hb|]. split; [|exact Hp].
  assert (pc_args <$> @build_photorec_command flat_fs (parse_path "/dev/sdb") (parse_path "/var/scratch")
      ["ZIP"; "jpg"; "zip"] sample_ranges PHOTOREC_BINARY =
    Ok ["photorec"; "/log"; "/d"; "/var/scratch/photorec-quarantine"; "/cmd"; "/dev/sdb";
        "fileopt"; "jpg,enable"; "fileopt"; "zip,enable"; "range"; "0:512";
        "range"; "4096:1048576"; "search"]) as E by by vm_compute.
  rewrite Hb in E. by injection E.
Defined.

Definition sample_log : string :=
  "5 files saved" +:+ of_chars ["010"%char] +:+ "12 files saved" +:+ of_chars ["010"%char] +:+ "3 files saved".

Lemma recovered_count_max_witness :
  parse_photorec_log sample_log "" 0 false = Ok (12, []) /\ counted (log_counts sample_log) = 12.
Proof.
  assert (parse_photorec_log sample_log "" 0 false = Ok (12, [])) as H by by vm_compute.
  split; [exact H|]. apply recovered_count_max in H as [H _]. symmetry. exact H.
Defined.

Lemma valid_command_exact_witness :
  let args := ["photorec"; "/log"; "/d"; "/var/photorec-quarantine"; "/cmd"; "/dev/sdb"; "fileopt"; "JPG,enable";
               "range"; "0:512"; "search"] in
  @validate_command flat_fs args = Ok tt /\
  exists dest src opts verb, args = command_line dest src opts verb /\ (verb = "search" \/ verb = "resume").
Proof.
  intros args. assert (@validate_command flat_fs args = Ok tt) as Hv by by vm_compute. split; [exact Hv|].
  apply valid_command_exact in Hv as (dest & src & opts & verb & He & Hverb & _). by exists dest, src, opts, verb.
Defined.
