(* ===== verification/PhotoRecResume.v ===== *)
(** * Resuming a carve (src/scanner/photorec_resume.py)

    A PhotoRec session is backed up next to a manifest that binds it to its source, tool version,
    signatures, ranges and command; a later run may resume it only under the same binding.  The
    disk is a finite map from paths to files, directories and links, changed by atomic writes
    whose outcome an interface decides; the tool is a parameter that may change the disk.  The
    theorems: a backup that was written loads back; a backup loads only under its own binding;
    what a resume command needs; and a run that reports completion has recorded it.

    Errors are codes, as in [PhotoRec].  A file that could be opened is read without an OSError, and
    the parents of a private directory exist. *)

From Stdlib Require Import ZArith Lia String Ascii.
From stdpp Require Import base list strings gmap sorting.
From S2P Require Import Prelude PyStr Json Identifiers Sha256 Paths Fat12 Messages JsonLines PartitionDiscovery PhotoRec.

Local Open Scope string_scope.
Local Open Scope Z_scope.

(** ** Constants and errors *)

(** scanner/photorec_resume.py:36-41 PhotoRecResumeError: its code. *)
Inductive resume_error := PhotoRecResumeError (code : string).

#[global] Instance resume_error_eq_dec : EqDecision resume_error.
Proof. solve_decision. Defined.

Abbreviation answer := (result resume_error).
Definition fail_with {A} (code : string) : answer A := Err (PhotoRecResumeError code).
Definition check (b : bool) (code : string) : answer unit := raise_if b (PhotoRecResumeError code).

(** Any error of a computation, under another code. *)
Definition recode {E A} (m : result E A) (code : string) : answer A :=
  match m with Ok a => Ok a | Err _ => fail_with code end.

(** scanner/photorec_resume.py:19-19 SESSION_NAME *)
Definition SESSION_NAME : string := "photorec.ses".
(** scanner/photorec_resume.py:20-20 SESSION_MAX_BYTES *)
Definition SESSION_MAX_BYTES : Z := 40960.
(** scanner/photorec_resume.py:21-21 MAX_MANIFEST_BYTES *)
Definition MAX_MANIFEST_BYTES : Z := 1048576.
(** scanner/photorec_resume.py:22-22 MAX_PROGRESS_BYTES *)
Definition MAX_PROGRESS_BYTES : Z := 16384.
(** scanner/photorec_resume.py:23-23 MAX_PROGRESS_VALUE *)
Definition MAX_PROGRESS_VALUE : Z := MAX_RANGE_VALUE.
(** scanner/photorec_resume.py:24-24 MAX_BINDING_TEXT *)
Definition MAX_BINDING_TEXT : Z := 128.
(** scanner/photorec_carving.py:13-13 PHOTOREC_VERSION *)
Definition PHOTOREC_VERSION : string := "7.2".
(** scanner/photorec_resume.py:31-31 SESSION_MANIFEST_KEYS *)
Definition SESSION_MANIFEST_KEYS : list string := ["session_sha256"; "binding"; "progress"; "completed"].
(** scanner/photorec_resume.py:32-32 PROGRESS_KEYS *)
Definition PROGRESS_KEYS : list string := ["recovered_count"; "last_sector"].
(** The keys of a binding's payload. *)
Definition BINDING_KEYS : list string :=
  ["source_fingerprint"; "tool_version"; "signatures"; "ranges"; "command_hash"].

(** ** Bindings *)

(** scanner/photorec_resume.py:44-50 SessionBinding: the fields; [binding_ok] is its check. *)
Record SessionBinding := {
  sb_source_fingerprint : string;
  sb_tool_version : string;
  sb_signatures : list string;
  sb_ranges : list CarveRange;
  sb_command_hash : string }.

#[global] Instance CarveRange_eq_dec : EqDecision CarveRange.
Proof. solve_decision. Defined.
#[global] Instance SessionBinding_eq_dec : EqDecision SessionBinding.
Proof. solve_decision. Defined.

(** scanner/photorec_resume.py:499-501 _validate_fingerprint *)
Definition validate_fingerprint (s : string) : answer unit := check (negb (is_sha256_hex s)) "invalid_binding".

(** scanner/photorec_resume.py:504-511 _validate_tool_version *)
Definition validate_tool_version (s : string) : answer unit :=
  check (String.eqb s "" || (MAX_BINDING_TEXT <? str_len s)
         || existsb (fun c => (ord c <? 32) || (ord c =? 127)) (chars s)) "invalid_binding".

(** scanner/photorec_resume.py:514-531 _normalize_signatures: the normal form, which the
    argument has to be already. *)
Definition canonical_signatures (signatures : list string) : answer (list string) :=
  result ← recode (normalize_signatures signatures) "invalid_binding";
  _ ← check (negb (bool_decide (result = signatures))) "invalid_binding";
  Ok result.

(** scanner/photorec_resume.py:534-543 _validate_ranges *)
Definition validate_binding_ranges (ranges : list CarveRange) : answer unit :=
  _ ← check (bool_decide (length ranges = 0%nat) || (MAX_RANGES <? zlen ranges)) "invalid_binding";
  check (existsb (fun r => bad_range_values (cr_offset r) (cr_length r)) ranges) "invalid_binding".

(** scanner/photorec_resume.py:485-496 _validate_binding_shape *)
Definition validate_binding_shape (b : SessionBinding) : answer unit :=
  _ ← validate_fingerprint (sb_source_fingerprint b);
  _ ← validate_tool_version (sb_tool_version b);
  _ ← canonical_signatures (sb_signatures b);
  _ ← validate_binding_ranges (sb_ranges b);
  check (negb (is_sha256_hex (sb_command_hash b))) "invalid_binding".

(** scanner/photorec_resume.py:52-53 __post_init__: building a SessionBinding. *)
Definition make_binding (fingerprint version : string) (signatures : list string) (ranges : list CarveRange)
    (hash : string) : answer SessionBinding :=
  let b := {| sb_source_fingerprint := fingerprint; sb_tool_version := version;
              sb_signatures := signatures; sb_ranges := ranges; sb_command_hash := hash |} in
  _ ← validate_binding_shape b; Ok b.

(** scanner/photorec_resume.py:418-428 _validate_binding *)
Definition validate_binding (actual expected : SessionBinding) : answer unit :=
  _ ← validate_binding_shape actual;
  _ ← validate_binding_shape expected;
  _ ← check (negb (String.eqb (sb_source_fingerprint actual) (sb_source_fingerprint expected))) "wrong_source";
  _ ← check (negb (String.eqb (sb_tool_version actual) (sb_tool_version expected))) "wrong_tool_version";
  _ ← check (negb (bool_decide (sb_signatures actual = sb_signatures expected))
             || negb (bool_decide (sb_ranges actual = sb_ranges expected))) "wrong_config";
  check (negb (String.eqb (sb_command_hash actual) (sb_command_hash expected))) "wrong_config".

Definition range_value (r : CarveRange) : value := VList [VInt (cr_offset r); VInt (cr_length r)].

(** scanner/photorec_resume.py:431-439 _binding_payload *)
Definition binding_payload (b : SessionBinding) : answer value :=
  _ ← validate_binding_shape b;
  Ok (VDict [("source_fingerprint", VStr (sb_source_fingerprint b)); ("tool_version", VStr (sb_tool_version b));
             ("signatures", VList (VStr <$> sb_signatures b)); ("ranges", VList (range_value <$> sb_ranges b));
             ("command_hash", VStr (sb_command_hash b))]).

Definition range_of_value (v : value) : answer CarveRange :=
  match v with
  | VList [VInt o; VInt n] => recode (carve_range o n) "invalid_range"
  | _ => fail_with "corrupt_session"
  end.

Definition text_of_value (v : value) : answer string :=
  match v with VStr s => Ok s | _ => fail_with "corrupt_session" end.

(** scanner/photorec_resume.py:442-482 _binding_from_payload: an error of the range's own check
    is not a session error in the code either; the caller turns all of them into one. *)
Definition binding_from_payload (payload : value) : answer SessionBinding :=
  match payload with
  | VDict d =>
    _ ← check (negb (same_keys d BINDING_KEYS)) "corrupt_session";
    match get_or_none d "source_fingerprint", get_or_none d "tool_version", get_or_none d "command_hash",
          get_or_none d "signatures", get_or_none d "ranges" with
    | VStr fingerprint, VStr version, VStr hash, VList signatures, VList ranges =>
      parsed ← mapM_result range_of_value ranges;
      texts ← mapM_result text_of_value signatures;
      make_binding fingerprint version texts parsed hash
    | _, _, _, _, _ => fail_with "corrupt_session"
    end
  | _ => fail_with "corrupt_session"
  end.

(** scanner/photorec_resume.py:568-583 _command_hash *)
Definition command_hash (command : PhotoRecCommand) (ranges : list CarveRange) (tool_version : string) : option string :=
  text ← dumps (VDict [("args", VList (VStr <$> pc_args command)); ("ranges", VList (range_value <$> ranges));
                       ("signatures", VList (VStr <$> pc_signatures command)); ("tool_version", VStr tool_version)]);
  Some (sha256_hex (utf8 text)).

(** scanner/photorec_resume.py:546-565 _command_ranges *)
Fixpoint command_ranges (args : list string) : answer (list CarveRange) :=
  match args with
  | [] => Ok []
  | a :: rest =>
    if String.eqb a "range" then
      match rest with
      | [] => fail_with "invalid_binding"
      | value :: rest =>
        r ← recode (parse_range_option value) "invalid_binding";
        rs ← command_ranges rest; Ok (r :: rs)
      end
    else command_ranges rest
  end.

(** scanner/photorec_resume.py:367-397 binding_for_command: the validation of the command asks
    the file system about its source. *)
Definition binding_for_command `{PathFs} (fingerprint : string) (command : PhotoRecCommand)
    (ranges : list CarveRange) (tool_version : string) : answer SessionBinding :=
  _ ← validate_fingerprint fingerprint;
  _ ← validate_tool_version tool_version;
  _ ← validate_binding_ranges ranges;
  _ ← recode (validate_command (pc_args command)) "invalid_binding";
  normalized ← canonical_signatures (pc_signatures command);
  from_args ← command_ranges (pc_args command);
  _ ← check (negb (bool_decide (normalized = pc_signatures command)) || negb (bool_decide (from_args = ranges)))
        "invalid_binding";
  match command_hash command ranges tool_version with
  | Some hash => make_binding fingerprint tool_version normalized ranges hash
  | None => fail_with "invalid_binding"
  end.

(** ** Progress *)

Abbreviation progress := (list (string * value)).

Definition progress_item_ok (kv : string * value) : bool :=
  match kv.2 with VInt n => (0 <=? n) && (n <=? MAX_PROGRESS_VALUE) | _ => false end.

(** scanner/photorec_resume.py:885-904 _normalize_progress *)
Definition normalize_progress_map (p : progress) : answer progress :=
  _ ← check (negb (forallb (fun k => bool_decide (k ∈ PROGRESS_KEYS)) p.*1)) "invalid_progress";
  _ ← check (negb (forallb progress_item_ok p)) "invalid_progress";
  match dumps (VDict p) with
  | None => fail_with "invalid_progress"
  | Some text => _ ← check (MAX_PROGRESS_BYTES <? zlen (utf8 text)) "invalid_progress"; Ok p
  end.

(** The pattern of line 29 at one position, after its word boundary: the digits it names. *)
Definition match_sector (l : list ascii) : option (list ascii) :=
  rest ← match_word (chars "sector") l;
  let rest := drop_while is_space rest in
  let rest := match rest with
              | c :: r => if Ascii.eqb c ":"%char || Ascii.eqb c "="%char then r else rest
              | [] => rest
              end in
  match (span_digits (drop_while is_space rest)).1 with [] => None | digits => Some digits end.

(** [SECTOR_PROGRESS_RE.finditer]: a match ends in digits, where no other can start, so every
    position is tried; [previous] is the character before. *)
Fixpoint find_sectors (previous : option ascii) (l : list ascii) : list (list ascii) :=
  match l with
  | [] => []
  | c :: r =>
    ((if match previous with Some p => word_char p | None => false end then []
      else match match_sector l with Some d => [d] | None => [] end) ++ find_sectors (Some c) r)%list
  end.

(** scanner/photorec_resume.py:907-913 _bounded_decimal: on decimal digits. *)
Definition bounded_decimal (digits : list ascii) : Z :=
  if 19 <? zlen digits then MAX_PROGRESS_VALUE
  else match Z_of_digits (of_chars digits) with
       | Some n => Z.min n MAX_PROGRESS_VALUE
       | None => MAX_PROGRESS_VALUE
       end.

(** scanner/photorec_resume.py:400-415 normalize_progress *)
Definition normalize_progress (stdout : string) : answer progress :=
  '(recovered, _) ← recode (parse_photorec_log stdout "" 0 false) "invalid_progress";
  let sector := foldl Z.max 0 (bounded_decimal <$> find_sectors None (chars stdout)) in
  Ok [("recovered_count", VInt recovered); ("last_sector", VInt sector)].

(** ** Session files *)

Definition rstrip_nul (data : bytes) : bytes := rdrop_while (fun b => b =? 0) data.

Definition session_lines (data : bytes) : option (list (list ascii)) :=
  text ← utf8_decode (rstrip_nul data); Some (split_lines [] text).

(** A range line of a session. *)
Definition session_range_ok (line : list ascii) : bool :=
  match split_at_char "-"%char line with
  | Some (a, b) =>
    all_digits (of_chars a) && all_digits (of_chars b) &&
    match Z_of_digits (of_chars a), Z_of_digits (of_chars b) with
    | Some x, Some y => (x <=? y) && (y <=? MAX_RANGE_VALUE)
    | _, _ => false
    end
  | None => false
  end.

(** The first line is a hash sign and one to twenty digits. *)
Definition session_header_ok (line : list ascii) : bool :=
  match line with
  | c :: r => Ascii.eqb c "#"%char && all_digits (of_chars r) && (zlen r <=? 20)
  | [] => false
  end.

(** scanner/photorec_resume.py:780-819 _validate_session_data *)
Definition validate_session_data (data : bytes) : answer unit :=
  _ ← check (bool_decide (data = []) || (SESSION_MAX_BYTES <? zlen data)) "corrupt_session";
  let content := rstrip_nul data in
  _ ← check (bool_decide (content = []) || existsb (fun b => b =? 0) content) "corrupt_session";
  match utf8_decode content with
  | None => fail_with "corrupt_session"
  | Some text =>
    match split_lines [] text with
    | header :: source :: command :: ranges =>
      _ ← check (negb (session_header_ok header)) "corrupt_session";
      _ ← check (match split_at_char " "%char source with
                 | Some (_ :: _, _) => false | _ => true end) "corrupt_session";
      _ ← check (String.eqb (strip (of_chars command)) "") "corrupt_session";
      _ ← check (existsb (fun c => (ord c <? 32) && negb (bool_decide (ord c ∈ [13; 10; 9]))) text) "corrupt_session";
      _ ← check (existsb (fun line => MAX_PATH_CHARS <? zlen line) (split_lines [] text)) "corrupt_session";
      _ ← check (negb (forallb session_range_ok ranges)) "corrupt_session";
      check (bool_decide (length ranges = 0%nat)) "corrupt_session"
    | _ => fail_with "corrupt_session"
    end
  end.

(** scanner/photorec_resume.py:822-826 _session_source *)
Definition session_source (data : bytes) : answer string :=
  _ ← validate_session_data data;
  match session_lines data with
  | Some (_ :: source :: _) =>
    match split_at_char " "%char source with Some (device, _) => Ok (of_chars device) | None => Ok (of_chars source) end
  | _ => fail_with "corrupt_session"
  end.

(** ** The disk *)

(** What is found at a path: a regular file with its mode and number of links, a directory with
    its mode, or something else; a link is never followed. *)
Inductive node :=
  | RegularFile (data : bytes) (mode links : Z)
  | Directory (mode : Z)
  | Link
  | OtherNode.

Abbreviation disk := (gmap pypath node).

Definition is_symlink (d : disk) (p : pypath) : bool := match d !! p with Some Link => true | _ => false end.
Definition node_exists (d : disk) (p : pypath) : bool := match d !! p with Some _ => true | None => false end.

(** How a write ends: not at all, complete, or complete with an error after the replacement. *)
Inductive write_end := WriteDone | WriteFailed | WriteUnsynced.

(** What the operating system decides: where paths resolve, and which operations fail. *)
Class DiskOps := {
  do_resolve : pypath -> option pypath;
  do_mkdir_fails : disk -> pypath -> bool;
  do_write : disk -> pypath -> write_end }.

(** A private mode: no access for the group and others. *)
Definition private_mode (mode : Z) : bool := Z.land mode 63 =? 0.

(** scanner/photorec_resume.py:641-649 _validate_private_directory *)
Definition check_private_directory (d : disk) (p : pypath) : answer unit :=
  match d !! p with
  | Some (Directory mode) => check (negb (private_mode mode)) "invalid_storage_path"
  | _ => fail_with "invalid_storage_path"
  end.

(** scanner/photorec_resume.py:610-617 _validate_path_text *)
Definition validate_path_text (p : pypath) : answer unit := check (unsafe_path_text p) "invalid_session_path".

(** scanner/photorec_resume.py:652-692 _read_bounded_file *)
Definition read_bounded_file (d : disk) (p : pypath) (maximum : Z) (code : string) (private : bool) : answer bytes :=
  match d !! p with
  | Some (RegularFile data mode links) =>
    _ ← check (negb (links =? 1)) code;
    _ ← check (private && negb (private_mode mode)) code;
    _ ← check (maximum <? zlen data) code;
    Ok data
  | _ => fail_with code
  end.

Section ops.
Context `{DiskOps}.

(** scanner/photorec_resume.py:695-733 _atomic_write: the file appears whole, private and with
    one link, or the disk is as before; the temporary file is never left behind. *)
Definition atomic_write (d : disk) (p : pypath) (data : bytes) (code : string) : disk * answer unit :=
  match check_private_directory d (path_parent p) with
  | Err e => (d, Err e)
  | Ok _ =>
    match d !! p with
    | None | Some (RegularFile _ _ _) =>
      match do_write d p with
      | WriteFailed => (d, fail_with code)
      | WriteDone => (<[p := RegularFile data 384 1]> d, Ok tt)
      | WriteUnsynced => (<[p := RegularFile data 384 1]> d, fail_with code)
      end
    | _ => (d, fail_with code)
    end
  end.

(** scanner/photorec_resume.py:620-638 _prepare_private_directory: the directories above it are
    made as well, which the model leaves out. *)
Definition prepare_private_directory (d : disk) (p : pypath) : disk * answer unit :=
  match (_ ← check (negb (is_absolute p)) "invalid_storage_path";
         _ ← validate_path_text p;
         match do_resolve p with
         | None => fail_with "invalid_storage_path"
         | Some resolved =>
           _ ← check (bool_decide (resolved = ROOT) || bool_decide (resolved = DEV) || in_parents DEV resolved)
                 "invalid_storage_path";
           check (is_symlink d p) "invalid_storage_path"
         end) with
  | Err e => (d, Err e)
  | Ok _ =>
    if do_mkdir_fails d p then (d, fail_with "storage_unavailable")
    else match d !! p with
         | None | Some (Directory _) => (<[p := Directory 448]> d, Ok tt)
         | Some _ => (d, fail_with "storage_unavailable")
         end
  end.
End ops.

(** ** Backups *)

(** scanner/photorec_resume.py:56-62 SessionBackup: the fields. *)
Record SessionBackup := {
  bk_session_sha256 : string;
  bk_backup_path : pypath;
  bk_binding : SessionBinding;
  bk_progress : progress;
  bk_completed : bool }.

(** The digest in the name of a backup, the pattern of line 25. *)
Definition backup_digest (name : string) : option string :=
  let d := str_take 64 (str_drop 9 name) in
  if is_sha256_hex d && String.eqb name ("photorec-" +:+ d +:+ ".ses") then Some d else None.

(** scanner/photorec_resume.py:598-607 _validate_backup_path *)
Definition validate_backup_path (p : pypath) : answer unit :=
  _ ← check (negb (is_absolute p)) "invalid_session_backup";
  _ ← validate_path_text p;
  check (bool_decide (backup_digest (path_name_of p) = None)) "invalid_session_backup".

(** scanner/photorec_resume.py:64-78 __post_init__: building a SessionBackup. *)
Definition make_backup (digest : string) (p : pypath) (b : SessionBinding) (progress : progress) (completed : bool)
    : answer SessionBackup :=
  _ ← check (negb (is_sha256_hex digest)) "invalid_session_backup";
  _ ← validate_backup_path p;
  _ ← validate_binding_shape b;
  _ ← normalize_progress_map progress;
  Ok {| bk_session_sha256 := digest; bk_backup_path := p; bk_binding := b; bk_progress := progress;
        bk_completed := completed |}.

(** scanner/photorec_resume.py:744-765 _manifest_bytes *)
Definition manifest_bytes (b : SessionBinding) (progress : progress) (completed : bool) (digest : string) : answer bytes :=
  _ ← check (negb (is_sha256_hex digest)) "invalid_session_backup";
  binding ← binding_payload b;
  normalized ← normalize_progress_map progress;
  match dumps (VDict [("session_sha256", VStr digest); ("binding", binding); ("progress", VDict normalized);
                      ("completed", VBool completed)]) with
  | None => fail_with "invalid_session_manifest"
  | Some text =>
    let encoded := utf8 text in
    _ ← check (MAX_MANIFEST_BYTES <? zlen encoded) "invalid_session_manifest"; Ok encoded
  end.

(** [s.removeprefix(p)]. *)
Definition remove_prefix (p s : string) : string := if starts_with p s then str_drop (str_len p) s else s.

Definition manifest_path (p : pypath) : pypath := with_suffix p ".json".

Section backups.
Context `{DiskOps}.

(** scanner/photorec_resume.py:768-777 _write_manifest *)
Definition write_manifest (d : disk) (p : pypath) (b : SessionBinding) (progress : progress) (completed : bool)
    : disk * answer unit :=
  match (_ ← validate_backup_path p;
         manifest_bytes b progress completed (remove_prefix "photorec-" (name_stem (path_name_of p)))) with
  | Err e => (d, Err e)
  | Ok data => atomic_write d (manifest_path p) data "session_manifest_failed"
  end.

(** scanner/photorec_resume.py:586-595 _validate_session_path *)
Definition validate_session_path (d : disk) (p : pypath) : answer unit :=
  _ ← check (negb (is_absolute p) || negb (String.eqb (path_name_of p) SESSION_NAME)) "invalid_session_name";
  _ ← validate_path_text p;
  check (is_symlink d p) "invalid_session_file".

(** scanner/photorec_resume.py:138-164 backup_session *)
Definition backup_session (d : disk) (session_path backup_dir : pypath) (binding : SessionBinding)
    (progress : progress) (completed : bool) : disk * answer SessionBackup :=
  match (_ ← validate_session_path d session_path;
         _ ← validate_binding_shape binding;
         normalize_progress_map progress) with
  | Err e => (d, Err e)
  | Ok normalized =>
    match prepare_private_directory d backup_dir with
    | (d, Err e) => (d, Err e)
    | (d, Ok _) =>
      match (data ← read_bounded_file d session_path SESSION_MAX_BYTES "invalid_session_file" false;
             _ ← validate_session_data data; Ok data) with
      | Err e => (d, Err e)
      | Ok data =>
        let digest := sha256_hex data in
        let backup_path := path_join backup_dir ("photorec-" +:+ digest +:+ ".ses") in
        match atomic_write d backup_path data "session_backup_failed" with
        | (d, Err e) => (d, Err e)
        | (d, Ok _) =>
          match write_manifest d backup_path binding normalized completed with
          | (d, Err e) => (d, Err e)
          | (d, Ok _) => (d, make_backup digest backup_path binding normalized completed)
          end
        end
      end
    end
  end.

Definition progress_of_value (v : value) : answer progress :=
  match v with VDict p => normalize_progress_map p | _ => fail_with "invalid_progress" end.

Definition completed_of_value (v : value) : answer bool :=
  match v with VBool b => Ok b | _ => fail_with "invalid_session_manifest" end.

(** scanner/photorec_resume.py:196-212 load_session_backup: the manifest's contents. *)
Definition read_manifest (data : bytes) (digest : string) : answer (SessionBinding * progress * bool) :=
  text ← match utf8_decode data with Some t => Ok t | None => fail_with "corrupt_session" end;
  match loads_chars text with
  | Some (VDict m) =>
    _ ← check (negb (same_keys m SESSION_MANIFEST_KEYS)) "corrupt_session";
    _ ← check (negb (is_text (get_or_none m "session_sha256") digest)) "corrupt_session";
    recode (b ← binding_from_payload (get_or_none m "binding");
            p ← progress_of_value (get_or_none m "progress");
            c ← completed_of_value (get_or_none m "completed"); Ok (b, p, c)) "corrupt_session"
  | _ => fail_with "corrupt_session"
  end.

(** scanner/photorec_resume.py:167-214 load_session_backup *)
Definition load_session_backup (d : disk) (backup_path : pypath) (expected : SessionBinding) : answer SessionBackup :=
  _ ← validate_backup_path backup_path;
  _ ← validate_binding_shape expected;
  _ ← check (negb (node_exists d backup_path) || is_symlink d backup_path) "missing_session_backup";
  _ ← check_private_directory d (path_parent backup_path);
  data ← read_bounded_file d backup_path SESSION_MAX_BYTES "corrupt_session" true;
  _ ← validate_session_data data;
  let digest := sha256_hex data in
  _ ← check (negb (bool_decide (backup_digest (path_name_of backup_path) = Some digest))) "corrupt_session";
  let m := manifest_path backup_path in
  _ ← check (negb (node_exists d m) || is_symlink d m) "missing_session_manifest";
  manifest ← read_bounded_file d m MAX_MANIFEST_BYTES "corrupt_session" true;
  '(actual, progress, completed) ← read_manifest manifest digest;
  _ ← validate_binding actual expected;
  make_backup digest backup_path actual progress completed.

(** ** The resume command *)

(** scanner/photorec_resume.py:865-875 _validate_session_backup *)
Definition validate_session_backup (b : SessionBackup) : answer unit :=
  _ ← validate_binding_shape (bk_binding b);
  _ ← validate_backup_path (bk_backup_path b);
  _ ← check (negb (String.eqb (path_name_of (bk_backup_path b)) ("photorec-" +:+ bk_session_sha256 b +:+ ".ses")))
        "invalid_session_backup";
  _ ← normalize_progress_map (bk_progress b); Ok tt.

(** scanner/photorec_resume.py:829-832 _validate_session_source *)
Definition validate_session_source (d : disk) (backup_path source_path : pypath) : answer unit :=
  data ← read_bounded_file d backup_path SESSION_MAX_BYTES "corrupt_session" true;
  source ← session_source data;
  check (negb (String.eqb source (path_str source_path))) "wrong_source".

(** scanner/photorec_resume.py:835-862 _validate_resume_command *)
Definition validate_resume_command `{PathFs} (args : list string) : answer unit :=
  let arg i := nth i args "" in
  _ ← check (negb (zlen args =? 7) || negb (String.eqb (arg 0%nat) PHOTOREC_BINARY)
             || negb (String.eqb (arg 1%nat) "/log") || negb (String.eqb (arg 2%nat) "/d")
             || negb (String.eqb (arg 4%nat) "/cmd") || negb (String.eqb (arg 5%nat) "resume"))
        "unsafe_resume_command";
  _ ← recode (validate_source_path (parse_path (arg 6%nat))) "unsafe_resume_command";
  check (bad_destination (parse_path (arg 3%nat)) || in_parents DEV (parse_path (arg 3%nat))) "unsafe_resume_command".

(** scanner/photorec_resume.py:217-258 build_resume_command *)
Definition build_resume_command `{PathFs} (d : disk) (b : SessionBackup) (source_path scratch_root : pypath)
    (binary : string) : answer PhotoRecCommand :=
  _ ← validate_session_backup b;
  _ ← check (bk_completed b) "session_completed";
  _ ← check (negb (String.eqb (sb_tool_version (bk_binding b)) PHOTOREC_VERSION)) "wrong_tool_version";
  _ ← validate_session_source d (bk_backup_path b) source_path;
  command ← recode (build_photorec_command source_path scratch_root (sb_signatures (bk_binding b))
                      (sb_ranges (bk_binding b)) binary) "invalid_resume_command";
  _ ← check (negb (bool_decide (command_hash command (sb_ranges (bk_binding b)) (sb_tool_version (bk_binding b)) =
                                Some (sb_command_hash (bk_binding b))))) "wrong_config";
  let args := [PHOTOREC_BINARY; "/log"; "/d"; path_str (pc_destination command); "/cmd"; "resume"; path_str source_path] in
  _ ← validate_resume_command args;
  Ok {| pc_args := args; pc_destination := pc_destination command; pc_signatures := pc_signatures command |}.

(** scanner/photorec_resume.py:81-88 PhotoRecResumeResult *)
Record PhotoRecResumeResult := {
  re_status : string; re_recovered_count : Z; re_destination : pypath; re_warnings : list string;
  re_command : PhotoRecCommand; re_backup : SessionBackup }.

(** scanner/photorec_resume.py:351-364 _mark_backup_completed *)
Definition mark_backup_completed (d : disk) (b : SessionBackup) (progress : progress) : disk * answer SessionBackup :=
  match write_manifest d (bk_backup_path b) (bk_binding b) progress true with
  | (d, Err e) => (d, Err e)
  | (d, Ok _) => (d, make_backup (bk_session_sha256 b) (bk_backup_path b) (bk_binding b) progress true)
  end.

Definition error_code (e : resume_error) : string := let 'PhotoRecResumeError code := e in code.

(** The fallback that only marks the old backup, with its warning. *)
Definition try_mark (d : disk) (b : SessionBackup) (p : progress) (completed : bool) (warnings : list string)
    : disk * SessionBackup * list string :=
  if completed then
    match mark_backup_completed d b p with
    | (d, Ok b') => (d, b', warnings)
    | (d, Err e) => (d, b, (warnings ++ ["photorec_session_backup:" +:+ error_code e])%list)
    end
  else (d, b, warnings).

(** scanner/photorec_resume.py:305-335 run_photorec_resume: what becomes of the session the tool
    left. *)
Definition keep_session (d : disk) (b : SessionBackup) (staged : pypath) (p : progress) (completed : bool)
    (warnings : list string) : disk * SessionBackup * list string :=
  if is_symlink d staged then
    try_mark d b p completed (warnings ++ ["photorec_session_not_saved"])%list
  else if node_exists d staged then
    match backup_session d staged (path_parent (bk_backup_path b)) (bk_binding b) p completed with
    | (d, Ok b') => (d, b', warnings)
    | (d, Err e) => try_mark d b p completed (warnings ++ ["photorec_session_backup:" +:+ error_code e])%list
    end
  else if completed then try_mark d b p true warnings
  else (d, b, (warnings ++ ["photorec_session_not_saved"])%list).

(** How the tool's own failure shows: an error of the module, or one of the system. *)
Inductive run_error := ModuleError (e : resume_error) | SystemError.

(** scanner/photorec_resume.py:271-289 run_photorec_resume: up to the start of the tool. *)
Definition stage_session `{PathFs} (d : disk) (b : SessionBackup) (source_path scratch_root : pypath)
    (timeout_seconds : Z) : disk * answer PhotoRecCommand :=
  match (_ ← recode (validate_timeout timeout_seconds) "invalid_timeout";
         build_resume_command d b source_path scratch_root PHOTOREC_BINARY) with
  | Err e => (d, Err e)
  | Ok command =>
    let working_directory := path_parent (pc_destination command) in
    match prepare_private_directory d working_directory with
    | (d, Err e) => (d, Err e)
    | (d, Ok _) =>
      match prepare_private_directory d (pc_destination command) with
      | (d, Err e) => (d, Err e)
      | (d, Ok _) =>
        match (_ ← check (is_symlink d (path_join working_directory SESSION_NAME)) "unsafe_session_path";
               data ← read_bounded_file d (bk_backup_path b) SESSION_MAX_BYTES "corrupt_session" true;
               _ ← validate_session_data data; Ok data) with
        | Err e => (d, Err e)
        | Ok data =>
          match atomic_write d (path_join working_directory SESSION_NAME) data "session_stage_failed" with
          | (d, Err e) => (d, Err e)
          | (d, Ok _) => (d, Ok command)
          end
        end
      end
    end
  end.

(** scanner/photorec_resume.py:924-933 _validate_run_result *)
Definition validate_resume_result (r : PhotoRecRunResult) : answer unit :=
  check ((MAX_LOG_CHARS <? str_len (rr_stdout r)) || (MAX_LOG_CHARS <? str_len (rr_stderr r))) "invalid_tool_output".

(** scanner/photorec_resume.py:261-348 run_photorec_resume: [runner] is the tool, which may
    change the disk. *)
Definition run_photorec_resume `{PathFs}
    (runner : list string -> Z -> pypath -> disk -> disk * result run_error PhotoRecRunResult)
    (d : disk) (b : SessionBackup) (source_path scratch_root : pypath) (timeout_seconds : Z)
    : disk * answer PhotoRecResumeResult :=
  match stage_session d b source_path scratch_root timeout_seconds with
  | (d, Err e) => (d, Err e)
  | (d, Ok command) =>
    let working_directory := path_parent (pc_destination command) in
    match runner (pc_args command) timeout_seconds working_directory d with
    | (d, Err (ModuleError e)) => (d, Err e)
    | (d, Err SystemError) => (d, fail_with "runner_failed")
    | (d, Ok result) =>
      match (_ ← validate_resume_result result;
             log ← recode (parse_photorec_log (rr_stdout result) (rr_stderr result) (rr_returncode result)
                             (rr_timed_out result)) "photorec_output_too_large";
             p ← normalize_progress (rr_stdout result); Ok (log, p)) with
      | Err e => (d, Err e)
      | Ok (recovered_count, parsed_warnings, p) =>
        let completed := negb (rr_timed_out result) && bool_decide (rr_returncode result ∈ [0; 1]) in
        let '(d, durable, warnings) :=
          keep_session d b (path_join working_directory SESSION_NAME) p completed parsed_warnings in
        let status := if negb completed then "partial"
                      else if (rr_returncode result =? 1) || negb (bk_completed durable)
                      then "completed-warning" else "complete" in
        (d, Ok {| re_status := status; re_recovered_count := recovered_count;
                  re_destination := pc_destination command; re_warnings := dedup warnings;
                  re_command := command; re_backup := durable |})
      end
    end
  end.

End backups.

(** ** Payloads *)

Lemma check_ok b code : check b code = Ok tt <-> b = false.
Proof. apply raise_if_ok. Qed.

Lemma canon_scalars (l : list string) : canon (VList (VStr <$> l)) = VList (VStr <$> l).
Proof. simpl. f_equal. induction l as [|x l IH]; csimpl; by rewrite ?IH. Qed.

Lemma canon_ranges l : canon (VList (range_value <$> l)) = VList (range_value <$> l).
Proof. simpl. f_equal. induction l as [|x l IH]; csimpl; by rewrite ?IH. Qed.

Lemma parse_range_values l :
  existsb (fun r => bad_range_values (cr_offset r) (cr_length r)) l = false ->
  mapM_result range_of_value (range_value <$> l) = Ok l.
Proof.
  induction l as [|r l IH]; csimpl; [done|]. intros [Hr Hl]%orb_false_iff.
  unfold carve_range, guard_, raise_if. rewrite Hr. simpl. rewrite IH by done. by destruct r.
Qed.

Lemma parse_text_values l : mapM_result text_of_value (VStr <$> l) = Ok l.
Proof. induction l as [|s l IH]; csimpl; [done|]. by rewrite IH. Qed.

Lemma shape_ranges b :
  validate_binding_shape b = Ok tt ->
  existsb (fun r => bad_range_values (cr_offset r) (cr_length r)) (sb_ranges b) = false.
Proof.
  unfold validate_binding_shape. intros H. apply bind_ok in H as ([] & _ & H).
  apply bind_ok in H as ([] & _ & H). apply bind_ok in H as (? & _ & H). apply bind_ok in H as ([] & H & _).
  unfold validate_binding_ranges in H. apply bind_ok in H as ([] & _ & H). by apply check_ok in H.
Qed.

Definition binding_dict (b : SessionBinding) : list (string * value) :=
  [("source_fingerprint", VStr (sb_source_fingerprint b)); ("tool_version", VStr (sb_tool_version b));
   ("signatures", VList (VStr <$> sb_signatures b)); ("ranges", VList (range_value <$> sb_ranges b));
   ("command_hash", VStr (sb_command_hash b))].

Lemma binding_payload_ok b v : binding_payload b = Ok v <-> validate_binding_shape b = Ok tt /\ v = VDict (binding_dict b).
Proof.
  unfold binding_payload. rewrite bind_ok. split.
  - by intros ([] & ? & [= <-]).
  - intros [? ->]. by exists tt.
Qed.

Lemma binding_dict_nodup b : NoDup (binding_dict b).*1.
Proof. apply (bool_decide_unpack _). by vm_compute. Qed.

(** A binding is read back from its payload, whatever the order of the keys. *)
Lemma binding_from_canon b :
  validate_binding_shape b = Ok tt -> binding_from_payload (canon (VDict (binding_dict b))) = Ok b.
Proof.
  intros Hb. rewrite canon_dict. unfold binding_from_payload.
  rewrite same_keys_canon, !get_or_none_canon by apply binding_dict_nodup.
  change (same_keys (binding_dict b) BINDING_KEYS) with true. cbn [negb check raise_if mbind result_bind].
  change (get_or_none (binding_dict b) "source_fingerprint") with (VStr (sb_source_fingerprint b)).
  change (get_or_none (binding_dict b) "tool_version") with (VStr (sb_tool_version b)).
  change (get_or_none (binding_dict b) "command_hash") with (VStr (sb_command_hash b)).
  change (get_or_none (binding_dict b) "signatures") with (VList (VStr <$> sb_signatures b)).
  change (get_or_none (binding_dict b) "ranges") with (VList (range_value <$> sb_ranges b)).
  rewrite canon_scalars, canon_ranges. cbn [canon check raise_if mbind result_bind].
  rewrite (parse_range_values _ (shape_ranges _ Hb)), parse_text_values. cbn [mbind result_bind].
  unfold make_binding. destruct b as [f v s r h]. cbn in *. by rewrite Hb.
Qed.

Lemma normalize_progress_map_ok p q :
  normalize_progress_map p = Ok q <-> q = p /\ forallb (fun k => bool_decide (k ∈ PROGRESS_KEYS)) p.*1 = true /\
    forallb progress_item_ok p = true /\
    exists text, dumps (VDict p) = Some text /\ zlen (utf8 text) <= MAX_PROGRESS_BYTES.
Proof.
  unfold normalize_progress_map. rewrite bind_ok. split.
  - intros ([] & Hk%check_ok & H). apply negb_false_iff in Hk. apply bind_ok in H as ([] & Hi%check_ok & H).
    apply negb_false_iff in Hi. destruct (dumps (VDict p)) as [t|]; [|done].
    apply bind_ok in H as ([] & Hm%check_ok & [= <-]). apply Z.ltb_ge in Hm. eauto 10.
  - intros (-> & Hk & Hi & t & Ht & Hm). exists tt. rewrite check_ok, negb_false_iff. split; [done|].
    apply bind_ok. exists tt. rewrite check_ok, negb_false_iff. split; [done|]. rewrite Ht.
    apply bind_ok. exists tt. rewrite check_ok. split; [by apply Z.ltb_ge|done].
Qed.

(** A progress map of integers only loses the order of its keys. *)
Lemma canon_progress p : forallb progress_item_ok p = true -> canon (VDict p) = VDict (sort_keys p).
Proof.
  intros Hp. rewrite canon_dict. do 2 f_equal. induction p as [|[k v] p IH]; [done|].
  simpl in Hp. apply andb_true_iff in Hp as [Hv Hp]. csimpl. rewrite IH by done. do 2 f_equal.
  unfold progress_item_ok in Hv. simpl in Hv. by destruct v.
Qed.

Lemma wf_progress p : NoDup p.*1 -> forallb progress_item_ok p = true -> wf_value (VDict p).
Proof.
  intros Hn Hp. apply wf_dict_Forall. split; [done|]. apply Forall_forall. intros [k v] Hkv.
  rewrite forallb_elem in Hp. specialize (Hp _ Hkv). unfold progress_item_ok in Hp. simpl in *. by destruct v.
Qed.

Lemma normalize_sorted_progress p :
  NoDup p.*1 -> normalize_progress_map p = Ok p -> normalize_progress_map (sort_keys p) = Ok (sort_keys p).
Proof.
  rewrite !normalize_progress_map_ok. intros Hn (_ & Hk & Hi & t & Ht & Hm). split; [done|].
  pose proof (sort_keys_perm p) as Hp. split_and!.
  - rewrite forallb_elem in *. intros k. rewrite Hp. auto.
  - rewrite forallb_elem in *. intros k. rewrite Hp. auto.
  - exists t. split; [|done]. rewrite <- (canon_progress p Hi). rewrite dumps_canon; [done|]. by apply wf_progress.
Qed.

Lemma wf_binding_dict b : wf_value (VDict (binding_dict b)).
Proof.
  apply wf_dict_Forall. split; [apply binding_dict_nodup|]. unfold binding_dict.
  apply Forall_forall. intros kv Hkv.
  repeat (apply elem_of_cons in Hkv as [->|Hkv]; [|]); [done..| | |done|by apply elem_of_nil in Hkv];
    cbn [snd]; apply wf_list_Forall, Forall_fmap, Forall_true; by intros [].
Qed.

(** The manifest that is written is the manifest that is read. *)
Lemma read_manifest_bytes b p completed digest data :
  NoDup p.*1 -> manifest_bytes b p completed digest = Ok data ->
  read_manifest data digest = Ok (b, sort_keys p, completed).
Proof.
  intros Hn. unfold manifest_bytes. intros H. apply bind_ok in H as ([] & Hd & H).
  apply bind_ok in H as (bv & Hb & H). apply binding_payload_ok in Hb as [Hb ->].
  apply bind_ok in H as (q & Hq & H). pose proof Hq as Hq'. apply normalize_progress_map_ok in Hq as (-> & _ & Hi & _).
  set (m := [("session_sha256", VStr digest); ("binding", VDict (binding_dict b)); ("progress", VDict p);
             ("completed", VBool completed)]) in *.
  destruct (dumps (VDict m)) as [text|] eqn:Et; [|done]. apply bind_ok in H as ([] & _ & [= <-]).
  assert (Hwf : wf_value (VDict m)).
  { apply wf_dict_Forall. split; [apply (bool_decide_unpack _); by vm_compute|].
    repeat apply Forall_cons_2; [done|apply wf_binding_dict|by apply wf_progress|done|constructor]. }
  assert (Hnd : NoDup m.*1) by by apply wf_dict_Forall in Hwf as [? _].
  unfold read_manifest. rewrite (utf8_decode_dumps _ _ Et). cbn [mbind result_bind].
  pose proof (loads_dumps _ _ Hwf Et) as Hl. unfold loads in Hl. rewrite Hl, canon_dict.
  rewrite same_keys_canon, !get_or_none_canon by done.
  change (same_keys m SESSION_MANIFEST_KEYS) with true. cbn [negb check raise_if mbind result_bind].
  change (get_or_none m "session_sha256") with (VStr digest).
  change (get_or_none m "binding") with (VDict (binding_dict b)).
  change (get_or_none m "progress") with (VDict p).
  change (get_or_none m "completed") with (VBool completed).
  rewrite (proj2 (is_text_true (canon (VStr digest)) digest)) by done. cbn [negb check raise_if mbind result_bind].
  rewrite (binding_from_canon b Hb), (canon_progress p Hi). cbn [progress_of_value mbind result_bind].
  by rewrite (normalize_sorted_progress p Hn Hq').
Qed.

(** ** Backups load back *)

Lemma backup_name_digest digest :
  is_sha256_hex digest = true -> backup_digest ("photorec-" +:+ digest +:+ ".ses") = Some digest.
Proof.
  intros Hd. unfold backup_digest.
  assert (str_take 64 (str_drop 9 ("photorec-" +:+ digest +:+ ".ses")) = digest) as ->.
  { unfold str_take, str_drop. rewrite chars_of_chars. rewrite chars_app. cbn [Z.to_nat Pos.to_nat].
    change (drop (Z.to_nat 9) (chars "photorec-" ++ chars (digest +:+ ".ses"))) with (chars (digest +:+ ".ses")).
    unfold is_sha256_hex in Hd. apply andb_true_iff in Hd as [Hl%Z.eqb_eq _].
    rewrite chars_app, take_app_length'; [by rewrite of_chars_chars|].
    rewrite length_chars. unfold str_len in Hl. lia. }
  by rewrite Hd, String.eqb_refl.
Qed.

Lemma name_stem_snoc a b :
  "."%char ∉ chars b -> b <> "" -> a <> "" -> name_stem (a +:+ "." +:+ b) = a.
Proof.
  intros Hb Hb0 Ha0. unfold name_stem. rewrite !chars_app.
  change (chars ".") with ["."%char]. rewrite !reverse_app. change (reverse ["."%char]) with ["."%char].
  rewrite <- app_assoc. cbn [app]. rewrite split_at_char_app by by rewrite elem_of_reverse.
  rewrite !bool_decide_false; [by rewrite reverse_involutive, of_chars_chars| |].
  - intros E%(f_equal reverse). rewrite reverse_involutive in E. by destruct a.
  - intros E%(f_equal reverse). rewrite reverse_involutive in E. by destruct b.
Qed.

Lemma backup_name_stem digest : name_stem ("photorec-" +:+ digest +:+ ".ses") = "photorec-" +:+ digest.
Proof.
  transitivity (name_stem (("photorec-" +:+ digest) +:+ "." +:+ "ses")).
  - done.
  - apply name_stem_snoc; [apply (bool_decide_unpack _); by vm_compute|done|done].
Qed.

Lemma remove_backup_prefix digest : remove_prefix "photorec-" ("photorec-" +:+ digest) = digest.
Proof.
  unfold remove_prefix. assert (starts_with "photorec-" ("photorec-" +:+ digest) = true) as ->.
  { cbn. by destruct digest. }
  unfold str_drop. rewrite chars_app. change (drop (Z.to_nat (str_len "photorec-")) (chars "photorec-" ++ chars digest))
    with (chars digest). by rewrite of_chars_chars.
Qed.

Definition backup_path_of (dir : pypath) (digest : string) : pypath := path_join dir ("photorec-" +:+ digest +:+ ".ses").

Lemma backup_path_name dir digest : path_name_of (backup_path_of dir digest) = "photorec-" +:+ digest +:+ ".ses".
Proof. apply path_name_join. Qed.

Lemma backup_path_parent dir digest : path_parent (backup_path_of dir digest) = dir.
Proof. apply path_parent_join. Qed.

Lemma manifest_path_of dir digest :
  manifest_path (backup_path_of dir digest) = path_join dir ("photorec-" +:+ digest +:+ ".json").
Proof.
  unfold manifest_path, with_suffix, backup_path_of. rewrite path_parent_join, path_name_join, backup_name_stem.
  done.
Qed.

Lemma manifest_path_ne dir digest : manifest_path (backup_path_of dir digest) <> backup_path_of dir digest.
Proof.
  rewrite manifest_path_of. unfold backup_path_of. intros E%path_join_inj.
  apply (f_equal (fun s => chars s)) in E. rewrite !chars_app in E. by apply app_inv_head, app_inv_head in E.
Qed.

Section backup_facts.
Context `{DiskOps}.

Lemma atomic_write_ok d p data code d' :
  atomic_write d p data code = (d', Ok tt) ->
  d' = <[p := RegularFile data 384 1]> d /\ check_private_directory d (path_parent p) = Ok tt.
Proof.
  unfold atomic_write. destruct (check_private_directory d (path_parent p)) as [[]|]; [|done].
  destruct (d !! p) as [[]|]; try done; destruct (do_write d p); naive_solver.
Qed.

Lemma prepare_private_directory_ok d p d' :
  prepare_private_directory d p = (d', Ok tt) -> d' = <[p := Directory 448]> d /\ is_absolute p = true.
Proof.
  unfold prepare_private_directory. destruct (check (negb (is_absolute p)) _) as [[]|] eqn:Ha; [|done].
  apply check_ok, negb_false_iff in Ha. intros E. split; [|done].
  destruct (_ ≫= _) as [[]|] in E; [|done]. destruct (do_mkdir_fails d p); [done|].
  destruct (d !! p) as [[]|]; naive_solver.
Qed.

Lemma read_bounded_file_ok d p maximum code private data :
  read_bounded_file d p maximum code private = Ok data ->
  exists mode, d !! p = Some (RegularFile data mode 1) /\ (private = true -> private_mode mode = true) /\
    zlen data <= maximum.
Proof.
  unfold read_bounded_file. destruct (d !! p) as [[x mode links| | |]|]; try done. intros E.
  apply bind_ok in E as ([] & H1%check_ok & E). apply bind_ok in E as ([] & H2%check_ok & E).
  apply bind_ok in E as ([] & H3%check_ok & [= <-]). apply negb_false_iff, Z.eqb_eq in H1 as ->.
  exists mode. split_and!; [done| |by apply Z.ltb_ge].
  intros ->. by apply negb_false_iff in H2.
Qed.

Lemma read_private_file d p data maximum code private :
  d !! p = Some (RegularFile data 384 1) -> zlen data <= maximum ->
  read_bounded_file d p maximum code private = Ok data.
Proof.
  intros E Hl. unfold read_bounded_file. rewrite E. cbn [Z.eqb negb check raise_if mbind result_bind].
  change (private_mode 384) with true. rewrite andb_false_r. cbn [check raise_if mbind result_bind].
  by rewrite (proj2 (Z.ltb_ge _ _) Hl).
Qed.

Lemma write_manifest_ok d dir digest b p completed d' :
  is_sha256_hex digest = true ->
  write_manifest d (backup_path_of dir digest) b p completed = (d', Ok tt) ->
  exists data, manifest_bytes b p completed digest = Ok data /\ zlen data <= MAX_MANIFEST_BYTES /\
    d' = <[manifest_path (backup_path_of dir digest) := RegularFile data 384 1]> d.
Proof.
  intros Hd. unfold write_manifest. rewrite backup_path_name, backup_name_stem, remove_backup_prefix. destruct (validate_backup_path _) as [[]|]; [|done]. cbn [mbind result_bind].
  destruct (manifest_bytes b p completed digest) as [data|] eqn:E; [|done]. intros Hw.
  apply atomic_write_ok in Hw as [-> _]. exists data. split_and!; [done| |done].
  clear -E. unfold manifest_bytes in E. apply bind_ok in E as ([] & _ & E). apply bind_ok in E as (? & _ & E).
  apply bind_ok in E as (? & _ & E). destruct (dumps _); [|done].
  apply bind_ok in E as ([] & Hm%check_ok & [= <-]). by apply Z.ltb_ge.
Qed.

Lemma validate_binding_refl b : validate_binding_shape b = Ok tt -> validate_binding b b = Ok tt.
Proof.
  intros Hb. unfold validate_binding. rewrite Hb. cbn [mbind result_bind].
  rewrite !String.eqb_refl, !bool_decide_true by done. done.
Qed.

Lemma make_backup_ok digest p b pr c k :
  make_backup digest p b pr c = Ok k <->
  k = {| bk_session_sha256 := digest; bk_backup_path := p; bk_binding := b; bk_progress := pr; bk_completed := c |} /\
  is_sha256_hex digest = true /\ validate_backup_path p = Ok tt /\ validate_binding_shape b = Ok tt /\
  normalize_progress_map pr = Ok pr.
Proof.
  unfold make_backup. split.
  - intros E. apply bind_ok in E as ([] & H1%check_ok & E). apply bind_ok in E as ([] & H2 & E).
    apply bind_ok in E as ([] & H3 & E). apply bind_ok in E as (q & H4 & [= <-]).
    pose proof H4 as H5. apply normalize_progress_map_ok in H4 as (-> & _). by apply negb_false_iff in H1.
  - intros (-> & H1 & H2 & H3 & H4). rewrite H1, H2, H3, H4. done.
Qed.

(** A loaded backup, from what is on the disk. *)
Lemma load_from_disk d dir digest data mdata b p completed :
  digest = sha256_hex data -> validate_backup_path (backup_path_of dir digest) = Ok tt ->
  validate_binding_shape b = Ok tt -> normalize_progress_map p = Ok p ->
  check_private_directory d dir = Ok tt ->
  d !! backup_path_of dir digest = Some (RegularFile data 384 1) -> zlen data <= SESSION_MAX_BYTES ->
  validate_session_data data = Ok tt ->
  d !! manifest_path (backup_path_of dir digest) = Some (RegularFile mdata 384 1) -> zlen mdata <= MAX_MANIFEST_BYTES ->
  read_manifest mdata digest = Ok (b, p, completed) ->
  load_session_backup d (backup_path_of dir digest) b =
    Ok {| bk_session_sha256 := digest; bk_backup_path := backup_path_of dir digest; bk_binding := b;
          bk_progress := p; bk_completed := completed |}.
Proof.
  intros Hdg Hpath Hb Hp Hdir Hf Hl Hv Hm Hml Hr. unfold load_session_backup, node_exists, is_symlink.
  rewrite Hpath, Hb, Hf, Hm. cbn [mbind result_bind negb orb check raise_if].
  rewrite (read_private_file _ _ _ _ _ _ Hf Hl), (read_private_file _ _ _ _ _ _ Hm Hml).
  rewrite backup_path_parent, Hdir. cbn [mbind result_bind].
  rewrite Hv. cbn [mbind result_bind]. rewrite <- Hdg. rewrite backup_path_name.
  assert (is_sha256_hex digest = true) as Hhex by (rewrite Hdg; apply sha256_hex_ok).
  rewrite backup_name_digest, bool_decide_true by done. cbn [negb check raise_if mbind result_bind].
  rewrite Hr. cbn [mbind result_bind]. rewrite (validate_binding_refl b Hb). cbn [mbind result_bind].
  by apply make_backup_ok.
Qed.

Lemma path_join_parent p x : path_name_of p = x -> x <> "" -> path_join (path_parent p) x = p.
Proof.
  destruct p as [r l]. unfold path_name_of, path_join, path_parent. simpl. intros <- Hne.
  destruct l as [|y l _] using rev_ind; [done|]. rewrite last_snoc. simpl. by rewrite List.removelast_last.
Qed.

Lemma backup_digest_name name dg : backup_digest name = Some dg -> name = "photorec-" +:+ dg +:+ ".ses" /\ is_sha256_hex dg = true.
Proof.
  unfold backup_digest. destruct (_ && _) eqn:E; [|done]. intros [= <-].
  apply andb_true_iff in E as [? ?%String.eqb_eq]. done.
Qed.

Lemma backup_name_inj x y : "photorec-" +:+ x +:+ ".ses" = "photorec-" +:+ y +:+ ".ses" -> x = y.
Proof.
  intros E%(f_equal name_stem). rewrite !backup_name_stem in E. apply (f_equal (remove_prefix "photorec-")) in E.
  by rewrite !remove_backup_prefix in E.
Qed.

(** What a backup leaves on the disk. *)
Lemma backup_session_ok d session_path dir binding p completed d' k :
  backup_session d session_path dir binding p completed = (d', Ok k) ->
  exists data mdata,
    k = {| bk_session_sha256 := sha256_hex data; bk_backup_path := backup_path_of dir (sha256_hex data);
           bk_binding := binding; bk_progress := p; bk_completed := completed |} /\
    validate_backup_path (bk_backup_path k) = Ok tt /\ validate_binding_shape binding = Ok tt /\
    normalize_progress_map p = Ok p /\ validate_session_data data = Ok tt /\ zlen data <= SESSION_MAX_BYTES /\
    manifest_bytes binding p completed (sha256_hex data) = Ok mdata /\ zlen mdata <= MAX_MANIFEST_BYTES /\
    d' = <[manifest_path (bk_backup_path k) := RegularFile mdata 384 1]>
           (<[bk_backup_path k := RegularFile data 384 1]> (<[dir := Directory 448]> d)).
Proof.
  unfold backup_session. destruct (_ ≫= _) as [q|] eqn:Eq; [|done].
  apply bind_ok in Eq as ([] & _ & Eq). apply bind_ok in Eq as ([] & Hb & Eq).
  assert (q = p) as -> by by apply normalize_progress_map_ok in Eq as (-> & _).
  destruct (prepare_private_directory d dir) as [d1 [[]|]] eqn:E1; [|done].
  apply prepare_private_directory_ok in E1 as [-> Habs].
  destruct (_ ≫= _) as [data|] eqn:Er; [|done]. apply bind_ok in Er as (data' & Er & Hv).
  apply bind_ok in Hv as ([] & Hv & [= <-]). apply read_bounded_file_ok in Er as (mode & _ & _ & Hlen).
  fold (backup_path_of dir (sha256_hex data')).
  destruct (atomic_write _ (backup_path_of _ _) _ _) as [d2 [[]|]] eqn:E2; [|done].
  apply atomic_write_ok in E2 as [-> _].
  destruct (write_manifest _ _ _ _ _) as [d3 [[]|]] eqn:E3; [|done].
  apply write_manifest_ok in E3 as (mdata & Hm & Hml & ->); [|apply sha256_hex_ok].
  intros [= <- Hk]. apply make_backup_ok in Hk as (-> & Hdg & Hpath & _ & _). exists data', mdata. done.
Qed.

(** A session that was backed up loads back: under its own binding, from the directory it was
    written to, with the same digest, path, binding, counters and completion flag; only the
    order of the keys of the progress map is lost. *)
Theorem backup_load_roundtrip d session_path dir binding p completed d' k :
  NoDup p.*1 ->
  backup_session d session_path dir binding p completed = (d', Ok k) ->
  bk_binding k = binding /\ bk_progress k = p /\ bk_completed k = completed /\
  load_session_backup d' (bk_backup_path k) binding =
    Ok {| bk_session_sha256 := bk_session_sha256 k; bk_backup_path := bk_backup_path k; bk_binding := binding;
          bk_progress := sort_keys p; bk_completed := completed |}.
Proof.
  intros Hn (data & mdata & -> & Hpath & Hb & Hp & Hv & Hl & Hm & Hml & ->)%backup_session_ok.
  cbn [bk_binding bk_progress bk_completed bk_backup_path bk_session_sha256] in *.
  split_and!; [done..|]. apply (load_from_disk _ _ _ data mdata); try done.
  - by apply normalize_sorted_progress.
  - unfold check_private_directory. rewrite lookup_insert_ne, lookup_insert_ne, lookup_insert_eq; [done| |].
    + apply path_join_ne.
    + rewrite manifest_path_of. apply path_join_ne.
  - rewrite lookup_insert_ne, lookup_insert_eq; [done|]. apply manifest_path_ne.
  - by rewrite lookup_insert_eq.
  - by apply read_manifest_bytes.
Qed.

(** What a successful load has read. *)
Lemma load_session_backup_ok d path expected k :
  load_session_backup d path expected = Ok k ->
  exists data mdata mode mode',
    d !! path = Some (RegularFile data mode 1) /\ d !! manifest_path path = Some (RegularFile mdata mode' 1) /\
    private_mode mode = true /\ private_mode mode' = true /\
    check_private_directory d (path_parent path) = Ok tt /\ validate_session_data data = Ok tt /\
    backup_digest (path_name_of path) = Some (sha256_hex data) /\
    read_manifest mdata (sha256_hex data) = Ok (bk_binding k, bk_progress k, bk_completed k) /\
    validate_binding (bk_binding k) expected = Ok tt /\
    bk_session_sha256 k = sha256_hex data /\ bk_backup_path k = path.
Proof.
  unfold load_session_backup. intros E. apply bind_ok in E as ([] & _ & E). apply bind_ok in E as ([] & _ & E).
  apply bind_ok in E as ([] & _ & E). apply bind_ok in E as ([] & Hdir & E).
  apply bind_ok in E as (data & Hr & E). apply bind_ok in E as ([] & Hv & E).
  apply bind_ok in E as ([] & Hn%check_ok & E). apply bind_ok in E as ([] & _ & E).
  apply bind_ok in E as (mdata & Hr' & E). apply bind_ok in E as ([[b p] c] & Hm & E).
  apply bind_ok in E as ([] & Hb & E). apply make_backup_ok in E as (-> & _).
  apply read_bounded_file_ok in Hr as (mode & Hd & Hmode & _).
  apply read_bounded_file_ok in Hr' as (mode' & Hd' & Hmode' & _).
  apply negb_false_iff, bool_decide_eq_true in Hn. exists data, mdata, mode, mode'. split_and!; auto.
Qed.

Lemma validate_binding_ok actual expected :
  validate_binding actual expected = Ok tt -> actual = expected /\ validate_binding_shape actual = Ok tt.
Proof.
  unfold validate_binding. intros E. apply bind_ok in E as ([] & Hs & E). apply bind_ok in E as ([] & _ & E).
  apply bind_ok in E as ([] & H1%check_ok & E). apply bind_ok in E as ([] & H2%check_ok & E).
  apply bind_ok in E as ([] & H3%check_ok & E). apply check_ok in E. split; [|done].
  apply orb_false_iff in H3 as [H3 H4].
  apply negb_false_iff, String.eqb_eq in H1. apply negb_false_iff, String.eqb_eq in H2.
  apply negb_false_iff, bool_decide_eq_true in H3. apply negb_false_iff, bool_decide_eq_true in H4.
  apply negb_false_iff, String.eqb_eq in E. destruct actual, expected. simpl in *. congruence.
Qed.

(** A session backup loads only under its own binding, and only as it was written: the
    binding asked for is the one in the manifest; the file and its manifest are regular, private
    and have one link in a private directory; and the name, the digest in the manifest and the
    SHA-256 of the bytes agree.  So no backup loads for another source, tool version, set of
    signatures, list of ranges or command. *)
Theorem load_only_own_binding d path expected k :
  load_session_backup d path expected = Ok k ->
  bk_binding k = expected /\ bk_backup_path k = path /\
  path_name_of path = "photorec-" +:+ bk_session_sha256 k +:+ ".ses" /\
  (exists data mdata mode mode',
    d !! path = Some (RegularFile data mode 1) /\ d !! manifest_path path = Some (RegularFile mdata mode' 1) /\
    private_mode mode = true /\ private_mode mode' = true /\ sha256_hex data = bk_session_sha256 k /\
    read_manifest mdata (bk_session_sha256 k) = Ok (expected, bk_progress k, bk_completed k)) /\
  forall other, other <> expected -> is_ok (load_session_backup d path other) = false.
Proof.
  intros (data & mdata & mode & mode' & Hd & Hd' & H1 & H2 & _ & _ & Hn & Hm & [Hbe Hs]%validate_binding_ok & Hdg & Hp)
    %load_session_backup_ok.
  rewrite <- Hdg, Hbe in Hm. split_and!; [done|done| | |].
  - rewrite Hdg. by apply backup_digest_name in Hn as [-> _].
  - exists data, mdata, mode, mode'. split_and!; auto.
  - intros other Hne. destruct (load_session_backup d path other) as [k'|] eqn:E; [|done]. exfalso.
    apply load_session_backup_ok in E as (x & y & ? & ? & Ex & Ey & _ & _ & _ & _ & _ & Hm' & [E' _]%validate_binding_ok & _).
    rewrite E' in Hm'.
    rewrite Hd in Ex. rewrite Hd' in Ey. injection Ex as <- _. injection Ey as <- _. congruence.
Qed.

End backup_facts.

(** ** The resume command *)

Lemma command_ranges_skip a l : a <> "range" -> command_ranges (a :: l) = command_ranges l.
Proof. intros Ha. simpl. by rewrite (proj2 (String.eqb_neq _ _) Ha). Qed.

Lemma parse_range_text r :
  bad_range_values (cr_offset r) (cr_length r) = false -> parse_range_option (range_text r) = Ok r.
Proof.
  intros [Hok Hr]%built_option_range. apply parse_range_option_spec.
  exists (str_of_Z (cr_offset r)), (str_of_Z (cr_length r)). done.
Qed.

(** The ranges of a command that was built are read back from its arguments. *)
Lemma command_ranges_built dest src signatures ranges :
  path_str dest <> "range" -> path_str src <> "range" ->
  (forall r, r ∈ ranges -> bad_range_values (cr_offset r) (cr_length r) = false) ->
  command_ranges (command_args PHOTOREC_BINARY dest src signatures ranges) = Ok ranges.
Proof.
  intros Hd Hs Hr. unfold command_args. cbn [app].
  rewrite !command_ranges_skip by done. clear Hd Hs.
  induction signatures as [|s l IH].
  - cbn [fmap list_fmap concat app]. induction ranges as [|r l IH]; [done|].
    rewrite fmap_cons. cbn [concat app]. simpl. rewrite parse_range_text by (apply Hr; left).
    cbn [recode mbind result_bind]. rewrite IH by (intros; apply Hr; by right). done.
  - rewrite fmap_cons. cbn [concat app]. rewrite command_ranges_skip by done.
    rewrite command_ranges_skip; [done|]. intros E. apply (f_equal (fun x => chars x)) in E.
    rewrite chars_app in E. assert (","%char ∈ chars "range") as Hc.
    { rewrite <- E. apply elem_of_app. right. left. }
    revert Hc. apply (bool_decide_unpack _). by vm_compute.
Qed.

Lemma absolute_not_range p : is_absolute (parse_path p) = true -> p <> "range".
Proof. by intros H ->. Qed.

Lemma recode_ok {E A} (m : result E A) code a : recode m code = Ok a <-> m = Ok a.
Proof. destruct m; simpl; naive_solver. Qed.

Lemma wf_path_quarantine p : wf_path p -> wf_path (path_join p QUARANTINE).
Proof.
  intros [Hr Hp]. split; [done|]. simpl. apply Forall_app. split; [done|].
  apply Forall_singleton. split_and!; [done..|]. apply (bool_decide_unpack _). by vm_compute.
Qed.

(** A child is below a directory when its parent is, or is that directory. *)
Lemma in_parents_join d p x : in_parents d p = false -> p <> d -> in_parents d (path_join p x) = false.
Proof.
  destruct d as [rd ld], p as [rp lp]. unfold in_parents, path_join. simpl. intros Hf Hne.
  destruct (String.eqb_spec rd rp) as [->|]; [|done]. cbn [andb] in *. rewrite length_app. simpl.
  destruct (decide (length ld <= length lp)%nat) as [Hl|Hl].
  - rewrite take_app_le by done. destruct (decide (take (length ld) lp = ld)) as [E|E].
    + rewrite bool_decide_true in * by done. cbn [andb] in *. apply Nat.ltb_ge in Hf.
      exfalso. apply Hne. f_equal. by rewrite take_ge in E.
    + by rewrite bool_decide_false.
  - rewrite (proj2 (Nat.ltb_ge _ _)) by lia. by rewrite andb_false_r.
Qed.

Section resume_facts.
Context `{PathFs}.

(** What a command that was built is. *)
Lemma build_photorec_command_ok src root signatures ranges binary c :
  build_photorec_command src root signatures ranges binary = Ok c ->
  exists resolved, fs_resolve root = Some resolved /\ (in_parents DEV resolved = false /\ resolved <> DEV) /\
    binary = PHOTOREC_BINARY /\ pc_destination c = path_join resolved QUARANTINE /\
    normalize_signatures signatures = Ok (pc_signatures c) /\ validate_ranges ranges = Ok tt /\
    pc_args c = command_args PHOTOREC_BINARY (pc_destination c) src (pc_signatures c) ranges /\
    validate_command (pc_args c) = Ok tt.
Proof.
  unfold build_photorec_command. intros E. apply bind_ok in E as ([] & _ & E).
  apply bind_ok in E as ([] & Hb & E). apply bind_ok in E as ([resolved dest] & Hr & E).
  apply bind_ok in E as (sigs & Hs & E). apply bind_ok in E as ([] & Hrg & E). apply bind_ok in E as ([] & _ & E).
  apply bind_ok in E as ([] & Hv & [= <-]). simpl.
  unfold validate_binary in Hb. apply raise_if_ok, negb_false_iff, String.eqb_eq in Hb as ->.
  unfold validate_scratch_root in Hr. apply bind_ok in Hr as ([] & _ & Hr).
  destruct (fs_resolve root) as [r|]; [|done]. apply bind_ok in Hr as ([] & Hd%raise_if_ok & Hr).
  apply bind_ok in Hr as ([] & _ & Hr). apply bind_ok in Hr as ([] & _ & Hr). injection Hr as -> <-.
  apply orb_false_iff in Hd as [Hd Hp]. apply orb_false_iff in Hd as [_ Hd%bool_decide_eq_false]. by exists resolved.
Qed.

Lemma validate_source_absolute p : validate_source_path p = Ok tt -> is_absolute p = true.
Proof.
  unfold validate_source_path. intros E. apply bind_ok in E as ([] & Hg%raise_if_ok & _).
  repeat apply orb_false_iff in Hg as [Hg _]. by apply negb_false_iff.
Qed.

(** The parts of a valid command that a resume command keeps. *)
Lemma validate_command_parts args :
  validate_command args = Ok tt ->
  validate_source_path (parse_path (nth 5 args "")) = Ok tt /\ bad_destination (parse_path (nth 3 args "")) = false.
Proof.
  unfold validate_command. intros E. apply bind_ok in E as ([] & _ & E). apply bind_ok in E as ([] & Hs & E).
  apply bind_ok in E as ([] & Hd%raise_if_ok & _). done.
Qed.

Lemma canonical_signatures_ok l k : canonical_signatures l = Ok k <-> k = l /\ normalize_signatures l = Ok l.
Proof.
  unfold canonical_signatures. rewrite bind_ok. setoid_rewrite recode_ok. split.
  - intros (r & Hr & E). apply bind_ok in E as ([] & Hc%check_ok & [= <-]).
    apply negb_false_iff, bool_decide_eq_true in Hc as ->. done.
  - intros [-> Hl]. exists l. split; [done|]. by rewrite bool_decide_true.
Qed.

Lemma validate_binding_shape_ok b :
  validate_binding_shape b = Ok tt <->
  validate_fingerprint (sb_source_fingerprint b) = Ok tt /\ validate_tool_version (sb_tool_version b) = Ok tt /\
  normalize_signatures (sb_signatures b) = Ok (sb_signatures b) /\ validate_binding_ranges (sb_ranges b) = Ok tt /\
  is_sha256_hex (sb_command_hash b) = true.
Proof.
  unfold validate_binding_shape. split.
  - intros E. apply bind_ok in E as ([] & H1 & E). apply bind_ok in E as ([] & H2 & E).
    apply bind_ok in E as (? & [-> H3]%canonical_signatures_ok & E). apply bind_ok in E as ([] & H4 & E).
    apply check_ok, negb_false_iff in E. done.
  - intros (-> & -> & H3 & H4 & H5). rewrite (proj2 (canonical_signatures_ok _ _)) by done.
    cbn [mbind result_bind]. by rewrite H4, H5.
Qed.

(** The binding of a command, for a shape that is valid. *)
Lemma binding_for_built b src root binary fresh :
  validate_binding_shape b = Ok tt ->
  build_photorec_command src root (sb_signatures b) (sb_ranges b) binary = Ok fresh ->
  binding_for_command (sb_source_fingerprint b) fresh (sb_ranges b) (sb_tool_version b) = Ok b <->
  command_hash fresh (sb_ranges b) (sb_tool_version b) = Some (sb_command_hash b).
Proof.
  intros Hs Hb. pose proof Hs as Hs'. rewrite validate_binding_shape_ok in Hs'. destruct Hs' as (H1 & H2 & H3 & H4 & _).
  apply build_photorec_command_ok in Hb as (resolved & _ & _ & _ & _ & Hn & Hr & Ha & Hv).
  rewrite H3 in Hn. injection Hn as Hn.
  destruct (validate_command_parts _ Hv) as [Hsrc Hdst]. rewrite Ha in Hsrc, Hdst. cbn [nth command_args app] in Hsrc, Hdst.
  assert (Hcr : command_ranges (pc_args fresh) = Ok (sb_ranges b)).
  { rewrite Ha. apply command_ranges_built.
    - apply absolute_not_range. unfold bad_destination in Hdst. apply orb_false_iff in Hdst as [Hdst _].
      apply orb_false_iff in Hdst as [Hdst _]. by apply negb_false_iff.
    - by apply absolute_not_range, validate_source_absolute.
    - by apply validate_ranges_ok. }
  unfold binding_for_command. rewrite H1, H2, H4, Hv. cbn [recode mbind result_bind].
  rewrite (proj2 (canonical_signatures_ok (pc_signatures fresh) (pc_signatures fresh))) by (by rewrite <- Hn).
  cbn [mbind result_bind]. rewrite Hcr. cbn [mbind result_bind].
  rewrite (bool_decide_true (pc_signatures fresh = _)), (bool_decide_true (sb_ranges b = _)) by done.
  cbn [negb orb check raise_if mbind result_bind]. rewrite <- Hn. unfold make_binding. split.
  - destruct (command_hash _ _ _) as [h|]; [|done]. intros E. apply bind_ok in E as ([] & _ & [= E]).
    f_equal. by rewrite <- E.
  - intros ->. destruct b as [f v s r h]. cbn in *. by rewrite Hs.
Qed.

(** C12. A resume command is given exactly for the run that was bound.  It is returned if and only
    if the backup is well formed and not completed, the tool version is the supported one, the
    first field of the session names the source, and building the command afresh from the source,
    the scratch root and the bound signatures and ranges gives a command whose binding is the
    stored one; the arguments are then the fixed resume form, with the destination and source of
    the fresh command. *)
Theorem resume_command_exact d b source_path scratch_root binary c :
  wf_path source_path -> (forall q, fs_resolve scratch_root = Some q -> wf_path q /\ is_absolute q = true) ->
  build_resume_command d b source_path scratch_root binary = Ok c <->
  validate_session_backup b = Ok tt /\ bk_completed b = false /\
  sb_tool_version (bk_binding b) = PHOTOREC_VERSION /\
  validate_session_source d (bk_backup_path b) source_path = Ok tt /\
  exists fresh,
    build_photorec_command source_path scratch_root (sb_signatures (bk_binding b)) (sb_ranges (bk_binding b)) binary
      = Ok fresh /\
    binding_for_command (sb_source_fingerprint (bk_binding b)) fresh (sb_ranges (bk_binding b))
      (sb_tool_version (bk_binding b)) = Ok (bk_binding b) /\
    c = {| pc_args := ["photorec"; "/log"; "/d"; path_str (pc_destination fresh); "/cmd"; "resume"; path_str source_path];
           pc_destination := pc_destination fresh; pc_signatures := pc_signatures fresh |}.
Proof.
  intros Hwf Hres.
  assert (Hshape : validate_session_backup b = Ok tt -> validate_binding_shape (bk_binding b) = Ok tt).
  { unfold validate_session_backup. intros E. by apply bind_ok in E as ([] & ? & _). }
  unfold build_resume_command. split.
  - intros E. apply bind_ok in E as ([] & H1 & E). apply bind_ok in E as ([] & H2%check_ok & E).
    apply bind_ok in E as ([] & H3%check_ok & E). apply bind_ok in E as ([] & H4 & E).
    apply bind_ok in E as (fresh & H5%recode_ok & E). apply bind_ok in E as ([] & H6%check_ok & E).
    apply bind_ok in E as ([] & _ & [= <-]).
    apply negb_false_iff, String.eqb_eq in H3. apply negb_false_iff, bool_decide_eq_true in H6.
    split_and!; [done..|]. exists fresh. split_and!; [done| |done]. eapply binding_for_built; eauto.
  - intros (H1 & H2 & H3 & H4 & fresh & H5 & H6 & ->). rewrite H1, H2, H3, H4, H5.
    cbn [recode mbind result_bind check raise_if]. rewrite String.eqb_refl. cbn [negb check raise_if mbind result_bind].
    rewrite <- H3. rewrite bool_decide_true by (eapply binding_for_built; eauto).
    cbn [negb check raise_if mbind result_bind].
    apply build_photorec_command_ok in H5 as (resolved & Hq & [Hdev Hne] & _ & Hd & _ & _ & Ha & Hv).
    destruct (Hres _ Hq) as [Hwr Habs]. destruct (validate_command_parts _ Hv) as [Hsrc Hdst].
    rewrite Ha in Hsrc, Hdst. cbn [nth command_args app] in Hsrc, Hdst.
    unfold validate_resume_command. cbn [nth]. rewrite Hsrc, Hdst, Hd.
    rewrite parse_path_str; [|by apply wf_path_quarantine|done].
    by rewrite in_parents_join.
Qed.
End resume_facts.

(** ** A completed run *)

Section completion.
Context `{PathFs} `{DiskOps}.

(** The manifest of a backup says that the carve is completed. *)
Definition records_completion (d : disk) (k : SessionBackup) : Prop :=
  exists mdata digest q,
    path_name_of (bk_backup_path k) = "photorec-" +:+ digest +:+ ".ses" /\
    d !! manifest_path (bk_backup_path k) = Some (RegularFile mdata 384 1) /\
    read_manifest mdata digest = Ok (bk_binding k, q, true).

Lemma validate_session_backup_ok b :
  validate_session_backup b = Ok tt <->
  validate_binding_shape (bk_binding b) = Ok tt /\ validate_backup_path (bk_backup_path b) = Ok tt /\
  path_name_of (bk_backup_path b) = "photorec-" +:+ bk_session_sha256 b +:+ ".ses" /\
  normalize_progress_map (bk_progress b) = Ok (bk_progress b).
Proof.
  unfold validate_session_backup. split.
  - intros E. apply bind_ok in E as ([] & H1 & E). apply bind_ok in E as ([] & H2 & E).
    apply bind_ok in E as ([] & H3%check_ok & E). apply bind_ok in E as (q & H4 & _).
    apply negb_false_iff, String.eqb_eq in H3. split_and!; [done..|].
    pose proof H4 as H5. apply normalize_progress_map_ok in H5 as (-> & _). done.
  - intros (H1 & H2 & H3 & H4). rewrite H1, H2, H3, H4. cbn [mbind result_bind]. by rewrite String.eqb_refl.
Qed.

Lemma valid_backup_of b :
  validate_session_backup b = Ok tt ->
  bk_backup_path b = backup_path_of (path_parent (bk_backup_path b)) (bk_session_sha256 b) /\
  is_sha256_hex (bk_session_sha256 b) = true.
Proof.
  rewrite validate_session_backup_ok. intros (_ & Hp & Hn & _). split.
  - symmetry. by apply path_join_parent.
  - unfold validate_backup_path in Hp. apply bind_ok in Hp as ([] & _ & Hp).
    apply bind_ok in Hp as ([] & _ & Hp). apply check_ok, bool_decide_eq_false in Hp.
    destruct (backup_digest (path_name_of (bk_backup_path b))) as [dg|] eqn:E; [|done].
    apply backup_digest_name in E as [E Hh]. rewrite Hn in E. by apply backup_name_inj in E as ->.
Qed.

Lemma mark_backup_completed_ok d b p d' k :
  NoDup p.*1 -> validate_session_backup b = Ok tt -> mark_backup_completed d b p = (d', Ok k) ->
  bk_binding k = bk_binding b /\ records_completion d' k.
Proof.
  intros Hn Hb. destruct (valid_backup_of _ Hb) as [Hp Hh]. unfold mark_backup_completed.
  destruct (write_manifest _ _ _ _ _) as [d2 [[]|]] eqn:E; [|done]. intros [= <- Hk].
  rewrite Hp in E. apply write_manifest_ok in E as (mdata & Hm & _ & ->); [|done].
  apply make_backup_ok in Hk as (-> & _). split; [done|].
  exists mdata, (bk_session_sha256 b), (sort_keys p). cbn [bk_backup_path bk_binding]. split_and!.
  - rewrite Hp. apply backup_path_name.
  - rewrite <- Hp. by rewrite lookup_insert_eq.
  - by apply read_manifest_bytes.
Qed.

Lemma try_mark_completed d b p c w d' k w' :
  NoDup p.*1 -> validate_session_backup b = Ok tt -> bk_completed b = false ->
  try_mark d b p c w = (d', k, w') -> bk_completed k = true ->
  c = true /\ bk_binding k = bk_binding b /\ records_completion d' k.
Proof.
  intros Hn Hb Hc. unfold try_mark. destruct c; [|intros [= <- <- <-]; congruence].
  destruct (mark_backup_completed d b p) as [d2 [k2|e]] eqn:E; intros [= <- <- <-] Hk; [|congruence].
  split; [done|]. by eapply mark_backup_completed_ok.
Qed.

Lemma keep_session_completed d b staged p c w d' k w' :
  NoDup p.*1 -> validate_session_backup b = Ok tt -> bk_completed b = false ->
  keep_session d b staged p c w = (d', k, w') -> bk_completed k = true ->
  c = true /\ bk_binding k = bk_binding b /\ records_completion d' k.
Proof.
  intros Hn Hb Hc. unfold keep_session.
  destruct (is_symlink d staged); [by apply try_mark_completed|]. destruct (node_exists d staged).
  - destruct (backup_session _ _ _ _ _ _) as [d2 [k2|e]] eqn:E; [|by apply try_mark_completed].
    intros [= <- <- <-]. apply backup_session_ok in E as (data & mdata & -> & _ & _ & _ & _ & _ & Hm & _ & ->).
    cbn [bk_completed bk_binding bk_backup_path]. intros ->. split_and!; [done..|].
    exists mdata, (sha256_hex data), (sort_keys p). cbn [bk_backup_path bk_binding]. split_and!.
    + apply backup_path_name.
    + by rewrite lookup_insert_eq.
    + by apply read_manifest_bytes.
  - destruct c; [by apply try_mark_completed|]. intros [= <- <- <-]. congruence.
Qed.

Lemma loaded_backup_valid d path e k : load_session_backup d path e = Ok k -> validate_session_backup k = Ok tt.
Proof.
  intros Hl. pose proof Hl as (data & _ & _ & _ & _ & _ & _ & _ & _ & _ & Hn & _ & _ & Hd & Hp)%load_session_backup_ok.
  rewrite validate_session_backup_ok. unfold load_session_backup in Hl.
  do 9 (apply bind_ok in Hl as (? & _ & Hl)). apply bind_ok in Hl as ([[? ?] ?] & _ & Hl).
  apply bind_ok in Hl as ([] & _ & Hl). apply make_backup_ok in Hl as (-> & _ & H1 & H2 & H3).
  cbn [bk_session_sha256 bk_backup_path bk_binding bk_progress] in *. split_and!; [done..| |done].
  rewrite Hd. by apply backup_digest_name in Hn as [-> _].
Qed.

(** A backup whose completion is recorded loads as completed. *)
Lemma records_completion_load d k e k' :
  records_completion d k -> load_session_backup d (bk_backup_path k) e = Ok k' -> bk_completed k' = true.
Proof.
  intros (mdata & dg & q & Hn & Hm & Hr) (data & mdata' & mode & mode' & _ & Hm' & _ & _ & _ & _ & Hd & Hr' & _)
    %load_session_backup_ok.
  apply backup_digest_name in Hd as [Hd _]. rewrite Hn in Hd. apply backup_name_inj in Hd as ->.
  rewrite Hm in Hm'. injection Hm' as <- _. congruence.
Qed.

Lemma normalize_progress_nodup s p : normalize_progress s = Ok p -> NoDup p.*1.
Proof.
  unfold normalize_progress. intros E. apply bind_ok in E as ([n ws] & _ & [= <-]).
  apply (bool_decide_unpack _). by vm_compute.
Qed.

(** C11. A run that reports [complete] is over.  Its backup has the binding of the one it resumed
    and is marked completed, the tool ended by itself with exit code 0, and whatever is loaded
    from that backup afterwards is completed too, so that no resume command is given for it. *)
Theorem complete_run_recorded runner d b source_path scratch_root timeout_seconds d' r :
  run_photorec_resume runner d b source_path scratch_root timeout_seconds = (d', Ok r) ->
  re_status r = "complete" ->
  bk_completed (re_backup r) = true /\ bk_binding (re_backup r) = bk_binding b /\
  (exists d1 d2 working result,
     runner (pc_args (re_command r)) timeout_seconds working d1 = (d2, Ok result) /\
     rr_timed_out result = false /\ rr_returncode result = 0) /\
  forall e k, load_session_backup d' (bk_backup_path (re_backup r)) e = Ok k ->
    bk_completed k = true /\
    forall binary, build_resume_command d' k source_path scratch_root binary =
      Err (PhotoRecResumeError "session_completed").
Proof.
  unfold run_photorec_resume. destruct (stage_session _ _ _ _ _) as [d1 [c|]] eqn:E1; [|done].
  assert (validate_session_backup b = Ok tt /\ bk_completed b = false) as [Hb Hc].
  { unfold stage_session in E1. destruct (_ ≫= _) as [c'|] eqn:E in E1; [|done].
    apply bind_ok in E as ([] & _ & E). unfold build_resume_command in E.
    apply bind_ok in E as ([] & Hv & E). apply bind_ok in E as ([] & Hc%check_ok & _). done. }
  destruct (runner _ _ _ _) as [d2 [result|[e|]]] eqn:Er; [|done..].
  destruct (_ ≫= _) as [[[n pw] p]|] eqn:Ep; [|done].
  assert (NoDup p.*1) as Hn.
  { apply bind_ok in Ep as ([] & _ & Ep). apply bind_ok in Ep as (? & _ & Ep).
    apply bind_ok in Ep as (p' & Hp & [= _ <-]). by eapply normalize_progress_nodup. }
  destruct (keep_session _ _ _ _ _ _) as [[d3 k] w] eqn:Ek. intros [= <- <-]. cbn [re_status re_backup re_command].
  set (completed := negb (rr_timed_out result) && bool_decide (rr_returncode result ∈ [0; 1])) in *.
  destruct completed eqn:Ecomp; cbn [negb]; [|done].
  destruct (_ || _) eqn:Eo; [done|]. intros _. apply orb_false_iff in Eo as [Hrc Hk]. apply negb_false_iff in Hk.
  pose proof (keep_session_completed _ _ _ _ _ _ _ _ _ Hn Hb Hc Ek Hk) as (_ & Hbind & Hrec).
  split_and!; [done..| |].
  - exists d1, d2, (path_parent (pc_destination c)), result. split; [done|].
    apply andb_true_iff in Ecomp as [Ht Hx]. apply negb_true_iff in Ht. split; [done|].
    apply bool_decide_eq_true in Hx. apply Z.eqb_neq in Hrc. set_solver.
  - intros e k' Hl. pose proof (records_completion_load _ _ _ _ Hrec Hl) as Hk'. split; [done|]. intros binary.
    unfold build_resume_command. rewrite (loaded_backup_valid _ _ _ _ Hl), Hk'. done.
Qed.
End completion.

(** ** Witnesses *)

(** A system on which nothing fails. *)
Definition plain_disk : DiskOps :=
  {| do_resolve p := Some p; do_mkdir_fails _ _ := false; do_write _ _ := WriteDone |}.

Definition line_feed : string := of_chars [ascii_of_nat 10].
Definition sample_session : bytes :=
  utf8 ("#1" +:+ line_feed +:+ "/dev/sdb 512" +:+ line_feed +:+ "search" +:+ line_feed +:+ "0-4095" +:+ line_feed).

Definition sample_source : pypath := parse_path "/dev/sdb".
Definition sample_scratch : pypath := parse_path "/var/scratch".
Definition sample_session_path : pypath := parse_path "/var/scratch/photorec.ses".
Definition sample_backups : pypath := parse_path "/var/backups".
Definition sample_fingerprint : string := sha256_hex [1; 2; 3].
Definition sample_binding : SessionBinding :=
  match (c ← recode (@build_photorec_command flat_fs sample_source sample_scratch ["jpg"] sample_ranges PHOTOREC_BINARY) "";
         @binding_for_command flat_fs sample_fingerprint c sample_ranges PHOTOREC_VERSION) with
  | Ok b => b
  | Err _ => {| sb_source_fingerprint := ""; sb_tool_version := ""; sb_signatures := []; sb_ranges := []; sb_command_hash := "" |}
  end.
Definition sample_progress : progress := [("recovered_count", VInt 3); ("last_sector", VInt 10)].

Definition sample_disk : disk := <[sample_session_path := RegularFile sample_session 384 1]> ∅.
Definition sample_backed : disk * answer SessionBackup :=
  @backup_session plain_disk sample_disk sample_session_path sample_backups sample_binding sample_progress false.
Definition sample_backup : SessionBackup :=
  match sample_backed.2 with
  | Ok k => k
  | Err _ => {| bk_session_sha256 := ""; bk_backup_path := ROOT; bk_binding := sample_binding; bk_progress := []; bk_completed := false |}
  end.

Definition sample_runner (_ : list string) (_ : Z) (_ : pypath) (d : disk) : disk * result run_error PhotoRecRunResult :=
  (d, Ok {| rr_returncode := 0; rr_stdout := "5 files saved"; rr_stderr := ""; rr_timed_out := false |}).
Definition sample_run : disk * answer PhotoRecResumeResult :=
  @run_photorec_resume plain_disk flat_fs sample_runner sample_backed.1 sample_backup sample_source sample_scratch 60.

Lemma sample_backed_ok :
  @backup_session plain_disk sample_disk sample_session_path sample_backups sample_binding sample_progress false =
    (sample_backed.1, Ok sample_backup).
Proof.
  change (sample_backed = (sample_backed.1, Ok sample_backup)). rewrite (surjective_pairing sample_backed) at 1.
  apply (f_equal2 pair); [done|by vm_compute].
Qed.

Lemma backup_load_roundtrip_witness :
  bk_progress sample_backup = sample_progress /\
  load_session_backup sample_backed.1 (bk_backup_path sample_backup) sample_binding =
    Ok {| bk_session_sha256 := bk_session_sha256 sample_backup; bk_backup_path := bk_backup_path sample_backup;
          bk_binding := sample_binding; bk_progress := sort_keys sample_progress; bk_completed := false |}.
Proof.
  assert (NoDup (sample_progress.*1)) as Hn by (apply (bool_decide_unpack _); by vm_compute).
  destruct (@backup_load_roundtrip plain_disk _ _ _ _ _ _ _ _ Hn sample_backed_ok) as (_ & Hp & _ & Hl).
  split; [exact Hp|exact Hl].
Defined.

Definition other_binding : SessionBinding :=
  {| sb_source_fingerprint := sha256_hex []; sb_tool_version := sb_tool_version sample_binding;
     sb_signatures := sb_signatures sample_binding; sb_ranges := sb_ranges sample_binding;
     sb_command_hash := sb_command_hash sample_binding |}.

Lemma load_only_own_binding_witness :
  exists k, load_session_backup sample_backed.1 (bk_backup_path sample_backup) sample_binding = Ok k /\
    bk_binding k = sample_binding /\
    is_ok (load_session_backup sample_backed.1 (bk_backup_path sample_backup) other_binding) = false.
Proof.
  assert (is_ok (load_session_backup sample_backed.1 (bk_backup_path sample_backup) sample_binding) = true) as Hl
    by by vm_compute.
  destruct (load_session_backup sample_backed.1 (bk_backup_path sample_backup) sample_binding) as [k|] eqn:E; [|done].
  exists k. split; [done|]. destruct (load_only_own_binding _ _ _ _ E) as (Hb & _ & _ & _ & Ho). split; [done|].
  apply Ho. apply (bool_decide_unpack _). by vm_compute.
Defined.

Lemma resume_command_exact_witness :
  exists c fresh,
    @build_resume_command flat_fs sample_backed.1 sample_backup sample_source sample_scratch PHOTOREC_BINARY = Ok c /\
    @binding_for_command flat_fs sample_fingerprint fresh sample_ranges "7.2" = Ok (bk_binding sample_backup) /\
    pc_destination c = pc_destination fresh.
Proof.
  assert (is_ok (@build_resume_command flat_fs sample_backed.1 sample_backup sample_source sample_scratch PHOTOREC_BINARY)
          = true) as Hl by by vm_compute.
  destruct (@build_resume_command flat_fs sample_backed.1 sample_backup sample_source sample_scratch PHOTOREC_BINARY)
    as [c|] eqn:E; [|done].
  apply resume_command_exact in E as (_ & _ & Hv & _ & fresh & _ & Hb & ->);
    [|apply wf_parse_path|intros q [= <-]; split; [apply wf_parse_path|done]].
  exists {| pc_args := ["photorec"; "/log"; "/d"; path_str (pc_destination fresh); "/cmd"; "resume"; path_str sample_source];
            pc_destination := pc_destination fresh; pc_signatures := pc_signatures fresh |}, fresh.
  split; [done|]. split; [|done]. etransitivity; [|exact Hb]. f_equal; by vm_compute.
Defined.

Lemma complete_run_recorded_witness :
  exists r, sample_run.2 = Ok r /\ re_status r = "complete" /\ re_recovered_count r = 5 /\
    bk_completed (re_backup r) = true /\
    exists k, load_session_backup sample_run.1 (bk_backup_path (re_backup r)) sample_binding = Ok k /\ bk_completed k = true.
Proof.
  assert (match sample_run.2 with
          | Ok r => re_status r = "complete" /\ re_recovered_count r = 5 /\
              is_ok (load_session_backup sample_run.1 (bk_backup_path (re_backup r)) sample_binding) = true
          | Err _ => False
          end) as Hr by by vm_compute.
  pose proof (surjective_pairing sample_run) as Er. revert Er Hr.
  generalize (sample_run.2). intros [r|] Er Hr; [|destruct Hr]. destruct Hr as (Hs & Hc & Hl).
  destruct (@complete_run_recorded flat_fs plain_disk _ _ _ _ _ _ _ _ Er Hs) as (Hk & _ & _ & Hload).
  exists r. split; [reflexivity|]. split; [exact Hs|]. split; [exact Hc|]. split; [exact Hk|].
  clear Er Hs Hc Hk. revert Hl Hload. generalize sample_run.1. intros d' Hl Hload.
  destruct (load_session_backup d' (bk_backup_path (re_backup r)) sample_binding) as [k|] eqn:El; [|discriminate Hl].
  exists k. split; [reflexivity|]. exact (proj1 (Hload _ _ El)).
Defined.
