(* ===== verification/ScratchStore.v ===== *)
(** * The scratch store (src/shared/scratch_store.py)

    Recovered content lives under its SHA-256 digest, with a metadata record of its provenance.
    The disk is a map from paths to files, directories and links; each system call of a [put_bytes]
    may fail, as a record of faults decides, and the chunks come from actions on a state of their
    own, so that a reader can be interleaved with the writes.  The theorems: under any of the faults of
    [put_env] every object stays what its name says and no object is lost or altered; a put that
    returns has stored the chunks, and its record holds what it returned.

    Directories above the root are outside the disk, a link is not followed beyond what it points
    to; making a directory, removing leftovers, asking for the free space and reading a record of
    this store do not fail. *)

From Stdlib Require Import ZArith Lia String Ascii.
From stdpp Require Import base list strings gmap sorting fin_maps.
From S2P Require Import Prelude PyStr Json Sha256 Identifiers Messages JsonLines Paths Devices StorageInspection DestinationSeparation.

Local Open Scope string_scope.
Local Open Scope Z_scope.

Definition TEMP_PREFIX : string := ".reperio-incomplete-".

(** shared/scratch_store.py:22-27 ScratchStoreError; the [OSError]s by their class, other exceptions of the
    interpreter, and what the chunks raise. *)
Inductive scratch_error (E : Type) :=
  | ScratchStoreError (code : string)
  | ScratchOSError (class : string)
  | ScratchCrash (class : string)
  | ChunkError (e : E).
Arguments ScratchStoreError {E} code.
Arguments ScratchOSError {E} class.
Arguments ScratchCrash {E} class.
Arguments ChunkError {E} e.

(** shared/scratch_store.py:30-38 ScratchObject *)
Record ScratchObject := {
  so_content_id : string; so_sha256 : string; so_size_bytes : Z; so_storage_uri : string; so_path : pypath;
  so_ref_count : Z; so_provenance : list value }.

(** ** The disk *)

Inductive target := ToDir | ToFile | ToNothing.
Inductive node := FileNode (content : bytes) | DirNode | LinkNode (t : target).

#[global] Instance target_eq_dec : EqDecision target.
Proof. solve_decision. Defined.
#[global] Instance node_eq_dec : EqDecision node.
Proof. solve_decision. Defined.

Abbreviation mapping := (list (string * value)).
Abbreviation disk := (gmap pypath node).

Definition node_exists (n : option node) : bool := match n with None | Some (LinkNode ToNothing) => false | _ => true end.
Definition is_symlink (n : option node) : bool := match n with Some (LinkNode _) => true | _ => false end.

(** [p.iterdir()], in the order of the file system. *)
Class Listing := {
  scandir : disk -> pypath -> list pypath;
  scandir_spec d p q : q ∈ scandir d p <-> is_Some (d !! q) /\ path_parent q = p /\ q <> p }.

(** Everything [p.rglob("*")] yields. *)
Definition descendants (d : disk) (p : pypath) : list (pypath * node) := filter_b (fun '(q, _) => in_parents p q) (map_to_list d).

Definition node_size (n : node) : Z := match n with FileNode b => zlen b | _ => 0 end.

(** The faults of one [put_bytes], with the random names it draws and the space [statvfs] reports
    at its first and its second call. *)
Record put_env := {
  pe_name : string; pe_meta_name : string; pe_available : nat -> Z; pe_open : option string;
  pe_write : nat -> option (nat * string); pe_sync : option string; pe_replace : option string;
  pe_meta_write : option (nat * string); pe_meta_replace : option string; pe_unlink : option string }.

(** What a chunk is: bytes, or an object of another type. *)
Inductive chunk := CBytes (b : bytes) | COther.

Section store.
Context {E S : Type}.

Abbreviation outcome := (result (scratch_error E)).

(** shared/scratch_store.py:236-238 _validate_sha256 *)
Definition validate_sha256 (v : string) : outcome unit :=
  raise_if (negb (is_sha256_hex v)) (ScratchStoreError "invalid_hash").

(** shared/scratch_store.py:252-254 _refuse_symlink *)
Definition refuse_symlink (d : disk) (p : pypath) : outcome unit :=
  raise_if (is_symlink (d !! p)) (ScratchStoreError "scratch_symlink").

(** shared/scratch_store.py:241-249 _directory_size *)
Definition directory_size (d : disk) (p : pypath) : outcome Z :=
  if node_exists (d !! p)
  then _ ← raise_if (existsb (fun '(_, n) => is_symlink (Some n)) (descendants d p)) (ScratchStoreError "scratch_symlink");
       Ok (zsum ((fun '(_, n) => node_size n) <$> descendants d p))
  else Ok 0.

(** [p.mkdir(exist_ok=True)]. *)
Definition mkdir (d : disk) (p : pypath) : disk * outcome unit :=
  match d !! p with
  | None => (<[p := DirNode]> d, Ok tt)
  | Some DirNode | Some (LinkNode ToDir) => (d, Ok tt)
  | Some _ => (d, Err (ScratchOSError "FileExistsError"))
  end.

(** [p.mkdir(...)] and the refusal of a link. *)
Definition make_directory (d : disk) (p : pypath) : disk * outcome unit :=
  let (d, r) := mkdir d p in (d, _ ← r; refuse_symlink d p).

Section rooted.
Variable root : pypath.
Variable quota_bytes : Z.

Definition objects : pypath := path_join root "objects".
Definition tmp : pypath := path_join root "tmp".
Definition metadata_dir : pypath := path_join root "metadata".

Definition bucket (dir : pypath) (sha256 : string) : pypath := path_join dir (str_take 2 sha256).
Definition object_at (sha256 : string) : pypath := path_join (bucket objects sha256) sha256.
Definition metadata_at (sha256 : string) : pypath := path_join (bucket metadata_dir sha256) (sha256 +:+ ".json").

(** shared/scratch_store.py:205-207 _object_path *)
Definition object_path (sha256 : string) : outcome pypath := _ ← validate_sha256 sha256; Ok (object_at sha256).

(** shared/scratch_store.py:209-211 _metadata_path *)
Definition metadata_path (sha256 : string) : outcome pypath := _ ← validate_sha256 sha256; Ok (metadata_at sha256).

(** The directories one after another, stopping at the first error. *)
Fixpoint make_directories (d : disk) (l : list pypath) : disk * outcome unit :=
  match l with
  | [] => (d, Ok tt)
  | p :: l => let (d, r) := make_directory d p in
              match r with Err e => (d, Err e) | Ok _ => make_directories d l end
  end.

(** shared/scratch_store.py:71-76 initialize *)
Definition initialize (d : disk) : disk * outcome unit := make_directories d [root; objects; tmp; metadata_dir].

(** The loop of [_cleanup_incomplete]: what is left, and how many entries were removed. *)
Fixpoint cleanup_loop (l : list pypath) (removed : Z) (d : disk) : disk * outcome Z :=
  match l with
  | [] => (d, Ok removed)
  | p :: l =>
    if negb (starts_with TEMP_PREFIX (path_name_of p)) then cleanup_loop l removed d
    else match d !! p with
         | Some (LinkNode _) => (d, Err (ScratchStoreError "scratch_symlink"))
         | Some DirNode => cleanup_loop l (removed + 1) (delete p (foldr delete d (descendants d p).*1))
         | _ => cleanup_loop l (removed + 1) (delete p d)
         end
  end.

(** shared/scratch_store.py:213-224 _cleanup_incomplete *)
Definition cleanup_incomplete_in `{Listing} (d : disk) : disk * outcome Z :=
  cleanup_loop (if node_exists (d !! tmp) then scandir d tmp else []) 0 d.

(** shared/scratch_store.py:161-163 cleanup_incomplete *)
Definition cleanup_incomplete `{Listing} (d : disk) : disk * outcome Z :=
  let (d, r) := initialize d in match r with Err e => (d, Err e) | Ok _ => cleanup_incomplete_in d end.

(** shared/scratch_store.py:226-233 _check_available_quota *)
Definition check_available_quota (d : disk) (available incoming_bytes : Z) : outcome unit :=
  in_objects ← directory_size d objects;
  in_metadata ← directory_size d metadata_dir;
  _ ← raise_if (quota_bytes <? in_objects + in_metadata + incoming_bytes) (ScratchStoreError "quota_exceeded");
  raise_if (available <? incoming_bytes) (ScratchStoreError "disk_full").

(** ** Metadata *)

Definition storage_uri (sha256 : string) : string := "scratch://sha256/" +:+ sha256.

(** [list(v)]. *)
Definition py_list (v : value) : option (list value) :=
  match v with
  | VList l => Some l
  | VStr s => Some ((fun c => VStr (of_chars [c])) <$> chars s)
  | VDict d => Some ((fun kv => VStr kv.1) <$> d)
  | _ => None
  end.

(** [json.loads(path.read_text(encoding="utf-8"))], with the exception it raises. *)
Definition read_json (d : disk) (p : pypath) : outcome value :=
  match d !! p with
  | Some (FileNode content) =>
    match utf8_decode content with
    | None => Err (ScratchCrash "UnicodeDecodeError")
    | Some text => match loads_chars text with Some v => Ok v | None => Err (ScratchCrash "JSONDecodeError") end
    end
  | Some DirNode => Err (ScratchOSError "IsADirectoryError")
  | _ => Err (ScratchOSError "FileNotFoundError")
  end.

(** [data[k]]. *)
Definition item (v : value) (k : string) : outcome value :=
  match v with
  | VDict d => match dict_get d k with Some x => Ok x | None => Err (ScratchCrash "KeyError") end
  | _ => Err (ScratchCrash "TypeError")
  end.

Definition or_type_error {A} (o : option A) : outcome A := match o with Some a => Ok a | None => Err (ScratchCrash "TypeError") end.

(** The record of a further reference to known content. *)
Definition updated_record (existing : value) (provenance : mapping) : outcome mapping :=
  old ← item existing "provenance";
  l ← or_type_error (py_list old);
  count ← item existing "ref_count";
  n ← or_type_error (py_int count);
  match existing with
  | VDict d => Ok (dict_set (dict_set d "ref_count" (VInt (n + 1))) "provenance" (VList (l ++ [VDict provenance])))
  | _ => Err (ScratchCrash "TypeError")
  end.

Definition first_record (sha256 : string) (size : Z) (provenance : mapping) : mapping :=
  [("content_id", VStr ("content-" +:+ str_take 32 sha256)); ("sha256", VStr sha256); ("size_bytes", VInt size);
   ("storage_uri", VStr (storage_uri sha256)); ("ref_count", VInt 1); ("provenance", VList [VDict provenance])].

(** The record [_record_metadata] writes. *)
Definition next_record (d : disk) (p : pypath) (sha256 : string) (size : Z) (provenance : mapping) : outcome mapping :=
  if node_exists (d !! p)
  then _ ← refuse_symlink d p; existing ← read_json d p; updated_record existing provenance
  else Ok (first_record sha256 size provenance).

(** shared/scratch_store.py:165-203 _record_metadata *)
Definition record_metadata (env : put_env) (sha256 : string) (size : Z) (path : pypath) (provenance : mapping) (d : disk)
    : disk * outcome ScratchObject :=
  let p := metadata_at sha256 in
  match validate_sha256 sha256 with Err e => (d, Err e) | Ok _ =>
  let (d, made) := make_directory d (path_parent p) in
  match (_ ← made; data ← next_record d p sha256 size provenance; text ← or_type_error (dumps (VDict data)); Ok (data, text)) with
  | Err e => (d, Err e)
  | Ok (data, text) =>
    let temp := path_join tmp (TEMP_PREFIX +:+ pe_meta_name env +:+ ".json") in
    match pe_meta_write env, pe_meta_replace env with
    | Some (n, class), _ => (<[temp := FileNode (take n (utf8 text))]> d, Err (ScratchOSError class))
    | None, Some class => (<[temp := FileNode (utf8 text)]> d, Err (ScratchOSError class))
    | None, None =>
      (<[p := FileNode (utf8 text)]> (delete temp d),
       content_id ← item (VDict data) "content_id";
       count ← item (VDict data) "ref_count";
       n ← or_type_error (py_int count);
       prov ← item (VDict data) "provenance";
       l ← or_type_error (py_list prov);
       Ok {| so_content_id := py_str content_id; so_sha256 := sha256; so_size_bytes := size;
             so_storage_uri := storage_uri sha256; so_path := path; so_ref_count := n; so_provenance := l |})
    end
  end end.

(** [data.get(k)] is an integer, not a boolean, and at least [low]. *)
Definition counts_from (low : Z) (data : mapping) (k : string) : option Z :=
  match get_or_none data k with VInt n => if n <? low then None else Some n | _ => None end.

(** What the handler of [load_metadata] converts. *)
Definition read_caught (e : scratch_error E) : bool :=
  match e with ScratchOSError _ => true | ScratchCrash class => String.eqb class "JSONDecodeError" | _ => false end.

(** shared/scratch_store.py:129-159 load_metadata *)
Definition load_metadata (d : disk) (sha256 : string) : outcome ScratchObject :=
  p ← metadata_path sha256;
  _ ← refuse_symlink d p;
  data ← match read_json d p with
         | Ok v => Ok v
         | Err e => Err (if read_caught e then ScratchStoreError "invalid_metadata" else e)
         end;
  match data with
  | VDict data =>
    match is_text (get_or_none data "sha256") sha256, counts_from 0 data "size_bytes", counts_from 1 data "ref_count",
          get_or_none data "provenance" with
    | true, Some size, Some n, VList prov =>
      content_id ← item (VDict data) "content_id";
      uri ← item (VDict data) "storage_uri";
      Ok {| so_content_id := py_str content_id; so_sha256 := sha256; so_size_bytes := size; so_storage_uri := py_str uri;
            so_path := object_at sha256; so_ref_count := n; so_provenance := prov |}
    | _, _, _, _ => Err (ScratchStoreError "invalid_metadata")
    end
  | _ => Err (ScratchStoreError "invalid_metadata")
  end.

(** ** Writing *)

(** The loop over the chunks: [n] counts the writes, [written] is what the digest has seen. *)
Fixpoint write_chunks (env : put_env) (temp : pypath) (chunks : list (S -> S * result E chunk)) (n : nat) (written : bytes)
    (s : S) (d : disk) : S * disk * outcome bytes :=
  match chunks with
  | [] => (s, d, Ok written)
  | next :: chunks =>
    let (s, r) := next s in
    match r with
    | Err e => (s, d, Err (ChunkError e))
    | Ok COther => (s, d, Err (ScratchStoreError "invalid_chunk"))
    | Ok (CBytes b) =>
      if quota_bytes <? zlen written + zlen b then (s, d, Err (ScratchStoreError "quota_exceeded"))
      else match pe_write env n with
           | Some (k, class) => (s, <[temp := FileNode (written ++ take k b)]> d, Err (ScratchOSError class))
           | None => write_chunks env temp chunks (n + 1) (written ++ b)%list s (<[temp := FileNode (written ++ b)%list]> d)
           end
    end
  end.

(** Opening the temporary file, the loop, and the sync. *)
Definition write_temp (env : put_env) (temp : pypath) (chunks : list (S -> S * result E chunk)) (s : S) (d : disk)
    : S * disk * outcome bytes :=
  match pe_open env, d !! temp with
  | Some class, _ => (s, d, Err (ScratchOSError class))
  | None, Some _ => (s, d, Err (ScratchOSError "FileExistsError"))
  | None, None =>
    let '(s, d, r) := write_chunks env temp chunks 0 [] s (<[temp := FileNode []]> d) in
    (s, d, content ← r; _ ← (match pe_sync env with Some class => Err (ScratchOSError class) | None => Ok tt end); Ok content)
  end.

(** The checks on the digest and the size, and the second check of the quota. *)
Definition check_written (env : put_env) (expected_sha256 : option string) (expected_size : option Z) (content : bytes) (d : disk)
    : outcome unit :=
  _ ← raise_if (match expected_sha256 with Some h => negb (String.eqb (sha256_hex content) h) | None => false end)
        (ScratchStoreError "hash_mismatch");
  _ ← raise_if (match expected_size with Some n => negb (zlen content =? n) | None => false end)
        (ScratchStoreError "size_mismatch");
  check_available_quota d (pe_available env 1) (zlen content).

(** From the finished temporary file to the object under its name. *)
Definition place_object (env : put_env) (temp : pypath) (content : bytes) (d : disk) : disk * outcome pypath :=
  match object_path (sha256_hex content) with Err e => (d, Err e) | Ok final =>
  let (d, made) := make_directory d (path_parent final) in
  match made with Err e => (d, Err e) | Ok _ =>
  match refuse_symlink d final with Err e => (d, Err e) | Ok _ =>
  if node_exists (d !! final) then (delete temp d, Ok final)
  else match pe_replace env, d !! temp with
       | Some class, _ => (d, Err (ScratchOSError class))
       | None, None => (d, Err (ScratchOSError "FileNotFoundError"))
       | None, Some n => (<[final := n]> (delete temp d), Ok final)
       end
  end end end.

(** The part of [put_bytes] under the handler that removes the temporary file. *)
Definition put_body (env : put_env) (temp : pypath) (chunks : list (S -> S * result E chunk)) (provenance : mapping)
    (expected_sha256 : option string) (expected_size : option Z) (s : S) (d : disk) : S * disk * outcome ScratchObject :=
  let '(s, d, r) := write_temp env temp chunks s d in
  match (content ← r; _ ← check_written env expected_sha256 expected_size content d; Ok content) with
  | Err e => (s, d, Err e)
  | Ok content =>
    let (d, placed) := place_object env temp content d in
    match placed with
    | Err e => (s, d, Err e)
    | Ok final => let (d, r) := record_metadata env (sha256_hex content) (zlen content) final provenance d in (s, d, r)
    end
  end.

(** [temp_path.unlink(missing_ok=True)] and the [raise] after it. *)
Definition remove_temp {A} (env : put_env) (temp : pypath) (e : scratch_error E) (d : disk) : disk * outcome A :=
  match pe_unlink env, d !! temp with
  | Some class, Some _ => (d, Err (ScratchOSError class))
  | None, Some DirNode => (d, Err (ScratchOSError "IsADirectoryError"))
  | _, _ => (delete temp d, Err e)
  end.

(** shared/scratch_store.py:78-127 put_bytes *)
Definition put_bytes `{Listing} (env : put_env) (chunks : list (S -> S * result E chunk)) (provenance : mapping)
    (expected_sha256 : option string) (expected_size : option Z) (s : S) (d : disk) : S * disk * outcome ScratchObject :=
  let (d, cleaned) := cleanup_incomplete d in
  match (_ ← cleaned; check_available_quota d (pe_available env 0) 0) with
  | Err e => (s, d, Err e)
  | Ok _ =>
    let temp := path_join tmp (TEMP_PREFIX +:+ pe_name env) in
    let '(s, d, r) := put_body env temp chunks provenance expected_sha256 expected_size s d in
    match r with
    | Ok o => (s, d, Ok o)
    | Err e => let (d, r) := remove_temp env temp e d in (s, d, r)
    end
  end.

End rooted.

(** shared/scratch_store.py:44-69 __init__: the root as it is given; the root of the store is the path it resolves to. *)
Definition open_scratch `{PathOps} (root_text : string) (root_is_symlink : bool) (quota : value) (source : mapping)
    (mounts : list mount_fact) (holders : holder_facts) : outcome (string * Z) :=
  match quota with
  | VInt q =>
    _ ← raise_if (q <=? 0) (ScratchStoreError "invalid_quota");
    _ ← raise_if root_is_symlink (ScratchStoreError "scratch_symlink");
    resolved ← (match path_resolve root_text with Some p => Ok p | None => Err (ScratchOSError "OSError") end);
    _ ← raise_if (negb (sp_separate (evaluate_destination_separation source (path_text resolved) mounts holders)))
          (ScratchStoreError "scratch_not_separate");
    Ok (path_text resolved, q)
  | _ => Err (ScratchStoreError "invalid_quota")
  end.

End store.

(** ** Paths below other paths *)

Lemma in_parents_spec a p : in_parents a p = true <-> exists x r, p = PyPath (p_root a) (p_parts a ++ x :: r)%list.
Proof.
  unfold in_parents. rewrite !andb_true_iff, String.eqb_eq, bool_decide_eq_true, Nat.ltb_lt. split.
  - intros [[Hr Ht] Hl]. destruct p as [pr pp]; simpl in *. subst pr.
    destruct (drop (length (p_parts a)) pp) as [|x r] eqn:E.
    + apply (f_equal length) in E. rewrite length_drop in E. simpl in E. lia.
    + exists x, r. by rewrite <- Ht, <- E, take_drop.
  - intros (x & r & ->). simpl. rewrite take_app_length, length_app. simpl. repeat split; lia.
Qed.

Lemma in_parents_child a x : in_parents a (path_join a x) = true.
Proof. apply in_parents_spec. by exists x, []. Qed.

Lemma in_parents_trans a b c : in_parents a b = true -> in_parents b c = true -> in_parents a c = true.
Proof.
  rewrite !in_parents_spec. intros (x & r & ->) (y & t & ->). exists x, (r ++ y :: t)%list. simpl. by rewrite <- app_assoc.
Qed.

Lemma in_parents_siblings a x y p :
  in_parents (path_join a x) p = true -> in_parents (path_join a y) p = true -> x = y.
Proof.
  rewrite !in_parents_spec. simpl. intros (u & r & ->) (v & t & [= H]). rewrite <- !app_assoc in H. by injection (app_inv_head _ _ _ H).
Qed.

Lemma path_parent_inv p q : path_parent p = q -> p_parts q <> [] -> exists x, p = path_join q x.
Proof.
  destruct p as [r l]. unfold path_parent, path_join. simpl. intros <- Hne. simpl in *.
  destruct (exists_last (l := l)) as (l' & x & ->); [by intros ->|]. exists x. by rewrite List.removelast_last.
Qed.

Section soundness.
Context {E S : Type} `{Listing}.
Variable root : pypath.
Variable quota_bytes : Z.

Abbreviation outcome := (result (scratch_error E)).
Abbreviation mkdir := (@mkdir E).
Abbreviation load := (@load_metadata E root).

(** The part of the disk that holds objects and their records. *)
Definition in_store (p : pypath) : Prop := in_parents (objects root) p = true \/ in_parents (metadata_dir root) p = true.

Lemma in_store_tmp p : in_parents (tmp root) p = true -> ~ in_store p.
Proof. intros Ht [Ho|Ho]; by apply (in_parents_siblings _ _ _ _ Ht) in Ho. Qed.

Lemma tmp_child_out x : ~ in_store (path_join (tmp root) x).
Proof. apply in_store_tmp, in_parents_child. Qed.

Lemma object_in_store h : in_store (object_at root h).
Proof. left. eapply in_parents_trans; apply in_parents_child. Qed.

Lemma metadata_in_store h : in_store (metadata_at root h).
Proof. right. eapply in_parents_trans; apply in_parents_child. Qed.

Lemma object_at_inj h k : object_at root h = object_at root k -> h = k.
Proof.
  unfold object_at, bucket, objects, path_join. simpl. intros [= H1]. by apply app_inj_tail in H1 as [_ ->].
Qed.

Lemma append_json_inj h k : h +:+ ".json" = k +:+ ".json" -> h = k.
Proof. intros He%(f_equal chars). rewrite !chars_app in He. by apply app_inv_tail, chars_inj in He. Qed.

Lemma metadata_at_inj h k : metadata_at root h = metadata_at root k -> h = k.
Proof.
  unfold metadata_at, bucket, metadata_dir, path_join. simpl. intros [= H1].
  apply app_inj_tail in H1 as [_ H1]. by apply append_json_inj.
Qed.

Lemma object_not_metadata h k : object_at root h <> metadata_at root k.
Proof.
  intros He. assert (in_parents (objects root) (object_at root h) = true) as Ho
    by (eapply in_parents_trans; apply in_parents_child).
  assert (in_parents (metadata_dir root) (metadata_at root k) = true) as Hm
    by (eapply in_parents_trans; apply in_parents_child).
  rewrite He in Ho. by apply (in_parents_siblings _ _ _ _ Ho) in Hm.
Qed.

(** ** Quiet steps: nothing in the store changes but new directories above the files *)

Definition quiet (d d' : disk) : Prop :=
  forall p, in_store p -> d' !! p = d !! p \/
    (d !! p = None /\ d' !! p = Some DirNode /\ (length (p_parts p) <= length (p_parts root) + 2)%nat).

#[local] Instance quiet_preorder : PreOrder quiet.
Proof.
  split; [intros d p _; by left|]. intros a b c Hab Hbc p Hp.
  destruct (Hab p Hp) as [H1|(H1 & H2 & H3)], (Hbc p Hp) as [H4|(H4 & H5 & H6)].
  - left. by rewrite H4.
  - right. by rewrite <- H1.
  - right. by rewrite H4.
  - congruence.
Qed.

Lemma quiet_insert d p n : ~ in_store p -> quiet d (<[p := n]> d).
Proof. intros Hp q Hq. left. rewrite lookup_insert_ne; [done|]. by intros ->. Qed.

Lemma quiet_delete d p : ~ in_store p -> quiet d (delete p d).
Proof. intros Hp q Hq. left. rewrite lookup_delete_ne; [done|]. by intros ->. Qed.

Lemma quiet_mkdir d p : (length (p_parts p) <= length (p_parts root) + 2)%nat -> quiet d (mkdir d p).1.
Proof.
  intros Hl. unfold mkdir. destruct (d !! p) as [[| |[]]|] eqn:Ed; try by intros q _; left.
  intros q Hq. destruct (decide (q = p)) as [->|Hne].
  - right. cbn [fst]. by rewrite lookup_insert_eq.
  - left. cbn [fst]. by rewrite lookup_insert_ne by done.
Qed.

Lemma quiet_make_directory d p d' r :
  (length (p_parts p) <= length (p_parts root) + 2)%nat -> @make_directory E d p = (d', r) -> quiet d d'.
Proof.
  intros Hl. unfold make_directory. pose proof (quiet_mkdir d p Hl) as Hq. destruct (mkdir d p) as [d1 r1].
  by intros [= <- _].
Qed.

Lemma quiet_make_directories l d d' r :
  Forall (fun p => (length (p_parts p) <= length (p_parts root) + 2)%nat) l -> @make_directories E d l = (d', r) -> quiet d d'.
Proof.
  intros Hl. revert d. induction Hl as [|p l Hp Hl IH]; intros d; cbn [make_directories]; [by intros [= <- _]|].
  destruct (make_directory d p) as [d1 [u|e]] eqn:Ed; apply quiet_make_directory in Ed; [|done|by intros [= <- _]|done].
  intros Hr. etransitivity; [exact Ed|]. by eapply IH.
Qed.

Lemma quiet_initialize d d' r : @initialize E root d = (d', r) -> quiet d d'.
Proof.
  apply quiet_make_directories. unfold objects, tmp, metadata_dir, path_join. simpl.
  repeat (constructor; [simpl; rewrite ?length_app; simpl; lia|]). constructor.
Qed.

Lemma quiet_deletes l d : (forall p, p ∈ l -> ~ in_store p) -> quiet d (foldr delete d l).
Proof.
  induction l as [|p l IH]; intros Hl; [by intros q _; left|]. cbn [foldr].
  etransitivity; [apply IH; intros q Hq; apply Hl; by right|]. apply quiet_delete, Hl. left.
Qed.

Lemma quiet_cleanup_loop l removed d d' r :
  (forall p, p ∈ l -> in_parents (tmp root) p = true) -> @cleanup_loop E l removed d = (d', r) -> quiet d d'.
Proof.
  revert removed d. induction l as [|p l IH]; intros removed d Hl; cbn [cleanup_loop]; [by intros [= <- _]|].
  assert (Hp : in_parents (tmp root) p = true) by (apply Hl; left).
  assert (Hl' : forall q, q ∈ l -> in_parents (tmp root) q = true) by (intros q Hq; apply Hl; by right).
  destruct (negb _); [by apply IH|].
  destruct (d !! p) as [[b| |t]|] eqn:Ed; [| |by intros [= <- _]|]; intros Hr; apply IH in Hr; try done.
  - etransitivity; [|exact Hr]. by apply quiet_delete, in_store_tmp.
  - etransitivity; [|exact Hr]. etransitivity; [|by apply quiet_delete, in_store_tmp]. apply quiet_deletes.
    intros q Hq. apply in_store_tmp. eapply in_parents_trans; [exact Hp|].
    apply list_elem_of_fmap in Hq as ([q' n] & -> & Hq). unfold descendants in Hq. apply elem_of_filter_b in Hq as [_ Hq]. done.
  - etransitivity; [|exact Hr]. by apply quiet_delete, in_store_tmp.
Qed.

Lemma scandir_tmp d p : p ∈ scandir d (tmp root) -> in_parents (tmp root) p = true.
Proof.
  rewrite scandir_spec. intros (_ & Hp & _). apply path_parent_inv in Hp as [x ->]; [apply in_parents_child|].
  unfold tmp, path_join. simpl. by destruct (p_parts root).
Qed.

Lemma quiet_cleanup d d' r : @cleanup_incomplete E root _ d = (d', r) -> quiet d d'.
Proof.
  unfold cleanup_incomplete. destruct (initialize root d) as [d1 [u|e]] eqn:Ei; apply quiet_initialize in Ei; [|by intros [= <- _]].
  unfold cleanup_incomplete_in. intros Hr. etransitivity; [exact Ei|]. eapply quiet_cleanup_loop; [|exact Hr].
  intros p Hp. destruct (node_exists _); [by eapply scandir_tmp|by apply elem_of_nil in Hp].
Qed.

(** ** Sound stores *)

(** The record of some content. *)
Definition record_ok (h : string) (size : Z) (rec : mapping) (refs : list value) : Prop :=
  refs <> [] /\ get_or_none rec "content_id" = VStr ("content-" +:+ str_take 32 h) /\ get_or_none rec "sha256" = VStr h /\
  get_or_none rec "size_bytes" = VInt size /\ get_or_none rec "storage_uri" = VStr (storage_uri h) /\
  get_or_none rec "ref_count" = VInt (zlen refs) /\ get_or_none rec "provenance" = VList refs.

Definition stored (d : disk) (h : string) (content : bytes) : Prop := d !! object_at root h = Some (FileNode content).

(** The record of [h] is a file that holds [rec]. *)
Definition recorded (d : disk) (h : string) (size : Z) (rec : mapping) (refs : list value) : Prop :=
  wf_value (VDict rec) /\ record_ok h size rec refs /\
  exists text, dumps (VDict rec) = Some text /\ d !! metadata_at root h = Some (FileNode (utf8 text)).

Record sound (d : disk) : Prop := {
  sound_objects p b : in_parents (objects root) p = true -> d !! p = Some (FileNode b) -> p = object_at root (sha256_hex b);
  sound_no_directory h : d !! object_at root h <> Some DirNode;
  sound_records p b : in_parents (metadata_dir root) p = true -> d !! p = Some (FileNode b) ->
    exists h content rec refs, p = metadata_at root h /\ is_sha256_hex h = true /\ stored d h content /\
      recorded d h (zlen content) rec refs }.

Lemma quiet_file d d' p n : quiet d d' -> in_store p -> n <> DirNode -> d !! p = Some n -> d' !! p = Some n.
Proof. intros Hq Hp Hn Hd. destruct (Hq p Hp) as [->|(? & _)]; congruence. Qed.

Lemma quiet_file_inv d d' p n : quiet d d' -> in_store p -> n <> DirNode -> d' !! p = Some n -> d !! p = Some n.
Proof. intros Hq Hp Hn Hd. destruct (Hq p Hp) as [<-|(? & ? & _)]; congruence. Qed.

Lemma quiet_stored d d' h content : quiet d d' -> stored d h content -> stored d' h content.
Proof. intros Hq Hs. eapply quiet_file; [done|apply object_in_store|done|exact Hs]. Qed.

Lemma quiet_recorded d d' h size rec refs : quiet d d' -> recorded d h size rec refs -> recorded d' h size rec refs.
Proof.
  intros Hq (H1 & H2 & text & H3 & H4). split; [done|]. split; [done|]. exists text. split; [done|].
  eapply quiet_file; [done|apply metadata_in_store|done|exact H4].
Qed.

Lemma length_object_at h : length (p_parts (object_at root h)) = (length (p_parts root) + 3)%nat.
Proof. unfold object_at, bucket, objects, path_join. simpl. rewrite !length_app. simpl. lia. Qed.

Lemma quiet_sound d d' : quiet d d' -> sound d -> sound d'.
Proof.
  intros Hq [Ho Hn Hr]. split.
  - intros p b Hp Hd. apply Ho; [done|]. eapply quiet_file_inv; [done|by left|done|exact Hd].
  - intros h Hd. destruct (Hq _ (object_in_store h)) as [Heq|(_ & _ & Hl)]; [by apply (Hn h); rewrite <- Heq|].
    rewrite length_object_at in Hl. lia.
  - intros p b Hp Hd. destruct (Hr p b Hp) as (h & content & rec & refs & H1 & H2 & H3 & H4).
    + eapply quiet_file_inv; [done|by right|done|exact Hd].
    + exists h, content, rec, refs. split; [done|]. split; [done|]. split; [by eapply quiet_stored|by eapply quiet_recorded].
Qed.

(** What [load_metadata] sees. *)
Lemma load_congr d d' h :
  d' !! metadata_at root h = d !! metadata_at root h \/ (d !! metadata_at root h = None /\ d' !! metadata_at root h = Some DirNode) ->
  load d' h = load d h.
Proof.
  intros He. unfold load_metadata, metadata_path. destruct (validate_sha256 h) as [u|e]; [|done]. cbn [mbind result_bind].
  unfold refuse_symlink, read_json. destruct He as [-> | [-> ->]]; reflexivity.
Qed.

Lemma quiet_load d d' h : quiet d d' -> load d' h = load d h.
Proof.
  intros Hq. apply load_congr. destruct (Hq _ (metadata_in_store h)) as [->|(? & ? & _)]; auto.
Qed.

Lemma get_item rec k v : get_or_none rec k = v -> v <> VNone -> @item E (VDict rec) k = Ok v.
Proof. unfold get_or_none, item. destruct (dict_get rec k); simpl; congruence. Qed.

Lemma read_recorded d h size rec refs :
  recorded d h size rec refs -> @read_json E d (metadata_at root h) = Ok (canon (VDict rec)).
Proof.
  intros (Hwf & _ & text & Ht & Hd). unfold read_json. rewrite Hd, (utf8_decode_dumps _ _ Ht).
  change (loads_chars (chars text)) with (loads text). by rewrite (loads_dumps _ _ Hwf Ht).
Qed.

Lemma canon_record rec : canon (VDict rec) = VDict (sort_keys (prod_map id canon <$> rec)).
Proof. cbn [canon]. do 2 f_equal. apply map_ext. by intros []. Qed.

Lemma record_ok_canon h size rec refs :
  wf_value (VDict rec) -> record_ok h size rec refs -> record_ok h size (sort_keys (prod_map id canon <$> rec)) (canon <$> refs).
Proof.
  intros [Hnd _]%wf_dict_Forall (H0 & H1 & H2 & H3 & H4 & H5 & H6). unfold record_ok.
  rewrite !get_or_none_canon by done. rewrite H1, H2, H3, H4, H5, H6. unfold zlen. rewrite length_fmap.
  split; [by destruct refs|]. done.
Qed.

Definition object_of (h : string) (size : Z) (refs : list value) : ScratchObject :=
  {| so_content_id := "content-" +:+ str_take 32 h; so_sha256 := h; so_size_bytes := size; so_storage_uri := storage_uri h;
     so_path := object_at root h; so_ref_count := zlen refs; so_provenance := refs |}.

Lemma load_recorded d h size rec refs :
  is_sha256_hex h = true -> 0 <= size -> recorded d h size rec refs -> load d h = Ok (object_of h size (canon <$> refs)).
Proof.
  intros Hh Hz Hr. pose proof (read_recorded _ _ _ _ _ Hr) as Hj. pose proof Hr as (Hwf & Hok & ? & _ & Hd).
  apply (record_ok_canon _ _ _ _ Hwf) in Hok as (H0 & H1 & H2 & H3 & H4 & H5 & H6).
  unfold load_metadata, metadata_path, validate_sha256. rewrite Hh. cbn [negb raise_if mbind result_bind].
  unfold refuse_symlink. rewrite Hd. cbn [is_symlink raise_if mbind result_bind]. rewrite Hj, canon_record. cbn [mbind result_bind].
  rewrite H2. cbn [is_text]. rewrite String.eqb_refl. unfold counts_from. rewrite H3, H5, H6.
  assert (size <? 0 = false) as -> by lia. assert (zlen (canon <$> refs) <? 1 = false) as ->.
  { apply Z.ltb_ge. unfold zlen. destruct (canon <$> refs); [done|]. simpl. lia. }
  rewrite (get_item _ _ _ H1), (get_item _ _ _ H4) by done. done.
Qed.

(** ** Steps that keep a sound store sound, lose no object and change no record *)

Definition grows (d d' : disk) : Prop :=
  sound d -> sound d' /\ (forall h b, stored d h b -> stored d' h b) /\ forall h, load d' h = load d h.

#[local] Instance grows_preorder : PreOrder grows.
Proof.
  split; [by intros d Hs|]. intros a b c Hab Hbc Ha. destruct (Hab Ha) as (Hb & H1 & H2). destruct (Hbc Hb) as (Hc & H3 & H4).
  split; [done|]. split; [auto|]. intros h. by rewrite H4.
Qed.

Lemma quiet_grows d d' : quiet d d' -> grows d d'.
Proof.
  intros Hq Hs. split; [by eapply quiet_sound|]. split; [by intros h b; apply quiet_stored|]. intros h. by apply quiet_load.
Qed.

(** The chunks run to their end without an error. *)
Fixpoint gather (chunks : list (S -> S * result E chunk)) (s : S) : S * option bytes :=
  match chunks with
  | [] => (s, Some [])
  | next :: chunks =>
    match next s with
    | (s, Ok (CBytes b)) => let (s, rest) := gather chunks s in (s, app b <$> rest)
    | (s, _) => (s, None)
    end
  end.

Lemma write_chunks_spec env temp chunks n written s d s' d' r :
  in_parents (tmp root) temp = true -> d !! temp = Some (FileNode written) ->
  write_chunks quota_bytes env temp chunks n written s d = (s', d', r) ->
  quiet d d' /\ forall content, r = Ok content ->
    d' !! temp = Some (FileNode content) /\ exists more, gather chunks s = (s', Some more) /\ content = (written ++ more)%list.
Proof.
  intros Ht. assert (Hq : forall d b, quiet d (<[temp := FileNode b]> d)) by (intros; by apply quiet_insert, in_store_tmp).
  revert n written s d. induction chunks as [|next chunks IH]; intros n written s d Hd; cbn [write_chunks gather].
  - intros [= <- <- <-]. split; [by intros p _; left|]. intros content [= <-]. split; [done|]. exists []. by rewrite app_nil_r.
  - destruct (next s) as [s1 [[b|]|e]]; [|by intros [= <- <- <-]; split; [intros p _; left|]..].
    destruct (quota_bytes <? _); [by intros [= <- <- <-]; split; [intros p _; left|]|].
    destruct (pe_write env n) as [[k class]|]; [intros [= <- <- <-]; by split|].
    intros Hw. apply IH in Hw as [Hq' Hok]; [|by rewrite lookup_insert_eq].
    split; [etransitivity; [apply Hq|exact Hq']|]. intros content Hc. destruct (Hok content Hc) as (H1 & more & -> & ->).
    split; [done|]. exists (b ++ more)%list. by rewrite app_assoc.
Qed.

Lemma write_temp_spec env temp chunks s d s' d' r :
  in_parents (tmp root) temp = true -> write_temp quota_bytes env temp chunks s d = (s', d', r) ->
  quiet d d' /\ forall content, r = Ok content -> d' !! temp = Some (FileNode content) /\ gather chunks s = (s', Some content).
Proof.
  intros Ht. unfold write_temp. destruct (pe_open env) as [class|]; [by intros [= <- <- <-]; split; [intros p _; left|]|].
  destruct (d !! temp) eqn:Hd; [by intros [= <- <- <-]; split; [intros p _; left|]|].
  destruct (write_chunks _ _ _ _ _ _ _ _) as [[s1 d1] r1] eqn:Hw. apply write_chunks_spec in Hw as [Hq Hok]; [|done|apply lookup_insert_eq].
  intros [= <- <- <-]. split.
  - etransitivity; [by apply quiet_insert, in_store_tmp|exact Hq].
  - intros content (c & Hc & Hrest)%bind_ok. apply bind_ok in Hrest as (_ & _ & [= <-]).
    destruct (Hok c Hc) as (H1 & more & -> & ->). done.
Qed.

Lemma object_path_ok h : is_sha256_hex h = true -> @object_path E root h = Ok (object_at root h).
Proof. intros Hh. unfold object_path, validate_sha256. by rewrite Hh. Qed.

Lemma length_bucket dir h :
  (length (p_parts dir) <= length (p_parts root) + 1)%nat -> (length (p_parts (bucket dir h)) <= length (p_parts root) + 2)%nat.
Proof. unfold bucket, path_join. simpl. rewrite length_app. simpl. lia. Qed.

(** A new object under its name. *)
Lemma insert_object_grows d temp content :
  ~ in_store temp -> d !! object_at root (sha256_hex content) = None ->
  grows d (<[object_at root (sha256_hex content) := FileNode content]> (delete temp d)).
Proof.
  intros Ht Hnone. set (h := sha256_hex content) in *.
  assert (Hlook : forall p, in_store p -> p <> object_at root h ->
            <[object_at root h := FileNode content]> (delete temp d) !! p = d !! p).
  { intros p Hp Hne. rewrite lookup_insert_ne by done. apply lookup_delete_ne. by intros ->. }
  intros [Ho Hn Hr].
  assert (Hst : forall k b, stored d k b -> stored (<[object_at root h := FileNode content]> (delete temp d)) k b).
  { intros k b Hk. unfold stored in *. rewrite Hlook; [done|apply object_in_store|]. intros He. rewrite He in Hk. congruence. }
  assert (Hmeta : forall k, <[object_at root h := FileNode content]> (delete temp d) !! metadata_at root k = d !! metadata_at root k).
  { intros k. apply Hlook; [apply metadata_in_store|]. intros He. by apply (object_not_metadata h k). }
  split; [split|split; [done|]].
  - intros p b Hp. destruct (decide (p = object_at root h)) as [->|Hne].
    + rewrite lookup_insert_eq. by intros [= <-].
    + rewrite Hlook by (done || by left). by apply Ho.
  - intros k. destruct (decide (object_at root k = object_at root h)) as [->|Hne].
    + by rewrite lookup_insert_eq.
    + rewrite Hlook by (done || apply object_in_store). apply Hn.
  - intros p b Hp Hd. assert (p <> object_at root h) as Hne.
    { intros ->. assert (in_parents (objects root) (object_at root h) = true) as Hoh by (eapply in_parents_trans; apply in_parents_child).
      by apply (in_parents_siblings _ _ _ _ Hp) in Hoh. }
    rewrite Hlook in Hd by (done || by right). destruct (Hr p b Hp Hd) as (k & c & rec & refs & H1 & H2 & H3 & H4 & H5 & text & H6 & H7).
    exists k, c, rec, refs. split; [done|]. split; [done|]. split; [by apply Hst|]. split; [done|]. split; [done|].
    exists text. by rewrite Hmeta.
  - intros k. apply load_congr. left. apply Hmeta.
Qed.

Lemma place_object_spec env temp content d d' r :
  in_parents (tmp root) temp = true -> d !! temp = Some (FileNode content) -> sound d ->
  @place_object E root env temp content d = (d', r) ->
  grows d d' /\ forall final, r = Ok final -> final = object_at root (sha256_hex content) /\
    exists b, stored d' (sha256_hex content) b /\ (b = content \/ stored d (sha256_hex content) b).
Proof.
  intros Ht Hd Hs. unfold place_object. pose proof (in_store_tmp _ Ht) as Hout. set (h := sha256_hex content).
  rewrite object_path_ok by apply sha256_hex_ok. unfold object_at at 1. rewrite path_parent_join.
  destruct (make_directory d (bucket (objects root) h)) as [d1 r1] eqn:Em.
  apply quiet_make_directory in Em as Hq; [|apply length_bucket; unfold objects, path_join; simpl; rewrite length_app; simpl; lia].
  destruct r1 as [u|e]; [|intros [= <- <-]; split; [by apply quiet_grows|done]].
  assert (Hd1 : d1 !! temp = Some (FileNode content)).
  { unfold make_directory, mkdir in Em. destruct (d !! bucket (objects root) h) as [[| |[]]|] eqn:Eb; injection Em as <- _; try done.
    rewrite lookup_insert_ne; [done|]. intros He. congruence. }
  unfold refuse_symlink. destruct (is_symlink (d1 !! object_at root h)) eqn:El; cbn [raise_if];
    [intros [= <- <-]; split; [by apply quiet_grows|done]|].
  destruct (node_exists (d1 !! object_at root h)) eqn:Ex.
  - intros [= <- <-]. assert (quiet d (delete temp d1)) as Hq' by (etransitivity; [exact Hq|by apply quiet_delete]).
    split; [by apply quiet_grows|]. intros final [= <-]. split; [done|].
    destruct (quiet_sound _ _ Hq Hs) as [_ Hn _]. specialize (Hn h).
    destruct (d1 !! object_at root h) as [[b| |[]]|] eqn:Eo; try done.
    exists b. unfold stored. split.
    + rewrite lookup_delete_ne; [done|]. intros ->. by apply Hout, object_in_store.
    + right. eapply quiet_file_inv; [exact Hq|apply object_in_store|done|exact Eo].
  - destruct (pe_replace env); [intros [= <- <-]; split; [by apply quiet_grows|done]|]. rewrite Hd1.
    intros [= <- <-]. split.
    + etransitivity; [by apply quiet_grows|]. apply insert_object_grows; [done|].
      fold h. by destruct (d1 !! object_at root h) as [[| |[]]|].
    + intros final [= <-]. split; [done|]. exists content. split; [|by left]. unfold stored. by rewrite lookup_insert_eq.
Qed.

Lemma updated_record_ok h size rec refs prov :
  wf_value (VDict rec) -> wf_value (VDict prov) -> record_ok h size rec refs ->
  exists rec', @updated_record E (VDict rec) prov = Ok rec' /\ wf_value (VDict rec') /\ record_ok h size rec' (refs ++ [VDict prov]).
Proof.
  intros Hwf Hp (H0 & H1 & H2 & H3 & H4 & H5 & H6). eexists. split; [|split].
  - unfold updated_record. rewrite (get_item _ _ _ H6), (get_item _ _ _ H5) by done. reflexivity.
  - assert (Hl : Forall wf_value refs).
    { apply wf_list_Forall. rewrite <- H6. by apply wf_get. }
    apply wf_dict_set; [by apply wf_dict_set|]. apply wf_list_Forall, Forall_app. split; [done|]. by constructor; [|constructor].
  - unfold record_ok, get_or_none in *. rewrite !dict_get_set. cbn [String.eqb Ascii.eqb Bool.eqb].
    split; [by destruct refs|]. repeat (split; [done|]). split; [|done].
    cbn. f_equal. unfold zlen. rewrite length_app. simpl. lia.
Qed.

Lemma first_record_ok h size prov :
  wf_value (VDict prov) -> wf_value (VDict (first_record h size prov)) /\ record_ok h size (first_record h size prov) [VDict prov].
Proof.
  intros Hp. split; [|by unfold record_ok]. apply wf_dict_Forall. split.
  - apply (bool_decide_unpack _). by vm_compute.
  - unfold first_record. rewrite !Forall_cons. cbn [snd]. assert (wf_value (VList [VDict prov])) as Hl; [|done].
    apply wf_list_Forall. by constructor; [|constructor].
Qed.

Definition old_references (d : disk) (h : string) : list value :=
  match load d h with Ok o => so_provenance o | Err _ => [] end.

(** The next record of stored content. *)
Lemma next_record_ok d h content prov rec' :
  sound d -> is_sha256_hex h = true -> stored d h content -> wf_value (VDict prov) ->
  @next_record E d (metadata_at root h) h (zlen content) prov = Ok rec' ->
  wf_value (VDict rec') /\ record_ok h (zlen content) rec' (old_references d h ++ [VDict prov]).
Proof.
  intros Hs Hh Hst Hp. unfold next_record. destruct (node_exists (d !! metadata_at root h)) eqn:Ex.
  - unfold refuse_symlink. destruct (d !! metadata_at root h) as [[b| |[]]|] eqn:Ed; try done.
    + cbn [is_symlink raise_if mbind result_bind].
      destruct (sound_records d Hs (metadata_at root h) b) as (k & c & rec & refs & Hk & _ & Hc & Hr);
        [eapply in_parents_trans; apply in_parents_child|done|].
      apply metadata_at_inj in Hk as <-. unfold stored in Hst, Hc. rewrite Hst in Hc. injection Hc as <-.
      rewrite (read_recorded _ _ _ _ _ Hr), canon_record. cbn [mbind result_bind].
      unfold old_references. rewrite (load_recorded _ _ (zlen content) _ _ Hh ltac:(unfold zlen; lia) Hr). cbn [object_of so_provenance].
      destruct Hr as (Hwf & Hok & _).
      destruct (updated_record_ok h (zlen content) (sort_keys (prod_map id canon <$> rec)) (canon <$> refs) prov)
        as (rec2 & -> & Hwf2 & Hok2); [by rewrite <- canon_record; apply wf_canon|done|by apply record_ok_canon|].
      by intros [= <-].
    + unfold read_json. rewrite Ed. by cbn [is_symlink raise_if mbind result_bind].
  - intros [= <-]. assert (old_references d h = []) as ->.
    { unfold old_references, load_metadata, metadata_path, validate_sha256. rewrite Hh. cbn [negb raise_if mbind result_bind].
      unfold refuse_symlink, read_json. by destruct (d !! metadata_at root h) as [[| |[]]|]. }
    by apply first_record_ok.
Qed.

(** A record under its name. *)
Lemma insert_record_sound d temp h content rec refs text :
  ~ in_store temp -> sound d -> is_sha256_hex h = true -> stored d h content ->
  wf_value (VDict rec) -> record_ok h (zlen content) rec refs -> dumps (VDict rec) = Some text ->
  let d' := <[metadata_at root h := FileNode (utf8 text)]> (delete temp d) in
  sound d' /\ (forall k b, stored d k b -> stored d' k b) /\ (forall k, k <> h -> load d' k = load d k) /\
  load d' h = Ok (object_of h (zlen content) (canon <$> refs)).
Proof.
  intros Ht [Ho Hn Hr] Hh Hst Hwf Hok Htext d'.
  assert (Hlook : forall p, in_store p -> p <> metadata_at root h -> d' !! p = d !! p).
  { intros p Hp Hne. unfold d'. rewrite lookup_insert_ne by done. apply lookup_delete_ne. by intros ->. }
  assert (Hobj : forall k, d' !! object_at root k = d !! object_at root k).
  { intros k. apply Hlook; [apply object_in_store|apply object_not_metadata]. }
  assert (Hst' : forall k b, stored d k b -> stored d' k b) by (intros k b Hk; unfold stored; by rewrite Hobj).
  assert (Hrec : recorded d' h (zlen content) rec refs).
  { split; [done|]. split; [done|]. exists text. split; [done|]. unfold d'. by rewrite lookup_insert_eq. }
  split; [split|split; [done|split]].
  - intros p b Hp. rewrite Hlook; [by apply Ho|by left|]. intros ->.
    assert (in_parents (metadata_dir root) (metadata_at root h) = true) as Hm by (eapply in_parents_trans; apply in_parents_child).
    by apply (in_parents_siblings _ _ _ _ Hp) in Hm.
  - intros k. rewrite Hobj. apply Hn.
  - intros p b Hp Hd. destruct (decide (p = metadata_at root h)) as [->|Hne]; [by exists h, content, rec, refs; auto|].
    rewrite Hlook in Hd by (done || by right). destruct (Hr p b Hp Hd) as (k & c & rec2 & refs2 & -> & H2 & H3 & H4 & H5 & text2 & H6 & H7).
    exists k, c, rec2, refs2. split; [done|]. split; [done|]. split; [by apply Hst'|]. split; [done|]. split; [done|].
    exists text2. split; [done|]. rewrite Hlook; [done|apply metadata_in_store|done].
  - intros k Hne. apply load_congr. left. apply Hlook; [apply metadata_in_store|]. by intros ?%metadata_at_inj.
  - by eapply load_recorded; [|unfold zlen; lia|].
Qed.

Lemma record_metadata_spec env h content prov d d' r :
  sound d -> is_sha256_hex h = true -> stored d h content -> wf_value (VDict prov) ->
  @record_metadata E root env h (zlen content) (object_at root h) prov d = (d', r) ->
  match r with
  | Err _ => grows d d'
  | Ok o => sound d' /\ (forall k b, stored d k b -> stored d' k b) /\ (forall k, k <> h -> load d' k = load d k) /\
      let refs := (old_references d h ++ [VDict prov])%list in
      o = object_of h (zlen content) refs /\ load d' h = Ok (object_of h (zlen content) (canon <$> refs))
  end.
Proof.
  intros Hs Hh Hst Hp. unfold record_metadata, validate_sha256. rewrite Hh. cbn [negb raise_if].
  unfold metadata_at at 1. rewrite path_parent_join.
  destruct (make_directory d (bucket (metadata_dir root) h)) as [d1 r1] eqn:Em.
  apply quiet_make_directory in Em as Hq; [|apply length_bucket; unfold metadata_dir, path_join; simpl; rewrite length_app; simpl; lia].
  destruct r1 as [u|e]; [|intros [= <- <-]; by apply quiet_grows]. cbn [mbind result_bind].
  destruct (next_record d1 _ h _ prov) as [rec|e] eqn:En; [|intros [= <- <-]; by apply quiet_grows]. cbn [mbind result_bind].
  destruct (dumps (VDict rec)) as [text|] eqn:Et; [|intros [= <- <-]; by apply quiet_grows]. cbn [or_type_error mbind result_bind].
  assert (Hs1 : sound d1) by by eapply quiet_sound. assert (Hst1 : stored d1 h content) by by eapply quiet_stored.
  apply (next_record_ok _ _ _ _ _ Hs1 Hh Hst1 Hp) in En as [Hwf Hok].
  assert (old_references d1 h = old_references d h) as Hold by (unfold old_references; by rewrite (quiet_load _ _ _ Hq)).
  rewrite Hold in Hok.
  assert (Hout : forall x, ~ in_store (path_join (tmp root) x)) by apply tmp_child_out.
  destruct (pe_meta_write env) as [[n class]|].
  { intros [= <- <-]. apply quiet_grows. etransitivity; [exact Hq|]. apply quiet_insert, Hout. }
  destruct (pe_meta_replace env) as [class|].
  { intros [= <- <-]. apply quiet_grows. etransitivity; [exact Hq|]. apply quiet_insert, Hout. }
  pose proof Hok as (_ & H1 & _ & _ & _ & H5 & H6).
  rewrite (get_item _ _ _ H1), (get_item _ _ _ H5), (get_item _ _ _ H6) by done.
  intros [= <- <-]. destruct (insert_record_sound d1 (path_join (tmp root) (TEMP_PREFIX +:+ pe_meta_name env +:+ ".json")) h content rec
    _ text (Hout _) Hs1 Hh Hst1 Hwf Hok Et) as (G1 & G2 & G3 & G4).
  split; [exact G1|]. split; [intros k b Hk; apply G2; by eapply quiet_stored|]. split; [|by split].
  intros k Hk. rewrite G3 by done. by apply quiet_load.
Qed.

Lemma remove_temp_quiet {A} env temp e d d' (r : outcome A) :
  ~ in_store temp -> remove_temp env temp e d = (d', r) -> quiet d d' /\ is_ok r = false.
Proof.
  intros Ht. unfold remove_temp. assert (quiet d d) as Hrefl by reflexivity. pose proof (quiet_delete d temp Ht).
  destruct (pe_unlink env), (d !! temp) as [[]|]; by intros [= <- <-].
Qed.

Lemma check_written_ok env h n content d u :
  @check_written E root quota_bytes env h n content d = Ok u ->
  (forall x, h = Some x -> sha256_hex content = x) /\ (forall z, n = Some z -> zlen content = z) /\
  check_available_quota root quota_bytes d (pe_available env 1) (zlen content) = @Ok (scratch_error E) _ u.
Proof.
  unfold check_written. intros (u1 & H1 & (u2 & H2 & H3)%bind_ok)%bind_ok. apply raise_if_ok in H1, H2. split; [|split; [|exact H3]].
  - intros x ->. by apply negb_false_iff, String.eqb_eq in H1.
  - intros z ->. by apply negb_false_iff, Z.eqb_eq in H2.
Qed.

Lemma stored_quiet_inv d d' h b : quiet d d' -> stored d' h b -> stored d h b.
Proof. intros Hq Hs. eapply quiet_file_inv; [exact Hq|apply object_in_store|done|exact Hs]. Qed.

(** What a put leaves and returns, from the disk after the clean-up. *)
Definition put_result (chunks : list (S -> S * result E chunk)) (prov : mapping) (expected_sha256 : option string)
    (expected_size : option Z) (s : S) (d : disk) (s' : S) (d' : disk) (r : outcome ScratchObject) : Prop :=
  match r with
  | Err _ => grows d d'
  | Ok o => exists content, gather chunks s = (s', Some content) /\
      (forall h, expected_sha256 = Some h -> sha256_hex content = h) /\ (forall z, expected_size = Some z -> zlen content = z) /\
      let h := sha256_hex content in
      sound d' /\ (forall k b, stored d k b -> stored d' k b) /\ (forall k, k <> h -> load d' k = load d k) /\ stored d' h content /\
      let refs := (old_references d h ++ [VDict prov])%list in
      o = object_of h (zlen content) refs /\ load d' h = Ok (object_of h (zlen content) (canon <$> refs))
  end.

Lemma put_body_spec env temp chunks prov expected_sha256 expected_size s d s' d' r :
  in_parents (tmp root) temp = true -> sound d -> wf_value (VDict prov) ->
  (forall content b, (gather chunks s).2 = Some content -> stored d (sha256_hex content) b -> b = content) ->
  put_body root quota_bytes env temp chunks prov expected_sha256 expected_size s d = (s', d', r) ->
  put_result chunks prov expected_sha256 expected_size s d s' d' r.
Proof.
  intros Ht Hs Hp Hcoll. unfold put_body.
  destruct (write_temp quota_bytes env temp chunks s d) as [[s1 d1] r1] eqn:Ew. apply write_temp_spec in Ew as [Hq Hok]; [|done].
  destruct r1 as [content|e]; [|intros [= <- <- <-]; by apply quiet_grows]. cbn [mbind result_bind].
  destruct (Hok content eq_refl) as [Hd1 Hg]. clear Hok. rewrite Hg in Hcoll.
  destruct (check_written _ _ _ _ _ _ _) as [u|e] eqn:Ec; [|intros [= <- <- <-]; by apply quiet_grows].
  apply check_written_ok in Ec as (Hh & Hz & _). cbn [mbind result_bind].
  assert (Hs1 : sound d1) by by eapply quiet_sound.
  destruct (place_object root env temp content d1) as [d2 r2] eqn:Ep. apply place_object_spec in Ep as [Hg2 Hok2]; [|done..].
  assert (grows d d2) as Hg02 by (etransitivity; [by apply quiet_grows|exact Hg2]).
  destruct r2 as [final|e]; [|by intros [= <- <- <-]].
  destruct (Hok2 final eq_refl) as (-> & b & Hb & Hbc). clear Hok2.
  assert (b = content) as ->.
  { destruct Hbc as [->|Hbc]; [done|]. apply (Hcoll content b eq_refl). by eapply stored_quiet_inv. }
  destruct (Hg02 Hs) as (Hs2 & Hst2 & Hl2).
  destruct (record_metadata root env _ _ _ _ d2) as [d3 r3] eqn:Er.
  apply record_metadata_spec in Er; [|done|apply sha256_hex_ok|done|done]. intros [= <- <- <-].
  destruct r3 as [o|e]; cbn [put_result].
  - exists content. split; [done|]. split; [done|]. split; [done|]. destruct Er as (G1 & G2 & G3 & G4 & G5).
    assert (old_references d2 (sha256_hex content) = old_references d (sha256_hex content)) as <- by (unfold old_references; by rewrite Hl2).
    split; [done|]. split; [auto|]. split; [intros k Hk; by rewrite G3, Hl2|]. split; [auto|]. by split.
  - by etransitivity.
Qed.

Lemma put_bytes_spec env chunks prov expected_sha256 expected_size s d s' d' r :
  sound d -> wf_value (VDict prov) ->
  (forall content b, (gather chunks s).2 = Some content -> stored d (sha256_hex content) b -> b = content) ->
  put_bytes root quota_bytes env chunks prov expected_sha256 expected_size s d = (s', d', r) ->
  put_result chunks prov expected_sha256 expected_size s d s' d' r.
Proof.
  intros Hs Hp Hcoll. unfold put_bytes. destruct (cleanup_incomplete root d) as [d1 r1] eqn:Ec. apply quiet_cleanup in Ec as Hq.
  destruct (quiet_grows _ _ Hq Hs) as (Hs1 & Hst1 & Hl1).
  destruct (_ ← r1; _) as [u|e]; [|intros [= <- <- <-]; by apply quiet_grows].
  set (temp := path_join (tmp root) (TEMP_PREFIX +:+ pe_name env)).
  destruct (put_body _ _ _ _ _ _ _ _ _ _) as [[s2 d2] r2] eqn:Eb. apply put_body_spec in Eb; [|apply in_parents_child|done..|].
  2: { intros content b Hg Hb. apply (Hcoll content b Hg). by eapply stored_quiet_inv. }
  destruct r2 as [o|e].
  - intros [= <- <- <-]. destruct Eb as (content & Hg & Hh & Hz & G1 & G2 & G3 & G4 & G5 & G6).
    assert (old_references d1 (sha256_hex content) = old_references d (sha256_hex content)) as Hold by (unfold old_references; by rewrite Hl1).
    rewrite Hold in G5, G6. exists content. split; [done|]. split; [done|]. split; [done|].
    split; [done|]. split; [auto|]. split; [intros k Hk; by rewrite G3, Hl1|]. by split.
  - destruct (remove_temp env temp e d2) as [d3 r3] eqn:Er. apply remove_temp_quiet in Er as [Hq3 Hno]; [|apply tmp_child_out].
    intros [= <- <- <-]. destruct r3 as [o|e']; [done|]. cbn [put_result] in *.
    etransitivity; [by apply quiet_grows|]. etransitivity; [exact Eb|]. by apply quiet_grows.
Qed.

(** ** What a put may add *)

(** No object is new. *)
Definition no_object_added (d d' : disk) : Prop := forall h b, stored d' h b -> stored d h b.

#[local] Instance no_object_added_preorder : PreOrder no_object_added.
Proof. split; [by intros d h b|]. intros a b c H1 H2 h x Hx. by apply H1, H2. Qed.

Lemma quiet_no_object d d' : quiet d d' -> no_object_added d d'.
Proof. intros Hq h b. by apply stored_quiet_inv. Qed.

Lemma record_metadata_no_object env h size path prov d d' r :
  @record_metadata E root env h size path prov d = (d', r) -> no_object_added d d'.
Proof.
  unfold record_metadata. destruct (validate_sha256 h); [|by intros [= <- _]]. unfold metadata_at at 1. rewrite path_parent_join.
  destruct (make_directory d (bucket (metadata_dir root) h)) as [d1 r1] eqn:Em.
  apply quiet_make_directory in Em as Hq; [|apply length_bucket; unfold metadata_dir, path_join; simpl; rewrite length_app; simpl; lia]. apply quiet_no_object in Hq.
  destruct (made ← r1; _) as [[rec text]|e]; [|by intros [= <- _]]. pose proof (tmp_child_out) as Hout.
  destruct (pe_meta_write env) as [[n class]|]; [|destruct (pe_meta_replace env) as [class|]]; intros [= <- _]; (etransitivity; [exact Hq|]).
  - apply quiet_no_object, quiet_insert, Hout.
  - apply quiet_no_object, quiet_insert, Hout.
  - etransitivity; [apply quiet_no_object, quiet_delete, Hout|]. intros k b. unfold stored.
    rewrite lookup_insert_ne; [done|]. intros He. by apply (object_not_metadata k h).
Qed.

Lemma place_object_adds env temp content d d' r :
  in_parents (tmp root) temp = true -> d !! temp = Some (FileNode content) ->
  @place_object E root env temp content d = (d', r) ->
  forall h b, stored d' h b -> stored d h b \/ b = content /\ h = sha256_hex content.
Proof.
  intros Ht Hd. unfold place_object. pose proof (in_store_tmp _ Ht) as Hout. set (g := sha256_hex content).
  rewrite object_path_ok by apply sha256_hex_ok. unfold object_at at 1. rewrite path_parent_join.
  destruct (make_directory d (bucket (objects root) g)) as [d1 r1] eqn:Em.
  apply quiet_make_directory in Em as Hq; [|apply length_bucket; unfold objects, path_join; simpl; rewrite length_app; simpl; lia]. apply quiet_no_object in Hq.
  assert (Hd1 : d1 !! temp = Some (FileNode content)).
  { unfold make_directory, mkdir in Em. destruct (d !! bucket (objects root) g) as [[| |[]]|] eqn:Eb; injection Em as <- _; try done.
    rewrite lookup_insert_ne; [done|]. intros He. congruence. }
  destruct r1 as [u|e]; [|intros [= <- _] h b Hb; left; by apply Hq].
  destruct (refuse_symlink d1 _) as [u'|e]; [|intros [= <- _] h b Hb; left; by apply Hq].
  assert (Hdel : no_object_added d (delete temp d1)) by (etransitivity; [exact Hq|by apply quiet_no_object, quiet_delete]).
  destruct (node_exists _); [intros [= <- _] h b Hb; left; by apply Hdel|].
  destruct (pe_replace env); [intros [= <- _] h b Hb; left; by apply Hq|]. rewrite Hd1.
  intros [= <- _] h b. unfold stored at 1. destruct (decide (h = g)) as [->|Hne].
  - rewrite lookup_insert_eq. intros [= <-]. by right.
  - rewrite lookup_insert_ne; [|by intros ?%object_at_inj]. intros Hb. left. by apply Hdel.
Qed.

Lemma put_bytes_adds env chunks prov expected_sha256 expected_size s d s' d' r h b :
  put_bytes root quota_bytes env chunks prov expected_sha256 expected_size s d = (s', d', r) ->
  stored d' h b -> stored d h b \/ (gather chunks s).2 = Some b /\ h = sha256_hex b.
Proof.
  unfold put_bytes. destruct (cleanup_incomplete root d) as [d1 r1] eqn:Ec. apply quiet_cleanup in Ec as Hq. apply quiet_no_object in Hq.
  destruct (_ ← r1; _) as [u|e]; [|intros [= <- <- <-] Hb; left; by apply Hq].
  set (temp := path_join (tmp root) (TEMP_PREFIX +:+ pe_name env)).
  destruct (put_body _ _ _ _ _ _ _ _ _ _) as [[s2 d2] r2] eqn:Eb.
  assert (Hbody : stored d2 h b -> stored d1 h b \/ (gather chunks s).2 = Some b /\ h = sha256_hex b).
  { revert Eb. unfold put_body. destruct (write_temp quota_bytes env temp chunks s d1) as [[s3 d3] r3] eqn:Ew.
    apply write_temp_spec in Ew as [Hq3 Hok]; [|apply in_parents_child]. apply quiet_no_object in Hq3.
    destruct (_ ← r3; _) as [content|e] eqn:Er; [|intros [= <- <- <-] Hb; left; by apply Hq3].
    apply bind_ok in Er as (c & -> & (u1 & _ & [= ->])%bind_ok). destruct (Hok content eq_refl) as [Hd3 Hg].
    destruct (place_object root env temp content d3) as [d4 r4] eqn:Ep.
    pose proof (place_object_adds _ _ _ _ _ _ (in_parents_child _ _) Hd3 Ep) as Hadd.
    assert (Hfour : stored d4 h b -> stored d1 h b \/ (gather chunks s).2 = Some b /\ h = sha256_hex b).
    { intros [Hb|[-> ->]]%Hadd; [left; by apply Hq3|right; by rewrite Hg]. }
    destruct r4 as [final|e]; [|by intros [= <- <- <-]].
    destruct (record_metadata root env _ _ _ _ d4) as [d5 r5] eqn:Em. apply record_metadata_no_object in Em.
    intros [= <- <- <-] Hb. by apply Hfour, Em. }
  assert (Hall : stored d2 h b -> stored d h b \/ (gather chunks s).2 = Some b /\ h = sha256_hex b).
  { intros [Hb|?]%Hbody; [left; by apply Hq|by right]. }
  destruct r2 as [o|e]; [by intros [= <- <- <-]|].
  destruct (remove_temp env temp e d2) as [d3 r3] eqn:Er. apply remove_temp_quiet in Er as [Hq3 _]; [|apply tmp_child_out]. apply quiet_no_object in Hq3.
  intros [= <- <- <-] Hb. by apply Hall, Hq3.
Qed.

(** C26. A put keeps the store sound under faults.  Suppose any of these calls fails: opening the
    temporary file, writing or syncing it, renaming it, writing the new record, renaming that, or
    removing the temporary file.  Every object still holds the content its name is the digest
    of, every record still describes a stored object and counts its references, no object is lost
    or altered, and the only object that may be new is that of the chunks.  A put that fails
    changes no record; when it failed at the record, the new object stays without one.  A put that
    returns has stored exactly the bytes its chunks gave, which match what was expected, has added
    its provenance to the record of that content and nothing to the others, and loading the record
    gives what was returned. *)
Theorem put_bytes_atomic env chunks prov expected_sha256 expected_size s d s' d' r :
  sound d -> wf_value (VDict prov) ->
  (forall content b, (gather chunks s).2 = Some content -> stored d (sha256_hex content) b -> b = content) ->
  put_bytes root quota_bytes env chunks prov expected_sha256 expected_size s d = (s', d', r) ->
  sound d' /\ (forall h b, stored d h b -> stored d' h b) /\
  (forall h b, stored d' h b -> stored d h b \/ (gather chunks s).2 = Some b /\ h = sha256_hex b) /\
  match r with
  | Err _ => forall h, load d' h = load d h
  | Ok o => exists content, gather chunks s = (s', Some content) /\
      (forall h, expected_sha256 = Some h -> sha256_hex content = h) /\ (forall z, expected_size = Some z -> zlen content = z) /\
      let h := sha256_hex content in
      stored d' h content /\ (forall k, k <> h -> load d' k = load d k) /\
      let refs := (old_references d h ++ [VDict prov])%list in
      o = object_of h (zlen content) refs /\ load d' h = Ok (object_of h (zlen content) (canon <$> refs))
  end.
Proof.
  intros Hs Hp Hcoll Hput. pose proof (put_bytes_spec _ _ _ _ _ _ _ _ _ _ Hs Hp Hcoll Hput) as Hr.
  pose proof (fun h b => put_bytes_adds _ _ _ _ _ _ _ _ _ _ h b Hput) as Hadd.
  destruct r as [o|e]; [|destruct (Hr Hs) as (? & ? & ?); by split_and!].
  destruct Hr as (content & Hg & Hh & Hz & G1 & G2 & G3 & G4 & G5). split; [done|]. split; [done|]. split; [done|]. by exists content.
Qed.

End soundness.

(** ** Concrete stores *)

#[export] Instance map_listing : Listing.
Proof.
  refine {| scandir := fun d p => filter_b (fun q => bool_decide (path_parent q = p) && negb (bool_decide (q = p))) (map_to_list d).*1 |}.
  intros d p q. rewrite elem_of_filter_b, andb_true_iff, negb_true_iff, bool_decide_eq_true, bool_decide_eq_false.
  rewrite list_elem_of_fmap. split.
  - intros [([q' n] & -> & Hq) [H1 H2]]. apply elem_of_map_to_list in Hq. by eauto.
  - intros ([n Hn] & H1 & H2). split; [|done]. exists (q, n). by rewrite elem_of_map_to_list.
Defined.

Definition ex_root : pypath := PyPath "/" ["s"].
Definition ex_env (name : string) : put_env :=
  {| pe_name := name; pe_meta_name := name; pe_available := fun _ => 1000; pe_open := None; pe_write := fun _ => None;
     pe_sync := None; pe_replace := None; pe_meta_write := None; pe_meta_replace := None; pe_unlink := None |}.
Definition ex_chunk (b : bytes) : unit -> unit * result Empty_set chunk := fun s => (s, Ok (CBytes b)).
Definition ex_put (quota : Z) (name : string) (b : bytes) (d : disk) : unit * disk * result (scratch_error Empty_set) ScratchObject :=
  put_bytes ex_root quota (ex_env name) [ex_chunk b] [("from", VStr name)] None None tt d.

Definition ex_stored : disk := (ex_put 10000 "one" [1; 2; 3] ∅).1.2.

Lemma put_bytes_atomic_witness :
  sound ex_root ex_stored /\ is_ok (@load_metadata Empty_set ex_root ex_stored (sha256_hex [1; 2; 3])) = true.
Proof.
  destruct (ex_put 10000 "one" [1; 2; 3] ∅) as [[s' d'] r] eqn:Hput.
  assert (is_ok r = true) as Hok by (rewrite <- (f_equal snd Hput : _ = r); by vm_compute).
  unfold ex_stored. rewrite Hput. cbn [fst snd].
  destruct (put_bytes_atomic (E := Empty_set) ex_root 10000 (ex_env "one") [ex_chunk [1; 2; 3]] [("from", VStr "one")] None None tt ∅ s' d' r)
    as (Hs & _ & _ & Hr).
  - split; [intros p b _|intros h|intros p b _]; by rewrite lookup_empty.
  - apply wf_dict_Forall. split; [apply (bool_decide_unpack _); by vm_compute|by repeat constructor].
  - intros content b _. unfold stored. by rewrite lookup_empty.
  - exact Hput.
  - split; [exact Hs|]. destruct r as [o|e]; [|done]. destruct Hr as (content & Hg & _ & _ & Hr).
    cbn [gather ex_chunk fmap option_fmap option_map app] in Hg. injection Hg as _ <-.
    destruct Hr as (_ & _ & _ & Hl). by rewrite Hl.
Defined.

(** A put that fails on its record leaves the object, and no record. *)
Example object_without_record :
  let env := {| pe_name := "one"; pe_meta_name := "one"; pe_available := fun _ => 1000; pe_open := None; pe_write := fun _ => None;
                pe_sync := None; pe_replace := None; pe_meta_write := Some (0%nat, "OSError"); pe_meta_replace := None; pe_unlink := None |} in
  let '(_, d, r) := put_bytes (E := Empty_set) ex_root 1000 env [ex_chunk [1]] [] None None tt ∅ in
  r = Err (ScratchOSError "OSError") /\ d !! object_at ex_root (sha256_hex [1]) = Some (FileNode [1]) /\
  d !! metadata_at ex_root (sha256_hex [1]) = None.
Proof. by vm_compute. Qed.

(** Content that is already stored counts once more against the quota, although it needs no space. *)
Example duplicate_refused_at_quota :
  is_ok (ex_put 300 "one" (replicate 10 7) ∅).2 = true /\
  is_ok (ex_put 300 "two" (replicate 10 7) (ex_put 300 "one" (replicate 10 7) ∅).1.2).2 = false /\
  is_ok (ex_put 320 "two" (replicate 10 7) (ex_put 320 "one" (replicate 10 7) ∅).1.2).2 = true.
Proof. by vm_compute. Qed.

(** A second writer's clean-up removes the temporary file of the first, whose rename then fails. *)
Definition ex_writing : disk :=
  (write_temp (E := Empty_set) 1000 (ex_env "one") (path_join (tmp ex_root) (TEMP_PREFIX +:+ "one")) [ex_chunk [1]] tt
     (cleanup_incomplete (E := Empty_set) ex_root ∅).1).1.2.
Example second_writer_removes_the_first :
  (place_object (E := Empty_set) ex_root (ex_env "one") (path_join (tmp ex_root) (TEMP_PREFIX +:+ "one")) [1]
     (ex_put 1000 "two" [2] ex_writing).1.2).2 = Err (ScratchOSError "FileNotFoundError").
Proof. by vm_compute. Qed.

(** A record that is no UTF-8 is not reported as invalid metadata. *)
Example undecodable_record_escapes :
  @load_metadata Empty_set ex_root (<[metadata_at ex_root (sha256_hex [1]) := FileNode [255]]> ∅) (sha256_hex [1])
  = Err (ScratchCrash "UnicodeDecodeError").
Proof. by vm_compute. Qed.
