(* ===== verification/ContentExtraction.v ===== *)
(** * Content extraction and deleted entries (src/scanner/content_extraction.py,
    src/scanner/deleted_entries.py)

    The extents of an entry are read in chunks, through the resilient reader when a policy is
    given, and streamed into the scratch store; deleted entries go the same way and are classified
    by what came out.  The theorems: a complete extraction has stored byte for byte what the source
    holds at the extents, up to ranges the reader reported as gaps; a failed one leaves the store as it was;
    and a deleted entry is called intact only when its whole content was stored under its digest.

    The wrapped reader answers call [n] at an offset for a length; an object without a length, which
    the plain reader would hand on, raises [TypeError]. *)

From Stdlib Require Import ZArith Lia String Ascii.
From stdpp Require Import base list strings gmap sorting.
From S2P Require Import Prelude PyStr Json Sha256 Identifiers Messages JsonLines Paths Fat12 ReadErrors FatEntries ScratchStore.

Local Open Scope string_scope.
Local Open Scope Z_scope.

Definition CHUNK_SIZE : Z := 1048576.

(** What reading an extent raises. *)
Inductive extent_error := ExtentOSError (class : string) | BadExtent | ExtentRaise (class : string).

(** scanner/content_extraction.py:17-22 ContentExtractionError, and what it lets through. *)
Inductive extraction_error :=
  | ContentExtractionError (code : string)
  | ExtractionRaise (e : scratch_error extent_error).

Abbreviation outcome := (result extraction_error).

(** scanner/content_extraction.py:25-35 ExtractionResult *)
Record ExtractionResult := {
  xr_entry_id : string; xr_status : string; xr_size_bytes : Z; xr_sha256 : option string; xr_scratch_object : option ScratchObject;
  xr_warnings : list string; xr_error_code : option string; xr_checkpoint : option mapping; xr_read_counters : option ReadCounters }.

(** scanner/content_extraction.py:149-155 sum_extent_lengths *)
Fixpoint sum_extent_lengths (extents : list Extent) : outcome Z :=
  match extents with
  | [] => Ok 0
  | e :: extents =>
    _ ← raise_if ((ext_offset e <? 0) || (ext_length e <? 0)) (ContentExtractionError "bad_extent");
    rest ← sum_extent_lengths extents; Ok (ext_length e + rest)
  end.

(** scanner/content_extraction.py:180-189 _skipped *)
Definition skipped (entry : NormalizedEntry) (code : string) : ExtractionResult :=
  {| xr_entry_id := ne_entry_id entry; xr_status := "skipped"; xr_size_bytes := 0; xr_sha256 := None; xr_scratch_object := None;
     xr_warnings := [code]; xr_error_code := None;
     xr_checkpoint := Some [("entry_id", VStr (ne_entry_id entry)); ("status", VStr code)]; xr_read_counters := None |}.

(** scanner/content_extraction.py:192-195 _sparse_warnings *)
Definition sparse_warnings (extents : list Extent) : list string :=
  if existsb ext_sparse extents then ["sparse_zero_filled"] else [].

(** scanner/content_extraction.py:204-210 _provenance *)
Definition provenance (entry : NormalizedEntry) : mapping :=
  [("entry_id", VStr (ne_entry_id entry)); ("volume_id", VStr (ne_volume_id entry)); ("object_id", VStr (ne_object_id entry));
   ("path_sha256", VStr (sha256_hex (ne_raw_path_bytes entry)))].

Definition warning_code (w : warning) : string :=
  match w with ReadGap _ _ _ _ => "read_gap" | PauseRecommended _ => "read_pause_recommended" end.

(** A piece of an extent, at most a chunk long. *)
Record piece := { pc_offset : Z; pc_length : Z; pc_sparse : bool }.

(** The loop over the remaining bytes of one extent. *)
Fixpoint pieces_from (fuel : nat) (sparse : bool) (offset remaining : Z) : list piece :=
  match fuel with
  | O => []
  | S fuel =>
    if remaining <=? 0 then []
    else let n := Z.min CHUNK_SIZE remaining in
         {| pc_offset := offset; pc_length := n; pc_sparse := sparse |} :: pieces_from fuel sparse (offset + n) (remaining - n)
  end.

Definition pieces (e : Extent) : list piece :=
  pieces_from (Z.to_nat (ext_length e / CHUNK_SIZE) + 1) (ext_sparse e) (ext_offset e) (ext_length e).

Section extraction.
Context `{Listing}.
Variable raw : nat -> Z -> Z -> raw_read.
Variable temperature : nat -> option Z.
Variable root : pypath.
Variable quota_bytes : Z.

(** [selected_reader.read_at]: the resilient reader under a policy, the reader itself without. *)
Definition read_at (policy : option ReadPolicy) (offset length_ : Z) (s : reader_state) : reader_state * result extent_error bytes :=
  match policy with
  | Some p => match resilient_read_at p raw temperature offset length_ s with
              | Ok (b, s) => (s, Ok b)
              | Err _ => (s, Err (ExtentRaise "ReadErrorHandlingError"))
              end
  | None =>
    (RS (counters s) (error_ranges s) (S (calls s)) (sensor_reads s) (sleeps s),
     match raw (calls s) offset length_ with
     | RData b => Ok b
     | ROther => Err (ExtentRaise "TypeError")
     | RTimeout => Err (ExtentOSError "TimeoutError")
     | ROSError => Err (ExtentOSError "OSError")
     end)
  end.

(** The bytes one piece yields. *)
Definition read_piece (policy : option ReadPolicy) (p : piece) (s : reader_state) : reader_state * result extent_error bytes :=
  if pc_sparse p then (s, Ok (replicate (Z.to_nat (pc_length p)) 0))
  else let (s, r) := read_at policy (pc_offset p) (pc_length p) s in
       (s, chunk ← r; _ ← raise_if (negb (zlen chunk =? pc_length p)) (ExtentOSError "OSError"); Ok chunk).

Definition chunk_of (policy : option ReadPolicy) (p : piece) (s : reader_state) : reader_state * result extent_error chunk :=
  let (s, r) := read_piece policy p s in (s, b ← r; Ok (CBytes b)).

(** What the generator does for one extent. *)
Definition extent_chunks (policy : option ReadPolicy) (e : Extent) : list (reader_state -> reader_state * result extent_error chunk) :=
  if (ext_offset e <? 0) || (ext_length e <? 0) then [fun s => (s, Err BadExtent)]
  else chunk_of policy <$> pieces e.

(** scanner/content_extraction.py:158-177 _read_chunks: a list of actions, run one after another as the consumer asks. *)
Definition read_chunks (policy : option ReadPolicy) (extents : list Extent) : list (reader_state -> reader_state * result extent_error chunk) :=
  concat (extent_chunks policy <$> extents).

(** scanner/content_extraction.py:198-201 _read_warnings *)
Definition read_warnings (policy : option ReadPolicy) (s : reader_state) : list string * reader_state :=
  match policy with
  | None => ([], s)
  | Some p => let (ws, s) := warnings p temperature s in (warning_code <$> ws, s)
  end.

(** What [extract_allocated_content] reports for an exception of the store, if it catches it. *)
Definition caught_code (e : scratch_error extent_error) : option string :=
  match e with
  | ScratchStoreError code => Some code
  | ScratchOSError class | ChunkError (ExtentOSError class) => Some class
  | _ => None
  end.

Definition counters_of (policy : option ReadPolicy) (s : reader_state) : option ReadCounters :=
  match policy with Some _ => Some (counters s) | None => None end.

(** The streaming part, from extent [start] on. *)
Definition stream_extents (env : put_env) (entry : NormalizedEntry) (policy : option ReadPolicy) (start : nat) (expected : Z) (d : disk)
    : disk * reader_state * outcome ExtractionResult :=
  let '(s, d, r) := put_bytes root quota_bytes env (read_chunks policy (drop start (ne_extents entry))) (provenance entry) None
                      (Some expected) initial_reader d in
  match r with
  | Ok o =>
    let (ws, s) := read_warnings policy s in
    (d, s, Ok {| xr_entry_id := ne_entry_id entry; xr_status := if (start =? 0)%nat then "complete" else "resumed";
                 xr_size_bytes := so_size_bytes o; xr_sha256 := Some (so_sha256 o); xr_scratch_object := Some o;
                 xr_warnings := (sparse_warnings (ne_extents entry) ++ ws)%list; xr_error_code := None; xr_checkpoint := None;
                 xr_read_counters := counters_of policy s |})
  | Err e =>
    (d, s, match caught_code e with
           | Some code =>
             Ok {| xr_entry_id := ne_entry_id entry; xr_status := "partial"; xr_size_bytes := 0; xr_sha256 := None;
                   xr_scratch_object := None; xr_warnings := ["io_error"]; xr_error_code := Some code;
                   xr_checkpoint := Some [("entry_id", VStr (ne_entry_id entry)); ("extent_index", VInt (Z.of_nat start))];
                   xr_read_counters := counters_of policy s |}
           | None => Err (ExtractionRaise e)
           end)
  end.

(** The content of an entry without any. *)
Definition extract_empty (env : put_env) (entry : NormalizedEntry) (d : disk) : disk * reader_state * outcome ExtractionResult :=
  let '(s, d, r) := put_bytes root quota_bytes env [] (provenance entry) None (Some 0) initial_reader d in
  (d, s, match r with
         | Err e => Err (ExtractionRaise e)
         | Ok o => Ok {| xr_entry_id := ne_entry_id entry; xr_status := "complete"; xr_size_bytes := 0; xr_sha256 := Some (so_sha256 o);
                         xr_scratch_object := Some o; xr_warnings := []; xr_error_code := None; xr_checkpoint := None;
                         xr_read_counters := None |}
         end).

(** The extent to resume at. *)
Definition start_extent (entry : NormalizedEntry) (resume_checkpoint : option mapping) : outcome nat :=
  match default (VInt 0) (dict_get (default [] resume_checkpoint) "extent_index") with
  | VInt n => _ ← raise_if ((n <? 0) || (zlen (ne_extents entry) <=? n)) (ContentExtractionError "invalid_checkpoint"); Ok (Z.to_nat n)
  | _ => Err (ContentExtractionError "invalid_checkpoint")
  end.

(** The results that need no reading: the sizes disagree, or are beyond the limit. *)
Definition mismatch_result (entry : NormalizedEntry) : ExtractionResult :=
  {| xr_entry_id := ne_entry_id entry; xr_status := "partial"; xr_size_bytes := 0; xr_sha256 := None; xr_scratch_object := None;
     xr_warnings := ["extent_size_mismatch"]; xr_error_code := Some "extent_size_mismatch";
     xr_checkpoint := Some [("entry_id", VStr (ne_entry_id entry)); ("status", VStr "extent_size_mismatch")]; xr_read_counters := None |}.

(** scanner/content_extraction.py:42-137 extract_allocated_content *)
Definition extract_allocated_content (env : put_env) (entry : NormalizedEntry) (max_size_bytes : value)
    (resume_checkpoint : option mapping) (policy : option ReadPolicy) (d : disk) : disk * reader_state * outcome ExtractionResult :=
  let stay r := (d, initial_reader, r) in
  match max_size_bytes with
  | VInt max_size =>
    if max_size <=? 0 then stay (Err (ContentExtractionError "invalid_limit"))
    else if negb (ne_allocated entry) then stay (Ok (skipped entry "not_allocated"))
    else if negb (bool_decide (ne_entry_type entry ∈ ["file"; "deleted"])) then stay (Ok (skipped entry "metadata_only"))
    else if bool_decide (ne_size_bytes entry = Some 0) then extract_empty env entry d
    else if bool_decide (length (ne_extents entry) = 0%nat) then stay (Ok (skipped entry "metadata_only"))
    else match sum_extent_lengths (ne_extents entry) with
         | Err e => stay (Err e)
         | Ok extent_size =>
           let expected := default extent_size (ne_size_bytes entry) in
           if negb (expected =? extent_size) then stay (Ok (mismatch_result entry))
           else if max_size <? expected then stay (Ok (skipped entry "size_limit_exceeded"))
           else match (start ← start_extent entry resume_checkpoint;
                       before ← sum_extent_lengths (take start (ne_extents entry)); Ok (start, before)) with
                | Err e => stay (Err e)
                | Ok (start, before) => stream_extents env entry policy start (expected - before) d
                end
         end
  | _ => stay (Err (ContentExtractionError "invalid_limit"))
  end.

(** scanner/content_extraction.py:140-146 expected_sha256: the digest of all chunks, or what reading raised. *)
Definition expected_sha256 (entry : NormalizedEntry) : option string :=
  sha256_hex <$> (gather (read_chunks None (ne_extents entry)) initial_reader).2.

(** ** Deleted entries *)

(** scanner/deleted_entries.py:13-26 DeletedRecoveryResult *)
Record DeletedRecoveryResult := {
  dr_entry_id : string; dr_recovery_state : string; dr_extraction : option ExtractionResult; dr_warnings : list string;
  dr_original_path : string; dr_original_name : string; dr_raw_name_bytes : bytes; dr_raw_timestamps : list (string * RawTimestamp);
  dr_parent_object_id : option string; dr_parent_entry_id : option string; dr_orphan : bool; dr_recovery_health : string }.

(** scanner/deleted_entries.py:108-132 _result *)
Definition deleted_result (entry : NormalizedEntry) (recovery_state : string) (extraction : option ExtractionResult)
    (extra : list string) (health : string) : DeletedRecoveryResult :=
  {| dr_entry_id := ne_entry_id entry; dr_recovery_state := recovery_state; dr_extraction := extraction;
     dr_warnings := dedup (ne_warnings entry ++ extra)%list; dr_original_path := ne_display_path entry;
     dr_original_name := ne_display_name entry; dr_raw_name_bytes := ne_raw_name_bytes entry;
     dr_raw_timestamps := ne_raw_timestamps entry; dr_parent_object_id := ne_parent_object_id entry;
     dr_parent_entry_id := ne_parent_entry_id entry;
     dr_orphan := bool_decide ("orphan_parent" ∈ ne_warnings entry) ||
                  (bool_decide (is_Some (ne_parent_object_id entry)) && bool_decide (ne_parent_entry_id entry = None));
     dr_recovery_health := health |}.

(** scanner/deleted_entries.py:98-105 _as_extractable_deleted *)
Definition as_extractable_deleted (e : NormalizedEntry) : NormalizedEntry :=
  NE (ne_entry_id e) (ne_volume_id e) (ne_object_id e) (ne_parent_object_id e) (ne_parent_entry_id e) (ne_raw_path_bytes e)
    (ne_display_path e) (ne_raw_name_bytes e) (ne_display_name e) "deleted" (dedup (ne_attributes e ++ ["deleted_source"])%list)
    (ne_owner_id e) (ne_size_bytes e) true (ne_raw_timestamps e) (ne_extents e) (ne_alternate_stream e) (ne_warnings e).

(** scanner/deleted_entries.py:135-144 _recovery_state *)
Definition recovery_state (x : ExtractionResult) : string :=
  if bool_decide (xr_status x ∈ ["complete"; "resumed"]) then "intact"
  else if String.eqb (xr_status x) "partial" then "partial"
  else if bool_decide ("size_limit_exceeded" ∈ xr_warnings x) then "deferred_size_limit"
  else "unrecoverable".

(** scanner/deleted_entries.py:66-95 _recover_with_extraction *)
Definition recover_with_extraction (env : put_env) (entry : NormalizedEntry) (max_size_bytes : value) (d : disk)
    : disk * outcome DeletedRecoveryResult :=
  let '(d, _, r) := extract_allocated_content env (as_extractable_deleted entry) max_size_bytes None None d in
  (d, match r with
      | Err (ContentExtractionError code) =>
        if String.eqb code "bad_extent" then Ok (deleted_result entry "unrecoverable" None [code] "unrecoverable")
        else Err (ContentExtractionError code)
      | Err (ExtractionRaise (ChunkError BadExtent)) => Ok (deleted_result entry "unrecoverable" None ["bad_extent"] "unrecoverable")
      | Err e => Err e
      | Ok x =>
        let state := recovery_state x in
        match ne_size_bytes entry with
        | Some _ => Ok (deleted_result entry state (Some x) (xr_warnings x) state)
        | None =>
          let state := if String.eqb state "intact" then "partial" else state in
          Ok (deleted_result entry state (Some x) (xr_warnings x ++ ["missing_size_metadata"]) state)
        end
      end).

(** scanner/deleted_entries.py:29-63 recover_deleted_entry *)
Definition recover_deleted_entry (env : put_env) (entry : NormalizedEntry) (max_size_bytes : value) (d : disk)
    : disk * outcome DeletedRecoveryResult :=
  if ne_allocated entry then (d, Ok (deleted_result entry "allocated_not_deleted" None [] "not_deleted"))
  else if negb (bool_decide (ne_entry_type entry ∈ ["deleted"; "file"]))
  then (d, Ok (deleted_result entry "metadata_only" None ["metadata_only"] "unrecoverable"))
  else if bool_decide (ne_size_bytes entry = Some 0)
  then if bool_decide (length (ne_extents entry) = 0%nat) then recover_with_extraction env entry max_size_bytes d
       else (d, Ok (deleted_result entry "unrecoverable" None ["size_metadata_conflict"] "unrecoverable"))
  else if bool_decide (length (ne_extents entry) = 0%nat)
  then (d, Ok (deleted_result entry "unrecoverable" None ["missing_extents"] "unrecoverable"))
  else recover_with_extraction env entry max_size_bytes d.

End extraction.

(** ** What the source holds *)

Definition source_bytes (src : Z -> Z) (offset length_ : Z) : bytes := src <$> zrange offset (Z.to_nat length_).

Definition zeros (n : Z) : bytes := replicate (Z.to_nat n) 0.

Definition extent_bytes (src : Z -> Z) (e : Extent) : bytes :=
  if ext_sparse e then zeros (ext_length e) else source_bytes src (ext_offset e) (ext_length e).

(** The reader's answers of the right length are right. *)
Definition faithful (raw : nat -> Z -> Z -> raw_read) (src : Z -> Z) : Prop :=
  forall i o n b, raw i o n = RData b -> zlen b = n -> b = source_bytes src o n.

Lemma source_bytes_app src o n m : 0 <= n -> 0 <= m -> source_bytes src o (n + m) = (source_bytes src o n ++ source_bytes src (o + n) m)%list.
Proof.
  intros Hn Hm. unfold source_bytes. rewrite Z2Nat.inj_add, zrange_app, fmap_app by done. do 3 f_equal. lia.
Qed.

Lemma zeros_app n m : 0 <= n -> 0 <= m -> zeros (n + m) = (zeros n ++ zeros m)%list.
Proof. intros Hn Hm. unfold zeros. by rewrite Z2Nat.inj_add, replicate_add. Qed.

Lemma zlen_source_bytes src o n : 0 <= n -> zlen (source_bytes src o n) = n.
Proof. intros Hn. unfold source_bytes, zlen. rewrite length_fmap, length_zrange. lia. Qed.

Lemma zlen_zeros n : 0 <= n -> zlen (zeros n) = n.
Proof. intros Hn. unfold zeros, zlen. rewrite length_replicate. lia. Qed.

Lemma zlen_extent_bytes src e : 0 <= ext_length e -> zlen (extent_bytes src e) = ext_length e.
Proof. intros He. unfold extent_bytes. destruct (ext_sparse e); [by apply zlen_zeros|by apply zlen_source_bytes]. Qed.

(** The places of an extent's bytes on the source, whether or not it is sparse. *)
Definition extent_places (e : Extent) : list Z := zrange (ext_offset e) (Z.to_nat (ext_length e)).
Definition piece_places (p : piece) : list Z := zrange (pc_offset p) (Z.to_nat (pc_length p)).

(** The pieces of an extent are the extent: the fuel is enough. *)
Definition piece_bytes (src : Z -> Z) (p : piece) : bytes :=
  if pc_sparse p then zeros (pc_length p) else source_bytes src (pc_offset p) (pc_length p).

Lemma pieces_from_bytes src fuel sparse o n :
  0 <= n -> n <= Z.of_nat fuel * CHUNK_SIZE ->
  concat (piece_bytes src <$> pieces_from fuel sparse o n) = if sparse then zeros n else source_bytes src o n.
Proof.
  revert o n. induction fuel as [|fuel IH]; intros o n Hn Hf; [assert (n = 0) as -> by lia; by destruct sparse|]. cbn [pieces_from].
  destruct (Z.leb_spec n 0).
  - assert (n = 0) as -> by lia. by destruct sparse.
  - cbn [fmap list_fmap concat]. unfold CHUNK_SIZE in *. rewrite IH by lia. unfold piece_bytes. cbn [pc_sparse pc_length pc_offset].
    destruct sparse.
    + rewrite <- zeros_app by lia. f_equal. lia.
    + rewrite <- source_bytes_app by lia. f_equal. lia.
Qed.

Lemma fuel_enough n : 0 <= n -> n <= Z.of_nat (Z.to_nat (n / CHUNK_SIZE) + 1) * CHUNK_SIZE.
Proof.
  intros Hn. pose proof (Z.mod_pos_bound n CHUNK_SIZE ltac:(done)). pose proof (Z.div_mod n CHUNK_SIZE ltac:(done)).
  assert (0 <= n / CHUNK_SIZE) by (apply Z.div_pos; done). rewrite Nat2Z.inj_add, Z2Nat.id by done. unfold CHUNK_SIZE in *. lia.
Qed.

Lemma pieces_from_places fuel sparse o n :
  0 <= n -> n <= Z.of_nat fuel * CHUNK_SIZE -> concat (piece_places <$> pieces_from fuel sparse o n) = zrange o (Z.to_nat n).
Proof.
  revert o n. induction fuel as [|fuel IH]; intros o n Hn Hf; [by assert (n = 0) as -> by lia|]. cbn [pieces_from].
  destruct (Z.leb_spec n 0); [by assert (n = 0) as -> by lia|].
  cbn [fmap list_fmap concat]. unfold CHUNK_SIZE in *. rewrite IH by lia. unfold piece_places. cbn [pc_length pc_offset].
  replace (Z.to_nat n) with (Z.to_nat (Z.min 1048576 n) + Z.to_nat (n - Z.min 1048576 n))%nat by lia. rewrite zrange_app. do 2 f_equal. lia.
Qed.

Lemma pieces_places e : 0 <= ext_length e -> concat (piece_places <$> pieces e) = extent_places e.
Proof. intros He. apply pieces_from_places; [done|by apply fuel_enough]. Qed.

Lemma pieces_bytes src e : 0 <= ext_length e -> concat (piece_bytes src <$> pieces e) = extent_bytes src e.
Proof.
  intros He. unfold pieces, extent_bytes. apply pieces_from_bytes; [done|by apply fuel_enough].
Qed.

Lemma pieces_from_positive fuel sparse o n p : p ∈ pieces_from fuel sparse o n -> 0 < pc_length p.
Proof.
  revert o n. induction fuel as [|fuel IH]; intros o n; cbn [pieces_from]; [by intros ?%elem_of_nil|].
  destruct (Z.leb_spec n 0); [by intros ?%elem_of_nil|]. intros [->|Hp]%elem_of_cons; [|by eapply IH].
  cbn [pc_length]. unfold CHUNK_SIZE. lia.
Qed.

(** ** What was read *)

Section reading.
Context `{Listing}.
Variable raw : nat -> Z -> Z -> raw_read.
Variable temperature : nat -> option Z.
Variable policy : option ReadPolicy.
Variable src : Z -> Z.
Hypothesis raw_faithful : faithful raw src.
Hypothesis policy_valid : forall p, policy = Some p -> valid_policy p = true.

(** The bytes of a piece, or zeros for one the reader reported as a gap. *)
Definition piece_read (gaps : list ReadErrorRange) (p : piece) (b : bytes) : Prop :=
  b = piece_bytes src p \/
  (b = zeros (pc_length p) /\ exists g, g ∈ gaps /\ re_offset g = pc_offset p /\ re_length g = pc_length p).

Lemma read_piece_spec p s s' b :
  (policy <> None -> accounted s) -> 0 <= pc_length p -> read_piece raw temperature policy p s = (s', Ok b) ->
  (policy <> None -> accounted s') /\ (exists more, error_ranges s' = (error_ranges s ++ more)%list) /\ piece_read (error_ranges s') p b.
Proof.
  intros Ha Hp. unfold read_piece, piece_read, piece_bytes. destruct (pc_sparse p).
  { intros [= <- <-]. split; [done|]. split; [exists []; by rewrite app_nil_r|by left]. }
  unfold read_at. destruct policy as [pol|] eqn:Epol.
  - unfold resilient_read_at. destruct (read_or_gap pol raw temperature (pc_offset p) (pc_length p) s) as [[o s1]|] eqn:Er;
      cbn [mbind result_bind]; [|by intros [=]].
    apply read_or_gap_spec in Er as (Ha1 & _ & Hl & _ & _ & Hg); [|by apply policy_valid|by apply Ha].
    destruct (o_gap o) as [g|].
    + intros [= <- Hb]. assert (zlen (replicate (Z.to_nat (pc_length p)) 0) =? pc_length p = true) as Hz.
      { apply Z.eqb_eq. by apply (zlen_zeros (pc_length p)). }
      rewrite Hz in Hb. injection Hb as <-. destruct Hg as (Hg & Ho & Hlen & _). split; [done|]. split; [by eexists|].
      right. split; [done|]. exists g. split; [|done]. rewrite Hg. apply elem_of_app. right. by left.
    + intros [= <- Hb]. rewrite Hl, Z.eqb_refl in Hb. injection Hb as <-. destruct Hg as (Hg & i & Hi).
      split; [done|]. split; [exists []; by rewrite app_nil_r|]. left. by apply (raw_faithful i).
  - destruct (raw (calls s) (pc_offset p) (pc_length p)) as [x| | |] eqn:Er; cbn [mbind result_bind]; [|by intros [=]..].
    destruct (Z.eqb_spec (zlen x) (pc_length p)) as [Hl|Hl]; cbn; [|by intros [=]].
    intros [= <- <-]. split; [done|]. split; [exists []; by rewrite app_nil_r|]. left. by apply (raw_faithful (calls s)).
Qed.

Lemma piece_read_more gaps more p b : piece_read gaps p b -> piece_read (gaps ++ more) p b.
Proof.
  intros [->|(-> & g & Hg & Ho & Hl)]; [by left|]. right. split; [done|]. exists g. split; [|done]. apply elem_of_app. by left.
Qed.

Lemma gather_pieces ps s s' content :
  (policy <> None -> accounted s) -> Forall (fun p => 0 <= pc_length p) ps ->
  gather (chunk_of raw temperature policy <$> ps) s = (s', Some content) ->
  (exists more, error_ranges s' = (error_ranges s ++ more)%list) /\
  exists bs, content = concat bs /\ Forall2 (piece_read (error_ranges s')) ps bs.
Proof.
  intros Ha Hps. revert s content Ha. induction Hps as [|p ps Hp Hps IH]; intros s content Ha; cbn [fmap list_fmap gather].
  - intros [= <- <-]. split; [exists []; by rewrite app_nil_r|]. by exists [].
  - unfold chunk_of at 1. destruct (read_piece raw temperature policy p s) as [s1 [b|e]] eqn:Er; cbn [mbind result_bind]; [|done].
    apply read_piece_spec in Er as (Ha1 & [m1 Hm1] & Hb); [|done..].
    destruct (gather _ s1) as [s2 [rest|]] eqn:Eg; [|done]. intros [= <- <-].
    destruct (IH s1 rest Ha1 Eg) as ([m2 Hm2] & bs & -> & Hbs). split.
    + exists (m1 ++ m2)%list. by rewrite Hm2, Hm1, app_assoc.
    + exists (b :: bs). split; [done|]. constructor; [|done]. rewrite Hm2. by apply piece_read_more.
Qed.

Lemma sum_extent_lengths_ok extents n :
  sum_extent_lengths extents = Ok n -> Forall (fun e => 0 <= ext_offset e /\ 0 <= ext_length e) extents /\ n = zsum (ext_length <$> extents).
Proof.
  revert n. induction extents as [|e extents IH]; intros n; cbn [sum_extent_lengths]; [by intros [= <-]|].
  intros (u & Hu & (rest & Hr & [= <-])%bind_ok)%bind_ok. apply raise_if_ok, orb_false_iff in Hu as [H1 H2].
  destruct (IH rest Hr) as [IH1 ->]. split; [constructor; [lia|done]|done].
Qed.

Lemma read_chunks_pieces extents :
  Forall (fun e => 0 <= ext_offset e /\ 0 <= ext_length e) extents ->
  read_chunks raw temperature policy extents = chunk_of raw temperature policy <$> concat (pieces <$> extents).
Proof.
  intros He. unfold read_chunks. induction He as [|e extents [H1 H2] He IH]; [done|]. cbn [fmap list_fmap concat].
  rewrite fmap_app. f_equal; [|exact IH]. unfold extent_chunks.
  assert ((ext_offset e <? 0) || (ext_length e <? 0) = false) as -> by lia. done.
Qed.

Lemma pieces_nonneg extents : Forall (fun p => 0 <= pc_length p) (concat (pieces <$> extents)).
Proof.
  apply Forall_forall. intros p. rewrite elem_of_concat. intros (l & Hp & (e & -> & He)%list_elem_of_fmap).
  apply pieces_from_positive in Hp. lia.
Qed.

Lemma extents_bytes extents :
  Forall (fun e => 0 <= ext_offset e /\ 0 <= ext_length e) extents ->
  concat (piece_bytes src <$> concat (pieces <$> extents)) = concat (extent_bytes src <$> extents).
Proof.
  intros He. induction He as [|e extents [_ Hl] He IH]; [done|]. cbn [fmap list_fmap concat].
  rewrite fmap_app, concat_app. f_equal; [by apply pieces_bytes|exact IH].
Qed.

Lemma extents_places extents :
  Forall (fun e => 0 <= ext_offset e /\ 0 <= ext_length e) extents ->
  concat (piece_places <$> concat (pieces <$> extents)) = concat (extent_places <$> extents).
Proof.
  intros He. induction He as [|e extents [_ Hl] He IH]; [done|]. cbn [fmap list_fmap concat].
  rewrite fmap_app, concat_app. f_equal; [by apply pieces_places|exact IH].
Qed.

(** The byte is the one expected at its place, or a zero for a place inside a gap. *)
Definition byte_or_gap (gaps : list ReadErrorRange) (place expected byte : Z) : Prop :=
  byte = expected \/ byte = 0 /\ exists g, g ∈ gaps /\ re_offset g <= place < re_offset g + re_length g.

Lemma piece_read_bytes gaps p b i place expected byte :
  0 <= pc_length p -> piece_read gaps p b -> piece_places p !! i = Some place -> piece_bytes src p !! i = Some expected ->
  b !! i = Some byte -> byte_or_gap gaps place expected byte.
Proof.
  intros Hp [->|(-> & g & Hg & Ho & Hl)] Hplace Hexp Hb; [left; congruence|]. right.
  unfold zeros in Hb. apply lookup_replicate in Hb as [-> _]. split; [done|]. exists g. split; [done|].
  unfold piece_places in Hplace. apply list_elem_of_lookup_2, elem_of_zrange in Hplace. lia.
Qed.

Lemma length_piece_bytes p : 0 <= pc_length p -> length (piece_bytes src p) = Z.to_nat (pc_length p).
Proof.
  intros Hp. unfold piece_bytes. destruct (pc_sparse p).
  - pose proof (zlen_zeros (pc_length p) Hp). unfold zlen in *. lia.
  - pose proof (zlen_source_bytes src (pc_offset p) (pc_length p) Hp). unfold zlen in *. lia.
Qed.

Lemma pieces_read_bytes gaps ps bs :
  Forall (fun p => 0 <= pc_length p) ps -> Forall2 (piece_read gaps) ps bs ->
  length (concat bs) = length (concat (piece_bytes src <$> ps)) /\
  forall i place expected byte, concat (piece_places <$> ps) !! i = Some place ->
    concat (piece_bytes src <$> ps) !! i = Some expected -> concat bs !! i = Some byte -> byte_or_gap gaps place expected byte.
Proof.
  intros Hps Hbs. induction Hbs as [|p b ps bs Hb Hbs IH]; [split; [done|]; by intros i ???|].
  apply Forall_cons in Hps as [Hp Hps]. destruct (IH Hps) as [Hlen IHb]. cbn [fmap list_fmap concat].
  assert (Hbl : length b = Z.to_nat (pc_length p)).
  { destruct Hb as [->|(-> & _)]; [by apply length_piece_bytes|]. unfold zeros. by rewrite length_replicate. }
  assert (Hpl : length (piece_places p) = Z.to_nat (pc_length p)) by (unfold piece_places; by rewrite length_zrange).
  pose proof (length_piece_bytes p Hp) as Hel. split; [rewrite !length_app; lia|].
  intros i place expected byte. destruct (decide (i < Z.to_nat (pc_length p))%nat) as [Hi|Hi].
  - rewrite !lookup_app_l by lia. by apply piece_read_bytes.
  - rewrite !lookup_app_r by lia. rewrite Hbl, Hpl, Hel. apply IHb.
Qed.

(** Everything the chunks of some extents gave, gaps aside, is what the source holds there. *)
Lemma gather_extents extents s s' content n :
  sum_extent_lengths extents = Ok n -> (policy <> None -> accounted s) ->
  gather (read_chunks raw temperature policy extents) s = (s', Some content) ->
  (forall i place expected byte, concat (extent_places <$> extents) !! i = Some place ->
     concat (extent_bytes src <$> extents) !! i = Some expected -> content !! i = Some byte ->
     byte_or_gap (error_ranges s') place expected byte) /\
  (error_ranges s' = [] -> content = concat (extent_bytes src <$> extents)).
Proof.
  intros Hn Ha Hg. apply sum_extent_lengths_ok in Hn as [He _]. rewrite read_chunks_pieces in Hg by done.
  apply gather_pieces in Hg as (_ & bs & -> & Hbs); [|done|apply pieces_nonneg]. split.
  { rewrite <- extents_bytes, <- extents_places by done. by apply pieces_read_bytes; [apply pieces_nonneg|]. }
  intros Hgaps.
  rewrite <- extents_bytes by done. f_equal. induction Hbs as [|p b ps bs Hb Hbs IH]; [done|]. cbn [fmap list_fmap]. f_equal; [|exact IH].
  destruct Hb as [->|(_ & g & Hg & _)]; [done|]. rewrite Hgaps in Hg. by apply elem_of_nil in Hg.
Qed.

End reading.

(** Without a policy no gap is ever recorded. *)
Lemma gather_plain_ranges raw temperature extents s s' o :
  gather (read_chunks raw temperature None extents) s = (s', o) -> error_ranges s' = error_ranges s.
Proof.
  assert (Hgo : forall l, (forall f, f ∈ l -> forall s, error_ranges (f s).1 = error_ranges s) -> forall s s' o,
            gather (E := extent_error) l s = (s', o) -> error_ranges s' = error_ranges s).
  { induction l as [|f l IH]; intros Hl t t' u; cbn [gather]; [by intros [= <- _]|].
    pose proof (Hl f ltac:(left) t) as Hf. destruct (f t) as [t1 [[b|]|e]]; cbn [fst] in Hf; [|by intros [= <- _]..].
    destruct (gather l t1) as [t2 rest] eqn:Eg. intros [= <- _]. rewrite <- Hf. eapply IH; [|exact Eg]. intros g Hg. apply Hl. by right. }
  apply Hgo. intros f. unfold read_chunks. rewrite elem_of_concat. intros (l & Hf & (e & -> & _)%list_elem_of_fmap) t. revert Hf.
  unfold extent_chunks. destruct (_ || _); [by intros ->%list_elem_of_singleton|].
  intros (p & -> & _)%list_elem_of_fmap. unfold chunk_of, read_piece, read_at. by destruct (pc_sparse p).
Qed.

(** ** Extraction *)

Section extracting.
Context `{Listing}.
Variable raw : nat -> Z -> Z -> raw_read.
Variable temperature : nat -> option Z.
Variable root : pypath.
Variable quota_bytes : Z.
Variable src : Z -> Z.
Hypothesis raw_faithful : faithful raw src.

Abbreviation extract := (extract_allocated_content raw temperature root quota_bytes).
Abbreviation chunks policy entry start := (read_chunks raw temperature policy (drop start (ne_extents entry))).

(** What is about to be stored is not confused with other content under the same digest. *)
Definition no_collision (d : disk) (o : option bytes) : Prop :=
  forall content b, o = Some content -> stored root d (sha256_hex content) b -> b = content.

Definition distinct_contents (policy : option ReadPolicy) (entry : NormalizedEntry) (d : disk) : Prop :=
  no_collision d (Some []) /\ forall start, no_collision d (gather (chunks policy entry start) initial_reader).2.

Definition succeeded (x : ExtractionResult) : Prop := xr_status x ∈ ["complete"; "resumed"].

(** Where a checkpoint resumes: at the extent it names, which is one of the entry's, or at the first. *)
Definition resumes_at (resume : option mapping) (entry : NormalizedEntry) (start : nat) : Prop :=
  match resume ≫= fun checkpoint => dict_get checkpoint "extent_index" with
  | Some index => index = VInt (Z.of_nat start) /\ (start < length (ne_extents entry))%nat
  | None => start = 0%nat
  end.

(** The extents a successful extraction stands for. *)
Definition extents_from (entry : NormalizedEntry) (start : nat) : list Extent :=
  if bool_decide (ne_size_bytes entry = Some 0) then [] else drop start (ne_extents entry).

(** The object holds what the chunks gave. *)
Definition extracted (resume : option mapping) (policy : option ReadPolicy) (entry : NormalizedEntry) (s : reader_state) (d' : disk) (x : ExtractionResult) : Prop :=
  exists start content, (ne_size_bytes entry = Some 0 /\ start = 0%nat \/ ne_size_bytes entry <> Some 0 /\ resumes_at resume entry start) /\ xr_status x = (if (start =? 0)%nat then "complete" else "resumed") /\
    xr_sha256 x = Some (sha256_hex content) /\ xr_size_bytes x = zlen content /\ stored root d' (sha256_hex content) content /\
    zlen content = zsum (ext_length <$> extents_from entry start) /\
    (forall i place expected byte, concat (extent_places <$> extents_from entry start) !! i = Some place ->
       concat (extent_bytes src <$> extents_from entry start) !! i = Some expected -> content !! i = Some byte ->
       byte_or_gap (error_ranges s) place expected byte) /\
    (error_ranges s = [] -> content = concat (extent_bytes src <$> extents_from entry start)) /\
    (policy = None -> error_ranges s = [] /\ (ne_size_bytes entry <> Some 0 ->
       (gather (chunks None entry start) initial_reader).2 = Some content)).

Lemma wf_provenance entry : wf_value (VDict (provenance entry)).
Proof.
  apply wf_dict_Forall. split; [apply (bool_decide_unpack _); by vm_compute|]. unfold provenance. by repeat constructor.
Qed.

Lemma initial_accounted : accounted initial_reader.
Proof. unfold accounted, initial_reader, zero_counters, zlen. cbn. lia. Qed.

Lemma read_warnings_ranges policy s ws s' :
  read_warnings temperature policy s = (ws, s') -> error_ranges s' = error_ranges s.
Proof.
  unfold read_warnings. destruct policy as [p|]; [|by intros [= _ <-]].
  destruct (warnings p temperature s) as [w s1] eqn:Ew. intros [= _ <-]. by apply warnings_same in Ew as (_ & ? & _).
Qed.

Lemma sum_extent_lengths_drop extents start n :
  sum_extent_lengths extents = Ok n -> exists a b, sum_extent_lengths (take start extents) = Ok a /\
    sum_extent_lengths (drop start extents) = Ok b /\ n = a + b.
Proof.
  revert start n. induction extents as [|e extents IH]; intros start n; cbn [sum_extent_lengths].
  - intros [= <-]. rewrite take_nil, drop_nil. by exists 0, 0.
  - intros (u & Hu & (rest & Hr & [= <-])%bind_ok)%bind_ok. destruct start as [|start]; cbn [take drop sum_extent_lengths].
    + exists 0, (ext_length e + rest). rewrite Hu, Hr. done.
    + destruct (IH start rest Hr) as (a & b & Ha & Hb & ->). rewrite Hu, Ha. exists (ext_length e + a), b. split; [done|]. split; [done|lia].
Qed.

Lemma stream_extents_spec env entry resume policy start expected d d' s r extent_size before :
  (forall p, policy = Some p -> valid_policy p = true) -> resumes_at resume entry start -> sound root d ->
  no_collision d (gather (chunks policy entry start) initial_reader).2 -> ne_size_bytes entry <> Some 0 ->
  sum_extent_lengths (ne_extents entry) = Ok extent_size -> sum_extent_lengths (take start (ne_extents entry)) = Ok before ->
  expected = extent_size - before ->
  stream_extents raw temperature root quota_bytes env entry policy start expected d = (d', s, r) ->
  match r with
  | Ok x => if decide (succeeded x) then extracted resume policy entry s d' x /\ sound root d' /\ (forall h b, stored root d h b -> stored root d' h b)
            else grows (E := extent_error) root d d'
  | Err _ => grows (E := extent_error) root d d'
  end.
Proof.
  intros Hpol Hres Hs Hcoll Hsize Hsum Hbefore Hexp. unfold stream_extents.
  destruct (put_bytes _ _ _ _ _ _ _ _ _) as [[s1 d1] r1] eqn:Ep.
  apply put_bytes_spec in Ep; [|done|apply wf_provenance|exact Hcoll]. destruct r1 as [o|e].
  - destruct (read_warnings temperature policy s1) as [ws s2] eqn:Ew. apply read_warnings_ranges in Ew. intros [= <- <- <-].
    destruct Ep as (content & Hg & _ & Hlen & Hs1 & Hst & _ & Hstored & -> & _).
    destruct (sum_extent_lengths_drop _ start _ Hsum) as (a & b & Ha & Hb & ->). rewrite Ha in Hbefore. injection Hbefore as ->.
    specialize (Hlen _ eq_refl). assert (extents_from entry start = drop start (ne_extents entry)) as Hfrom
      by (unfold extents_from; by rewrite bool_decide_false).
    destruct (gather_extents raw temperature policy src raw_faithful Hpol _ _ _ _ _ Hb (fun _ => initial_accounted) Hg) as [Hbs Hno].
    destruct (decide _) as [_|Hn]; [|exfalso; apply Hn; unfold succeeded; cbn; by destruct (start =? 0)%nat; [left|right; left]].
    split; [|by split]. exists start, content. rewrite Hfrom, Ew. split; [by right|]. split; [done|]. split; [done|]. split; [done|]. split; [done|].
    split; [apply sum_extent_lengths_ok in Hb as [_ <-]; lia|]. split; [exact Hbs|]. split; [exact Hno|].
    intros ->. rewrite Hg. split; [|done]. exact (gather_plain_ranges _ _ _ _ _ _ Hg).
  - intros [= <- <- <-]. destruct (caught_code e) as [code|]; [|exact Ep].
    destruct (decide _) as [Hy|_]; [|exact Ep]. exfalso. unfold succeeded in Hy. cbn in Hy.
    rewrite !elem_of_cons, elem_of_nil in Hy. by destruct Hy as [Hy|[Hy|[]]].
Qed.

Definition extraction_result (resume : option mapping) (policy : option ReadPolicy) (entry : NormalizedEntry) (d d' : disk) (s : reader_state)
    (r : outcome ExtractionResult) : Prop :=
  match r with
  | Ok x => if decide (succeeded x) then extracted resume policy entry s d' x /\ sound root d' /\ (forall h b, stored root d h b -> stored root d' h b)
            else grows (E := extent_error) root d d'
  | Err _ => grows (E := extent_error) root d d'
  end.

Lemma extract_empty_spec env entry resume policy d d' s r :
  sound root d -> no_collision d (Some []) -> ne_size_bytes entry = Some 0 ->
  extract_empty root quota_bytes env entry d = (d', s, r) -> extraction_result resume policy entry d d' s r.
Proof.
  intros Hs Hcoll Hsize. unfold extract_empty. destruct (put_bytes _ _ _ _ _ _ _ _ _) as [[s1 d1] r1] eqn:Ep.
  apply put_bytes_spec in Ep; [|done|apply wf_provenance|exact Hcoll]. intros [= <- <- <-]. destruct r1 as [o|e]; [|exact Ep].
  destruct Ep as (content & Hg & _ & _ & Hs1 & Hst & _ & Hstored & -> & _). injection Hg as <- <-.
  unfold extraction_result. destruct (decide _) as [_|Hn]; [|exfalso; apply Hn; left].
  split; [|by split]. exists 0%nat, []. assert (extents_from entry 0 = []) as -> by (unfold extents_from; by rewrite bool_decide_true).
  split; [by left|]. do 5 (split; [done|]). split; [by intros i ???|]. split; [done|]. intros _. by split.
Qed.

Lemma skipped_failed entry code : ~ succeeded (skipped entry code).
Proof. unfold succeeded. cbn. rewrite !elem_of_cons, elem_of_nil. by intros [?|[?|[]]]. Qed.

Lemma grows_same d : grows (E := extent_error) root d d.
Proof. intros Hs. split; [done|]. split; [auto|done]. Qed.

Lemma not_succeeded resume policy entry d s x : ~ succeeded x -> extraction_result resume policy entry d d s (Ok x).
Proof. intros Hx. unfold extraction_result. rewrite decide_False by done. apply grows_same. Qed.

Lemma start_extent_resumes entry resume start : start_extent entry resume = Ok start -> resumes_at resume entry start.
Proof.
  unfold start_extent, resumes_at. destruct resume as [checkpoint|]; cbn [from_option id mbind option_bind dict_get].
  - destruct (dict_get checkpoint "extent_index") as [v|]; cbn [from_option id].
    + destruct v as [| |n| | | |]; try done. intros (u & Hu%raise_if_ok & [= <-])%bind_ok.
      apply orb_false_iff in Hu as [H1%Z.ltb_ge H2%Z.leb_gt]. unfold zlen in H2. split; [by rewrite Z2Nat.id|lia].
    + intros (u & _ & [= <-])%bind_ok. done.
  - intros (u & _ & [= <-])%bind_ok. done.
Qed.

Lemma extract_spec env entry max_size_bytes resume policy d d' s r :
  (forall p, policy = Some p -> valid_policy p = true) -> sound root d -> distinct_contents policy entry d ->
  extract env entry max_size_bytes resume policy d = (d', s, r) -> extraction_result resume policy entry d d' s r.
Proof.
  intros Hpol Hs [He Hr]. unfold extract_allocated_content.
  assert (Hstay : forall e, extraction_result resume policy entry d d initial_reader (Err e)) by (intros e; apply grows_same).
  destruct max_size_bytes as [| |max_size| | | |]; try (intros [= <- <- <-]; apply Hstay).
  destruct (max_size <=? 0); [intros [= <- <- <-]; apply Hstay|].
  destruct (negb (ne_allocated entry)); [intros [= <- <- <-]; apply not_succeeded, skipped_failed|].
  destruct (negb _); [intros [= <- <- <-]; apply not_succeeded, skipped_failed|].
  destruct (bool_decide_reflect (ne_size_bytes entry = Some 0)) as [Hz|Hz]; [by apply extract_empty_spec|].
  destruct (bool_decide _); [intros [= <- <- <-]; apply not_succeeded, skipped_failed|].
  destruct (sum_extent_lengths (ne_extents entry)) as [extent_size|e] eqn:Hsum; [|intros [= <- <- <-]; apply Hstay].
  destruct (negb _) eqn:Hneq; [intros [= <- <- <-]; apply not_succeeded; unfold succeeded; cbn; rewrite !elem_of_cons, elem_of_nil; by intros [?|[?|[]]]|].
  apply negb_false_iff, Z.eqb_eq in Hneq. destruct (max_size <? _); [intros [= <- <- <-]; apply not_succeeded, skipped_failed|].
  destruct (start ← start_extent entry resume; _) as [[start before]|e] eqn:Hst; [|intros [= <- <- <-]; apply Hstay].
  apply bind_ok in Hst as (st & Hst & (b & Hb & [= -> ->])%bind_ok). rewrite Hneq. intros Hx.
  apply start_extent_resumes in Hst as Hres.
  by eapply stream_extents_spec in Hx.
Qed.

(** C27. A complete extraction is the content of the source.  When the extraction of an entry says
    complete or resumed, an object stored under its digest has the reported size.  For an entry of
    size zero it is the empty object, whatever its extents are.  For any other entry it begins at
    the extent the checkpoint names, or at the first; its length is that of the extents from there
    on, and each of its bytes is the one the source holds at its place, or zero when the extent is
    sparse, or zero when its place lies in a range the reader reported as a gap.  Complete means
    that it began at the first extent, and with no gap it is byte for byte the content. *)
Theorem extraction_exact env entry max_size_bytes resume policy d d' s x :
  (forall p, policy = Some p -> valid_policy p = true) -> sound root d -> distinct_contents policy entry d ->
  extract env entry max_size_bytes resume policy d = (d', s, Ok x) -> succeeded x ->
  exists content,
    xr_sha256 x = Some (sha256_hex content) /\ xr_size_bytes x = zlen content /\ stored root d' (sha256_hex content) content /\
    (ne_size_bytes entry = Some 0 -> xr_status x = "complete" /\ content = []) /\
    (ne_size_bytes entry <> Some 0 -> exists start, resumes_at resume entry start /\
       xr_status x = (if (start =? 0)%nat then "complete" else "resumed") /\
       let extents := drop start (ne_extents entry) in
       zlen content = zsum (ext_length <$> extents) /\
       (forall i place expected byte, concat (extent_places <$> extents) !! i = Some place ->
          concat (extent_bytes src <$> extents) !! i = Some expected -> content !! i = Some byte ->
          byte_or_gap (error_ranges s) place expected byte) /\
       (error_ranges s = [] -> content = concat (extent_bytes src <$> extents))).
Proof.
  intros Hpol Hs Hd Hx Hok. apply extract_spec in Hx; [|done..]. unfold extraction_result in Hx. rewrite decide_True in Hx by done.
  destruct Hx as ((start & content & H0 & H1 & H2 & H3 & H4 & H5 & H6 & H7 & _) & _). exists content.
  split; [done|]. split; [done|]. split; [done|]. unfold extents_from in *. destruct H0 as [[Hz ->]|[Hz Hr]].
  - rewrite bool_decide_true in H5 by done. split; [|done]. intros _. split; [done|]. apply nil_length_inv. unfold zlen in H5. cbn in H5. lia.
  - rewrite bool_decide_false in H5, H6, H7 by done. split; [done|]. intros _. by exists start.
Qed.

(** A failed extraction leaves the store alone.  An extraction that raises, or reports anything
    but complete or resumed, keeps every stored object and every metadata record, and the store stays
    sound for the next one. *)
Theorem extraction_failure_clean env entry max_size_bytes resume policy d d' s r :
  (forall p, policy = Some p -> valid_policy p = true) -> sound root d -> distinct_contents policy entry d ->
  extract env entry max_size_bytes resume policy d = (d', s, r) ->
  match r with Ok x => ~ succeeded x | Err _ => True end ->
  sound root d' /\ (forall h b, stored root d h b -> stored root d' h b) /\
  forall h, load_metadata (E := extent_error) root d' h = load_metadata root d h.
Proof.
  intros Hpol Hs Hd Hx Hbad. apply extract_spec in Hx; [|done..]. unfold extraction_result in Hx.
  destruct r as [x|e]; [rewrite decide_False in Hx by done|]; by apply Hx.
Qed.

(** The digest of the reference.  A plain extraction that completes reports the digest that
    [expected_sha256] computes from the same source. *)
Theorem extraction_digest env entry max_size_bytes d d' s x :
  sound root d -> distinct_contents None entry d -> ne_size_bytes entry <> Some 0 ->
  extract env entry max_size_bytes None None d = (d', s, Ok x) -> succeeded x ->
  xr_status x = "complete" -> expected_sha256 raw temperature entry = xr_sha256 x.
Proof.
  intros Hs Hd Hz Hx Hok Hst. apply extract_spec in Hx; [|done..]. unfold extraction_result in Hx. rewrite decide_True in Hx by done.
  destruct Hx as ((start & content & _ & H1 & -> & _ & _ & _ & _ & _ & Hg) & _). rewrite Hst in H1.
  destruct start as [|start]; [|done]. unfold expected_sha256. rewrite drop_0 in Hg. destruct (Hg eq_refl) as [_ Hg']. by rewrite Hg'.
Qed.

(** ** Deleted entries *)

Lemma recovery_state_intact x : recovery_state x = "intact" -> succeeded x.
Proof. unfold recovery_state. intros Hx. repeat case_match; try done. by case_bool_decide. Qed.

(** What recovery promises: the store stays sound and keeps its objects, and intact means extracted. *)
Definition recovered (entry : NormalizedEntry) (d d' : disk) (r : outcome DeletedRecoveryResult) : Prop :=
  sound root d' /\ (forall h b, stored root d h b -> stored root d' h b) /\
  forall x, r = Ok x -> dr_recovery_state x = "intact" ->
    exists y s, dr_extraction x = Some y /\ extracted None None (as_extractable_deleted entry) s d' y /\ is_Some (ne_size_bytes entry).

Lemma recovered_same entry d x :
  sound root d -> dr_recovery_state x <> "intact" -> recovered entry d d (Ok x).
Proof. intros Hs Hx. split; [done|]. split; [done|]. by intros y [= <-]. Qed.

Lemma recover_with_extraction_spec env entry max_size_bytes d d' r :
  sound root d -> distinct_contents None entry d ->
  recover_with_extraction raw temperature root quota_bytes env entry max_size_bytes d = (d', r) -> recovered entry d d' r.
Proof.
  intros Hs Hd. unfold recover_with_extraction.
  destruct (extract env (as_extractable_deleted entry) max_size_bytes None None d) as [[d1 s1] r1] eqn:Ex.
  apply extract_spec in Ex; [|done..]. intros [= <- <-]. unfold extraction_result in Ex.
  assert (Hkeep : sound root d1 /\ forall h b, stored root d h b -> stored root d1 h b).
  { destruct r1 as [x|e]; [destruct (decide _)|]; [by split; apply Ex|by split; apply Ex|by split; apply Ex]. }
  destruct Hkeep as [Hs1 Hst]. split; [done|]. split; [done|]. intros y Hy Hintact. destruct r1 as [x|e].
  - destruct (ne_size_bytes entry) as [n|] eqn:Esize.
    + injection Hy as <-. cbn [deleted_result dr_recovery_state dr_extraction] in *. pose proof (recovery_state_intact _ Hintact) as Hok.
      rewrite decide_True in Ex by done. exists x, s1. split; [done|]. split; [by apply Ex|by eexists].
    + injection Hy as <-. exfalso. cbn [deleted_result dr_recovery_state] in Hintact.
      destruct (String.eqb_spec (recovery_state x) "intact"); congruence.
  - destruct e as [code|[| | |[]]]; try done; [destruct (String.eqb code "bad_extent")|]; simplify_eq; done.
Qed.

(** C28. Intact means intact.  When the recovery of a deleted entry reports intact, its size was
    known, and an object stored under the reported digest is, byte for byte, what the source holds
    at its extents, with zeros for the sparse ones; whatever it reports, the store stays sound and keeps its objects. *)
Theorem intact_is_exact env entry max_size_bytes d d' x :
  sound root d -> distinct_contents None entry d ->
  recover_deleted_entry raw temperature root quota_bytes env entry max_size_bytes d = (d', Ok x) ->
  sound root d' /\ (forall h b, stored root d h b -> stored root d' h b) /\
  (dr_recovery_state x = "intact" ->
     let content := concat (extent_bytes src <$> ne_extents entry) in
     ne_allocated entry = false /\ is_Some (ne_size_bytes entry) /\
     stored root d' (sha256_hex content) content /\ (y ← dr_extraction x; xr_sha256 y) = Some (sha256_hex content)).
Proof.
  intros Hs Hd Hx.
  assert (Hr : recovered entry d d' (Ok x) /\ (dr_recovery_state x = "intact" -> ne_allocated entry = false /\
            (ne_size_bytes entry = Some 0 -> ne_extents entry = []))).
  { unfold recover_deleted_entry in Hx. destruct (ne_allocated entry); [injection Hx as <- <-; by split; [apply recovered_same|]|].
    destruct (negb _); [injection Hx as <- <-; by split; [apply recovered_same|]|].
    destruct (bool_decide_reflect (ne_size_bytes entry = Some 0)) as [Hz|Hz];
      destruct (bool_decide_reflect (length (ne_extents entry) = 0%nat)) as [Hl|Hl].
    - apply recover_with_extraction_spec in Hx; [|done..]. split; [done|]. intros _. split; [done|]. intros _. by apply nil_length_inv.
    - injection Hx as <- <-; by split; [apply recovered_same|].
    - injection Hx as <- <-; by split; [apply recovered_same|].
    - apply recover_with_extraction_spec in Hx; [|done..]. split; [done|]. by intros _. }
  destruct Hr as ((Hs' & Hst & Hr) & Halloc). split; [done|]. split; [done|]. intros Hintact content.
  destruct (Hr x eq_refl Hintact) as (y & s & -> & (start & c & Hstart & _ & Hsha & _ & Hc & _ & _ & Hexact & Hnone) & Hsize).
  destruct (Halloc Hintact) as [Ha Hempty]. destruct (Hnone eq_refl) as [Hgaps _].
  assert (start = 0%nat) as -> by (by destruct Hstart as [[_ ->]|[_ ->]]).
  assert (c = content) as ->.
  { rewrite (Hexact Hgaps). unfold extents_from, content. cbn [as_extractable_deleted ne_size_bytes ne_extents].
    destruct (bool_decide_reflect (ne_size_bytes entry = Some 0)) as [Hz|Hz]; [by rewrite (Hempty Hz)|done]. }
  by split.
Qed.

End extracting.

(** ** Concrete extractions *)

Definition ex_source (o : Z) : Z := o mod 256.
Definition ex_raw : nat -> Z -> Z -> raw_read := fun _ o n => RData (source_bytes ex_source o n).
(** A reader that fails from offset 10 on. *)
Definition bad_raw : nat -> Z -> Z -> raw_read := fun _ o n => if 10 <=? o then ROSError else RData (source_bytes ex_source o n).

Definition ex_extent (o n : Z) : Extent := {| ext_offset := o; ext_length := n; ext_sparse := false |}.
Definition ex_entry (type : string) (allocated : bool) (size : option Z) (extents : list Extent) : NormalizedEntry :=
  NE "entry-1" "vol" "obj" None None [97] "a" [97] "a" type [] None size allocated [] extents None [].
Definition ex_file : NormalizedEntry := ex_entry "file" true (Some 5) [ex_extent 0 3; ex_extent 10 2].
Definition ex_deleted : NormalizedEntry := ex_entry "deleted" false (Some 5) [ex_extent 0 3; ex_extent 10 2].

Definition ex_extract raw entry policy : disk * reader_state * outcome ExtractionResult :=
  extract_allocated_content raw (fun _ => None) ex_root 10000 (ex_env "one") entry (VInt 100) None policy ∅.

Lemma empty_sound : sound ex_root ∅.
Proof. split; [intros p b _|intros h|intros p b _]; by rewrite lookup_empty. Qed.

Lemma empty_distinct raw temperature policy entry : distinct_contents raw temperature ex_root policy entry ∅.
Proof. split; [|intros start]; intros content b _; unfold stored; by rewrite lookup_empty. Qed.

Lemma ex_raw_faithful : faithful ex_raw ex_source.
Proof. intros i o n b [= <-] _. done. Qed.

Lemma bad_raw_faithful : faithful bad_raw ex_source.
Proof. intros i o n b. unfold bad_raw. destruct (10 <=? o); [done|]. by intros [= <-]. Qed.

Definition ex_status (r : outcome ExtractionResult) : option string := match r with Ok x => Some (xr_status x) | Err _ => None end.

(** Under a policy the unreadable range becomes zeros, and the extraction is still complete. *)
Lemma extraction_exact_witness :
  exists x, (ex_extract bad_raw ex_file (Some demo_policy)).2 = Ok x /\ xr_status x = "complete" /\
    exists content, xr_sha256 x = Some (sha256_hex content) /\ zlen content = 5.
Proof.
  destruct (ex_extract bad_raw ex_file (Some demo_policy)) as [[d' s] r] eqn:Hx.
  assert (ex_status r = Some "complete") as Hst by (rewrite <- (f_equal snd Hx : _ = r); by vm_compute).
  destruct r as [x|e]; [|done]. injection Hst as Hst. exists x. split; [done|]. split; [done|].
  destruct (extraction_exact bad_raw (fun _ => None) ex_root 10000 ex_source bad_raw_faithful (ex_env "one") ex_file (VInt 100) None
              (Some demo_policy) ∅ d' s x) as (content & H2 & _ & _ & _ & H3).
  - by intros p [= <-].
  - apply empty_sound.
  - apply empty_distinct.
  - exact Hx.
  - unfold succeeded. rewrite Hst. left.
  - exists content. split; [done|]. destruct H3 as (start & Hr & _ & Hl & _); [done|]. by rewrite Hl, Hr.
Defined.

Lemma extraction_failure_clean_witness :
  ex_status (ex_extract bad_raw ex_file None).2 = Some "partial" /\ sound ex_root (ex_extract bad_raw ex_file None).1.1.
Proof.
  assert (ex_status (ex_extract bad_raw ex_file None).2 = Some "partial") as Hst by by vm_compute. split; [exact Hst|].
  destruct (ex_extract bad_raw ex_file None) as [[d' s] r] eqn:Hx. cbn [fst snd] in *.
  refine (proj1 (extraction_failure_clean bad_raw (fun _ => None) ex_root 10000 ex_source bad_raw_faithful (ex_env "one") ex_file (VInt 100)
           None None ∅ d' s r _ empty_sound (empty_distinct _ _ _ _) Hx _)); [done|].
  destruct r as [x|e]; [|done]. injection Hst as Hst. unfold succeeded. rewrite Hst, !elem_of_cons, elem_of_nil. by intros [?|[?|[]]].
Defined.

Lemma extraction_digest_witness : expected_sha256 ex_raw (fun _ => None) ex_file = Some (sha256_hex [0; 1; 2; 10; 11]).
Proof.
  destruct (ex_extract ex_raw ex_file None) as [[d' s] r] eqn:Hx.
  assert (ex_status r = Some "complete") as Hst by (rewrite <- (f_equal snd Hx : _ = r); by vm_compute).
  assert (match r with Ok x => xr_sha256 x | Err _ => None end = Some (sha256_hex [0; 1; 2; 10; 11])) as Hsha
    by (rewrite <- (f_equal snd Hx : _ = r); by vm_compute).
  destruct r as [x|e]; [|done]. injection Hst as Hst. rewrite <- Hsha.
  apply (extraction_digest ex_raw (fun _ => None) ex_root 10000 ex_source ex_raw_faithful (ex_env "one") ex_file (VInt 100) ∅ d' s x);
    [apply empty_sound|apply empty_distinct|done|exact Hx|unfold succeeded; rewrite Hst; left|exact Hst].
Defined.

Lemma intact_is_exact_witness :
  exists d', stored ex_root d' (sha256_hex [0; 1; 2; 10; 11]) [0; 1; 2; 10; 11].
Proof.
  destruct (recover_deleted_entry ex_raw (fun _ => None) ex_root 10000 (ex_env "one") ex_deleted (VInt 100) ∅) as [d' r] eqn:Hx.
  assert (match r with Ok x => Some (dr_recovery_state x) | Err _ => None end = Some "intact") as Hst
    by (rewrite <- (f_equal snd Hx : _ = r); by vm_compute).
  destruct r as [x|e]; [|done]. injection Hst as Hst. exists d'.
  destruct (intact_is_exact ex_raw (fun _ => None) ex_root 10000 ex_source ex_raw_faithful (ex_env "one") ex_deleted (VInt 100) ∅ d' x)
    as (_ & _ & Hi); [apply empty_sound|apply empty_distinct|exact Hx|].
  destruct (Hi Hst) as (_ & _ & Hs & _). exact Hs.
Defined.

(** The error of the store escapes for an empty file, while it is reported for any other. *)
Example empty_file_escapes :
  is_ok (extract_allocated_content ex_raw (fun _ => None) ex_root 10000
    {| pe_name := "x"; pe_meta_name := "x"; pe_available := fun _ => 1000; pe_open := Some "OSError"; pe_write := fun _ => None;
       pe_sync := None; pe_replace := None; pe_meta_write := None; pe_meta_replace := None; pe_unlink := None |}
    (ex_entry "file" true (Some 0) []) (VInt 100) None None ∅).2 = false /\
  is_ok (extract_allocated_content ex_raw (fun _ => None) ex_root 10000
    {| pe_name := "x"; pe_meta_name := "x"; pe_available := fun _ => 1000; pe_open := Some "OSError"; pe_write := fun _ => None;
       pe_sync := None; pe_replace := None; pe_meta_write := None; pe_meta_replace := None; pe_unlink := None |}
    ex_file (VInt 100) None None ∅).2 = true.
Proof. by vm_compute. Qed.
