(* ===== verification/CarvedIngestion.v ===== *)
(** * Ingestion of carved files (src/scanner/carved_ingestion.py)

    Files that PhotoRec left in the quarantine directory are ingested once they look finished:
    seen twice with the same size and time, or renamed with the suffix.  The theorems: a
    file is ready exactly then; and an ingestion that returns has stored the content of
    every file it calls ingested, under its digest and with the provenance of a carved file.

    The directory enters as the files below it with what [stat] and a read return; their order is
    computed here.  Reading a file does not fail once it is opened. *)

From Stdlib Require Import ZArith Lia String Ascii.
From stdpp Require Import base list strings gmap sorting.
From S2P Require Import Prelude PyStr Json Sha256 Identifiers Messages JsonLines Paths ScratchStore.

Local Open Scope string_scope.
Local Open Scope Z_scope.

(** scanner/carved_ingestion.py:14-19 CarvedIngestionError, and what the store raises. *)
Inductive ingestion_error := CarvedIngestionError (code : string) | IngestionRaise (e : scratch_error Empty_set).

Abbreviation outcome := (result ingestion_error).

(** A path below the quarantine directory: whether it is a link, whether a regular file, and what
    [stat] and a read give. *)
Record carved_file := {
  cf_path : pypath; cf_symlink : bool; cf_regular : bool; cf_size : Z; cf_mtime_ns : Z; cf_content : bytes }.

(** scanner/carved_ingestion.py:22-26 ObservedFile *)
Record ObservedFile := { of_path : pypath; of_size_bytes : Z; of_mtime_ns : Z }.

(** scanner/carved_ingestion.py:29-36 CarvedRecord *)
Record CarvedRecord := {
  cd_carved_id : string; cd_source_path : string; cd_scratch_object : option ScratchObject; cd_status : string;
  cd_provenance : mapping; cd_warnings : list string }.

(** The order of paths: component by component. *)
Fixpoint parts_le (l m : list string) : bool :=
  match l, m with
  | [], _ => true
  | _ :: _, [] => false
  | x :: l, y :: m => str_lt x y || (String.eqb x y && parts_le l m)
  end.
Definition path_le (a b : carved_file) : Prop := Is_true (parts_le (p_parts (cf_path a)) (p_parts (cf_path b))).

#[export] Instance path_le_dec a b : Decision (path_le a b).
Proof. unfold path_le. apply _. Defined.

Definition ends_with (suffix s : string) : bool :=
  bool_decide (drop (length (chars s) - length (chars suffix)) (chars s) = chars suffix).

(** The loop over the paths: what is ready, and what was observed. *)
Fixpoint scan_loop (previous current : list (string * ObservedFile)) (suffix : string) (ready : list carved_file) (l : list carved_file)
    : list carved_file * list (string * ObservedFile) :=
  match l with
  | [] => (ready, current)
  | f :: l =>
    if cf_symlink f || negb (cf_regular f) then scan_loop previous current suffix ready l
    else if ends_with suffix (path_name_of (cf_path f)) then scan_loop previous current suffix (ready ++ [f]) l
    else
      let key := path_str (cf_path f) in
      let observed := {| of_path := cf_path f; of_size_bytes := cf_size f; of_mtime_ns := cf_mtime_ns f |} in
      let current := dict_set current key observed in
      match dict_get previous key with
      | Some prior => if (of_size_bytes prior =? cf_size f) && (of_mtime_ns prior =? cf_mtime_ns f)
                      then scan_loop previous current suffix (ready ++ [f]) l
                      else scan_loop previous current suffix ready l
      | None => scan_loop previous current suffix ready l
      end
  end.

(** scanner/carved_ingestion.py:39-67 scan_carved_outputs *)
Definition scan_carved_outputs (exists_ : bool) (below : list carved_file) (previous : list (string * ObservedFile)) (suffix : string)
    : list carved_file * list (string * ObservedFile) :=
  if negb exists_ then ([], previous) else scan_loop previous [] suffix [] (merge_sort path_le below).

(** scanner/carved_ingestion.py:144-155 _provenance *)
Definition provenance (f : carved_file) (source_id : string) (carve_range : option (Z * Z)) : mapping :=
  ([("entry_kind", VStr "carved"); ("source_id", VStr source_id); ("carved_path_name", VStr (path_name_of (cf_path f)))] ++
   match carve_range with Some (o, n) => [("offset_bytes", VInt o); ("length_bytes", VInt n)] | None => [] end)%list.

(** scanner/carved_ingestion.py:158-160 _carved_id *)
Definition carved_id (f : carved_file) (digest_bytes : bytes) : string :=
  "carved-" +:+ str_take 32 (sha256_hex (utf8 (path_str (cf_path f)) ++ [0] ++ digest_bytes)%list).

(** scanner/carved_ingestion.py:135-141 _file_chunks: the chunks a read of the file gives. *)
Fixpoint file_chunks (fuel : nat) (content : bytes) : list (unit -> unit * result Empty_set chunk) :=
  match fuel, content with
  | S fuel, _ :: _ =>
    (fun s => (s, Ok (CBytes (take (Z.to_nat 1048576) content)))) :: file_chunks fuel (drop (Z.to_nat 1048576) content)
  | _, _ => []
  end.

Section ingestion.
Context `{Listing}.
Variable root : pypath.
Variable quota_bytes : Z.

(** scanner/carved_ingestion.py:70-111 ingest_carved_file *)
Definition ingest_carved_file (env : put_env) (f : carved_file) (source_id : string) (carve_range : option (Z * Z)) (d : disk)
    : disk * outcome CarvedRecord :=
  if cf_symlink f || negb (cf_regular f) then (d, Err (CarvedIngestionError "unsafe_carved_path"))
  else
    let prov := provenance f source_id carve_range in
    let record id object status warnings :=
      {| cd_carved_id := id; cd_source_path := path_str (cf_path f); cd_scratch_object := object; cd_status := status;
         cd_provenance := prov; cd_warnings := warnings |} in
    if cf_size f =? 0 then (d, Ok (record (carved_id f []) None "skipped" ["zero_length_carved_output"]))
    else
      let '(_, d, r) := put_bytes root quota_bytes env (file_chunks (length (cf_content f)) (cf_content f)) prov None (Some (cf_size f)) tt d in
      (d, match r with
          | Ok o => Ok (record (carved_id f (utf8 (so_sha256 o))) (Some o) "ingested" [])
          | Err (ScratchOSError class) => Ok (record (carved_id f []) None "partial" [class])
          | Err e => Err (IngestionRaise e)
          end).

(** The loop of [ingest_ready_outputs]: [envs] are the faults of the puts, one for each file. *)
Fixpoint ingest_loop (envs : nat -> put_env) (n : nat) (source_id : string) (seen : list string) (records : list CarvedRecord)
    (ready : list carved_file) (d : disk) : disk * outcome (list CarvedRecord) :=
  match ready with
  | [] => (d, Ok records)
  | f :: ready =>
    let key := path_str (cf_path f) in
    if bool_decide (key ∈ seen) then ingest_loop envs (S n) source_id seen records ready d
    else let (d, r) := ingest_carved_file (envs n) f source_id None d in
         match r with
         | Err e => (d, Err e)
         | Ok record => ingest_loop envs (S n) source_id (key :: seen) (records ++ [record])%list ready d
         end
  end.

(** scanner/carved_ingestion.py:114-132 ingest_ready_outputs *)
Definition ingest_ready_outputs (envs : nat -> put_env) (exists_ : bool) (below : list carved_file) (source_id : string)
    (previous : list (string * ObservedFile)) (already_ingested : list string) (d : disk)
    : disk * outcome (list CarvedRecord * list (string * ObservedFile)) :=
  let (ready, current) := scan_carved_outputs exists_ below previous ".done" in
  let (d, r) := ingest_loop envs 0 source_id already_ingested [] ready d in
  (d, records ← r; Ok (records, current)).

End ingestion.

(** ** Scanning *)

Definition finished (suffix : string) (previous : list (string * ObservedFile)) (f : carved_file) : bool :=
  negb (cf_symlink f) && cf_regular f &&
  (ends_with suffix (path_name_of (cf_path f)) ||
   match dict_get previous (path_str (cf_path f)) with
   | Some prior => (of_size_bytes prior =? cf_size f) && (of_mtime_ns prior =? cf_mtime_ns f)
   | None => false
   end).

Lemma scan_loop_ready previous current suffix ready l :
  (scan_loop previous current suffix ready l).1 = (ready ++ filter_b (finished suffix previous) l)%list.
Proof.
  revert current ready. induction l as [|f l IH]; intros current ready; cbn [scan_loop]; [by rewrite app_nil_r|].
  unfold filter_b in *. cbn [List.filter]. unfold finished at 1.
  destruct (cf_symlink f); cbn [orb negb andb]; [by rewrite IH|]. destruct (cf_regular f); cbn [orb negb andb]; [|by rewrite IH].
  destruct (ends_with _ _); cbn [orb]; [by rewrite IH, <- app_assoc|].
  destruct (dict_get previous _) as [p|]; [|by rewrite IH]. destruct (_ && _); rewrite IH; [by rewrite <- app_assoc|done].
Qed.

(** What a scan remembers: every plain file it saw, as it saw it. *)
Lemma scan_loop_current previous current suffix ready l key o :
  dict_get (scan_loop previous current suffix ready l).2 key = Some o ->
  dict_get current key = Some o \/ exists f, f ∈ l /\ key = path_str (cf_path f) /\ of_size_bytes o = cf_size f /\ of_mtime_ns o = cf_mtime_ns f.
Proof.
  revert current ready. induction l as [|f l IH]; intros current ready; cbn [scan_loop]; [by left|].
  assert (Hskip : forall c r, dict_get (scan_loop previous c suffix r l).2 key = Some o -> (dict_get c key = Some o \/
            exists g, g ∈ f :: l /\ key = path_str (cf_path g) /\ of_size_bytes o = cf_size g /\ of_mtime_ns o = cf_mtime_ns g)).
  { intros c r Hg. apply IH in Hg as [?|(g & Hg & ?)]; [by left|]. right. exists g. split; [by right|done]. }
  destruct (_ || _); [apply Hskip|]. destruct (ends_with _ _); [apply Hskip|].
  assert (Hset : forall r, dict_get (scan_loop previous (dict_set current (path_str (cf_path f))
            {| of_path := cf_path f; of_size_bytes := cf_size f; of_mtime_ns := cf_mtime_ns f |}) suffix r l).2 key = Some o ->
            (dict_get current key = Some o \/
             exists g, g ∈ f :: l /\ key = path_str (cf_path g) /\ of_size_bytes o = cf_size g /\ of_mtime_ns o = cf_mtime_ns g)).
  { intros r Hg. apply Hskip in Hg as [Hg|Hg]; [|by right]. rewrite dict_get_set in Hg.
    destruct (String.eqb_spec key (path_str (cf_path f))) as [->|Hne]; [|by left].
    injection Hg as <-. right. exists f. split; [left|done]. }
  destruct (dict_get previous _) as [p|]; [destruct (_ && _)|]; apply Hset.
Qed.

(** Only finished files are taken.  With nothing remembered, the first scan takes files with the
    suffix only.  A later scan takes a regular file exactly when it has the suffix or the scan
    before saw a file of that path with the same size and the same time. *)
Theorem scan_takes_finished below1 below2 suffix f :
  let first := scan_carved_outputs true below1 [] suffix in
  let second := scan_carved_outputs true below2 first.2 suffix in
  (f ∈ first.1 -> f ∈ below1 /\ cf_regular f = true /\ cf_symlink f = false /\ ends_with suffix (path_name_of (cf_path f)) = true) /\
  (f ∈ second.1 -> f ∈ below2 /\ cf_regular f = true /\ cf_symlink f = false /\
     (ends_with suffix (path_name_of (cf_path f)) = true \/
      exists g, g ∈ below1 /\ path_str (cf_path g) = path_str (cf_path f) /\ cf_size g = cf_size f /\ cf_mtime_ns g = cf_mtime_ns f)).
Proof.
  intros first second.
  assert (Hscan : forall below previous, f ∈ (scan_carved_outputs true below previous suffix).1 ->
            f ∈ below /\ finished suffix previous f = true).
  { intros below previous. unfold scan_carved_outputs. cbn [negb]. rewrite scan_loop_ready. cbn [app].
    rewrite elem_of_filter_b, merge_sort_Permutation. done. }
  split; intros Hf; apply Hscan in Hf as [Hin Hfin]; unfold finished in Hfin; rewrite !andb_true_iff, negb_true_iff, orb_true_iff in Hfin;
    destruct Hfin as [[Hsym Hreg] Hor].
  - destruct Hor as [Hor|Hor]; [done|]. by cbn in Hor.
  - split; [done|]. split; [done|]. split; [done|]. destruct Hor as [Hor|Hor]; [by left|]. right.
    destruct (dict_get first.2 _) as [o|] eqn:Eo; [|done]. unfold first, scan_carved_outputs in Eo. cbn [negb] in Eo.
    apply scan_loop_current in Eo as [Eo|(g & Hg & Hk & Hs & Hm)]; [done|]. exists g. rewrite merge_sort_Permutation in Hg.
    rewrite andb_true_iff, !Z.eqb_eq in Hor. split; [done|]. split; [done|]. lia.
Qed.

(** ** Ingesting *)

Lemma gather_file_chunks fuel content s :
  (length content <= fuel)%nat -> gather (file_chunks fuel content) s = (s, Some content).
Proof.
  revert content. induction fuel as [|fuel IH]; intros content Hl; [by destruct content; [|simpl in Hl; lia]|].
  destruct content as [|x content]; [done|].
  change (file_chunks (S fuel) (x :: content)) with
    ((fun s : unit => (s, @Ok Empty_set chunk (CBytes (take (Z.to_nat 1048576) (x :: content))))) ::
       file_chunks fuel (drop (Z.to_nat 1048576) (x :: content))).
  cbn [gather]. rewrite IH; [cbn [fmap option_fmap option_map]; by rewrite take_drop|].
  rewrite length_drop. assert (1 <= Z.to_nat 1048576)%nat by lia. simpl length in *. lia.
Qed.

Lemma wf_carved_provenance f source_id carve_range : wf_value (VDict (provenance f source_id carve_range)).
Proof.
  apply wf_dict_Forall. unfold provenance. destruct carve_range as [[o n]|].
  - split; [apply (bool_decide_unpack _); by vm_compute|by repeat constructor].
  - split; [apply (bool_decide_unpack _); by vm_compute|by repeat constructor].
Qed.

Section ingesting.
Context `{Listing}.
Variable root : pypath.
Variable quota_bytes : Z.

(** What ingested means.  When the ingestion of a file returns or raises, the store is sound and has kept
    its objects.  A record that says ingested stands for an object that holds the content of the
    file, whose size is the one [stat] gave; any other record, and an exception, leaves every metadata
    record as it was. *)
Theorem ingestion_exact env f source_id carve_range d d' r :
  sound root d -> (forall b, stored root d (sha256_hex (cf_content f)) b -> b = cf_content f) ->
  ingest_carved_file root quota_bytes env f source_id carve_range d = (d', r) ->
  sound root d' /\ (forall h b, stored root d h b -> stored root d' h b) /\
  match r with
  | Ok c => if String.eqb (cd_status c) "ingested"
            then stored root d' (sha256_hex (cf_content f)) (cf_content f) /\ cf_size f = zlen (cf_content f) /\ cf_size f <> 0 /\
                 exists o, cd_scratch_object c = Some o /\ so_sha256 o = sha256_hex (cf_content f) /\
                   last (so_provenance o) = Some (VDict (provenance f source_id carve_range))
            else forall h, load_metadata (E := Empty_set) root d' h = load_metadata root d h
  | Err _ => forall h, load_metadata (E := Empty_set) root d' h = load_metadata root d h
  end.
Proof.
  intros Hs Hcoll. unfold ingest_carved_file. destruct (_ || _); [intros [= <- <-]; by split|].
  destruct (Z.eqb_spec (cf_size f) 0) as [Hz|Hz]; [intros [= <- <-]; by split|].
  destruct (put_bytes _ _ _ _ _ _ _ _ _) as [[s1 d1] r1] eqn:Ep. pose proof (gather_file_chunks (length (cf_content f)) (cf_content f) tt (le_n _)) as Hg.
  apply put_bytes_spec in Ep; [|done|apply wf_carved_provenance|by rewrite Hg; intros c b [= <-]; apply Hcoll]. intros [= <- <-].
  destruct r1 as [o|e]; cbn [put_result] in Ep.
  - destruct Ep as (content & Hg' & _ & Hlen & H1 & H2 & _ & H4 & -> & _). rewrite Hg in Hg'. injection Hg' as <- <-.
    split; [done|]. split; [done|]. cbn [cd_status String.eqb Ascii.eqb Bool.eqb].
    split; [done|]. split; [symmetry; by apply Hlen|]. split; [done|]. eexists. split; [done|]. split; [done|].
    cbn [object_of so_provenance]. by rewrite last_snoc.
  - destruct (Ep Hs) as (H1 & H2 & H3). split; [done|]. split; [done|]. by destruct e.
Qed.

End ingesting.

(** ** Concrete files *)

Definition ex_carved (name : string) (size : Z) (content : bytes) : carved_file :=
  {| cf_path := PyPath "/" ["q"; name]; cf_symlink := false; cf_regular := true; cf_size := size; cf_mtime_ns := 7; cf_content := content |}.

Lemma ingestion_exact_witness :
  stored ex_root (ingest_carved_file ex_root 10000 (ex_env "one") (ex_carved "f1.jpg" 3 [1; 2; 3]) "src" None ∅).1
    (sha256_hex [1; 2; 3]) [1; 2; 3].
Proof.
  destruct (ingest_carved_file ex_root 10000 (ex_env "one") (ex_carved "f1.jpg" 3 [1; 2; 3]) "src" None ∅) as [d' r] eqn:Hx.
  assert (match r with Ok c => cd_status c | Err _ => "" end = "ingested") as Hst by (rewrite <- (f_equal snd Hx : _ = r); by vm_compute).
  destruct (ingestion_exact ex_root 10000 (ex_env "one") (ex_carved "f1.jpg" 3 [1; 2; 3]) "src" None ∅ d' r) as (_ & _ & Hr).
  - split; [intros p b _|intros h|intros p b _]; by rewrite lookup_empty.
  - intros b. unfold stored. by rewrite lookup_empty.
  - exact Hx.
  - destruct r as [c|e]; [|done]. rewrite Hst in Hr. cbn [String.eqb Ascii.eqb Bool.eqb] in Hr. apply Hr.
Defined.

Lemma scan_takes_finished_witness :
  exists g, g ∈ [ex_carved "f1.jpg" 3 [1; 2; 3]] /\ path_str (cf_path g) = "/q/f1.jpg".
Proof.
  destruct (scan_takes_finished [ex_carved "f1.jpg" 3 [1; 2; 3]] [ex_carved "f1.jpg" 3 [1; 2; 3]] ".done" (ex_carved "f1.jpg" 3 [1; 2; 3])) as [_ H2].
  destruct H2 as (_ & _ & _ & [Hd|(g & Hg & Hp & _)]).
  - vm_compute. left.
  - by vm_compute in Hd.
  - exists g. split; [exact Hg|]. rewrite Hp. by vm_compute.
Defined.

(** A file that grew after its [stat] ends the whole batch: the record of the file before it is lost, although
    its content is stored, and nothing says so. *)
Example changed_file_ends_the_batch :
  let old name size := (("/q/" +:+ name)%string, {| of_path := PyPath "/" ["q"; name]; of_size_bytes := size; of_mtime_ns := 7 |}) in
  let run := ingest_ready_outputs ex_root 10000 (fun _ => ex_env "one") true
               [ex_carved "f1.jpg" 3 [1; 2; 3]; ex_carved "f2.jpg" 3 [1; 2; 3; 4]] "src" [old "f1.jpg" 3; old "f2.jpg" 3] [] ∅ in
  run.2 = Err (IngestionRaise (ScratchStoreError "size_mismatch")) /\ stored ex_root run.1 (sha256_hex [1; 2; 3]) [1; 2; 3].
Proof. split; by vm_compute. Qed.

(** A file that was ingested and then gets the suffix is ingested again. *)
Example renamed_file_ingested_twice :
  let first := ingest_ready_outputs ex_root 10000 (fun _ => ex_env "one") true [ex_carved "f1.jpg" 3 [1; 2; 3]] "src"
                 [("/q/f1.jpg", {| of_path := PyPath "/" ["q"; "f1.jpg"]; of_size_bytes := 3; of_mtime_ns := 7 |})] [] ∅ in
  let second := ingest_ready_outputs ex_root 10000 (fun _ => ex_env "two") true [ex_carved "f1.jpg.done" 3 [1; 2; 3]] "src" [] ["/q/f1.jpg"] first.1 in
  match second.2 with Ok (records, _) => (fun c => (cd_status c, so_ref_count <$> cd_scratch_object c)) <$> records | Err _ => [] end
  = [("ingested", Some 2)].
Proof. by vm_compute. Qed.
