(* ===== verification/SecretStore.v ===== *)
(** * The secret store (src/shared/secret_store.py)

    Values live encrypted, one file for each, under a master key in a file of its own.  The cipher
    is third-party code: a class with its documented laws.  Random bytes are arguments, the
    directory is a map from names to contents and modes, and a write may fail at the open or stop
    after some bytes.  The theorems: a value that was put is the value that is got, and no other
    changes; the rotation of the master key keeps every value and moves every record to the new
    key; the permission audit of a store that was only used through this module is clean; and a
    rotation that stops between the key and the records loses them. *)

From Stdlib Require Import ZArith Lia String Ascii.
From stdpp Require Import base list strings gmap sorting fin_maps.
From S2P Require Import Prelude PyStr Json Sha256 Base64 Identifiers Messages JsonLines Paths.

Local Open Scope string_scope.
Local Open Scope Z_scope.

(** ** [json.dumps(d, sort_keys=True)] with the default separators, of a record of scalars *)

Definition dump_scalar (v : value) : option (list ascii) :=
  match v with VList _ | VDict _ => None | v => dump v end.

Definition spaced_pair (kv : string * value) : option (string * list ascii) :=
  match dump_scalar kv.2 with Some c => Some (kv.1, c) | None => None end.

Definition spaced_member (kc : string * list ascii) : list ascii := dump_string kc.1 ++ ":"%char :: " "%char :: kc.2.

Definition dump_spaced (d : list (string * value)) : option (list ascii) :=
  match sequence (map spaced_pair d) with
  | Some kcs => Some ("{"%char :: sep_by [","; " "]%char (spaced_member <$> sort_keys kcs) ++ ["}"%char])
  | None => None
  end.

Lemma parse_spaced_key n acc k x c r :
  dump x = Some c -> (length c < n)%nat -> wf_value x -> json_stop r ->
  parse_members (S n) acc (spaced_member (k, c) ++ r) =
  match skip_ws r with
  | [] => None
  | e :: r => if Ascii.eqb e "}"%char then Some (VDict (dict_set acc k (canon x)), r)
              else if Ascii.eqb e ","%char then parse_members n (dict_set acc k (canon x)) (skip_ws r)
              else None
  end.
Proof.
  intros Hc Hn Hw Hr. destruct (dump_head _ _ Hc) as (h & t & Ht & Hh & _).
  unfold spaced_member, dump_string. simpl app. rewrite parse_members_S.
  cbn [fst snd]. rewrite <- !app_assoc. simpl app. change (Ascii.eqb quote_char quote_char) with true.
  rewrite parse_string_dump. cbn iota. rewrite (skip_ws_head ":"%char) by done.
  change (Ascii.eqb ":" ":") with true. cbn iota.
  change (skip_ws (" "%char :: c ++ r)) with (skip_ws (c ++ r)).
  assert (skip_ws (c ++ r) = c ++ r)%list as -> by (rewrite Ht; by apply skip_ws_head).
  rewrite (parse_dump x Hw c n r Hc Hn Hr), of_chars_chars. done.
Qed.

Lemma parse_members_spaced d kcs acc n :
  Forall (fun kv => wf_value kv.2) d -> Forall2 (fun kv kc => dump_pair kv = Some kc) d kcs ->
  d <> [] -> NoDup (acc.*1 ++ d.*1) ->
  (length (sep_by [","; " "]%char (spaced_member <$> kcs)) + 1 < n)%nat ->
  parse_members n acc (sep_by [","; " "]%char (spaced_member <$> kcs) ++ ["}"%char])
  = Some (VDict (acc ++ (prod_map id canon <$> d)), []).
Proof.
  intros Hall Hf. revert acc n Hall.
  induction Hf as [|[k x] [k' c] d kcs Hv Hf IH]; intros acc n Hall Hne Hnd Hn; [done|].
  apply dump_pair_Some in Hv as [Hk Hc]; simpl in Hk, Hc; subst k'.
  apply Forall_cons in Hall as [Hp Hall]; simpl in Hp.
  assert (dict_set acc k (canon x) = (acc ++ [(k, canon x)])%list) as Hset.
  { apply dict_set_fresh. intros Hin. rewrite NoDup_app in Hnd.
    destruct Hnd as (_ & Hd & _). apply (Hd k Hin). simpl. left. }
  assert (length c < length (spaced_member (k, c)))%nat as Hlen.
  { unfold spaced_member, dump_string. simpl. rewrite !length_app. simpl. lia. }
  destruct n as [|n]; [lia|]. rewrite fmap_cons in *.
  destruct Hf as [|[k2 x2] [k2' c2] d kcs Hv2 Hf].
  - change (sep_by _ (spaced_member (k, c) :: (spaced_member <$> []))) with (spaced_member (k, c)) in *.
    rewrite (parse_spaced_key _ _ _ x) by (done || lia || apply json_stop_brace).
    rewrite skip_ws_head by done. change (Ascii.eqb "}" "}") with true. cbn iota. by rewrite Hset.
  - assert (Hsep : forall l, sep_by [","; " "]%char (spaced_member (k, c) :: (spaced_member <$> (k2', c2) :: l)) =
      (spaced_member (k, c) ++ ","%char :: " "%char :: sep_by [","; " "]%char (spaced_member <$> (k2', c2) :: l))%list) by done.
    rewrite Hsep in *. rewrite length_app in Hn. cbn [length] in Hn.
    rewrite <- app_assoc, <- !app_comm_cons.
    rewrite (parse_spaced_key _ _ _ x) by (done || lia || apply json_stop_comma).
    rewrite skip_ws_head by done. change (Ascii.eqb "," "}") with false. change (Ascii.eqb "," ",") with true. cbn iota.
    rewrite Hset.
    assert (exists t, spaced_member (k2', c2) = quote_char :: t) as [t Ht] by (unfold spaced_member, dump_string; simpl; eauto).
    destruct (sep_by_head [","; " "]%char quote_char t (spaced_member <$> kcs)) as [t' Ht'].
    rewrite <- Ht, <- fmap_cons in Ht'.
    match goal with |- context [skip_ws (" "%char :: ?l)] => change (skip_ws (" "%char :: l)) with (skip_ws l) end.
    assert (skip_ws (sep_by [","; " "]%char (spaced_member <$> (k2', c2) :: kcs) ++ ["}"%char]) =
            (sep_by [","; " "]%char (spaced_member <$> (k2', c2) :: kcs) ++ ["}"%char]))%list as ->.
    { rewrite Ht', <- app_comm_cons. by rewrite skip_ws_head. }
    rewrite IH; [by rewrite <- app_assoc|done|done| |lia].
    rewrite fmap_app. simpl. rewrite <- app_assoc. exact Hnd.
Qed.

Lemma dump_spaced_roundtrip d c :
  wf_value (VDict d) -> d <> [] -> dump_spaced d = Some c -> loads_chars c = Some (canon (VDict d)).
Proof.
  intros Hwf Hne. unfold dump_spaced. destruct (sequence _) as [kcs|] eqn:Hs; [|done]. intros [= <-].
  apply sequence_Forall2 in Hs. apply wf_dict_Forall in Hwf as [Hnd Hwf].
  assert (Forall2 (fun kv kc => dump_pair kv = Some kc) d kcs) as Hf.
  { eapply Forall2_impl; [exact Hs|]. intros [k x] [k' c] Hp. unfold spaced_pair in Hp. cbn in Hp.
    apply dump_pair_Some. cbn. unfold dump_scalar in Hp. destruct x; try done; by destruct (dump _); simplify_eq. }
  pose proof (dump_pairs_sort _ _ Hnd Hf) as Hss.
  assert (canon (VDict d) = VDict (prod_map id canon <$> sort_keys d)) as ->.
  { simpl. f_equal. rewrite <- sort_keys_fmap by done. f_equal. apply map_ext. by intros []. }
  assert (sort_keys d <> []) as Hne'.
  { intros E. apply Hne. pose proof (sort_keys_perm d) as Hp. rewrite E in Hp. by apply Permutation_nil_l in Hp. }
  assert (Forall (fun kv => wf_value kv.2) (sort_keys d)) as Hwf' by by rewrite sort_keys_perm.
  assert (NoDup (sort_keys d).*1) as Hnd' by by rewrite sort_keys_perm.
  pose proof (parse_members_spaced (sort_keys d) (sort_keys kcs) [] 
    (S (length (sep_by [","; " "]%char (spaced_member <$> sort_keys kcs) ++ ["}"%char]))) Hwf' Hss Hne' Hnd') as Hpm.
  unfold loads_chars. rewrite skip_ws_head by done. cbn [length parse_value].
  change (Ascii.eqb "{" quote_char) with false. change (Ascii.eqb "{" "[") with false. change (Ascii.eqb "{" "{") with true. cbn iota.
  destruct Hss as [|kv [k c] sd skcs Hv Hss]; [done|]. rewrite fmap_cons in *.
  assert (exists t, spaced_member (k, c) = quote_char :: t) as [t Ht] by (unfold spaced_member, dump_string; simpl; eauto).
  destruct (sep_by_head [","; " "]%char quote_char t (spaced_member <$> skcs)) as [t' Ht'].
  rewrite <- Ht in Ht'. rewrite Ht' in *. rewrite <- app_comm_cons in *. rewrite skip_ws_head by done.
  change (Ascii.eqb quote_char "}") with false. cbn iota.
  rewrite Hpm; [done|]. cbn [length]. rewrite length_app. cbn [length]. lia.
Qed.

Lemma dump_spaced_printable d c : dump_spaced d = Some c -> all_printable c.
Proof.
  unfold dump_spaced. destruct (sequence _) as [kcs|] eqn:Hs; [|done]. intros [= <-].
  apply sequence_Forall2 in Hs.
  assert (Forall (fun kc => all_printable kc.2) kcs) as Hk.
  { induction Hs as [|[k x] [k' c] d kcs Hp _ IH]; constructor; [|done]. unfold spaced_pair, dump_scalar in Hp. cbn in *.
    destruct x; try done; eapply dump_printable;
      match type of Hp with context [dump ?v] => instantiate (1 := v); by destruct (dump v); simplify_eq end. }
  assert (Forall all_printable (spaced_member <$> sort_keys kcs)) as Hm.
  { apply Forall_fmap. rewrite sort_keys_perm. eapply Forall_impl; [exact Hk|]. intros [k c] Hc. unfold compose, spaced_member.
    apply Forall_app; split; [apply printable_dump_string|]. do 2 (constructor; [done|]). exact Hc. }
  constructor; [done|]. apply Forall_app; split; [|by repeat constructor].
  apply printable_sep_by; [by repeat constructor|done].
Qed.

(** ** The cipher and the directory *)

Definition KEY_BYTES : Z := 32.
Definition NONCE_BYTES : Z := 12.
(** shared/secret_store.py:20-20 SECRET_REF_PREFIX *)
Definition SECRET_REF_PREFIX : string := "vault:".
(** shared/secret_store.py:21-21 MASKED_VALUE *)
Definition MASKED_VALUE : string := "********".

(** [AESGCM(key)] of the package cryptography: [encrypt(nonce, data, associated)] and [decrypt],
    which raises [InvalidTag] where the model has [None]. *)
Class Aead := {
  aes_encrypt : bytes -> bytes -> bytes -> bytes -> bytes;
  aes_decrypt : bytes -> bytes -> bytes -> bytes -> option bytes }.

(** What is documented of it: decryption undoes encryption, and the tag takes 16 bytes. *)
Class AeadLaws `{Aead} := {
  aes_correct k n p a : wf_bytes p -> aes_decrypt k n (aes_encrypt k n p a) a = Some p;
  aes_length k n p a : zlen (aes_encrypt k n p a) = zlen p + 16;
  aes_wf k n p a : wf_bytes p -> wf_bytes (aes_encrypt k n p a) }.

Record file := File { f_bytes : bytes; f_mode : Z }.

(** shared/secret_store.py:47-52 SecretStore.__init__: the files of [secret_dir] by name, the file of the
    master key, the modes of the two directories, and the key in memory. *)
Record store := Store {
  st_secrets : gmap string file; st_key_file : option file; st_root_mode : Z; st_dir_mode : Z; st_key : bytes }.

(** shared/secret_store.py:24-25 SecretStoreError, and the exceptions of the interpreter and of the
    system that the module lets pass. *)
Inductive store_failure :=
  | SecretStoreError (message : string)
  | StoreUnicodeError
  | StoreOSError.

Abbreviation reply := (result store_failure).

(** shared/secret_store.py:28-33 SecretMetadata *)
Record SecretMetadata := { sm_ref : string; sm_label : string; sm_key_version : Z; sm_masked_value : string }.

(** How a write ends: done, refused at the open, or stopped after [n] bytes. *)
Inductive write_fault := Written | OpenRefused | StopsAfter (n : nat).

(** shared/secret_store.py:216-220 _write_private_bytes: a new file gets mode 0o600, an old one keeps
    its mode until the [chmod] after the write. *)
Definition write_private (old : option file) (data : bytes) (fault : write_fault) : option file * bool :=
  match fault with
  | Written => (Some (File data 384), true)
  | OpenRefused => (old, false)
  | StopsAfter n => (Some (File (take n data) (match old with Some f => f_mode f | None => 384 end)), false)
  end.

(** ** References and records *)

(** shared/secret_store.py:180-186 _path_for_ref: the name of the file. *)
Definition path_for_ref (ref : string) : reply string :=
  _ ← raise_if (negb (starts_with SECRET_REF_PREFIX ref)) (SecretStoreError "secret reference must be opaque vault reference");
  let name := str_drop (str_len SECRET_REF_PREFIX) ref in
  _ ← raise_if (negb (str_len name =? 32) || existsb (fun c => negb (is_hex_lower c)) (chars name))
        (SecretStoreError "secret reference is malformed");
  Ok (name +:+ ".json").

(** shared/secret_store.py:189-198 _associated_data *)
Definition associated_data (payload : list (string * value)) : bytes :=
  utf8 (default "" (dumps (VDict [("key_version", get_or_none payload "key_version"); ("label", get_or_none payload "label");
                                  ("nonce", get_or_none payload "nonce")]))).

(** shared/secret_store.py:205-213 _decode *)
Definition decode_field (v : value) : reply bytes :=
  match v with
  | VStr s => match b64decode_strict s with
              | Some b => Ok b
              | None => Err (SecretStoreError "secret record contains invalid encoded field")
              end
  | _ => Err (SecretStoreError "secret record contains invalid encoded field")
  end.

(** The bytes of a text file: [json.loads(path.read_text(encoding="utf-8"))]; [None] for the JSON error. *)
Definition read_json (raw : bytes) : reply (option value) :=
  match utf8_decode raw with
  | None => Err StoreUnicodeError
  | Some text => Ok (loads_chars text)
  end.

Definition is_str (v : value) : bool := match v with VStr _ => true | _ => false end.

(** shared/secret_store.py:157-178 _read_payload *)
Definition read_payload (st : store) (ref : string) : reply (list (string * value)) :=
  path ← path_for_ref ref;
  match st_secrets st !! path with
  | None => Err (SecretStoreError "secret reference cannot be read")
  | Some f =>
    data ← read_json (f_bytes f);
    match data with
    | None => Err (SecretStoreError "secret reference cannot be read")
    | Some (VDict data) =>
      _ ← raise_if (negb (is_str (get_or_none data "label")
                          && match get_or_none data "key_version" with VInt z => 1 <=? z | _ => false end
                          && is_str (get_or_none data "nonce") && is_str (get_or_none data "ciphertext")))
            (SecretStoreError "secret record is malformed");
      nonce ← decode_field (get_or_none data "nonce");
      ciphertext ← decode_field (get_or_none data "ciphertext");
      _ ← raise_if (negb (zlen nonce =? NONCE_BYTES) || (zlen ciphertext <? 16))
            (SecretStoreError "secret record contains invalid encrypted data");
      Ok data
    | Some _ => Err (SecretStoreError "secret record is malformed")
    end
  end.

Section store.
Context `{Aead}.

(** shared/secret_store.py:147-155 _encrypt_payload *)
Definition encrypt_payload (key : bytes) (label value : string) (key_version : Z) (nonce : bytes) : list (string * Json.value) :=
  let plaintext := utf8 (default "" (dumps (VDict [("value", VStr value)]))) in
  let metadata := [("label", VStr label); ("key_version", VInt key_version); ("nonce", VStr (urlsafe_b64encode nonce))] in
  (metadata ++ [("ciphertext", VStr (urlsafe_b64encode (aes_encrypt key nonce plaintext (associated_data metadata))))])%list.

(** shared/secret_store.py:223-224 _write_private_json: the bytes. *)
Definition record_bytes (payload : list (string * Json.value)) : bytes := utf8 (of_chars (default [] (dump_spaced payload))).

(** Write one record of the store. *)
Definition write_record (st : store) (ref : string) (payload : list (string * Json.value)) (fault : write_fault)
    : store * reply unit :=
  match path_for_ref ref with
  | Err e => (st, Err e)
  | Ok path =>
    let (f, done) := write_private (st_secrets st !! path) (record_bytes payload) fault in
    (Store (partial_alter (fun _ => f) path (st_secrets st)) (st_key_file st) (st_root_mode st) (st_dir_mode st) (st_key st),
     if done then Ok tt else Err StoreOSError)
  end.

(** shared/secret_store.py:54-59 put: [name] is [secrets.token_hex(16)]. *)
Definition put (st : store) (label value name : string) (nonce : bytes) (fault : write_fault) : store * reply SecretMetadata :=
  let ref := SECRET_REF_PREFIX +:+ name in
  let (st, r) := write_record st ref (encrypt_payload (st_key st) label value 1 nonce) fault in
  (st, _ ← r; Ok {| sm_ref := ref; sm_label := label; sm_key_version := 1; sm_masked_value := MASKED_VALUE |}).

(** shared/secret_store.py:61-78 get *)
Definition get (st : store) (ref : string) : reply string :=
  payload ← read_payload st ref;
  nonce ← decode_field (get_or_none payload "nonce");
  ciphertext ← decode_field (get_or_none payload "ciphertext");
  match aes_decrypt (st_key st) nonce ciphertext (associated_data payload) with
  | None => Err (SecretStoreError "secret cannot be decrypted with this master key")
  | Some plaintext =>
    match utf8_decode plaintext with
    | None => Err (SecretStoreError "secret record plaintext is malformed")
    | Some text =>
      match loads_chars text with
      | Some (VDict data) => match get_or_none data "value" with
                             | VStr value => Ok value
                             | _ => Err (SecretStoreError "secret record plaintext is malformed")
                             end
      | _ => Err (SecretStoreError "secret record plaintext is malformed")
      end
    end
  end.

(** shared/secret_store.py:80-86 metadata *)
Definition metadata (st : store) (ref : string) : reply SecretMetadata :=
  payload ← read_payload st ref;
  Ok {| sm_ref := ref; sm_label := match get_or_none payload "label" with VStr s => s | _ => "" end;
        sm_key_version := match get_or_none payload "key_version" with VInt z => z | _ => 0 end;
        sm_masked_value := MASKED_VALUE |}.

(** [self.secret_dir.glob("*.json")]: the directory lists its names in some order. *)
Definition json_name (name : string) : bool :=
  bool_decide (drop (length (chars name) - 5) (chars name) = chars ".json").

Definition record_names (order : list string -> list string) (st : store) : list string :=
  filter_b json_name (order ((map_to_list (st_secrets st)).*1)).

(** shared/secret_store.py:89-90 rotate_master_key: the records read before anything is written. *)
Definition read_all (order : list string -> list string) (st : store) : reply (list (string * SecretMetadata * string)) :=
  mapM_result (fun name =>
    let ref := SECRET_REF_PREFIX +:+ name_stem name in
    m ← metadata st ref; v ← get st ref; Ok (ref, m, v)) (record_names order st).

(** The records written under the new key, until a write fails. *)
Fixpoint rewrite_all (st : store) (nonce_of : string -> bytes) (fault_of : string -> write_fault)
    (l : list (string * SecretMetadata * string)) : store * reply unit :=
  match l with
  | [] => (st, Ok tt)
  | (ref, m, v) :: rest =>
    let (st, r) := write_record st ref (encrypt_payload (st_key st) (sm_label m) v (sm_key_version m + 1) (nonce_of ref)) (fault_of ref) in
    match r with
    | Err e => (st, Err e)
    | Ok _ => rewrite_all st nonce_of fault_of rest
    end
  end.

(** shared/secret_store.py:88-99 rotate_master_key *)
Definition rotate_master_key (order : list string -> list string) (st : store) (new_key : bytes) (key_fault : write_fault)
    (nonce_of : string -> bytes) (fault_of : string -> write_fault) : store * reply unit :=
  match read_all order st with
  | Err e => (st, Err e)
  | Ok decrypted =>
    let (key_file, done) := write_private (st_key_file st) new_key key_fault in
    let st := Store (st_secrets st) key_file (st_root_mode st) (st_dir_mode st) new_key in
    if done then rewrite_all st nonce_of fault_of decrypted else (st, Err StoreOSError)
  end.

(** shared/secret_store.py:101-102 delete *)
Definition delete (st : store) (ref : string) : store * reply unit :=
  match path_for_ref ref with
  | Err e => (st, Err e)
  | Ok path => (Store (base.delete path (st_secrets st)) (st_key_file st) (st_root_mode st) (st_dir_mode st) (st_key st), Ok tt)
  end.

(** shared/secret_store.py:104-117 redacted_snapshot *)
Definition redacted_snapshot (order : list string -> list string) (st : store) : reply (list (list (string * Json.value))) :=
  records ← mapM_result (fun name => metadata st (SECRET_REF_PREFIX +:+ name_stem name)) (record_names order st);
  Ok ((fun m => [("ref", VStr (sm_ref m)); ("label", VStr (sm_label m)); ("key_version", VInt (sm_key_version m));
                 ("value", VStr (sm_masked_value m))])
      <$> merge_sort (fun a b => String.le (sm_ref a) (sm_ref b)) records).

(** shared/secret_store.py:36-41 PermissionAudit, of the file at a path. *)
Record PermissionAudit := { pa_path : string; pa_mode : Z; pa_expected_mode : Z; pa_ok : bool }.

Definition audit_of (path : string) (mode expected : Z) : PermissionAudit :=
  {| pa_path := path; pa_mode := mode; pa_expected_mode := expected; pa_ok := mode =? expected |}.

(** shared/secret_store.py:119-128 audit_permissions *)
Definition audit_permissions (order : list string -> list string) (st : store) : reply (list PermissionAudit) :=
  match st_key_file st with
  | None => Err StoreOSError
  | Some key_file =>
    Ok (audit_of "root" (st_root_mode st) 448 :: audit_of "secrets" (st_dir_mode st) 448 ::
        audit_of "master.key" (f_mode key_file) 384 ::
        omap (fun name => f ← st_secrets st !! name; Some (audit_of name (f_mode f) 384)) (record_names order st))
  end.

(** shared/secret_store.py:130-145 _prepare_paths and _load_or_create_key: opening a store on a
    directory. *)
Definition open_store (secrets : gmap string file) (key_file : option file) (new_key : bytes) (fault : write_fault)
    : (gmap string file * option file) * reply store :=
  match key_file with
  | Some f =>
    if zlen (f_bytes f) =? KEY_BYTES
    then ((secrets, Some (File (f_bytes f) 384)), Ok (Store secrets (Some (File (f_bytes f) 384)) 448 448 (f_bytes f)))
    else ((secrets, Some f), Err (SecretStoreError "master key has invalid length"))
  | None =>
    let (f, done) := write_private None new_key fault in
    ((secrets, f), if done then Ok (Store secrets f 448 448 new_key) else Err StoreOSError)
  end.

End store.

(** ** References *)

Definition valid_name (name : string) : Prop := str_len name = 32 /\ forallb is_hex_lower (chars name) = true.

Lemma starts_with_split p s : starts_with p s = true -> s = p +:+ str_drop (str_len p) s.
Proof.
  unfold str_drop, str_len. rewrite Nat2Z.id. revert s.
  induction p as [|c p IH]; intros s; cbn [String.length drop].
  - by rewrite drop_0, of_chars_chars.
  - destruct s as [|d s]; [done|]. rewrite starts_with_cons_eq. intros [->%Ascii.eqb_eq Hp]%andb_true_iff.
    rewrite (IH s Hp) at 1. reflexivity.
Qed.

Lemma path_for_ref_spec ref path :
  path_for_ref ref = Ok path <-> exists name, valid_name name /\ ref = SECRET_REF_PREFIX +:+ name /\ path = name +:+ ".json".
Proof.
  assert (Hname : forall name, path_for_ref (SECRET_REF_PREFIX +:+ name) =
    if negb (str_len name =? 32) || existsb (fun c => negb (is_hex_lower c)) (chars name)
    then Err (SecretStoreError "secret reference is malformed") else Ok (name +:+ ".json")).
  { intros name. unfold path_for_ref.
    assert (starts_with SECRET_REF_PREFIX (SECRET_REF_PREFIX +:+ name) = true) as -> by by destruct name.
    assert (str_drop (str_len SECRET_REF_PREFIX) (SECRET_REF_PREFIX +:+ name) = name) as ->.
    { unfold str_drop. rewrite chars_app. apply of_chars_chars. }
    cbn [negb raise_if mbind result_bind]. by destruct (_ || _). }
  assert (Hvalid : forall name, negb (str_len name =? 32) || existsb (fun c => negb (is_hex_lower c)) (chars name) = false <-> valid_name name).
  { intros name. unfold valid_name. rewrite orb_false_iff, negb_false_iff, Z.eqb_eq. apply and_iff_compat_l.
    rewrite <- not_true_iff_false, existsb_elem, forallb_elem. split.
    - intros Hno c Hc. destruct (is_hex_lower c) eqn:E; [done|]. exfalso. apply Hno. exists c. by rewrite E.
    - intros Hall (c & Hc & Hx). by rewrite (Hall c Hc) in Hx. }
  split.
  - intros H. assert (Hs : starts_with SECRET_REF_PREFIX ref = true).
    { unfold path_for_ref in H. by destruct (starts_with SECRET_REF_PREFIX ref). }
    apply starts_with_split in Hs. rewrite Hs, Hname in H. destruct (_ || _) eqn:E; [done|]. injection H as <-.
    eexists. split; [by apply Hvalid|]. by split.
  - intros (name & Hv%Hvalid & -> & ->). by rewrite Hname, Hv.
Qed.

Lemma stem_of_path name : valid_name name -> name_stem (name +:+ ".json") = name /\ json_name (name +:+ ".json") = true.
Proof.
  intros [Hl _]. assert (chars name <> []) as Hne by by intros E; destruct name.
  unfold name_stem, json_name. rewrite chars_app. split.
  - rewrite reverse_app.
    change (reverse (chars ".json") ++ reverse (chars name))%list
      with (["n"; "o"; "s"; "j"]%char ++ "."%char :: reverse (chars name))%list.
    rewrite split_at_char_app.
    + rewrite bool_decide_false by done. rewrite bool_decide_false; [by rewrite reverse_involutive, of_chars_chars|].
      intros E. apply Hne. rewrite <- (reverse_involutive (chars name)). by rewrite E.
    + apply (bool_decide_unpack _). by vm_compute.
  - apply bool_decide_eq_true. rewrite length_app. change (length (chars ".json")) with 5%nat.
    replace (length (chars name) + 5 - 5)%nat with (length (chars name)) by lia. by rewrite drop_app_length.
Qed.

(** ** One record *)

Section laws.
Context `{AeadLaws}.

(** The file holds this secret under [key]. *)
Definition holds (key : bytes) (f : file) (s : string * Z * string) : Prop :=
  let '(label, version, value) := s in
  f_mode f = 384 /\ 1 <= version /\
  exists nonce, zlen nonce = NONCE_BYTES /\ wf_bytes nonce /\
    f_bytes f = record_bytes (encrypt_payload key label value version nonce).

Lemma payload_wf key label value version nonce :
  let p := encrypt_payload key label value version nonce in wf_value (VDict p) /\ NoDup p.*1.
Proof.
  intros p. assert (NoDup p.*1) as Hn by (apply (bool_decide_unpack _); by vm_compute).
  split; [|done]. apply wf_dict_Forall. split; [done|]. repeat constructor.
Qed.

Lemma payload_dumps key label value version nonce :
  exists c, dump_spaced (encrypt_payload key label value version nonce) = Some c.
Proof. by eexists. Qed.

Lemma record_text key label value version nonce :
  let p := encrypt_payload key label value version nonce in
  read_json (record_bytes p) = Ok (Some (VDict (sort_keys (prod_map id canon <$> p)))).
Proof.
  intros p. destruct (payload_dumps key label value version nonce) as [c Hc]. unfold record_bytes, read_json. fold p in Hc. rewrite Hc.
  cbn [from_option id]. pose proof (dump_spaced_printable _ _ Hc) as Hp.
  assert (utf8_decode (utf8 (of_chars c)) = Some c) as ->.
  { unfold utf8. rewrite chars_of_chars. pose proof (utf8_decode_printable c [] Hp) as Hd. rewrite app_nil_r in Hd.
    rewrite Hd. cbn. by rewrite app_nil_r. }
  do 2 f_equal. rewrite (dump_spaced_roundtrip p c); [|apply payload_wf|done|done].
  change (canon (VDict p)) with (VDict (sort_keys (map (fun '(k, x) => (k, canon x)) p))). do 3 f_equal.
Qed.

Lemma read_payload_held st ref path f key label version value :
  path_for_ref ref = Ok path -> st_secrets st !! path = Some f -> holds key f (label, version, value) ->
  exists d nonce, read_payload st ref = Ok d /\ zlen nonce = NONCE_BYTES /\ wf_bytes nonce /\
    forall k, get_or_none d k = get_or_none (encrypt_payload key label value version nonce) k.
Proof.
  intros Hp Hf (_ & Hv & nonce & Hn & Hw & Hb). unfold read_payload. rewrite Hp. cbn [mbind result_bind]. rewrite Hf, Hb, record_text.
  cbn [mbind result_bind]. set (p := encrypt_payload key label value version nonce).
  assert (Hget : forall k, get_or_none (sort_keys (prod_map id canon <$> p)) k = get_or_none p k).
  { intros k. rewrite get_or_none_canon by apply (payload_wf key label value version nonce). unfold p, get_or_none, encrypt_payload.
    cbn [app dict_get]. by repeat destruct (String.eqb k _). }
  rewrite !Hget.
  change (get_or_none p "label") with (VStr label). change (get_or_none p "key_version") with (VInt version).
  change (get_or_none p "nonce") with (VStr (urlsafe_b64encode nonce)).
  assert (exists ct, get_or_none p "ciphertext" = VStr (urlsafe_b64encode ct) /\ wf_bytes ct /\ 16 <= zlen ct) as (ct & -> & Hct & Hlen).
  { eexists. split; [reflexivity|]. split; [apply aes_wf, wf_utf8|]. rewrite aes_length. pose proof (zlen_nonneg (utf8 (default "" (dumps (VDict [("value", VStr value)]))))). lia. }
  cbn [is_str andb negb decode_field]. assert (1 <=? version = true) as -> by lia.
  cbn [raise_if mbind result_bind]. rewrite !strict_roundtrip by done. cbn [raise_if mbind result_bind].
  rewrite Hn, Z.eqb_refl. assert (zlen ct <? 16 = false) as -> by lia. cbn [negb orb raise_if mbind result_bind].
  exists (sort_keys (prod_map id canon <$> p)), nonce. done.
Qed.

Lemma metadata_held st ref path f key label version value :
  path_for_ref ref = Ok path -> st_secrets st !! path = Some f -> holds key f (label, version, value) ->
  metadata st ref = Ok {| sm_ref := ref; sm_label := label; sm_key_version := version; sm_masked_value := MASKED_VALUE |}.
Proof.
  intros Hp Hf Hh. destruct (read_payload_held _ _ _ _ _ _ _ _ Hp Hf Hh) as (d & nonce & Hr & _ & _ & Hg).
  unfold metadata. rewrite Hr. cbn [mbind result_bind]. by rewrite !Hg.
Qed.

Lemma associated_same d e : (forall k, get_or_none d k = get_or_none e k) -> associated_data d = associated_data e.
Proof. intros Hg. unfold associated_data. by rewrite !Hg. Qed.

Lemma plaintext_value value :
  utf8_decode (utf8 (default "" (dumps (VDict [("value", VStr value)])))) = Some (chars (default "" (dumps (VDict [("value", VStr value)])))) /\
  loads_chars (chars (default "" (dumps (VDict [("value", VStr value)])))) = Some (VDict [("value", VStr value)]).
Proof.
  assert (exists s, dumps (VDict [("value", VStr value)]) = Some s) as [s Hs] by by eexists. rewrite Hs. cbn [from_option id].
  split; [by eapply utf8_decode_dumps|].
  assert (wf_value (VDict [("value", VStr value)])) as Hw by (apply wf_dict_Forall; split; repeat constructor; by intros ?%elem_of_nil).
  exact (loads_dumps _ _ Hw Hs).
Qed.

Lemma get_held st ref path f key label version value :
  path_for_ref ref = Ok path -> st_secrets st !! path = Some f -> holds key f (label, version, value) ->
  (st_key st = key -> get st ref = Ok value) /\
  ((forall n p a, aes_decrypt (st_key st) n (aes_encrypt key n p a) a = None) ->
   get st ref = Err (SecretStoreError "secret cannot be decrypted with this master key")).
Proof.
  intros Hp Hf Hh. destruct (read_payload_held _ _ _ _ _ _ _ _ Hp Hf Hh) as (d & nonce & Hr & _ & Hw & Hg).
  unfold get. rewrite Hr. cbn [mbind result_bind]. rewrite !Hg, (associated_same _ _ Hg).
  set (p := encrypt_payload key label value version nonce).
  change (get_or_none p "nonce") with (VStr (urlsafe_b64encode nonce)).
  assert (get_or_none p "ciphertext" = VStr (urlsafe_b64encode (aes_encrypt key nonce (utf8 (default "" (dumps (VDict [("value", VStr value)])))) (associated_data p)))) as -> by done.
  cbn [decode_field]. rewrite !strict_roundtrip by (done || apply aes_wf, wf_utf8). cbn [mbind result_bind].
  split.
  - intros ->. rewrite aes_correct by apply wf_utf8. destruct (plaintext_value value) as [-> ->]. done.
  - intros Hno. by rewrite Hno.
Qed.

(** ** The store as a map *)

(** The abstract vault: label, key version and value by file name. *)
Abbreviation vault := (gmap string (string * Z * string)).

Definition represents (st : store) (m : vault) : Prop :=
  st_root_mode st = 448 /\ st_dir_mode st = 448 /\
  st_key_file st = Some (File (st_key st) 384) /\ zlen (st_key st) = KEY_BYTES /\
  (forall path, option_Forall2 (holds (st_key st)) (st_secrets st !! path) (m !! path)) /\
  (forall path, is_Some (m !! path) -> exists name, valid_name name /\ path = name +:+ ".json").

Definition look (m : vault) (ref : string) : reply (string * Z * string) :=
  path ← path_for_ref ref;
  match m !! path with Some s => Ok s | None => Err (SecretStoreError "secret reference cannot be read") end.

Lemma represents_lookup st m path s :
  represents st m -> m !! path = Some s -> exists f, st_secrets st !! path = Some f /\ holds (st_key st) f s.
Proof. intros (_ & _ & _ & _ & Hall & _) Hm. specialize (Hall path). rewrite Hm in Hall. inversion Hall; eauto. Qed.

Lemma represents_none st m path : represents st m -> m !! path = None -> st_secrets st !! path = None.
Proof. intros (_ & _ & _ & _ & Hall & _) Hm. specialize (Hall path). rewrite Hm in Hall. by inversion Hall. Qed.

Lemma get_represents st m ref : represents st m -> get st ref = (s ← look m ref; Ok s.2).
Proof.
  intros Hr. unfold look. destruct (path_for_ref ref) as [path|e] eqn:Hp; cbn [mbind result_bind].
  - destruct (m !! path) as [[[label version] value]|] eqn:Hm; cbn [mbind result_bind].
    + destruct (represents_lookup _ _ _ _ Hr Hm) as (f & Hf & Hh). by apply (get_held _ _ _ _ _ _ _ _ Hp Hf Hh).
    + unfold get, read_payload. rewrite Hp. cbn [mbind result_bind]. by rewrite (represents_none _ _ _ Hr Hm).
  - unfold get, read_payload. by rewrite Hp.
Qed.

Lemma metadata_represents st m ref :
  represents st m ->
  metadata st ref = (s ← look m ref; Ok {| sm_ref := ref; sm_label := s.1.1; sm_key_version := s.1.2; sm_masked_value := MASKED_VALUE |}).
Proof.
  intros Hr. unfold look. destruct (path_for_ref ref) as [path|e] eqn:Hp; cbn [mbind result_bind].
  - destruct (m !! path) as [[[label version] value]|] eqn:Hm; cbn [mbind result_bind].
    + destruct (represents_lookup _ _ _ _ Hr Hm) as (f & Hf & Hh). by apply (metadata_held _ _ _ _ _ _ _ _ Hp Hf Hh).
    + unfold metadata, read_payload. rewrite Hp. cbn [mbind result_bind]. by rewrite (represents_none _ _ _ Hr Hm).
  - unfold metadata, read_payload. by rewrite Hp.
Qed.

(** Writing a record of the current key. *)
Lemma write_record_ok st ref path label value version nonce :
  path_for_ref ref = Ok path -> zlen nonce = NONCE_BYTES -> wf_bytes nonce -> 1 <= version ->
  let r := write_record st ref (encrypt_payload (st_key st) label value version nonce) Written in
  r.2 = Ok tt /\ st_key r.1 = st_key st /\ st_key_file r.1 = st_key_file st /\ st_root_mode r.1 = st_root_mode st /\
  st_dir_mode r.1 = st_dir_mode st /\ (forall p, p <> path -> st_secrets r.1 !! p = st_secrets st !! p) /\
  exists f, st_secrets r.1 !! path = Some f /\ holds (st_key st) f (label, version, value).
Proof.
  intros Hp Hn Hw Hv r. unfold r, write_record. rewrite Hp. cbn. split_and!; try done.
  - intros p Hne. by rewrite lookup_partial_alter_ne.
  - eexists. split; [by rewrite lookup_partial_alter_eq|]. split; [done|]. split; [done|]. by exists nonce.
Qed.

(** ** Commands *)

Inductive command :=
  | Put (label value name : string) (nonce : bytes)
  | Rotate (new_key : bytes) (nonce_of : string -> bytes)
  | Delete (ref : string).

Definition allowed (c : command) : Prop :=
  match c with
  | Put _ _ name nonce => valid_name name /\ zlen nonce = NONCE_BYTES /\ wf_bytes nonce
  | Rotate key nonce_of => zlen key = KEY_BYTES /\ forall ref, zlen (nonce_of ref) = NONCE_BYTES /\ wf_bytes (nonce_of ref)
  | Delete ref => is_ok (path_for_ref ref) = true
  end.

Variable order : list string -> list string.
Hypothesis order_perm : forall l, order l ≡ₚ l.

(** A command whose writes succeed. *)
Definition exec (st : store) (c : command) : store * reply unit :=
  match c with
  | Put label value name nonce => let (st, r) := put st label value name nonce Written in (st, _ ← r; Ok tt)
  | Rotate key nonce_of => rotate_master_key order st key Written nonce_of (fun _ => Written)
  | Delete ref => delete st ref
  end.

Definition bump (s : string * Z * string) : string * Z * string := let '(l, v, x) := s in (l, v + 1, x).

(** What it does to the vault. *)
Definition spec (m : vault) (c : command) : vault :=
  match c with
  | Put label value name _ => <[name +:+ ".json" := (label, 1, value)]> m
  | Rotate _ _ => bump <$> m
  | Delete ref => match path_for_ref ref with Ok path => base.delete path m | Err _ => m end
  end.

Lemma ref_of_path path : (exists name, valid_name name /\ path = name +:+ ".json") ->
  path_for_ref (SECRET_REF_PREFIX +:+ name_stem path) = Ok path /\ json_name path = true.
Proof.
  intros (name & Hv & ->). destruct (stem_of_path name Hv) as [-> ->]. split; [|done]. apply path_for_ref_spec. by exists name.
Qed.

Lemma record_names_spec st m : represents st m ->
  NoDup (record_names order st) /\ forall path, path ∈ record_names order st <-> is_Some (m !! path).
Proof.
  intros Hr. unfold record_names. split.
  - apply NoDup_filter_b. rewrite order_perm. apply NoDup_fst_map_to_list.
  - intros path. rewrite elem_of_filter_b, order_perm, list_elem_of_fmap. split.
    + intros [([p f] & -> & Hf%elem_of_map_to_list) _]. cbn.
      destruct Hr as (_ & _ & _ & _ & Hall & _). specialize (Hall p). rewrite Hf in Hall. inversion Hall; eauto.
    + intros Hm. pose proof Hm as [s Hs]. destruct (represents_lookup _ _ _ _ Hr Hs) as (f & Hf & _). split.
      * exists (path, f). split; [done|]. by apply elem_of_map_to_list.
      * apply ref_of_path. destruct Hr as (_ & _ & _ & _ & _ & Hn). by apply Hn.
Qed.

(** An entry read for the rotation: the secret the vault has at the path. *)
Definition read_entry (m : vault) (path : string) (e : string * SecretMetadata * string) : Prop :=
  path_for_ref e.1.1 = Ok path /\ m !! path = Some (sm_label e.1.2, sm_key_version e.1.2, e.2).

Lemma read_all_ok st m : represents st m -> exists l, read_all order st = Ok l /\ Forall2 (read_entry m) (record_names order st) l.
Proof.
  intros Hr. unfold read_all. destruct (record_names_spec st m Hr) as [_ Hin].
  assert (forall path, path ∈ record_names order st -> is_Some (m !! path)) as Hall by (intros path; apply Hin).
  clear Hin. induction (record_names order st) as [|path ps IH]; [by eexists|].
  destruct IH as (l & Hl & Hf); [intros p Hp; apply Hall; by right|].
  destruct (Hall path) as [[[label version] value] Hm]; [by left|].
  assert (path_for_ref (SECRET_REF_PREFIX +:+ name_stem path) = Ok path) as Hp.
  { apply ref_of_path. destruct Hr as (_ & _ & _ & _ & _ & Hn). apply Hn. by eexists. }
  cbn [mapM_result]. rewrite (metadata_represents st m), (get_represents st m) by done.
  unfold look. rewrite Hp. cbn [mbind result_bind]. rewrite Hm. cbn [mbind result_bind]. rewrite Hl. cbn [mbind result_bind].
  eexists. split; [reflexivity|]. constructor; [|done]. by split.
Qed.

Lemma rewrite_all_ok nonce_of m l names st :
  (forall ref, zlen (nonce_of ref) = NONCE_BYTES /\ wf_bytes (nonce_of ref)) ->
  (forall path s, m !! path = Some s -> 1 <= s.1.2) ->
  Forall2 (read_entry m) names l -> NoDup names ->
  let r := rewrite_all st nonce_of (fun _ => Written) l in
  r.2 = Ok tt /\ st_key r.1 = st_key st /\ st_key_file r.1 = st_key_file st /\ st_root_mode r.1 = st_root_mode st /\
  st_dir_mode r.1 = st_dir_mode st /\ (forall p, p ∉ names -> st_secrets r.1 !! p = st_secrets st !! p) /\
  forall p, p ∈ names -> exists f s, st_secrets r.1 !! p = Some f /\ m !! p = Some s /\ holds (st_key st) f (bump s).
Proof.
  intros Hnonce Hv Hf. revert st. induction Hf as [|path [[ref meta] v] names l [Hp Hm] _ IH]; intros st Hnd.
  { cbn. split_and!; try done. by intros p ?%elem_of_nil. }
  apply NoDup_cons in Hnd as [Hni Hnd]. cbn [fst snd] in Hp, Hm. cbn [rewrite_all].
  destruct (write_record_ok st ref path (sm_label meta) v (sm_key_version meta + 1) (nonce_of ref)) as (H1 & H2 & H3 & H4 & H5 & H6 & f & H7 & H8);
    [done|apply Hnonce|apply Hnonce| |].
  { specialize (Hv _ _ Hm). cbn in Hv. lia. }
  destruct (write_record st ref _ Written) as [st1 r1]. cbn [fst snd] in *. subst r1.
  destruct (IH st1 Hnd) as (I1 & I2 & I3 & I4 & I5 & I6 & I7). split_and!; [done|congruence..| |].
  - intros p [Hne Hnp]%not_elem_of_cons. rewrite I6 by done. by apply H6.
  - intros p [->|Hin]%elem_of_cons.
    + exists f. eexists. rewrite I6 by done. by split_and!.
    + destruct (I7 p Hin) as (f' & s & Hf' & Hs & Hh). exists f', s. rewrite <- H2. done.
Qed.

Lemma represents_versions st m path s : represents st m -> m !! path = Some s -> 1 <= s.1.2.
Proof.
  intros Hr Hm. destruct (represents_lookup _ _ _ _ Hr Hm) as (f & _ & Hh). destruct s as [[l v] x]. by destruct Hh as (_ & ? & _).
Qed.

Lemma put_represents st m label value name nonce :
  represents st m -> valid_name name -> zlen nonce = NONCE_BYTES -> wf_bytes nonce ->
  represents (exec st (Put label value name nonce)).1 (spec m (Put label value name nonce)) /\
  (exec st (Put label value name nonce)).2 = Ok tt.
Proof.
  intros Hr Hn Hl Hw. cbn [exec spec]. unfold put.
  assert (path_for_ref (SECRET_REF_PREFIX +:+ name) = Ok (name +:+ ".json")) as Hp by (apply path_for_ref_spec; by exists name).
  destruct (write_record_ok st _ _ label value 1 nonce Hp Hl Hw ltac:(lia)) as (H1 & H2 & H3 & H4 & H5 & H6 & f & H7 & H8).
  destruct (write_record st _ _ Written) as [st1 r1]. cbn [fst snd] in *. subst r1. split; [|done].
  destruct Hr as (R1 & R2 & R3 & R4 & R5 & R6). unfold represents. rewrite H2, H3, H4, H5. split_and!; try done.
  - intros path. destruct (decide (path = name +:+ ".json")) as [->|Hne].
    + rewrite lookup_insert_eq, H7. by constructor.
    + rewrite lookup_insert_ne, H6 by done. apply R5.
  - intros path. destruct (decide (path = name +:+ ".json")) as [->|Hne]; [by exists name|].
    rewrite lookup_insert_ne by done. apply R6.
Qed.

Lemma delete_represents st m ref :
  represents st m -> represents (delete st ref).1 (spec m (Delete ref)).
Proof.
  intros Hr. unfold delete. cbn [spec]. destruct (path_for_ref ref) as [path|e]; [|done].
  destruct Hr as (R1 & R2 & R3 & R4 & R5 & R6). unfold represents. cbn. split_and!; try done.
  - intros p. destruct (decide (p = path)) as [->|Hne].
    + rewrite !lookup_delete_eq. constructor.
    + rewrite !lookup_delete_ne by done. apply R5.
  - intros p. destruct (decide (p = path)) as [->|Hne]; [rewrite lookup_delete_eq; by intros [? ?]|].
    rewrite lookup_delete_ne by done. apply R6.
Qed.

Lemma rotate_represents st m key nonce_of :
  represents st m -> allowed (Rotate key nonce_of) ->
  represents (exec st (Rotate key nonce_of)).1 (bump <$> m) /\ (exec st (Rotate key nonce_of)).2 = Ok tt.
Proof.
  intros Hr [Hk Hn]. cbn [exec]. unfold rotate_master_key.
  destruct (read_all_ok st m Hr) as (l & -> & Hf). destruct (record_names_spec st m Hr) as [Hnd Hin].
  cbn [write_private]. set (st1 := Store _ _ _ _ _).
  destruct (rewrite_all_ok nonce_of m l _ st1 Hn (fun p s => represents_versions st m p s Hr) Hf Hnd)
    as (I1 & I2 & I3 & I4 & I5 & I6 & I7).
  split; [|done]. destruct Hr as (R1 & R2 & R3 & R4 & R5 & R6). unfold represents. rewrite I2, I3, I4, I5. split_and!; try done.
  - intros p. rewrite lookup_fmap. destruct (m !! p) as [s|] eqn:Hm.
    + destruct (I7 p) as (f & s' & -> & Hs & Hh); [apply Hin; by eexists|]. rewrite Hm in Hs. injection Hs as <-. by constructor.
    + rewrite I6; [|rewrite Hin, Hm; by intros [? ?]]. specialize (R5 p). rewrite Hm in R5.
      assert (st_secrets st !! p = None) as E by by inversion R5. cbn. rewrite E. constructor.
  - intros p. rewrite lookup_fmap, fmap_is_Some. apply R6.
Qed.

Definition run (st : store) (cs : list command) : store := foldl (fun st c => (exec st c).1) st cs.

Lemma run_represents st m cs : represents st m -> Forall allowed cs -> represents (run st cs) (foldl spec m cs).
Proof.
  intros Hr Hc. revert st m Hr. unfold run. induction Hc as [|c cs Hc _ IH]; intros st m Hr; [done|]. cbn [foldl]. apply IH.
  destruct c as [label value name nonce|key nonce_of|ref].
  - destruct Hc as (? & ? & ?). by apply put_represents.
  - by apply rotate_represents.
  - by apply delete_represents.
Qed.

Lemma fresh_represents key : zlen key = KEY_BYTES -> represents (Store ∅ (Some (File key 384)) 448 448 key) ∅.
Proof.
  intros Hk. unfold represents. cbn. split_and!; try done.
  - intros p. rewrite !lookup_empty. constructor.
  - intros p. rewrite lookup_empty. by intros [? ?].
Qed.

(** The master key in force: the last one rotated to. *)
Definition last_key (key : bytes) (cs : list command) : bytes :=
  foldl (fun key c => match c with Rotate new_key _ => new_key | _ => key end) key cs.

Lemma run_key st m cs : represents st m -> Forall allowed cs -> st_key (run st cs) = last_key (st_key st) cs.
Proof.
  intros Hr Hc. revert st m Hr. unfold run, last_key. induction Hc as [|c cs Hc Hcs IH]; intros st m Hr; [done|]. cbn [foldl].
  assert (Hk : st_key (exec st c).1 = match c with Rotate new_key _ => new_key | _ => st_key st end).
  { destruct c as [label value name nonce|key nonce_of|ref]; cbn [exec].
    - unfold put, write_record. destruct (path_for_ref _); [|done]. by destruct (write_private _ _ _) as [? []].
    - unfold rotate_master_key. destruct (read_all_ok st m Hr) as (l & -> & Hf). destruct (record_names_spec st m Hr) as [Hnd _].
      cbn [write_private]. destruct Hc as [_ Hn].
      by destruct (rewrite_all_ok nonce_of m l _ (Store (st_secrets st) (Some (File key 384)) (st_root_mode st) (st_dir_mode st) key)
        Hn (fun p s => represents_versions st m p s Hr) Hf Hnd) as (_ & -> & _).
    - unfold delete. by destruct (path_for_ref ref). }
  rewrite <- Hk. apply (IH (exec st c).1 (spec m c)). destruct c as [label value name nonce|key nonce_of|ref].
  - destruct Hc as (? & ? & ?). by apply put_represents.
  - by apply rotate_represents.
  - by apply delete_represents.
Qed.

(** The file is a JSON record of four fields: the label and the version in clear, a nonce, and the
    ciphertext of the value under [key], whose associated data are the first three. *)
Definition sealed (key : bytes) (f : file) (s : string * Z * string) : Prop :=
  let '(label, version, value) := s in
  exists nonce plaintext associated, zlen nonce = NONCE_BYTES /\
    dumps (VDict [("value", VStr value)]) = Some plaintext /\
    dumps (VDict [("key_version", VInt version); ("label", VStr label); ("nonce", VStr (urlsafe_b64encode nonce))]) = Some associated /\
    read_json (f_bytes f) = Ok (Some (VDict
      [("ciphertext", VStr (urlsafe_b64encode (aes_encrypt key nonce (utf8 plaintext) (utf8 associated))));
       ("key_version", VInt version); ("label", VStr label); ("nonce", VStr (urlsafe_b64encode nonce))])).

Lemma holds_sealed key f s : holds key f s -> sealed key f s.
Proof.
  destruct s as [[label version] value]. intros (_ & _ & nonce & Hn & _ & Hb).
  assert (exists plaintext, dumps (VDict [("value", VStr value)]) = Some plaintext) as [plaintext Hp] by by eexists.
  assert (exists associated, dumps (VDict [("key_version", VInt version); ("label", VStr label); ("nonce", VStr (urlsafe_b64encode nonce))])
            = Some associated) as [associated Ha] by by eexists.
  exists nonce, plaintext, associated. split; [done|]. split; [done|]. split; [done|]. rewrite Hb, record_text. do 3 f_equal.
  unfold encrypt_payload. rewrite Hp. cbn [from_option id].
  assert (associated_data [("label", VStr label); ("key_version", VInt version); ("nonce", VStr (urlsafe_b64encode nonce))] = utf8 associated) as ->.
  { unfold associated_data. cbn [get_or_none dict_get default String.eqb Ascii.eqb Bool.eqb from_option id]. unfold get_or_none.
    cbn [dict_get String.eqb Ascii.eqb Bool.eqb from_option id]. by rewrite Ha. }
  generalize (urlsafe_b64encode (aes_encrypt key nonce (utf8 plaintext) (utf8 associated))), (urlsafe_b64encode nonce).
  intros c n. by vm_compute.
Qed.

(** C29. The secret store keeps a vault, while its writes succeed.  After any sequence of puts,
    rotations of the master key and deletions on a new store, in which every write succeeds,
    getting a reference returns exactly what a map of the secrets holds: the value last put under
    it, whatever was rotated and put and deleted since; the label and key version of its metadata
    are those of the map, and the version counts the rotations.  The master key is the last one
    rotated to, and the files are those of the map and no others, each a record with the value
    encrypted under that key.  Opening the directory again yields the same store, and the
    permission audit finds nothing.  A write that fails may break this: a rotation interrupted after
    its key loses the secrets. *)
Theorem secret_store_refines key cs :
  zlen key = KEY_BYTES -> Forall allowed cs ->
  let st0 := Store ∅ (Some (File key 384)) 448 448 key in
  let st := run st0 cs in let m := foldl spec ∅ cs in
  open_store ∅ None key Written = ((∅, Some (File key 384)), Ok st0) /\
  (forall ref, get st ref = (s ← look m ref; Ok s.2)) /\
  (forall ref, metadata st ref =
     (s ← look m ref; Ok {| sm_ref := ref; sm_label := s.1.1; sm_key_version := s.1.2; sm_masked_value := MASKED_VALUE |})) /\
  st_key_file st = Some (File (last_key key cs) 384) /\
  (forall path, option_Forall2 (sealed (last_key key cs)) (st_secrets st !! path) (m !! path)) /\
  (forall k f, open_store (st_secrets st) (st_key_file st) k f = ((st_secrets st, st_key_file st), Ok st)) /\
  exists audits, audit_permissions order st = Ok audits /\ Forall (fun a => pa_ok a = true) audits.
Proof.
  intros Hk Hc st0 st m. pose proof (run_represents st0 ∅ cs (fresh_represents key Hk) Hc) as Hr. fold st m in Hr.
  pose proof (run_key st0 ∅ cs (fresh_represents key Hk) Hc) as Hkey. fold st in Hkey. cbn [st_key st0] in Hkey.
  split_and!; [done|intros ref; by apply get_represents|intros ref; by apply metadata_represents| | | |].
  - destruct Hr as (_ & _ & R3 & _). by rewrite R3, Hkey.
  - intros path. destruct Hr as (_ & _ & _ & _ & R5 & _). rewrite Hkey in R5.
    destruct (R5 path) as [f x Hh|]; constructor. by apply holds_sealed.
  - intros k f. destruct Hr as (R1 & R2 & R3 & R4 & _). unfold open_store. rewrite R3. cbn [f_bytes]. rewrite R4, Z.eqb_refl.
    rewrite <- R3. clear -R1 R2. by destruct (run st0 cs) eqn:E; cbn in *; subst.
  - destruct (record_names_spec st m Hr) as [_ Hin]. destruct Hr as (R1 & R2 & R3 & R4 & R5 & _). unfold audit_permissions. rewrite R3, R1, R2.
    eexists. split; [reflexivity|]. do 3 (constructor; [done|]). apply Forall_forall. intros a Ha.
    apply list_elem_of_omap in Ha as (name & Hname & Ha). apply bind_Some in Ha as (f & Hf & [= <-]).
    specialize (R5 name). rewrite Hf in R5. inversion R5 as [? [[label v] x] Hh Hx|]. destruct Hh as (Hm & _). cbn. by rewrite Hm.
Qed.

(** A rotation that stops between the key and the records destroys the secrets.  When the new
    master key was written and the write of the first record is refused, every secret of the
    store is lost: no reference can be decrypted, the old key is nowhere, and opening the
    directory again does not help. *)
Theorem interrupted_rotation_loses_secrets st m key nonce_of ref s st' r :
  represents st m -> m <> ∅ -> zlen key = KEY_BYTES ->
  (forall n p a, aes_decrypt key n (aes_encrypt (st_key st) n p a) a = None) ->
  rotate_master_key order st key Written nonce_of (fun _ => OpenRefused) = (st', r) ->
  r = Err StoreOSError /\ st_key_file st' = Some (File key 384) /\
  (look m ref = Ok s ->
   get st' ref = Err (SecretStoreError "secret cannot be decrypted with this master key") /\
   forall k f, exists st'', open_store (st_secrets st') (st_key_file st') k f = ((st_secrets st', st_key_file st'), Ok st'') /\
     get st'' ref = Err (SecretStoreError "secret cannot be decrypted with this master key")).
Proof.
  intros Hr Hne Hk Hno. unfold rotate_master_key. destruct (read_all_ok st m Hr) as (l & -> & Hf).
  destruct (record_names_spec st m Hr) as [_ Hin]. cbn [write_private]. set (st1 := Store _ _ _ _ _).
  assert (rewrite_all st1 nonce_of (fun _ => OpenRefused) l = (st1, Err StoreOSError)) as ->.
  { destruct Hf as [|path [[ref0 meta] v] names l [Hp _] _].
    - apply map_choose in Hne as (p & x & Hx). exfalso. assert (p ∈ ([] : list string)) as Hp by (apply Hin; by eexists).
      by apply elem_of_nil in Hp.
    - cbn [rewrite_all]. unfold write_record. cbn [fst] in Hp. rewrite Hp. cbn [write_private]. f_equal. unfold st1. f_equal. cbn.
      apply map_eq. intros p. destruct (decide (p = path)) as [->|Hd].
      + by rewrite lookup_partial_alter_eq.
      + by rewrite lookup_partial_alter_ne. }
  intros [= <- <-]. split; [done|]. split; [done|]. intros Hlook. unfold look in Hlook. apply bind_ok in Hlook as (path & Hp & Hm).
  destruct (m !! path) as [[[label version] value]|] eqn:Em; [|done].
  destruct (represents_lookup _ _ _ _ Hr Em) as (f & Hff & Hh).
  assert (get st1 ref = Err (SecretStoreError "secret cannot be decrypted with this master key")) as Hg
    by by apply (get_held st1 ref path f (st_key st) label version value Hp Hff Hh).
  split; [done|]. intros k f0. exists st1. split; [|done]. destruct Hr as (R1 & R2 & _). unfold open_store, st1. cbn.
  rewrite Hk. cbn. by rewrite R1, R2.
Qed.

End laws.

(** ** A cipher that satisfies the laws *)

(** No secrecy: the text with a tag derived from the key. *)
#[global] Instance tag_cipher : Aead := {
  aes_encrypt k _ p _ := (p ++ take 16 (Sha256.digest k))%list;
  aes_decrypt k _ c _ :=
    if bool_decide (drop (length c - 16) c = take 16 (Sha256.digest k)) then Some (take (length c - 16) c) else None }.

Lemma length_tag k : length (take 16 (Sha256.digest k)) = 16%nat.
Proof. rewrite length_take, length_digest. done. Qed.

#[global] Instance tag_cipher_laws : AeadLaws.
Proof.
  split; intros k n p a; cbn.
  - intros _. rewrite length_app, length_tag. replace (length p + 16 - 16)%nat with (length p) by lia.
    rewrite drop_app_length, take_app_length. by rewrite bool_decide_true.
  - unfold zlen. rewrite length_app, length_tag. lia.
  - intros Hp. apply Forall_app. split; [done|]. apply Forall_take, wf_digest.
Qed.

Definition key_1 : bytes := replicate 32 1.
Definition key_2 : bytes := replicate 32 2.
Definition sample_name : string := "0123456789abcdef0123456789abcdef".
Definition sample_nonce : bytes := replicate 12 7.

Definition sample_commands : list command :=
  [Put "bank" "s3cret" sample_name sample_nonce; Rotate key_2 (fun _ => sample_nonce)].

Lemma sample_put_allowed : allowed (Put "bank" "s3cret" sample_name sample_nonce).
Proof. split; [by vm_compute|]. split; [done|]. apply (bool_decide_unpack _). by vm_compute. Qed.

Lemma sample_allowed : Forall allowed sample_commands.
Proof.
  constructor; [apply sample_put_allowed|]. constructor; [|done]. split; [done|]. intros _. by split; apply sample_put_allowed.
Qed.

Lemma secret_store_refines_witness :
  let st := run id (Store ∅ (Some (File key_1 384)) 448 448 key_1) sample_commands in
  get st ("vault:" +:+ sample_name) = Ok "s3cret" /\ st_key st = key_2.
Proof.
  intros st. split; [|by vm_compute].
  destruct (secret_store_refines id (fun l => reflexivity l) key_1 sample_commands eq_refl sample_allowed) as (_ & Hget & _).
  unfold st. rewrite Hget. by vm_compute.
Defined.

Definition sample_store : store := run id (Store ∅ (Some (File key_1 384)) 448 448 key_1) [Put "bank" "s3cret" sample_name sample_nonce].
Definition sample_vault : gmap string (string * Z * string) := {[ sample_name +:+ ".json" := ("bank", 1, "s3cret") ]}.

Lemma sample_represents : represents sample_store sample_vault.
Proof.
  apply (run_represents id (fun l => reflexivity l) _ ∅ [Put "bank" "s3cret" sample_name sample_nonce]).
  - by apply fresh_represents.
  - constructor; [apply sample_put_allowed|done].
Qed.

Lemma interrupted_rotation_loses_secrets_witness :
  get sample_store ("vault:" +:+ sample_name) = Ok "s3cret" /\
  get (rotate_master_key id sample_store key_2 Written (fun _ => sample_nonce) (fun _ => OpenRefused)).1 ("vault:" +:+ sample_name)
    = Err (SecretStoreError "secret cannot be decrypted with this master key").
Proof.
  split; [by vm_compute|].
  refine (proj1 (proj2 (proj2 (interrupted_rotation_loses_secrets id (fun l => reflexivity l) sample_store sample_vault key_2
    (fun _ => sample_nonce) ("vault:" +:+ sample_name) ("bank", 1, "s3cret") _ _ sample_represents _ _ _ (surjective_pairing _))) _)).
  - apply map_non_empty_singleton.
  - reflexivity.
  - intros n p a. change (st_key sample_store) with key_1. cbn.
    rewrite length_app, length_tag. replace (length p + 16 - 16)%nat with (length p) by lia.
    rewrite drop_app_length. rewrite bool_decide_false; [done|]. apply (bool_decide_unpack _). by vm_compute.
  - by vm_compute.
Defined.
