(* ===== verification/FindingsTable.v ===== *)
(** * The findings table (src/worker/findings_table.py)

    Pages of a sorted table, opened by a cursor that holds the sort key of the last row seen.  The
    theorems: a cursor reads back; a page holds exactly the next rows behind its cursor, also when
    the table changed in between; and browsing page by page, while rows come and go, shows no row
    twice and misses none that was there all the time.

    Rows are parsed mappings; numbers with a fraction are outside the model of JSON. *)

From Stdlib Require Import ZArith Lia String Ascii Sorting.Sorted.
From stdpp Require Import base list strings gmap sorting.
From S2P Require Import Prelude PyStr Json Base64 Identifiers Messages JsonLines MediaCheckpoints.

Local Open Scope string_scope.
Local Open Scope Z_scope.

Abbreviation row := (list (string * value)).

Definition DEFAULT_PAGE_SIZE : Z := 100.
Definition MAX_PAGE_SIZE : Z := 500.
(** worker/findings_table.py:24-34 COLUMNS *)
Definition COLUMNS : list string :=
  ["path"; "type"; "size_bytes"; "modified_at"; "state"; "interest_score"; "confidence"; "category"; "export"].
Definition SORTABLE_FIELDS : list string := ["path"; "type"; "size_bytes"; "modified_at"; "confidence"].

(** worker/findings_table.py:41-42 FindingsTableError, and the exceptions of the interpreter. *)
Inductive table_error := FindingsTableError (code : string) | TableIndexError | TableTypeError.

Abbreviation outcome := (result table_error).

(** worker/findings_table.py:45-50 Page *)
Record Page := { pg_items : list row; pg_next_cursor : option string; pg_has_more : bool; pg_total : option Z }.

(** ** Python's order on values *)

(** [v > w], [None] where it raises [TypeError]. *)
Fixpoint py_gt (v w : value) {struct v} : option bool :=
  match v, w with
  | VStr s, VStr t => Some (str_lt t s)
  | VBytes a, VBytes b => Some (str_lt (of_chars (chr <$> b)) (of_chars (chr <$> a)))
  | VList l, VList m =>
    (fix go l m := match l, m with
                   | x :: l, y :: m => if py_eq x y then go l m else py_gt x y
                   | _ :: _, [] => Some true
                   | [], _ => Some false
                   end) l m
  | v, w => match int_value v, int_value w with
            | Some a, Some b => Some (b <? a)
            | _, _ => None
            end
  end.

Definition b2z (b : bool) : Z := if b then 1 else 0.

(** worker/findings_table.py:234-246 _compare *)
Definition compare_values (left right : value) : Z :=
  match left, right with
  | VNone, VNone => 0
  | VNone, _ => -1
  | _, VNone => 1
  | _, _ => match py_gt left right, py_gt right left with
            | Some gt, Some lt => b2z gt - b2z lt
            | _, _ => b2z (str_lt (py_str right) (py_str left)) - b2z (str_lt (py_str left) (py_str right))
            end
  end.

(** worker/findings_table.py:249-252 _jsonable *)
Definition jsonable (v : value) : value :=
  match v with VStr _ | VInt _ | VBool _ | VNone => v | _ => VStr (py_str v) end.

(** ** Cursors *)

(** worker/findings_table.py:56-59 validate_sort *)
Definition validate_sort (sort : string) : outcome unit :=
  raise_if (negb (bool_decide (sort ∈ SORTABLE_FIELDS))) (FindingsTableError "invalid_sort").

(** worker/findings_table.py:62-66 stable_sort_key *)
Definition stable_sort_key (r : row) (sort : string) : outcome (value * value) :=
  _ ← validate_sort sort; Ok (get_or_none r sort, get_or_none r "entry_id").

Definition cursor_data (sort : string) (last_row : row) : list (string * value) :=
  [("sort", VStr sort); ("key", get_or_none last_row "entry_id"); ("value", jsonable (get_or_none last_row sort))].

(** worker/findings_table.py:69-79 encode_cursor: [TypeError] where a key is no JSON value. *)
Definition encode_cursor (sort : string) (last_row : row) : outcome string :=
  match dumps (VDict (cursor_data sort last_row)) with
  | Some text => Ok (urlsafe_b64encode (utf8 text))
  | None => Err TableTypeError
  end.

(** worker/findings_table.py:82-91 decode_cursor *)
Definition decode_cursor (cursor : string) : outcome (list (string * value)) :=
  match (raw ← urlsafe_b64decode cursor; text ← utf8_decode raw; loads_chars text) with
  | Some (VDict data) =>
    match dict_get data "key", dict_get data "sort" with
    | Some _, Some sort => _ ← validate_sort (py_str sort); Ok data
    | _, _ => Err (FindingsTableError "invalid_cursor")
    end
  | _ => Err (FindingsTableError "invalid_cursor")
  end.

(** worker/findings_table.py:94-105 after_cursor *)
Definition after_cursor (r : row) (cursor : list (string * value)) : outcome bool :=
  let sort := py_str (get_or_none cursor "sort") in
  let row_key := get_or_none r "entry_id" in
  let row_value := get_or_none r sort in
  let cursor_value := get_or_none cursor "value" in
  let cursor_key := get_or_none cursor "key" in
  if negb (py_eq row_value cursor_value) then Ok (0 <? compare_values row_value cursor_value)
  else match row_key, cursor_key with
       | VNone, _ | _, VNone => Ok false
       | _, _ => match py_gt row_key cursor_key with Some b => Ok b | None => Err TableTypeError end
       end.

(** worker/findings_table.py:227-231 _first_index_after *)
Fixpoint first_index_after (rows : list row) (cursor : list (string * value)) : outcome nat :=
  match rows with
  | [] => Ok 0%nat
  | r :: rest => b ← after_cursor r cursor; if b : bool then Ok 0%nat else n ← first_index_after rest cursor; Ok (S n)
  end.

(** ** Pages *)

(** worker/findings_table.py:108-140 fetch_page *)
Definition fetch_page (rows : list row) (sort : string) (limit : Z) (cursor : option string) (total : option Z) : outcome Page :=
  _ ← validate_sort sort;
  _ ← raise_if ((limit <? 1) || (MAX_PAGE_SIZE <? limit)) (FindingsTableError "invalid_limit");
  start ← match cursor with
          | None => Ok 0%nat
          | Some c =>
            decoded ← decode_cursor c;
            _ ← raise_if (negb (is_text (get_or_none decoded "sort") sort)) (FindingsTableError "invalid_cursor");
            first_index_after rows decoded
          end;
  let items := take (Z.to_nat limit) (drop start rows) in
  let known_total := default (zlen rows) total in
  if negb (bool_decide (items = [])) && (Z.of_nat start + limit <? known_total)
  then match rows !! (start + Z.to_nat limit - 1)%nat with
       | None => Err TableIndexError
       | Some last => next ← encode_cursor sort last;
                      Ok {| pg_items := items; pg_next_cursor := Some next; pg_has_more := true; pg_total := total |}
       end
  else Ok {| pg_items := items; pg_next_cursor := None; pg_has_more := false; pg_total := total |}.

(** ** Selection and columns *)

(** worker/findings_table.py:143-165 select_rows *)
Definition select_rows (selection : list (string * bool)) (rows : list row) (toggle : option string)
    (replace_all selected_all : bool) : list (string * bool) :=
  if replace_all
  then (if selected_all then foldl (fun d r => dict_set d (py_str (get_or_none r "entry_id")) true) [] rows else [])
  else match toggle with
       | Some id => dict_set selection id (negb (default false (dict_get selection id)))
       | None => selection
       end.

(** worker/findings_table.py:168-189 make_columns *)
Definition make_columns (r : row) (ui_base : string) (selected : bool) : row :=
  let entry_id := get_or_none r "entry_id" in
  let detail_link := if String.eqb ui_base "" then ""
    else ui_base +:+ "/case/" +:+ py_str (default (VStr "") (dict_get r "case_id")) +:+ "/finding/" +:+ py_str entry_id in
  [("path", get_or_none r "path"); ("type", get_or_none r "entry_type"); ("size_bytes", get_or_none r "size_bytes");
   ("modified_at", get_or_none r "modified_at"); ("state", get_or_none r "state");
   ("interest_score", get_or_none r "interest_score"); ("confidence", get_or_none r "confidence");
   ("category", get_or_none r "category"); ("export", get_or_none r "export_state"); ("detail_link", VStr detail_link);
   ("selected", VBool selected)].

(** What [table_state] returns, without the constants. *)
Record TableState := {
  ts_sort : string; ts_cursor : option string; ts_next_cursor : option string; ts_has_more : bool; ts_total : option Z;
  ts_items : list row; ts_loading : bool; ts_error : option string; ts_empty : bool; ts_selected_count : Z }.

(** worker/findings_table.py:192-224 table_state *)
Definition table_state (rows : list row) (sort : string) (limit : Z) (cursor : option string)
    (selection : option (list (string * bool))) (ui_base : string) (loading : bool) (error : option string) (total : option Z)
    : outcome TableState :=
  page ← fetch_page rows sort limit cursor total;
  let selection := default [] selection in
  let items := (fun r => make_columns r ui_base (default false (dict_get selection (py_str (get_or_none r "entry_id")))))
               <$> pg_items page in
  Ok {| ts_sort := sort; ts_cursor := cursor; ts_next_cursor := pg_next_cursor page; ts_has_more := pg_has_more page;
        ts_total := pg_total page; ts_items := items; ts_loading := loading; ts_error := error;
        ts_empty := bool_decide (items = []) && negb loading && bool_decide (error = None);
        ts_selected_count := zlen (filter_b snd selection) |}.

(** ** Order on rows *)

(** A column of one kind: numbers or texts, with gaps. *)
Inductive kind := Numbers | Texts.

Definition cell_ok (k : kind) (v : value) : Prop :=
  match k, v with _, VNone => True | Numbers, VInt _ => True | Texts, VStr _ => True | _, _ => False end.

Definition row_ok (k : kind) (sort : string) (r : row) : Prop :=
  cell_ok k (get_or_none r sort) /\ exists id, get_or_none r "entry_id" = VStr id.

(** The order of the table: by the sort field, gaps first, then by the entry identifier. *)
Definition cell_lt (v w : value) : bool :=
  match v, w with
  | VNone, VNone => false
  | VNone, _ => true
  | VInt a, VInt b => a <? b
  | VStr a, VStr b => str_lt a b
  | _, _ => false
  end.

Definition id_of (r : row) : string := match get_or_none r "entry_id" with VStr s => s | _ => "" end.

Definition before (sort : string) (r s : row) : bool :=
  cell_lt (get_or_none r sort) (get_or_none s sort) ||
  (py_eq (get_or_none r sort) (get_or_none s sort) && str_lt (id_of r) (id_of s)).

Lemma str_lt_trans a b c : str_lt a b = true -> str_lt b c = true -> str_lt a c = true.
Proof.
  rewrite !str_lt_iff. intros [H1 H2] [H3 H4]. split; [by eapply str_le_trans|]. intros ->. apply H2. by apply str_le_antisym.
Qed.

Lemma str_lt_asym a b : str_lt a b = true -> str_lt b a = false.
Proof. rewrite str_lt_iff, <- not_true_iff_false, str_lt_iff. intros [H1 H2] [H3 _]. apply H2. by apply str_le_antisym. Qed.

Lemma str_lt_total a b : str_lt a b = true \/ a = b \/ str_lt b a = true.
Proof. rewrite !str_lt_iff. destruct (decide (a = b)) as [|Hne]; [auto|]. destruct (str_le_total a b); auto. Qed.

Lemma py_eq_cell k v w : cell_ok k v -> cell_ok k w -> py_eq v w = true <-> v = w.
Proof.
  destruct k, v, w; try done; cbn; intros _ _; rewrite ?Z.eqb_eq, ?String.eqb_eq; split; congruence.
Qed.

Lemma cell_lt_trans k u v w : cell_ok k u -> cell_ok k v -> cell_ok k w -> cell_lt u v = true -> cell_lt v w = true -> cell_lt u w = true.
Proof.
  destruct k, u, v, w; try done; cbn; intros _ _ _.
  - rewrite !Z.ltb_lt. lia.
  - apply str_lt_trans.
Qed.

Lemma cell_lt_asym k v w : cell_ok k v -> cell_ok k w -> cell_lt v w = true -> cell_lt w v = false /\ v <> w.
Proof.
  destruct k, v, w; try done; cbn; intros _ _.
  - rewrite Z.ltb_lt, Z.ltb_ge. intros. split; [lia|]. intros [=]. lia.
  - intros H. split; [by apply str_lt_asym|]. intros [= ->]. by rewrite str_lt_irrefl in H.
Qed.

(** Being behind the cursor of a row is being behind the row. *)
Lemma after_cursor_before k sort r s :
  row_ok k sort r -> row_ok k sort s -> after_cursor s (cursor_data sort r) = Ok (before sort r s).
Proof.
  intros [Hr [i Hi]] [Hs [j Hj]]. unfold after_cursor, cursor_data, before, id_of.
  cbn [get_or_none dict_get String.eqb Ascii.eqb Bool.eqb default from_option id py_str].
  change (default VNone (dict_get r "entry_id")) with (get_or_none r "entry_id").
  change (default VNone (dict_get s "entry_id")) with (get_or_none s "entry_id").
  change (default VNone (dict_get r sort)) with (get_or_none r sort).
  change (default VNone (dict_get s sort)) with (get_or_none s sort).
  rewrite Hi, Hj. set (v := get_or_none r sort) in *. set (w := get_or_none s sort) in *. clearbody v w.
  assert (jsonable v = v) as -> by by destruct k, v.
  destruct k, v, w; try done; cbn; rewrite ?orb_false_r.
  - rewrite (Z.eqb_sym z0 z). destruct (Z.eqb_spec z z0) as [->|Hne]; cbn [negb andb].
    + by rewrite Z.ltb_irrefl.
    + rewrite orb_false_r. f_equal. destruct (Z.ltb_spec z z0), (Z.ltb_spec z0 z); cbn; lia || done.
  - rewrite (String.eqb_sym s1 s0). destruct (String.eqb_spec s0 s1) as [->|Hne]; cbn [negb andb].
    + by rewrite str_lt_irrefl.
    + rewrite orb_false_r. f_equal. destruct (str_lt_total s0 s1) as [H|[H|H]]; [|done|];
        rewrite H, (str_lt_asym _ _ H); done.
Qed.

Lemma sorted_lookup {A} (R : A -> A -> Prop) l i j x y :
  StronglySorted R l -> l !! i = Some x -> l !! j = Some y -> (i < j)%nat -> R x y.
Proof.
  intros Hs. revert i j. induction Hs as [|z l Hs IH Hz]; intros i j; [done|].
  destruct i as [|i], j as [|j]; cbn; intros Hi Hj Hlt; try lia.
  - injection Hi as ->. rewrite Forall_forall in Hz. apply Hz. by eapply list_elem_of_lookup_2.
  - apply (IH i j); [done..|lia].
Qed.

Section browsing.
Variable k : kind.
Variable sort : string.
Hypothesis sort_ok : sort ∈ SORTABLE_FIELDS.

Lemma before_trans r s t : row_ok k sort r -> row_ok k sort s -> row_ok k sort t ->
  before sort r s = true -> before sort s t = true -> before sort r t = true.
Proof.
  intros [Hr _] [Hs _] [Ht _]. unfold before. rewrite !orb_true_iff, !andb_true_iff, !(py_eq_cell k) by done.
  intros [H1|[E1 H1]] [H2|[E2 H2]].
  - left. by apply (cell_lt_trans k _ (get_or_none s sort)).
  - left. by rewrite <- E2.
  - left. by rewrite E1.
  - right. split; [congruence|]. by eapply str_lt_trans.
Qed.

Lemma before_asym r s : row_ok k sort r -> row_ok k sort s -> before sort r s = true -> before sort s r = false.
Proof.
  intros [Hr _] [Hs _]. unfold before. rewrite orb_true_iff, andb_true_iff, orb_false_iff, andb_false_iff, (py_eq_cell k) by done.
  intros [H1|[E1 H1]].
  - destruct (cell_lt_asym k _ _ Hr Hs H1) as [H2 Hne]. split; [done|]. left.
    rewrite <- not_true_iff_false, (py_eq_cell k) by done. congruence.
  - split; [|right; by apply str_lt_asym]. rewrite E1.
    destruct k, (get_or_none s sort); try done; cbn; [apply Z.ltb_irrefl|apply str_lt_irrefl].
Qed.

Lemma before_irrefl r : row_ok k sort r -> before sort r r = false.
Proof. intros Hr. destruct (before sort r r) eqn:E; [|done]. rewrite <- E at 1. by apply before_asym. Qed.

(** A table in order: rows of one kind, strictly sorted. *)
Definition in_order (rows : list row) : Prop :=
  Forall (row_ok k sort) rows /\ StronglySorted (fun r s => before sort r s = true) rows.

(** ** Cursors read back *)

Lemma cursor_text r : row_ok k sort r -> exists text, dumps (VDict (cursor_data sort r)) = Some text.
Proof.
  intros [Hr [i Hi]]. unfold cursor_data. rewrite Hi. by destruct k, (get_or_none r sort); try done; eexists.
Qed.

Lemma cursor_roundtrip r :
  row_ok k sort r -> exists c data, encode_cursor sort r = Ok c /\ decode_cursor c = Ok data /\
    forall key, get_or_none data key = get_or_none (cursor_data sort r) key.
Proof.
  intros Hr. destruct (cursor_text r Hr) as [text Ht]. unfold encode_cursor. rewrite Ht.
  assert (NoDup (cursor_data sort r).*1) as Hnd by (apply (bool_decide_unpack _); by vm_compute).
  destruct Hr as [Hc [i Hi]].
  assert (Hwf : wf_value (VDict (cursor_data sort r))).
  { apply wf_dict_Forall. split; [done|]. unfold cursor_data. rewrite Hi. repeat constructor.
    by destruct k, (get_or_none r sort). }
  eexists _, _. split; [reflexivity|]. unfold decode_cursor. rewrite urlsafe_roundtrip by apply wf_utf8. cbn [mbind option_bind].
  rewrite (utf8_decode_dumps _ _ Ht). cbn [mbind option_bind].
  change (loads_chars (chars text)) with (loads text). rewrite (loads_dumps _ _ Hwf Ht).
  change (canon (VDict (cursor_data sort r))) with (VDict (sort_keys (map (fun '(key, x) => (key, canon x)) (cursor_data sort r)))).
  assert (map (fun '(key, x) => (key, canon x)) (cursor_data sort r) = (prod_map id canon <$> cursor_data sort r)) as ->
    by (apply map_ext; by intros []).
  rewrite !dict_get_canon by done. cbn [cursor_data dict_get String.eqb Ascii.eqb Bool.eqb fmap option_fmap option_map].
  assert (validate_sort (py_str (canon (VStr sort))) = Ok tt) as ->.
  { unfold validate_sort. cbn [canon py_str]. by rewrite bool_decide_true. }
  cbn [mbind result_bind]. split; [reflexivity|]. intros key. rewrite get_or_none_canon by done.
  unfold cursor_data. rewrite Hi. set (cell := get_or_none r sort) in *. unfold get_or_none. cbn [dict_get].
  destruct (String.eqb key "sort"); [done|]. destruct (String.eqb key "key"); [done|]. destruct (String.eqb key "value"); [|done].
  cbn. clear -Hc. by destruct k, cell.
Qed.

Lemma after_cursor_same data data' s :
  (forall key, get_or_none data key = get_or_none data' key) -> after_cursor s data = after_cursor s data'.
Proof. intros H. unfold after_cursor. by rewrite !H. Qed.

(** ** The rows behind a cursor *)

Definition behind (o : option row) (s : row) : bool := match o with None => true | Some r => before sort r s end.

Lemma first_index_spec r rows data :
  row_ok k sort r -> in_order rows -> (forall key, get_or_none data key = get_or_none (cursor_data sort r) key) ->
  exists n, first_index_after rows data = Ok n /\ drop n rows = filter_b (before sort r) rows.
Proof.
  intros Hr [Hok Hs] Hd. induction Hs as [|s rows Hs IH Hall]; [by exists 0%nat|].
  apply Forall_cons in Hok as [Hsok Hok]. cbn [first_index_after].
  rewrite (after_cursor_same _ _ _ Hd), (after_cursor_before k) by done. cbn [mbind result_bind].
  destruct (before sort r s) eqn:E.
  - exists 0%nat. split; [done|]. cbn [drop]. symmetry. apply filter_b_all. intros x [->|Hx]%elem_of_cons; [done|].
    rewrite Forall_forall in Hall, Hok. eapply (before_trans r s x); auto.
  - destruct (IH Hok) as (n & Hn & Hdrop). rewrite Hn. cbn [mbind result_bind]. exists (S n). split; [done|]. cbn [drop].
    rewrite Hdrop. unfold filter_b. cbn [List.filter]. by rewrite E.
Qed.

Definition cursor_of (o : option row) (c : option string) : Prop :=
  match o with None => c = None | Some r => row_ok k sort r /\ exists t, c = Some t /\ encode_cursor sort r = Ok t end.

(** What a page holds. *)
Lemma fetch_page_rows rows limit o c :
  in_order rows -> 1 <= limit <= MAX_PAGE_SIZE -> cursor_of o c ->
  let rest := filter_b (behind o) rows in
  exists p, fetch_page rows sort limit c None = Ok p /\ pg_items p = take (Z.to_nat limit) rest /\
    pg_has_more p = bool_decide (limit < zlen rest) /\
    (if pg_has_more p then exists last, last ∈ pg_items p /\ cursor_of (Some last) (pg_next_cursor p) /\
       (forall x, x ∈ pg_items p -> x = last \/ before sort x last = true) /\
       forall x, x ∈ drop (Z.to_nat limit) rest -> before sort last x = true
     else pg_next_cursor p = None /\ pg_items p = rest).
Proof.
  intros Hin Hl Hc rest. unfold fetch_page, validate_sort. rewrite bool_decide_true by done. cbn [negb raise_if mbind result_bind].
  assert ((limit <? 1) || (MAX_PAGE_SIZE <? limit) = false) as -> by lia. cbn [raise_if mbind result_bind].
  assert (exists start, drop start rows = rest /\ forall f : nat -> outcome Page,
    (match c with
     | None => Ok 0%nat
     | Some c => decoded ← decode_cursor c; _ ← raise_if (negb (is_text (get_or_none decoded "sort") sort)) (FindingsTableError "invalid_cursor");
                 first_index_after rows decoded
     end ≫= f) = f start) as (start & Hdrop & ->).
  { destruct o as [r|].
    - destruct Hc as (Hr & t & -> & Ht). destruct (cursor_roundtrip r Hr) as (c' & data & Hc' & Hd & Hg).
      rewrite Ht in Hc'. injection Hc' as <-. destruct (first_index_spec r rows data Hr Hin Hg) as (n & Hn & Hdrop).
      exists n. split; [exact Hdrop|]. intros f. rewrite Hd. cbn [mbind result_bind]. rewrite Hg.
      cbn [cursor_data get_or_none dict_get String.eqb Ascii.eqb Bool.eqb default from_option id is_text].
      rewrite String.eqb_refl. cbn [negb raise_if mbind result_bind]. by rewrite Hn.
    - cbn in Hc. subst c. exists 0%nat. split; [|done]. symmetry. by apply filter_b_all. }
  rewrite Hdrop. cbn [default from_option id].
  assert (Hlen : (length rest = length rows - start)%nat) by by rewrite <- Hdrop, length_drop.
  assert (Hcond : negb (bool_decide (take (Z.to_nat limit) rest = [])) && (Z.of_nat start + limit <? zlen rows) = bool_decide (limit < zlen rest)).
  { destruct (bool_decide_reflect (limit < zlen rest)) as [Hlt|Hlt].
    - rewrite bool_decide_false; [apply Z.ltb_lt; unfold zlen in *; lia|]. intros E. apply (f_equal length) in E.
      rewrite length_take in E. cbn in E. unfold zlen in Hlt. lia.
    - destruct rest as [|x rest'] eqn:Er; [by rewrite take_nil, bool_decide_true|].
      apply andb_false_iff. right. apply Z.ltb_ge. unfold zlen in *. cbn [length] in *. lia. }
  rewrite Hcond. clear Hcond. destruct (bool_decide_reflect (limit < zlen rest)) as [Hlt|Hlt].
  - assert (is_Some (rows !! (start + Z.to_nat limit - 1)%nat)) as [last Hlast] by (apply lookup_lt_is_Some_2; unfold zlen in Hlt; lia).
    rewrite Hlast. assert (Hlast' : rest !! (Z.to_nat limit - 1)%nat = Some last).
    { rewrite <- Hdrop, lookup_drop. rewrite <- Hlast. f_equal. lia. }
    assert (Hrow : row_ok k sort last) by (destruct Hin as [Hok _]; rewrite Forall_forall in Hok; by eapply Hok, list_elem_of_lookup_2).
    assert (StronglySorted (fun r s => before sort r s = true) rest) as Hsr by (apply StronglySorted_filter_b; by destruct Hin).
    destruct (cursor_roundtrip last Hrow) as (t & _ & Ht & _). rewrite Ht. cbn [mbind result_bind].
    eexists. split; [reflexivity|]. cbn. split; [done|]. split; [done|]. exists last. split_and!.
    + apply list_elem_of_lookup. exists (Z.to_nat limit - 1)%nat. rewrite lookup_take_lt; [done|lia].
    + done.
    + by exists t.
    + intros x [i Hi]%list_elem_of_lookup. apply lookup_take_Some in Hi as [Hi Hil].
      destruct (decide (i = Z.to_nat limit - 1)%nat) as [->|Hne]; [left; congruence|]. right.
      apply (sorted_lookup _ rest i (Z.to_nat limit - 1)%nat x last Hsr Hi Hlast'). lia.
    + intros x [i Hi]%list_elem_of_lookup. rewrite lookup_drop in Hi.
      apply (sorted_lookup _ rest _ _ last x Hsr Hlast' Hi). lia.
  - eexists. split; [reflexivity|]. cbn. split_and!; try done. apply take_ge. unfold zlen in Hlt. lia.
Qed.

(** ** Browsing *)

(** The rows shown by following the cursors, the table being each time the next of [snapshots];
    [None] when they are used up before the last page, or when a page fails. *)
Fixpoint browse (snapshots : list (list row)) (limit : Z) (cursor : option string) : option (list row) :=
  match snapshots with
  | [] => None
  | rows :: snapshots =>
    match fetch_page rows sort limit cursor None with
    | Ok p => match pg_next_cursor p with
              | None => Some (pg_items p)
              | Some c => rest ← browse snapshots limit (Some c); Some (pg_items p ++ rest)%list
              end
    | Err _ => None
    end
  end.

Lemma browse_rows limit snapshots o c shown :
  1 <= limit <= MAX_PAGE_SIZE -> Forall in_order snapshots -> cursor_of o c -> browse snapshots limit c = Some shown ->
  in_order shown /\ (forall x, x ∈ shown -> behind o x = true /\ exists rows, rows ∈ snapshots /\ x ∈ rows) /\
  (forall x, behind o x = true -> (forall rows, rows ∈ snapshots -> x ∈ rows) -> x ∈ shown).
Proof.
  intros Hl Hsn. revert o c shown. induction Hsn as [|rows snapshots Hrows Hsn IH]; intros o c shown Hc; cbn [browse]; [done|].
  destruct (fetch_page_rows rows limit o c Hrows Hl Hc) as (p & -> & Hitems & Hmore & Hnext).
  set (rest := filter_b (behind o) rows) in *.
  assert (Hin : forall x, x ∈ pg_items p -> x ∈ rest) 
    by (intros x; rewrite Hitems; intros Hx; rewrite <- (take_drop (Z.to_nat limit) rest); apply elem_of_app; by left).
  assert (Hrest : forall x, x ∈ rest <-> x ∈ rows /\ behind o x = true) by (intros x; apply elem_of_filter_b).
  assert (Hord : in_order (pg_items p)).
  { destruct Hrows as [Hok Hs]. rewrite Hitems. split.
    - apply Forall_take, Forall_forall. intros x [Hx _]%Hrest. rewrite Forall_forall in Hok. by apply Hok.
    - assert (StronglySorted (fun r s => before sort r s = true) rest) as Hsr by by apply StronglySorted_filter_b.
      rewrite <- (take_drop (Z.to_nat limit) rest) in Hsr. by eapply StronglySorted_app_1_l. }
  destruct (pg_has_more p).
  - destruct Hnext as (last & Hlast & Hcur & Hupto & Hbehind). destruct Hcur as (Hlok & t & Ht & He). rewrite Ht.
    intros (shown' & Hb & [= <-])%bind_Some.
    destruct (IH (Some last) (Some t) shown') as ([Hok' Hs'] & Hsound & Hcomplete); [by split; [|exists t]|done|].
    assert (Hlb : behind o last = true) by by apply Hrest, Hin.
    assert (Hback : forall x, x ∈ shown' -> row_ok k sort x) by (rewrite Forall_forall in Hok'; auto).
    split; [|split].
    + destruct Hord as [Hok Hs]. split; [by apply Forall_app|]. apply StronglySorted_app_2; [|done|done].
      intros x y Hx Hy. destruct (Hsound y Hy) as [Hy' _]. rewrite Forall_forall in Hok.
      destruct (Hupto x Hx) as [->|Hxl]; [done|]. apply (before_trans x last y); auto.
    + intros x [Hx|Hx]%elem_of_app.
      * apply Hin, Hrest in Hx as [Hx ?]. split; [done|]. exists rows. split; [left|done].
      * destruct (Hsound x Hx) as [Hxl (rows' & Hr' & Hx')]. split; [|exists rows'; split; [by right|done]].
        destruct o as [r|]; [|done]. destruct Hc as [Hr _]. apply (before_trans r last x); auto.
    + intros x Hbx Hall. apply elem_of_app.
      assert (Hx : x ∈ rest) by (apply Hrest; split; [apply Hall; left|done]).
      rewrite <- (take_drop (Z.to_nat limit) rest), <- Hitems in Hx. apply elem_of_app in Hx as [Hx|Hx]; [by left|].
      right. apply Hcomplete; [by apply Hbehind|]. intros rows' Hr'. apply Hall. by right.
  - destruct Hnext as [-> Hall]. intros [= <-]. split; [done|]. rewrite Hall. split.
    + intros x [Hx Hb]%Hrest. split; [done|]. exists rows. split; [left|done].
    + intros x Hb Hx. apply Hrest. split; [apply Hx; left|done].
Qed.

(** C30. Browsing a changing table.  A client that follows the cursors page by page, while rows are
    added and removed between the requests, ends with the rows in the order of the table and none
    of them twice; every row it saw was there at some request, and every row that was there at all
    of them is among those it saw. *)
Theorem browse_no_skip_no_duplicate limit snapshots shown :
  1 <= limit <= MAX_PAGE_SIZE -> Forall in_order snapshots -> browse snapshots limit None = Some shown ->
  StronglySorted (fun r s => before sort r s = true) shown /\ NoDup shown /\
  (forall x, x ∈ shown -> exists rows, rows ∈ snapshots /\ x ∈ rows) /\
  (forall x, (forall rows, rows ∈ snapshots -> x ∈ rows) -> x ∈ shown).
Proof.
  intros Hl Hsn Hb. destruct (browse_rows limit snapshots None None shown Hl Hsn eq_refl Hb) as ([Hok Hs] & Hsound & Hcomplete).
  split; [done|]. split; [|split; [by intros x [_ ?]%Hsound|by intros x Hx; apply Hcomplete]].
  clear -Hok Hs. induction Hs as [|x l Hs IH Hx]; [constructor|]. apply Forall_cons in Hok as [Hxok Hok].
  constructor; [|by apply IH]. intros Hin. rewrite Forall_forall in Hx. specialize (Hx x Hin). by rewrite before_irrefl in Hx.
Qed.

(** C31. Browsing ends.  On a table that does not change, following the cursors takes at most one
    request per row and one more, none of them fails, and together the pages are the table. *)
Theorem browse_complete limit rows n :
  1 <= limit <= MAX_PAGE_SIZE -> in_order rows -> (length rows < n)%nat ->
  browse (replicate n rows) limit None = Some rows.
Proof.
  intros Hl Hin Hn.
  assert (Hgo : forall n o c, cursor_of o c -> (length (filter_b (behind o) rows) < n)%nat ->
            browse (replicate n rows) limit c = Some (filter_b (behind o) rows)).
  { clear n Hn. induction n as [|n IH]; intros o c Hc Hn; [lia|]. cbn [replicate browse].
    destruct (fetch_page_rows rows limit o c Hin Hl Hc) as (p & -> & Hitems & Hmore & Hnext).
    set (rest := filter_b (behind o) rows) in *. destruct (pg_has_more p).
    - destruct Hnext as (last & Hlast & Hcur & Hupto & Hbehind). symmetry in Hmore. apply bool_decide_eq_true in Hmore.
      assert (Hok : Forall (row_ok k sort) rows) by by destruct Hin. rewrite Forall_forall in Hok.
      assert (Hrest : forall x, x ∈ rest <-> x ∈ rows /\ behind o x = true) by (intros x; apply elem_of_filter_b).
      assert (Hsub : forall x, x ∈ pg_items p -> x ∈ rest).
      { intros x Hx. rewrite Hitems in Hx. rewrite <- (take_drop (Z.to_nat limit) rest). apply elem_of_app. by left. }
      assert (Hdrop : filter_b (behind (Some last)) rows = drop (Z.to_nat limit) rest).
      { assert (filter_b (behind (Some last)) rows = filter_b (behind (Some last)) rest) as ->.
        { unfold rest. rewrite filter_b_filter_b. apply filter_b_ext. intros x Hx. cbn [behind].
          destruct (before sort last x) eqn:E; [|by rewrite andb_false_r]. destruct o as [r|]; [|done]. destruct Hc as [Hr _].
          apply Hsub, Hrest in Hlast as [Hlr Hlb]. cbn [behind] in *. rewrite (before_trans r last x); auto. }
        rewrite <- (take_drop (Z.to_nat limit) rest) at 1. rewrite filter_b_app, <- Hitems.
        rewrite filter_b_none, filter_b_all; [done| |].
        - intros x Hx. by apply Hbehind.
        - intros x Hx. cbn [behind]. destruct (Hupto x Hx) as [->|Hb]; [apply before_irrefl|apply before_asym]; auto;
            apply Hok; by apply Hrest, Hsub. }
      destruct Hcur as (Hlok & t & Ht & He). rewrite Ht.
      rewrite (IH (Some last) (Some t)); [|by split; [|exists t]|rewrite Hdrop, length_drop; fold rest in Hn; unfold zlen in Hmore; lia].
      cbn [mbind option_bind]. rewrite Hitems, Hdrop, take_drop. done.
    - destruct Hnext as [-> Hall]. by rewrite Hall. }
  rewrite (Hgo n None None eq_refl); [|by rewrite filter_b_all]. f_equal. by apply filter_b_all.
Qed.

End browsing.


(** ** Concrete tables *)

Definition ex_row (path id : string) : row := [("path", VStr path); ("entry_id", VStr id)].
Definition ex_rows : list row := [ex_row "a" "2"; ex_row "b" "1"; ex_row "b" "3"].

Lemma ex_row_ok path id : row_ok Texts "path" (ex_row path id).
Proof. split; [done|]. by exists id. Qed.

Lemma ex_rows_in_order : in_order Texts "path" ex_rows /\ in_order Texts "path" [ex_row "b" "1"; ex_row "b" "3"].
Proof. split; (split; [repeat constructor; apply ex_row_ok|repeat constructor]). Qed.

(** The row already shown leaves the table between the two requests. *)
Lemma browse_no_skip_no_duplicate_witness :
  browse "path" [ex_rows; [ex_row "b" "1"; ex_row "b" "3"]] 2 None = Some ex_rows /\ NoDup ex_rows.
Proof.
  assert (browse "path" [ex_rows; [ex_row "b" "1"; ex_row "b" "3"]] 2 None = Some ex_rows) as H by by vm_compute.
  split; [exact H|]. refine (proj1 (proj2 (browse_no_skip_no_duplicate Texts "path" _ 2 _ _ _ _ H))).
  - apply (bool_decide_unpack _). by vm_compute.
  - unfold MAX_PAGE_SIZE. lia.
  - destruct ex_rows_in_order as [H1 H2]. exact (List.Forall_cons _ _ _ H1 (List.Forall_cons _ _ _ H2 (List.Forall_nil _))).
Defined.

Lemma browse_complete_witness : browse "path" (replicate 4 ex_rows) 1 None = Some ex_rows.
Proof.
  apply (browse_complete Texts "path").
  - apply (bool_decide_unpack _). by vm_compute.
  - unfold MAX_PAGE_SIZE. lia.
  - apply ex_rows_in_order.
  - cbn. lia.
Defined.

(** A total larger than the window of rows passed in makes the page read past its end. *)
Example total_beyond_window : fetch_page [ex_row "a" "1"] "path" 2 None (Some 5) = Err TableIndexError.
Proof. reflexivity. Qed.
