(* ===== verification/DeviceWizard.v ===== *)
(** * The wizard of a new scan (src/worker/device_wizard.py)

    Source cards built from sanitized device facts, the change of the medium in a reader, the
    decision whether the scan of a card may start, and the state of the whole wizard.  The main
    theorem gives the facts that must hold of the one device whenever the wizard allows a start,
    and shows that they are enough. *)

From Stdlib Require Import ZArith Lia String Ascii.
From stdpp Require Import base list strings gmap sorting.
From S2P Require Import Prelude PyStr Json Identifiers Messages MediaIdentity MediaCheckpoints RemovableSources.

Local Open Scope string_scope.
Local Open Scope Z_scope.

(** worker/device_wizard.py:21-21 SOURCE_GROUPS *)
Definition SOURCE_GROUPS : list string := ["disk"; "flash"; "optical"; "floppy"].
(** worker/device_wizard.py:23-23 CARD_STATES *)
Definition CARD_STATES : list string := ["ready"; "needs_confirmation"; "ambiguous"; "blocked"; "empty"].
(** worker/device_wizard.py:25-25 HEALTH_FAILED *)
Definition HEALTH_FAILED : list string := ["failed"; "critical"].
(** worker/device_wizard.py:27-27 MOUNT_POINT_FIELDS *)
Definition MOUNT_POINT_FIELDS : list string := ["mount_points"; "mounts"].
(** worker/device_wizard.py:29-34 MEDIUM_SIGNAL_COMPARISON_FIELDS *)
Definition MEDIUM_SIGNAL_COMPARISON_FIELDS : list string :=
  ["capacity_bytes"; "geometry"; "toc_sessions"; "sampled_fingerprint_sha256"].

(** worker/device_wizard.py:37-38 DeviceWizardError, and the [TypeError] of an unhashable device type. *)
Inductive wizard_error := DeviceWizardError (code message : string) | WizardTypeError.
Abbreviation wizard := (result wizard_error).

(** ** Cards *)

(** worker/device_wizard.py:41-70 SourceCard *)
Record SourceCard := {
  source_id : string; reader_id : string; source_kind : string; reader_kind : string; group : string;
  medium_present : bool; medium_identity_proven : bool; identity_strength : string;
  identity_warnings : list string; model : option string; serial : option string;
  capacity_bytes : option value; transport : option string; geometry : value; toc_sessions : value;
  mounted : bool; mount_points : list string; mounted_read_only : option bool; is_system_disk : bool;
  system_uses : list string; health_state : string; health_reasons : list string;
  read_only_verified : bool; write_protected : bool; disk_key : option string;
  expected_generation : option value; identity_record : mapping; warnings : list string }.

(** worker/device_wizard.py:73-77 StartEligibility *)
Record StartEligibility := {
  el_state : string; el_block_reasons : list string; el_warnings : list string }.
(** worker/device_wizard.py:80-83 MediaChangeStatus *)
Record MediaChangeStatus := { mc_status : string; mc_reasons : list string }.

(** worker/device_wizard.py:86-95 source_group *)
Definition source_group (source_kind : string) : wizard string :=
  if bool_decide (source_kind ∈ ["fixed_disk"]) then Ok "disk"
  else if bool_decide (source_kind ∈ ["usb_flash"; "memory_card"]) then Ok "flash"
  else if String.eqb source_kind "optical_disc" then Ok "optical"
  else if bool_decide (source_kind ∈ ["floppy_media"; "legacy_medium"]) then Ok "floppy"
  else Err (DeviceWizardError "unknown_source_kind" ("no wizard group for " +:+ repr_string source_kind)).

(** worker/device_wizard.py:324-328 _identity_record *)
Definition identity_of (device : mapping) : mapping :=
  match get_or_none device "medium_identity" with VDict identity => identity | _ => [] end.
(** worker/device_wizard.py:331-335 _signals *)
Definition signals (identity : mapping) : mapping :=
  match get_or_none identity "medium_signals" with VDict signals => signals | _ => [] end.
(** worker/device_wizard.py:406-409 _normalized_fingerprint *)
Definition lowered_fingerprint (v : value) : option string :=
  match v with VStr s => if String.eqb s "" then None else Some (lower s) | _ => None end.
(** worker/device_wizard.py:394-397 _nonnegative_int *)
Definition nonnegative (v : value) : option value :=
  match int_value v with Some z => if 0 <=? z then Some v else None | None => None end.
(** worker/device_wizard.py:400-403 _string_tuple *)
Definition string_tuple (v : value) : list string :=
  match v with VList l => omap (fun item => match item with VStr s => Some s | _ => None end) l | _ => [] end.
(** worker/device_wizard.py:384-385 _optional_string *)
Definition optional_string (v : value) : option string :=
  match v with VStr s => if String.eqb s "" then None else Some s | _ => None end.
(** worker/device_wizard.py:378-381 _required_string *)
Definition required_string (v : value) (name : string) : wizard string :=
  match v with
  | VStr s => if String.eqb s "" then Err (DeviceWizardError "missing_field" (name +:+ " must be a non-empty string"))
              else Ok s
  | _ => Err (DeviceWizardError "missing_field" (name +:+ " must be a non-empty string"))
  end.

(** worker/device_wizard.py:338-340 _identity_proven *)
Definition identity_proven (identity : mapping) : bool :=
  let strength := py_str (py_or (get_or_none identity "identity_strength") (VStr "")) in
  bool_decide (strength ∈ IDENTITY_STRENGTHS) && negb (String.eqb strength "reader-facts").
(** worker/device_wizard.py:343-347 _medium_present *)
Definition has_medium (identity : mapping) : bool :=
  let signals := signals identity in
  match positive_int (get_or_none signals "capacity_bytes") with
  | Some _ => true
  | None => match lowered_fingerprint (get_or_none signals "sampled_fingerprint_sha256") with
            | Some _ => true | None => false end
  end.
(** worker/device_wizard.py:369-375 _mount_points *)
Definition mount_points_of (device : mapping) : list string :=
  dedup (concat ((fun field => string_tuple (get_or_none device field)) <$> MOUNT_POINT_FIELDS)).

Definition health_of (device : mapping) : string :=
  py_str (py_or (get_or_none device "health_state") (VStr "unavailable")).

(** The warnings about the identity of the medium, without repetitions. *)
Definition identity_warnings_of (device : mapping) : list string :=
  let identity := identity_of device in
  dedup (string_tuple (get_or_none identity "warnings") ++ identity_warnings_for device (signals identity)
         ++ (if is_removable device && bool_decide (optional_string (get_or_none device "serial") = None)
             then ["missing_serial"] else []))%list.

(** All warnings of a card. *)
Definition card_warnings (device : mapping) : list string :=
  let health := health_of device in
  dedup (identity_warnings_of device
         ++ (if bool_decide (health ∈ ["failed"; "critical"]) then ["health_failed"]
             else if String.eqb health "warning" then ["health_warning"]
             else if bool_decide (health ∈ ["unavailable"; "unknown"]) then ["health_unavailable"] else [])
         ++ (if bool_decide (mount_points_of device <> []) && negb (truthy (get_or_none device "read_only"))
             then ["source_mounted_read_write"] else []))%list.

(** worker/device_wizard.py:98-152 build_source_card *)
Definition build_source_card (device : mapping) : wizard SourceCard :=
  let get k := get_or_none device k in
  let kind := source_kind_for_device device in
  let identity := identity_of device in
  let facts := signals identity in
  let points := mount_points_of device in
  let is_mounted := bool_decide (points <> []) in
  id ← required_string (get "source_id") "source_id";
  reader ← match reader_kind_for_device device with Ok k => Ok k | Err _ => Err WizardTypeError end;
  family ← source_group kind;
  Ok {| source_id := id;
        reader_id := py_str (py_or (get "reader_id") (py_or (get "source_id") (VStr "")));
        source_kind := kind; reader_kind := reader; group := family;
        medium_present := has_medium identity; medium_identity_proven := identity_proven identity;
        identity_strength := py_str (py_or (get_or_none identity "identity_strength") (VStr "unknown"));
        identity_warnings := identity_warnings_of device;
        model := optional_string (get "model"); serial := optional_string (get "serial");
        capacity_bytes := positive_int (get_or_none facts "capacity_bytes");
        transport := optional_string (get "transport");
        geometry := get_or_none facts "geometry"; toc_sessions := get_or_none facts "toc_sessions";
        mounted := is_mounted; mount_points := points;
        mounted_read_only := if is_mounted then Some (truthy (get "read_only")) else None;
        is_system_disk := truthy (get "is_system_disk"); system_uses := string_tuple (get "system_uses");
        health_state := health_of device; health_reasons := string_tuple (get "health_reasons");
        read_only_verified := truthy (get "read_only_verified");
        write_protected := truthy (py_or (get "write_protected") (get "sd_lock"));
        disk_key := optional_string (py_or (get "disk_key") (py_or (get "major_minor") (get "parent_disk_id")));
        expected_generation := nonnegative (get "media_change_generation");
        identity_record := identity; warnings := card_warnings device |}.

(** worker/device_wizard.py:155-161 group_sources *)
Definition group_sources (devices : list mapping) : wizard (list (string * list SourceCard)) :=
  cards ← mapM_result build_source_card devices;
  Ok (filter_b (fun p => bool_decide (p.2 <> []))
        ((fun g => (g, filter_b (fun c => String.eqb (group c) g) cards)) <$> SOURCE_GROUPS)).

(** ** Starting a scan *)

(** worker/device_wizard.py:164-198 media_change_status *)
Definition media_change_status (card : SourceCard) (previous_record : option mapping) : MediaChangeStatus :=
  match previous_record with
  | None => {| mc_status := "new"; mc_reasons := [] |}
  | Some record =>
    let previous := signals record in
    let strength := py_str (py_or (get_or_none record "identity_strength") (VStr "unknown")) in
    if String.eqb strength "reader-facts" || negb (medium_identity_proven card)
    then {| mc_status := "unproven"; mc_reasons := ["no_proven_medium_identity"] |}
    else
      let current := signals (identity_record card) in
      match lowered_fingerprint (get_or_none current "sampled_fingerprint_sha256") with
      | None => {| mc_status := "unproven"; mc_reasons := ["missing_fingerprint"] |}
      | Some fingerprint =>
        if match lowered_fingerprint (get_or_none previous "sampled_fingerprint_sha256") with
           | Some p => negb (String.eqb fingerprint p) | None => false end
        then {| mc_status := "replaced_medium"; mc_reasons := ["fingerprint_mismatch"] |}
        else
          let changed := filter_b (fun field => negb (String.eqb field "sampled_fingerprint_sha256")
                                     && negb (py_eq (get_or_none current field) (get_or_none previous field)))
                           MEDIUM_SIGNAL_COMPARISON_FIELDS in
          if bool_decide (changed <> [])
          then {| mc_status := "changed_signals"; mc_reasons := (fun field => field +:+ "_changed") <$> changed |}
          else {| mc_status := "same_medium"; mc_reasons := [] |}
      end
  end.

(** worker/device_wizard.py:350-359 _confirmation_matches *)
Definition confirmation_matches (card : SourceCard) (confirmation : option mapping) : bool :=
  match confirmation with
  | None | Some [] => false
  | Some c =>
    let source_match := is_text (get_or_none c "source_id") (source_id card) in
    match int_value (get_or_none c "media_change_generation") with
    | None => false
    | Some generation =>
      if generation <? 0 then false
      else if match expected_generation card with Some g => negb (is_int g generation) | None => false end then false
      else source_match
    end
  end.

(** worker/device_wizard.py:362-366 _destination_on_source_disk *)
Definition destination_on_source_disk (card : SourceCard) (destination : option mapping) : bool :=
  match destination, disk_key card with
  | Some d, Some key => is_text (get_or_none d "disk_key") key
  | _, _ => false
  end.

(** The reasons that block a card whose medium is present and proven. *)
Definition block_reasons (card : SourceCard) (confirmation previous_record destination : option mapping) : list string :=
  let change := media_change_status card previous_record in
  ((if bool_decide (mc_status change ∈ ["replaced_medium"; "changed_signals"]) then ["media_changed"] else []) ++
   (if negb (confirmation_matches card confirmation) then ["confirmation_required"] else []) ++
   (if is_system_disk card then ["system_disk"] else []) ++
   (if negb (read_only_verified card) then ["read_only_not_verified"] else []) ++
   (if mounted card && negb (bool_decide (mounted_read_only card = Some true))
    then ["source_mounted_read_write"] else []) ++
   (if destination_on_source_disk card destination then ["destination_on_source_disk"] else []) ++
   (if bool_decide (health_state card ∈ HEALTH_FAILED) then ["health_failed"] else []))%list.

(** worker/device_wizard.py:201-235 confirm_source *)
Definition confirm_source (card : SourceCard) (confirmation previous_record destination : option mapping) : StartEligibility :=
  if negb (medium_present card)
  then {| el_state := "empty"; el_block_reasons := ["no_medium_present"]; el_warnings := warnings card |}
  else if negb (medium_identity_proven card)
  then {| el_state := "ambiguous"; el_block_reasons := ["medium_identity_unproven"]; el_warnings := warnings card |}
  else
    let reasons := block_reasons card confirmation previous_record destination in
    if bool_decide (reasons <> [])
    then {| el_state := "blocked"; el_block_reasons := dedup reasons; el_warnings := warnings card |}
    else if bool_decide (mc_status (media_change_status card previous_record) ∈ ["replaced_medium"; "changed_signals"])
    then {| el_state := "needs_confirmation"; el_block_reasons := []; el_warnings := warnings card |}
    else {| el_state := "ready"; el_block_reasons := []; el_warnings := warnings card |}.

(** The dictionary [wizard_state] returns. *)
Record WizardState := {
  ws_can_start : bool; ws_cannot_start_reasons : list string;
  ws_cards : list (SourceCard * StartEligibility); ws_auto_started : bool }.

(** worker/device_wizard.py:238-281 wizard_state *)
Definition wizard_state (devices : list mapping) (confirmations previous_records : list (string * mapping))
    (destination : mapping) : wizard WizardState :=
  cards ← mapM_result build_source_card devices;
  let per_card := (fun card => (card, confirm_source card (dict_get confirmations (source_id card))
                                        (dict_get previous_records (source_id card)) (Some destination))) <$> cards in
  let ready := filter_b (fun p => String.eqb (el_state p.2) "ready") per_card in
  Ok {| ws_can_start := (zlen ready =? 1) && (zlen cards =? 1);
        ws_cannot_start_reasons := if negb (zlen cards =? 1) then ["one_source_required"]
                                   else if bool_decide (ready = []) then ["no_ready_source"] else [];
        ws_cards := per_card; ws_auto_started := false |}.

(** ** The summary *)

Definition opt_value (o : option string) : value := match o with Some s => VStr s | None => VNone end.

(** worker/device_wizard.py:284-321 configuration_summary *)
Definition configuration_summary (card : SourceCard) (destination scratch : mapping) (resource_profile : string) : mapping :=
  let place d := VDict [("separate_from_source", VBool (truthy (get_or_none d "separate_from_source")));
                        ("kind", get_or_none d "kind")] in
  [("source", VDict
     [("source_id", VStr (source_id card)); ("reader_id", VStr (reader_id card));
      ("source_kind", VStr (source_kind card)); ("reader_kind", VStr (reader_kind card));
      ("identity_strength", VStr (identity_strength card)); ("capacity_bytes", default VNone (capacity_bytes card));
      ("transport", opt_value (transport card)); ("geometry", geometry card); ("toc_sessions", toc_sessions card)]);
   ("destination", place destination); ("scratch", place scratch);
   ("resource_profile", VStr resource_profile);
   ("safety", VDict
     [("read_only_verified", VBool (read_only_verified card)); ("write_protected", VBool (write_protected card));
      ("medium_identity_proven", VBool (medium_identity_proven card)); ("is_system_disk", VBool (is_system_disk card))])].

(** ** When a scan may start *)

(** The medium is known to differ from the one of [record]: both are identified, and the
    fingerprints or a compared signal differ. *)
Definition medium_changed (identity record : mapping) : Prop :=
  py_str (py_or (get_or_none record "identity_strength") (VStr "unknown")) <> "reader-facts" /\
  exists f, lowered_fingerprint (get_or_none (signals identity) "sampled_fingerprint_sha256") = Some f /\
    ((exists p, lowered_fingerprint (get_or_none (signals record) "sampled_fingerprint_sha256") = Some p /\ p <> f) \/
     exists field, field ∈ ["capacity_bytes"; "geometry"; "toc_sessions"] /\
       py_eq (get_or_none (signals identity) field) (get_or_none (signals record) field) = false).

(** The operator confirmed this source in this generation of its medium. *)
Definition confirms (device confirmation : mapping) : Prop :=
  get_or_none confirmation "source_id" = get_or_none device "source_id" /\
  exists z, int_value (get_or_none confirmation "media_change_generation") = Some z /\ 0 <= z /\
    forall g, int_value (get_or_none device "media_change_generation") = Some g -> 0 <= g -> g = z.

(** The name of the disk a device lies on. *)
Definition disk_of (device : mapping) : option string :=
  optional_string (py_or (get_or_none device "disk_key")
    (py_or (get_or_none device "major_minor") (get_or_none device "parent_disk_id"))).

(** The facts a start needs. *)
Record startable (device : mapping) (confirmation previous : option mapping) (destination : mapping) : Prop := {
  st_medium : has_medium (identity_of device) = true;
  st_proven : identity_proven (identity_of device) = true;
  st_unchanged : forall record, previous = Some record -> ~ medium_changed (identity_of device) record;
  st_confirmed : exists c, confirmation = Some c /\ confirms device c;
  st_no_system_disk : truthy (get_or_none device "is_system_disk") = false;
  st_read_only : truthy (get_or_none device "read_only_verified") = true;
  st_mounts : mount_points_of device = [] \/ truthy (get_or_none device "read_only") = true;
  st_destination : forall key, disk_of device = Some key -> get_or_none destination "disk_key" <> VStr key;
  st_health : health_of device ∉ HEALTH_FAILED }.

Lemma build_card_spec device card :
  build_source_card device = Ok card ->
  get_or_none device "source_id" = VStr (source_id card) /\
  medium_present card = has_medium (identity_of device) /\
  medium_identity_proven card = identity_proven (identity_of device) /\
  identity_record card = identity_of device /\
  expected_generation card = nonnegative (get_or_none device "media_change_generation") /\
  is_system_disk card = truthy (get_or_none device "is_system_disk") /\
  read_only_verified card = truthy (get_or_none device "read_only_verified") /\
  mounted card = bool_decide (mount_points_of device <> []) /\
  mounted_read_only card = (if bool_decide (mount_points_of device <> []) then Some (truthy (get_or_none device "read_only")) else None) /\
  disk_key card = disk_of device /\ health_state card = health_of device /\ warnings card = card_warnings device.
Proof.
  unfold build_source_card. intros (id & Hid & Hb)%bind_ok.
  apply bind_ok in Hb as (reader & _ & (family & _ & [= <-])%bind_ok). cbn.
  split; [|done].
  unfold required_string in Hid. destruct (get_or_none device "source_id") as [| | |s| | |]; try done.
  destruct (String.eqb s ""); by simplify_eq.
Qed.

Lemma media_change_blocks card record :
  medium_identity_proven card = true ->
  mc_status (media_change_status card (Some record)) ∈ ["replaced_medium"; "changed_signals"] <->
  medium_changed (identity_record card) record.
Proof.
  intros Hp. unfold media_change_status, medium_changed. rewrite Hp, orb_false_r.
  set (st := py_str _). destruct (String.eqb_spec st "reader-facts") as [->|Hs].
  { split; [|by intros [? _]]. cbn. by rewrite !elem_of_cons, elem_of_nil; intros [?|[?|[]]]. }
  destruct (lowered_fingerprint (get_or_none (signals (identity_record card)) _)) as [f|] eqn:Hf.
  2: { split; [|by intros (_ & ? & [=] & _)]. cbn. by rewrite !elem_of_cons, elem_of_nil; intros [?|[?|[]]]. }
  set (differs := filter_b _ MEDIUM_SIGNAL_COMPARISON_FIELDS).
  assert (Hd : differs <> [] <-> exists field, field ∈ ["capacity_bytes"; "geometry"; "toc_sessions"] /\
            py_eq (get_or_none (signals (identity_record card)) field) (get_or_none (signals record) field) = false).
  { split.
    - intros Hne. destruct differs as [|x l] eqn:E; [done|]. exists x.
      assert (Hx : x ∈ differs) by (rewrite E; left). unfold differs in Hx. apply elem_of_filter_b in Hx as [Hx Hb].
      apply andb_true_iff in Hb as [Hb1 Hb2%negb_true_iff]. split; [|done].
      unfold MEDIUM_SIGNAL_COMPARISON_FIELDS in Hx. rewrite !elem_of_cons, elem_of_nil in *.
      destruct Hx as [->|[->|[->|[->|[]]]]]; naive_solver.
    - intros (x & Hx & Hb). assert (Hi : x ∈ differs); [|by intros E; rewrite E in Hi; apply elem_of_nil in Hi].
      apply elem_of_filter_b. rewrite Hb, andb_true_r. unfold MEDIUM_SIGNAL_COMPARISON_FIELDS.
      rewrite !elem_of_cons, elem_of_nil in *. destruct Hx as [->|[->|[->|[]]]]; split; naive_solver. }
  destruct (lowered_fingerprint (get_or_none (signals record) _)) as [p|] eqn:Hq.
  - destruct (String.eqb_spec f p) as [->|Hne]; cbn [negb].
    + destruct (bool_decide_reflect (differs <> [])) as [Hn|Hn]; cbn.
      * split; [intros _; split; [done|]; exists p; split; [done|by right; apply Hd]|set_solver].
      * split; [rewrite !elem_of_cons, elem_of_nil; by intros [?|[?|[]]]|].
        intros (_ & f' & [= <-] & [(p' & [= <-] & ?)|He]); [done|by apply Hd in He].
    + split; [|cbn; set_solver]. intros _. split; [done|]. exists f. split; [done|]. left. exists p. naive_solver.
  - destruct (bool_decide_reflect (differs <> [])) as [Hn|Hn]; cbn.
    + split; [intros _; split; [done|]; exists f; split; [done|by right; apply Hd]|set_solver].
    + split; [rewrite !elem_of_cons, elem_of_nil; by intros [?|[?|[]]]|].
      intros (_ & f' & [= <-] & [(p' & [=] & ?)|He]). by apply Hd in He.
Qed.

Lemma confirmation_matches_spec device card confirmation :
  build_source_card device = Ok card ->
  confirmation_matches card confirmation = true <-> exists c, confirmation = Some c /\ confirms device c.
Proof.
  intros Hb. pose proof (build_card_spec device card Hb) as (Hid & _ & _ & _ & Hg & _).
  unfold confirmation_matches, confirms. rewrite Hg, Hid. destruct confirmation as [c|].
  2: { split; [done|by intros (? & [=] & _)]. }
  transitivity (exists z, int_value (get_or_none c "media_change_generation") = Some z /\ 0 <= z /\
     (forall g, int_value (get_or_none device "media_change_generation") = Some g -> 0 <= g -> g = z) /\
     get_or_none c "source_id" = VStr (source_id card)).
  2: { split; [intros (z & ? & ? & ? & ?)|intros (c' & [= <-] & ? & z & ? & ? & ?)]; [exists c|exists z]; naive_solver. }
  destruct c as [|kv c]; [split; [done|by intros (? & [=] & _)]|].
  destruct (int_value (get_or_none (kv :: c) "media_change_generation")) as [z|]; [|naive_solver].
  destruct (Z.ltb_spec z 0) as [Hz|Hz]; [split; [done|intros (? & [= <-] & ? & _); lia]|].
  unfold nonnegative. destruct (get_or_none device "media_change_generation") as [|[]|n| | | |]; cbn -[is_text get_or_none Z.eqb Z.leb]; try change (0 <=? 1) with true; try change (0 <=? 0) with true; cbn -[is_text get_or_none Z.eqb Z.leb].
  1, 5-8: rewrite is_text_true; naive_solver.
  - destruct (Z.eqb_spec 1 z) as [<-|Hn]; cbn -[is_text get_or_none Z.eqb Z.leb]; try change (0 <=? 1) with true; try change (0 <=? 0) with true; cbn -[is_text get_or_none Z.eqb Z.leb]; rewrite ?is_text_true; [by split; [intros; eexists; split_and!; [done|lia|by intros ? [= <-]|done]|naive_solver]|].
    split; [done|intros (? & [= <-] & _ & Hx & _)]. by specialize (Hx 1 eq_refl ltac:(lia)).
  - destruct (Z.eqb_spec 0 z) as [<-|Hn]; cbn -[is_text get_or_none Z.eqb Z.leb]; try change (0 <=? 1) with true; try change (0 <=? 0) with true; cbn -[is_text get_or_none Z.eqb Z.leb]; rewrite ?is_text_true; [by split; [intros; eexists; split_and!; [done|lia|by intros ? [= <-]|done]|naive_solver]|].
    split; [done|intros (? & [= <-] & _ & Hx & _)]. by specialize (Hx 0 eq_refl ltac:(lia)).
  - destruct (Z.leb_spec 0 n) as [Hn|Hn]; cbn -[is_text get_or_none Z.eqb Z.leb]; try change (0 <=? 1) with true; try change (0 <=? 0) with true; cbn -[is_text get_or_none Z.eqb Z.leb].
    + destruct (Z.eqb_spec n z) as [<-|Hne]; cbn -[is_text get_or_none Z.eqb Z.leb]; try change (0 <=? 1) with true; try change (0 <=? 0) with true; cbn -[is_text get_or_none Z.eqb Z.leb]; rewrite ?is_text_true; [by split; [intros; eexists; split_and!; [done|lia|by intros ? [= <-]|done]|naive_solver]|].
      split; [done|intros (? & [= <-] & _ & Hx & _)]. by specialize (Hx n eq_refl Hn).
    + rewrite is_text_true. split; [intros; eexists; split_and!; [done|lia|intros ? [= <-]; lia|done]|naive_solver].
Qed.

Lemma ite_nil {A} (b : bool) (x : A) : (if b then [x] else []) = [] <-> b = false.
Proof. by destruct b. Qed.

Lemma block_reasons_nil device card confirmation previous destination :
  build_source_card device = Ok card -> medium_identity_proven card = true ->
  block_reasons card confirmation previous (Some destination) = [] <->
  (forall record, previous = Some record -> ~ medium_changed (identity_of device) record) /\
  (exists c, confirmation = Some c /\ confirms device c) /\
  truthy (get_or_none device "is_system_disk") = false /\ truthy (get_or_none device "read_only_verified") = true /\
  (mount_points_of device = [] \/ truthy (get_or_none device "read_only") = true) /\
  (forall key, disk_of device = Some key -> get_or_none destination "disk_key" <> VStr key) /\
  health_of device ∉ HEALTH_FAILED.
Proof.
  intros Hb Hp. pose proof (build_card_spec device card Hb) as (_ & _ & _ & Hi & _ & Hs & Hr & Hm & Hmr & Hk & Hh & _).
  unfold block_reasons. rewrite !app_nil, !ite_nil, !negb_false_iff, Hs, Hr, Hh.
  rewrite (confirmation_matches_spec device card) by done. rewrite !bool_decide_eq_false.
  repeat apply and_iff_compat_l || f_equiv.
  - destruct previous as [record|].
    + rewrite (media_change_blocks card record Hp), Hi. naive_solver.
    + cbn. rewrite !elem_of_cons, elem_of_nil. naive_solver.
  - rewrite Hm, Hmr. set (points := mount_points_of device).
    destruct (bool_decide_reflect (points <> [])) as [Hn|Hn]; cbn.
    + rewrite negb_false_iff, bool_decide_eq_true. split; [intros [= ?]; by right|by intros [?| ->]].
    + apply dec_stable in Hn. naive_solver.
  - unfold destination_on_source_disk. rewrite Hk. destruct (disk_of device) as [key|]; [|naive_solver].
    rewrite <- not_true_iff_false, is_text_true. naive_solver.
Qed.

Lemma confirm_ready_iff device card confirmation previous destination :
  build_source_card device = Ok card ->
  el_state (confirm_source card confirmation previous (Some destination)) = "ready" <->
  startable device confirmation previous destination.
Proof.
  intros Hb. pose proof (build_card_spec device card Hb) as (_ & Hm & Hp & _).
  transitivity (medium_present card = true /\ medium_identity_proven card = true /\
                block_reasons card confirmation previous (Some destination) = []).
  - unfold confirm_source. destruct (medium_present card); [|naive_solver].
    destruct (medium_identity_proven card); [|naive_solver].
    destruct (bool_decide_reflect (block_reasons card confirmation previous (Some destination) <> [])) as [Hn|Hn]; [naive_solver|].
    apply dec_stable in Hn. pose proof Hn as Hn'. unfold block_reasons in Hn'. apply app_nil in Hn' as [Hc%ite_nil _].
    rewrite Hc. naive_solver.
  - split.
    + intros (Hm' & Hp' & Hr). apply (block_reasons_nil device) in Hr as (?&?&?&?&?&?&?); [|done..].
      split; [congruence|congruence|done..].
    + intros []. rewrite Hm, Hp. split; [done|]. split; [done|]. apply (block_reasons_nil device); [done|congruence|done].
Qed.

(** The state [needs_confirmation] is never given: a changed medium is already blocked. *)
Lemma never_needs_confirmation card confirmation previous destination :
  el_state (confirm_source card confirmation previous destination) ∈ ["ready"; "ambiguous"; "blocked"; "empty"].
Proof.
  unfold confirm_source. destruct (medium_present card); [|set_solver].
  destruct (medium_identity_proven card); [|set_solver]. cbn [negb].
  destruct (bool_decide_reflect (block_reasons card confirmation previous destination <> [])) as [Hn|Hn]; [set_solver|].
  apply dec_stable in Hn. unfold block_reasons in Hn. apply app_nil in Hn as [Hc%ite_nil _]. rewrite Hc. set_solver.
Qed.

Lemma mapM_singleton {E A B} (f : A -> result E B) l ys y :
  mapM_result f l = Ok ys -> ys = [y] <-> exists x, l = [x] /\ f x = Ok y.
Proof.
  destruct l as [|x [|x' l]]; cbn.
  - intros [= <-]. naive_solver.
  - intros (b & Hb & [= <-])%bind_ok. split; [intros [= ->]; by exists x|intros (? & [= <-] & ?); congruence].
  - intros (b & Hb & (c & (d & Hd & (e & _ & [= <-])%bind_ok)%bind_ok & [= <-])%bind_ok)%bind_ok.
    split; [done|by intros (? & ? & ?)].
Qed.

(** C21. The wizard lets a scan start exactly when one device is shown and every fact a start needs
    holds of it: a medium is present and identified, it is not known to differ from the one seen
    before, the operator confirmed this source in this generation of its medium, it is not a system
    disk, read-only access was verified, nothing mounts it writable, the destination is not on its
    disk and its health has not failed.  Nothing is ever started by the wizard itself. *)
Theorem wizard_start_exact devices confirmations previous_records destination w :
  wizard_state devices confirmations previous_records destination = Ok w ->
  ws_auto_started w = false /\
  (ws_can_start w = true <->
   exists device card, devices = [device] /\ build_source_card device = Ok card /\
     startable device (dict_get confirmations (source_id card)) (dict_get previous_records (source_id card)) destination).
Proof.
  intros (cards & Hc & [= <-])%bind_ok. cbn. split; [done|].
  rewrite andb_true_iff, !Z.eqb_eq. split.
  - intros [Hr Hl]. destruct cards as [|card [|? ?]]; [done| |unfold zlen in Hl; cbn in Hl; lia].
    pose proof (proj1 (mapM_singleton _ _ _ card Hc) eq_refl) as (device & -> & Hb). exists device, card.
    split; [done|]. split; [done|]. apply (confirm_ready_iff device card); [done|]. cbn in Hr.
    destruct (String.eqb_spec (el_state (confirm_source card (dict_get confirmations (source_id card))
      (dict_get previous_records (source_id card)) (Some destination))) "ready"); done.
  - intros (device & card & -> & Hb & Hs). pose proof (proj2 (mapM_singleton _ _ _ card Hc) (ex_intro _ device (conj eq_refl Hb))) as ->.
    cbn. apply (confirm_ready_iff device card) in Hs as ->; done.
Qed.

(** A flash drive with an identified medium, its confirmation, and the same drive without a sample. *)
Definition demo_stick (fingerprint : value) : mapping :=
  [("source_id", VStr "source_1"); ("reader_id", VStr "reader_1"); ("device_type", VStr "usb_storage");
   ("removable", VBool true); ("serial", VStr "A1"); ("read_only_verified", VBool true);
   ("health_state", VStr "healthy"); ("major_minor", VStr "8:16"); ("media_change_generation", VInt 3);
   ("medium_identity", VDict
      [("identity_strength", VStr "reader-plus-medium");
       ("medium_signals", VDict [("capacity_bytes", VInt 4096); ("sampled_fingerprint_sha256", fingerprint)])])].
Definition demo_confirmation : mapping := [("source_id", VStr "source_1"); ("media_change_generation", VInt 3)].
Definition demo_previous : mapping :=
  [("identity_strength", VStr "reader-plus-medium");
   ("medium_signals", VDict [("capacity_bytes", VInt 9999); ("sampled_fingerprint_sha256", VStr "aa")])].

Definition starts (device : mapping) (previous : list (string * mapping)) : wizard bool :=
  w ← wizard_state [device] [("source_1", demo_confirmation)] previous [("disk_key", VStr "8:32")]; Ok (ws_can_start w).

Lemma wizard_start_exact_witness :
  exists w, wizard_state [demo_stick (VStr "aa")] [("source_1", demo_confirmation)] [] [("disk_key", VStr "8:32")] = Ok w /\
    ws_can_start w = true /\ ws_auto_started w = false.
Proof.
  eexists. split; [reflexivity|]. split; [reflexivity|].
  exact (proj1 (wizard_start_exact [demo_stick (VStr "aa")] [("source_1", demo_confirmation)] [] [("disk_key", VStr "8:32")] _ eq_refl)).
Defined.

Example replaced_stick_blocked : starts (demo_stick (VStr "bb")) [("source_1", demo_previous)] = Ok false.
Proof. vm_compute. reflexivity. Qed.

(** A medium whose sample could not be read is not told from its predecessor, even when its
    capacity differs: it starts. *)
Example unproven_change_starts : starts (demo_stick VNone) [("source_1", demo_previous)] = Ok true.
Proof. vm_compute. reflexivity. Qed.
