(* ===== verification/MediumWorkflow.v ===== *)
(** * One medium after the other (src/worker/medium_workflow.py)

    The state of a reader, the estimate of the scratch space, the batch plan over the cards of
    [DeviceWizard], the guard against destructive controls and the snapshot for the interface.
    The plan is shown to be a closed form over the list of cards with at most one ready step. *)

From Stdlib Require Import ZArith Lia String Ascii SpecFloat.
From stdpp Require Import base list strings gmap.
From S2P Require Import Prelude PyStr Json Identifiers Messages MediaIdentity DeviceWizard.

Local Open Scope string_scope.
Local Open Scope Z_scope.

(** worker/medium_workflow.py:22-24 DESTRUCTIVE_LABELS *)
Definition DESTRUCTIVE_LABELS : list string :=
  ["erase"; "format"; "initialize"; "burn"; "blank"; "repair"; "wipe"; "delete"].

(** worker/medium_workflow.py:27-28 MediumWorkflowError, and the errors of arithmetic on floats. *)
Inductive workflow_error := MediumWorkflowError (code message : string) | FloatOverflow | FloatNotANumber.
Abbreviation workflow := (result workflow_error).

(** worker/medium_workflow.py:31-34 InsertionState *)
Record InsertionState := { in_state : string; in_reasons : list string }.
(** worker/medium_workflow.py:37-42 ScratchEstimate *)
Record ScratchEstimate := {
  needed_bytes : Z; available_bytes : Z; sufficient : bool; scratch_reason : option string }.
(** worker/medium_workflow.py:45-54 BatchStep *)
Record BatchStep := {
  bs_order : Z; bs_source_id : string; bs_reader_id : string; bs_medium_present : bool;
  bs_medium_identity_proven : bool; bs_status : string; bs_can_finish : bool; bs_can_insert_next : bool }.

(** worker/medium_workflow.py:57-63 insertion_state *)
Definition insertion_state (card : SourceCard) : InsertionState :=
  if negb (medium_present card) then {| in_state := "empty"; in_reasons := ["no_medium_present"] |}
  else if negb (medium_identity_proven card)
  then {| in_state := "unsupported"; in_reasons := ["medium_identity_unproven"] |}
  else {| in_state := "present"; in_reasons := [] |}.

(** worker/medium_workflow.py:66-72 unsupported_medium_explanation *)
Definition unsupported_medium_explanation (card : SourceCard) : string :=
  if negb (medium_present card) then "Insert a supported medium into this reader to continue."
  else if medium_present card && negb (medium_identity_proven card)
  then "A medium is present but its identity could not be proven; replace it and try again."
  else "This medium is supported and ready for scanning.".

(** ** Scratch space *)

(** A Python float is a binary64 number. *)
Definition prec : Z := 53.
Definition emax : Z := 1024.

(** [float(z)]: to nearest, ties to even. *)
Definition float_of_int (z : Z) : workflow spec_float :=
  match binary_normalize prec emax z 0 false with S754_infinity _ => Err FloatOverflow | f => Ok f end.

(** [int(f)]: towards zero. *)
Definition int_of_float (f : spec_float) : workflow Z :=
  match f with
  | S754_zero _ => Ok 0
  | S754_infinity _ => Err FloatOverflow
  | S754_nan => Err FloatNotANumber
  | S754_finite s m e =>
    let magnitude := if 0 <=? e then Zpos m * 2 ^ e else Zpos m / 2 ^ (- e) in
    Ok (if s : bool then - magnitude else magnitude)
  end.

(** The default multiplier, 1.5. *)
Definition one_and_a_half : spec_float := S754_finite false 6755399441055744 (-52).

Definition capacity_of (card : SourceCard) : Z :=
  match capacity_bytes card with Some v => default 0 (int_value v) | None => 0 end.

(** worker/medium_workflow.py:75-97 scratch_estimate *)
Definition scratch_estimate (card : SourceCard) (available : Z) (multiplier : spec_float) : workflow ScratchEstimate :=
  if SFleb multiplier (S754_zero false)
  then Err (MediumWorkflowError "invalid_multiplier" "scratch multiplier must be positive")
  else
    let capacity := capacity_of card in
    factor ← float_of_int capacity;
    scaled ← int_of_float (SFmul prec emax factor multiplier);
    let needed := Z.max 1 scaled in
    Ok (if negb (capacity =? 0) && (available <? needed)
        then {| needed_bytes := needed; available_bytes := available; sufficient := false;
                scratch_reason := Some "insufficient_scratch" |}
        else {| needed_bytes := needed; available_bytes := available; sufficient := true; scratch_reason := None |}).

(** ** The batch plan *)

(** The body of the loop for the card at [index]: the step, its warnings and the new
    [seen_readers]. *)
Definition plan_card (total index : Z) (completed : list string) (seen : list (string * string)) (card : SourceCard)
    : BatchStep * list string * list (string * string) :=
  let status := if bool_decide (source_id card ∈ completed) then "completed"
                else if (index =? 0) && medium_identity_proven card then "ready" else "queued" in
  let replaced := match dict_get seen (reader_id card) with
                  | Some previous => negb (String.eqb previous "") && negb (String.eqb previous (source_id card))
                  | None => false end in
  let status := if replaced && negb (String.eqb status "completed") then "queued" else status in
  ({| bs_order := index; bs_source_id := source_id card; bs_reader_id := reader_id card;
      bs_medium_present := medium_present card; bs_medium_identity_proven := medium_identity_proven card;
      bs_status := status; bs_can_finish := bool_decide (status ∈ ["ready"; "completed"]);
      bs_can_insert_next := (index <? total - 1) && String.eqb status "completed" |},
   if replaced then ["same_reader_replaced:" +:+ reader_id card] else [],
   dict_set seen (reader_id card) (source_id card)).

Fixpoint plan_from (total index : Z) (completed : list string) (seen : list (string * string)) (cards : list SourceCard)
    : list (BatchStep * list string) :=
  match cards with
  | [] => []
  | card :: rest => let '(step, notes, seen) := plan_card total index completed seen card in
                    (step, notes) :: plan_from total (index + 1) completed seen rest
  end.

(** worker/medium_workflow.py:100-138 plan_batch *)
Definition plan_batch (cards : list SourceCard) (completed : list string) : list BatchStep * list string :=
  let plan := plan_from (zlen cards) 0 completed [] cards in
  (fst <$> plan, dedup (concat (snd <$> plan))).

(** worker/medium_workflow.py:141-149 assert_no_destructive_controls *)
Fixpoint assert_no_destructive_controls (controls : list string) : workflow unit :=
  match controls with
  | [] => Ok tt
  | control :: rest =>
    if bool_decide (lower (strip control) ∈ DESTRUCTIVE_LABELS)
    then Err (MediumWorkflowError "destructive_control_forbidden"
                ("destructive control " +:+ repr_string control +:+ " must not exist"))
    else assert_no_destructive_controls rest
  end.

(** The dictionary [workflow_snapshot] returns; the scratch fields only repeat the estimate. *)
Record Snapshot := {
  sn_steps : list BatchStep; sn_active_source_id : option string; sn_scratch : option ScratchEstimate;
  sn_warnings : list string; sn_prior_cases_browsable : bool; sn_destructive_controls : list string }.

(** worker/medium_workflow.py:152-204 workflow_snapshot *)
Definition workflow_snapshot (cards : list SourceCard) (completed : list string) (scratch_available : Z)
    (controls : list string) (prior_cases_available : bool) : workflow Snapshot :=
  _ ← assert_no_destructive_controls controls;
  let '(steps, notes) := plan_batch cards completed in
  let active_step := head (filter_b (fun s => String.eqb (bs_status s) "ready") steps) in
  let active_card := match active_step with
                     | Some s => head (filter_b (fun c => String.eqb (source_id c) (bs_source_id s)) cards)
                     | None => None end in
  scratch ← match active_card with
            | Some card => e ← scratch_estimate card scratch_available one_and_a_half; Ok (Some e)
            | None => Ok None end;
  Ok {| sn_steps := steps; sn_active_source_id := bs_source_id <$> active_step; sn_scratch := scratch;
        sn_warnings := notes; sn_prior_cases_browsable := prior_cases_available; sn_destructive_controls := [] |}.

(** ** The plan in closed form *)

(** The source last seen in a reader. *)
Definition last_source (prefix : list SourceCard) (reader : string) : option string :=
  source_id <$> last (filter_b (fun c => String.eqb (reader_id c) reader) prefix).

(** The card follows another medium in its reader. *)
Definition replaces (prefix : list SourceCard) (card : SourceCard) : bool :=
  match last_source prefix (reader_id card) with
  | Some previous => negb (String.eqb previous "") && negb (String.eqb previous (source_id card))
  | None => false end.

(** The status of a card after [prefix]. *)
Definition status_after (completed : list string) (prefix : list SourceCard) (card : SourceCard) : string :=
  if bool_decide (source_id card ∈ completed) then "completed"
  else if bool_decide (prefix = []) && medium_identity_proven card then "ready" else "queued".

Definition step_after (total : Z) (completed : list string) (prefix : list SourceCard) (card : SourceCard) : BatchStep :=
  let status := status_after completed prefix card in
  {| bs_order := zlen prefix; bs_source_id := source_id card; bs_reader_id := reader_id card;
     bs_medium_present := medium_present card; bs_medium_identity_proven := medium_identity_proven card;
     bs_status := status; bs_can_finish := negb (String.eqb status "queued");
     bs_can_insert_next := (zlen prefix <? total - 1) && String.eqb status "completed" |}.

Definition notes_after (prefix : list SourceCard) (card : SourceCard) : list string :=
  if replaces prefix card then ["same_reader_replaced:" +:+ reader_id card] else [].

(** The function over a list that sees what came before each element. *)
Fixpoint map_after {A B} (f : list A -> A -> B) (prefix l : list A) : list B :=
  match l with [] => [] | x :: l => f prefix x :: map_after f (prefix ++ [x])%list l end.

Lemma length_map_after {A B} (f : list A -> A -> B) p l : length (map_after f p l) = length l.
Proof. revert p. by induction l as [|x l IH]; intros p; cbn; rewrite ?IH. Qed.

Lemma lookup_map_after {A B} (f : list A -> A -> B) p l i :
  map_after f p l !! i = (fun x => f (p ++ take i l)%list x) <$> l !! i.
Proof.
  revert p i. induction l as [|x l IH]; intros p [|i]; cbn; [done|done|by rewrite app_nil_r|].
  rewrite IH, <- app_assoc. done.
Qed.

Lemma last_source_snoc prefix card reader :
  last_source (prefix ++ [card]) reader = if String.eqb (reader_id card) reader then Some (source_id card) else last_source prefix reader.
Proof.
  unfold last_source. rewrite filter_b_app. cbn. destruct (String.eqb (reader_id card) reader).
  - by rewrite last_snoc.
  - by rewrite app_nil_r.
Qed.

Lemma plan_from_exact total completed seen prefix cards :
  (forall r, dict_get seen r = last_source prefix r) ->
  plan_from total (zlen prefix) completed seen cards =
  map_after (fun p c => (step_after total completed p c, notes_after p c)) prefix cards.
Proof.
  revert seen prefix. induction cards as [|card cards IH]; intros seen prefix Hseen; [done|].
  cbn [plan_from map_after]. unfold plan_card. rewrite Hseen. fold (replaces prefix card).
  rewrite <- zlen_snoc with (x := card). rewrite IH.
  2: { intros r. rewrite dict_get_set, last_source_snoc, Hseen. by rewrite String.eqb_sym. }
  f_equal. unfold step_after, notes_after. f_equal.
  assert (He : (if replaces prefix card &&
     negb (String.eqb (if bool_decide (source_id card ∈ completed) then "completed"
        else if (zlen prefix =? 0) && medium_identity_proven card then "ready" else "queued") "completed")
     then "queued" else if bool_decide (source_id card ∈ completed) then "completed"
        else if (zlen prefix =? 0) && medium_identity_proven card then "ready" else "queued") = status_after completed prefix card).
  { unfold status_after. destruct (bool_decide (source_id card ∈ completed)); cbn; [by rewrite andb_false_r|].
    destruct prefix as [|c prefix]; [by destruct (medium_identity_proven card)|].
    replace (zlen (c :: prefix) =? 0) with false by (symmetry; apply Z.eqb_neq; rewrite zlen_cons; pose proof (zlen_nonneg prefix); lia).
    rewrite (bool_decide_eq_false_2 (c :: prefix = [])) by done. cbn. by destruct (replaces (c :: prefix) card). }
  rewrite He. f_equal. unfold status_after.
  by destruct (bool_decide (source_id card ∈ completed)), (bool_decide (prefix = []) && medium_identity_proven card).
Qed.

Lemma plan_steps cards completed :
  (plan_batch cards completed).1 = map_after (step_after (zlen cards) completed) [] cards.
Proof.
  unfold plan_batch. rewrite (plan_from_exact _ _ [] []) by done. cbn.
  generalize (@nil SourceCard) as p. generalize (zlen cards) as n. intros n.
  induction cards as [|c cards IH]; intros p; cbn; [done|]. by rewrite IH.
Qed.

(** The one card that may be scanned now. *)
Definition active_card (cards : list SourceCard) (completed : list string) : option SourceCard :=
  match cards with
  | card :: _ => if bool_decide (source_id card ∉ completed) && medium_identity_proven card then Some card else None
  | [] => None
  end.

Lemma status_ready completed prefix card :
  status_after completed prefix card = "ready" <->
  prefix = [] /\ source_id card ∉ completed /\ medium_identity_proven card = true.
Proof.
  unfold status_after. destruct (bool_decide_reflect (source_id card ∈ completed)) as [Hc|Hc]; [naive_solver|].
  destruct (bool_decide_reflect (prefix = [])) as [Hp|Hp], (medium_identity_proven card); naive_solver.
Qed.

Lemma ready_steps cards completed :
  filter_b (fun s => String.eqb (bs_status s) "ready") (plan_batch cards completed).1 =
  match active_card cards completed with
  | Some card => [step_after (zlen cards) completed [] card]
  | None => []
  end.
Proof.
  rewrite plan_steps. destruct cards as [|card cards]; [done|]. set (n := zlen (card :: cards)). clearbody n.
  change (map_after (step_after n completed) [] (card :: cards))
    with ([step_after n completed [] card] ++ map_after (step_after n completed) ([] ++ [card]) cards)%list.
  rewrite filter_b_app.
  assert (Hrest : filter_b (fun s => String.eqb (bs_status s) "ready") (map_after (step_after n completed) ([] ++ [card]) cards) = []).
  { apply filter_b_none. intros s [i Hi]%list_elem_of_lookup. rewrite lookup_map_after in Hi.
    apply fmap_Some in Hi as (c & _ & ->). cbn. apply String.eqb_neq. intros [? _]%status_ready. done. }
  rewrite Hrest, app_nil_r. cbn [active_card filter_b List.filter]. destruct (String.eqb_spec (bs_status (step_after n completed [] card)) "ready") as [Hs|Hs].
  - apply status_ready in Hs as (_ & Hc & ->). by rewrite bool_decide_eq_true_2.
  - destruct (bool_decide_reflect (source_id card ∉ completed)) as [Hc|Hc], (medium_identity_proven card) eqn:Hp; try done.
    destruct Hs. by apply status_ready.
Qed.

Lemma controls_checked controls u :
  assert_no_destructive_controls controls = Ok u <->
  forall control, control ∈ controls -> lower (strip control) ∉ DESTRUCTIVE_LABELS.
Proof.
  destruct u. induction controls as [|control controls IH]; cbn.
  - split; [|done]. by intros _ c ?%elem_of_nil.
  - destruct (bool_decide_reflect (lower (strip control) ∈ DESTRUCTIVE_LABELS)) as [Hd|Hd].
    + split; [done|]. intros Hall. destruct (Hall control); [left|done].
    + rewrite IH. split; [intros Hall c [->|?]%elem_of_cons; auto|intros Hall c ?; apply Hall; by right].
Qed.

(** One medium at a time: in the plan the step of a card is a function of the card and of the
    cards before it; at most one step is ready, which is the first card when it is not completed and
    its medium is identified.  The snapshot names that card as the active one with the scratch
    estimate of its own capacity, and exists only when no control carries a destructive label. *)
Theorem one_medium_at_a_time cards completed available controls prior snapshot :
  workflow_snapshot cards completed available controls prior = Ok snapshot ->
  sn_steps snapshot = map_after (step_after (zlen cards) completed) [] cards /\
  filter_b (fun s => String.eqb (bs_status s) "ready") (sn_steps snapshot) =
    match active_card cards completed with Some card => [step_after (zlen cards) completed [] card] | None => [] end /\
  sn_active_source_id snapshot = source_id <$> active_card cards completed /\
  (forall card, active_card cards completed = Some card ->
     exists e, scratch_estimate card available one_and_a_half = Ok e /\ sn_scratch snapshot = Some e) /\
  (forall control, control ∈ controls -> lower (strip control) ∉ DESTRUCTIVE_LABELS) /\
  sn_destructive_controls snapshot = [].
Proof.
  unfold workflow_snapshot. intros (u & Hu & Hs)%bind_ok. rewrite controls_checked in Hu.
  pose proof (ready_steps cards completed) as Hr. pose proof (plan_steps cards completed) as Hp.
  destruct (plan_batch cards completed) as [steps notes]. cbn [fst] in Hr, Hp.
  apply bind_ok in Hs as (scratch & Hscratch & [= <-]). cbn. rewrite Hr in *.
  split; [done|]. split; [done|]. split; [by destruct (active_card cards completed)|]. split; [|done].
  intros card Hc. rewrite Hc in Hscratch. cbn in Hscratch.
  destruct cards as [|c cards]; [done|]. cbn in Hc. destruct (bool_decide (source_id c ∉ completed) && medium_identity_proven c); [|done].
  injection Hc as ->. cbn in Hscratch. rewrite String.eqb_refl in Hscratch. cbn in Hscratch.
  apply bind_ok in Hscratch as (e & He & [= <-]). by exists e.
Qed.

(** The scratch estimate: never below one byte, and refused exactly when the space is too small for
    a medium of known capacity. *)
Lemma scratch_estimate_spec card available multiplier e :
  scratch_estimate card available multiplier = Ok e ->
  1 <= needed_bytes e /\ available_bytes e = available /\
  (sufficient e = false <-> capacity_of card <> 0 /\ available < needed_bytes e) /\
  (scratch_reason e = None <-> sufficient e = true).
Proof.
  unfold scratch_estimate. destruct (SFleb multiplier (S754_zero false)); [done|].
  intros (factor & _ & (scaled & _ & He)%bind_ok)%bind_ok.
  destruct (Z.eqb_spec (capacity_of card) 0) as [H0|H0]; cbn in He.
  - simplify_eq. cbn. split; [lia|]. split; [done|]. split; [|done]. split; [done|tauto].
  - destruct (Z.ltb_spec available (Z.max 1 scaled)); simplify_eq; cbn; (split; [lia|]); (split; [done|]); split; try done; split; lia || done.
Qed.

(** ** Examples *)

Definition card_of (identifier reader : string) (capacity : Z) : wizard SourceCard :=
  build_source_card [("source_id", VStr identifier); ("reader_id", VStr reader); ("device_type", VStr "floppy");
    ("medium_identity", VDict [("identity_strength", VStr "reader-plus-medium");
                               ("medium_signals", VDict [("capacity_bytes", VInt capacity)])])].

Definition cards_of (l : list (string * string * Z)) : list SourceCard :=
  omap (fun '(i, r, c) => match card_of i r c with Ok card => Some card | Err _ => None end) l.

Definition two_floppies : list SourceCard := cards_of [("source_a", "reader_1", 1474560); ("source_b", "reader_1", 737281)].

Example snapshot_of_two :
  match workflow_snapshot two_floppies [] 3000000 ["Finish medium"] true with
  | Ok s => (bs_status <$> sn_steps s, sn_active_source_id s, needed_bytes <$> sn_scratch s, sn_warnings s)
  | Err _ => ([], None, None, [])
  end = (["ready"; "queued"], Some "source_a", Some 2211840, ["same_reader_replaced:reader_1"]).
Proof. vm_compute. reflexivity. Qed.

Example odd_capacity_rounds_down :
  ((fun card => match scratch_estimate card 0 one_and_a_half with Ok e => needed_bytes e | Err _ => 0 end)
   <$> two_floppies) = [2211840; 1105921].
Proof. vm_compute. reflexivity. Qed.

(** Once the first card is completed no other card of the list becomes ready. *)
Example plan_stalls_after_the_first :
  (bs_status <$> (plan_batch two_floppies ["source_a"]).1) = ["completed"; "queued"].
Proof. vm_compute. reflexivity. Qed.

(** An empty reader with a known identity is ready. *)
Example empty_reader_is_ready :
  ((fun card => (in_state (insertion_state card), bs_status <$> (plan_batch [card] []).1)) <$> cards_of [("source_a", "reader_1", 0)]) = [("empty", ["ready"])].
Proof. vm_compute. reflexivity. Qed.

Lemma one_medium_at_a_time_witness :
  exists s, workflow_snapshot two_floppies [] 3000000 ["Finish medium"] true = Ok s /\
    sn_active_source_id s = source_id <$> active_card two_floppies [].
Proof.
  eexists. split; [vm_compute; reflexivity|].
  refine (proj1 (proj2 (proj2 (one_medium_at_a_time two_floppies [] 3000000 ["Finish medium"] true _ _)))).
  vm_compute. reflexivity.
Defined.
