(* ===== verification/ContentSignature.v ===== *)
(** * Content signatures (src/worker/content_signature.py)

    The type of a file from a bounded sample of its bytes, with the extension as evidence only.
    Confidences are hundredths.  The theorem: what makes a file safe for a parser, and that the
    type never depends on the extension. *)

From Stdlib Require Import ZArith Lia String Ascii.
From stdpp Require Import base list strings gmap.
From S2P Require Import Prelude PyStr Json Sha256 Unicode Paths.

Local Open Scope string_scope.
Local Open Scope Z_scope.

(** worker/content_signature.py:10-10 SAMPLE_BYTES *)
Definition SAMPLE_BYTES : Z := 8192.

Definition MIME_DOCX : string := "application/vnd.openxmlformats-officedocument.wordprocessingml.document".
Definition MIME_XLSX : string := "application/vnd.openxmlformats-officedocument.spreadsheetml.sheet".
Definition MIME_PPTX : string := "application/vnd.openxmlformats-officedocument.presentationml.presentation".

(** worker/content_signature.py:11-37 EXTENSION_MIME *)
Definition EXTENSION_MIME : list (string * string) :=
  [(".exe", "application/x-msdownload"); (".jpg", "image/jpeg"); (".jpeg", "image/jpeg"); (".gif", "image/gif");
   (".pdf", "application/pdf"); (".png", "image/png"); (".heic", "image/heic"); (".tif", "image/tiff"); (".tiff", "image/tiff");
   (".raw", "image/x-dcraw"); (".mp4", "video/mp4"); (".mov", "video/quicktime"); (".mp3", "audio/mpeg"); (".wav", "audio/wav");
   (".zip", "application/zip"); (".7z", "application/x-7z-compressed"); (".rar", "application/vnd.rar");
   (".tar", "application/x-tar"); (".gz", "application/gzip"); (".docx", MIME_DOCX); (".xlsx", MIME_XLSX);
   (".pptx", MIME_PPTX); (".rtf", "application/rtf"); (".txt", "text/plain"); (".eml", "message/rfc822")].

(** worker/content_signature.py:40-45 ContentSignatureError, and the [OSError] of opening the file. *)
Inductive signature_error := ContentSignatureError (code message : string) | SignatureOSError.
Abbreviation detected := (result signature_error).

(** worker/content_signature.py:48-57 SignatureResult *)
Record SignatureResult := {
  sg_mime_type : string; sg_signature : string; sg_confidence : Z; sg_extension_mime : option string;
  sg_parser_safe : bool; sg_evidence : list string; sg_sample_sha256 : string; sg_sample_size : Z }.

(** ** Bytes *)

(** A literal of ASCII characters as bytes. *)
Definition lit (s : string) : bytes := ord <$> chars s.

Definition begins (p b : bytes) : bool := bool_decide (take (length p) b = p).

(** [p in b]. *)
Fixpoint occurs (p b : bytes) : bool :=
  begins p b || match b with [] => false | _ :: b => occurs p b end.

(** [b\[i:j\]]. *)
Definition slice (b : bytes) (i j : nat) : bytes := drop i (take j b).

Definition lower_byte (x : Z) : Z := if (65 <=? x) && (x <=? 90) then x + 32 else x.

(** The bytes decode as UTF-8. *)
Fixpoint valid_utf8 (fuel : nat) (b : bytes) : bool :=
  match fuel, b with
  | S fuel, _ :: _ => match decode_step b with Char _ n => valid_utf8 fuel (drop n b) | Bad _ => false end
  | _, [] => true
  | O, _ :: _ => false
  end.

(** ** Signatures *)

Definition PNG_MAGIC : bytes := [137; 80; 78; 71; 13; 10; 26; 10].
Definition ZIP_MAGIC : bytes := [80; 75; 3; 4].
Definition JPEG_MAGIC : bytes := [255; 216; 255].

(** worker/content_signature.py:187-192 _looks_random *)
Definition looks_random (sample : bytes) : bool :=
  if zlen sample <? 512 then false
  else (200 <? zlen (dedup sample)) && (zlen (filter_b (Z.eqb 0) sample) <? zlen sample / 100).

(** worker/content_signature.py:195-197 _looks_email *)
Definition looks_email (sample : bytes) : bool :=
  let header := lower_byte <$> take 1024 sample in
  occurs (lit "from:") header && occurs (10 :: lit "subject:") header.

(** worker/content_signature.py:200-208 _looks_text *)
Definition looks_text (sample : bytes) : bool :=
  if (zlen sample <? 4) || bool_decide (0 ∈ sample) then false
  else if negb (valid_utf8 (length sample) sample) then false
  else zlen (filter_b (fun b => (b <? 32) && negb (bool_decide (b ∈ [9; 10; 12; 13]))) sample) <=? Z.max 1 (zlen sample / 100).

(** worker/content_signature.py:112-176 _magic *)
Definition magic (sample : bytes) : string * string * Z :=
  if bool_decide (sample = []) then ("empty", "application/x-empty", 100)
  else if begins (lit "MZ") sample then ("pe-executable", "application/x-msdownload", 98)
  else if begins JPEG_MAGIC sample then ("jpeg", "image/jpeg", 98)
  else if begins (lit "%PDF-") sample then ("pdf", "application/pdf", 98)
  else if begins PNG_MAGIC sample then ("png", "image/png", 98)
  else if begins (lit "GIF87a") sample || begins (lit "GIF89a") sample then ("gif", "image/gif", 95)
  else if begins (lit "II*" ++ [0])%list sample || begins ([77; 77; 0; 42]) sample then ("tiff", "image/tiff", 95)
  else if begins (lit "RAW" ++ [0])%list sample then ("raw", "image/x-dcraw", 80)
  else if (12 <=? zlen sample) && bool_decide (slice sample 4 8 = lit "ftyp") then
    let brand := slice sample 8 12 in
    if bool_decide (brand ∈ [lit "heic"; lit "heix"; lit "hevc"; lit "hevx"]) then ("heic", "image/heic", 92)
    else if bool_decide (brand = lit "qt  ") then ("quicktime", "video/quicktime", 92)
    else ("mp4", "video/mp4", 90)
  else if begins (lit "ID3") sample || bool_decide (take 2 sample ∈ [[255; 251]; [255; 243]; [255; 242]]) then ("mp3", "audio/mpeg", 90)
  else if begins (lit "RIFF") sample && bool_decide (slice sample 8 12 = lit "WAVE") then ("wav", "audio/wav", 92)
  else if begins ZIP_MAGIC sample then
    let head := take (Z.to_nat SAMPLE_BYTES) sample in
    if occurs (lit "word/") head then ("docx", MIME_DOCX, 92)
    else if occurs (lit "xl/") head then ("xlsx", MIME_XLSX, 92)
    else if occurs (lit "ppt/") head then ("pptx", MIME_PPTX, 92)
    else ("zip", "application/zip", 90)
  else if begins [55; 122; 188; 175; 39; 28] sample then ("7z", "application/x-7z-compressed", 95)
  else if begins (lit "Rar!" ++ [26; 7])%list sample then ("rar", "application/vnd.rar", 95)
  else if (262 <? zlen sample) && bool_decide (slice sample 257 262 = lit "ustar") then ("tar", "application/x-tar", 90)
  else if begins [31; 139] sample then ("gzip", "application/gzip", 90)
  else if begins (lit "{\rtf") sample then ("rtf", "application/rtf", 90)
  else if looks_email sample then ("email", "message/rfc822", 86)
  else if looks_text sample then ("text", "text/plain", 80)
  else if looks_random sample then ("random", "application/octet-stream", 40)
  else ("unknown", "application/octet-stream", 20).

(** worker/content_signature.py:179-184 _is_polyglot *)
Definition is_polyglot (sample : bytes) : bool :=
  1 <? zlen (filter_b (fun marker => occurs marker sample) [lit "MZ"; lit "%PDF-"; ZIP_MAGIC; JPEG_MAGIC; PNG_MAGIC]).

(** worker/content_signature.py:78-109 detect_content_signature_bytes *)
Definition detect_content_signature_bytes (sample : bytes) (extension_mime : option string) : SignatureResult :=
  let '(signature, mime_type, base) := magic sample in
  let mismatch := match extension_mime with Some e => negb (String.eqb e mime_type) | None => false end in
  let polyglot := is_polyglot sample in
  let evidence :=
    ((if bool_decide (sample = []) then ["empty_content"] else []) ++
     (match extension_mime with Some e => ["extension:" +:+ e] | None => [] end) ++
     (if mismatch then ["extension_mismatch"] else []) ++
     (if polyglot then ["polyglot_signature"] else []) ++
     (if String.eqb signature "unknown" && negb (bool_decide (sample = [])) then ["unknown_magic"] else []))%list in
  {| sg_mime_type := mime_type; sg_signature := signature; sg_confidence := if polyglot then Z.min base 65 else base;
     sg_extension_mime := extension_mime;
     sg_parser_safe := negb (bool_decide (signature ∈ ["pe-executable"; "unknown"; "empty"]))
                       && negb (bool_decide ("polyglot_signature" ∈ evidence)) && negb mismatch;
     sg_evidence := dedup evidence; sg_sample_sha256 := sha256_hex sample; sg_sample_size := zlen sample |}.

(** A path as the functions find it: not a regular file, or its bytes unless it cannot be opened. *)
Inductive node := NotRegular | Unopenable | Regular (data : bytes).

(** [PurePath.suffix] of a name. *)
Definition suffix_of (name : string) : string :=
  let last := path_name_of (parse_path name) in str_drop (str_len (name_stem last)) last.

(** worker/content_signature.py:60-75 detect_content_signature *)
Definition detect_content_signature (path_name : string) (n : node) (original_name : option string) (sample_limit : Z) : detected SignatureResult :=
  _ ← raise_if (sample_limit <=? 0) (ContentSignatureError "invalid_sample_limit" "sample limit must be positive");
  match n with
  | NotRegular => Err (ContentSignatureError "invalid_content_path" "content path must be a regular file")
  | Unopenable => Err SignatureOSError
  | Regular data =>
    let name := match original_name with Some s => if String.eqb s "" then path_name else s | None => path_name end in
    Ok (detect_content_signature_bytes (take (Z.to_nat sample_limit) data) (dict_get EXTENSION_MIME (lower (suffix_of name))))
  end.

(** worker/content_signature.py:211-220 sparse_sample *)
Definition sparse_sample (n : node) (sample_limit : Z) : detected bytes :=
  _ ← raise_if (sample_limit <=? 0) (ContentSignatureError "invalid_sample_limit" "sample limit must be positive");
  match n with Regular data => Ok (take (Z.to_nat sample_limit) data) | _ => Err SignatureOSError end.

(** ** What is safe for a parser *)

Definition signature_of (sample : bytes) : string := (magic sample).1.1.
Definition mime_of (sample : bytes) : string := (magic sample).1.2.

Lemma polyglot_in_evidence sample e :
  "polyglot_signature" ∈ ((if bool_decide (sample = []) then ["empty_content"] else []) ++
     (match e with Some x => ["extension:" +:+ x] | None => [] end) ++
     (if match e with Some x => negb (String.eqb x (mime_of sample)) | None => false end then ["extension_mismatch"] else []) ++
     (if is_polyglot sample then ["polyglot_signature"] else []) ++
     (if String.eqb (signature_of sample) "unknown" && negb (bool_decide (sample = [])) then ["unknown_magic"] else []))%list
  <-> is_polyglot sample = true.
Proof.
  rewrite !elem_of_app. split.
  - intros [Hi|[Hi|[Hi|[Hi|Hi]]]].
    + destruct (bool_decide (sample = [])); [by apply list_elem_of_singleton in Hi|by apply elem_of_nil in Hi].
    + destruct e; [by apply list_elem_of_singleton in Hi|by apply elem_of_nil in Hi].
    + destruct (match e with Some _ => _ | None => _ end); [by apply list_elem_of_singleton in Hi|by apply elem_of_nil in Hi].
    + by destruct (is_polyglot sample); [|apply elem_of_nil in Hi].
    + destruct (_ && _); [by apply list_elem_of_singleton in Hi|by apply elem_of_nil in Hi].
  - intros ->. right; right; right; left. left.
Qed.

(** The type and the signature depend on the sample alone, never on the extension; the file is
    safe for a parser exactly when the signature is a known one of no executable, the sample holds
    the marks of at most one format, and the extension, if it is known, names the same type. *)
Theorem parser_safe_exact sample extension_mime :
  let r := detect_content_signature_bytes sample extension_mime in
  sg_mime_type r = mime_of sample /\ sg_signature r = signature_of sample /\
  (sg_parser_safe r = true <->
   signature_of sample ∉ ["pe-executable"; "unknown"; "empty"] /\ is_polyglot sample = false /\
   (extension_mime = None \/ extension_mime = Some (mime_of sample))).
Proof.
  pose proof (polyglot_in_evidence sample extension_mime) as Hp. unfold signature_of, mime_of in *.
  unfold detect_content_signature_bytes. destruct (magic sample) as [[signature mime] base]. cbn [fst snd] in *. cbn.
  split; [done|]. split; [done|]. rewrite !andb_true_iff, !negb_true_iff, !bool_decide_eq_false, Hp, not_true_iff_false.
  destruct extension_mime as [e|]; [|naive_solver]. rewrite negb_false_iff, String.eqb_eq. naive_solver.
Qed.

Example demo_pdf : sg_parser_safe (detect_content_signature_bytes (lit "%PDF-1.7 text") (Some "application/pdf")) = true.
Proof. vm_compute. reflexivity. Qed.

(** Two letters anywhere in a document make it a polyglot. *)
Example two_letters_are_a_polyglot :
  (fun r => (sg_parser_safe r, sg_evidence r)) (detect_content_signature_bytes (lit "%PDF-1.7 by MZ") None) = (false, ["polyglot_signature"]).
Proof. vm_compute. reflexivity. Qed.

(** Text whose sample ends inside a character is of unknown type. *)
Example cut_character_is_unknown :
  sg_signature <$> (match detect_content_signature "notes.txt" (Regular (lit "abc" ++ [195; 169])%list) None 4 with Ok r => Some r | Err _ => None end)
  = Some "unknown".
Proof. vm_compute. reflexivity. Qed.
